(* ===== verification/_CoqProject ===== *)
-Q . S2P
Prelude.v
Json.v
PyText.v
Validation.v
TextCompact.v
Summary.v
Conversation.v
Types.v
EventBus.v
Redact.v
Hooks.v
Context.v
Compaction.v
Policy.v
Budgets.v
Structured.v
AgentState.v
AgentTools.v
AgentLoop.v
AgentFrame.v
AgentSafety.v
AgentBounds.v
AgentReplay.v
AgentScenario.v
AsyncTools.v
AsyncLoop.v
AsyncFrame.v
AsyncAgent.v
AsyncReplay.v
Store.v
Memory.v
Replay.v
ReplayDebug.v
FileLock.v
Patch.v
Editor.v
Client.v
Subagent.v
Protocol.v
McpServer.v
McpClient.v
Todo.v
Resume.v
Classifier.v
Skills.v
Plugins.v
Utf8.v
Workspace.v
Shell.v
Containers.v
Terminal.v
WebSocket.v
Server.v
ServerHttp.v
ServerAgent.v
RemoteWorkspace.v
ToolWorkspaces.v
SkillVet.v
ZipSkills.v
Git.v
McpRegistry.v
AsyncClient.v
PluginScan.v
PluginLoad.v
AsyncSubagent.v
Tracer.v
Observe.v
Snapshots.v
