(* ===== verification/Prelude.v ===== *)
(** * Kinetic agent SDK

    A model, in Rocq, of the core of the [kinetic_sdk] Python package, with the
    theorems that make it correct. This comment documents the whole development;
    the file itself is its prelude (text, dictionaries, errors, floats, tactics).

    ** The program

    An [Agent] holds a conversation with a language model. A run appends the
    user's message, picks a mode (FLASH or MAX), and then iterates: compact the
    history if it is too long, call the model, and either accept its final answer
    or execute the tool calls it asked for and go on. Tool calls are gated by a
    permission policy, by hooks, by human confirmations (which stop the run and
    are resumed later, possibly in another process), by circuit breakers and by
    budgets. Everything of interest is published on an event bus, from which a
    recorder writes replays. A tool may itself delegate to sub-agents, edit files,
    keep a plan or a memory, or live behind an MCP server; and the agent's own
    tools can be served to other programs over MCP.

    What binds the parts together is the shape of the history: a provider rejects
    a conversation in which an assistant's [tool_use] block has no [tool_result],
    or a result has no call. Most of the code that appends to, cuts, compacts,
    saves or translates a history takes care of that shape. [awaiting st ids]
    (Conversation.v) states it once, for a history that ends waiting for the
    results of [ids] ([[]]: it can be replayed), and the components that touch a
    history are proved to keep it.

    ** Files, components and sources (paths under src/kinetic_sdk/)

    Foundations
    - Prelude.v: Python text ([pystr], code points), insertion-ordered
      dictionaries, the error type [result], IEEE doubles ([pyfloat]), shared
      list lemmas and tactics.
    - Json.v: JSON-shaped Python values, equality, truthiness, and [PyRuntime].
    - PyText.v: the string methods and the difflib ratio the editor uses.
    - Types.v: tool/base.py, and the data types of llm/client.py,
      security/policy.py, agent/modes.py, agent/planning.py.

    Components of the agent
    - Validation.v: tool/validation.py. The validator against the denotation of
      the schema language.
    - Conversation.v: conversation/state.py. The history and its invariant.
    - TextCompact.v, Summary.v, Context.v, Compaction.v: context/manager.py, from
      the text primitives to the managers ([ContextManager], [ReplaySafe]).
    - EventBus.v: event/bus.py. [EventSink] is what the agent sees of it.
    - Redact.v: security/redact.py, security/audit.py.
    - Hooks.v: hooks/base.py, hooks/registry.py.
    - Policy.v: security/policy.py. [PermissionPolicy] is the interface.
    - Budgets.v: agent/budget.py, agent/stuck_detector.py, subagent/budget.py,
      llm/usage.py.
    - Structured.v: agent/structured.py, verify/models.py, context/injection.py.

    The agent: agent/agent.py
    - AgentState.v: the attributes ([St]: conversation, routing, runtime state,
      guards), the configuration, the environment [AgentEnv] and the state and
      error monad [AM] all methods are written in. The exceptions of a method are
      [aexn]; the confirmation exception carries the pending call.
    - AgentTools.v: [_prepare_call] (hooks, policy, confirmation, breakers, input
      validation), [_run_tool] with its bounded thread pool, retries, and the two
      batch executions.
    - AgentLoop.v: routing, memory, planning, the model call, the loop and [run].
    - AgentFrame.v: the proof method. A relation between states that satisfies a
      small interface ([ToolRel], [LoopRel], ...) is kept by every method; each
      safety theorem instantiates it.
    - AgentSafety.v, AgentBounds.v, AgentReplay.v: the theorems.
    - AgentScenario.v: whole runs evaluated by the kernel, as witnesses of the
      theorems' hypotheses and as records of surprising behaviour.

    The asynchronous agent: agent/async_agent.py
    - AsyncTools.v, AsyncLoop.v: its methods over the same [St] and [AgentEnv]. Its
      own interface is [AsyncEnv]: at every [await] the event loop may deliver a
      cancellation of the task; [wait_for] and [gather] run executions. A method
      whose body is the synchronous one is the same definition ([async_preview]).
    - AsyncFrame.v: the frame of AgentFrame.v for every asynchronous method.
    - AsyncAgent.v: authorization, and the equivalence with the synchronous agent
      ([same], by which each method is compared to its twin).
    - AsyncReplay.v: what a batch leaves in the history; whole runs.

    Around the agent
    - Tracer.v: observability/tracer.py, over a heap of span objects.
    - Observe.v: observability/logger.py, trace.py, metrics.py, otel.py, as
      subscribers of the bus; [ClockText] and [Spans] are what they need of others.
    - Classifier.v: agent/classifier.py, what stands behind [classify].
    - Store.v: conversation/store.py, conversation/checkpoint.py.
    - Replay.v: replay/models.py, store.py, recorder.py, checkpoint.py.
    - Resume.v: [resume_from_confirmation], the agent and its checkpoint composed.
    - ReplayDebug.v: replay/debugger.py, session.py, deterministic.py.
    - Memory.v: memory/provider.py, inmemory.py, json_file.py, tool.py. The class
      [MemoryProvider] is what the tools use of a provider.
    - Todo.v: todo/models.py, store.py, tool.py. [LawfulTodoStore] states what the
      tools rely on; both stores are instances.
    - FileLock.v: subagent/filelock.py, as a step system of interleaved threads.
    - Patch.v: files/patch.py. Editor.v: files/tool.py, over the same workspace.
    - Snapshots.v: files/snapshots.py and history.py, over [GitHost] and
      [SidecarFiles].
    - Client.v: llm/client.py, translation, parsing, streams and retries.
    - AsyncClient.v: how its requests are put together, its two calls as a whole,
      and llm/async_client.py, over [Provider] and [AsyncProvider].
    - Subagent.v: subagent/delegation.py, pool.py, tool.py, over a heap of the
      guards that parent and child agents share by reference.
    - AsyncSubagent.v: subagent/manifest.py, the registry and binding of the tool,
      streams, async_delegation.py and async_tool.py, over the same heap.

    - Skills.v: skills/skill.py, loader.py, registry.py, activation.py, over the
      interface [SkillFiles] to the file system.
    - SkillVet.v: skills/vet.py and the resources of skills/skill.py. The scanner's
      expressions are [VetPatterns], its judge a model call.
    - ZipSkills.v: skills/zip_loader.py and the pipeline of skills/__init__.py, from
      an archive ([Archives]) over the scanner to the registry.
    - Git.v: secret/value.py, provider.py, registry.py, and git/tool.py over
      [GitHost].
    - Plugins.v: plugin/manifest.py, discovery.py, registry.py; [PluginLoader]
      stands for scanning and importing one plugin.
    - PluginScan.v: plugin/scanner.py, over syntax trees; [PluginSources] parses and
      finds files. [dangerous] says what the scanner is to find.
    - PluginLoad.v: plugin/loader.py over [Interpreter], which runs plugin code and
      may change the world in any way; the loader is a [PluginLoader].

    MCP
    - Protocol.v: mcp/protocol.py. Messages, their line of JSON, the decoder.
    - McpServer.v: mcp/server.py, and the stdio part of mcp/transport.py. The
      handshake automaton [step_state] with [session_calls] and [session_trail]
      is the specification a session refines.
    - McpClient.v: mcp/client.py and mcp/adapter.py. [Loopback] joins a client to
      the server of McpServer.v.
    - McpRegistry.v: mcp/registry.py, over [Connections]. Clients are objects on a
      heap that the cache refers to.

    The agent server: server/app.py
    - Utf8.v, WebSocket.v: text on the wire and the frames that carry it.
    - Server.v: the state the request threads share (run records, sessions,
      admission, the rate limit). Every critical section of the code is one step of
      [moves]; [reachable] is every interleaving of requests and shutdowns. Agents
      are objects with an index: sessions and threads hold references.
    - ServerHttp.v: the handlers, in a monad [Handler] that carries the server, the
      replies sent and the world. [ServedAgent] is what the server uses of an agent,
      [ServerEnv] what the application gives it (factories, workspaces, a clock).
    - ServerAgent.v: the agent of AgentLoop.v as a [ServedAgent]; [AgentPromise] is
      what the handlers' theorem asks of one, and the agent's theorem discharges.

    Workspaces: workspace/, terminal/
    - Workspace.v: workspace/base.py and manager.py, with the functions of
      [posixpath] they use. [WorkspaceBase] is the interface of a backend,
      [contract] what one promises: a map from locations to texts. [Files] is the
      file system; [LawfulFiles] what the local workspace relies on.
    - Shell.v: [shlex.quote], and a reader of the shell's words that shows what a
      quoted text is read as.
    - Containers.v: terminal/docker.py, workspace/docker_workspace.py and
      k8s_workspace.py over [Processes]. [unix_files] says what the commands of a
      container do to its files.
    - Terminal.v: terminal/tool.py, over any [WorkspaceBase] or a process.
    - RemoteWorkspace.v: workspace/remote.py over [HttpClient]; [loopback] joins
      it to the handlers of ServerHttp.v.
    - ToolWorkspaces.v: the patch tool of Patch.v over the backends.

    ** What the theorems show

    - Safety of a run: [every_execution_authorized] (nothing runs that the policy,
      or a human, did not allow for those very arguments), [at_most_eight_jobs],
      [redact_value_scrubs], [relative_prefix_is_sound].
    - The asynchronous agent: [async_execution_authorized] (the same safety, wherever
      a cancellation strikes), [async_run_is_run] (uncancelled, on the features both
      share, it is the synchronous agent), [async_batch_answers_in_order] and
      [async_verdict_answers_batch] (how far a batch got, however it ended); and
      what a cancellation costs: [cancellation_strands_calls].
    - The same gate over MCP: [server_session] (a session executes exactly the
      permitted calls after the handshake and answers every request once),
      [served_calls_guarded], [remote_call_is_local_call] (the adapter of a remote
      tool is the tool under the server's policy), [connecting_lists_the_tools],
      [registry_loses_no_connection], [serve_survives_any_input]; and where it
      breaks: [late_answer_poisons_client], [close_does_not_unregister].
    - The server: [admission_is_bounded], [rate_limit_holds],
      [drained_server_is_idle], [runs_do_not_share_agents] (in every interleaving),
      [unauthorized_request_changes_nothing], [request_answered_once],
      [frames_carry_texts], and, over the agent itself,
      [sessions_stay_replayable]; where it falls short: [run_records_leak],
      [stream_overlaps_session_run], [confirmation_ruins_session].
    - Workspaces: [local_workspace_implements], [kubernetes_workspace_implements]
      and [docker_workspace_implements] (one contract, as far as each backend keeps
      it), [local_workspace_confined] and [pod_paths_contained] (no path leads
      out), [listed_name_leads_back], [run_wrapper_is_restricted],
      [remote_operation_is_served_operation] (client and server composed),
      [terminal_success_is_exit_zero]; and where they fall short:
      [docker_paths_escape], [crlf_is_lost], [double_slash_root_refuses_all],
      [patches_need_local_paths], [failed_patch_empties_file].
    - The history invariant, component by component:
      [run_keeps_history_replayable], [verdict_completes_history],
      [batch_answers_in_order], [compact_keeps_history_replayable],
      [summarizing_compact_keeps_history_replayable],
      [rewind_keeps_history_replayable], [translated_history_pairs]; and across
      processes [confirmation_survives_restart].
    - Termination and bounds: [run_calls_bounded], [retries_are_exact],
      [max_mode_is_sticky], [tree_stays_within_budget],
      [async_tree_stays_within_budget], the exact conditions under
      which the budgets, breakers and detectors trip, [compress_bounded].
    - Locks: in every interleaving of one process's threads the lock refines an
      abstract lease ([registry_refines_lease], [live_lease_excludes]) and an
      expired one is reclaimed ([expired_lock_is_reclaimed]); across processes
      exclusion fails ([processes_can_share_a_lock], [torn_record_is_permanent]).
    - Equivalence with a reference: [validate_value_correct],
      [validate_tool_input_correct], [absolute_prefix_is_containment],
      [diff_applies], [stream_equals_complete_response],
      [scan_is_clean_iff_harmless].
    - Round trips: [store_roundtrip], [checkpoint_resumes_agent],
      [parse_inverts_print], [memory_file_roundtrip], [wire_roundtrip],
      [todo_plan_roundtrip], [frontmatter_roundtrip], [undo_restores].
    - All or nothing: [patch_all_or_nothing], [failed_edit_changes_nothing];
      [str_replace_edits_one_place] says what a successful edit is.
    - Replays: [recorded_events_are_stored], [recorded_tools_repeat_the_run],
      [fork_continues_recorded_conversation], [comparison_ignores_identity].
    - Observability: [traces_are_trees] (one tree per run, closed when it ends),
      [trace_and_metrics_agree]; and [late_call_stays_open],
      [restarted_run_leaks_a_span].
    - Tools that keep state: [search_is_ranked_recall],
      [forgetting_spares_persistent], [todo_write_keeps_plan].
    - Extensions: [loaded_tools_do_not_shadow], [registry_holds_first_vetted],
      [make_manifest_ok], [skill_from_directory_ok]; and where one malformed
      package stops the rest: [undecodable_skill_stops_discovery],
      [other_error_stops_discovery].
    - Code from strangers: [scan_is_clean_iff_harmless] (the scanner finds exactly
      the dangerous nodes), [only_scanned_code_runs] (the loader runs no code it has
      not scanned); where they fall short: [late_import_evades],
      [loop_target_evades], [package_init_is_unscanned],
      [followed_manifest_is_unscanned], [isolation_is_ignored].
    - Skills from strangers: [extraction_is_contained] (no file outside the
      temporary directory, whatever the archive), [vetting_decides_admission] (what
      the scanner and the judge let through), [archives_add_vetted_copies] (both and
      the registry composed); where they fall short: [description_is_not_vetted],
      [linked_temporary_directory_refuses_all].
    - Snapshots: [snapshots_stay_private], [snapshot_env_is_isolated]; where they
      fall short: [own_configuration_is_replaced], [same_text_again_fails].
    - The git tool: [git_commands_are_curated], [token_is_scrubbed]; where it falls
      short: [push_forced_by_refspec], [checkout_discards_changes].
    - The model clients: [async_client_is_client], [async_client_returns].

    ** Conventions

    Code that is not part of the package is a parameter, collected in type
    classes; a theorem holds for all of its instances unless it names a law.
    [PyRuntime] (regular expressions, hashing, [repr], JSON and URL parsing),
    [SecretPatterns], [UnicodeDigits], [UnicodeWord], [Numerals] (numbers from
    text), [SkillFiles], [FileSizes], [VetPatterns], [Archives], [PluginLoader],
    [PluginSources], [Interpreter], [TraceHost], [ClockText], [Spans], [AgentEnv] (model, tools, stores, memory,
    clock, other threads: arbitrary steps of an arbitrary world), [AsyncEnv], the provider of
    Client.v, [Provider] and [AsyncProvider], [GitHost], [SidecarFiles], [Connections], [ToolWorld] and [ClientEnv] (served tools, clocks, callbacks),
    [ServedAgent] and [ServerEnv] (agents, factories and workspaces behind HTTP),
    [Globs], [Processes] and [HttpClient] (file name patterns, child processes,
    the client side of HTTP).
    [LawfulWorkspace], [LawfulFiles], [unix_files], [LawfulBackend], [Datetime], [ReplayStore],
    [MemoryProvider], [LawfulTodoStore], [LawfulIds], [ObservedWorld] and [AgentPromise] state
    laws, and each has an instance in its file. Floats are IEEE doubles ([SpecFloat]), integers [Z]:
    Python's are unbounded.

    Shared mutable objects are modelled where sharing matters: the heap of guards
    in Subagent.v, the lock record and its threads in FileLock.v, the pool's
    occupied slots in AgentState.v. Elsewhere an object has one owner and its
    state is passed explicitly.

    ** Fuel

    - [loop_fuel] (AgentLoop.v) is the largest value the iteration cap can take;
      the cap is read at each iteration and only escalation raises it, so
      [run_calls_bounded] proves the fuel is never exhausted.
    - Another thread may keep sending messages while the inbox is drained; the
      configuration's [drain_bound] is the number after which a drain counts as
      never returning. That, and waiting for a job that never ends, is the
      outcome [Blocked]; the theorems hold for every bound.
    - The parsers of Patch.v take the number of lines plus one; every step
      consumes a line, and [parse_patch_total] proves they return.
    - The retry loop of Client.v recurses on the retries left.
    - The matching blocks of PyText.v take the length of both texts
      ([matched_fuel] proves more fuel changes nothing).
    - The serving loop of McpServer.v takes one step per line and one for the end
      of the stream; the client's wait takes one step per message it reads, and
      the theorems about it hold for every positive fuel.
    Other recursion is structural.

    ** Not modelled

    - The asynchronous classifier (agent/async_classifier.py).
    - The planner's prompt: planning is a call of the environment.
    - cli, eval, profiles, workflows, testing: process and network I/O,
      configuration and test doubles; of observability the console logger.
    - Plugins in containers (plugin/docker_loader.py, runtime.py); the directory
      part of plugin and skill names is POSIX.
    - browser, codemap, memory/vector.py, files/search.py.
    - Of mcp: processes, the HTTP/SSE transport, bytes that are not UTF-8, the
      asyncio facade. A served tool returns a [ToolResult] or raises.
    - Regular expressions are parameters, except where the code's expression is a
      fixed literal shape (hunk headers in Patch.v), which is written out.
    - Python's limit of 4300 digits on [int()], and memory or stack exhaustion. *)

From stdpp Require Import base gmap strings list pretty sorting.
From Stdlib Require Import ZArith Lia SpecFloat.
From Stdlib Require Ascii String.

#[global] Set Default Proof Using "Type".

(** ** Python text

    A Python [str] is a sequence of Unicode code points, so [len], slicing and
    searching work on code points and not on the bytes of an encoding. *)

Abbreviation pystr := (list N).

(** The code points of a UTF-8 encoded literal: [u "..."] is the Python literal
    with the same characters. *)
Fixpoint utf8_decode (bs : list N) : list N :=
  match bs with
  | [] => []
  | b0 :: r0 =>
      if (b0 <? 128)%N then b0 :: utf8_decode r0
      else match r0 with
      | [] => [b0]
      | b1 :: r1 =>
          if (b0 <? 224)%N then (N.land b0 31 * 64 + N.land b1 63)%N :: utf8_decode r1
          else match r1 with
          | [] => [b0; b1]
          | b2 :: r2 =>
              if (b0 <? 240)%N
              then ((N.land b0 15 * 64 + N.land b1 63) * 64 + N.land b2 63)%N :: utf8_decode r2
              else match r2 with
              | [] => [b0; b1; b2]
              | b3 :: r3 =>
                  (((N.land b0 7 * 64 + N.land b1 63) * 64 + N.land b2 63) * 64
                   + N.land b3 63)%N :: utf8_decode r3
              end
          end
      end
  end.

Fixpoint string_bytes (s : String.string) : list N :=
  match s with
  | String.EmptyString => []
  | String.String a s' => Ascii.N_of_ascii a :: string_bytes s'
  end.

Definition u (s : String.string) : pystr := utf8_decode (string_bytes s).

#[global] Arguments u _ : simpl never.

Example u_accents : length (u "tin nhắn trước đó") = 17.
Proof. vm_compute. reflexivity. Qed.

Definition pystr_eqb (a b : pystr) : bool := bool_decide (a = b).

(** ** Exceptions and fallible code

    An ordinary Python exception is its class name and message; a fallible
    function returns a [result]. *)

Record pyexn := PyExn { exn_type : pystr; exn_msg : pystr }.

#[export] Instance pyexn_eq_dec : EqDecision pyexn.
Proof. solve_decision. Defined.

Inductive result (A : Type) : Type :=
| Ok (a : A)
| Err (e : pyexn).
Arguments Ok {A} a.
Arguments Err {A} e.

Definition rbind {A B} (m : result A) (f : A -> result B) : result B :=
  match m with Ok a => f a | Err e => Err e end.

Definition rmap {A B} (f : A -> B) (m : result A) : result B :=
  match m with Ok a => Ok (f a) | Err e => Err e end.

(** A comprehension whose element may raise: [[f(x) for x in l]]. *)
Fixpoint rcollect {A B} (f : A -> result B) (l : list A) : result (list B) :=
  match l with
  | [] => Ok []
  | x :: l' => rbind (f x) (fun y => rmap (cons y) (rcollect f l'))
  end.

Declare Scope py_scope.
Delimit Scope py_scope with py.
Notation "x <-! m ;; k" := (rbind m (fun x => k))
  (at level 100, m at next level, right associativity) : py_scope.
#[global] Open Scope py_scope.

Definition is_ok {A} (r : result A) : bool :=
  match r with Ok _ => true | Err _ => false end.

Lemma rcollect_ok {A B} (f : A -> result B) l ys : rcollect f l = Ok ys <-> Forall2 (fun x y => f x = Ok y) l ys.
Proof.
  revert ys; induction l as [|x l IH]; intros ys; simpl.
  - split; [intros [= <-]; constructor|intros H; by inversion H].
  - destruct (f x) as [y|e] eqn:E; simpl; [|split; [done|intros H; inversion H; congruence]].
    destruct (rcollect f l) as [zs|e]; simpl.
    + split; [intros [= <-]; constructor; [done|by apply IH]|]. intros H; inversion H as [|? y' ? ys' H1 H2]; subst.
      apply IH in H2 as [= ->]. congruence.
    + split; [done|]. intros H; inversion H as [|? y' ? ys' H1 H2]; subst. by apply IH in H2.
Qed.

Definition value_error (msg : pystr) : pyexn := PyExn (u "ValueError") msg.

(** [f"{type(exc).__name__}: {exc}"]. *)
Definition describe (e : pyexn) : pystr := exn_type e ++ u ": " ++ exn_msg e.

(** ** Stateful code that may raise

    A method that changes a state (or the world) and returns or raises. *)

Definition py_effect (W A : Type) : Type := W -> result A * W.

Definition eret {W A} (a : A) : py_effect W A := fun w => (Ok a, w).
Definition eraise {W A} (e : pyexn) : py_effect W A := fun w => (Err e, w).
Definition ebind {W A B} (m : py_effect W A) (k : A -> py_effect W B) : py_effect W B :=
  fun w => match m w with (Ok a, w') => k a w' | (Err e, w') => (Err e, w') end.

Declare Scope effect_scope.
Notation "x <~ m ;; k" := (ebind m (fun x => k)) (at level 100, m at next level, right associativity) : effect_scope.

(** ** Python sequences *)

Definition zlen {A} (l : list A) : Z := Z.of_nat (length l).

(** [l[:i]] and [l[i:]] for an integer [i >= 0]. *)
Definition ztake {A} (i : Z) (l : list A) : list A := take (Z.to_nat i) l.
Definition zdrop {A} (i : Z) (l : list A) : list A := drop (Z.to_nat i) l.

(** [l[:i]] for any integer [i]. *)
Definition slice_to {A} (i : Z) (l : list A) : list A :=
  if (i <? 0)%Z then ztake (Z.max 0 (zlen l + i)) l else ztake i l.

(** [l[-k:]] for any integer [k]; Python reads [l[-0:]] as [l[0:]], the whole list. *)
Definition slice_last {A} (k : Z) (l : list A) : list A :=
  if (k <=? 0)%Z then zdrop (- k) l else zdrop (Z.max 0 (zlen l - k)) l.

(** [x.startswith(p)], [p in x] and [x.find(p)] on sequences. *)
Section Sequences.
Context {A : Type} `{EqDecision A}.

Fixpoint starts_with (p x : list A) : bool :=
  match p, x with
  | [], _ => true
  | a :: p', b :: x' => bool_decide (a = b) && starts_with p' x'
  | _ :: _, [] => false
  end.

Fixpoint contains (p x : list A) : bool :=
  starts_with p x || match x with [] => false | _ :: x' => contains p x' end.

Fixpoint find_from (p x : list A) (i : Z) : Z :=
  if starts_with p x then i
  else match x with [] => -1 | _ :: x' => find_from p x' (i + 1) end.

(** [list(dict.fromkeys(l))]: the first occurrence of each element, in order. *)
Fixpoint dedup_from (seen l : list A) : list A :=
  match l with
  | [] => []
  | x :: l' => if bool_decide (x ∈ seen) then dedup_from seen l'
               else x :: dedup_from (x :: seen) l'
  end.

Definition from_keys (l : list A) : list A := dedup_from [] l.

Definition elem_b (x : A) (l : list A) : bool := bool_decide (x ∈ l).
End Sequences.

Definition ends_with {A} `{EqDecision A} (p x : list A) : bool := starts_with (rev p) (rev x).

(** [sep.join(parts)]. *)
Fixpoint join (sep : pystr) (parts : list pystr) : pystr :=
  match parts with
  | [] => []
  | [p] => p
  | p :: ps => p ++ sep ++ join sep ps
  end.

(** [s.split(c)] on one separator character. *)
Fixpoint split_on (c : N) (s : pystr) : list pystr :=
  match s with
  | [] => [[]]
  | x :: s' =>
      match split_on c s' with
      | w :: ws => if (x =? c)%N then [] :: w :: ws else (x :: w) :: ws
      | [] => [[x]]
      end
  end.

Fixpoint drop_while (p : N -> bool) (s : pystr) : pystr :=
  match s with
  | [] => []
  | x :: s' => if p x then drop_while p s' else s
  end.

Definition lstrip_with (p : N -> bool) (s : pystr) : pystr := drop_while p s.
Definition rstrip_with (p : N -> bool) (s : pystr) : pystr := rev (drop_while p (rev s)).

(** The characters [str.strip()] and [str.split()] treat as white space. *)
Definition is_space (c : N) : bool :=
  ((9 <=? c) && (c <=? 13) || (28 <=? c) && (c <=? 32) || (c =? 133) || (c =? 160)
   || (c =? 5760) || (8192 <=? c) && (c <=? 8202) || (c =? 8232) || (c =? 8233)
   || (c =? 8239) || (c =? 8287) || (c =? 12288))%N.

Definition strip (s : pystr) : pystr := rstrip_with is_space (lstrip_with is_space s).
Definition rstrip (s : pystr) : pystr := rstrip_with is_space s.

Definition is_crlf (c : N) : bool := ((c =? 10) || (c =? 13))%N.

(** [s.split()]: the maximal runs of non-white-space characters. *)
Fixpoint split_ws_aux (cur : pystr) (s : pystr) : list pystr :=
  match s with
  | [] => match cur with [] => [] | _ => [rev cur] end
  | c :: s' =>
      if is_space c
      then match cur with
           | [] => split_ws_aux [] s'
           | _ => rev cur :: split_ws_aux [] s'
           end
      else split_ws_aux (c :: cur) s'
  end.
Definition split_ws (s : pystr) : list pystr := split_ws_aux [] s.

(** The line boundaries of [str.splitlines]. *)
Definition is_line_break (c : N) : bool :=
  ((10 <=? c) && (c <=? 13) || (28 <=? c) && (c <=? 30) || (c =? 133)
   || (c =? 8232) || (c =? 8233))%N.

(** [s.splitlines(keepends=True)]; a carriage return followed by a line feed is
    one boundary. [cur] holds the current line, reversed. *)
Fixpoint splitlines_aux (cur : pystr) (s : pystr) : list pystr :=
  match s with
  | [] => match cur with [] => [] | _ => [rev cur] end
  | c :: s' =>
      if (c =? 13)%N then
        match s' with
        | d :: s'' => if (d =? 10)%N then rev (d :: c :: cur) :: splitlines_aux [] s''
                      else rev (c :: cur) :: splitlines_aux [] s'
        | [] => [rev (c :: cur)]
        end
      else if is_line_break c then rev (c :: cur) :: splitlines_aux [] s'
      else splitlines_aux (c :: cur) s'
  end.
Definition splitlines_keep (s : pystr) : list pystr := splitlines_aux [] s.

(** [s.lower()] as the code uses it: compared with ASCII words. ASCII capitals
    and the two other characters whose lower case contains an ASCII letter are
    mapped; the case of other characters cannot affect those comparisons. *)
Definition lower_char (c : N) : pystr :=
  if ((65 <=? c) && (c <=? 90))%N then [(c + 32)%N]
  else if (c =? 8490)%N then [107%N]
  else if (c =? 304)%N then [105%N; 775%N]
  else [c].
Definition lower (s : pystr) : pystr := concat (map lower_char s).

(** Decimal rendering of an integer: [str(n)]. *)
Definition dec (z : Z) : pystr := u (pretty z).

(** ** Python floats: IEEE 754 binary64 *)

Abbreviation pyfloat := spec_float.

Definition fl_of_Z (z : Z) : pyfloat := binary_normalize 53 1024 z 0 false.
Definition fl_mul (x y : pyfloat) : pyfloat := SFmul 53 1024 x y.
Definition fl_add (x y : pyfloat) : pyfloat := SFadd 53 1024 x y.
Definition fl_sub (x y : pyfloat) : pyfloat := SFsub 53 1024 x y.
Definition fl_lt (x y : pyfloat) : bool := SFltb x y.
Definition fl_le (x y : pyfloat) : bool := SFleb x y.
Definition fl_eq (x y : pyfloat) : bool := SFeqb x y.

(** The exact comparison Python makes between an [int] and a [float]. *)
Definition cmp_Z_float (z : Z) (f : pyfloat) : option comparison :=
  match f with
  | S754_nan => None
  | S754_infinity s => Some (if s then Gt else Lt)
  | S754_zero _ => Some (Z.compare z 0)
  | S754_finite s m e =>
      let v := (if s then Z.neg m else Z.pos m) in
      Some (if (0 <=? e)%Z then Z.compare z (v * 2 ^ e)
            else Z.compare (z * 2 ^ (- e)) v)
  end.

Definition Z_ge_float (z : Z) (f : pyfloat) : bool :=
  match cmp_Z_float z f with Some Gt | Some Eq => true | _ => false end.
Definition Z_gt_float (z : Z) (f : pyfloat) : bool :=
  match cmp_Z_float z f with Some Gt => true | _ => false end.

(** [int(f)]: truncation towards zero of a finite float. *)
Definition trunc_float (f : pyfloat) : Z :=
  match f with
  | S754_finite s m e =>
      let v := (if (0 <=? e)%Z then Z.pos m * 2 ^ e else Z.pos m / 2 ^ (- e))%Z in
      if s then (- v)%Z else v
  | _ => 0%Z
  end.

#[export] Instance spec_float_eq_dec : EqDecision spec_float.
Proof. solve_decision. Defined.

(** [float(text)] and [int(text)], which raise [ValueError]. *)
Class Numerals := { parse_float : pystr -> result pyfloat; parse_int : pystr -> result Z }.

(** ** Dictionaries with insertion order *)

Section Dict.
Context {K V : Type} `{EqDecision K}.

Fixpoint dict_get (k : K) (d : list (K * V)) : option V :=
  match d with
  | [] => None
  | (k', v) :: d' => if decide (k = k') then Some v else dict_get k d'
  end.

Fixpoint dict_set (k : K) (v : V) (d : list (K * V)) : list (K * V) :=
  match d with
  | [] => [(k, v)]
  | (k', v') :: d' => if decide (k = k') then (k', v) :: d' else (k', v') :: dict_set k v d'
  end.

Definition dict_pop (k : K) (d : list (K * V)) : list (K * V) :=
  filter (fun kv => kv.1 <> k) d.

Definition dict_has (k : K) (d : list (K * V)) : bool :=
  match dict_get k d with Some _ => true | None => false end.
End Dict.

(** ** Shared tactics *)

(** Split every boolean [&&]/[||]/comparison in the context into propositions. *)
Ltac bool_hyps :=
  repeat match goal with
  | H : _ && _ = true |- _ => apply andb_prop in H; destruct H
  | H : _ || _ = false |- _ => apply orb_false_elim in H; destruct H
  | H : negb _ = true |- _ => apply negb_true_iff in H
  | H : negb _ = false |- _ => apply negb_false_iff in H
  | H : bool_decide _ = true |- _ => apply bool_decide_eq_true_1 in H
  | H : bool_decide _ = false |- _ => apply bool_decide_eq_false_1 in H
  | H : (_ <=? _)%Z = true |- _ => apply Z.leb_le in H
  | H : (_ <=? _)%Z = false |- _ => apply Z.leb_gt in H
  | H : (_ <? _)%Z = true |- _ => apply Z.ltb_lt in H
  | H : (_ <? _)%Z = false |- _ => apply Z.ltb_ge in H
  | H : (_ =? _)%Z = true |- _ => apply Z.eqb_eq in H
  | H : (_ =? _)%Z = false |- _ => apply Z.eqb_neq in H
  | H : (_ =? _)%N = true |- _ => apply N.eqb_eq in H
  | H : (_ =? _)%N = false |- _ => apply N.eqb_neq in H
  end.

(** Case-split the scrutinee of a [match] or [if] in the goal, keeping the equation. *)
Ltac case_goal :=
  match goal with
  | |- context [ match ?x with _ => _ end ] => destruct x eqn:?
  end.

Ltac case_hyp H :=
  match type of H with
  | context [ match ?x with _ => _ end ] => destruct x eqn:?
  end.

Create HintDb kinetic.

(** ** Generic lemmas *)

Lemma elem_of_concat_map {A B} (f : A -> list B) l y : y ∈ concat (map f l) <-> exists x, x ∈ l /\ y ∈ f x.
Proof.
  rewrite list_elem_of_In, in_concat. setoid_rewrite in_map_iff. setoid_rewrite list_elem_of_In.
  split; [intros (s & (x & <- & Hx) & Hy)|intros (x & Hx & Hy)]; eauto.
Qed.

Section SequenceLemmas.
Context {A : Type} `{EqDecision A}.
Implicit Types p x l : list A.

Lemma starts_with_prefix p x : starts_with p x = true <-> p `prefix_of` x.
Proof.
  revert x; induction p as [|a p IH]; intros x; simpl.
  - split; [intros _; apply prefix_nil | done].
  - destruct x as [|b x]; simpl.
    + split; [done | intros [k Hk]; discriminate].
    + rewrite andb_true_iff, bool_decide_eq_true, IH. split.
      * intros [-> H]. by apply prefix_cons.
      * intros H. split; [by apply prefix_cons_inv_1 in H | by apply prefix_cons_inv_2 in H].
Qed.

Lemma contains_spec p x : contains p x = true <-> exists l r, x = l ++ p ++ r.
Proof.
  induction x as [|a x IH]; simpl; rewrite orb_true_iff, starts_with_prefix.
  - split.
    + intros [[k Hk]|?]; [|done]. by exists [], k.
    + intros (l & r & Heq). destruct l; [|done]. left. by exists r.
  - rewrite IH. split.
    + intros [[k Hk]|(l & r & ->)]; [by exists [], k | by exists (a :: l), r].
    + intros (l & r & Heq). destruct l as [|b l]; simpl in Heq.
      * left. by exists r.
      * right. simplify_eq. eauto.
Qed.

Lemma dedup_from_spec seen l :
  NoDup (dedup_from seen l) /\
  (forall a : A, a ∈ dedup_from seen l <-> a ∈ l /\ a ∉ seen).
Proof.
  revert seen; induction l as [|a l IH]; intros seen; simpl.
  - split; [constructor | set_solver].
  - case_bool_decide as Ha.
    + destruct (IH seen) as [HN HE]. split; [done|]. intros x. rewrite HE. set_solver.
    + destruct (IH (a :: seen)) as [HN HE]. split.
      * constructor; [|done]. rewrite HE. set_solver.
      * intros x. rewrite elem_of_cons, HE. destruct (decide (x = a)); set_solver.
Qed.

Lemma from_keys_NoDup l : NoDup (from_keys l).
Proof. apply dedup_from_spec. Qed.

Lemma elem_of_from_keys (a : A) l : a ∈ from_keys l <-> a ∈ l.
Proof. unfold from_keys. rewrite (proj2 (dedup_from_spec [] l) a). set_solver. Qed.

Lemma zlen_nonneg l : (0 <= zlen l)%Z.
Proof. unfold zlen. lia. Qed.

Lemma zlen_app x l : zlen (x ++ l) = (zlen x + zlen l)%Z.
Proof. unfold zlen. rewrite length_app. lia. Qed.

Lemma zlen_cons a l : zlen (a :: l) = (1 + zlen l)%Z.
Proof. unfold zlen. simpl. lia. Qed.

Lemma zlen_ztake i l : (0 <= i)%Z -> zlen (ztake i l) = Z.min i (zlen l).
Proof. intros Hi. unfold zlen, ztake. rewrite length_take. lia. Qed.

Lemma zlen_zdrop i l : (0 <= i)%Z -> zlen (zdrop i l) = Z.max 0 (zlen l - i).
Proof. intros Hi. unfold zlen, zdrop. rewrite length_drop. lia. Qed.

Lemma ztake_zdrop i l : ztake i l ++ zdrop i l = l.
Proof. apply take_drop. Qed.

Lemma zlen_slice_to i l : (0 <= i)%Z -> zlen (slice_to i l) = Z.min i (zlen l).
Proof. intros Hi. unfold slice_to. destruct (Z.ltb_spec i 0); [lia|]. by apply zlen_ztake. Qed.

Lemma zlen_slice_last k l : (0 < k)%Z -> zlen (slice_last k l) = Z.min k (zlen l).
Proof.
  intros Hk. unfold slice_last. destruct (Z.leb_spec k 0); [lia|].
  pose proof (zlen_nonneg l). rewrite zlen_zdrop by lia. lia.
Qed.

Lemma slice_last_suffix k l : exists r, l = r ++ slice_last k l.
Proof.
  unfold slice_last. case_match; eexists; symmetry; apply ztake_zdrop.
Qed.
End SequenceLemmas.

Section DictLemmas.
Context {K V : Type} `{EqDecision K}.
Implicit Types (k : K) (v : V) (d : list (K * V)).

Lemma dict_get_set_eq k v d : dict_get k (dict_set k v d) = Some v.
Proof.
  induction d as [|[k' v'] d IH]; simpl; [by rewrite decide_True|].
  case_decide; subst; simpl; case_decide; try done.
Qed.

Lemma dict_get_set_ne k k' v d : k <> k' -> dict_get k' (dict_set k v d) = dict_get k' d.
Proof.
  intros Hne. induction d as [|[k0 v0] d IH]; simpl; [by rewrite decide_False|].
  case_decide; subst; simpl; repeat case_decide; try done.
Qed.

Lemma dict_get_elem k v d : dict_get k d = Some v -> (k, v) ∈ d.
Proof.
  induction d as [|[k' v'] d IH]; simpl; [done|].
  case_decide; subst; [intros [= ->]; set_solver | set_solver].
Qed.

Lemma dict_get_set k k' v d : dict_get k (dict_set k' v d) = if decide (k = k') then Some v else dict_get k d.
Proof. case_decide as Hk; [subst; apply dict_get_set_eq|by apply dict_get_set_ne]. Qed.

(** The keys of a dictionary after an assignment. *)
Lemma dict_set_has k v d : k ∈ map fst (dict_set k v d).
Proof.
  induction d as [|[k' v'] d IH]; simpl; [apply list_elem_of_here|].
  case_decide as Hk; simpl; [subst; apply list_elem_of_here|by apply list_elem_of_further].
Qed.

Lemma dict_set_key k v d k' : k' ∈ map fst (dict_set k v d) -> k' = k \/ k' ∈ map fst d.
Proof.
  induction d as [|[k0 v0] d IH]; simpl; [intros Hp; left; by apply list_elem_of_singleton in Hp|].
  case_decide; simpl; [by right|]. intros [-> | Hp]%elem_of_cons; [right; apply list_elem_of_here|].
  destruct (IH Hp); [by left|right; by apply list_elem_of_further].
Qed.

Lemma dict_set_nodup k v d : NoDup (map fst d) -> NoDup (map fst (dict_set k v d)).
Proof.
  induction d as [|[k' v'] d IH]; simpl; [intros _; apply NoDup_singleton|]. intros [Hn Hd]%NoDup_cons.
  case_decide as Hk; simpl; [by apply NoDup_cons|]. apply NoDup_cons. split; [|by apply IH].
  by intros [-> | Hp]%dict_set_key.
Qed.

Lemma dict_set_absent k v d : dict_get k d = None -> dict_set k v d = d ++ [(k, v)].
Proof.
  induction d as [|[k' v'] d IH]; cbn [dict_get dict_set]; [done|]. case_decide; [done|]. intros Hd. by rewrite IH.
Qed.

Lemma dict_get_in k v d : NoDup (map fst d) -> (k, v) ∈ d -> dict_get k d = Some v.
Proof.
  induction d as [|[k' v'] d IH]; simpl; [by intros _ Hin%not_elem_of_nil|]. intros [Hn Hd]%NoDup_cons.
  intros [[= -> ->] | Hin]%elem_of_cons; [by rewrite decide_True|]. rewrite decide_False; [by apply IH|].
  intros ->. apply Hn. apply list_elem_of_fmap. by exists (k', v).
Qed.

Lemma dict_get_pop k k' d : dict_get k' (dict_pop k d) = if decide (k' = k) then None else dict_get k' d.
Proof.
  unfold dict_pop. induction d as [|[x v] d IH]; [by destruct (decide _)|]. rewrite filter_cons. cbn [fst].
  destruct (decide (x <> k)) as [Hx|Hx]; simpl.
  - destruct (decide (k' = x)) as [->|]; [by rewrite decide_False|done].
  - rewrite IH. destruct (decide (x = k)) as [->|]; [|done]. by destruct (decide (k' = k)).
Qed.

Lemma dict_get_key k d : is_Some (dict_get k d) <-> k ∈ map fst d.
Proof.
  induction d as [|[k' v'] d IH]; simpl; [split; [by intros [? ?]|by intros ?%not_elem_of_nil]|].
  rewrite elem_of_cons. case_decide as Hk; [split; [by left|done]|]. rewrite IH. naive_solver.
Qed.
End DictLemmas.

(** The order on floats. *)

Lemma fl_le_trans x y z : fl_le x y = true -> fl_le y z = true -> fl_le x z = true.
Proof.
  unfold fl_le, SFleb, SFcompare.
  destruct x as [[]|[]| |[] mx e1], y as [[]|[]| |[] my e2], z as [[]|[]| |[] mz e3]; try done;
    destruct (Z.compare_spec e1 e2), (Z.compare_spec e2 e3), (Z.compare_spec e1 e3); try done; try lia;
    change (Pos.compare_cont Eq mx my) with (mx ?= my)%positive;
    change (Pos.compare_cont Eq my mz) with (my ?= mz)%positive;
    change (Pos.compare_cont Eq mx mz) with (mx ?= mz)%positive;
    destruct (Pos.compare_spec mx my), (Pos.compare_spec my mz), (Pos.compare_spec mx mz); try done; lia.
Qed.

Lemma fl_eq_le x y : fl_eq x y = true -> fl_le x y = true.
Proof. unfold fl_eq, fl_le, SFeqb, SFleb. by destruct (SFcompare x y) as [[]|]. Qed.

Lemma fl_le_refl_l x y : fl_le x y = true -> fl_le y y = true.
Proof.
  unfold fl_le, SFleb, SFcompare. destruct x as [[]|[]| |[] mx e1], y as [[]|[]| |[] my e2]; try done;
    intros _; rewrite Z.compare_refl; change (Pos.compare_cont Eq my my) with (my ?= my)%positive; by rewrite Pos.compare_refl.
Qed.

#[export] Hint Rewrite @zlen_app @zlen_cons : kinetic.
#[export] Hint Resolve zlen_nonneg from_keys_NoDup : kinetic.
