(* ===== verification/Json.v ===== *)
(** * JSON values and the Python runtime

    Tool arguments, schemas, messages and event payloads are JSON-shaped Python
    values. [json] is that type with Python's distinction between [bool],
    [int] and [float]; a [dict] is its items in insertion order. The class
    [PyRuntime] collects the parts of the Python library the code calls whose
    behaviour the theorems do not depend on (regular expressions, hashing,
    [repr], JSON decoding, URL parsing): every theorem holds for all of them. *)

From stdpp Require Import base gmap strings list pretty sorting.
From Stdlib Require Import ZArith Lia SpecFloat.
From S2P Require Import Prelude.

#[local] Unset Elimination Schemes.

Inductive json : Type :=
| JNull
| JBool (b : bool)
| JInt (z : Z)
| JFloat (f : pyfloat)
| JStr (s : pystr)
| JList (l : list json)
| JObj (d : list (pystr * json)).

Abbreviation jdict := (list (pystr * json)).

#[local] Set Elimination Schemes.

Section JsonInd.
Variable P : json -> Prop.
Hypothesis Hnull : P JNull.
Hypothesis Hbool : forall b, P (JBool b).
Hypothesis Hint : forall z, P (JInt z).
Hypothesis Hfloat : forall f, P (JFloat f).
Hypothesis Hstr : forall s, P (JStr s).
Hypothesis Hlist : forall l, Forall P l -> P (JList l).
Hypothesis Hobj : forall d, Forall (fun kv => P kv.2) d -> P (JObj d).

Fixpoint json_ind (j : json) : P j :=
  match j with
  | JNull => Hnull
  | JBool b => Hbool b
  | JInt z => Hint z
  | JFloat f => Hfloat f
  | JStr s => Hstr s
  | JList l => Hlist l ((fix go l : Forall P l :=
      match l with
      | [] => Forall_nil_2 P
      | x :: l' => Forall_cons_2 P x l' (json_ind x) (go l')
      end) l)
  | JObj d => Hobj d ((fix go d : Forall (fun kv => P kv.2) d :=
      match d with
      | [] => Forall_nil_2 _
      | kv :: d' => Forall_cons_2 _ kv d' (json_ind kv.2) (go d')
      end) d)
  end.
End JsonInd.

Fixpoint json_size (j : json) : nat :=
  match j with
  | JList l => S (list_sum (map json_size l))
  | JObj d => S (list_sum (map (fun kv => json_size kv.2) d))
  | _ => 1
  end.

Fixpoint json_eqb (a b : json) {struct a} : bool :=
  match a, b with
  | JNull, JNull => true
  | JBool x, JBool y => Bool.eqb x y
  | JInt x, JInt y => (x =? y)%Z
  | JFloat x, JFloat y => bool_decide (x = y)
  | JStr x, JStr y => bool_decide (x = y)
  | JList l, JList l' =>
      (fix go l l' := match l, l' with
       | [], [] => true
       | x :: l, y :: l' => json_eqb x y && go l l'
       | _, _ => false
       end) l l'
  | JObj d, JObj d' =>
      (fix go d d' := match d, d' with
       | [], [] => true
       | (k, x) :: d, (k', y) :: d' => bool_decide (k = k') && json_eqb x y && go d d'
       | _, _ => false
       end) d d'
  | _, _ => false
  end.

Lemma json_eqb_eq a b : json_eqb a b = true <-> a = b.
Proof.
  revert b; induction a as [|x|x|x|x|l IH|d IH] using json_ind; intros b; destruct b; simpl;
    try (split; [done | congruence]).
  - rewrite Bool.eqb_true_iff. split; congruence.
  - rewrite Z.eqb_eq. split; congruence.
  - rewrite bool_decide_eq_true. split; congruence.
  - rewrite bool_decide_eq_true. split; congruence.
  - trans (l = l0); [|split; congruence].
    revert l0; induction IH as [|x l Hx _ IHl]; intros [|y l']; try (split; congruence).
    rewrite andb_true_iff, Hx, IHl. split; [intros [-> ->]; done | intros [= -> ->]; done].
  - trans (d = d0); [|split; congruence].
    revert d0; induction IH as [|[k x] d Hx _ IHd]; intros [|[k' y] d']; try (split; congruence).
    simpl in Hx. rewrite !andb_true_iff, bool_decide_eq_true, Hx, IHd.
    split; [intros [[-> ->] ->]; done | intros [= -> -> ->]; done].
Qed.

#[export] Instance json_eq_dec : EqDecision json.
Proof.
  intros a b. destruct (json_eqb a b) eqn:E.
  - left. by apply json_eqb_eq.
  - right. intros H. apply json_eqb_eq in H. congruence.
Defined.

(** ** The Python runtime *)

Class PyRuntime := {
  (** [repr(x)] of a float and of any JSON-shaped value. *)
  float_repr : pyfloat -> pystr;
  py_repr : json -> pystr;
  (** [hashlib.sha256(text.encode("utf-8")).hexdigest()]. *)
  sha256_hexdigest : pystr -> pystr;
  (** [re.search(pattern, text) is not None]; [None] is [re.error]. *)
  re_search : pystr -> pystr -> option bool;
  (** [json.loads] and [json.JSONDecoder().raw_decode]; [None] is [JSONDecodeError]. *)
  json_loads : pystr -> option json;
  json_raw_decode : pystr -> option json;
  (** [urlparse(url).hostname]; both steps may raise [ValueError]. *)
  url_hostname : pystr -> result (option pystr);
}.

(** A runtime for concrete runs: it decodes the listed texts, and computes nothing else. *)
Definition decoding_runtime (texts : list (pystr * json)) : PyRuntime := {|
  float_repr := fun _ => []; py_repr := fun _ => []; sha256_hexdigest := fun s => s; re_search := fun _ _ => None;
  json_loads := fun s => dict_get s texts; json_raw_decode := fun _ => None; url_hostname := fun _ => Ok None |}.

Definition opt_str (o : option pystr) : json := match o with Some s => JStr s | None => JNull end.
Definition strs (l : list pystr) : json := JList (map JStr l).

(** [d[key]] of a key that is not there. *)
Definition key_error `{PyRuntime} (key : pystr) : pyexn := PyExn (u "KeyError") (py_repr (JStr key)).

(** ** Reading JSON values *)

Definition py_str `{PyRuntime} (j : json) : pystr :=
  match j with
  | JStr s => s
  | JInt z => dec z
  | JBool true => u "True"
  | JBool false => u "False"
  | JNull => u "None"
  | _ => py_repr j
  end.

(** Truth value testing: [bool(v)]. *)
Definition truthy (j : json) : bool :=
  match j with
  | JNull => false
  | JBool b => b
  | JInt z => negb (z =? 0)%Z
  | JFloat f => match f with S754_zero _ => false | _ => true end
  | JStr s => negb (bool_decide (s = []))
  | JList l => match l with [] => false | _ => true end
  | JObj d => match d with [] => false | _ => true end
  end.

Definition opt_truthy (j : option json) : bool :=
  match j with Some v => truthy v | None => false end.

(** [d.get(k)] on a value that may or may not be a [dict]. *)
Definition jget (k : pystr) (j : json) : option json :=
  match j with JObj d => dict_get k d | _ => None end.

Definition as_str (j : option json) : option pystr :=
  match j with Some (JStr s) => Some s | _ => None end.

Definition is_str (j : option json) : bool :=
  match j with Some (JStr _) => true | _ => false end.

(** Python's [==]: [bool] is an [int], an [int] equals a [float] of the same
    value, and dictionaries compare without regard to order. *)
Definition num_eq (a b : json) : option bool :=
  let num j := match j with JBool b => Some (if b then 1 else 0)%Z | JInt z => Some z | _ => None end in
  match num a, num b, a, b with
  | Some x, Some y, _, _ => Some (x =? y)%Z
  | Some x, None, _, JFloat f | None, Some x, JFloat f, _ =>
      Some (match cmp_Z_float x f with Some Eq => true | _ => false end)
  | None, None, JFloat f, JFloat g => Some (fl_eq f g)
  | _, _, _, _ => None
  end.

Fixpoint py_eq (a b : json) {struct a} : bool :=
  match num_eq a b with
  | Some r => r
  | None =>
    match a, b with
    | JNull, JNull => true
    | JStr x, JStr y => bool_decide (x = y)
    | JList l, JList l' =>
        (fix go l l' := match l, l' with
         | [], [] => true
         | x :: l, y :: l' => py_eq x y && go l l'
         | _, _ => false
         end) l l'
    | JObj d, JObj d' =>
        (length d =? length d')%nat &&
        (fix go d := match d with
         | [] => true
         | (k, x) :: d => match dict_get k d' with Some y => py_eq x y | None => false end && go d
         end) d
    | _, _ => false
    end
  end.

Definition py_in (x : json) (l : list json) : bool := existsb (fun y => py_eq y x) l.

(** ** [json.dumps] *)

Definition hex_digit (n : N) : N := if (n <? 10)%N then (48 + n)%N else (87 + n)%N.

Definition hex4 (n : N) : pystr :=
  map hex_digit [(n / 4096) mod 16; (n / 256) mod 16; (n / 16) mod 16; n mod 16]%N.

Definition json_escape_char (ascii : bool) (c : N) : pystr :=
  if (c =? 34)%N then u "\" ++ [34%N]
  else if (c =? 92)%N then u "\\"
  else if (c =? 10)%N then u "\n"
  else if (c =? 13)%N then u "\r"
  else if (c =? 9)%N then u "\t"
  else if (c =? 12)%N then u "\f"
  else if (c =? 8)%N then u "\b"
  else if (c <? 32)%N || (ascii && (126 <? c))%N then
    if (c <? 65536)%N then u "\u" ++ hex4 c
    else let v := (c - 65536)%N in
         u "\u" ++ hex4 (55296 + v / 1024)%N ++ u "\u" ++ hex4 (56320 + v mod 1024)%N
  else [c].

Definition json_string (ascii : bool) (s : pystr) : pystr :=
  [34%N] ++ concat (map (json_escape_char ascii) s) ++ [34%N].

(** Code-point order on strings, as [sorted] uses it on keys. *)
Fixpoint str_le (a b : pystr) : bool :=
  match a, b with
  | [], _ => true
  | _ :: _, [] => false
  | x :: a', y :: b' => if (x <? y)%N then true else if (x =? y)%N then str_le a' b' else false
  end.

Fixpoint insert_item {V} (kv : pystr * V) (d : list (pystr * V)) : list (pystr * V) :=
  match d with
  | [] => [kv]
  | kv' :: d' => if str_le kv.1 kv'.1 then kv :: d else kv' :: insert_item kv d'
  end.

Definition sort_items {V} (d : list (pystr * V)) : list (pystr * V) := foldr insert_item [] d.

(** [sorted] of strings. *)
Definition insert_str (s : pystr) (l : list pystr) : list pystr := map fst (insert_item (s, tt) (map (fun x => (x, tt)) l)).
Definition sorted_strs (l : list pystr) : list pystr := foldr insert_str [] l.

Record dump_opts := DumpOpts {
  sort_keys : bool;
  ensure_ascii : bool;
  item_sep : pystr;
  key_sep : pystr;
}.

Definition float_json `{PyRuntime} (f : pyfloat) : pystr :=
  match f with
  | S754_nan => u "NaN"
  | S754_infinity false => u "Infinity"
  | S754_infinity true => u "-Infinity"
  | _ => float_repr f
  end.

Fixpoint json_dumps `{PyRuntime} (o : dump_opts) (j : json) : pystr :=
  match j with
  | JNull => u "null"
  | JBool true => u "true"
  | JBool false => u "false"
  | JInt z => dec z
  | JFloat f => float_json f
  | JStr s => json_string (ensure_ascii o) s
  | JList l => u "[" ++ join (item_sep o) (map (json_dumps o) l) ++ u "]"
  | JObj d =>
      let rendered := map (fun kv => (kv.1, json_dumps o kv.2)) d in
      let items := if sort_keys o then sort_items rendered else rendered in
      u "{" ++ join (item_sep o)
        (map (fun kv => json_string (ensure_ascii o) kv.1 ++ key_sep o ++ kv.2) items) ++ u "}"
  end.

(** [json.dumps(v, ensure_ascii=False)], the default form, and the form with
    [sort_keys=True, separators=(",", ":")]. *)
Definition dumps_utf8 : dump_opts := DumpOpts false false (u ", ") (u ": ").
Definition dumps_default : dump_opts := DumpOpts false true (u ", ") (u ": ").
Definition dumps_sorted : dump_opts := DumpOpts true true (u ", ") (u ": ").
Definition dumps_compact : dump_opts := DumpOpts true true (u ",") (u ":").
