(* ===== verification/PyText.v ===== *)
(** * Text operations of the Python library

    [str.count], [str.replace], [str.splitlines] and the similarity ratio of
    [difflib.SequenceMatcher], as the file tools use them, with the facts that
    describe a replacement as a change at the places found. *)

From stdpp Require Import base strings list.
From Stdlib Require Import ZArith Lia SpecFloat.
From S2P Require Import Prelude.

(** ** Counting and replacing substrings

    Both scan from the left; after a match they continue behind it: [skip]
    characters of the text are still inside the last match. *)

Fixpoint count_from (skip : nat) (old s : pystr) : nat :=
  match s with
  | [] => 0
  | _ :: s' =>
    match skip with
    | S k => count_from k old s'
    | O => if starts_with old s then S (count_from (length old - 1) old s') else count_from 0 old s'
    end
  end.

(** [s.count(old)]; the empty text is found between all characters. *)
Definition py_count (old s : pystr) : nat :=
  match old with [] => S (length s) | _ => count_from 0 old s end.

Fixpoint replace_from (skip n : nat) (old new s : pystr) : pystr :=
  match s with
  | [] => []
  | c :: s' =>
    match skip with
    | S k => replace_from k n old new s'
    | O => match n with
           | O => s
           | S n' => if starts_with old s then new ++ replace_from (length old - 1) n' old new s'
                     else c :: replace_from 0 n old new s'
           end
    end
  end.

Fixpoint interleave (n : nat) (new s : pystr) : pystr :=
  match n with
  | O => s
  | S n' => new ++ match s with [] => [] | c :: s' => c :: interleave n' new s' end
  end.

(** [s.replace(old, new, n)]. *)
Definition py_replace (n : nat) (old new s : pystr) : pystr :=
  match old with [] => interleave n new s | _ => replace_from 0 n old new s end.

(** [s.replace(old, new)]. *)
Definition py_replace_all (old new s : pystr) : pystr := py_replace (py_count old s) old new s.

(** ** Lines *)

(** A line without its boundary. *)
Definition chop_break (l : pystr) : pystr :=
  match rev l with
  | c :: r => if (c =? 10)%N && match r with d :: _ => (d =? 13)%N | [] => false end then rev (tail r)
              else if is_line_break c then rev r else l
  | [] => []
  end.

(** [s.splitlines()]. *)
Definition splitlines (s : pystr) : list pystr := map chop_break (splitlines_keep s).

(** [len(s.expandtabs(4))] for a text of spaces and tabs. *)
Definition expanded_width (s : pystr) : Z :=
  foldl (fun col c => if (c =? 9)%N then col + (4 - col mod 4) else col + 1)%Z 0%Z s.

(** ** [difflib.SequenceMatcher(None, a, b).ratio()] *)

Definition fl_div (x y : pyfloat) : pyfloat := SFdiv 53 1024 x y.

(** The characters that occur too often in a long second text to start a match. *)
Definition popular (b : pystr) (c : N) : bool :=
  (200 <=? length b)%nat && (length b / 100 + 1 <? length (filter (fun x => x = c) b))%nat.

(** The lengths of the common runs that end at one character of the first text
    and at each character of the second; [prev] is the row before. *)
Fixpoint match_row (pop : N -> bool) (c : N) (diag : nat) (prev : list nat) (b : pystr) : list nat :=
  match b, prev with
  | d :: b', p :: prev' => (if (c =? d)%N && negb (pop c) then S diag else 0) :: match_row pop c p prev' b'
  | _, _ => []
  end.

(** The first longest run: where it starts in both texts, and its length. *)
Fixpoint best_in_row (i j : nat) (row : list nat) (best : nat * nat * nat) : nat * nat * nat :=
  match row with
  | [] => best
  | k :: row' => best_in_row i (S j) row' (if (best.2 <? k)%nat then (i + 1 - k, j + 1 - k, k) else best)
  end.

Fixpoint longest_run (pop : N -> bool) (i : nat) (a : pystr) (prev : list nat) (b : pystr) (best : nat * nat * nat)
    : nat * nat * nat :=
  match a with
  | [] => best
  | c :: a' =>
    let row := match_row pop c 0 prev b in
    longest_run pop (S i) a' row b (best_in_row i 0 row best)
  end.

Fixpoint common_prefix (a b : pystr) : nat :=
  match a, b with
  | x :: a', y :: b' => if (x =? y)%N then S (common_prefix a' b') else 0
  | _, _ => 0
  end.

(** [find_longest_match] on two segments. *)
Definition find_longest_match (pop : N -> bool) (a b : pystr) : nat * nat * nat :=
  let '(i, j, k) := longest_run pop 0 a (replicate (length b) 0) b (0, 0, 0) in
  let back := common_prefix (rev (take i a)) (rev (take j b)) in
  (i - back, j - back, back + k + common_prefix (drop (i + k) a) (drop (j + k) b)).

(** The characters matched by [get_matching_blocks]; every round that goes on
    consumes a character of [a]. *)
Fixpoint matched (fuel : nat) (pop : N -> bool) (a b : pystr) : nat :=
  match fuel with
  | O => 0
  | S fuel =>
    let '(i, j, k) := find_longest_match pop a b in
    match k with
    | O => 0
    | _ => k + matched fuel pop (take i a) (take j b) + matched fuel pop (drop (i + k) a) (drop (j + k) b)
    end
  end.

Definition sequence_ratio (a b : pystr) : pyfloat :=
  let n := (zlen a + zlen b)%Z in
  if (n =? 0)%Z then fl_of_Z 1
  else fl_div (fl_mul (fl_of_Z 2) (fl_of_Z (Z.of_nat (matched (S (length a)) (popular b) a b)))) (fl_of_Z n).

Example ratio_half : sequence_ratio (u "abxcd") (u "abcd") = fl_div (fl_of_Z 8) (fl_of_Z 9).
Proof. vm_compute. reflexivity. Qed.

(** ** Facts about searching *)

Lemma drop_while_suffix p s : exists k, s = k ++ drop_while p s.
Proof.
  induction s as [|c s [k IH]]; simpl; [by exists []|]. destruct (p c); [|by exists []].
  exists (c :: k). simpl. by rewrite <- IH.
Qed.

Section Replace.
Variables old new : pystr.
Hypothesis nonempty_old : old <> [].

Lemma count_skip k s : count_from k old s = count_from 0 old (drop k s).
Proof. revert k; induction s as [|c s IH]; intros [|k]; simpl; [done..|]. by rewrite IH. Qed.

Lemma replace_skip k n s : replace_from k n old new s = replace_from 0 n old new (drop k s).
Proof. revert k; induction s as [|c s IH]; intros [|k]; simpl; [done..|]. by rewrite IH. Qed.

Lemma replace_none s : replace_from 0 0 old new s = s.
Proof. by destruct s. Qed.

Lemma old_split s : starts_with old s = true -> exists c s', s = c :: s' /\ s = old ++ drop (length old - 1) s'.
Proof using nonempty_old.
  intros Hp. apply starts_with_prefix in Hp as [r ->]. destruct old as [|c o]; [done|].
  exists c, (o ++ r). split; [done|]. simpl. rewrite Nat.sub_0_r. by rewrite drop_app_length.
Qed.

Lemma count_zero s : count_from 0 old s = 0%nat <-> contains old s = false.
Proof using nonempty_old.
  induction s as [|c s IH]; simpl; [destruct old; [done|]; simpl; by split|].
  destruct (starts_with old (c :: s)); simpl; [by split|]. done.
Qed.

(** The first place found: nothing is found before it, and the scan goes on
    behind it. *)
Lemma count_first s n : count_from 0 old s = S n ->
  exists l r, s = l ++ old ++ r /\ count_from 0 old r = n /\
    (forall l' r', s = l' ++ old ++ r' -> (length l <= length l')%nat) /\
    forall m, replace_from 0 (S m) old new s = l ++ new ++ replace_from 0 m old new r.
Proof using nonempty_old.
  induction s as [|c s IH]; [done|]. cbn [count_from]. destruct (starts_with old (c :: s)) eqn:Hp.
  - intros [= Hn]. pose proof (old_split _ Hp) as (c' & s' & [= <- <-] & Hs).
    exists [], (drop (length old - 1) s). split; [done|]. split; [by rewrite <- count_skip|].
    split; [intros; simpl; lia|]. intros m. cbn [replace_from]. rewrite Hp. by rewrite replace_skip.
  - intros Hn. destruct (IH Hn) as (l & r & -> & Hr & Hfirst & Hrep). exists (c :: l), r. split; [done|]. split; [done|].
    split.
    + intros [|c' l'] r' Heq; simpl in *.
      * rewrite Heq in Hp. assert (starts_with old (old ++ r') = true) by (apply starts_with_prefix; by exists r'). congruence.
      * injection Heq as _ Heq. specialize (Hfirst _ _ Heq). lia.
    + intros m. cbn [replace_from]. rewrite Hp. by rewrite Hrep.
Qed.

(** All [n] places at once: the pieces between them. *)
Lemma replace_pieces n s : count_from 0 old s = n -> exists pieces,
  length pieces = S n /\ s = join old pieces /\ replace_from 0 n old new s = join new pieces.
Proof using nonempty_old.
  revert s; induction n as [|n IH]; intros s Hn.
  - exists [s]. by rewrite replace_none.
  - destruct (count_first s n Hn) as (l & r & -> & Hr & _ & Hrep). destruct (IH r Hr) as (ps & Hl & Hs & Hj).
    exists (l :: ps). split; [simpl; lia|]. destruct ps as [|p ps]; [done|].
    split; [by rewrite Hs|]. by rewrite Hrep, Hj.
Qed.

(** One place found: another occurrence can only overlap it. *)
Lemma count_one_unique s : count_from 0 old s = 1%nat -> exists l r,
  s = l ++ old ++ r /\ (forall m, replace_from 0 (S m) old new s = l ++ new ++ r) /\
  forall l' r', s = l' ++ old ++ r' -> (length l <= length l' < length l + length old)%nat.
Proof using nonempty_old.
  intros H1. destruct (count_first s 0 H1) as (l & r & -> & Hr & Hfirst & Hrep). exists l, r.
  split; [done|]. split.
  - intros m. rewrite Hrep. do 2 f_equal. clear -Hr nonempty_old. revert m. induction r as [|c r IH]; intros m; [done|].
    cbn [count_from] in Hr. cbn [replace_from]. destruct m; [done|]. destruct (starts_with old (c :: r)); [done|]. by rewrite IH.
  - intros l' r' Heq. split; [by eapply Hfirst|]. destruct (Nat.lt_ge_cases (length l') (length l + length old)) as [?|Hge]; [done|].
    exfalso. apply count_zero in Hr. assert (contains old r = true); [|congruence]. apply contains_spec.
    exists (drop (length (l ++ old)) l'), r'.
    assert (drop (length (l ++ old)) (l ++ old ++ r) = drop (length (l ++ old)) (l' ++ old ++ r')) as Hd by by rewrite Heq.
    rewrite app_assoc, drop_app_length in Hd. rewrite drop_app_le in Hd; [done|]. rewrite length_app. lia.
Qed.
End Replace.

(** ** Facts about lines *)

Lemma splitlines_concat s cur : concat (splitlines_aux cur s) = rev cur ++ s.
Proof.
  remember (length s) as n eqn:Hn. assert (length s <= n)%nat as Hle by lia. clear Hn.
  revert s cur Hle; induction n as [|n IH]; intros [|c s] cur Hle; simpl in *; try lia.
  1, 2: destruct cur; simpl; by rewrite ?app_nil_r.
  destruct (c =? 13)%N; [destruct s as [|d s]|].
  - simpl. by rewrite app_nil_r.
  - destruct (d =? 10)%N; cbn [concat]; rewrite IH by (simpl in *; lia); simpl; by rewrite <- !app_assoc.
  - destruct (is_line_break c); cbn [concat]; rewrite IH by lia; simpl; by rewrite <- ?app_assoc.
Qed.

Lemma splitlines_keep_concat s : concat (splitlines_keep s) = s.
Proof. apply splitlines_concat. Qed.

Lemma splitlines_body body s cur : Forall (fun c => is_line_break c = false) body ->
  splitlines_aux cur (body ++ 10%N :: s) = (rev cur ++ body ++ [10%N]) :: splitlines_aux [] s.
Proof.
  intros Hb. revert cur; induction Hb as [|c body Hc _ IH]; intros cur; simpl; [done|].
  destruct (N.eqb_spec c 13) as [->|]; [done|]. rewrite Hc, IH. simpl. by rewrite <- app_assoc.
Qed.

(** Lines that end in a line feed and hold no other boundary. *)
Definition unlines (ls : list pystr) : pystr := concat (map (fun l => l ++ [10%N]) ls).

Definition no_breaks (l : pystr) : Prop := Forall (fun c => is_line_break c = false) l.

Lemma chop_break_line l : no_breaks l -> chop_break (l ++ [10%N]) = l.
Proof.
  intros Hl. unfold chop_break. rewrite rev_app_distr. cbn [rev app]. destruct (rev l) as [|d r] eqn:E.
  - cbn. apply (f_equal (@rev N)) in E. by rewrite rev_involutive in E.
  - assert (is_line_break d = false) as Hd.
    { eapply Forall_forall in Hl; [exact Hl|]. apply list_elem_of_In, in_rev. rewrite E. by left. }
    destruct (N.eqb_spec d 13) as [->|]; [done|]. cbn. change (d :: r) with ([d] ++ r).
    apply (f_equal (@rev N)) in E. by rewrite rev_involutive in E.
Qed.

Lemma splitlines_unlines ls : Forall no_breaks ls -> splitlines (unlines ls) = ls.
Proof.
  unfold splitlines, splitlines_keep, unlines. induction 1 as [|l ls Hl _ IH]; [done|]. cbn [map concat]. rewrite <- app_assoc.
  cbn [app]. rewrite splitlines_body by done. cbn [map rev app]. by rewrite chop_break_line, IH.
Qed.

(** ** The fuel of [matched] is enough *)

Lemma match_row_bound pop c n diag prev b : (diag <= n)%nat -> Forall (fun x => x <= n)%nat prev ->
  Forall (fun x => x <= S n)%nat (match_row pop c diag prev b).
Proof.
  intros Hd Hp. revert diag Hd b; induction Hp as [|p prev Hp' _ IH]; intros diag Hd [|d b]; simpl; try constructor.
  - case_match; lia.
  - by apply IH.
Qed.

Lemma best_in_row_bound i j row best m : Forall (fun x => x <= S i)%nat row -> (S i <= m)%nat ->
  (best.1.1 + best.2 <= m)%nat -> ((best_in_row i j row best).1.1 + (best_in_row i j row best).2 <= m)%nat.
Proof.
  intros Hr Hm. revert j best; induction Hr as [|k row Hk _ IH]; intros j best Hb; simpl; [done|].
  apply IH. case_match; simpl; lia.
Qed.

Lemma longest_run_bound pop a : forall i prev b best m, Forall (fun x => x <= i)%nat prev ->
  (i + length a <= m)%nat -> (best.1.1 + best.2 <= m)%nat ->
  ((longest_run pop i a prev b best).1.1 + (longest_run pop i a prev b best).2 <= m)%nat.
Proof.
  induction a as [|c a IH]; intros i prev b best m Hp Hm Hb; simpl in *; [done|].
  assert (Forall (fun x => x <= S i)%nat (match_row pop c 0 prev b)) by (apply match_row_bound; [lia|done]).
  apply IH; [done|lia|]. apply best_in_row_bound; [done|lia|done].
Qed.

Lemma common_prefix_bound a b : (common_prefix a b <= length a)%nat.
Proof.
  revert b; induction a as [|x a IH]; intros [|y b]; simpl; [lia..|]. case_match; [|lia]. specialize (IH b). lia.
Qed.

Lemma longest_match_inside pop a b i j k : find_longest_match pop a b = (i, j, k) -> (i + k <= length a)%nat.
Proof.
  unfold find_longest_match. destruct (longest_run _ _ _ _ _ _) as [[i0 j0] k0] eqn:E.
  assert (i0 + k0 <= length a)%nat as Hb.
  { pose proof (longest_run_bound pop a 0 (replicate (length b) 0%nat) b (0, 0, 0)%nat (length a)) as H.
    rewrite E in H. simpl in H. apply H; [apply Forall_replicate; lia|lia|lia]. }
  intros [= <- _ <-]. pose proof (common_prefix_bound (rev (take i0 a)) (rev (take j0 b))) as H1.
  pose proof (common_prefix_bound (drop (i0 + k0) a) (drop (j0 + k0) b)) as H2.
  rewrite length_rev, length_take in H1. rewrite length_drop in H2. lia.
Qed.

Lemma matched_fuel pop f g a b : (length a < f)%nat -> (length a < g)%nat -> matched f pop a b = matched g pop a b.
Proof.
  revert g a b; induction f as [|f IH]; intros [|g] a b Hf Hg; try lia.
  cbn [matched]. destruct (find_longest_match pop a b) as [[i j] k] eqn:E. apply longest_match_inside in E.
  destruct k as [|k]; [done|]. f_equal; [f_equal|]; apply IH; rewrite ?length_take, ?length_drop; lia.
Qed.
