(* ===== verification/Validation.v ===== *)
(** * Tool-input validation (kinetic_sdk/tool/validation.py)

    The JSON-Schema subset the agent loop checks tool arguments and structured
    answers against. A schema is an arbitrary JSON value: a malformed one makes
    the Python code raise [TypeError] in the places written out here. The
    reference predicate [conforms] says what a schema means; the validator is
    proved sound and complete for it, and total on well-formed schemas. *)

From stdpp Require Import base gmap strings list.
From Stdlib Require Import ZArith Lia.
From S2P Require Import Prelude Json.

Definition type_error : pyexn := PyExn (u "TypeError") [].

(** Iterating over a value: lists, the characters of a string, the keys of a
    [dict]; anything else raises [TypeError]. *)
Definition py_iter (j : json) : result (list json) :=
  match j with
  | JList l => Ok l
  | JStr s => Ok (map (fun c => JStr [c]) s)
  | JObj d => Ok (map (fun kv => JStr kv.1) d)
  | _ => Err type_error
  end.

(** [x in container]. *)
Definition py_contains (container x : json) : result bool :=
  match container with
  | JList l => Ok (py_in x l)
  | JStr s => match x with JStr p => Ok (contains p s) | _ => Err type_error end
  | JObj d =>
      match x with
      | JStr k => Ok (dict_has k d)
      | JList _ | JObj _ => Err type_error
      | _ => Ok false
      end
  | _ => Err type_error
  end.

(** [d.get(k) or default]. *)
Definition get_or (k : pystr) (d : jdict) (default : json) : json :=
  match dict_get k d with
  | Some v => if truthy v then v else default
  | None => default
  end.

Section Validation.
Context `{PyRuntime}.

Definition _json_type (value : json) : pystr :=
  match value with
  | JNull => u "null"
  | JBool _ => u "boolean"
  | JInt _ | JFloat _ => u "number"
  | JStr _ => u "string"
  | JList _ => u "array"
  | JObj _ => u "object"
  end.

Definition all_strings (l : list json) : result (list pystr) :=
  foldr (fun j acc => match j with JStr s => rmap (fun r => s :: r) acc | _ => Err type_error end)
        (Ok []) l.

Definition _describe (expected : json) : result pystr :=
  match expected with
  | JList l => parts <-! all_strings l;; Ok (join (u " | ") parts)
  | _ => Ok (py_str expected)
  end.

Fixpoint _type_matches (value expected : json) {struct expected} : bool :=
  match expected with
  | JList es => existsb (_type_matches value) es
  | JStr e =>
      if bool_decide (e = u "string") then match value with JStr _ => true | _ => false end
      else if bool_decide (e = u "boolean") then match value with JBool _ => true | _ => false end
      else if bool_decide (e = u "integer") then match value with JInt _ => true | _ => false end
      else if bool_decide (e = u "number")
           then match value with JInt _ | JFloat _ => true | _ => false end
      else if bool_decide (e = u "array") then match value with JList _ => true | _ => false end
      else if bool_decide (e = u "object") then match value with JObj _ => true | _ => false end
      else if bool_decide (e = u "null") then match value with JNull => true | _ => false end
      else true
  | _ => true
  end.

(** The [required] loops: one message per name that is not a key of [d]. *)
Definition missing_names (message : json -> pystr) (d : jdict) (reqs : list json)
    : result (list pystr) :=
  foldr (fun req acc =>
    present <-! py_contains (JObj d) req;;
    rest <-! acc;;
    Ok (if (present : bool) then rest else message req :: rest))
    (Ok []) reqs.

(** The loop over the items of an object value. *)
Definition object_items (validate : json -> json -> pystr -> result (list pystr))
    (nested nested_additional : json) (path : pystr) : jdict -> result (list pystr) :=
  fix go items :=
    match items with
    | [] => Ok []
    | (key, item) :: items' =>
      errs <-!
        (known <-! py_contains nested (JStr key);;
         if (known : bool) then
           match nested with
           | JObj nd => validate item (default JNull (dict_get key nd)) (path ++ u "." ++ key)
           | _ => Err type_error
           end
         else if bool_decide (nested_additional = JBool false)
              then Ok [path ++ u "." ++ key ++ u ": unexpected property"]
              else Ok []);;
      rest <-! go items';;
      Ok (errs ++ rest)
    end.

(** The loop over the items of an array value. *)
Definition array_items (validate : json -> json -> pystr -> result (list pystr))
    (item_schema : json) (path : pystr) : Z -> list json -> result (list pystr) :=
  fix go i items :=
    match items with
    | [] => Ok []
    | item :: items' =>
      errs <-! validate item item_schema (path ++ u "[" ++ dec i ++ u "]");;
      rest <-! go (i + 1)%Z items';;
      Ok (errs ++ rest)
    end.

Definition check_enum (sd : jdict) (value : json) : result bool :=
  match dict_get (u "enum") sd with
  | None => Ok true
  | Some enum => py_contains enum value
  end.

Fixpoint _validate_value (value : json) (schema : json) (path : pystr) {struct value}
    : result (list pystr) :=
  match schema with
  | JObj ((_ :: _) as sd) =>
    in_enum <-! check_enum sd value;;
    if negb in_enum then
      Ok [path ++ u ": " ++ py_repr value ++ u " not in enum "
            ++ py_repr (default JNull (dict_get (u "enum") sd))]
    else
    match dict_get (u "type") sd with
    | None | Some JNull => Ok []
    | Some expected =>
      if negb (_type_matches value expected) then
        descr <-! _describe expected;;
        Ok [path ++ u ": expected " ++ descr ++ u ", got " ++ _json_type value]
      else
      obj_errors <-!
        match value with
        | JObj d =>
          if bool_decide (expected = JStr (u "object")) then
            reqs <-! py_iter (get_or (u "required") sd (JList []));;
            missing <-! missing_names
              (fun req => path ++ u "." ++ py_str req ++ u ": missing required property") d reqs;;
            rest <-! object_items _validate_value (get_or (u "properties") sd (JObj []))
              (default (JBool true) (dict_get (u "additionalProperties") sd)) path d;;
            Ok (missing ++ rest)
          else Ok []
        | _ => Ok []
        end;;
      arr_errors <-!
        match value with
        | JList items =>
          if bool_decide (expected = JStr (u "array")) then
            match dict_get (u "items") sd with
            | Some (JObj ((_ :: _) as item_schema)) =>
                array_items _validate_value (JObj item_schema) path 0%Z items
            | _ => Ok []
            end
          else Ok []
        | _ => Ok []
        end;;
      Ok (obj_errors ++ arr_errors)
    end
  | _ => Ok []
  end.

Definition validate_value (schema value : json) (path : pystr) : result (list pystr) :=
  _validate_value value schema (match path with [] => u "$" | _ => path end).

(** The loop over the supplied parameters of [validate_tool_input]. *)
Fixpoint check_parameters (properties : jdict) (additional : json) (params : jdict)
    : result (list pystr) :=
  match params with
  | [] => Ok []
  | (key, value) :: params' =>
    errs <-!
      match dict_get key properties with
      | None =>
        Ok (if negb (bool_decide (properties = [])) && negb (bool_decide (additional = JBool true))
              then [u "unexpected parameter " ++ py_repr (JStr key) ++ u " (declared: "
                    ++ py_repr (JList (map (fun kv => JStr kv.1) (sort_items properties)))
                    ++ u ")"]
              else [])
      | Some schema => _validate_value value schema key
      end;;
    rest <-! check_parameters properties additional params';;
    Ok (errs ++ rest)
  end.

Definition validate_tool_input (schema params : json) : result (list pystr) :=
  match schema with
  | JObj ((_ :: _) as sd) =>
    if negb (bool_decide (default (JStr (u "object")) (dict_get (u "type") sd) = JStr (u "object")))
    then Ok []
    else
    match params with
    | JObj pd =>
      let properties := match get_or (u "properties") sd (JObj []) with JObj d => d | _ => [] end in
      let additional := default (JBool false) (dict_get (u "additionalProperties") sd) in
      reqs <-! py_iter (get_or (u "required") sd (JList []));;
      missing <-! missing_names (fun name => u "missing required parameter " ++ py_repr name) pd reqs;;
      errs <-! check_parameters properties additional pd;;
      Ok (missing ++ errs)
    | _ => Ok [u "expected an object of arguments, got " ++ _json_type params]
    end
  | _ => Ok []
  end.
End Validation.

(** ** What a schema means *)

(** [v in container], when [container] is a list. *)
Definition enum_allows (sd : jdict) (v : json) : Prop :=
  match dict_get (u "enum") sd with
  | None => True
  | Some enum => py_contains enum v = Ok true
  end.

(** The names a schema requires, [required] being a list of strings. *)
Definition required_names (sd : jdict) : list json :=
  match get_or (u "required") sd (JList []) with JList l => l | _ => [] end.

Definition declared (sd : jdict) : jdict :=
  match get_or (u "properties") sd (JObj []) with JObj d => d | _ => [] end.

(** [conforms v s]: value [v] is an instance of schema [s]. *)
Definition all_items (P : json -> json -> Prop) (sd : jdict) : jdict -> Prop :=
  fix all items :=
    match items with
    | [] => True
    | (k, x) :: items' =>
      match dict_get k (declared sd) with
      | Some s' => P x s'
      | None => dict_get (u "additionalProperties") sd <> Some (JBool false)
      end /\ all items'
    end.

Definition all_elements (P : json -> json -> Prop) (s : json) : list json -> Prop :=
  fix all l := match l with [] => True | x :: l' => P x s /\ all l' end.

Fixpoint conforms (v : json) (s : json) {struct v} : Prop :=
  match s with
  | JObj ((_ :: _) as sd) =>
    enum_allows sd v /\
    match dict_get (u "type") sd with
    | None | Some JNull => True
    | Some t =>
      _type_matches v t = true /\
      match v with
      | JObj d =>
        t = JStr (u "object") ->
        Forall (fun r => exists k, r = JStr k /\ dict_has k d = true) (required_names sd) /\
        all_items conforms sd d
      | JList l =>
        t = JStr (u "array") ->
        match dict_get (u "items") sd with
        | Some (JObj ((_ :: _) as isd)) => all_elements conforms (JObj isd) l
        | _ => True
        end
      | _ => True
      end
    end
  | _ => True
  end.

(** Schemas on which no Python operation of the validator raises. *)
Inductive schema_wf : json -> Prop :=
| wf_non_dict s : (forall kv d, s <> JObj (kv :: d)) -> schema_wf s
| wf_dict sd :
    (forall e, dict_get (u "enum") sd = Some e -> exists l, e = JList l) ->
    (forall t, dict_get (u "type") sd = Some (JList t) -> Forall (fun j => exists s, j = JStr s) t) ->
    (exists l, get_or (u "required") sd (JList []) = JList l /\
               Forall (fun j => exists s, j = JStr s) l) ->
    (exists d, get_or (u "properties") sd (JObj []) = JObj d) ->
    (forall k s, dict_get k (declared sd) = Some s -> schema_wf s) ->
    (forall s, dict_get (u "items") sd = Some s -> schema_wf s) ->
    schema_wf (JObj sd).

(** ** Lemmas *)

Section Lemmas.
Context `{PyRuntime}.

(** [yields r P]: the computation returns an error list that is empty exactly
    when [P] holds. *)
Definition yields (r : result (list pystr)) (P : Prop) : Prop :=
  exists errs, r = Ok errs /\ (errs = [] <-> P).

Lemma yields_nil P : P -> yields (Ok []) P.
Proof. intros HP. by exists []. Qed.

Lemma yields_one e (P : Prop) : ~ P -> yields (Ok [e]) P.
Proof. intros HP. exists [e]. split; [done|]. split; [done|tauto]. Qed.

Lemma yields_iff r (P Q : Prop) : (P <-> Q) -> yields r P -> yields r Q.
Proof. intros HPQ (errs & -> & He). exists errs. split; [done|]. tauto. Qed.

Lemma yields_app r1 r2 (P Q : Prop) :
  yields r1 P -> yields r2 Q ->
  yields (e1 <-! r1;; e2 <-! r2;; Ok (e1 ++ e2)) (P /\ Q).
Proof.
  intros (e1 & -> & H1) (e2 & -> & H2). exists (e1 ++ e2). split; [done|].
  rewrite app_nil. tauto.
Qed.

Lemma dict_contains_str d k : py_contains (JObj d) (JStr k) = Ok (dict_has k d).
Proof. done. Qed.

#[local] Instance yields_proper : Proper (eq ==> iff ==> iff) yields.
Proof. intros r ? <- P Q HPQ. split; apply yields_iff; tauto. Qed.

Lemma missing_names_yields message d reqs :
  Forall (fun j => exists s, j = JStr s) reqs ->
  yields (missing_names message d reqs)
    (Forall (fun r => exists k, r = JStr k /\ dict_has k d = true) reqs).
Proof.
  induction 1 as [|r reqs [k ->] _ IH]; [by apply yields_nil|].
  simpl. destruct IH as (errs & -> & He); simpl.
  rewrite Forall_cons. destruct (dict_has k d) eqn:E.
  - exists errs. split; [done|]. rewrite He. split; [|tauto]. intros; split; eauto.
  - eexists. split; [done|]. split; [done|]. intros [(k' & [= <-] & E') _]. congruence.
Qed.

Lemma all_strings_ok l : Forall (fun j => exists s, j = JStr s) l -> exists ss, all_strings l = Ok ss.
Proof. induction 1 as [|j l [s ->] _ [ss IH]]; simpl; [eauto | rewrite IH; simpl; eauto]. Qed.

Lemma describe_ok t :
  (forall l, t = JList l -> Forall (fun j => exists s, j = JStr s) l) -> exists s, _describe t = Ok s.
Proof.
  intros Ht. destruct t; simpl; eauto.
  destruct (all_strings_ok l (Ht l eq_refl)) as [ss ->]. simpl. eauto.
Qed.

Lemma check_enum_ok sd v :
  (forall e, dict_get (u "enum") sd = Some e -> exists l, e = JList l) ->
  exists b, check_enum sd v = Ok b /\ (b = true <-> enum_allows sd v).
Proof.
  intros He. unfold check_enum, enum_allows. destruct (dict_get _ sd) as [e|] eqn:E; [|by exists true].
  destruct (He e eq_refl) as [l ->]. simpl. eexists; split; [done|].
  destruct (py_in v l); split; congruence.
Qed.

Lemma object_items_yields sd props path d :
  get_or (u "properties") sd (JObj []) = JObj props ->
  (forall k s, dict_get k (declared sd) = Some s -> schema_wf s) ->
  Forall (fun kv => forall s path, schema_wf s ->
            yields (_validate_value kv.2 s path) (conforms kv.2 s)) d ->
  yields (object_items _validate_value (JObj props)
            (default (JBool true) (dict_get (u "additionalProperties") sd)) path d)
    (all_items conforms sd d).
Proof.
  intros Hp Hdecl. unfold declared in *. rewrite Hp in Hdecl.
  induction 1 as [|[k x] d Hx _ IH]; [by apply yields_nil|].
  simpl. unfold declared, dict_has. rewrite Hp.
  apply yields_app; [|exact IH]. simpl. destruct (dict_get k props) as [s|] eqn:E.
  - apply Hx. eauto.
  - case_bool_decide as Hf.
    + apply yields_one. destruct (dict_get _ sd); simplify_eq/=. tauto.
    + apply yields_nil. destruct (dict_get _ sd); simplify_eq/=; congruence.
Qed.

Lemma array_items_yields s path l i :
  schema_wf s ->
  Forall (fun x => forall s path, schema_wf s -> yields (_validate_value x s path) (conforms x s)) l ->
  yields (array_items _validate_value s path i l) (all_elements conforms s l).
Proof.
  intros Hs Hl. revert i. induction Hl as [|x l Hx _ IH]; intros i; [by apply yields_nil|].
  apply yields_app; [by apply Hx | apply IH].
Qed.

Lemma yields_app_nil r P : yields r P -> yields (e1 <-! r;; e2 <-! Ok [];; Ok (e1 ++ e2)) P.
Proof. intros Hr. rewrite <- (right_id True and P). by apply yields_app, yields_nil. Qed.

Lemma yields_nil_app r P : yields r P -> yields (e1 <-! Ok [];; e2 <-! r;; Ok (e1 ++ e2)) P.
Proof. intros Hr. rewrite <- (left_id True and P). by apply yields_app; [apply yields_nil|]. Qed.

(** The checks that precede the recursion, for every kind of value. *)
Lemma guarded_yields sd v path (body : json -> result (list pystr)) (P : json -> Prop) :
  (forall e, dict_get (u "enum") sd = Some e -> exists l, e = JList l) ->
  (forall t, dict_get (u "type") sd = Some (JList t) -> Forall (fun j => exists s, j = JStr s) t) ->
  (forall t, yields (body t) (P t)) ->
  yields
    (in_enum <-! check_enum sd v;;
     if negb in_enum then
       Ok [path ++ u ": " ++ py_repr v ++ u " not in enum "
             ++ py_repr (default JNull (dict_get (u "enum") sd))]
     else
     match dict_get (u "type") sd with
     | None | Some JNull => Ok []
     | Some expected =>
       if negb (_type_matches v expected) then
         descr <-! _describe expected;;
         Ok [path ++ u ": expected " ++ descr ++ u ", got " ++ _json_type v]
       else body expected
     end)
    (enum_allows sd v /\
     match dict_get (u "type") sd with
     | None | Some JNull => True
     | Some t => _type_matches v t = true /\ P t
     end).
Proof.
  intros He Ht Hb. destruct (check_enum_ok sd v He) as (b & -> & Hbe).
  destruct b; simpl; [|apply yields_one; rewrite <- Hbe; by intros [? _]].
  assert (enum_allows sd v) as HE by (by apply Hbe).
  destruct (dict_get (u "type") sd) as [t|]; [|by apply yields_nil].
  assert (yields (if negb (_type_matches v t) then
            descr <-! _describe t;; Ok [path ++ u ": expected " ++ descr ++ u ", got " ++ _json_type v]
          else body t) (enum_allows sd v /\ _type_matches v t = true /\ P t)) as Hgoal.
  { destruct (_type_matches v t); simpl.
    - eapply yields_iff; [|apply (Hb t)]. tauto.
    - destruct (describe_ok t) as [s ->]; [intros l ->; by apply Ht|]. simpl.
      apply yields_one. intros (_ & ? & _). done. }
  destruct t; try exact Hgoal. by apply yields_nil.
Qed.

Lemma validate_value_yields v :
  forall s path, schema_wf s -> yields (_validate_value v s path) (conforms v s).
Proof.
  induction v as [|b|z|f|str|l IHl|d IHd] using json_ind; intros s path Hwf.
  all: destruct Hwf as [s Hs|sd Henum Htype (reqs & Hreq & Hreqs) (props & Hprops) Hdecl Hitems];
    [destruct s as [| | | | | |[|kv dd]]; try (by apply yields_nil); by destruct (Hs kv dd) |].
  all: destruct sd as [|kv sd0]; [by apply yields_nil|].
  1-5: apply (guarded_yields (kv :: sd0) _ path (fun _ => Ok []) (fun _ => True)); try done;
       intros; by apply yields_nil.
  - apply (guarded_yields (kv :: sd0) _ path _ (fun t => t = _ -> _)); try done.
    intros t. apply yields_nil_app. case_bool_decide; [|by apply yields_nil].
    destruct (dict_get (u "items") _) as [[| | | | | |[|kv' isd]]|] eqn:E; try by apply yields_nil.
    eapply yields_iff; [|apply array_items_yields; [by apply Hitems | exact IHl]]. tauto.
  - apply (guarded_yields (kv :: sd0) _ path _ (fun t => t = _ -> _)); try done.
    intros t. apply yields_app_nil. case_bool_decide; [|by apply yields_nil].
    rewrite Hreq, Hprops; cbn [py_iter rbind]. unfold required_names. rewrite Hreq.
    eapply yields_iff; [|apply yields_app;
      [by apply missing_names_yields | by eapply object_items_yields]]. tauto.
Qed.
End Lemmas.

(** A parameters object is acceptable for a schema's root. *)
Definition accepts_params (sd : jdict) (params : json) : Prop :=
  exists pd, params = JObj pd /\
    Forall (fun r => exists k, r = JStr k /\ dict_has k pd = true) (required_names sd) /\
    Forall (fun kv =>
      match dict_get kv.1 (declared sd) with
      | Some s => conforms kv.2 s
      | None => declared sd = [] \/ dict_get (u "additionalProperties") sd = Some (JBool true)
      end) pd.

Section Theorems.
Context `{PyRuntime}.

Lemma check_parameters_yields sd pd :
  (forall k s, dict_get k (declared sd) = Some s -> schema_wf s) ->
  yields (check_parameters (declared sd)
            (default (JBool false) (dict_get (u "additionalProperties") sd)) pd)
    (Forall (fun kv =>
      match dict_get kv.1 (declared sd) with
      | Some s => conforms kv.2 s
      | None => declared sd = [] \/ dict_get (u "additionalProperties") sd = Some (JBool true)
      end) pd).
Proof.
  intros Hdecl. induction pd as [|[k x] pd IH]; [by apply yields_nil|].
  eapply yields_iff; [symmetry; apply Forall_cons|]. simpl.
  apply yields_app; [|exact IH]. destruct (dict_get k (declared sd)) as [s|] eqn:E.
  - apply validate_value_yields. eauto.
  - destruct (bool_decide (declared sd = [])) eqn:Ed; simpl; bool_hyps.
    + apply yields_nil. by left.
    + case_bool_decide as Ha; simpl.
      * apply yields_nil. right. destruct (dict_get _ sd); simplify_eq/=. done.
      * apply yields_one. intros [?|Hs]; [done|]. by rewrite Hs in Ha.
Qed.


(** for a well-formed object schema, [validate_tool_input] accepts exactly
    the argument objects that carry every required name and whose every key is
    declared with a conforming value, unless the schema declares no properties
    at all or sets [additionalProperties] to true; so a call that passes the
    check never passes an undeclared keyword to [execute]. *)
Theorem validate_tool_input_correct kv sd params :
  schema_wf (JObj (kv :: sd)) ->
  default (JStr (u "object")) (dict_get (u "type") (kv :: sd)) = JStr (u "object") ->
  exists errs, validate_tool_input (JObj (kv :: sd)) params = Ok errs /\
               (errs = [] <-> accepts_params (kv :: sd) params).
Proof.
  intros Hwf Hty. set (sd' := kv :: sd) in *.
  inversion Hwf as [s Hs|? _ _ (reqs & Hreq & Hreqs) (props & Hprops) Hdecl _]; subst;
    [by destruct (Hs kv sd)|].
  unfold validate_tool_input. fold sd'. rewrite Hty, bool_decide_true by done. simpl negb. cbv iota.
  destruct params as [| | | | | |pd].
  1-6: apply yields_one; intros (pd & [=] & _).
  assert (declared sd' = props) as Hd by (unfold declared; by rewrite Hprops).
  rewrite Hreq, Hprops. cbn [py_iter rbind]. rewrite <- Hd.
  eapply yields_iff; [|apply yields_app;
    [by apply missing_names_yields | by apply check_parameters_yields]].
  unfold accepts_params, required_names. rewrite Hreq. split; [eauto 6|].
  intros (pd' & [= <-] & ? & ?). done.
Qed.
End Theorems.

(** ** Witnesses *)

(** A runtime whose library functions are constant, to evaluate the model. *)
#[local] Instance test_runtime : PyRuntime := {|
  float_repr := fun _ => []; py_repr := fun _ => []; sha256_hexdigest := fun s => s;
  re_search := fun _ _ => None; json_loads := fun _ => None; json_raw_decode := fun _ => None;
  url_hostname := fun _ => Ok None |}.

Definition echo_schema : jdict :=
  [(u "type", JStr (u "object"));
   (u "properties", JObj [(u "message", JObj [(u "type", JStr (u "string"))])]);
   (u "required", JList [JStr (u "message")])].

Lemma string_schema_wf : schema_wf (JObj [(u "type", JStr (u "string"))]).
Proof.
  apply wf_dict; try (intros * Hk; vm_compute in Hk; discriminate).
  - exists []. split; [reflexivity | constructor].
  - by exists [].
Qed.

Lemma echo_schema_wf : schema_wf (JObj echo_schema).
Proof.
  apply wf_dict; try (intros ? Hk; vm_compute in Hk; discriminate).
  - eexists. split; [reflexivity | repeat constructor; eauto].
  - by eexists.
  - intros k s Hk. change (declared echo_schema)
      with [(u "message", JObj [(u "type", JStr (u "string"))])] in Hk. simpl in Hk.
    case_decide; simplify_eq. apply string_schema_wf.
Qed.


Lemma validate_tool_input_correct_witness :
  accepts_params echo_schema (JObj [(u "message", JStr (u "hi"))]).
Proof.
  destruct (validate_tool_input_correct (u "type", JStr (u "object")) (tail echo_schema)
              (JObj [(u "message", JStr (u "hi"))]) echo_schema_wf eq_refl) as (errs & Hv & Hiff).
  apply Hiff. vm_compute in Hv. by injection Hv as <-.
Defined.
