(* ===== verification/TextCompact.v ===== *)
(** * Text compaction primitives (kinetic_sdk/context/manager.py, first part)

    Token estimation, flattening of message content, the head/tail cut and the
    structure-aware [ToolOutputCompressor]. *)

From stdpp Require Import base gmap strings list.
From Stdlib Require Import ZArith Lia.
From S2P Require Import Prelude Json.

(** [estimate_tokens(text, chars_per_token)]; Python's [//] is floor division. *)
Definition estimate_tokens (text : pystr) (chars_per_token : Z) : Z :=
  Z.max 1 (zlen text / chars_per_token).

(** [_stringify_content]; a missing ["content"] key is read as [None]. *)
Definition _stringify_content `{PyRuntime} (content : option json) : pystr :=
  match content with
  | Some (JStr s) => s
  | Some j => json_dumps dumps_utf8 j
  | None => json_dumps dumps_utf8 JNull
  end.

Definition TRUNCATION_MARKER (n : Z) : pystr :=
  [10%N] ++ u "[... " ++ dec n ++ u " ký tự ở giữa đã được cắt bớt ...]" ++ [10%N].

Definition _head_tail (text : pystr) (limit : Z) : pystr :=
  let head := (limit * 2 / 3)%Z in
  let tail := (limit - head)%Z in
  let omitted := (zlen text - head - tail)%Z in
  slice_to head text ++ TRUNCATION_MARKER omitted ++ slice_last tail text.

(** ** ToolOutputCompressor

    A preserved pattern is the truth value of its [search] on a line. *)
Record ToolOutputCompressor := { preserve_patterns : list (pystr -> bool) }.

Definition compress_marker : pystr := u "[... verbose tool output omitted ...]" ++ [10%N].

Definition any_match (ps : list (pystr -> bool)) (line : pystr) : bool := existsb (fun p => p line) ps.

Definition non_blank (line : pystr) : bool := negb (bool_decide (strip line = [])).

(** [while start > 0 and lines[start - 1].strip(): start -= 1]. *)
Fixpoint region_start (lines : list pystr) (start : nat) : nat :=
  match start with
  | O => O
  | S i => if non_blank (default [] (lines !! i)) then region_start lines i else start
  end.

(** [while end + 1 < len(lines) and lines[end + 1].strip(): end += 1], given the
    lines after [end]. *)
Fixpoint region_end (after : list pystr) (end_ : nat) : nat :=
  match after with
  | [] => end_
  | line :: after' => if non_blank line then region_end after' (S end_) else end_
  end.

Definition kept_for (c : ToolOutputCompressor) (lines : list pystr) (index : nat) : list nat :=
  if any_match (tail (preserve_patterns c)) (default [] (lines !! index))
  then [index; region_start lines index; region_end (drop (S index) lines) index]
  else [index].

Definition important_lines (c : ToolOutputCompressor) (lines : list pystr) : list nat :=
  filter (fun i => any_match (preserve_patterns c) (default [] (lines !! i)) = true)
         (seq 0 (length lines)).

(** [[lines[i] for i in sorted(keep)]]. *)
Definition selected_lines (c : ToolOutputCompressor) (lines : list pystr) : list pystr :=
  let keep := concat (map (kept_for c lines) (important_lines c lines)) in
  map (fun i => default [] (lines !! i)) (filter (fun i => i ∈ keep) (seq 0 (length lines))).

(** The loop that keeps as many whole lines as fit. *)
Definition fill_lines (limit : Z) (out : pystr) (lines : list pystr) : pystr :=
  foldl (fun out line =>
    if (limit <? zlen out + zlen line + zlen compress_marker)%Z then out else out ++ line) out lines.

Definition compress (c : ToolOutputCompressor) (text : pystr) (limit : Z) : pystr :=
  if (zlen text <=? limit)%Z then text
  else
  let lines := splitlines_keep text in
  match important_lines c lines with
  | [] => _head_tail text limit
  | _ =>
    let selected := selected_lines c lines in
    let result := compress_marker ++ concat selected ++ compress_marker in
    if (zlen result <=? limit)%Z then result
    else
    let out := fill_lines limit compress_marker selected in
    if (zlen out + zlen compress_marker <=? limit)%Z then out ++ compress_marker
    else slice_to limit out
  end.

(** ** Lemmas and theorems *)

Lemma zlen_head_tail text limit :
  (1 <= limit)%Z -> (limit <= zlen text)%Z ->
  zlen (_head_tail text limit) = (limit + zlen (TRUNCATION_MARKER (zlen text - limit)))%Z.
Proof.
  intros Hl Ht. unfold _head_tail.
  assert (0 <= limit * 2 / 3 < limit)%Z as [Hh1 Hh2].
  { split; [apply Z.div_pos; lia | apply Z.div_lt_upper_bound; lia]. }
  rewrite !zlen_app, zlen_slice_to, zlen_slice_last by lia.
  replace (zlen text - limit * 2 / 3 - (limit - limit * 2 / 3))%Z with (zlen text - limit)%Z by lia.
  lia.
Qed.

(** for a positive limit no longer than the text, the head/tail cut keeps
    exactly [limit] characters of the text, its first two thirds of the limit and
    its last characters, around a marker that names the number of characters
    omitted. *)
Theorem head_tail_spec text limit :
  (1 <= limit <= zlen text)%Z ->
  exists h m t, text = h ++ m ++ t /\
    zlen h = (limit * 2 / 3)%Z /\ (zlen h + zlen t = limit)%Z /\
    _head_tail text limit = h ++ TRUNCATION_MARKER (zlen m) ++ t.
Proof.
  intros Hl.
  set (h := (limit * 2 / 3)%Z).
  assert (0 <= h < limit)%Z as [Hh1 Hh2].
  { split; [apply Z.div_pos; lia | apply Z.div_lt_upper_bound; lia]. }
  exists (ztake h text), (ztake (zlen text - limit) (zdrop h text)), (zdrop (zlen text - (limit - h)) text).
  assert (zdrop (zlen text - (limit - h)) text
          = zdrop (zlen text - limit) (zdrop h text)) as Hd.
  { unfold zdrop. rewrite drop_drop. f_equal. lia. }
  rewrite !zlen_ztake, !zlen_zdrop by (try apply Z.max_case_strong; lia).
  repeat split; try lia.
  - by rewrite Hd, !ztake_zdrop.
  - unfold _head_tail. fold h. unfold slice_to, slice_last.
    destruct (Z.ltb_spec h 0), (Z.leb_spec (limit - h) 0); try lia.
    rewrite Z.max_r by lia. do 3 f_equal. lia.
Qed.

Lemma fill_lines_bounded limit lines out :
  (zlen out + zlen compress_marker <= limit)%Z ->
  (zlen (fill_lines limit out lines) + zlen compress_marker <= limit)%Z.
Proof.
  revert out; induction lines as [|l lines IH]; intros out Hout; simpl; [done|].
  apply IH. case_match; bool_hyps; [done|]. rewrite zlen_app. lia.
Qed.

(** whenever a line matches a preserved pattern, the compressed output is no
    longer than the limit. *)
Theorem compress_bounded c text limit :
  (0 <= limit)%Z ->
  important_lines c (splitlines_keep text) <> [] ->
  (zlen (compress c text limit) <= limit)%Z.
Proof.
  intros Hl Hi. unfold compress. case_match; bool_hyps; [lia|].
  destruct (important_lines c _) eqn:E; [done|].
  case_match; bool_hyps; [lia|]. case_match; bool_hyps.
  - rewrite zlen_app. lia.
  - rewrite zlen_slice_to by lia. lia.
Qed.

(** without a matching line the cut may be longer than the text it cuts: a
    text one character over the limit of 100 comes back 41 characters longer. *)
Theorem head_tail_can_grow :
  exists text, (zlen text = 101)%Z /\ (zlen (_head_tail text 100) = 142)%Z.
Proof. exists (repeat 97%N 101). by vm_compute. Qed.

(** ** Witnesses *)

Lemma head_tail_spec_witness :
  exists h m t, repeat 97%N 10 = h ++ m ++ t /\
    zlen h = 4%Z /\ (zlen h + zlen t = 6)%Z /\
    _head_tail (repeat 97%N 10) 6 = h ++ TRUNCATION_MARKER (zlen m) ++ t.
Proof. apply (head_tail_spec (repeat 97%N 10) 6). vm_compute. split; discriminate. Defined.

Definition error_compressor : ToolOutputCompressor :=
  {| preserve_patterns := [fun _ => false; contains (u "Error")] |}.

Definition error_log : pystr := repeat 97%N 60 ++ [10%N] ++ u "Error: x" ++ [10%N] ++ repeat 98%N 60.

Lemma compress_bounded_witness :
  (zlen (compress error_compressor error_log 100) <= 100)%Z.
Proof. apply (compress_bounded error_compressor error_log 100); vm_compute; discriminate. Defined.
