(* ===== verification/Summary.v ===== *)
(** * Structured summaries (kinetic_sdk/context/manager.py, second part)

    [StructuredSummary], the findings carried across compaction rounds, and
    [ProgressiveSummarizer], which extracts them from batches of elided messages
    with one model call per batch. The model is a parameter threading its own
    world. *)

From stdpp Require Import base gmap strings list.
From Stdlib Require Import ZArith Lia.
From S2P Require Import Prelude Json TextCompact.

(** The names in [_FIELDS], in order. *)
Inductive sfield := F_goal | F_decisions | F_files_touched | F_errors_encountered | F_open_questions.

#[export] Instance sfield_eq_dec : EqDecision sfield.
Proof. solve_decision. Defined.

Definition _FIELDS : list sfield :=
  [F_goal; F_decisions; F_files_touched; F_errors_encountered; F_open_questions].

Definition field_name (f : sfield) : pystr :=
  match f with
  | F_goal => u "goal"
  | F_decisions => u "decisions"
  | F_files_touched => u "files_touched"
  | F_errors_encountered => u "errors_encountered"
  | F_open_questions => u "open_questions"
  end.

Record StructuredSummary := {
  goal : list pystr;
  decisions : list pystr;
  files_touched : list pystr;
  errors_encountered : list pystr;
  open_questions : list pystr;
}.

(** [getattr(self, name)], and the construction from one list per name. *)
Definition getattr (s : StructuredSummary) (f : sfield) : list pystr :=
  match f with
  | F_goal => goal s
  | F_decisions => decisions s
  | F_files_touched => files_touched s
  | F_errors_encountered => errors_encountered s
  | F_open_questions => open_questions s
  end.

Definition summary_of (v : sfield -> list pystr) : StructuredSummary := {|
  goal := v F_goal; decisions := v F_decisions; files_touched := v F_files_touched;
  errors_encountered := v F_errors_encountered; open_questions := v F_open_questions |}.

Definition empty_summary : StructuredSummary := summary_of (fun _ => []).

Definition merged (self newer : StructuredSummary) : StructuredSummary :=
  summary_of (fun f => from_keys (getattr self f ++ getattr newer f)).

(** Values held in a conversation's [metadata]. *)
Inductive mvalue :=
| MJson (j : json)
| MSummary (s : StructuredSummary).

Fixpoint str_items (l : list json) : option (list pystr) :=
  match l with
  | [] => Some []
  | JStr s :: l' => (fun r => s :: r) <$> str_items l'
  | _ :: _ => None
  end.

(** One field of [from_value]: a missing name reads as the empty list. *)
Definition field_items (d : jdict) (f : sfield) : option (list pystr) :=
  match dict_get (field_name f) d with
  | None => Some []
  | Some (JList l) => str_items l
  | Some _ => None
  end.

Definition from_value (value : option mvalue) : option StructuredSummary :=
  match value with
  | Some (MSummary s) => Some s
  | Some (MJson (JObj d)) =>
    match field_items d F_goal, field_items d F_decisions, field_items d F_files_touched,
          field_items d F_errors_encountered, field_items d F_open_questions with
    | Some a, Some b, Some c, Some e, Some o =>
        Some {| goal := a; decisions := b; files_touched := c;
                errors_encountered := e; open_questions := o |}
    | _, _, _, _, _ => None
    end
  | _ => None
  end.

Definition field_label (f : sfield) : pystr :=
  match f with
  | F_goal => u "Mục tiêu và yêu cầu gốc"
  | F_decisions => u "Quyết định"
  | F_files_touched => u "Tệp đã chạm"
  | F_errors_encountered => u "Lỗi gặp phải"
  | F_open_questions => u "Câu hỏi còn mở"
  end.

Definition field_line (s : StructuredSummary) (f : sfield) : pystr :=
  let items := join (u "; ") (getattr s f) in
  field_label f ++ u ": " ++ (match items with [] => u "Không có" | _ => items end).

Definition to_prompt (s : StructuredSummary) : pystr :=
  u "Tóm tắt luỹ tiến:" ++ [10%N] ++ join [10%N] (map (field_line s) _FIELDS).

(** [max(candidates, key=len)]: the first longest non-empty field. *)
Fixpoint longest_field (s : StructuredSummary) (best : option sfield) (fs : list sfield) : option sfield :=
  match fs with
  | [] => best
  | f :: fs' =>
    let better := match getattr s f, best with
      | [], _ => false
      | _, None => true
      | _, Some b => (length (getattr s b) <? length (getattr s f))%nat
      end in
    longest_field s (if better then Some f else best) fs'
  end.

(** [values[name].pop(0)]. *)
Definition pop_oldest (s : StructuredSummary) (name : sfield) : StructuredSummary :=
  summary_of (fun f => if decide (f = name) then tail (getattr s f) else getattr s f).

(** The [while] loop of [limited]; each round removes one item, so the number of
    items bounds the rounds. *)
Fixpoint limited_loop (fuel : nat) (max_chars : Z) (s : StructuredSummary) : StructuredSummary :=
  if (zlen (to_prompt s) <=? max_chars)%Z then s
  else match longest_field s None _FIELDS, fuel with
  | Some name, S fuel' => limited_loop fuel' max_chars (pop_oldest s name)
  | _, _ => s
  end.

Definition item_count (s : StructuredSummary) : nat :=
  list_sum (map (fun f => length (getattr s f)) _FIELDS).

Definition limited (self : StructuredSummary) (max_chars max_items_per_field : Z) : StructuredSummary :=
  let values := summary_of (fun f => slice_last max_items_per_field (getattr self f)) in
  limited_loop (item_count values) max_chars values.

(** ** ProgressiveSummarizer *)

Definition MESSAGE_CONTENT_LIMIT : Z := 2000.

Section Progressive.
Context `{PyRuntime}.

Definition _bounded_message (message : jdict) : jdict :=
  let content := _stringify_content (dict_get (u "content") message) in
  let content := if (MESSAGE_CONTENT_LIMIT <? zlen content)%Z
                 then _head_tail content MESSAGE_CONTENT_LIMIT else content in
  dict_set (u "content") (JStr content) message.

Definition message_size (m : jdict) : Z := zlen (json_dumps dumps_utf8 (JObj m)).

(** The loop of [_batches]: [batch] is the open batch and [size] its size. *)
Fixpoint batches_loop (batch_limit : Z) (batch : list jdict) (size : Z) (msgs : list jdict)
    : list (list jdict) :=
  match msgs with
  | [] => match batch with [] => [] | _ => [batch] end
  | m :: msgs' =>
    let sz := message_size m in
    match batch with
    | _ :: _ =>
      if (batch_limit <? size + sz)%Z
      then batch :: batches_loop batch_limit [m] sz msgs'
      else batches_loop batch_limit (batch ++ [m]) (size + sz) msgs'
    | [] => batches_loop batch_limit [m] (size + sz) msgs'
    end
  end.

Definition batch_limit (max_input_chars : Z) : Z :=
  Z.max 1 (Z.min (max_input_chars - 8000) 20000).

Definition _batches (max_input_chars : Z) (messages : list jdict) : list (list jdict) :=
  batches_loop (batch_limit max_input_chars) [] 0 (map _bounded_message messages).

(** Removal of markdown fences: a triple backquote, an optional language tag
    [json] in any case and the white space after it. *)
Definition fence : pystr := [96; 96; 96]%N.

Definition is_json_tag (s : pystr) : bool :=
  match s with
  | j :: s' :: o :: n :: _ =>
      ((j =? 106) || (j =? 74)) && ((s' =? 115) || (s' =? 83) || (s' =? 383))
      && ((o =? 111) || (o =? 79)) && ((n =? 110) || (n =? 78))
  | _ => false
  end%N.

Fixpoint strip_fences (fuel : nat) (s : pystr) : pystr :=
  match fuel, s with
  | S fuel', c :: s' =>
    if starts_with fence s then
      let rest := drop 3 s in
      let rest := if is_json_tag rest then drop 4 rest else rest in
      strip_fences fuel' (drop_while is_space rest)
    else c :: strip_fences fuel' s'
  | _, _ => s
  end.

Definition _parse_response (content : option json) : option StructuredSummary :=
  match content with
  | Some (JStr text) =>
    let clean := strip (strip_fences (length text) text) in
    let start := find_from (u "{") clean 0 in
    if (start <? 0)%Z then None
    else match json_raw_decode (zdrop start clean) with
    | None => None
    | Some value => from_value (Some (MJson value))
    end
  | _ => None
  end.

Definition summary_json (s : StructuredSummary) : json :=
  JObj (map (fun f => (field_name f, JList (map JStr (getattr s f)))) _FIELDS).

Definition summarize_body (accumulated : StructuredSummary) (batch : list jdict) : pystr :=
  u "Tóm tắt có cấu trúc trước đó:" ++ [10%N]
  ++ json_dumps dumps_utf8 (summary_json accumulated)
  ++ [10%N] ++ u "Đoạn hội thoại mới cần hợp nhất:" ++ [10%N]
  ++ json_dumps dumps_utf8 (JList (map JObj batch)).

(** The model: the request body to the response content or an exception. *)
Context {W : Type} (chat : pystr -> W -> result (option json) * W).

Fixpoint summarize_batches (accumulated : StructuredSummary) (bs : list (list jdict)) (w : W)
    : result StructuredSummary * W :=
  match bs with
  | [] => (Ok accumulated, w)
  | batch :: bs' =>
    match chat (summarize_body accumulated batch) w with
    | (Err e, w') => (Err e, w')
    | (Ok content, w') =>
      match _parse_response content with
      | None => (Err (value_error (u "progressive summarizer returned invalid JSON schema")), w')
      | Some parsed => summarize_batches (merged accumulated parsed) bs' w'
      end
    end
  end.

Definition summarize (max_input_chars : Z) (elided : list jdict) (previous : option StructuredSummary)
    (w : W) : result StructuredSummary * W :=
  summarize_batches (default empty_summary previous) (_batches max_input_chars elided) w.
End Progressive.

(** ** Lemmas *)

Lemma getattr_summary_of v f : getattr (summary_of v) f = v f.
Proof. by destruct f. Qed.

Lemma elem_of_merged a b f x :
  x ∈ getattr (merged a b) f <-> x ∈ getattr a f \/ x ∈ getattr b f.
Proof. unfold merged. rewrite getattr_summary_of, elem_of_from_keys. apply elem_of_app. Qed.

Lemma longest_field_spec s best fs :
  (forall f, best = Some f -> getattr s f <> []) ->
  match longest_field s best fs with
  | Some f => getattr s f <> []
  | None => best = None /\ forall f, f ∈ fs -> getattr s f = []
  end.
Proof.
  revert best; induction fs as [|f fs IH]; intros best Hb; simpl.
  - destruct best; [by apply Hb | split; [done | by intros f ?%elem_of_nil]].
  - specialize (IH (if match getattr s f, best with
      | [], _ => false | _, None => true
      | _, Some b => (length (getattr s b) <? length (getattr s f))%nat end then Some f else best)).
    destruct (longest_field s _ fs).
    + apply IH. intros f'. case_match eqn:E; [|apply Hb]. intros [= <-] H0. by rewrite H0 in E.
    + destruct IH as [Hn Hfs].
      { intros f'. case_match eqn:E; [|apply Hb]. intros [= <-] H0. by rewrite H0 in E. }
      case_match eqn:E; [done|]. subst best. split; [done|].
      intros f' [->|?]%elem_of_cons; [|auto]. by destruct (getattr s f).
Qed.

Lemma item_count_pop s name :
  getattr s name <> [] -> item_count s = S (item_count (pop_oldest s name)).
Proof.
  intros Hne. unfold item_count, pop_oldest, summary_of; simpl.
  destruct name; simpl in *; destruct s as [g d ft e o]; simpl in *;
    [destruct g | destruct d | destruct ft | destruct e | destruct o]; simpl; try done; lia.
Qed.

Lemma item_count_zero s f : item_count s = 0 -> getattr s f = [].
Proof.
  intros Hz. unfold item_count in Hz. simpl in Hz. destruct s; simpl in *.
  destruct f; simpl; apply nil_length_inv; lia.
Qed.

Lemma pop_oldest_suffix s name f : getattr (pop_oldest s name) f `suffix_of` getattr s f.
Proof.
  unfold pop_oldest. rewrite getattr_summary_of. case_decide; [|done].
  destruct (getattr s f) as [|x l]; simpl; [done|]. by exists [x].
Qed.

Lemma limited_loop_spec fuel max_chars s :
  (item_count s <= fuel)%nat ->
  let r := limited_loop fuel max_chars s in
  ((zlen (to_prompt r) <= max_chars)%Z \/ forall f, getattr r f = []) /\
  forall f, getattr r f `suffix_of` getattr s f.
Proof.
  revert s; induction fuel as [|fuel IH]; intros s Hf; simpl.
  - case_match; bool_hyps; [by split; [left|]|].
    assert (forall f, getattr s f = []) by (intros; apply item_count_zero; lia).
    case_match; by split; [right|].
  - case_match; bool_hyps; [by split; [left|]|].
    pose proof (longest_field_spec s None _FIELDS ltac:(done)) as Hl.
    change (longest_field s None _FIELDS) with (longest_field s None _FIELDS) in Hl.
    destruct (longest_field s None _FIELDS) as [name|] eqn:E.
    + destruct (IH (pop_oldest s name)) as [H1 H2].
      { pose proof (item_count_pop s name Hl). lia. }
      simpl in E. rewrite E. split; [exact H1|]. intros f. etrans; [apply H2 | apply pop_oldest_suffix].
    + simpl in E. rewrite E. split; [|done]. right. intros f. apply Hl. destruct f; set_solver.
Qed.

Lemma slice_last_is_suffix {A} k (l : list A) : slice_last k l `suffix_of` l.
Proof. destruct (slice_last_suffix k l) as [r Hr]. by exists r. Qed.

Lemma suffix_zlen {A} (l k : list A) : l `suffix_of` k -> (zlen l <= zlen k)%Z.
Proof. intros [r ->]. rewrite zlen_app. pose proof (zlen_nonneg r). lia. Qed.

Lemma dedup_from_app {A} `{EqDecision A} (seen a b : list A) :
  dedup_from seen a `prefix_of` dedup_from seen (a ++ b).
Proof.
  revert seen; induction a as [|x a IH]; intros seen; simpl; [apply prefix_nil|].
  case_bool_decide; [apply IH | by apply prefix_cons].
Qed.

Definition batch_size `{PyRuntime} (b : list jdict) : Z := foldr (fun m acc => message_size m + acc)%Z 0%Z b.

Lemma batch_size_app `{PyRuntime} a b : batch_size (a ++ b) = (batch_size a + batch_size b)%Z.
Proof. induction a as [|m a IH]; simpl; lia. Qed.

(** A batch is within the limit, or it is a single message. *)
Definition batch_ok `{PyRuntime} (limit : Z) (b : list jdict) : Prop :=
  b <> [] /\ ((batch_size b <= limit)%Z \/ length b = 1).

Lemma batches_loop_spec `{PyRuntime} limit batch msgs :
  (batch <> [] -> batch_ok limit batch) ->
  concat (batches_loop limit batch (batch_size batch) msgs) = batch ++ msgs /\
  Forall (batch_ok limit) (batches_loop limit batch (batch_size batch) msgs).
Proof.
  revert batch; induction msgs as [|m msgs IH]; intros batch Hb; simpl.
  - destruct batch; simpl; [by split|]. rewrite !app_nil_r. split; [done|].
    constructor; [by apply Hb | constructor].
  - destruct batch as [|b0 batch].
    + assert (batch_size [] + message_size m = batch_size [m])%Z as -> by (simpl; lia).
      destruct (IH [m]) as [Hc Hf]; [intros _; split; [done | by right]|]. done.
    + case_match; bool_hyps.
      * assert (message_size m = batch_size [m]) as -> by (simpl; lia).
        destruct (IH [m]) as [Hc Hf]; [intros _; split; [done | by right]|].
        cbn [concat]. rewrite Hc. split; [done|]. constructor; [by apply Hb | done].
      * assert (batch_size (b0 :: batch) + message_size m
                = batch_size ((b0 :: batch) ++ [m]))%Z as Hs by (rewrite batch_size_app; simpl; lia).
        rewrite Hs. destruct (IH ((b0 :: batch) ++ [m])) as [Hc Hf].
        { intros _. split; [by destruct batch | left; lia]. }
        rewrite Hc, <- app_assoc. done.
Qed.

(** ** Theorems *)

(** [limited] terminates with a summary whose prompt fits in [max_chars], or
    with every finding removed; what is kept of each field is a suffix of it, the
    most recent complete items, and at most [max_items_per_field] of them. *)
Theorem limited_spec s max_chars max_items :
  (1 <= max_items)%Z ->
  let r := limited s max_chars max_items in
  ((zlen (to_prompt r) <= max_chars)%Z \/ forall f, getattr r f = []) /\
  forall f, getattr r f `suffix_of` getattr s f /\ (zlen (getattr r f) <= max_items)%Z.
Proof.
  intros Hm r. unfold r, limited.
  set (v := summary_of (fun f => slice_last max_items (getattr s f))).
  destruct (limited_loop_spec (item_count v) max_chars v ltac:(done)) as [H1 H2].
  split; [exact H1|]. intros f. specialize (H2 f).
  replace (getattr v f) with (slice_last max_items (getattr s f)) in H2
    by (unfold v; by rewrite getattr_summary_of).
  split; [etrans; [exact H2 | apply slice_last_is_suffix]|].
  apply suffix_zlen in H2. rewrite zlen_slice_last in H2 by lia. lia.
Qed.

(** a merge keeps every earlier finding, in its original order and ahead of
    the new ones, adds every new finding and holds no finding twice. *)
Theorem merged_additive self newer f :
  from_keys (getattr self f) `prefix_of` getattr (merged self newer) f /\
  NoDup (getattr (merged self newer) f) /\
  forall x, x ∈ getattr (merged self newer) f <-> x ∈ getattr self f \/ x ∈ getattr newer f.
Proof.
  split; [|split; [|intros x; apply elem_of_merged]];
    unfold merged; rewrite getattr_summary_of; [apply dedup_from_app | apply from_keys_NoDup].
Qed.

(** the batches partition the bounded messages in order, none is empty, and
    each fits in the batch limit unless it holds a single message. *)
Theorem batches_partition `{PyRuntime} max_input_chars messages :
  concat (_batches max_input_chars messages) = map _bounded_message messages /\
  Forall (batch_ok (batch_limit max_input_chars)) (_batches max_input_chars messages).
Proof. unfold _batches. by apply (batches_loop_spec _ []). Qed.

(** a successful progressive summary contains every finding of the previous
    one, whatever the model answers in any round. *)
Theorem summarize_keeps_findings `{PyRuntime} {W} (chat : pystr -> W -> result (option json) * W)
    max_input_chars elided previous w r w' f x :
  summarize chat max_input_chars elided (Some previous) w = (Ok r, w') ->
  x ∈ getattr previous f -> x ∈ getattr r f.
Proof.
  unfold summarize; simpl. generalize (_batches max_input_chars elided) as bs.
  intros bs; revert previous w; induction bs as [|b bs IH]; intros acc w; simpl; [by intros [= -> ->]|].
  destruct (chat _ w) as [[content|e] w1]; [|done].
  destruct (_parse_response content) as [parsed|]; [|done].
  intros Hs Hx. eapply IH; [exact Hs|]. rewrite elem_of_merged. by left.
Qed.

(** ** Witnesses *)

Definition sample_summary : StructuredSummary :=
  {| goal := [u "g"]; decisions := [u "d1"; u "d2"]; files_touched := [];
     errors_encountered := [u "e"]; open_questions := [] |}.

Lemma limited_spec_witness :
  let r := limited sample_summary 60 1 in
  ((zlen (to_prompt r) <= 60)%Z \/ forall f, getattr r f = []) /\
  forall f, getattr r f `suffix_of` getattr sample_summary f /\ (zlen (getattr r f) <= 1)%Z.
Proof. apply (limited_spec sample_summary 60 1). lia. Defined.

#[local] Instance decode_runtime : PyRuntime := {|
  float_repr := fun _ => []; py_repr := fun _ => []; sha256_hexdigest := fun s => s;
  re_search := fun _ _ => None; json_loads := fun _ => None;
  json_raw_decode := fun _ => Some (JObj [(u "decisions", JList [JStr (u "new")])]);
  url_hostname := fun _ => Ok None |}.

Lemma summarize_keeps_findings_witness :
  u "d2" ∈ getattr (summary_of (fun f =>
    match f with F_decisions => [u "d1"; u "d2"; u "new"] | _ => getattr sample_summary f end)) F_decisions.
Proof.
  apply (summarize_keeps_findings (fun _ (w : unit) => (Ok (Some (JStr (u "{}"))), w)) 60000
           [[(u "role", JStr (u "user")); (u "content", JStr (u "hi"))]] sample_summary tt _ tt F_decisions).
  - vm_compute. reflexivity.
  - apply (bool_decide_unpack _). vm_compute. exact I.
Defined.
