(* ===== verification/Conversation.v ===== *)
(** * Conversation history (kinetic_sdk/conversation/state.py)

    Messages are dictionaries in Anthropic's shape. Besides the operations of
    [ConversationState] this file defines what it means for a history to be
    replayable: every [tool_use] block is answered by exactly one [tool_result],
    in order, before anything else is said. Providers reject any other history,
    and the agent loop and the context manager are proved to keep it. *)

From stdpp Require Import base gmap strings list.
From Stdlib Require Import ZArith Lia.
From S2P Require Import Prelude Json Summary.

Abbreviation message := jdict.

Record ConversationState := {
  system_prompt : option pystr;
  messages : list message;
  max_messages : option Z;
  metadata : list (pystr * mvalue);
}.

Definition set_messages (st : ConversationState) (ms : list message) : ConversationState := {|
  system_prompt := system_prompt st; messages := ms;
  max_messages := max_messages st; metadata := metadata st |}.

Definition set_metadata (st : ConversationState) (md : list (pystr * mvalue)) : ConversationState := {|
  system_prompt := system_prompt st; messages := messages st;
  max_messages := max_messages st; metadata := md |}.

(** [while len(messages) > cap and len(messages) > 1: messages.pop(0)]. *)
Fixpoint cap_loop (cap : Z) (ms : list message) : list message :=
  match ms with
  | _ :: ((_ :: _) as rest) => if (cap <? zlen ms)%Z then cap_loop cap rest else ms
  | _ => ms
  end.

Definition _enforce_cap (st : ConversationState) : ConversationState :=
  match max_messages st with
  | None => st
  | Some cap => set_messages st (cap_loop cap (messages st))
  end.

(** Every [add_*] method appends one message and enforces the cap. *)
Definition append_message (st : ConversationState) (m : message) : ConversationState :=
  _enforce_cap (set_messages st (messages st ++ [m])).

Definition user_message (content : pystr) : message :=
  [(u "role", JStr (u "user")); (u "content", JStr content)].

Definition add_user_message (st : ConversationState) (content : pystr) : ConversationState :=
  append_message st (user_message content).

Definition add_user_message_with_image (st : ConversationState) (text image_base64 media_type : pystr)
    : ConversationState :=
  append_message st
    [(u "role", JStr (u "user"));
     (u "content", JList [
        JObj [(u "type", JStr (u "text")); (u "text", JStr text)];
        JObj [(u "type", JStr (u "image"));
              (u "source", JObj [(u "type", JStr (u "base64")); (u "media_type", JStr media_type);
                                 (u "data", JStr image_base64)])]])].

Definition assistant_message (content : json) : message :=
  [(u "role", JStr (u "assistant")); (u "content", content)].

Definition add_assistant (st : ConversationState) (content : json) : ConversationState :=
  append_message st (assistant_message content).

Definition add_assistant_text (st : ConversationState) (text : pystr) : ConversationState :=
  add_assistant st (JStr text).

Definition tool_result_message `{PyRuntime} (tool_call_id : pystr) (output : json) (is_error : bool)
    : message :=
  [(u "role", JStr (u "user"));
   (u "content", JList [JObj (
      [(u "type", JStr (u "tool_result")); (u "tool_use_id", JStr tool_call_id);
       (u "content", JStr (py_str output))]
      ++ (if is_error then [(u "is_error", JBool true)] else []))])].

Definition add_tool_result `{PyRuntime} (st : ConversationState) (tool_call_id : pystr)
    (output : json) (is_error : bool) : ConversationState :=
  append_message st (tool_result_message tool_call_id output is_error).

Definition for_llm (st : ConversationState) : option pystr * list message :=
  (system_prompt st, messages st).

Definition reset (st : ConversationState) : ConversationState := set_messages st [].

Definition length_ (st : ConversationState) : Z := zlen (messages st).

(** ** Replayable histories *)

Definition blocks (m : message) : list json :=
  match dict_get (u "content") m with Some (JList l) => l | _ => [] end.

(** The id of a block of the given type, when it is a string. *)
Definition block_id (ty key : pystr) (b : json) : option pystr :=
  match b with
  | JObj d => if decide (dict_get (u "type") d = Some (JStr ty)) then as_str (dict_get key d) else None
  | _ => None
  end.

Definition use_ids (m : message) : list pystr := omap (block_id (u "tool_use") (u "id")) (blocks m).
Definition result_ids (m : message) : list pystr :=
  omap (block_id (u "tool_result") (u "tool_use_id")) (blocks m).

(** One message, given the ids of the calls still waiting for a result. *)
Definition scan_step (waiting : list pystr) (m : message) : option (list pystr) :=
  match waiting, use_ids m, result_ids m with
  | [], uses, [] => Some uses
  | w :: waiting', [], [r] => if decide (r = w) then Some waiting' else None
  | _, _, _ => None
  end.

Fixpoint replay_scan (waiting : list pystr) (ms : list message) : option (list pystr) :=
  match ms with
  | [] => Some waiting
  | m :: ms' => match scan_step waiting m with Some w => replay_scan w ms' | None => None end
  end.

(** The ids a history ends waiting for; [Some []] is a replayable history. *)
Definition awaiting (st : ConversationState) (ids : list pystr) : Prop :=
  replay_scan [] (messages st) = Some ids.

Definition replayable (st : ConversationState) : Prop := awaiting st [].

(** ** Lemmas *)

Lemma cap_loop_spec cap ms :
  cap_loop cap ms = zdrop (zlen ms - Z.max 1 cap) ms.
Proof.
  induction ms as [|m ms IH]; [unfold zdrop; by rewrite drop_nil|].
  destruct ms as [|m' ms]; simpl in *.
  - unfold zdrop. by replace (Z.to_nat _) with 0%nat by (unfold zlen; simpl; lia).
  - rewrite IH. destruct (Z.ltb_spec cap (zlen (m :: m' :: ms))) as [Hlt|Hge].
    + unfold zdrop. unfold zlen in *. simpl length in *.
      replace (Z.to_nat (Z.of_nat (S (S (length ms))) - Z.max 1 cap))
        with (S (Z.to_nat (Z.of_nat (S (length ms)) - Z.max 1 cap))) by lia. done.
    + unfold zdrop. replace (Z.to_nat _) with 0%nat by (unfold zlen in *; simpl in *; lia). done.
Qed.

Lemma append_message_uncapped st m :
  max_messages st = None -> append_message st m = set_messages st (messages st ++ [m]).
Proof. intros Hc. unfold append_message, _enforce_cap. simpl. by rewrite Hc. Qed.

Lemma replay_scan_app waiting a b :
  replay_scan waiting (a ++ b) =
  match replay_scan waiting a with Some w => replay_scan w b | None => None end.
Proof.
  revert waiting; induction a as [|m a IH]; intros waiting; simpl; [done|].
  by destruct (scan_step waiting m).
Qed.

Lemma awaiting_append st m ids ids' :
  max_messages st = None ->
  awaiting st ids -> scan_step ids m = Some ids' -> awaiting (append_message st m) ids'.
Proof.
  intros Hc Ha Hs. unfold awaiting. rewrite append_message_uncapped by done.
  simpl. rewrite replay_scan_app, Ha. simpl. by rewrite Hs.
Qed.

Lemma user_message_scan content : scan_step [] (user_message content) = Some [].
Proof. done. Qed.

Lemma tool_result_scan `{PyRuntime} id ids output e :
  scan_step (id :: ids) (tool_result_message id output e) = Some ids.
Proof.
  assert (use_ids (tool_result_message id output e) = []) as Hu by (by destruct e).
  assert (result_ids (tool_result_message id output e) = [id]) as Hr by (by destruct e).
  unfold scan_step. rewrite Hu, Hr. by rewrite decide_True.
Qed.

#[export] Hint Resolve user_message_scan tool_result_scan : kinetic.

(** ** Theorems *)

(** the message cap keeps exactly the most recent [max(1, max_messages)]
    messages, whatever they are; the system prompt and metadata are untouched. *)
Theorem enforce_cap_keeps_recent st cap :
  max_messages st = Some cap ->
  messages (_enforce_cap st) = slice_last (Z.max 1 cap) (messages st) /\
  (zlen (messages (_enforce_cap st)) <= Z.max 1 cap)%Z /\
  system_prompt (_enforce_cap st) = system_prompt st /\ metadata (_enforce_cap st) = metadata st.
Proof.
  intros Hc. unfold _enforce_cap. rewrite Hc. simpl. rewrite cap_loop_spec.
  unfold slice_last. destruct (Z.leb_spec (Z.max 1 cap) 0); [lia|].
  assert (zdrop (zlen (messages st) - Z.max 1 cap) (messages st) =
          zdrop (Z.max 0 (zlen (messages st) - Z.max 1 cap)) (messages st)) as ->
    by (unfold zdrop; f_equal; lia).
  repeat split. rewrite zlen_zdrop by lia. lia.
Qed.

Definition echo_use (id : pystr) : json :=
  JList [JObj [(u "type", JStr (u "tool_use")); (u "id", JStr id);
               (u "name", JStr (u "echo")); (u "input", JObj [])]].

(** with [max_messages] set, the ordinary sequence of one tool round and a
    final answer drops the first user turn and leaves a [tool_result] without its
    [tool_use], a history providers reject. *)
Theorem cap_can_orphan_results `{PyRuntime} :
  exists st, replayable st /\ max_messages st = Some 2%Z /\ messages st = [user_message (u "task")] /\
    let st1 := add_assistant st (echo_use (u "t1")) in
    let st2 := add_tool_result st1 (u "t1") (JStr (u "ok")) false in
    let st3 := add_assistant_text st2 (u "done") in
    ~ replayable st3 /\ user_message (u "task") ∉ messages st3.
Proof.
  exists {| system_prompt := None; max_messages := Some 2%Z; metadata := [];
            messages := [user_message (u "task")] |}.
  split; [done|]. split; [done|]. split; [done|]. simpl. split.
  - unfold replayable, awaiting. vm_compute. discriminate.
  - apply (bool_decide_unpack _). vm_compute. exact I.
Qed.

(** ** Witnesses *)

Lemma enforce_cap_keeps_recent_witness :
  let st := {| system_prompt := None; max_messages := Some 1%Z; metadata := [];
               messages := [user_message (u "a"); user_message (u "b")] |} in
  messages (_enforce_cap st) = slice_last 1 (messages st) /\
  (zlen (messages (_enforce_cap st)) <= 1)%Z /\
  system_prompt (_enforce_cap st) = system_prompt st /\ metadata (_enforce_cap st) = metadata st.
Proof.
  exact (enforce_cap_keeps_recent {| system_prompt := None; max_messages := Some 1%Z; metadata := [];
    messages := [user_message (u "a"); user_message (u "b")] |} 1 eq_refl).
Defined.
