(* ===== verification/Types.v ===== *)
(** * Shared data types
      (kinetic_sdk/tool/base.py, kinetic_sdk/llm/client.py,
       kinetic_sdk/security/policy.py, kinetic_sdk/agent/modes.py,
       kinetic_sdk/agent/planning.py)

    The dataclasses and enumerations that cross component boundaries. *)

From stdpp Require Import base gmap strings list.
From Stdlib Require Import ZArith Lia.
From S2P Require Import Prelude Json.

Inductive ToolFailureCategory := RECOVERABLE_INPUT | TRANSIENT | PERMANENT.

Inductive ToolRiskLevel := READ_ONLY | WRITE | DESTRUCTIVE.

#[export] Instance failure_category_eq_dec : EqDecision ToolFailureCategory.
Proof. solve_decision. Defined.

Definition failure_value (c : ToolFailureCategory) : pystr :=
  match c with
  | RECOVERABLE_INPUT => u "recoverable_input"
  | TRANSIENT => u "transient"
  | PERMANENT => u "permanent"
  end.

Record ToolExecutionPolicy := {
  timeout_seconds : option pyfloat;
  p_max_transient_retries : option Z;
  circuit_breaker_threshold : option Z;
  circuit_breaker_cooldown_seconds : pyfloat;
}.

Record ToolResult := {
  output : json;
  error : option pystr;
  tr_metadata : jdict;
  failure_category : option ToolFailureCategory;
  duration_seconds : option pyfloat;
  artifacts : list pystr;
}.

(** [ToolResult.is_error]. *)
Definition is_error (r : ToolResult) : bool :=
  match error r with Some (_ :: _) => true | _ => false end.

(** [ToolResult(error=msg)] and [ToolResult(output=v)]. *)
Definition error_result (msg : pystr) : ToolResult := {|
  output := JNull; error := Some msg; tr_metadata := []; failure_category := None;
  duration_seconds := None; artifacts := [] |}.

Definition output_result (v : json) : ToolResult := {|
  output := v; error := None; tr_metadata := []; failure_category := None;
  duration_seconds := None; artifacts := [] |}.

Definition set_duration (r : ToolResult) (d : pyfloat) : ToolResult := {|
  output := output r; error := error r; tr_metadata := tr_metadata r;
  failure_category := failure_category r; duration_seconds := Some d; artifacts := artifacts r |}.

Definition set_category (r : ToolResult) (c : ToolFailureCategory) : ToolResult := {|
  output := output r; error := error r; tr_metadata := tr_metadata r;
  failure_category := Some c; duration_seconds := duration_seconds r; artifacts := artifacts r |}.

(** The declarative part of a [Tool]; [execute] belongs to the environment. *)
Record Tool := {
  t_name : pystr;
  t_description : pystr;
  t_parameters : json;
  risk_level : option ToolRiskLevel;
  execution_policy : option ToolExecutionPolicy;
  (** ["idempotency_key" in inspect.signature(tool.execute).parameters] *)
  accepts_idempotency_key : bool;
}.

Definition to_schema (t : Tool) : json :=
  JObj [(u "name", JStr (t_name t)); (u "description", JStr (t_description t));
        (u "input_schema", t_parameters t)].

Record ToolCall := { tc_id : pystr; tc_name : pystr; tc_arguments : jdict }.

#[export] Instance tool_call_eq_dec : EqDecision ToolCall.
Proof. solve_decision. Defined.

Record LLMResponse := {
  r_content : pystr;
  tool_calls : list ToolCall;
  stop_reason : option pystr;
  usage : jdict;
  reasoning_text : option pystr;
}.

Inductive StreamEvent :=
| SE_text (delta : pystr)
| SE_tool_call (c : ToolCall)
| SE_done (r : LLMResponse).

Record PermissionDecision := {
  allowed : bool;
  reason : pystr;
  requires_confirmation : bool;
}.

#[export] Instance permission_decision_eq_dec : EqDecision PermissionDecision.
Proof. solve_decision. Defined.

Inductive AgentMode := FLASH | MAX.

#[export] Instance agent_mode_eq_dec : EqDecision AgentMode.
Proof. solve_decision. Defined.

Definition mode_value (m : AgentMode) : pystr :=
  match m with FLASH => u "flash" | MAX => u "max" end.

(** [AgentMode(value)]. *)
Definition mode_of_value (v : pystr) : option AgentMode :=
  if decide (v = u "flash") then Some FLASH
  else if decide (v = u "max") then Some MAX else None.

Definition escalates_to (current : AgentMode) : option AgentMode :=
  match current with FLASH => Some MAX | MAX => None end.

Record Plan := { p_goal : pystr; p_steps : list pystr; p_metadata : jdict }.

Definition make_plan (goal : pystr) (steps : list pystr) (md : jdict) : result Plan :=
  if bool_decide (strip goal = []) then Err (value_error (u "plan goal must be a non-empty string"))
  else if bool_decide (steps = []) || existsb (fun s => bool_decide (strip s = [])) steps
       then Err (value_error (u "plan steps must contain at least one non-empty string"))
  else Ok {| p_goal := goal; p_steps := steps; p_metadata := md |}.

Fixpoint numbered_steps (index : Z) (steps : list pystr) : list pystr :=
  match steps with
  | [] => []
  | s :: steps' => (dec index ++ u ". " ++ s) :: numbered_steps (index + 1) steps'
  end.

Definition plan_to_prompt (p : Plan) : pystr :=
  u "Execution plan (follow it when evidence supports it; update your approach if tool results contradict it):"
  ++ [10%N] ++ u "Goal: " ++ p_goal p ++ [10%N] ++ join [10%N] (numbered_steps 1 (p_steps p)).
