(* ===== verification/EventBus.v ===== *)
(** * Event bus (kinetic_sdk/event/bus.py)

    Subscribers are identified by an arbitrary type with decidable equality;
    calling one may change the world and may subscribe or unsubscribe on the bus
    it is called from. *)

From stdpp Require Import base gmap strings list.
From Stdlib Require Import ZArith Lia.
From S2P Require Import Prelude Json.

Record Event := { e_type : pystr; e_payload : jdict; e_source : option pystr }.

(** What the emitting components need of a bus. *)
Class EventSink (W : Type) := { publish_to : Event -> W -> W }.

Section Bus.
Context {Sub : Type} `{EqDecision Sub}.

(** [_subscribers], a dictionary in insertion order. *)
Abbreviation bus := (list (pystr * list Sub)).

Definition subscribers (b : bus) (ty : pystr) : list Sub := default [] (dict_get ty b).

Definition subscribe (b : bus) (event_type : pystr) (s : Sub) : bus :=
  let subs := subscribers b event_type in
  dict_set event_type (if decide (s ∈ subs) then subs else subs ++ [s]) b.

(** [list.remove]: the first occurrence. *)
Fixpoint remove_first (s : Sub) (l : list Sub) : list Sub :=
  match l with
  | [] => []
  | x :: l' => if decide (x = s) then l' else x :: remove_first s l'
  end.

Definition unsubscribe (b : bus) (event_type : pystr) (s : Sub) : bus :=
  match dict_get event_type b with
  | Some subs => if decide (s ∈ subs) then dict_set event_type (remove_first s subs) b else b
  | None => b
  end.

Definition _gather (b : bus) (event_type : pystr) : list Sub :=
  subscribers b (u "*") ++ subscribers b event_type.

Definition clear (b : bus) : bus := [].

(** [call s e (b, w)] runs subscriber [s]; an exception it raises is logged and
    swallowed by [publish], so only the state it leaves matters. *)
Context {W : Type} (is_coroutine : Sub -> bool)
  (call : Sub -> Event -> bus * W -> option pyexn * (bus * W)).

Definition deliver (e : Event) (st : bus * W) (s : Sub) : bus * W := (call s e st).2.

Definition publish (e : Event) (st : bus * W) : bus * W :=
  foldl (fun st s => if is_coroutine s then st else deliver e st s) st (_gather st.1 (e_type e)).

(** [publish_async] also awaits the coroutine subscribers, one after the other. *)
Definition publish_async (e : Event) (st : bus * W) : bus * W :=
  foldl (deliver e) st (_gather st.1 (e_type e)).

End Bus.

(** ** Lemmas *)

Section BusLemmas.
Context {Sub : Type} `{EqDecision Sub}.
Implicit Types (b : list (pystr * list Sub)) (l : list Sub) (s : Sub).

Definition bus_wf b : Prop := forall ty, NoDup (subscribers b ty).

Lemma subscribers_set_eq b ty l : subscribers (dict_set ty l b) ty = l.
Proof. unfold subscribers. by rewrite dict_get_set_eq. Qed.

Lemma subscribers_set_ne b ty ty' l : ty <> ty' -> subscribers (dict_set ty l b) ty' = subscribers b ty'.
Proof. intros Hne. unfold subscribers. by rewrite dict_get_set_ne. Qed.

Lemma remove_first_NoDup s l : NoDup l -> NoDup (remove_first s l).
Proof.
  intros Hl. induction Hl as [|x l Hx Hl IH]; simpl; [constructor|].
  case_decide; [done|]. constructor; [|done]. intros Hin. apply Hx.
  clear -Hin. induction l as [|y l IH]; simpl in *; [done|]. case_decide; set_solver.
Qed.

Lemma remove_first_not_in s l : NoDup l -> s ∉ remove_first s l.
Proof.
  induction 1 as [|x l Hx Hl IH]; simpl; [set_solver|]. case_decide; subst; set_solver.
Qed.

Lemma remove_first_last s l : s ∉ l -> remove_first s (l ++ [s]) = l.
Proof.
  induction l as [|x l IH]; intros Hs; simpl; [by rewrite decide_True|].
  rewrite decide_False by set_solver. rewrite IH by set_solver. done.
Qed.
End BusLemmas.

(** ** Theorems *)

(** subscribing, unsubscribing and clearing keep every subscriber list free
    of duplicates, so an event reaches a subscriber at most once per type it is
    registered for; subscribing twice is a no-op, and unsubscribing a subscriber
    that was not registered before undoes the subscription on every type. *)
Theorem subscription_discipline {Sub} `{EqDecision Sub} (b : list (pystr * list Sub)) ty s :
  bus_wf b ->
  bus_wf (subscribe b ty s) /\ bus_wf (unsubscribe b ty s) /\ bus_wf (clear b) /\
  s ∈ subscribers (subscribe b ty s) ty /\ s ∉ subscribers (unsubscribe b ty s) ty /\
  (forall t, subscribers (subscribe (subscribe b ty s) ty s) t = subscribers (subscribe b ty s) t) /\
  (s ∉ subscribers b ty ->
     forall t, subscribers (unsubscribe (subscribe b ty s) ty s) t = subscribers b t).
Proof.
  intros Hwf. assert (s ∈ subscribers (subscribe b ty s) ty) as Hin.
  { unfold subscribe. rewrite subscribers_set_eq. case_decide; set_solver. }
  repeat split.
  - intros t. unfold subscribe. destruct (decide (ty = t)) as [<-|Hne].
    + rewrite subscribers_set_eq. case_decide; [apply Hwf|].
      apply NoDup_app. repeat split; [apply Hwf | set_solver | apply NoDup_singleton].
    + rewrite subscribers_set_ne by done. apply Hwf.
  - intros t. unfold unsubscribe. pose proof (Hwf ty) as Hty. unfold subscribers in Hty at 1.
    destruct (dict_get ty b) as [l|] eqn:E; [|apply Hwf]. case_decide; [|apply Hwf].
    destruct (decide (ty = t)) as [<-|Hne].
    + rewrite subscribers_set_eq. by apply remove_first_NoDup.
    + rewrite subscribers_set_ne by done. apply Hwf.
  - intros t. constructor.
  - exact Hin.
  - unfold unsubscribe. pose proof (Hwf ty) as Hty. unfold subscribers in Hty.
    destruct (dict_get ty b) as [l|] eqn:E; simpl in Hty.
    + case_decide; [rewrite subscribers_set_eq; by apply remove_first_not_in|].
      unfold subscribers. by rewrite E.
    + unfold subscribers. rewrite E. set_solver.
  - intros t. unfold subscribe at 1. rewrite decide_True by done.
    destruct (decide (ty = t)) as [<-|Hne].
    + by rewrite subscribers_set_eq.
    + by rewrite subscribers_set_ne.
  - intros Hs t. unfold unsubscribe, subscribe. rewrite dict_get_set_eq, (decide_False _ _ Hs).
    rewrite decide_True by set_solver. rewrite remove_first_last by done.
    destruct (decide (ty = t)) as [<-|Hne].
    + by rewrite subscribers_set_eq.
    + by rewrite !subscribers_set_ne.
Qed.

(** publishing delivers to the subscribers registered when the event is
    published, wildcard subscribers first and each list in registration order,
    skipping coroutines; a subscriber that raises, subscribes or unsubscribes
    changes neither who is called nor the order. The log of calls of any world
    that records them is exactly that list. *)
Theorem publish_delivers_snapshot {Sub} `{EqDecision Sub} (is_coroutine : Sub -> bool)
    (effect : Sub -> Event -> list (pystr * list Sub) -> list (pystr * list Sub))
    (raises : Sub -> Event -> option pyexn) e b log :
  let call s e (st : list (pystr * list Sub) * list Sub) :=
    (raises s e, (effect s e st.1, st.2 ++ [s])) in
  (publish is_coroutine call e (b, log)).2
  = log ++ filter (fun s => is_coroutine s = false) (_gather b (e_type e)) /\
  (publish_async call e (b, log)).2 = log ++ _gather b (e_type e).
Proof.
  simpl. unfold publish, publish_async. simpl. generalize (_gather b (e_type e)) as subs.
  intros subs. split.
  - revert b log; induction subs as [|s subs IH]; intros b log; simpl; [by rewrite app_nil_r|].
    rewrite filter_cons. destruct (is_coroutine s) eqn:E; simpl.
    + apply IH.
    + unfold deliver at 2; simpl. rewrite IH, <- app_assoc. done.
  - revert b log; induction subs as [|s subs IH]; intros b log; simpl; [by rewrite app_nil_r|].
    unfold deliver at 2; simpl. rewrite IH, <- app_assoc. done.
Qed.

(** ** Witnesses *)

Lemma subscription_discipline_witness :
  subscribers (unsubscribe (subscribe [] (u "x") 7%nat) (u "x") 7%nat) (u "x") = [].
Proof.
  destruct (subscription_discipline (Sub := nat) [] (u "x") 7%nat) as (_ & _ & _ & _ & _ & _ & Hr).
  - intros ty. constructor.
  - apply Hr. set_solver.
Defined.
