(* ===== verification/Redact.v ===== *)
(** * Secret redaction and the audit log
      (kinetic_sdk/security/redact.py, kinetic_sdk/security/audit.py)

    The ten regular-expression substitutions are parameters (what a [re.Pattern]
    matches is Python's business); the order they run in, the recursive walk and
    the handling of sensitive keys are modelled. The audit loggers turn each call,
    result and denial into a redacted entry of an append-only trail. *)

From stdpp Require Import base gmap strings list.
From Stdlib Require Import ZArith Lia.
From S2P Require Import Prelude Json.

Definition REDACTED : pystr := u "[REDACTED]".

(** The compiled patterns of the module, in the order [redact_secrets] uses them. *)
Inductive secret_rx :=
| PEM_KEY_RE | BEARER_JWT_RE | SLACK_TOKEN_RE | GOOGLE_API_KEY_RE | KNOWN_TOKEN_RE
| URL_CREDENTIAL_RE | KEYWORD_TOKEN_RE | ENV_SECRET_RE | SHORT_ASSIGNED_SECRET_RE
| JSON_SECRET_VALUE_RE.

(** [rx_sub r text] is [r.sub(replacement, text)] with the replacement the module
    pairs with [r]. *)
Class SecretPatterns := { rx_sub : secret_rx -> pystr -> pystr }.

Definition redact_order : list secret_rx :=
  [PEM_KEY_RE; BEARER_JWT_RE; SLACK_TOKEN_RE; GOOGLE_API_KEY_RE; KNOWN_TOKEN_RE;
   URL_CREDENTIAL_RE; KEYWORD_TOKEN_RE; ENV_SECRET_RE; SHORT_ASSIGNED_SECRET_RE;
   JSON_SECRET_VALUE_RE].

Definition redact_secrets `{SecretPatterns} (text : pystr) : pystr :=
  match text with
  | [] => text
  | _ => foldl (fun t r => rx_sub r t) text redact_order
  end.

Definition _SENSITIVE_KEY_PARTS : list pystr :=
  [u "password"; u "passwd"; u "secret"; u "token"; u "api_key"; u "apikey";
   u "authorization"; u "private_key"].

Definition sensitive_key (k : pystr) : bool :=
  existsb (fun part => contains part (lower k)) _SENSITIVE_KEY_PARTS.

Fixpoint redact_value `{SecretPatterns} (value : json) : json :=
  match value with
  | JStr s => JStr (redact_secrets s)
  | JObj d =>
      JObj (map (fun kv =>
        (kv.1, match kv.2 with
               | JStr _ => if sensitive_key kv.1 then JStr REDACTED else redact_value kv.2
               | _ => redact_value kv.2
               end)) d)
  | JList l => JList (map redact_value l)
  | _ => value
  end.

(** ** Audit entries *)

(** An audit entry is the [dict] handed to [_record]; [id] and [timestamp] come
    from [uuid4] and the clock. *)
Definition _entry (id timestamp event tool_name : pystr) (fields : jdict) : jdict :=
  foldl (fun d kv => dict_set kv.1 kv.2 d)
    [(u "id", JStr id); (u "timestamp", JStr timestamp); (u "event", JStr event);
     (u "tool_name", JStr tool_name)] fields.

Section Audit.
Context `{SecretPatterns}.

Definition log_tool_call (id timestamp tool_name : pystr) (tool_input : jdict)
    (allowed : bool) (reason : pystr) (requires_confirmation : bool) : jdict :=
  _entry id timestamp (u "tool_call") tool_name
    [(u "input", redact_value (JObj tool_input));
     (u "decision", JObj [(u "allowed", JBool allowed); (u "reason", JStr reason);
                          (u "requires_confirmation", JBool requires_confirmation)])].

Definition log_tool_result (id timestamp tool_name : pystr) (is_error : bool)
    (output error : json) : jdict :=
  _entry id timestamp (u "tool_result") tool_name
    [(u "result", JObj [(u "is_error", JBool is_error); (u "output", redact_value output);
                        (u "error", redact_value error)])].

Definition log_permission_denied (id timestamp tool_name : pystr) (tool_input : jdict)
    (reason : pystr) : jdict :=
  _entry id timestamp (u "permission_denied") tool_name
    [(u "input", redact_value (JObj tool_input)); (u "reason", JStr reason)].

Definition log_event (event subject id timestamp : pystr) (fields : jdict) : jdict :=
  _entry id timestamp event subject (map (fun kv => (kv.1, redact_value kv.2)) fields).
End Audit.

(** [InMemoryAuditLogger._record]. *)
Definition _record (entries : list jdict) (entry : jdict) : list jdict := entries ++ [entry].

(** ** What redaction guarantees *)

(** No string is left readable under a sensitive key, at any depth. *)
Inductive scrubbed : json -> Prop :=
| scrubbed_leaf j : (forall l, j <> JList l) -> (forall d, j <> JObj d) -> scrubbed j
| scrubbed_list l : Forall scrubbed l -> scrubbed (JList l)
| scrubbed_obj d :
    Forall (fun kv => scrubbed kv.2 /\
      (sensitive_key kv.1 = true -> forall s, kv.2 = JStr s -> s = REDACTED)) d ->
    scrubbed (JObj d).

(** [same_shape a b]: equal up to the text of string values. *)
Inductive same_shape : json -> json -> Prop :=
| shape_str s t : same_shape (JStr s) (JStr t)
| shape_list l l' : Forall2 same_shape l l' -> same_shape (JList l) (JList l')
| shape_obj d d' : Forall2 (fun a b => a.1 = b.1 /\ same_shape a.2 b.2) d d' ->
    same_shape (JObj d) (JObj d')
| shape_other j : same_shape j j.

Lemma redact_scrubbed `{SecretPatterns} v : scrubbed (redact_value v).
Proof.
  induction v as [|b|z|f|s|l IH|d IH] using json_ind; simpl.
  1-5: by apply scrubbed_leaf.
  - apply scrubbed_list. by apply Forall_map.
  - apply scrubbed_obj. apply Forall_map. eapply Forall_impl; [exact IH|].
    intros [k v] Hv; simpl in *. destruct v; simpl in *; try (split; [done|congruence]).
    destruct (sensitive_key k) eqn:E; split; try done; try (by apply scrubbed_leaf); congruence.
Qed.

Lemma redact_same_shape `{SecretPatterns} v : same_shape v (redact_value v).
Proof.
  induction v as [|b|z|f|s|l IH|d IH] using json_ind; simpl; try constructor.
  - induction IH; simpl; by constructor.
  - induction IH as [|[k v] d Hv _ IHd]; simpl; constructor; [|done]. split; [done|].
    simpl in *. destruct v; try done. case_match; [constructor | done].
Qed.

(** ** Theorems *)

(** redacting a JSON value leaves no readable string under a key that names a
    secret, at any nesting depth, and changes nothing else about its structure:
    keys, order, lengths and non-string values are those of the original. *)
Theorem redact_value_scrubs `{SecretPatterns} v :
  scrubbed (redact_value v) /\ same_shape v (redact_value v).
Proof. split; [apply redact_scrubbed | apply redact_same_shape]. Qed.

(** the denial entry of the audit log scrubs the tool input but stores the
    reason verbatim, also when a substitution would have changed it. *)
Theorem denial_reason_not_redacted `{SecretPatterns} id timestamp tool_name tool_input reason :
  let e := log_permission_denied id timestamp tool_name tool_input reason in
  dict_get (u "reason") e = Some (JStr reason) /\
  exists input, dict_get (u "input") e = Some input /\ scrubbed input.
Proof.
  split; [done|]. exists (redact_value (JObj tool_input)). split; [done | apply redact_scrubbed].
Qed.
