(* ===== verification/Hooks.v ===== *)
(** * Lifecycle hooks (kinetic_sdk/hooks/base.py, kinetic_sdk/hooks/registry.py)

    A registry keeps an ordered list of hooks per lifecycle point. What a hook
    does when called is a parameter: it may return a result or nothing, return an
    awaitable, or raise; it acts on the world. Hooks that change the registry
    while it runs them are outside the model. *)

From stdpp Require Import base gmap strings list.
From Stdlib Require Import ZArith Lia.
From S2P Require Import Prelude Json Types EventBus Redact.

Inductive HookPoint :=
| BEFORE_RUN | AFTER_RUN | BEFORE_LLM_CALL | AFTER_LLM_CALL | BEFORE_TOOL_CALL
| AFTER_TOOL_CALL | ON_PERMISSION_CHECK | ON_ERROR.

#[export] Instance hook_point_eq_dec : EqDecision HookPoint.
Proof. solve_decision. Defined.

Definition point_value (p : HookPoint) : pystr :=
  match p with
  | BEFORE_RUN => u "before_run"
  | AFTER_RUN => u "after_run"
  | BEFORE_LLM_CALL => u "before_llm_call"
  | AFTER_LLM_CALL => u "after_llm_call"
  | BEFORE_TOOL_CALL => u "before_tool_call"
  | AFTER_TOOL_CALL => u "after_tool_call"
  | ON_PERMISSION_CHECK => u "on_permission_check"
  | ON_ERROR => u "on_error"
  end.

Record HookContext := {
  hc_point : HookPoint;
  hc_run_id : option pystr;
  hc_user_message : option pystr;
  hc_final_text : option pystr;
  hc_iteration : option Z;
  hc_tool_name : option pystr;
  hc_tool_input : option jdict;
  hc_tool_result : option ToolResult;
  hc_permission_decision : option PermissionDecision;
  hc_llm_response : option LLMResponse;
  hc_error : option pystr;
}.

(** [HookContext(point=p, run_id=r)]. *)
Definition hook_context (p : HookPoint) (r : option pystr) : HookContext := {|
  hc_point := p; hc_run_id := r; hc_user_message := None; hc_final_text := None;
  hc_iteration := None; hc_tool_name := None; hc_tool_input := None; hc_tool_result := None;
  hc_permission_decision := None; hc_llm_response := None; hc_error := None |}.

Record HookResult := {
  should_continue : bool;
  modified_context : option jdict;
}.

(** What calling a hook produces; an awaitable carries what awaiting it gives. *)
Inductive hook_outcome :=
| HReturn (r : option HookResult)
| HAwaitable (r : result (option HookResult))
| HRaise (e : pyexn).

Section Registry.
Context {Hook : Type} `{EqDecision Hook}.

Abbreviation registry := (list (HookPoint * list Hook)).

Definition hooks_for (r : registry) (p : HookPoint) : list Hook := default [] (dict_get p r).

Definition register (r : registry) (p : HookPoint) (h : Hook) : registry :=
  let hooks := hooks_for r p in
  dict_set p (if decide (h ∈ hooks) then hooks else hooks ++ [h]) r.

Definition unregister (r : registry) (p : HookPoint) (h : Hook) : registry :=
  match dict_get p r with
  | Some hooks => if decide (h ∈ hooks) then dict_set p (remove_first h hooks) r else r
  | None => r
  end.

Context `{SecretPatterns} {W : Type} (hook_name : Hook -> pystr)
  (call : Hook -> HookContext -> W -> hook_outcome * W) (publish : Event -> W -> W)
  (has_bus : bool).

Definition _emit_error (p : HookPoint) (h : Hook) (e : pyexn) (w : W) : W :=
  if has_bus then
    publish {| e_type := u "hooks.error";
               e_payload := [(u "hook", JStr (hook_name h)); (u "point", JStr (point_value p));
                             (u "error", JStr (redact_secrets (exn_type e ++ u ": " ++ exn_msg e)))];
               e_source := Some (u "hooks") |} w
  else w.

(** The loop of [trigger] and [trigger_async]; only the latter awaits. *)
Fixpoint run_hooks (await : bool) (p : HookPoint) (ctx : HookContext) (hooks : list Hook) (w : W)
    : list HookResult * W :=
  match hooks with
  | [] => ([], w)
  | h :: hooks' =>
    let '(o, w1) := call h ctx w in
    let '(r, w2) :=
      match o with
      | HReturn r => (r, w1)
      | HAwaitable ar =>
        if await then match ar with Ok r => (r, w1) | Err e => (None, _emit_error p h e w1) end
        else (None, w1)
      | HRaise e => (None, _emit_error p h e w1)
      end in
    let '(rs, w3) := run_hooks await p ctx hooks' w2 in
    (match r with Some x => x :: rs | None => rs end, w3)
  end.

Definition trigger (r : registry) (p : HookPoint) (ctx : HookContext) (w : W) : list HookResult * W :=
  run_hooks false p ctx (hooks_for r p) w.

Definition trigger_async (r : registry) (p : HookPoint) (ctx : HookContext) (w : W)
    : list HookResult * W :=
  run_hooks true p ctx (hooks_for r p) w.
End Registry.

(** ** Theorems *)

(** every hook registered at a point is called exactly once and in
    registration order, whatever the others do: a raising hook, or a coroutine
    hook under the synchronous loop, contributes no result and blocks nobody. *)
Theorem trigger_calls_every_hook {Hook} `{EqDecision Hook} `{SecretPatterns}
    (hook_name : Hook -> pystr) (outcome : Hook -> hook_outcome) has_bus r p ctx log :
  let call h (_ : HookContext) (w : list Hook) := (outcome h, w ++ [h]) in
  let '(results, log') := trigger hook_name call (fun _ w => w) has_bus r p ctx log in
  log' = log ++ hooks_for r p /\
  results = omap (fun h => match outcome h with HReturn x => x | _ => None end) (hooks_for r p).
Proof.
  simpl. unfold trigger. generalize (hooks_for r p) as hooks. intros hooks.
  revert log; induction hooks as [|h hooks IH]; intros log; simpl; [by rewrite app_nil_r|].
  assert (forall e, _emit_error hook_name (fun (_ : Event) (w : list Hook) => w) has_bus p h e (log ++ [h])
          = log ++ [h]) as He by (intros e; unfold _emit_error; by destruct has_bus).
  specialize (IH (log ++ [h])). csimpl. destruct (outcome h) as [x|x|e].
  - destruct (run_hooks _ _ _ _ _ _ _ hooks (log ++ [h])) as [rs w3]. destruct IH as [-> ->].
    rewrite <- app_assoc. split; [done|]. by destruct x.
  - destruct (run_hooks _ _ _ _ _ _ _ hooks (log ++ [h])) as [rs w3]. destruct IH as [-> ->].
    by rewrite <- app_assoc.
  - rewrite He. destruct (run_hooks _ _ _ _ _ _ _ hooks (log ++ [h])) as [rs w3]. destruct IH as [-> ->].
    by rewrite <- app_assoc.
Qed.
