(* ===== verification/Context.v ===== *)
(** * Context-window management (kinetic_sdk/context/manager.py, third part)

    The [ContextManager] interface, [NoopContextManager],
    [SimpleTruncateContextManager] and [SummarizingContextManager]. A manager is
    its configuration record; [compact] returns the new conversation state. The
    message that replaces the elided span is an argument of the shared algorithm
    ([compact_with]), as the method [_elided_message] is overridden in the
    subclass. *)

From stdpp Require Import base gmap strings list.
From Stdlib Require Import ZArith Lia SpecFloat.
From S2P Require Import Prelude Json TextCompact Summary Conversation Redact.

Record ContextBudget := {
  b_system_prompt : pyfloat;
  b_history : pyfloat;
  b_tool_output : pyfloat;
  b_memory : pyfloat;
  b_plan : pyfloat;
}.

(** The attributes of [SimpleTruncateContextManager]. *)
Record TruncateManager := {
  keep_last_tool_results : Z;
  safety_threshold : pyfloat;
  chars_per_token : Z;
  token_counter : option (pystr -> Z);
  max_tool_result_chars : option Z;
  budget : option ContextBudget;
  tool_output_compressor : option ToolOutputCompressor;
  tail_token_budget : option pyfloat;
  _budget_context_limit : option Z;
}.

Definition in_unit_interval (f : pyfloat) : bool := fl_lt (fl_of_Z 0) f && fl_le f (fl_of_Z 1).

(** [SimpleTruncateContextManager.__init__]. *)
Definition make_truncate_manager (keep : Z) (threshold : pyfloat) (cpt : Z)
    (counter : option (pystr -> Z)) (max_chars : option Z) (b : option ContextBudget)
    (compressor : option ToolOutputCompressor) (tail_budget : option pyfloat)
    : result TruncateManager :=
  if (keep <? 0)%Z then Err (value_error (u "keep_last_tool_results must be >= 0"))
  else if negb (in_unit_interval threshold)
       then Err (value_error (u "safety_threshold must be in (0, 1]"))
  else if (cpt <? 1)%Z then Err (value_error (u "chars_per_token must be >= 1"))
  else if match max_chars with Some c => (c <? 100)%Z | None => false end
       then Err (value_error (u "max_tool_result_chars must be >= 100 or None"))
  else if match tail_budget with Some f => negb (in_unit_interval f) | None => false end
       then Err (value_error (u "tail_token_budget must be in (0, 1] or None"))
  else Ok {|
    keep_last_tool_results := keep; safety_threshold := threshold; chars_per_token := cpt;
    token_counter := counter; max_tool_result_chars := max_chars; budget := b;
    tool_output_compressor := compressor; tail_token_budget := tail_budget;
    _budget_context_limit := None |}.

Definition set_context_limit (m : TruncateManager) (limit : Z) : TruncateManager := {|
  keep_last_tool_results := keep_last_tool_results m; safety_threshold := safety_threshold m;
  chars_per_token := chars_per_token m; token_counter := token_counter m;
  max_tool_result_chars := max_tool_result_chars m; budget := budget m;
  tool_output_compressor := tool_output_compressor m; tail_token_budget := tail_token_budget m;
  _budget_context_limit := Some limit |}.

(** ** Tool ids of a message *)

(** The non-empty string ids of the blocks of a message, as a set. *)
Definition truthy_ids (ids : list pystr) : gset pystr := list_to_set (filter (fun i => i <> []) ids).

Definition _message_tool_use_ids (msg : message) : gset pystr := truthy_ids (use_ids msg).
Definition _message_tool_result_ids (msg : message) : gset pystr := truthy_ids (result_ids msg).

Definition _message_has_tool_result (msg : message) : bool :=
  negb (bool_decide (_message_tool_result_ids msg = ∅)).

Definition _message_has_tool_content (msg : message) : bool :=
  negb (bool_decide (_message_tool_use_ids msg = ∅))
  || negb (bool_decide (_message_tool_result_ids msg = ∅)).

Section Manager.
Context `{PyRuntime}.

Definition _count_tokens (self : TruncateManager) (text : pystr) : Z :=
  match token_counter self with
  | Some f => f text
  | None => estimate_tokens text (chars_per_token self)
  end.

Definition content_of (msg : message) : option json := dict_get (u "content") msg.

Definition estimate_state_tokens (self : TruncateManager) (st : ConversationState) : Z :=
  foldl (fun total msg => total + _count_tokens self (_stringify_content (content_of msg)))%Z
    (match system_prompt st with
     | Some ((_ :: _) as p) => _count_tokens self p
     | _ => 0%Z
     end) (messages st).

(** The five sections of [_budget_sections]; [plan] is read from the metadata. *)
Record sections := {
  s_system_prompt : pystr; s_history : pystr; s_tool_output : pystr; s_memory : pystr; s_plan : json }.

Definition is_tool_result_block (b : json) : bool :=
  match b with JObj d => bool_decide (dict_get (u "type") d = Some (JStr (u "tool_result"))) | _ => false end.

Definition add_to_sections (s : sections) (msg : message) : sections :=
  match content_of msg with
  | Some (JStr c) =>
    if starts_with (u "[Recalled memories]") c
    then {| s_system_prompt := s_system_prompt s; s_history := s_history s;
            s_tool_output := s_tool_output s; s_memory := s_memory s ++ c; s_plan := s_plan s |}
    else {| s_system_prompt := s_system_prompt s; s_history := s_history s ++ c;
            s_tool_output := s_tool_output s; s_memory := s_memory s; s_plan := s_plan s |}
  | Some (JList content) =>
    let tool_blocks := filter (fun b => is_tool_result_block b = true) content in
    let other_blocks := filter (fun b => py_in b tool_blocks = false) content in
    {| s_system_prompt := s_system_prompt s;
       s_history := s_history s ++ _stringify_content (Some (JList other_blocks));
       s_tool_output := s_tool_output s ++ _stringify_content (Some (JList tool_blocks));
       s_memory := s_memory s; s_plan := s_plan s |}
  | c => {| s_system_prompt := s_system_prompt s; s_history := s_history s ++ _stringify_content c;
            s_tool_output := s_tool_output s; s_memory := s_memory s; s_plan := s_plan s |}
  end.

Definition _budget_sections (st : ConversationState) : sections :=
  foldl add_to_sections
    {| s_system_prompt := default [] (system_prompt st); s_history := []; s_tool_output := [];
       s_memory := [];
       s_plan := match dict_get (u "plan") (metadata st) with Some (MJson j) => j | _ => JStr [] end |}
    (messages st).

(** [any(counts[name] >= allocations[name] for name in counts)]. *)
Definition over_budget (self : TruncateManager) (b : ContextBudget) (limit : Z)
    (st : ConversationState) : bool :=
  let s := _budget_sections st in
  let over text share :=
    Z_ge_float (_count_tokens self text) (fl_mul (fl_of_Z limit) share) in
  over (s_system_prompt s) (b_system_prompt b)
  || over (s_history s) (b_history b)
  || over (s_tool_output s) (b_tool_output b)
  || over (s_memory s) (b_memory b)
  || over (_stringify_content (Some (s_plan s))) (b_plan b).

Definition should_compact (self : TruncateManager) (st : ConversationState) (model_context_limit : Z)
    : result (bool * TruncateManager) :=
  if (model_context_limit <=? 0)%Z
  then Err (value_error (u "model_context_limit must be positive"))
  else
  let self := set_context_limit self model_context_limit in
  match budget self with
  | Some b => Ok (over_budget self b model_context_limit st, self)
  | None =>
    Ok (Z_ge_float (estimate_state_tokens self st)
          (fl_mul (fl_of_Z model_context_limit) (safety_threshold self)), self)
  end.

(** ** Where the protected tail begins *)

(** The [while] loop of [_expand_to_group_boundary]. *)
Fixpoint expand_loop (msgs : list message) (start : nat) (needed provided : gset pystr) : nat :=
  match start with
  | O => O
  | S i =>
    if decide (needed ⊆ provided) then start
    else
    let m := default [] (msgs !! i) in
    expand_loop msgs i (needed ∪ _message_tool_result_ids m) (provided ∪ _message_tool_use_ids m)
  end.

Definition needed_ids (msgs : list message) : gset pystr := ⋃ (map _message_tool_result_ids msgs).
Definition provided_ids (msgs : list message) : gset pystr := ⋃ (map _message_tool_use_ids msgs).

Definition _expand_to_group_boundary (msgs : list message) (start : nat) : nat :=
  expand_loop msgs start (needed_ids (drop start msgs)) (provided_ids (drop start msgs)).

(** The loop that selects recent results by token cost; [idxs] is reversed. *)
Fixpoint select_tail (self : TruncateManager) (msgs : list message) (allowed : pyfloat)
    (count total : Z) (last : option nat) (idxs : list nat) : option nat :=
  match idxs with
  | [] => last
  | index :: idxs' =>
    if (keep_last_tool_results self <=? count)%Z then last
    else
    let cost := _count_tokens self (_stringify_content (content_of (default [] (msgs !! index)))) in
    if Z_gt_float (total + cost) allowed then last
    else select_tail self msgs allowed (count + 1) (total + cost) (Some index) idxs'
  end.

Definition tool_result_indices (msgs : list message) : list nat :=
  filter (fun i => _message_has_tool_result (default [] (msgs !! i)) = true) (seq 0 (length msgs)).

Definition _tail_start (self : TruncateManager) (msgs : list message) : nat :=
  let n := length msgs in
  if (keep_last_tool_results self =? 0)%Z then n
  else
  let idxs := tool_result_indices msgs in
  let anchor :=
    match tail_token_budget self, _budget_context_limit self with
    | Some frac, Some limit =>
      default (n - 1) (select_tail self msgs (fl_mul (fl_of_Z limit) frac) 0 0 None (rev idxs))
    | _, _ =>
      if (keep_last_tool_results self <=? zlen idxs)%Z
      then default 0 (idxs !! (length idxs - Z.to_nat (keep_last_tool_results self)))
      else match idxs with i :: _ => i | [] => n - 1 end
    end in
  _expand_to_group_boundary msgs (Nat.min (anchor - 1) (n - 1)).

(** ** Cutting oversized tool results *)

Definition compaction_note (fields : jdict) : json := JObj ((u "kind", JStr (u "truncated")) :: fields).

(** [_truncate_block] with [limit] for [self.max_tool_result_chars]. *)
Definition _truncate_block (self : TruncateManager) (limit : Z) (block : jdict) : jdict :=
  match is_tool_result_block (JObj block), dict_get (u "content") block with
  | true, Some (JStr text) =>
    if (zlen text <=? limit)%Z then block
    else
    let compressed := match tool_output_compressor self with
      | Some c => compress c text limit
      | None => _head_tail text limit
      end in
    dict_set (u "_compaction")
      (compaction_note [(u "omitted_chars", JInt (zlen text - zlen compressed))])
      (dict_set (u "content") (JStr compressed) block)
  | _, _ => block
  end.

Definition oversized (limit : Z) (b : json) : bool :=
  match b with
  | JObj d => is_tool_result_block b &&
              match dict_get (u "content") d with Some (JStr t) => (limit <? zlen t)%Z | _ => false end
  | _ => false
  end.

Definition truncate_json (self : TruncateManager) (limit : Z) (b : json) : json :=
  match b with JObj d => JObj (_truncate_block self limit d) | _ => b end.

Definition _truncate_oversized_tool_results (self : TruncateManager) (msgs : list message)
    : list message :=
  match max_tool_result_chars self with
  | None => msgs
  | Some limit =>
    map (fun msg =>
      match content_of msg with
      | Some (JList content) =>
        if existsb (oversized limit) content
        then dict_set (u "content") (JList (map (truncate_json self limit) content)) msg
        else msg
      | _ => msg
      end) msgs
  end.

(** ** Reducing tool output to its budget *)

(** The text of block [bi] of message [mi], when it is a textual tool result. *)
Definition result_text (b : json) : option pystr :=
  match b with
  | JObj d => if is_tool_result_block b then as_str (dict_get (u "content") d) else None
  | _ => None
  end.

Definition message_blocks (mi : nat) (msg : message) : list (nat * nat * pystr) :=
  match content_of msg with
  | Some (JList content) =>
      omap (fun bi => match content !! bi with
                      | Some b => (fun t => (mi, bi, t)) <$> result_text b
                      | None => None
                      end) (seq 0 (length content))
  | _ => []
  end.

Definition all_blocks (msgs : list message) : list (nat * nat * pystr) :=
  concat (map (fun mi => message_blocks mi (default [] (msgs !! mi))) (seq 0 (length msgs))).

(** Replace block [bi] of message [mi] by its truncation to [target]. *)
Definition cut_block (self : TruncateManager) (target : Z) (mi bi : nat) (out : list message)
    : list message :=
  match out !! mi with
  | None => out
  | Some msg =>
    match content_of msg with
    | Some (JList content) =>
      match content !! bi with
      | Some b => <[mi := dict_set (u "content") (JList (<[bi := truncate_json self target b]> content)) msg]> out
      | None => out
      end
    | _ => out
    end
  end.

Definition cut_length (self : TruncateManager) (target : Z) (text : pystr) : Z :=
  if (zlen text <=? target)%Z then zlen text
  else zlen (match tool_output_compressor self with
             | Some c => compress c text target
             | None => _head_tail text target
             end).

Fixpoint reduce_blocks (self : TruncateManager) (allowed remaining : Z)
    (bs : list (nat * nat * pystr)) (out : list message) : list message :=
  match bs with
  | [] => out
  | (mi, bi, text) :: bs' =>
    if (remaining <=? allowed)%Z then out
    else
    let target := Z.max 100 (zlen text - (remaining - allowed)) in
    if (zlen text <=? target)%Z then reduce_blocks self allowed remaining bs' out
    else reduce_blocks self allowed (remaining - (zlen text - cut_length self target text)) bs'
           (cut_block self target mi bi out)
  end.

Definition _compact_tool_output_to_budget (self : TruncateManager) (limit : Z) (b : ContextBudget)
    (msgs : list message) : list message :=
  let allowed_chars :=
    Z.max 100 (trunc_float (fl_mul (fl_mul (fl_of_Z limit) (b_tool_output b))
                                   (fl_of_Z (chars_per_token self)))) in
  let bs := all_blocks msgs in
  let total := foldr (fun b acc => zlen b.2 + acc)%Z 0%Z bs in
  if (total <=? allowed_chars)%Z then msgs
  else reduce_blocks self allowed_chars total bs msgs.

(** ** compact *)

Definition PLACEHOLDER (n : Z) : pystr := u "[" ++ dec n ++ u " tin nhắn trước đó đã được rút gọn]".

Definition elided_note (kind : pystr) (removed : Z) (content : pystr) : message :=
  [(u "role", JStr (u "user")); (u "content", JStr content);
   (u "_compaction", JObj [(u "kind", JStr kind); (u "source_message_count", JInt removed)])].

Definition _elided_message (elided : list message) (removed : Z) : message :=
  elided_note (u "truncated") removed (PLACEHOLDER removed).

(** [_copy]: a new state over the given messages. *)
Definition _copy (st : ConversationState) (msgs : list message) : ConversationState :=
  set_messages st msgs.

Definition messages_differ (a b : list message) : bool :=
  negb (py_eq (JList (map JObj a)) (JList (map JObj b))).

Section Compact.
Context {W : Type} (elide : list message -> Z -> W -> message * W).

(** The part of [compact] after the tool-output budget. *)
Definition compact_middle (self : TruncateManager) (st : ConversationState) (w : W)
    : ConversationState * W :=
  let msgs := messages st in
  if (zlen msgs <=? 2)%Z then (_copy st (_truncate_oversized_tool_results self msgs), w)
  else
  let tail_start := _tail_start self msgs in
  let head_end := if (0 <? tail_start)%nat && negb (_message_has_tool_content (default [] (msgs !! 0)))
                  then 1 else 0 in
  if (tail_start <=? head_end)%nat
  then (_copy st (_truncate_oversized_tool_results self msgs), w)
  else
  let '(note, w') := elide (drop head_end (take tail_start msgs)) (Z.of_nat (tail_start - head_end)) w in
  (_copy st (_truncate_oversized_tool_results self (take head_end msgs ++ [note] ++ drop tail_start msgs)), w').

Definition compact_with (self : TruncateManager) (st : ConversationState) (w : W)
    : ConversationState * W :=
  match budget self, _budget_context_limit self with
  | Some b, Some limit =>
    let reduced := _compact_tool_output_to_budget self limit b (messages st) in
    if messages_differ reduced (messages st) then (_copy st reduced, w)
    else compact_middle self st w
  | _, _ => compact_middle self st w
  end.
End Compact.

(** [SimpleTruncateContextManager.compact] and [NoopContextManager]. *)
Definition compact (self : TruncateManager) (st : ConversationState) : ConversationState :=
  (compact_with (fun elided removed (w : unit) => (_elided_message elided removed, w)) self st tt).1.

Definition noop_should_compact (st : ConversationState) (model_context_limit : Z) : bool := false.
Definition noop_compact (st : ConversationState) : ConversationState := st.
End Manager.

(** ** Lemmas: what compaction does to the ids of a history *)

Definition same_ids (a b : message) : Prop := use_ids a = use_ids b /\ result_ids a = result_ids b.

#[export] Instance same_ids_equiv : Equivalence same_ids.
Proof. split; unfold same_ids; [done | intros ?? []; done | intros ??? [-> ->] [-> ->]; done]. Qed.

Lemma scan_step_same_ids w a b : same_ids a b -> scan_step w a = scan_step w b.
Proof. intros [Hu Hr]. unfold scan_step. by rewrite Hu, Hr. Qed.

Lemma replay_scan_same_ids w a b : Forall2 same_ids a b -> replay_scan w a = replay_scan w b.
Proof.
  intros Hab; revert w; induction Hab as [|x y a b Hxy _ IH]; intros w; simpl; [done|].
  rewrite (scan_step_same_ids w x y Hxy). destruct (scan_step w y); auto.
Qed.

Lemma same_ids_refl_list (l : list message) : Forall2 same_ids l l.
Proof. apply Forall_Forall2_diag, Forall_true. by intros. Qed.

(** All call ids of a history, in order. *)
Definition all_use_ids (msgs : list message) : list pystr := concat (map use_ids msgs).

Lemma all_use_ids_same a b : Forall2 same_ids a b -> all_use_ids a = all_use_ids b.
Proof. unfold all_use_ids. induction 1 as [|x y a b [Hu _] _ IH]; simpl; congruence. Qed.

(** Two concrete dictionary keys differ. *)
Ltac other_key := apply (bool_decide_unpack _); vm_compute; exact I.

Lemma truncate_block_id self limit ty key d :
  key <> u "content" -> key <> u "_compaction" ->
  block_id ty key (JObj (_truncate_block self limit d)) = block_id ty key (JObj d).
Proof.
  intros Hk1 Hk2. unfold _truncate_block.
  destruct (is_tool_result_block _); [|done].
  destruct (dict_get (u "content") d) as [[| | | |text| |]|]; try done. case_match; [done|].
  unfold block_id. by rewrite !dict_get_set_ne by (done || other_key).
Qed.

Lemma truncate_json_id self limit ty key b :
  key <> u "content" -> key <> u "_compaction" ->
  block_id ty key (truncate_json self limit b) = block_id ty key b.
Proof. intros ??. destruct b; try done. by apply truncate_block_id. Qed.

Lemma blocks_set_content l msg : blocks (dict_set (u "content") (JList l) msg) = l.
Proof. unfold blocks. by rewrite dict_get_set_eq. Qed.

Lemma omap_map_ext {A B C} (f : A -> option B) (g : C -> A) (h : C -> option B) l :
  (forall x, f (g x) = h x) -> omap f (map g l) = omap h l.
Proof. intros Hfg. induction l as [|x l IH]; csimpl; [done|]. by rewrite Hfg, IH. Qed.

Lemma truncate_messages_ids self msgs :
  Forall2 same_ids (_truncate_oversized_tool_results self msgs) msgs.
Proof.
  unfold _truncate_oversized_tool_results. destruct (max_tool_result_chars self) as [limit|];
    [|apply same_ids_refl_list].
  apply Forall2_fmap_l, Forall_Forall2_diag, Forall_true. intros msg. unfold compose.
  unfold content_of. destruct (dict_get (u "content") msg) as [[| | | | |content|]|] eqn:E; try done.
  case_match; [|done].
  assert (blocks msg = content) as Hb by (unfold blocks; by rewrite E).
  unfold same_ids, use_ids, result_ids. rewrite blocks_set_content, Hb.
  split; apply omap_map_ext; intros; apply truncate_json_id; other_key.
Qed.

Lemma omap_insert_same {A B} (f : A -> option B) (l : list A) i x y :
  l !! i = Some x -> f y = f x -> omap f (<[i := y]> l) = omap f l.
Proof.
  revert i; induction l as [|a l IH]; intros [|i] Hi Hf; simplify_eq/=; csimpl; [by rewrite Hf|].
  by rewrite (IH i).
Qed.

Lemma Forall2_insert_refl {A} (R : A -> A -> Prop) (l : list A) i x y :
  (forall a, R a a) -> l !! i = Some x -> R y x -> Forall2 R (<[i := y]> l) l.
Proof.
  intros Hr Hi Hy. rewrite <- (list_insert_id l i x Hi) at 2.
  apply Forall2_insert; [|done]. by apply Forall_Forall2_diag, Forall_true.
Qed.

Lemma cut_block_ids self target mi bi out : Forall2 same_ids (cut_block self target mi bi out) out.
Proof.
  unfold cut_block, content_of. destruct (out !! mi) as [msg|] eqn:Em; [|apply same_ids_refl_list].
  destruct (dict_get (u "content") msg) as [[| | | | |content|]|] eqn:E; try apply same_ids_refl_list.
  destruct (content !! bi) as [b|] eqn:Eb; [|apply same_ids_refl_list].
  eapply Forall2_insert_refl; [done | exact Em |].
  assert (blocks msg = content) as Hb by (unfold blocks; by rewrite E).
  unfold same_ids, use_ids, result_ids. rewrite blocks_set_content, Hb.
  split; (eapply omap_insert_same; [exact Eb | apply truncate_json_id; other_key]).
Qed.

Lemma reduce_blocks_ids self allowed remaining bs out :
  Forall2 same_ids (reduce_blocks self allowed remaining bs out) out.
Proof.
  revert remaining out; induction bs as [|[[mi bi] text] bs IH]; intros remaining out; simpl;
    [apply same_ids_refl_list|].
  case_match; [apply same_ids_refl_list|]. case_match; [apply IH|].
  etrans; [apply IH | apply cut_block_ids].
Qed.

Lemma compact_tool_output_ids self limit b msgs :
  Forall2 same_ids (_compact_tool_output_to_budget self limit b msgs) msgs.
Proof.
  unfold _compact_tool_output_to_budget. case_match; [apply same_ids_refl_list | apply reduce_blocks_ids].
Qed.

(** ** Lemmas: the group boundary *)

(** No [tool_result] of the span lacks its [tool_use] in the span. *)
Definition resolved (msgs : list message) : Prop := needed_ids msgs ⊆ provided_ids msgs.

Lemma needed_ids_cons m msgs : needed_ids (m :: msgs) = _message_tool_result_ids m ∪ needed_ids msgs.
Proof. done. Qed.

Lemma provided_ids_cons m msgs : provided_ids (m :: msgs) = _message_tool_use_ids m ∪ provided_ids msgs.
Proof. done. Qed.

Lemma drop_lookup_cons {A} (l : list A) i x : l !! i = Some x -> drop i l = x :: drop (S i) l.
Proof. apply drop_S. Qed.

Lemma expand_loop_spec msgs start :
  (start <= length msgs)%nat ->
  let r := expand_loop msgs start (needed_ids (drop start msgs)) (provided_ids (drop start msgs)) in
  (r <= start)%nat /\ (r = 0%nat \/ resolved (drop r msgs)) /\
  forall j, (r < j <= start)%nat -> ~ resolved (drop j msgs).
Proof.
  induction start as [|i IH]; intros Hs; simpl.
  - repeat split; [done | by left | lia].
  - case_decide as Hd.
    + repeat split; [done | by right | lia].
    + destruct (lookup_lt_is_Some_2 msgs i) as [m Hm]; [lia|]. rewrite Hm. simpl.
      assert (needed_ids (drop (S i) msgs) ∪ _message_tool_result_ids m = needed_ids (drop i msgs)) as ->
        by (rewrite (drop_lookup_cons _ _ _ Hm), needed_ids_cons; apply (comm_L (∪))).
      assert (provided_ids (drop (S i) msgs) ∪ _message_tool_use_ids m = provided_ids (drop i msgs)) as ->
        by (rewrite (drop_lookup_cons _ _ _ Hm), provided_ids_cons; apply (comm_L (∪))).
      destruct (IH ltac:(lia)) as (H1 & H2 & H3). repeat split; [lia | done |].
      intros j Hj. destruct (decide (j = S i)) as [->|]; [exact Hd | apply H3; lia].
Qed.

Lemma select_tail_mono self `{PyRuntime} msgs allowed count total last idxs r :
  select_tail self msgs allowed count total last idxs = Some r -> last = Some r \/ r ∈ idxs.
Proof.
  revert count total last; induction idxs as [|i idxs IH]; intros count total last; simpl; [by left|].
  case_match; [by left|]. case_match; [by left|].
  intros [[= <-]|?]%IH; right; set_solver.
Qed.

Lemma tail_start_cases self `{PyRuntime} msgs :
  _tail_start self msgs = length msgs \/
  exists s, (s < length msgs \/ s = 0)%nat /\ _tail_start self msgs = _expand_to_group_boundary msgs s.
Proof.
  unfold _tail_start. case_match; [by left|]. right. eexists. split; [|reflexivity]. lia.
Qed.

Lemma tail_start_spec self `{PyRuntime} msgs :
  (_tail_start self msgs <= length msgs)%nat /\
  (_tail_start self msgs = 0%nat \/ resolved (drop (_tail_start self msgs) msgs)).
Proof.
  destruct (tail_start_cases self msgs) as [->|(s & Hs & ->)].
  - split; [done|]. right. rewrite drop_all. done.
  - destruct (expand_loop_spec msgs s ltac:(lia)) as (H1 & H2 & _). split; [|exact H2].
    unfold _expand_to_group_boundary. lia.
Qed.

(** ** Lemmas: the tail of a replayable history *)

Lemma elem_of_truthy i ids : i ∈ truthy_ids ids <-> i ∈ ids /\ i <> [].
Proof. unfold truthy_ids. rewrite elem_of_list_to_set, list_elem_of_filter. tauto. Qed.

Lemma elem_of_needed i msgs : i ∈ needed_ids msgs <-> exists m, m ∈ msgs /\ i ∈ result_ids m /\ i <> [].
Proof.
  unfold needed_ids. rewrite elem_of_union_list. setoid_rewrite list_elem_of_fmap. split.
  - intros (X & (m & -> & Hm) & Hi). exists m. split; [done|]. by apply elem_of_truthy.
  - intros (m & Hm & Hi). exists (_message_tool_result_ids m). split; [eauto|]. by apply elem_of_truthy.
Qed.

Lemma elem_of_provided i msgs : i ∈ provided_ids msgs -> i ∈ all_use_ids msgs.
Proof.
  unfold provided_ids, all_use_ids. rewrite elem_of_union_list. setoid_rewrite list_elem_of_fmap.
  intros (X & (m & -> & Hm) & [Hi _]%elem_of_truthy).
  apply list_elem_of_In, in_concat. exists (use_ids m). rewrite <- !list_elem_of_In.
  split; [by apply list_elem_of_fmap_2 | done].
Qed.

Lemma scan_step_waiting_ids w m w' : scan_step w m = Some w' -> w' ⊆ w ++ use_ids m.
Proof.
  unfold scan_step. destruct w as [|x w], (use_ids m) as [|y us], (result_ids m) as [|r [|r' rs]];
    try case_decide; intros; simplify_eq; set_solver.
Qed.

Lemma replay_scan_waiting_ids w ms w' : replay_scan w ms = Some w' -> w' ⊆ w ++ all_use_ids ms.
Proof.
  revert w; induction ms as [|m ms IH]; intros w; simpl; [intros [= ->]; set_solver|].
  destruct (scan_step w m) as [w1|] eqn:E; [|done]. intros Hs%IH.
  apply scan_step_waiting_ids in E. unfold all_use_ids in *. simpl. set_solver.
Qed.

(** A history is well formed for replay: replayable, with fresh non-empty ids. *)
Definition replay_ok (msgs : list message) : Prop :=
  replay_scan [] msgs = Some [] /\ NoDup (all_use_ids msgs) /\ [] ∉ all_use_ids msgs.

Lemma all_use_ids_app a b : all_use_ids (a ++ b) = all_use_ids a ++ all_use_ids b.
Proof. unfold all_use_ids. by rewrite map_app, concat_app. Qed.

Lemma resolved_tail_replays a b :
  replay_ok (a ++ b) -> resolved b -> replay_scan [] b = Some [].
Proof.
  intros (Hs & HN & Hne) Hr. rewrite replay_scan_app in Hs.
  destruct (replay_scan [] a) as [w|] eqn:Ea; [|done].
  destruct w as [|i w]; [done|]. exfalso.
  rewrite all_use_ids_app in *.
  assert (i ∈ all_use_ids a) as Hia by (apply replay_scan_waiting_ids in Ea; set_solver).
  destruct b as [|m b]; [done|]. simpl in Hs.
  assert (result_ids m = [i]) as Hri.
  { unfold scan_step in Hs. destruct (use_ids m), (result_ids m) as [|r [|]]; try done.
    case_decide; [by subst | done]. }
  assert (i <> []) by (intros ->; set_solver).
  assert (i ∈ provided_ids (m :: b)) as Hp.
  { apply Hr, elem_of_needed. exists m. rewrite Hri. set_solver. }
  apply elem_of_provided in Hp. apply NoDup_app in HN as (_ & HN & _). by apply (HN i).
Qed.

Lemma replay_scan_plain_head m ms :
  replay_ok (m :: ms) -> _message_has_tool_content m = false -> scan_step [] m = Some [].
Proof.
  intros (Hs & _ & Hne) Hc. unfold _message_has_tool_content in Hc. bool_hyps.
  assert (use_ids m = []) as Hu.
  { destruct (use_ids m) as [|i us] eqn:E; [done|]. exfalso.
    assert (i ∈ _message_tool_use_ids m) as Hi; [|set_solver].
    apply elem_of_truthy. rewrite E. split; [set_solver|]. intros ->.
    apply Hne. unfold all_use_ids. simpl. rewrite E. set_solver. }
  simpl in Hs. unfold scan_step in *. rewrite Hu in *. by destruct (result_ids m).
Qed.
