(* ===== verification/Compaction.v ===== *)
(** * Compaction: the summarizing manager, the interface and the guarantees
      (kinetic_sdk/context/manager.py, fourth part)

    [SummarizingContextManager] replaces the elided span by a model summary and
    falls back to the static placeholder. [ContextManager] is the interface the
    agent loop uses; [ReplaySafe] is what it relies on: compaction keeps a
    replayable history replayable. All three managers are proved to satisfy it. *)

From stdpp Require Import base gmap strings list.
From Stdlib Require Import ZArith Lia SpecFloat.
From S2P Require Import Prelude Json TextCompact Summary Conversation EventBus Redact Context.

(** ** SummarizingContextManager *)

Inductive summarizer (W : Type) :=
| PlainSummarizer (f : list json -> W -> result json * W)
| Progressive (max_input_chars : Z) (chat : pystr -> W -> result (option json) * W).
Arguments PlainSummarizer {W}.
Arguments Progressive {W}.

Record SummarizingManager (W : Type) := {
  sm_base : TruncateManager;
  sm_summarizer : option (summarizer W);
  sm_has_bus : bool;
  max_summary_chars : Z;
  max_structured_chars : Z;
  max_items_per_field : Z;
}.
Arguments sm_base {W}.
Arguments sm_summarizer {W}.
Arguments sm_has_bus {W}.
Arguments max_summary_chars {W}.
Arguments max_structured_chars {W}.
Arguments max_items_per_field {W}.

Section Summarizing.
Context `{PyRuntime} `{SecretPatterns} {W : Type} `{EventSink W}.
Implicit Types self : SummarizingManager W.

Definition _emit_failure self (why : pystr) (elided : list message) (exc : option pyexn) (w : W) : W :=
  if sm_has_bus self then
    publish_to {|
      e_type := u "context.summarization_failed";
      e_payload := [(u "manager", JStr (u "SummarizingContextManager")); (u "reason", JStr why);
                    (u "elided_messages", JInt (zlen elided))]
        ++ match exc with
           | Some e => [(u "error", JStr (redact_secrets (exn_type e ++ u ": " ++ exn_msg e)))]
           | None => []
           end;
      e_source := Some (u "context") |} w
  else w.

(** [_summarize]: the summary text (empty on failure) and the structured result
    a progressive summarizer leaves on the manager. *)
Definition _summarize self (previous : option StructuredSummary) (elided : list message) (w : W)
    : pystr * option StructuredSummary * W :=
  match sm_summarizer self with
  | None => ([], None, w)
  | Some (Progressive max_input chat) =>
    let redacted := map (fun m => match redact_value (JObj m) with JObj d => d | _ => m end) elided in
    match summarize chat max_input redacted previous w with
    | (Err e, w') => ([], None, _emit_failure self (u "exception") elided (Some e) w')
    | (Ok structured, w') =>
      let r := limited structured (max_structured_chars self) (max_items_per_field self) in
      match to_prompt r with
      | [] => ([], Some r, _emit_failure self (u "empty_summary") elided None w')
      | summary => (summary, Some r, w')
      end
    end
  | Some (PlainSummarizer f) =>
    match f (map (fun m => redact_value (JObj m)) elided) w with
    | (Err e, w') => ([], None, _emit_failure self (u "exception") elided (Some e) w')
    | (Ok (JStr text), w') =>
      match join (u " ") (split_ws text) with
      | [] => ([], None, _emit_failure self (u "empty_summary") elided None w')
      | summary =>
        ((if (max_summary_chars self <? zlen summary)%Z
          then rstrip (slice_to (max_summary_chars self) summary) ++ u "…" else summary), None, w')
      end
    | (Ok _, w') => ([], None, _emit_failure self (u "non_string_summary") elided None w')
    end
  end.

Definition SUMMARY (n : Z) (summary : pystr) : pystr :=
  u "[" ++ dec n ++ u " tin nhắn trước đó đã được tóm tắt: " ++ summary ++ u "]".

(** [_elided_message] of the subclass, threading [_progressive_result]. *)
Definition summarizing_elide self (previous : option StructuredSummary) (elided : list message)
    (removed : Z) (pw : option StructuredSummary * W) : message * (option StructuredSummary * W) :=
  let '(summary, structured, w') := _summarize self previous elided pw.2 in
  (match summary with
   | [] => _elided_message elided removed
   | _ => elided_note (u "summary") removed (SUMMARY removed summary)
   end, (structured, w')).

Definition summarizing_compact self (st : ConversationState) (w : W) : ConversationState * W :=
  let previous := from_value (dict_get (u "structured_summary") (metadata st)) in
  let '(compacted, (structured, w')) :=
    compact_with (summarizing_elide self previous) (sm_base self) st (None, w) in
  (match structured with
   | Some s => set_metadata compacted (dict_set (u "structured_summary") (MSummary s) (metadata compacted))
   | None => compacted
   end, w').
End Summarizing.

(** ** The interface the agent loop uses *)

Record ContextManager (M W : Type) := {
  cm_type_name : pystr;
  cm_should_compact : M -> ConversationState -> Z -> result (bool * M);
  cm_compact : M -> ConversationState -> W -> ConversationState * W;
  cm_estimate_state_tokens : M -> ConversationState -> Z;
}.
Arguments cm_type_name {M W}.
Arguments cm_should_compact {M W}.
Arguments cm_compact {M W}.
Arguments cm_estimate_state_tokens {M W}.

(** What the loop relies on. *)
Class ReplaySafe {M W : Type} (cm : ContextManager M W) := {
  compact_replay_ok m st w :
    replay_ok (messages st) -> replay_ok (messages (cm_compact cm m st w).1);
  compact_max_messages m st w :
    max_messages (cm_compact cm m st w).1 = max_messages st;
  compact_system_prompt m st w :
    system_prompt (cm_compact cm m st w).1 = system_prompt st;
}.

Definition noop_manager `{PyRuntime} (W : Type) : ContextManager unit W := {|
  cm_type_name := u "NoopContextManager";
  cm_should_compact := fun m st limit => Ok (noop_should_compact st limit, m);
  cm_compact := fun m st w => (noop_compact st, w);
  cm_estimate_state_tokens := fun m st =>
    foldl (fun total msg => total + estimate_tokens (_stringify_content (content_of msg)) 4)%Z
      (match system_prompt st with Some ((_ :: _) as p) => estimate_tokens p 4 | _ => 0%Z end)
      (messages st) |}.

Definition truncate_manager `{PyRuntime} (W : Type) : ContextManager TruncateManager W := {|
  cm_type_name := u "SimpleTruncateContextManager";
  cm_should_compact := should_compact;
  cm_compact := fun m st w => (compact m st, w);
  cm_estimate_state_tokens := estimate_state_tokens |}.

Definition set_base {W} (m : SummarizingManager W) (b : TruncateManager) : SummarizingManager W := {|
  sm_base := b; sm_summarizer := sm_summarizer m; sm_has_bus := sm_has_bus m;
  max_summary_chars := max_summary_chars m; max_structured_chars := max_structured_chars m;
  max_items_per_field := max_items_per_field m |}.

Definition summarizing_manager `{PyRuntime} `{SecretPatterns} (W : Type) `{EventSink W}
    : ContextManager (SummarizingManager W) W := {|
  cm_type_name := u "SummarizingContextManager";
  cm_should_compact := fun m st limit =>
    rmap (fun br => (br.1, set_base m br.2)) (should_compact (sm_base m) st limit);
  cm_compact := summarizing_compact;
  cm_estimate_state_tokens := fun m st => estimate_state_tokens (sm_base m) st |}.

(** ** Lemmas *)

(** A replacement message that carries no tool block. *)
Definition plain_message (m : message) : Prop := use_ids m = [] /\ result_ids m = [].

Lemma elided_note_plain kind removed content : plain_message (elided_note kind removed content).
Proof. done. Qed.

Lemma replay_ok_same_ids a b : Forall2 same_ids a b -> replay_ok b -> replay_ok a.
Proof.
  intros Hab (Hs & HN & Hne). unfold replay_ok.
  rewrite (replay_scan_same_ids [] a b Hab), (all_use_ids_same a b Hab). done.
Qed.

Lemma plain_head_replays m ms :
  replay_ok (m :: ms) -> _message_has_tool_content m = false -> replay_scan [] [m] = Some [].
Proof. intros Hok Hc. unfold replay_scan. by rewrite (replay_scan_plain_head m ms). Qed.

(** Replacing the span between head and tail by a plain message. *)
Lemma splice_replay_ok head mid tail note :
  replay_ok (head ++ mid ++ tail) -> plain_message note ->
  replay_scan [] head = Some [] -> resolved tail ->
  replay_ok (head ++ [note] ++ tail).
Proof.
  intros Hok [Hu Hr] Hh Ht.
  assert (replay_scan [] tail = Some []) as Htail
    by (apply (resolved_tail_replays (head ++ mid)); [by rewrite <- app_assoc | done]).
  destruct Hok as (_ & HN & Hne).
  assert (sublist (all_use_ids (head ++ [note] ++ tail)) (all_use_ids (head ++ mid ++ tail))) as Hsub.
  { rewrite !all_use_ids_app. apply sublist_app; [done|]. unfold all_use_ids at 1. simpl. rewrite Hu. simpl.
    by apply sublist_inserts_l. }
  split; [|split].
  - rewrite replay_scan_app, Hh. simpl. unfold scan_step. by rewrite Hu, Hr.
  - by eapply sublist_NoDup.
  - intros Hin. apply Hne. by eapply elem_of_sublist.
Qed.

Section CompactLemmas.
Context `{PyRuntime} {W : Type} (elide : list message -> Z -> W -> message * W).
Hypothesis elide_plain : forall elided removed w, plain_message (elide elided removed w).1.

Lemma copy_truncated_ok self st msgs :
  replay_ok msgs -> replay_ok (messages (_copy st (_truncate_oversized_tool_results self msgs))).
Proof. intros Hok. eapply replay_ok_same_ids; [apply truncate_messages_ids | done]. Qed.

Lemma compact_middle_ok self st w :
  replay_ok (messages st) -> replay_ok (messages (compact_middle elide self st w).1).
Proof using elide_plain.
  intros Hok. unfold compact_middle. set (msgs := messages st) in *.
  destruct (zlen msgs <=? 2)%Z; [by apply copy_truncated_ok|].
  set (ts := _tail_start self msgs).
  set (he := if (0 <? ts)%nat && negb (_message_has_tool_content (default [] (msgs !! 0))) then 1%nat else 0%nat).
  destruct (Nat.leb_spec ts he) as [Hle|Hlt]; [by apply copy_truncated_ok|].
  destruct (tail_start_spec self msgs) as [Hts Hres]. fold ts in Hts, Hres.
  pose proof (elide_plain (drop he (take ts msgs)) (Z.of_nat (ts - he)) w) as Hp.
  destruct (elide _ _ w) as [note w']. simpl in Hp. apply copy_truncated_ok.
  apply (splice_replay_ok _ (drop he (take ts msgs))); [|done| |destruct Hres; [lia | done]].
  - assert (take he msgs ++ drop he (take ts msgs) = take ts msgs) as Heq.
    { rewrite <- (take_drop he (take ts msgs)) at 2. by rewrite take_take, Nat.min_l by lia. }
    by rewrite app_assoc, Heq, take_drop.
  - unfold he. destruct msgs as [|m0 msgs'] eqn:Em; [by destruct (if _ && _ then _ else _)|]. simpl.
    destruct (0 <? ts)%nat; simpl; [|done].
    destruct (_message_has_tool_content m0) eqn:Ec; simpl; [done|].
    exact (plain_head_replays m0 msgs' Hok Ec).
Qed.

Lemma compact_with_ok self st w :
  replay_ok (messages st) -> replay_ok (messages (compact_with elide self st w).1).
Proof using elide_plain.
  intros Hok. unfold compact_with. destruct (budget self) as [b|], (_budget_context_limit self) as [limit|];
    try by apply compact_middle_ok.
  case_match; [|by apply compact_middle_ok].
  eapply replay_ok_same_ids; [apply compact_tool_output_ids | done].
Qed.

Lemma compact_with_frame self st w :
  max_messages (compact_with elide self st w).1 = max_messages st /\
  system_prompt (compact_with elide self st w).1 = system_prompt st /\
  metadata (compact_with elide self st w).1 = metadata st.
Proof.
  unfold compact_with, compact_middle, _copy.
  destruct (budget self) as [b|], (_budget_context_limit self) as [limit|];
    repeat case_match; done.
Qed.
End CompactLemmas.

Lemma elided_message_plain elided removed : plain_message (_elided_message elided removed).
Proof. done. Qed.

#[export] Instance noop_replay_safe `{PyRuntime} W : ReplaySafe (noop_manager W).
Proof. by split. Qed.

#[export] Instance truncate_replay_safe `{PyRuntime} W : ReplaySafe (truncate_manager W).
Proof.
  split; intros m st w; simpl; unfold compact.
  - by apply compact_with_ok.
  - apply compact_with_frame.
  - apply compact_with_frame.
Qed.

Lemma summarizing_elide_plain `{PyRuntime} `{SecretPatterns} `{EventSink W} (self : SummarizingManager W)
    previous elided removed pw :
  plain_message (summarizing_elide self previous elided removed pw).1.
Proof.
  unfold summarizing_elide. destruct (_summarize _ _ _ _) as [[summary s] w']. simpl. by case_match.
Qed.

#[export] Instance summarizing_replay_safe `{PyRuntime} `{SecretPatterns} `{EventSink W} :
  ReplaySafe (summarizing_manager W).
Proof.
  split; intros m st w; simpl; unfold summarizing_compact.
  all: set (el := summarizing_elide m _).
  all: pose proof (compact_with_ok el (fun a b c => summarizing_elide_plain m _ a b c) (sm_base m) st (None, w)) as Hok.
  all: pose proof (compact_with_frame el (sm_base m) st (None, w)) as (Hm & Hsp & _).
  all: destruct (compact_with el (sm_base m) st (None, w)) as [c [s w']]; simpl in *; destruct s; auto.
Qed.

(** ** Theorems *)

(** truncating compaction of a history in which every tool call is answered,
    with fresh ids, gives such a history again: no kept [tool_result] loses its
    [tool_use] and no kept [tool_use] loses its result, for every configuration
    (number of protected results, token budgets, output trimming). *)
Theorem compact_keeps_history_replayable `{PyRuntime} (self : TruncateManager) (st : ConversationState) :
  replay_ok (messages st) -> replay_ok (messages (compact self st)).
Proof. intros Hok. unfold compact. by apply compact_with_ok. Qed.

(** the summarizing manager gives the same guarantee whatever the summarizer
    does (raise, return a non-string, an empty or an overlong summary), and keeps
    the system prompt and the message cap. *)
Theorem summarizing_compact_keeps_history_replayable `{PyRuntime} `{SecretPatterns} `{EventSink W}
    (self : SummarizingManager W) (st : ConversationState) (w : W) :
  replay_ok (messages st) ->
  let st' := (summarizing_compact self st w).1 in
  replay_ok (messages st') /\ max_messages st' = max_messages st /\ system_prompt st' = system_prompt st.
Proof.
  intros Hok. split; [|split].
  - by apply (compact_replay_ok (cm := summarizing_manager W)).
  - apply (compact_max_messages (cm := summarizing_manager W)).
  - apply (compact_system_prompt (cm := summarizing_manager W)).
Qed.

(** the group boundary is the latest position at or before the anchor from
    which no [tool_result] is orphaned, or the start of the history when there is
    none; the search terminates. *)
Theorem expand_boundary_latest (msgs : list message) (start : nat) :
  (start <= length msgs)%nat ->
  let r := _expand_to_group_boundary msgs start in
  (r <= start)%nat /\ (r = 0%nat \/ resolved (drop r msgs)) /\
  forall j, (r < j <= start)%nat -> ~ resolved (drop j msgs).
Proof. apply expand_loop_spec. Qed.

(** The messages a cut keeps: at most the first one, a note, and a suffix. *)
Definition middle_cut (msgs out : list message) (note : message) : Prop :=
  exists h t, (h <= 1 /\ h < t <= length msgs)%nat /\ out = take h msgs ++ [note] ++ drop t msgs /\
    (h = 0%nat -> _message_has_tool_content (default [] (msgs !! 0%nat)) = true).

(** compaction never lengthens a history. Up to trimmed tool output it either
    keeps every message, or it keeps the first message (dropped only when it
    carries a tool block), one placeholder naming how many messages were removed,
    and an unbroken suffix; system prompt, cap and metadata are unchanged. *)
Theorem compact_structure `{PyRuntime} (self : TruncateManager) (st : ConversationState) :
  let st' := compact self st in
  (zlen (messages st') <= zlen (messages st))%Z /\
  max_messages st' = max_messages st /\ system_prompt st' = system_prompt st /\
  metadata st' = metadata st /\
  exists kept, Forall2 same_ids (messages st') kept /\
    (kept = messages st \/
     exists removed, middle_cut (messages st) kept (_elided_message [] removed) /\
       (removed = zlen (messages st) - zlen kept + 1)%Z).
Proof.
  set (el := fun elided removed (w : unit) => (_elided_message elided removed, w)).
  pose proof (compact_with_frame el self st tt) as (Hm & Hsp & Hmd).
  assert (exists kept, Forall2 same_ids (messages (compact self st)) kept /\
    (kept = messages st \/
     exists removed, middle_cut (messages st) kept (_elided_message [] removed) /\
       (removed = zlen (messages st) - zlen kept + 1)%Z)) as Hk.
  { assert (forall w, exists kept, Forall2 same_ids (messages (compact_middle el self st w).1) kept /\
      (kept = messages st \/
       exists removed, middle_cut (messages st) kept (_elided_message [] removed) /\
         (removed = zlen (messages st) - zlen kept + 1)%Z)) as Hmid.
    { intros w. unfold compact_middle. set (msgs := messages st).
      destruct (zlen msgs <=? 2)%Z; [exists msgs; split; [apply truncate_messages_ids | by left]|].
      set (ts := _tail_start self msgs).
      set (he := if (0 <? ts)%nat && negb (_message_has_tool_content (default [] (msgs !! 0))) then 1%nat else 0%nat).
      destruct (Nat.leb_spec ts he) as [Hle|Hlt];
        [exists msgs; split; [apply truncate_messages_ids | by left]|].
      destruct (tail_start_spec self msgs) as [Hts _]. fold ts in Hts.
      eexists. split; [apply truncate_messages_ids|]. right. exists (Z.of_nat (ts - he)).
      assert (he <= 1)%nat by (unfold he; case_match; lia). split.
      - exists he, ts. split; [lia|]. split; [done|]. unfold he. intros Hz.
        destruct (Nat.ltb_spec 0 ts); [|lia]. simpl in Hz.
        by destruct (_message_has_tool_content _).
      - unfold zlen. rewrite !length_app, length_take, length_drop. simpl length. lia. }
    unfold compact, compact_with. fold el.
    destruct (budget self) as [b|], (_budget_context_limit self) as [limit|]; try apply Hmid.
    case_match; [|apply Hmid].
    exists (messages st). split; [apply compact_tool_output_ids | by left]. }
  repeat split; try done. destruct Hk as (kept & Hs & Hk).
  apply Forall2_length in Hs. unfold zlen. rewrite Hs. destruct Hk as [->|(r & Hc & Hr)]; [done|].
  destruct Hc as (h & t & ? & -> & _). rewrite !length_app, length_take, length_drop. simpl. lia.
Qed.

(** ** Concrete histories *)

#[local] Instance plain_runtime : PyRuntime := decoding_runtime [].
#[local] Instance no_patterns : SecretPatterns := {| rx_sub := fun _ s => s |}.
#[local] Instance no_sink : EventSink unit := {| publish_to := fun _ w => w |}.

Definition use_blocks (ids : list pystr) : message :=
  assistant_message (JList (map (fun i => JObj [(u "type", JStr (u "tool_use")); (u "id", JStr i);
    (u "name", JStr (u "echo")); (u "input", JObj [])]) ids)).

Definition history_of (ms : list message) : ConversationState :=
  {| system_prompt := None; max_messages := None; metadata := []; messages := ms |}.

(** Three tool rounds; the second asks for two calls. *)
Definition sample_history : ConversationState := history_of
  [user_message (u "task");
   use_blocks [u "a"]; tool_result_message (u "a") (JStr (u "1")) false;
   use_blocks [u "b"; u "c"]; tool_result_message (u "b") (JStr (u "2")) false;
   tool_result_message (u "c") (JStr (u "3")) true;
   use_blocks [u "d"]; tool_result_message (u "d") (JStr (u "4")) false].

Definition keep_last (k : Z) : TruncateManager := {|
  keep_last_tool_results := k; safety_threshold := fl_of_Z 1; chars_per_token := 4;
  token_counter := None; max_tool_result_chars := None; budget := None;
  tool_output_compressor := None; tail_token_budget := None; _budget_context_limit := None |}.

Lemma sample_history_ok : replay_ok (messages sample_history).
Proof.
  split; [vm_compute; reflexivity|].
  split; apply (bool_decide_unpack _); vm_compute; exact I.
Qed.

(** The second protected result is the second of a pair: the cut moves back to
    the message that asked for both. *)
Example sample_compacted :
  messages (compact (keep_last 2) sample_history) =
  [user_message (u "task"); _elided_message [] 2] ++ drop 3 (messages sample_history).
Proof. vm_compute. reflexivity. Qed.

Lemma compact_keeps_history_replayable_witness :
  replay_ok (messages (compact (keep_last 2) sample_history)).
Proof. exact (compact_keeps_history_replayable (keep_last 2) sample_history sample_history_ok). Defined.

Definition failing_summarizer : SummarizingManager unit := {|
  sm_base := keep_last 2;
  sm_summarizer := Some (PlainSummarizer (fun _ w => (Err (value_error (u "down")), w)));
  sm_has_bus := true; max_summary_chars := 500; max_structured_chars := 4000; max_items_per_field := 20 |}.

Lemma summarizing_compact_keeps_history_replayable_witness :
  let st' := (summarizing_compact failing_summarizer sample_history tt).1 in
  replay_ok (messages st') /\ max_messages st' = None /\ system_prompt st' = None.
Proof.
  exact (summarizing_compact_keeps_history_replayable failing_summarizer sample_history tt sample_history_ok).
Defined.

Lemma expand_boundary_latest_witness :
  let r := _expand_to_group_boundary (messages sample_history) 5 in
  (r <= 5)%nat /\ (r = 0%nat \/ resolved (drop r (messages sample_history))) /\
  forall j, (r < j <= 5)%nat -> ~ resolved (drop j (messages sample_history)).
Proof. apply (expand_boundary_latest (messages sample_history) 5). vm_compute. lia. Defined.

(** Two rounds whose calls carry the same ids, as a provider may number them. *)
Definition reused_ids_history : ConversationState := history_of
  [user_message (u "task");
   use_blocks [u "a"; u "b"]; tool_result_message (u "a") (JStr (u "1")) false;
   tool_result_message (u "b") (JStr (u "2")) false;
   use_blocks [u "a"; u "b"]; tool_result_message (u "a") (JStr (u "3")) false;
   tool_result_message (u "b") (JStr (u "4")) false].

(** the freshness of ids is needed: when two rounds use the same ids, the
    cut can fall between a result and its own call, because a later call with the
    same id is taken for it. *)
Theorem reused_ids_break_compaction :
  replayable reused_ids_history /\ ~ replayable (compact (keep_last 3) reused_ids_history).
Proof. split; [vm_compute; reflexivity | unfold replayable, awaiting; vm_compute; discriminate]. Qed.
