(* ===== verification/Policy.v ===== *)
(** * Permission policies (kinetic_sdk/security/policy.py)

    The three policies and the path matching they share, with
    [posixpath.normpath] written out. The reference meaning of a path is what it
    names when its segments are walked from a directory ([resolve]). *)

From stdpp Require Import base gmap strings list.
From Stdlib Require Import ZArith Lia.
From S2P Require Import Prelude Json Types.

Definition slash : N := 47%N.
Definition dot : pystr := u ".".
Definition dotdot : pystr := u "..".

(** ** [posixpath.normpath] and [posixpath.isabs] *)

(** The loop over the segments; [new_comps] is held in reverse. *)
Definition norm_step (rooted : bool) (new_comps : list pystr) (comp : pystr) : list pystr :=
  if bool_decide (comp = []) || bool_decide (comp = dot) then new_comps
  else if bool_decide (comp <> dotdot) || (negb rooted && bool_decide (new_comps = []))
          || bool_decide (head new_comps = Some dotdot)
       then comp :: new_comps
  else tail new_comps.

Definition isabs (path : pystr) : bool := starts_with [slash] path.

(** The normalized segments of a path. *)
Definition norm_comps (path : pystr) : list pystr :=
  rev (foldl (norm_step (isabs path)) [] (split_on slash path)).

Definition normpath (path : pystr) : pystr :=
  match path with
  | [] => dot
  | _ =>
    let initial_slashes :=
      if isabs path
      then (if starts_with [slash; slash] path && negb (starts_with [slash; slash; slash] path)
            then [slash; slash] else [slash])
      else [] in
    let body := join [slash] (norm_comps path) in
    match initial_slashes ++ body with [] => dot | p => p end
  end.

(** ** Rules *)

Definition canonical (path : pystr) : pystr :=
  let norm_path := normpath path in
  if starts_with [slash; slash] norm_path
  then [slash] ++ lstrip_with (N.eqb slash) norm_path else norm_path.

Definition _path_matches_prefix (path prefix : pystr) : bool :=
  let norm_path := canonical path in
  let norm_prefix := canonical prefix in
  if negb (Bool.eqb (isabs norm_path) (isabs norm_prefix)) then false
  else if bool_decide (norm_prefix = [slash]) then isabs norm_path
  else if bool_decide (norm_prefix = dot) then negb (starts_with dotdot norm_path)
  else bool_decide (norm_path = norm_prefix) || starts_with (norm_prefix ++ [slash]) norm_path.

Record PolicyRule := {
  r_tool_name : option pystr;
  path_prefix : option pystr;
  domain_pattern : option pystr;
  command_pattern : option pystr;
  r_decision : PermissionDecision;
}.

Section Policies.
Context `{PyRuntime}.

Definition _serialise_input (tool_input : jdict) : pystr := json_dumps dumps_utf8 (JObj tool_input).

Definition _matches_pattern (pattern text : pystr) : bool :=
  match re_search pattern text with
  | Some b => b
  | None => contains pattern text
  end.

Fixpoint _first_match (patterns : list pystr) (text : pystr) : option pystr :=
  match patterns with
  | [] => None
  | p :: ps => if _matches_pattern p text then Some p else _first_match ps text
  end.

Definition _input_domain (tool_input : jdict) : result (option pystr) :=
  match dict_get (u "domain") tool_input with
  | Some (JStr ((_ :: _) as domain)) => Ok (Some domain)
  | _ =>
    match dict_get (u "url") tool_input with
    | Some (JStr ((_ :: _) as url)) =>
        url_hostname (if contains (u "://") url then url else u "//" ++ url)
    | _ => Ok None
    end
  end.

(** The selectors of a rule, tested in the order of the loop body. *)
Definition tool_selected (rule : PolicyRule) (tool_name : pystr) : bool :=
  match r_tool_name rule with Some n => bool_decide (n = tool_name) | None => true end.

Definition path_selected (rule : PolicyRule) (tool_input : jdict) : bool :=
  match path_prefix rule with
  | None => true
  | Some prefix =>
    match dict_get (u "path") tool_input with
    | Some (JStr path) => _path_matches_prefix path prefix
    | _ => false
    end
  end.

Definition domain_selected (rule : PolicyRule) (tool_input : jdict) : result bool :=
  match domain_pattern rule with
  | None => Ok true
  | Some pattern =>
    domain <-! _input_domain tool_input ;;
    Ok (match domain with Some d => _matches_pattern pattern d | None => false end)
  end.

Definition command_selected (rule : PolicyRule) (tool_input : jdict) : bool :=
  match command_pattern rule with
  | None => true
  | Some pattern =>
    match dict_get (u "command") tool_input with
    | Some (JStr command) => _matches_pattern pattern command
    | _ => false
    end
  end.

Definition rule_applies (rule : PolicyRule) (tool_name : pystr) (tool_input : jdict) : result bool :=
  if negb (tool_selected rule tool_name) then Ok false
  else if negb (path_selected rule tool_input) then Ok false
  else
    d <-! domain_selected rule tool_input ;;
    Ok (d && command_selected rule tool_input).

(** [RuleBasedPolicy.check]. *)
Fixpoint rule_based_check (rules : list PolicyRule) (default_decision : PermissionDecision)
    (tool_name : pystr) (tool_input : jdict) : result PermissionDecision :=
  match rules with
  | [] => Ok default_decision
  | rule :: rules' =>
    applies <-! rule_applies rule tool_name tool_input ;;
    if applies : bool then Ok (r_decision rule)
    else rule_based_check rules' default_decision tool_name tool_input
  end.

Definition no_rule_matched : PermissionDecision :=
  {| allowed := false; reason := u "no policy rule matched"; requires_confirmation := false |}.

(** [AllowListPolicy.check]. *)
Definition allow_list_check (always_allow : list pystr) (require_confirmation_patterns : list (pystr * list pystr))
    (tool_name : pystr) (tool_input : jdict) : PermissionDecision :=
  if negb (elem_b tool_name always_allow)
  then {| allowed := false; reason := u "tool not in allow-list"; requires_confirmation := false |}
  else
    match _first_match (default [] (dict_get tool_name require_confirmation_patterns))
                       (_serialise_input tool_input) with
    | Some matched =>
        {| allowed := true; reason := u "input matched dangerous pattern " ++ py_repr (JStr matched);
           requires_confirmation := true |}
    | None => {| allowed := true; reason := u "tool in allow-list"; requires_confirmation := false |}
    end.

Definition permissive_check (tool_name : pystr) (tool_input : jdict) : PermissionDecision :=
  {| allowed := true; reason := u "permissive policy (dev/test only)"; requires_confirmation := false |}.
End Policies.

(** The interface [PermissionPolicy]: what the agent loop calls. *)
Class PermissionPolicy := { check : pystr -> jdict -> result PermissionDecision }.

Definition RuleBasedPolicy `{PyRuntime} (rules : list PolicyRule) (default_decision : option PermissionDecision)
    : PermissionPolicy :=
  {| check := rule_based_check rules (default no_rule_matched default_decision) |}.

Definition AllowListPolicy `{PyRuntime} (allow : list pystr) (confirm : list (pystr * list pystr)) : PermissionPolicy :=
  {| check := fun n i => Ok (allow_list_check allow confirm n i) |}.

Definition PermissivePolicy : PermissionPolicy := {| check := fun n i => Ok (permissive_check n i) |}.

(** ** The reference meaning of a path *)

(** Walking one segment from a directory, given as its segments from the innermost. *)
Definition walk_step (dir : list pystr) (comp : pystr) : list pystr :=
  if bool_decide (comp = []) || bool_decide (comp = dot) then dir
  else if bool_decide (comp = dotdot) then tail dir
  else comp :: dir.

(** What [path] names for a process in directory [cwd], as segments from the root. *)
Definition resolve (cwd : list pystr) (path : pystr) : list pystr :=
  rev (foldl walk_step (if isabs path then [] else rev cwd) (split_on slash path)).

(** ** Splitting and joining *)

Definition slash_free (s : pystr) : Prop := slash ∉ s.

Lemma split_on_ne c s : split_on c s <> [].
Proof. induction s as [|x s IH]; simpl; [done|]. destruct (split_on c s); [done|]. by destruct (x =? c)%N. Qed.

Lemma split_on_app c a b : split_on c (a ++ c :: b) = split_on c a ++ split_on c b.
Proof.
  induction a as [|x a IH]; simpl.
  - rewrite N.eqb_refl. by destruct (split_on c b) eqn:E; [destruct (split_on_ne c b)|].
  - rewrite IH. destruct (split_on c a) eqn:E; [by destruct (split_on_ne c a)|]. simpl. by destruct (x =? c)%N.
Qed.

Lemma split_on_free c s : c ∉ s -> split_on c s = [s].
Proof.
  induction s as [|x s IH]; simpl; [done|]. intros Hn.
  rewrite IH by set_solver. destruct (N.eqb_spec x c) as [->|]; [set_solver|done].
Qed.

Lemma split_on_elem c s w : w ∈ split_on c s -> c ∉ w.
Proof.
  revert w; induction s as [|x s IH]; intros w; simpl.
  - intros ->%list_elem_of_singleton. apply not_elem_of_nil.
  - destruct (split_on c s) as [|v vs] eqn:E; [by destruct (split_on_ne c s)|].
    destruct (N.eqb_spec x c) as [->|Hne]; intros [->|Hw]%elem_of_cons.
    + apply not_elem_of_nil.
    + by apply IH.
    + intros [->|Hin]%elem_of_cons; [done|]. by apply (IH v); [constructor|].
    + apply IH. by constructor.
Qed.

Lemma join_cons2 sep p q ps : join sep (p :: q :: ps) = p ++ sep ++ join sep (q :: ps).
Proof. done. Qed.

Lemma split_join cs : Forall slash_free cs -> cs <> [] -> split_on slash (join [slash] cs) = cs.
Proof.
  intros HF. induction HF as [|p ps Hp HF IH]; [done|]. intros _.
  destruct ps as [|q ps]; [by apply split_on_free|].
  rewrite join_cons2. simpl. rewrite split_on_app, (split_on_free slash p) by done.
  simpl. f_equal. by apply IH.
Qed.

Lemma join_app a b : a <> [] -> b <> [] -> join [slash] (a ++ b) = join [slash] a ++ slash :: join [slash] b.
Proof.
  induction a as [|p a IH]; [done|]. intros _ Hb. destruct a as [|q a].
  - simpl. by destruct b.
  - rewrite <- app_comm_cons. simpl app at 1. rewrite !join_cons2, <- app_assoc.
    change (q :: a ++ b) with ((q :: a) ++ b). rewrite IH by done. done.
Qed.

(** Segment lists are prefixes exactly when the joined strings are, up to a slash. *)
Lemma join_prefix a b :
  Forall slash_free a -> Forall slash_free b -> a <> [] -> b <> [] ->
  (join [slash] b = join [slash] a \/ starts_with (join [slash] a ++ [slash]) (join [slash] b) = true)
  <-> a `prefix_of` b.
Proof.
  intros Ha Hb Hna Hnb. rewrite starts_with_prefix. split.
  - intros [Heq|[k Hk]].
    + rewrite <- (split_join a), <- (split_join b), Heq by done. done.
    + rewrite <- app_assoc in Hk. simpl in Hk.
      exists (split_on slash k). rewrite <- (split_join b), Hk, split_on_app, split_join by done. done.
  - intros [k ->]. destruct k as [|c k]; [left; by rewrite app_nil_r|]. right.
    exists (join [slash] (c :: k)). rewrite join_app, <- app_assoc by done. done.
Qed.

(** ** Normalized segments *)

Definition segment (s : pystr) : Prop := slash_free s /\ s <> [] /\ s <> dot.

(** The loop invariant, on the reversed list: proper segments, with ".." only at
    the front of the path, and nowhere in an absolute one. *)
Definition normal (rooted : bool) (rc : list pystr) : Prop :=
  Forall segment rc /\
  exists names n, rc = names ++ replicate n dotdot /\ dotdot ∉ names /\ (rooted = true -> n = 0%nat).

Lemma norm_step_normal rooted rc comp :
  slash_free comp -> normal rooted rc -> normal rooted (norm_step rooted rc comp).
Proof.
  intros Hs (HF & names & n & -> & Hn & Hr). unfold norm_step.
  destruct (decide (comp = [])) as [->|H0]; [by split; [|exists names, n]|].
  rewrite (bool_decide_eq_false_2 (comp = [])) by done. simpl.
  destruct (decide (comp = dot)) as [->|H1]; [by split; [|exists names, n]|].
  rewrite (bool_decide_eq_false_2 (comp = dot)) by done.
  destruct (decide (comp = dotdot)) as [->|H2].
  - rewrite (bool_decide_eq_false_2 (dotdot <> dotdot)) by (by intros []). simpl.
    destruct names as [|m names]; simpl.
    + destruct n as [|n]; simpl.
      * destruct rooted; simpl; [by split; [|exists [], 0%nat]|].
        split; [by repeat constructor; vm_compute; set_solver|]. exists [], 1%nat. repeat split; [set_solver|done].
      * rewrite orb_true_r. split; [by constructor; [by inversion HF|]|]. exists [], (S (S n)). repeat split; [set_solver|].
        intros Ht. by specialize (Hr Ht).
    + rewrite (bool_decide_eq_false_2 (Some m = Some dotdot)) by (intros [= ->]; set_solver).
      rewrite andb_false_r. simpl. split; [by inversion HF|]. exists names, n. repeat split; [set_solver|done].
  - rewrite (bool_decide_eq_true_2 (comp <> dotdot)) by done. simpl.
    split; [by constructor|]. exists (comp :: names), n. repeat split; [set_solver|done].
Qed.

Lemma norm_fold_normal rooted rc cs :
  Forall slash_free cs -> normal rooted rc -> normal rooted (foldl (norm_step rooted) rc cs).
Proof.
  intros HF. revert rc; induction HF as [|c cs Hc HF IH]; intros rc Hn; simpl; [done|].
  apply IH. by apply norm_step_normal.
Qed.

Lemma norm_comps_normal path : normal (isabs path) (rev (norm_comps path)).
Proof.
  unfold norm_comps. rewrite rev_involutive. apply norm_fold_normal.
  - apply Forall_forall. intros w Hw. by apply split_on_elem in Hw.
  - split; [constructor|]. exists [], 0%nat. repeat split. set_solver.
Qed.

Lemma norm_comps_segments path : Forall segment (norm_comps path).
Proof.
  destruct (norm_comps_normal path) as [HF _]. apply Forall_rev in HF. by rewrite rev_involutive in HF.
Qed.

Lemma norm_comps_slash_free path : Forall slash_free (norm_comps path).
Proof. eapply Forall_impl; [apply norm_comps_segments|]. by intros ? []. Qed.

Lemma rev_reverse {A} (l : list A) : rev l = reverse l.
Proof. apply rev_alt. Qed.

(** A normalized path: some ".." and then names. *)
Lemma norm_comps_shape path :
  exists n names, norm_comps path = replicate n dotdot ++ names /\ dotdot ∉ names /\
    (isabs path = true -> n = 0%nat).
Proof.
  destruct (norm_comps_normal path) as (_ & names & n & Heq & Hn & Hr).
  apply (f_equal (@rev _)) in Heq. rewrite rev_involutive, rev_app_distr in Heq.
  exists n, (rev names). split; [rewrite Heq|split; [by rewrite rev_reverse, elem_of_reverse|done]].
  f_equal. by rewrite rev_reverse, reverse_replicate.
Qed.

(** Normalizing does not change what a path names. *)
Lemma norm_step_walk rooted base rc comp :
  (rooted = true -> base = []) -> normal rooted rc ->
  foldl walk_step base (rev (norm_step rooted rc comp)) = walk_step (foldl walk_step base (rev rc)) comp.
Proof.
  intros Hb (HF & _). unfold norm_step, walk_step at 2.
  destruct (bool_decide (comp = []) || bool_decide (comp = dot)) eqn:E; [done|].
  destruct (decide (comp = dotdot)) as [->|Hne].
  - rewrite (bool_decide_eq_false_2 (dotdot <> dotdot)) by (by intros []). simpl.
    destruct rc as [|d rc]; simpl.
    + destruct rooted; simpl; [by rewrite Hb|done].
    + destruct (decide (d = dotdot)) as [->|Hd].
      * rewrite bool_decide_eq_true_2 by done. rewrite orb_true_r. cbn [rev]. by rewrite foldl_app.
      * rewrite (bool_decide_eq_false_2 (Some d = Some dotdot)) by congruence.
        rewrite andb_false_r. simpl. rewrite foldl_app. simpl.
        inversion HF as [|? ? (_ & H0 & H1)]; subst. unfold walk_step at 2.
        by rewrite !bool_decide_eq_false_2.
  - rewrite (bool_decide_eq_true_2 (comp <> dotdot)) by done. simpl.
    rewrite foldl_app. simpl. unfold walk_step at 1. by rewrite E, (bool_decide_eq_false_2 (comp = dotdot)).
Qed.

Lemma norm_fold_walk rooted base cs rc :
  Forall slash_free cs -> (rooted = true -> base = []) -> normal rooted rc ->
  foldl walk_step base (rev (foldl (norm_step rooted) rc cs)) =
  foldl walk_step (foldl walk_step base (rev rc)) cs.
Proof.
  intros HF Hb. revert rc; induction HF as [|c cs Hc HF IH]; intros rc Hn; simpl; [done|].
  rewrite IH by (by apply norm_step_normal). by rewrite norm_step_walk.
Qed.

Lemma resolve_norm cwd path :
  resolve cwd path = rev (foldl walk_step (if isabs path then [] else rev cwd) (norm_comps path)).
Proof.
  unfold resolve, norm_comps. rewrite norm_fold_walk; [done| | |].
  - apply Forall_forall. intros w Hw. by apply split_on_elem in Hw.
  - by intros ->.
  - split; [constructor|]. exists [], 0%nat. repeat split. set_solver.
Qed.

Lemma walk_names base names :
  Forall segment names -> dotdot ∉ names -> foldl walk_step base names = rev names ++ base.
Proof.
  revert base; induction names as [|c names IH]; intros base HF Hn; simpl; [done|].
  inversion HF as [|? ? (_ & H0 & H1) HF']; subst. rewrite IH by set_solver.
  unfold walk_step. rewrite !bool_decide_eq_false_2 by set_solver. simpl. by rewrite <- app_assoc.
Qed.

Lemma join_first cs : Forall segment cs -> isabs (join [slash] cs) = false.
Proof.
  intros HF. destruct HF as [|c cs (Hs & Hne & _) _]; [done|].
  assert (isabs (join [slash] (c :: cs)) = isabs c) as ->.
  { destruct c; [done|]. by destruct cs. }
  destruct c as [|x c]; [done|]. unfold isabs. simpl. rewrite bool_decide_eq_false_2; [done|].
  intros <-. apply Hs. set_solver.
Qed.

Lemma lstrip_join cs : Forall segment cs -> lstrip_with (N.eqb slash) (join [slash] cs) = join [slash] cs.
Proof.
  intros HF. apply join_first in HF. unfold isabs in HF. destruct (join [slash] cs) as [|x s]; [done|].
  cbn [starts_with] in HF. rewrite andb_true_r in HF. apply bool_decide_eq_false_1 in HF.
  unfold lstrip_with. cbn [drop_while]. by destruct (N.eqb_spec slash x).
Qed.

(** The two comparisons [_path_matches_prefix] makes are on this form. *)
Lemma canonical_spec path :
  canonical path =
  if isabs path then slash :: join [slash] (norm_comps path)
  else match norm_comps path with [] => dot | cs => join [slash] cs end.
Proof.
  pose proof (norm_comps_segments path) as HF. pose proof (join_first _ HF) as Hj.
  unfold canonical, normpath. destruct path as [|x path]; [done|].
  set (p := x :: path) in *. destruct (isabs p) eqn:Ep.
  - set (J := join [slash] (norm_comps p)) in *.
    assert (starts_with [slash; slash] (slash :: J) = false) as Hs.
    { unfold isabs in Hj. by destruct J. }
    destruct (starts_with [slash; slash] p && negb (starts_with [slash; slash; slash] p)).
    + change (slash :: lstrip_with (N.eqb slash) J = slash :: J). f_equal. by apply lstrip_join.
    + cbn [app]. by rewrite Hs.
  - cbn [app]. destruct (norm_comps p) as [|c cs] eqn:Ec; [done|].
    assert (join [slash] (c :: cs) <> []) as Hne.
    { inversion HF as [|? ? (_ & Hc & _)]; subst. destruct c; [done|]. by destruct cs. }
    destruct (join [slash] (c :: cs)) as [|y s]; [done|].
    unfold isabs in Hj. simpl in Hj. rewrite andb_true_r in Hj. simpl. by rewrite Hj.
Qed.

Lemma isabs_canonical path : isabs (canonical path) = isabs path.
Proof.
  rewrite canonical_spec. destruct (isabs path); [done|].
  pose proof (join_first _ (norm_comps_segments path)) as Hj. by destruct (norm_comps path).
Qed.

(** Matching, in terms of normalized segments. *)
Lemma path_matches_segments path prefix :
  _path_matches_prefix path prefix = true <->
  isabs path = isabs prefix /\ norm_comps prefix `prefix_of` norm_comps path /\
  (isabs prefix = false -> norm_comps prefix = [] -> starts_with dotdot (canonical path) = false).
Proof.
  unfold _path_matches_prefix. rewrite !isabs_canonical.
  destruct (Bool.eqb_spec (isabs path) (isabs prefix)) as [Heq|Hne]; simpl; [|naive_solver].
  pose proof (norm_comps_slash_free path) as Fp. pose proof (norm_comps_slash_free prefix) as Fq.
  pose proof (norm_comps_segments path) as Sp. pose proof (norm_comps_segments prefix) as Sq.
  rewrite (canonical_spec prefix). rewrite Heq.
  destruct (isabs prefix) eqn:Eq.
  - rewrite (canonical_spec path), Heq. destruct (norm_comps prefix) as [|c cs] eqn:Ec.
    + rewrite bool_decide_eq_true_2 by done. split; [intros _; split; [done|split; [apply prefix_nil|done]]|done].
    + assert (join [slash] (c :: cs) <> []) as Hne.
      { inversion Sq as [|? ? (_ & Hc & _)]; subst. destruct c; [done|]. by destruct cs. }
      rewrite (bool_decide_eq_false_2 (slash :: _ = [slash])) by congruence.
      rewrite (bool_decide_eq_false_2 (slash :: _ = dot)) by done.
      rewrite orb_true_iff, bool_decide_eq_true.
      destruct (norm_comps path) as [|d ds] eqn:Ed.
      { split; [|intros (_ & [k Hk] & _); done]. intros [E|Hs]; [injection E; intros E'; by destruct (Hne (eq_sym E'))|].
        apply starts_with_prefix in Hs as [k Hk]. by destruct (join [slash] (c :: cs)). }
      rewrite <- (join_prefix (c :: cs) (d :: ds)) by done.
      cbn [app starts_with]. rewrite (bool_decide_eq_true_2 (slash = slash)) by done. simpl andb.
      split; [intros [[= ?]|?]; tauto | intros (_ & [?|?] & _); [left; congruence | by right]].
  - destruct (norm_comps prefix) as [|c cs] eqn:Ec.
    + rewrite (bool_decide_eq_false_2 (dot = [slash])) by done.
      rewrite (bool_decide_eq_true_2 (dot = dot)), negb_true_iff by done.
      split; [intros Hs; split; [done|split; [apply prefix_nil|done]] | intros (_ & _ & Hs); by apply Hs].
    + pose proof (join_first _ Sq) as Hj.
      rewrite (bool_decide_eq_false_2 (join _ _ = [slash])) by (intros E; rewrite E in Hj; done).
      assert (join [slash] (c :: cs) <> dot) as Hnd.
      { intros E. apply (f_equal (split_on slash)) in E. rewrite split_join in E by done.
        vm_compute in E. inversion Sq as [|? ? (_ & _ & Hd)]; subst. by simplify_eq. }
      rewrite (bool_decide_eq_false_2 _ Hnd), (canonical_spec path), Heq.
      rewrite orb_true_iff, bool_decide_eq_true.
      destruct (norm_comps path) as [|d ds] eqn:Ed.
      { split; [|intros (_ & [k Hk] & _); done]. intros [E|Hs]; [by rewrite <- E in Hnd|].
        apply starts_with_prefix in Hs as [k Hk]. destruct (join [slash] (c :: cs)) as [|y [|z s]] eqn:EJ; [|done|done].
        inversion Sq as [|? ? (_ & Hc & _)]; subst. destruct c; [done|]. by destruct cs. }
      rewrite <- (join_prefix (c :: cs) (d :: ds)) by done. naive_solver.
Qed.

(** In a normalized path nothing but names follows a name. *)
Lemma after_name_no_up path a k :
  norm_comps path = a ++ k ->
  (a = [] /\ head k <> Some dotdot) \/ (exists c, last a = Some c /\ c <> dotdot) ->
  dotdot ∉ k.
Proof.
  destruct (norm_comps_shape path) as (n & names & -> & Hn & _). intros Heq Hcase.
  destruct (decide (length a < n)%nat) as [Hlt|Hge].
  - exfalso. assert (a = replicate (length a) dotdot /\ k = replicate (n - length a) dotdot ++ names) as [Ha Hk].
    { replace n with (length a + (n - length a))%nat in Heq by lia.
      rewrite replicate_add, <- app_assoc in Heq. apply app_inj_1 in Heq; [|by rewrite length_replicate].
      naive_solver. }
    destruct Hcase as [[-> Hh]|(c & Hc & Hne)].
    + rewrite Hk in Hh. destruct n; simpl in *; [lia|done].
    + rewrite Ha in Hc. assert (c ∈ replicate (length a) dotdot) as Hin by (by apply last_Some_elem_of).
      apply elem_of_replicate in Hin as [-> _]. done.
  - apply (f_equal (drop (length a))) in Heq.
    rewrite drop_app_ge, drop_app_length in Heq by (rewrite length_replicate; lia).
    rewrite <- Heq. intros Hin. apply Hn. rewrite <- (take_drop (length a - length (replicate n dotdot)) names). set_solver.
Qed.

(** ** Theorems *)

(** for an absolute prefix, matching is exactly containment: the path is
    absolute and, with every "." and ".." walked, names the prefix or something
    below it by whole segments. *)
Theorem absolute_prefix_is_containment path prefix :
  isabs prefix = true ->
  _path_matches_prefix path prefix = true <->
  isabs path = true /\ resolve [] prefix `prefix_of` resolve [] path.
Proof.
  intros Hq. rewrite path_matches_segments, Hq.
  assert (forall p, isabs p = true -> resolve [] p = norm_comps p) as Hres.
  { intros p Hp. rewrite resolve_norm, Hp.
    destruct (norm_comps_shape p) as (n & names & E & Hn & H0). specialize (H0 Hp). subst n. simpl in E.
    rewrite walk_names by (rewrite ?E; eauto using norm_comps_segments; rewrite <- E; apply norm_comps_segments).
    by rewrite app_nil_r, rev_involutive. }
  rewrite (Hres prefix Hq). split.
  - intros (Hp & Hpre & _). by rewrite Hres.
  - intros (Hp & Hpre). by rewrite Hres in Hpre.
Qed.

(** a relative prefix that does not end above its own directory only matches
    relative paths inside it, whatever the working directory is: ".." segments
    cannot climb out of the prefix. *)
Theorem relative_prefix_is_sound path prefix cwd :
  isabs prefix = false -> last (norm_comps prefix) <> Some dotdot ->
  _path_matches_prefix path prefix = true ->
  isabs path = false /\ resolve cwd prefix `prefix_of` resolve cwd path.
Proof.
  intros Hq Hlast Hm. apply path_matches_segments in Hm as (Hp & [k Hk] & Hdot). rewrite Hq in Hp.
  split; [done|]. rewrite !resolve_norm, Hp, Hq, Hk, foldl_app.
  pose proof (norm_comps_segments path) as HF. rewrite Hk, Forall_app in HF. destruct HF as [_ HF].
  assert (dotdot ∉ k) as Hnk.
  { apply (after_name_no_up path (norm_comps prefix)); [done|].
    destruct (norm_comps prefix) as [|c cs] eqn:Ec.
    - left. split; [done|]. specialize (Hdot Hq eq_refl). rewrite canonical_spec, Hp, Hk in Hdot.
      destruct k as [|d k]; simpl; [done|]. intros [= ->].
      change (starts_with dotdot (join [slash] (dotdot :: k)) = false) in Hdot.
      assert (starts_with dotdot (join [slash] (dotdot :: k)) = true); [|congruence].
      apply starts_with_prefix. destruct k; [done|]. rewrite join_cons2. by apply prefix_app_r.
    - right. destruct (last (c :: cs)) as [e|] eqn:El; [exists e; split; [done|intros ->; by apply Hlast; rewrite <- El]|].
      by apply last_None in El. }
  rewrite (walk_names _ k), rev_app_distr, rev_involutive by done. by apply prefix_app_r.
Qed.

(** two relative prefixes behave differently from containment: "." refuses a
    file of the directory whose name begins with two dots, and ".." accepts a
    path above the directory it names. *)
Theorem dot_prefixes_are_not_containment :
  _path_matches_prefix (u "..cache/x") (u ".") = false /\
  (forall cwd, resolve cwd (u ".") `prefix_of` resolve cwd (u "..cache/x")) /\
  _path_matches_prefix (u "../../etc") (u "..") = true /\
  ~ resolve [u "home"; u "a"] (u "..") `prefix_of` resolve [u "home"; u "a"] (u "../../etc").
Proof.
  split; [vm_compute; reflexivity|]. split; [|split; [vm_compute; reflexivity|]].
  - intros cwd. unfold resolve. vm_compute (isabs _). cbv iota.
    change (split_on slash (u ".")) with [dot]. change (split_on slash (u "..cache/x")) with [u "..cache"; u "x"].
    simpl foldl. change (walk_step (rev cwd) dot) with (rev cwd).
    change (walk_step (walk_step (rev cwd) (u "..cache")) (u "x")) with (u "x" :: u "..cache" :: rev cwd).
    simpl rev. rewrite rev_involutive, <- app_assoc. by eexists.
  - apply (bool_decide_unpack _). vm_compute. exact I.
Qed.

Section PolicyTheorems.
Context `{PyRuntime}.

Definition skips (tool_name : pystr) (tool_input : jdict) (rule : PolicyRule) : Prop :=
  rule_applies rule tool_name tool_input = Ok false.

(** rules are evaluated in order: the verdict is that of the first rule whose
    populated selectors all match, and the default verdict when none does. *)
Theorem rule_based_first_match_wins rules d tool_name tool_input verdict :
  rule_based_check rules d tool_name tool_input = Ok verdict <->
  (exists before rule after, rules = before ++ rule :: after /\
     Forall (skips tool_name tool_input) before /\
     rule_applies rule tool_name tool_input = Ok true /\ verdict = r_decision rule) \/
  (Forall (skips tool_name tool_input) rules /\ verdict = d).
Proof.
  induction rules as [|rule rules IH]; simpl.
  - split; [intros [= <-]; by right|]. intros [(b & r & a & E & _)|[_ ->]]; [by destruct b|done].
  - destruct (rule_applies rule tool_name tool_input) as [[]|e] eqn:Er; simpl.
    + split; [intros [= <-]; left; by exists [], rule, rules|].
      intros [(b & r & a & E & Hb & Hr & ->)|[HF _]].
      * destruct b as [|r' b]; simplify_eq/=; [done|]. inversion Hb as [|? ? Hs]. unfold skips in Hs. congruence.
      * inversion HF as [|? ? Hs]. unfold skips in Hs. congruence.
    + rewrite IH. split.
      * intros [(b & r & a & -> & Hb & Hr & ->)|[HF ->]]; [left|right; split; [by constructor|done]].
        exists (rule :: b), r, a. repeat split; [by constructor|done].
      * intros [(b & r & a & E & Hb & Hr & ->)|[HF ->]].
        -- destruct b as [|r' b]; simplify_eq/=; [congruence|]. left. exists b, r, a. by inversion Hb.
        -- right. by inversion HF.
    + split; [done|]. intros [(b & r & a & E & Hb & Hr & ->)|[HF ->]].
      * destruct b as [|r' b]; simplify_eq/=; [congruence|].
        inversion Hb as [|? ? Hs]. unfold skips in Hs. congruence.
      * inversion HF as [|? ? Hs]. unfold skips in Hs. congruence.
Qed.

Lemma first_match_spec patterns text :
  match _first_match patterns text with
  | Some p => p ∈ patterns /\ _matches_pattern p text = true
  | None => forall p, p ∈ patterns -> _matches_pattern p text = false
  end.
Proof.
  induction patterns as [|p ps IH]; simpl; [set_solver|].
  destruct (_matches_pattern p text) eqn:E; [set_solver|].
  destruct (_first_match ps text); set_solver.
Qed.

(** the allow-list denies every tool it does not name, and an allowed call
    needs confirmation exactly when one of the tool's patterns matches its input. *)
Theorem allow_list_denies_by_default allow confirm tool_name tool_input :
  let d := allow_list_check allow confirm tool_name tool_input in
  (allowed d = true <-> tool_name ∈ allow) /\
  (requires_confirmation d = true <->
   tool_name ∈ allow /\ exists p, p ∈ default [] (dict_get tool_name confirm) /\
     _matches_pattern p (_serialise_input tool_input) = true).
Proof.
  unfold allow_list_check, elem_b. case_bool_decide as Hin; simpl; [|naive_solver].
  pose proof (first_match_spec (default [] (dict_get tool_name confirm)) (_serialise_input tool_input)) as Hf.
  destruct (_first_match _ _) as [p|]; simpl.
  - split; [done|]. split; [|done]. intros _. split; [done|]. by exists p.
  - split; [done|]. split; [done|]. intros (_ & p & Hp & Hm). rewrite (Hf p Hp) in Hm. done.
Qed.

(** a URL on which the URL parser raises escapes the policy as an exception
    as soon as a rule has a domain selector; it is not treated as "no match". *)
Theorem malformed_url_raises url e pattern d tool_name :
  url <> [] -> contains (u "://") url = true -> url_hostname url = Err e ->
  rule_based_check
    [{| r_tool_name := None; path_prefix := None; domain_pattern := Some pattern;
        command_pattern := None; r_decision := d |}] no_rule_matched tool_name
    [(u "url", JStr url)] = Err e.
Proof.
  intros Hne Hc Hu. destruct url as [|x url]; [done|].
  assert (_input_domain [(u "url", JStr (x :: url))] = Err e) as Hd.
  { transitivity (url_hostname (if contains (u "://") (x :: url) then x :: url else u "//" ++ x :: url));
      [reflexivity | by rewrite Hc]. }
  unfold rule_based_check, rule_applies, domain_selected. cbn [tool_selected path_selected negb r_tool_name
    path_prefix domain_pattern]. by rewrite Hd.
Qed.
End PolicyTheorems.

(** ** Witnesses *)

Lemma absolute_prefix_is_containment_witness :
  _path_matches_prefix (u "/etc//ssh/../passwd") (u "/etc") = true /\
  ~ (isabs (u "/etcetera/notes.txt") = true /\ resolve [] (u "/etc") `prefix_of` resolve [] (u "/etcetera/notes.txt")).
Proof.
  split.
  - apply (absolute_prefix_is_containment (u "/etc//ssh/../passwd") (u "/etc") eq_refl).
    split; [reflexivity|]. apply (bool_decide_unpack _). vm_compute. exact I.
  - intros H. apply (absolute_prefix_is_containment (u "/etcetera/notes.txt") (u "/etc") eq_refl) in H.
    vm_compute in H. discriminate.
Defined.

Lemma relative_prefix_is_sound_witness :
  isabs (u "docs/a/../b") = false /\
  resolve [u "home"] (u "docs") `prefix_of` resolve [u "home"] (u "docs/a/../b").
Proof.
  apply (relative_prefix_is_sound (u "docs/a/../b") (u "docs") [u "home"]).
  - reflexivity.
  - vm_compute. discriminate.
  - vm_compute. reflexivity.
Defined.

#[local] Instance bracket_runtime : PyRuntime := {|
  float_repr := fun _ => []; py_repr := fun _ => []; sha256_hexdigest := fun s => s;
  re_search := fun _ _ => None; json_loads := fun _ => None; json_raw_decode := fun _ => None;
  url_hostname := fun url => if contains (u "[") url then Err (value_error (u "Invalid IPv6 URL")) else Ok None |}.

Lemma malformed_url_raises_witness :
  rule_based_check
    [{| r_tool_name := None; path_prefix := None; domain_pattern := Some (u "example");
        command_pattern := None; r_decision := no_rule_matched |}] no_rule_matched (u "browser")
    [(u "url", JStr (u "http://[x"))] = Err (value_error (u "Invalid IPv6 URL")).
Proof.
  exact (malformed_url_raises (u "http://[x") (value_error (u "Invalid IPv6 URL")) (u "example")
    no_rule_matched (u "browser") ltac:(discriminate) eq_refl eq_refl).
Defined.
