(* ===== verification/Budgets.v ===== *)
(** * Budgets, circuit breakers and usage accounting
      (kinetic_sdk/agent/budget.py, kinetic_sdk/subagent/budget.py,
       kinetic_sdk/agent/stuck_detector.py, kinetic_sdk/llm/usage.py)

    Each counter is its record of attributes; an operation returns the new record
    and, where the code can raise, the exception. Every method body of these
    classes runs under the object's lock, so a method is one atomic step. *)

From stdpp Require Import base gmap strings list.
From Stdlib Require Import ZArith Lia SpecFloat.
From S2P Require Import Prelude Json Types.

(** [isinstance(v, int)]: Python's [bool] is an [int]. *)
Definition as_int (j : option json) : option Z :=
  match j with
  | Some (JInt z) => Some z
  | Some (JBool b) => Some (if b then 1 else 0)%Z
  | _ => None
  end.

Definition add_int (total : Z) (j : option json) : Z := (total + default 0 (as_int j))%Z.

(** ** RunBudget *)

Record RunBudget := {
  _max_calls : option Z;
  _max_tokens : option Z;
  _used_calls : Z;
  _used_tokens : Z;
}.

Definition positive_or_none (o : option Z) : bool :=
  match o with Some n => (1 <=? n)%Z | None => true end.

Definition make_run_budget (max_llm_calls max_total_tokens : option Z) : result RunBudget :=
  if negb (positive_or_none max_llm_calls)
  then Err (value_error (u "max_llm_calls must be a positive int or None, got "
                         ++ match max_llm_calls with Some n => dec n | None => [] end))
  else if negb (positive_or_none max_total_tokens)
  then Err (value_error (u "max_total_tokens must be a positive int or None, got "
                         ++ match max_total_tokens with Some n => dec n | None => [] end))
  else Ok {| _max_calls := max_llm_calls; _max_tokens := max_total_tokens;
             _used_calls := 0; _used_tokens := 0 |}.

Definition reached (limit : option Z) (used : Z) : bool :=
  match limit with Some m => (m <=? used)%Z | None => false end.

Definition show_limit (limit : option Z) : pystr := match limit with Some m => dec m | None => [] end.

Definition budget_check (b : RunBudget) : result unit :=
  if reached (_max_calls b) (_used_calls b)
  then Err (PyExn (u "RunBudgetExceeded")
    (u "LLM call budget exhausted: " ++ dec (_used_calls b) ++ u "/" ++ show_limit (_max_calls b) ++ u " calls used"))
  else if reached (_max_tokens b) (_used_tokens b)
  then Err (PyExn (u "RunBudgetExceeded")
    (u "token budget exhausted: " ++ dec (_used_tokens b) ++ u "/" ++ show_limit (_max_tokens b)
     ++ u " tokens used (input + output)"))
  else Ok tt.

Definition budget_record (b : RunBudget) (usage : jdict) : RunBudget := {|
  _max_calls := _max_calls b; _max_tokens := _max_tokens b;
  _used_calls := (_used_calls b + 1)%Z;
  _used_tokens := add_int (add_int (_used_tokens b) (dict_get (u "input_tokens") usage))
                          (dict_get (u "output_tokens") usage) |}.

Definition budget_exhausted (b : RunBudget) : bool :=
  reached (_max_calls b) (_used_calls b) || reached (_max_tokens b) (_used_tokens b).

Definition opt_int (o : option Z) : json := match o with Some z => JInt z | None => JNull end.

Definition budget_details (b : RunBudget) : jdict :=
  [(u "max_llm_calls", opt_int (_max_calls b)); (u "max_total_tokens", opt_int (_max_tokens b));
   (u "used_calls", JInt (_used_calls b)); (u "used_tokens", JInt (_used_tokens b))].

(** ** UsageAccumulator *)

Record UsageSnapshot := {
  input_tokens : Z;
  output_tokens : Z;
  cost_usd : pyfloat;
  calls : Z;
}.

Definition empty_usage : UsageSnapshot :=
  {| input_tokens := 0; output_tokens := 0; cost_usd := S754_zero false; calls := 0 |}.

(** [float(cost)]: an [int] too large for a float raises [OverflowError]. *)
Definition as_float (j : option json) : option (result pyfloat) :=
  match j with
  | Some (JFloat f) => Some (Ok f)
  | _ => match as_int j with
         | Some z => Some (match fl_of_Z z with
                           | S754_infinity _ =>
                               Err (PyExn (u "OverflowError") (u "int too large to convert to float"))
                           | f => Ok f
                           end)
         | None => None
         end
  end.

(** [UsageAccumulator.record]; the counters already updated stay updated when
    the cost raises. *)
Definition usage_record (s : UsageSnapshot) (usage : jdict) : UsageSnapshot * result unit :=
  match usage with
  | [] => (s, Ok tt)
  | _ =>
    let cost := as_float (dict_get (u "cost_usd") usage) in
    ({| input_tokens := add_int (input_tokens s) (dict_get (u "input_tokens") usage);
        output_tokens := add_int (output_tokens s) (dict_get (u "output_tokens") usage);
        cost_usd := match cost with Some (Ok f) => fl_add (cost_usd s) f | _ => cost_usd s end;
        calls := (calls s + 1)%Z |},
     match cost with Some (Err e) => Err e | _ => Ok tt end)
  end.

(** ** SpawnBudget *)

Record SpawnBudget := {
  sb_max : Z;
  sb_used : Z;
  sb_per_agent : list (pystr * Z);
}.

Definition make_spawn_budget (max_total_tool_calls : Z) : result SpawnBudget :=
  if (max_total_tool_calls <? 1)%Z
  then Err (value_error (u "max_total_tool_calls must be a positive int, got " ++ dec max_total_tool_calls))
  else Ok {| sb_max := max_total_tool_calls; sb_used := 0; sb_per_agent := [] |}.

Definition record_tool_call `{PyRuntime} (b : SpawnBudget) (agent_id tool_name : pystr) : result SpawnBudget :=
  if (sb_max b <=? sb_used b)%Z
  then Err (PyExn (u "BudgetExceededError")
    (u "Spawn budget exhausted: " ++ dec (sb_used b) ++ u "/" ++ dec (sb_max b)
     ++ u " tool calls used across the sub-agent tree when agent " ++ py_repr (JStr agent_id)
     ++ u " requested " ++ py_repr (JStr tool_name)))
  else Ok {| sb_max := sb_max b; sb_used := (sb_used b + 1)%Z;
             sb_per_agent := dict_set agent_id (default 0%Z (dict_get agent_id (sb_per_agent b)) + 1)%Z
                                      (sb_per_agent b) |}.

Definition remaining (b : SpawnBudget) : Z := (sb_max b - sb_used b)%Z.

Definition spawn_exhausted (b : SpawnBudget) : bool := (sb_max b <=? sb_used b)%Z.

Definition calls_by_agent (b : SpawnBudget) : list (pystr * Z) := sb_per_agent b.

(** ** RepetitionCircuitBreaker *)

Record RepetitionCircuitBreaker := {
  rb_max : Z;
  _last_key : option (pystr * pystr);
  _count : Z;
}.

Definition make_repetition_breaker (max_consecutive_repeats : Z) : result RepetitionCircuitBreaker :=
  if (max_consecutive_repeats <? 1)%Z
  then Err (value_error (u "max_consecutive_repeats must be a positive int, got " ++ dec max_consecutive_repeats))
  else Ok {| rb_max := max_consecutive_repeats; _last_key := None; _count := 0 |}.

Section Repetition.
Context `{PyRuntime}.

Definition _stable_serialise (arguments : json) : pystr := json_dumps dumps_sorted arguments.

(** [record]: the counter is updated also by the call that trips it. *)
Definition repetition_record (b : RepetitionCircuitBreaker) (tool_name : pystr) (arguments : json)
    : RepetitionCircuitBreaker * result unit :=
  let key := (tool_name, _stable_serialise arguments) in
  let count := if decide (Some key = _last_key b) then (_count b + 1)%Z else 1%Z in
  ({| rb_max := rb_max b; _last_key := Some key; _count := count |},
   if (rb_max b <? count)%Z
   then Err (PyExn (u "RepetitionLimitError")
     (u "Repetition limit exceeded: tool " ++ py_repr (JStr tool_name)
      ++ u " called with identical arguments " ++ dec count ++ u " times in a row (limit "
      ++ dec (rb_max b) ++ u ")"))
   else Ok tt).

Definition repetition_reset (b : RepetitionCircuitBreaker) : RepetitionCircuitBreaker :=
  {| rb_max := rb_max b; _last_key := None; _count := 0 |}.
End Repetition.

(** ** StuckDetector *)

Record StuckDetector := {
  window_size : Z;
  repeat_threshold : Z;
  _calls : list (pystr * pystr * pystr);
}.

Definition make_stuck_detector (window threshold : Z) : result StuckDetector :=
  if (window <? 1)%Z then Err (value_error (u "window_size must be positive"))
  else if (threshold <? 1)%Z then Err (value_error (u "repeat_threshold must be positive"))
  else Ok {| window_size := window; repeat_threshold := threshold; _calls := [] |}.

Section Stuck.
Context `{PyRuntime}.

(** The window entry [_observe] forms. *)
Definition observation (tool_name : pystr) (tool_args outcome : json) : pystr * pystr * pystr :=
  (tool_name, sha256_hexdigest (json_dumps dumps_compact tool_args),
   sha256_hexdigest (json_dumps dumps_compact outcome)).

Definition count_of (c : pystr * pystr * pystr) (l : list (pystr * pystr * pystr)) : Z :=
  zlen (filter (fun x => x = c) l).

(** [deque(maxlen=window_size)] keeps the last [window_size] entries. *)
Definition _observe (s : StuckDetector) (tool_name : pystr) (tool_args outcome : json) : StuckDetector * bool :=
  let call := observation tool_name tool_args outcome in
  let calls' := slice_last (window_size s) (_calls s ++ [call]) in
  ({| window_size := window_size s; repeat_threshold := repeat_threshold s; _calls := calls' |},
   (repeat_threshold s <=? count_of call calls')%Z).

Definition observe (s : StuckDetector) (tool_name : pystr) (tool_args : json) : StuckDetector * bool :=
  _observe s tool_name tool_args (JObj [(u "legacy", JBool true)]).

Definition stuck_outcome (r : ToolResult) : json :=
  JObj [(u "output", output r);
        (u "error", match error r with Some e => JStr e | None => JNull end);
        (u "failure_category", match failure_category r with
                               | Some c => JStr (failure_value c) | None => JNull end)].

Definition stuck_check (s : StuckDetector) (tool_name : pystr) (arguments : json) (r : ToolResult)
    : StuckDetector * bool :=
  _observe s tool_name arguments (stuck_outcome r).

Definition window (s : StuckDetector) : json :=
  JList (map (fun '(n, a, r) =>
    JObj [(u "tool_name", JStr n); (u "args_hash", JStr a); (u "result_hash", JStr r)]) (_calls s)).
End Stuck.

(** ** Specifications *)

(** The tokens one usage report adds. *)
Definition reported_tokens (usage : jdict) : Z :=
  (default 0 (as_int (dict_get (u "input_tokens") usage))
   + default 0 (as_int (dict_get (u "output_tokens") usage)))%Z.

Definition sum_Z (l : list Z) : Z := foldr Z.add 0%Z l.

(** A sequence of requests against a shared spawn budget: the final budget and
    the requests that were admitted, in order. A refused request leaves the
    budget as it is. *)
Fixpoint charge_all `{PyRuntime} (b : SpawnBudget) (reqs : list (pystr * pystr))
    : SpawnBudget * list (pystr * pystr) :=
  match reqs with
  | [] => (b, [])
  | (agent, tool) :: reqs' =>
    match record_tool_call b agent tool with
    | Ok b' => let '(b'', adm) := charge_all b' reqs' in (b'', (agent, tool) :: adm)
    | Err _ => charge_all b reqs'
    end
  end.

Definition requests_of (agent : pystr) (reqs : list (pystr * pystr)) : Z :=
  zlen (filter (fun r => r.1 = agent) reqs).

(** How many of the latest calls are identical to [k]; the latest comes first. *)
Fixpoint run_length (k : pystr * pystr) (latest_first : list (pystr * pystr)) : Z :=
  match latest_first with
  | [] => 0%Z
  | k' :: rest => if decide (k = k') then (1 + run_length k rest)%Z else 0%Z
  end.

(** ** Lemmas *)

Lemma budget_records b usages :
  let b' := foldl budget_record b usages in
  _max_calls b' = _max_calls b /\ _max_tokens b' = _max_tokens b /\
  _used_calls b' = (_used_calls b + zlen usages)%Z /\
  _used_tokens b' = (_used_tokens b + sum_Z (map reported_tokens usages))%Z.
Proof.
  revert b; induction usages as [|us usages IH]; intros b; simpl.
  - unfold zlen. simpl. repeat split; lia.
  - destruct (IH (budget_record b us)) as (-> & -> & -> & ->). simpl. rewrite zlen_cons.
    unfold add_int, reported_tokens. repeat split; lia.
Qed.

Lemma budget_check_ok b : is_ok (budget_check b) = negb (budget_exhausted b).
Proof. unfold budget_check, budget_exhausted. by destruct (reached (_max_calls b) _), (reached (_max_tokens b) _). Qed.

Lemma requests_of_app agent a b : requests_of agent (a ++ b) = (requests_of agent a + requests_of agent b)%Z.
Proof. unfold requests_of. by rewrite filter_app, zlen_app. Qed.

Lemma charge_all_spec `{PyRuntime} reqs b :
  (0 <= remaining b)%Z ->
  let '(b', adm) := charge_all b reqs in
  adm = ztake (remaining b) reqs /\ sb_max b' = sb_max b /\
  sb_used b' = (sb_used b + zlen adm)%Z /\
  forall a, default 0%Z (dict_get a (sb_per_agent b')) =
            (default 0 (dict_get a (sb_per_agent b)) + requests_of a adm)%Z.
Proof.
  revert b; induction reqs as [|[agent tool] reqs IH]; intros b Hr; simpl.
  - unfold ztake, requests_of, zlen. rewrite take_nil. simpl. repeat split; [lia|]. intros a. lia.
  - unfold record_tool_call. destruct (Z.leb_spec (sb_max b) (sb_used b)) as [Hle|Hlt].
    + specialize (IH b Hr). destruct (charge_all b reqs) as [b' adm]. destruct IH as (-> & Hm & Hu & Ha).
      unfold remaining, ztake in *. replace (Z.to_nat _) with 0%nat in * by lia. done.
    + set (b1 := {| sb_max := _ |}). assert (remaining b = 1 + remaining b1)%Z as Hrem
        by (unfold remaining; simpl; lia).
      specialize (IH b1). unfold remaining at 1 in IH. simpl in IH.
      destruct (charge_all b1 reqs) as [b' adm]. destruct IH as (-> & Hm & Hu & Ha); [lia|].
      split; [|split; [done|split]].
      * unfold ztake. rewrite Hrem. rewrite Z2Nat.inj_add by (unfold remaining; simpl; lia). done.
      * rewrite Hu, zlen_cons. simpl. lia.
      * intros a. rewrite Ha. simpl. unfold requests_of. rewrite filter_cons. simpl.
        destruct (decide (agent = a)) as [->|Hne].
        -- rewrite dict_get_set_eq, zlen_cons. simpl. lia.
        -- rewrite dict_get_set_ne by done. done.
Qed.

Section RepetitionLemmas.
Context `{PyRuntime}.

Definition call_key (c : pystr * json) : pystr * pystr := (c.1, _stable_serialise c.2).

(** What the breaker remembers is the length of the current run. *)
Definition tracks (b : RepetitionCircuitBreaker) (latest_first : list (pystr * pystr)) : Prop :=
  match latest_first with
  | [] => _last_key b = None
  | k :: _ => _last_key b = Some k /\ _count b = run_length k latest_first
  end.

Lemma repetition_tracks b hist c :
  tracks b hist ->
  let b' := (repetition_record b c.1 c.2).1 in
  tracks b' (call_key c :: hist) /\ rb_max b' = rb_max b.
Proof.
  intros Ht. split; [|done]. simpl. split; [done|].
  destruct (decide (call_key c = call_key c)) as [_|]; [|done].
  change (c.1, _stable_serialise c.2) with (call_key c).
  destruct hist as [|k hist]; simpl in Ht.
  - rewrite Ht. by rewrite decide_False.
  - destruct Ht as [-> ->]. simpl. destruct (decide (k = k)); [|done].
    destruct (decide (call_key c = k)) as [->|Hne].
    + destruct (decide (Some k = Some k)); [|done]. destruct (decide (k = k)); [lia|done].
    + destruct (decide (Some _ = Some _)); [congruence|]. lia.
Qed.

Lemma repetition_history b hist calls :
  tracks b hist ->
  let b' := foldl (fun b c => (repetition_record b c.1 c.2).1) b calls in
  tracks b' (rev (map call_key calls) ++ hist) /\ rb_max b' = rb_max b.
Proof.
  revert b hist; induction calls as [|c calls IH]; intros b hist Ht; simpl; [done|].
  destruct (repetition_tracks b hist c Ht) as [Ht' Hm].
  destruct (IH _ _ Ht') as [IH1 IH2]. split; [by rewrite <- app_assoc | exact (eq_trans IH2 Hm)].
Qed.
End RepetitionLemmas.

Lemma slice_last_app {A} (k : Z) (a b : list A) :
  (0 < k)%Z -> slice_last k (slice_last k a ++ b) = slice_last k (a ++ b).
Proof.
  intros Hk. unfold slice_last. destruct (Z.leb_spec k 0); [lia|].
  unfold zdrop. set (n := Z.to_nat (Z.max 0 (zlen a - k))).
  assert (drop n a ++ b = drop n (a ++ b)) as -> by (rewrite drop_app_le; [done|unfold n, zlen; lia]).
  rewrite drop_drop. f_equal. unfold zlen. rewrite length_drop, length_app. unfold n, zlen. lia.
Qed.

Lemma observe_window `{PyRuntime} s tool args outcome seen :
  (0 < window_size s)%Z -> _calls s = slice_last (window_size s) seen ->
  _calls (_observe s tool args outcome).1 =
    slice_last (window_size s) (seen ++ [observation tool args outcome]).
Proof. intros Hw Hc. simpl. rewrite Hc. by rewrite slice_last_app. Qed.

Lemma observe_history `{PyRuntime} s obs seen :
  (0 < window_size s)%Z -> _calls s = slice_last (window_size s) seen ->
  let s' := foldl (fun s o => (_observe s o.1.1 o.1.2 o.2).1) s obs in
  _calls s' = slice_last (window_size s) (seen ++ map (fun o => observation o.1.1 o.1.2 o.2) obs) /\
  window_size s' = window_size s /\ repeat_threshold s' = repeat_threshold s.
Proof.
  revert s seen; induction obs as [|o obs IH]; intros s seen Hw Hc; simpl; [by rewrite app_nil_r|].
  destruct (IH (_observe s o.1.1 o.1.2 o.2).1 (seen ++ [observation o.1.1 o.1.2 o.2])) as (H1 & H2 & H3);
    [done|exact (observe_window s _ _ _ seen Hw Hc)|].
  rewrite <- app_assoc in H1. split; [exact H1|]. split; [exact H2 | exact H3].
Qed.

(** ** Theorems *)

(** starting fresh, the run budget admits another LLM call exactly while
    fewer calls than [max_llm_calls] and fewer tokens than [max_total_tokens]
    were recorded, whatever mixture of usage reports was charged; every recorded
    call counts, with or without usage numbers. *)
Theorem run_budget_admits_exactly max_llm_calls max_total_tokens b usages :
  make_run_budget max_llm_calls max_total_tokens = Ok b ->
  let b' := foldl budget_record b usages in
  (is_ok (budget_check b') = true <->
   (match max_llm_calls with Some m => zlen usages < m | None => True end)%Z /\
   (match max_total_tokens with
    | Some m => sum_Z (map reported_tokens usages) < m | None => True end)%Z) /\
  budget_exhausted b' = negb (is_ok (budget_check b')).
Proof.
  unfold make_run_budget. intros Hb. do 2 case_hyp Hb; simplify_eq/=.
  destruct (budget_records {| _max_calls := max_llm_calls; _max_tokens := max_total_tokens;
    _used_calls := 0; _used_tokens := 0 |} usages) as (Hc & Ht & Huc & Hut).
  simpl in *. set (b' := foldl budget_record _ usages) in *.
  rewrite budget_check_ok, negb_involutive. split; [|done].
  unfold budget_exhausted, reached. rewrite Hc, Ht, Huc, Hut, negb_true_iff, orb_false_iff.
  rewrite !Z.add_0_l. destruct max_llm_calls, max_total_tokens; rewrite ?Z.leb_gt; tauto.
Qed.

(** a spawn budget shared by a tree of agents admits exactly the first
    [max_total_tool_calls] requests, in the order they take the lock, and refuses
    every later one; [used] never exceeds the cap and the per-agent breakdown
    counts exactly the admitted requests of each agent. *)
Theorem spawn_budget_exact `{PyRuntime} cap b reqs :
  make_spawn_budget cap = Ok b ->
  let '(b', admitted) := charge_all b reqs in
  admitted = ztake cap reqs /\ sb_used b' = Z.min cap (zlen reqs) /\ (sb_used b' <= cap)%Z /\
  (spawn_exhausted b' = true <-> (cap <= zlen reqs)%Z) /\
  forall agent, default 0%Z (dict_get agent (calls_by_agent b')) = requests_of agent admitted.
Proof.
  unfold make_spawn_budget. intros Hb. destruct (Z.ltb_spec cap 1); simplify_eq.
  pose proof (charge_all_spec reqs {| sb_max := cap; sb_used := 0; sb_per_agent := [] |}) as Hs.
  destruct (charge_all _ reqs) as [b' adm]. unfold remaining in Hs. simpl in Hs.
  destruct Hs as (Hadm & Hm & Hu & Ha); [lia|]. rewrite Z.sub_0_r in Hadm.
  assert (sb_used b' = Z.min cap (zlen reqs)) as Hused.
  { rewrite Hu, Hadm, zlen_ztake by lia. lia. }
  split; [done|]. split; [done|]. split; [lia|]. split; [|done].
  unfold spawn_exhausted. rewrite Hm, Z.leb_le. lia.
Qed.

(** the repetition breaker trips on a call exactly when it and the calls
    directly before it form a run of more than [max_consecutive_repeats] calls
    with the same tool and the same arguments up to key order; any other call
    starts a new run. *)
Theorem repetition_trips_exactly `{PyRuntime} limit b calls tool arguments :
  make_repetition_breaker limit = Ok b ->
  let b' := foldl (fun b c => (repetition_record b c.1 c.2).1) b calls in
  (is_ok (repetition_record b' tool arguments).2 = false <->
   (limit < run_length (call_key (tool, arguments)) (rev (map call_key (calls ++ [(tool, arguments)]))))%Z).
Proof.
  intros Hb b'. unfold make_repetition_breaker in Hb. destruct (Z.ltb_spec limit 1); [done|]. injection Hb as <-.
  destruct (repetition_history {| rb_max := limit; _last_key := None; _count := 0 |} [] calls) as [Ht Hm]; [done|].
  fold b' in Ht, Hm. rewrite app_nil_r in Ht. simpl in Hm.
  destruct (repetition_tracks b' _ (tool, arguments) Ht) as [[_ Hc] _].
  rewrite map_app, rev_app_distr. simpl app. rewrite <- Hc. simpl. rewrite Hm.
  destruct (Z.ltb_spec limit (if decide (Some (tool, _stable_serialise arguments) = _last_key b')
    then _count b' + 1 else 1)); simpl; split; [done|done|done|lia].
Qed.

(** the stuck detector reports a call exactly when the last [window_size]
    observations, the call included, hold at least [repeat_threshold] that agree
    with it in tool, argument hash and outcome hash; a threshold above the window
    size therefore never reports. *)
Theorem stuck_detector_window `{PyRuntime} win threshold s obs tool args r :
  make_stuck_detector win threshold = Ok s ->
  let s' := foldl (fun s o => (_observe s o.1.1 o.1.2 o.2).1) s obs in
  let this := observation tool args (stuck_outcome r) in
  let seen := map (fun o => observation o.1.1 o.1.2 o.2) obs ++ [this] in
  (stuck_check s' tool args r).2 = (threshold <=? count_of this (slice_last win seen))%Z /\
  (win < threshold -> (stuck_check s' tool args r).2 = false)%Z.
Proof.
  intros Hs s' this seen. unfold make_stuck_detector in Hs.
  destruct (Z.ltb_spec win 1), (Z.ltb_spec threshold 1); try done. injection Hs as <-.
  destruct (observe_history {| window_size := win; repeat_threshold := threshold; _calls := [] |} obs []) as (Hcs & Hws & Hth);
    [simpl; lia | unfold slice_last, zdrop; simpl; by case_match; rewrite drop_nil|].
  fold s' in Hcs, Hws, Hth. simpl in Hcs, Hws, Hth.
  assert ((stuck_check s' tool args r).2 = (threshold <=? count_of this (slice_last win seen))%Z) as Heq.
  { unfold stuck_check. cbn [_observe snd]. fold this. rewrite Hws, Hth, Hcs.
    by rewrite slice_last_app by lia. }
  split; [done|]. intros Hlt. rewrite Heq. apply Z.leb_gt.
  assert (count_of this (slice_last win seen) <= zlen (slice_last win seen))%Z.
  { unfold count_of, zlen. pose proof (length_filter (fun x => x = this) (slice_last win seen)). lia. }
  rewrite zlen_slice_last in * by lia. lia.
Qed.

(** ** Witnesses *)

#[local] Instance budget_runtime : PyRuntime := decoding_runtime [].

Lemma run_budget_admits_exactly_witness :
  let b := {| _max_calls := Some 2%Z; _max_tokens := Some 100%Z; _used_calls := 0; _used_tokens := 0 |} in
  is_ok (budget_check (foldl budget_record b [[(u "input_tokens", JInt 60)]])) = true /\
  ~ is_ok (budget_check (foldl budget_record b [[(u "input_tokens", JInt 60)]; []])) = true.
Proof.
  pose (b := {| _max_calls := Some 2%Z; _max_tokens := Some 100%Z; _used_calls := 0; _used_tokens := 0 |}).
  split.
  - apply (run_budget_admits_exactly (Some 2%Z) (Some 100%Z) b [[(u "input_tokens", JInt 60)]] eq_refl).
    split; vm_compute; reflexivity.
  - intros H. apply (run_budget_admits_exactly (Some 2%Z) (Some 100%Z) b
      [[(u "input_tokens", JInt 60)]; []] eq_refl) in H.
    destruct H as [H _]. vm_compute in H. discriminate.
Defined.

Lemma spawn_budget_exact_witness :
  let reqs := [(u "a", u "ls"); (u "b", u "ls"); (u "a", u "cat")] in
  let '(b', admitted) := charge_all {| sb_max := 2; sb_used := 0; sb_per_agent := [] |} reqs in
  admitted = ztake 2 reqs /\ sb_used b' = Z.min 2 (zlen reqs) /\ (sb_used b' <= 2)%Z /\
  (spawn_exhausted b' = true <-> (2 <= zlen reqs)%Z) /\
  forall agent, default 0%Z (dict_get agent (calls_by_agent b')) = requests_of agent admitted.
Proof.
  exact (spawn_budget_exact 2 {| sb_max := 2; sb_used := 0; sb_per_agent := [] |}
    [(u "a", u "ls"); (u "b", u "ls"); (u "a", u "cat")] eq_refl).
Defined.

Lemma repetition_trips_exactly_witness :
  is_ok (repetition_record
    (foldl (fun b c => (repetition_record b c.1 c.2).1)
       {| rb_max := 1; _last_key := None; _count := 0 |}
       [(u "ls", JObj [(u "a", JInt 1); (u "b", JInt 2)])])
    (u "ls") (JObj [(u "b", JInt 2); (u "a", JInt 1)])).2 = false.
Proof.
  apply (repetition_trips_exactly 1 {| rb_max := 1; _last_key := None; _count := 0 |}
    [(u "ls", JObj [(u "a", JInt 1); (u "b", JInt 2)])] (u "ls") (JObj [(u "b", JInt 2); (u "a", JInt 1)]) eq_refl).
  vm_compute. reflexivity.
Defined.

Lemma stuck_detector_window_witness :
  let s := {| window_size := 2; repeat_threshold := 2; _calls := [] |} in
  let obs := [(u "ls", JObj [], stuck_outcome (output_result (JStr (u "x"))))] in
  (stuck_check (foldl (fun s o => (_observe s o.1.1 o.1.2 o.2).1) s obs) (u "ls") (JObj [])
     (output_result (JStr (u "x")))).2 = true.
Proof.
  pose (obs := [(u "ls", JObj [], stuck_outcome (output_result (JStr (u "x"))))]).
  destruct (stuck_detector_window 2 2 {| window_size := 2; repeat_threshold := 2; _calls := [] |} obs
    (u "ls") (JObj []) (output_result (JStr (u "x"))) eq_refl) as [H _].
  etransitivity; [exact H | vm_compute; reflexivity].
Defined.
