(* ===== verification/AgentState.v ===== *)
(** * The agent: state, environment and effects (kinetic_sdk/agent/agent.py, first part)

    An [Agent] method is a function from the agent's attributes and the world to
    an outcome and the new attributes and world ([A]). What the agent calls and
    the repository does not fix (the model client, tools, the classifier, planner,
    verifier, memory, stores, hooks, the clock, other threads) is the environment
    [AgentEnv]: an arbitrary step of an arbitrary world. The event bus is
    [EventSink]. *)

From stdpp Require Import base gmap strings list.
From Stdlib Require Import ZArith Lia SpecFloat.
From S2P Require Import Prelude Json Types TextCompact Conversation EventBus Redact Hooks Compaction Policy.
From S2P Require Import Budgets Structured.

(** ** What the environment answers *)

(** The flags other threads set ([_cancel_event], [_pause_event], [_inbox]).
    [pause_event] true means the loop may continue. *)
Record Control := { cancel_event : bool; pause_event : bool; inbox : list pystr }.

Record LLMRequest := { req_messages : list message; req_tools : option (list json); req_system : option pystr }.

Record Classification := {
  c_complexity : pystr;
  c_mode : AgentMode;
  c_confidence : pyfloat;
  c_rationale : pystr;
}.

(** How a stream ends: exhausted, [NotImplementedError], or another exception. *)
Inductive stream_end := StreamExhausted | StreamUnsupported | StreamRaised (e : pyexn).

(** A verifier's verdict: an object without a boolean [accepted], or the verdict
    with its feedback when that is a string. *)
Inductive verdict := InvalidVerdict | Verdict (accepted : bool) (feedback : option pystr).

(** What [tool.execute] does: return a [ToolResult], return something else,
    raise, or never return. *)
Inductive raw_outcome :=
| RawResult (r : ToolResult)
| RawValue (v : json)
| RawRaise (e : pyexn)
| RawNever.

(** Waiting for a submitted job: it finished (with the outcome of [execute] and
    its duration), the timeout expired, or it is awaited forever. *)
Inductive job_outcome :=
| JobDone (o : raw_outcome) (elapsed : pyfloat)
| JobTimedOut
| JobNever.

Inductive confirmation := Approved | Denied | NoHook.

#[export] Instance confirmation_eq_dec : EqDecision confirmation.
Proof. solve_decision. Defined.

Class AgentEnv (W : Type) := {
  control : W -> Control;
  set_control : Control -> W -> W;
  (** What other threads did since the flags were last looked at. *)
  interfere : W -> W;
  (** The world after the pause gate is opened, if it ever is. *)
  wait_resumed : W -> option W;
  llm_chat : LLMRequest -> W -> result LLMResponse * W;
  (** The text chunks and [done] responses a stream yields, and how it ends. *)
  llm_stream : LLMRequest -> W -> (list StreamEvent * stream_end) * W;
  classify : pystr -> W -> result Classification * W;
  (** [None]: the planner returned something that is not a [Plan]. *)
  create_plan : pystr -> list json -> W -> result (option Plan) * W;
  verify : pystr -> pystr -> option Plan -> W -> result verdict * W;
  memory_search : pystr -> Z -> W -> result (list pystr) * W;
  memory_add : pystr -> option pystr -> W -> result pystr * W;
  memory_clear_working : pystr -> W -> result unit * W;
  store_save : ConversationState -> W -> result unit * W;
  recorder_snapshot : ConversationState -> option pystr -> W -> result unit * W;
  (** [CheckpointManager.save]: the conversation, the run id and the runtime state. *)
  checkpoint_save : ConversationState -> option pystr -> jdict -> W -> result pystr * W;
  execute : Tool -> jdict -> W -> raw_outcome * W;
  job_start : nat -> Tool -> jdict -> W -> W;
  job_wait : nat -> option pyfloat -> W -> job_outcome * W;
  (** Which of these jobs have finished. *)
  jobs_finished : list nat -> W -> list nat * W;
  hooks_at : HookPoint -> W -> nat;
  run_hook : HookPoint -> HookContext -> W -> list HookResult * W;
  perf_counter : W -> pyfloat * W;
  monotonic : W -> pyfloat * W;
  sleep : pyfloat -> W -> W;
  uuid4 : W -> pystr * W;
  utcnow : W -> pystr * W;
}.

(** ** Configuration *)

Record Config := {
  tools : list (pystr * Tool);
  model_context_limit : Z;
  tool_timeout : option pyfloat;
  validate_tool_inputs : bool;
  parallel_tool_execution : bool;
  has_memory : bool;
  memory_recall_limit : Z;
  has_planner : bool;
  has_verifier : bool;
  max_verification_retries : Z;
  max_transient_retries : Z;
  transient_retry_backoff_seconds : pyfloat;
  has_injection_guard : bool;
  verification_required : bool;
  has_hooks : bool;
  has_checkpoint_manager : bool;
  has_state_store : bool;
  has_replay_recorder : bool;
  (** How many messages one drain of the inbox may take (see [_drain_inbox]). *)
  drain_bound : nat;
}.

Definition tool_slots : nat := 8.
Definition FLASH_ESCALATION_THRESHOLD : Z := 3.

Definition mode_max_iterations (m : AgentMode) : Z := match m with FLASH => 5 | MAX => 50 end.

(** ** Attributes *)

Record Routing := MkRouting {
  mode : AgentMode;
  enable_extended_reasoning : bool;
  max_iterations : Z;
  _max_iterations_override : option Z;
  _sticky_max : bool;
}.

Record Answering := MkAnswering {
  structured_output : option json;
  verification_evidence : option VerificationEvidence;
  _effective_verify : bool;
  plan : option Plan;
}.

Record Pending := { pc_call : ToolCall; pc_arguments : jdict; pc_decision : PermissionDecision }.

Record RunState := MkRun {
  _run_id : option pystr;
  _resuming_checkpoint : bool;
  _pending_confirmation : option Pending;
  _pending_remaining_calls : list ToolCall;
  _stop_reason : option pystr;
}.

(** [_tool_slots] is held as the jobs that occupy a slot. *)
Record Guards := MkGuards {
  usage_totals : UsageSnapshot;
  run_budget : option RunBudget;
  stuck_detector : option StuckDetector;
  _circuit_breakers : list (pystr * (Z * option pyfloat));
  running_jobs : list nat;
  next_job : nat;
}.

(** What the agent did, for the theorems; no operation reads it. *)
Inductive action :=
| ALlm
| ADecide (name : pystr) (arguments : jdict) (d : PermissionDecision) (c : confirmation)
| AHuman (name : pystr) (arguments : jdict)
| AExec (name : pystr) (arguments : jdict).

Record St (M W : Type) := MkSt {
  conv : ConversationState;
  manager : M;
  routing : Routing;
  answering : Answering;
  runst : RunState;
  guards : Guards;
  audit : list jdict;
  world : W;
  trace : list action;
}.
Arguments MkSt {M W}.
Arguments conv {M W}.
Arguments manager {M W}.
Arguments routing {M W}.
Arguments answering {M W}.
Arguments runst {M W}.
Arguments guards {M W}.
Arguments audit {M W}.
Arguments world {M W}.
Arguments trace {M W}.

(** ** Exceptions and outcomes *)

Inductive aexn :=
| EPy (e : pyexn)
| EPending (c : Pending) (checkpoint_id : pystr)
| ENotVerified (answer feedback : pystr).

(** [Blocked]: the call never returns. [NoFuel] is an artefact of the loop's
    measure and is proved not to occur. *)
Inductive outcome (T : Type) :=
| Ret (x : T)
| Raise (e : aexn)
| Blocked
| NoFuel.
Arguments Ret {T}.
Arguments Raise {T}.
Arguments Blocked {T}.
Arguments NoFuel {T}.

Definition A (M W T : Type) : Type := St M W -> outcome T * St M W.

Definition exn_text (e : aexn) : pystr :=
  match e with
  | EPy e => exn_msg e
  | EPending c _ => u "Confirmation pending for tool " ++ tc_name (pc_call c)
  | ENotVerified _ _ => u "The final answer was rejected by the answer verifier."
  end.

Definition exn_class (e : aexn) : pystr :=
  match e with
  | EPy e => exn_type e
  | EPending _ _ => u "PendingConfirmationError"
  | ENotVerified _ _ => u "AnswerNotVerifiedError"
  end.

#[export] Instance a_ret {M W} : MRet (A M W) := fun T x s => (Ret x, s).

#[export] Instance a_bind {M W} : MBind (A M W) := fun T U f m s =>
  match m s with
  | (Ret x, s') => f x s'
  | (Raise e, s') => (Raise e, s')
  | (Blocked, s') => (Blocked, s')
  | (NoFuel, s') => (NoFuel, s')
  end.

Section Primitives.
Context {M W : Type}.
Implicit Types s : St M W.

Definition throw {T} (e : aexn) : A M W T := fun s => (Raise e, s).
Definition block {T} : A M W T := fun s => (Blocked, s).
Definition no_fuel {T} : A M W T := fun s => (NoFuel, s).

(** [try: m except: handler]. *)
Definition catch {T} (m : A M W T) (handler : aexn -> A M W T) : A M W T := fun s =>
  match m s with
  | (Raise e, s') => handler e s'
  | r => r
  end.

Definition gets {T} (f : St M W -> T) : A M W T := fun s => (Ret (f s), s).
Definition modify (f : St M W -> St M W) : A M W unit := fun s => (Ret tt, f s).

Definition lift {T} (r : result T) : A M W T :=
  match r with Ok x => mret x | Err e => throw (EPy e) end.

(** ** Attribute assignment *)

Definition set_conv (c : ConversationState) s : St M W :=
  MkSt c (manager s) (routing s) (answering s) (runst s) (guards s) (audit s) (world s) (trace s).
Definition set_manager (m : M) s : St M W :=
  MkSt (conv s) m (routing s) (answering s) (runst s) (guards s) (audit s) (world s) (trace s).
Definition set_routing (r : Routing) s : St M W :=
  MkSt (conv s) (manager s) r (answering s) (runst s) (guards s) (audit s) (world s) (trace s).
Definition set_answering (a : Answering) s : St M W :=
  MkSt (conv s) (manager s) (routing s) a (runst s) (guards s) (audit s) (world s) (trace s).
Definition set_runst (r : RunState) s : St M W :=
  MkSt (conv s) (manager s) (routing s) (answering s) r (guards s) (audit s) (world s) (trace s).
Definition set_guards (g : Guards) s : St M W :=
  MkSt (conv s) (manager s) (routing s) (answering s) (runst s) g (audit s) (world s) (trace s).
Definition set_audit (l : list jdict) s : St M W :=
  MkSt (conv s) (manager s) (routing s) (answering s) (runst s) (guards s) l (world s) (trace s).
Definition set_world (w : W) s : St M W :=
  MkSt (conv s) (manager s) (routing s) (answering s) (runst s) (guards s) (audit s) w (trace s).
Definition note (a : action) s : St M W :=
  MkSt (conv s) (manager s) (routing s) (answering s) (runst s) (guards s) (audit s) (world s) (trace s ++ [a]).

(** A step of the environment, and one that may raise. *)
Definition env {T} (f : W -> T * W) : A M W T := fun s =>
  let '(x, w) := f (world s) in (Ret x, set_world w s).
Definition env_ (f : W -> W) : A M W unit := fun s => (Ret tt, set_world (f (world s)) s).
Definition log (a : action) : A M W unit := modify (note a).
End Primitives.

Definition set_mode (m : AgentMode) (r : Routing) : Routing :=
  MkRouting m (enable_extended_reasoning r) (max_iterations r) (_max_iterations_override r) (_sticky_max r).
Definition set_reasoning (b : bool) (r : Routing) : Routing :=
  MkRouting (mode r) b (max_iterations r) (_max_iterations_override r) (_sticky_max r).
Definition set_max_iterations (n : Z) (r : Routing) : Routing :=
  MkRouting (mode r) (enable_extended_reasoning r) n (_max_iterations_override r) (_sticky_max r).
Definition set_sticky (b : bool) (r : Routing) : Routing :=
  MkRouting (mode r) (enable_extended_reasoning r) (max_iterations r) (_max_iterations_override r) b.

Definition set_structured_output (v : option json) (a : Answering) : Answering :=
  MkAnswering v (verification_evidence a) (_effective_verify a) (plan a).
Definition set_evidence (e : option VerificationEvidence) (a : Answering) : Answering :=
  MkAnswering (structured_output a) e (_effective_verify a) (plan a).
Definition set_effective_verify (b : bool) (a : Answering) : Answering :=
  MkAnswering (structured_output a) (verification_evidence a) b (plan a).
Definition set_plan (p : option Plan) (a : Answering) : Answering :=
  MkAnswering (structured_output a) (verification_evidence a) (_effective_verify a) p.

Definition set_run_id (i : option pystr) (r : RunState) : RunState :=
  MkRun i (_resuming_checkpoint r) (_pending_confirmation r) (_pending_remaining_calls r) (_stop_reason r).
Definition set_resuming (b : bool) (r : RunState) : RunState :=
  MkRun (_run_id r) b (_pending_confirmation r) (_pending_remaining_calls r) (_stop_reason r).
Definition set_pending (p : option Pending) (r : RunState) : RunState :=
  MkRun (_run_id r) (_resuming_checkpoint r) p (_pending_remaining_calls r) (_stop_reason r).
Definition set_remaining_calls (l : list ToolCall) (r : RunState) : RunState :=
  MkRun (_run_id r) (_resuming_checkpoint r) (_pending_confirmation r) l (_stop_reason r).
Definition set_stop_reason (x : option pystr) (r : RunState) : RunState :=
  MkRun (_run_id r) (_resuming_checkpoint r) (_pending_confirmation r) (_pending_remaining_calls r) x.

Definition set_usage (x : UsageSnapshot) (g : Guards) : Guards :=
  MkGuards x (run_budget g) (stuck_detector g) (_circuit_breakers g) (running_jobs g) (next_job g).
Definition set_budget (b : option RunBudget) (g : Guards) : Guards :=
  MkGuards (usage_totals g) b (stuck_detector g) (_circuit_breakers g) (running_jobs g) (next_job g).
Definition set_stuck (d : option StuckDetector) (g : Guards) : Guards :=
  MkGuards (usage_totals g) (run_budget g) d (_circuit_breakers g) (running_jobs g) (next_job g).
Definition set_breakers (b : list (pystr * (Z * option pyfloat))) (g : Guards) : Guards :=
  MkGuards (usage_totals g) (run_budget g) (stuck_detector g) b (running_jobs g) (next_job g).
Definition set_jobs (l : list nat) (n : nat) (g : Guards) : Guards :=
  MkGuards (usage_totals g) (run_budget g) (stuck_detector g) (_circuit_breakers g) l n.

Section Updates.
Context {M W : Type}.

Definition upd_conv (f : ConversationState -> ConversationState) : A M W unit :=
  modify (fun s => set_conv (f (conv s)) s).
Definition upd_routing (f : Routing -> Routing) : A M W unit :=
  modify (fun s => set_routing (f (routing s)) s).
Definition upd_answering (f : Answering -> Answering) : A M W unit :=
  modify (fun s => set_answering (f (answering s)) s).
Definition upd_run (f : RunState -> RunState) : A M W unit :=
  modify (fun s => set_runst (f (runst s)) s).
Definition upd_guards (f : Guards -> Guards) : A M W unit :=
  modify (fun s => set_guards (f (guards s)) s).

Definition when (b : bool) (m : A M W unit) : A M W unit := if b then m else mret tt.
End Updates.
