(* ===== verification/AgentTools.v ===== *)
(** * The agent: one tool call (kinetic_sdk/agent/agent.py, second part)

    Gating ([_prepare_call]), execution with timeouts, retries and circuit
    breakers, and the recording of results, sequentially and through the thread
    pool. *)

From stdpp Require Import base gmap strings list.
From Stdlib Require Import ZArith Lia SpecFloat.
From S2P Require Import Prelude Json Types Validation TextCompact Conversation EventBus Redact Hooks.
From S2P Require Import Compaction Policy Budgets Structured AgentState.

Section Agent.
Context `{PyRuntime} `{SecretPatterns} {M W : Type} `{EventSink W} `{AgentEnv W} `{PermissionPolicy}.
Variable cfg : Config.

Abbreviation AM := (A M W).

(** ** Events, clocks, hooks *)

Definition opt_float (o : option pyfloat) : json := match o with Some f => JFloat f | None => JNull end.

Definition _emit (event_type : pystr) (payload : jdict) : AM unit :=
  id ← gets (fun s => _run_id (runst s));
  let payload := match id with Some i => dict_set (u "run_id") (JStr i) payload | None => payload end in
  env_ (publish_to {| e_type := event_type; e_payload := payload; e_source := Some (u "agent") |}).

Definition _trigger_hooks (p : HookPoint) (ctx : HookContext) : AM (list HookResult) :=
  if has_hooks cfg then env (run_hook p ctx) else mret [].

Definition context_of (p : HookPoint) : AM HookContext :=
  id ← gets (fun s => _run_id (runst s)); mret (hook_context p id).

Definition with_tool (ctx : HookContext) (name : pystr) (input : jdict) : HookContext := {|
  hc_point := hc_point ctx; hc_run_id := hc_run_id ctx; hc_user_message := hc_user_message ctx;
  hc_final_text := hc_final_text ctx; hc_iteration := hc_iteration ctx; hc_tool_name := Some name;
  hc_tool_input := Some input; hc_tool_result := hc_tool_result ctx;
  hc_permission_decision := hc_permission_decision ctx; hc_llm_response := hc_llm_response ctx;
  hc_error := hc_error ctx |}.

Definition with_result (ctx : HookContext) (r : ToolResult) : HookContext := {|
  hc_point := hc_point ctx; hc_run_id := hc_run_id ctx; hc_user_message := hc_user_message ctx;
  hc_final_text := hc_final_text ctx; hc_iteration := hc_iteration ctx; hc_tool_name := hc_tool_name ctx;
  hc_tool_input := hc_tool_input ctx; hc_tool_result := Some r;
  hc_permission_decision := hc_permission_decision ctx; hc_llm_response := hc_llm_response ctx;
  hc_error := hc_error ctx |}.

Definition with_decision (ctx : HookContext) (d : PermissionDecision) : HookContext := {|
  hc_point := hc_point ctx; hc_run_id := hc_run_id ctx; hc_user_message := hc_user_message ctx;
  hc_final_text := hc_final_text ctx; hc_iteration := hc_iteration ctx; hc_tool_name := hc_tool_name ctx;
  hc_tool_input := hc_tool_input ctx; hc_tool_result := hc_tool_result ctx;
  hc_permission_decision := Some d; hc_llm_response := hc_llm_response ctx; hc_error := hc_error ctx |}.

(** [self._cancel_event.is_set()]. *)
Definition is_cancelled : AM bool :=
  env_ interfere;; c ← gets (fun s => cancel_event (control (world s))); mret c.

(** ** The audit log ([InMemoryAuditLogger]) *)

Definition record_audit (entry : pystr -> pystr -> jdict) : AM unit :=
  now ← env utcnow; id ← env uuid4;
  modify (fun s => set_audit (_record (audit s) (entry id now)) s).

Definition audit_call (name : pystr) (input : jdict) (d : PermissionDecision) : AM unit :=
  record_audit (fun id now => log_tool_call id now name input (allowed d) (reason d) (requires_confirmation d)).

Definition audit_result (name : pystr) (r : ToolResult) : AM unit :=
  record_audit (fun id now => log_tool_result id now name (is_error r) (output r) (opt_str (error r))).

(** ** Formatting *)

Definition _preview (s : pystr) : pystr := if (zlen s <=? 200)%Z then s else slice_to 200 s ++ u "...".

Definition _format_tool_output (r : ToolResult) : pystr :=
  if is_error r then json_dumps dumps_default (JObj [(u "error", opt_str (error r))])
  else match output r with JStr s => s | payload => json_dumps dumps_default payload end.

Definition _tool_output_for_state (call : ToolCall) (r : ToolResult) : pystr :=
  let out := _format_tool_output r in
  if has_injection_guard cfg then wrap out (u "tool:" ++ tc_name call) else out.

Definition repr (s : pystr) : pystr := py_repr (JStr s).

Definition result_message (call : ToolCall) (r : ToolResult) : message :=
  tool_result_message (tc_id call) (JStr (_tool_output_for_state call r)) (is_error r).

(** [self.state.add_tool_result(call.id, self._tool_output_for_state(call, r), is_error=...)]. *)
Definition add_result (call : ToolCall) (r : ToolResult) : AM unit :=
  upd_conv (fun st => add_tool_result st (tc_id call) (JStr (_tool_output_for_state call r)) (is_error r)).

Definition _emit_tool_call_finished (call : ToolCall) (r : ToolResult) : AM unit :=
  _emit (u "agent.tool_call_finished")
    [(u "name", JStr (tc_name call)); (u "id", JStr (tc_id call)); (u "is_error", JBool (is_error r));
     (u "output_preview", JStr (redact_secrets (_preview (py_str (output r)))));
     (u "duration_seconds", opt_float (duration_seconds r)); (u "artifacts", JList (map JStr (artifacts r)))];;
  det ← gets (fun s => stuck_detector (guards s));
  match det with
  | None => mret tt
  | Some d =>
    let '(d', stuck) := stuck_check d (tc_name call) (JObj (tc_arguments call)) r in
    upd_guards (set_stuck (Some d'));;
    when stuck (
      _emit (u "agent.stuck_detected") [(u "tool_name", JStr (tc_name call)); (u "window", window d')];;
      upd_run (set_stop_reason (Some (u "unproductive_loop"))))
  end.

Definition _deny_call (call : ToolCall) (why : pystr) (tool_input : jdict) : AM ToolResult :=
  record_audit (fun id now => log_permission_denied id now (tc_name call) tool_input why);;
  _emit (u "security.permission_denied")
    [(u "name", JStr (tc_name call)); (u "id", JStr (tc_id call)); (u "reason", JStr why);
     (u "input_preview", JStr (redact_secrets (_preview (py_str (JObj tool_input)))))];;
  mret (error_result (u "Permission denied for tool " ++ repr (tc_name call) ++ u ": " ++ why)).

(** ** Circuit breakers *)

Definition _tool_timeout (t : Tool) : option pyfloat :=
  match execution_policy t with
  | Some p => match timeout_seconds p with Some f => Some f | None => tool_timeout cfg end
  | None => tool_timeout cfg
  end.

Definition _max_transient_retries (t : Tool) : Z :=
  match execution_policy t with
  | Some p => default (max_transient_retries cfg) (p_max_transient_retries p)
  | None => max_transient_retries cfg
  end.

Definition _circuit_is_open (t : Tool) : AM bool :=
  match execution_policy t with
  | None => mret false
  | Some p =>
    match circuit_breaker_threshold p with
    | None => mret false
    | Some _ =>
      b ← gets (fun s => dict_get (t_name t) (_circuit_breakers (guards s)));
      match (default (0%Z, None) b).2 with
      | None => mret false
      | Some open_until =>
        now ← env monotonic;
        if fl_lt now open_until then mret true
        else
          upd_guards (fun g => set_breakers (dict_set (t_name t) (0%Z, None) (_circuit_breakers g)) g);;
          mret false
      end
    end
  end.

Definition _record_circuit_result (name : pystr) (t : Tool) (r : ToolResult) : AM unit :=
  match execution_policy t with
  | None => mret tt
  | Some p =>
    match circuit_breaker_threshold p with
    | None => mret tt
    | Some threshold =>
      if negb (is_error r)
      then upd_guards (fun g => set_breakers (dict_set name (0%Z, None) (_circuit_breakers g)) g)
      else
        b ← gets (fun s => dict_get name (_circuit_breakers (guards s)));
        let failures := ((default (0%Z, None) b).1 + 1)%Z in
        if (threshold <=? failures)%Z
        then
          now ← env monotonic;
          upd_guards (fun g => set_breakers
            (dict_set name (failures, Some (fl_add now (circuit_breaker_cooldown_seconds p)))
               (_circuit_breakers g)) g)
        else upd_guards (fun g => set_breakers (dict_set name (failures, None) (_circuit_breakers g)) g)
    end
  end.

(** ** Execution *)

Definition _needs_idempotency_key (t : Tool) : bool :=
  match risk_level t with Some WRITE | Some DESTRUCTIVE => true | _ => false end.

Definition _idempotency_key (run_id : option pystr) (t : Tool) (arguments : jdict) : pystr :=
  sha256_hexdigest (json_dumps dumps_compact
    (JObj [(u "tool", JStr (t_name t)); (u "arguments", JObj arguments); (u "run_id", opt_str run_id)])).

(** The keyword arguments [_invoke_tool] passes. *)
Definition tool_kwargs (run_id : option pystr) (t : Tool) (arguments : jdict) : jdict :=
  if accepts_idempotency_key t && _needs_idempotency_key t
  then dict_set (u "idempotency_key") (JStr (_idempotency_key run_id t arguments)) arguments
  else arguments.

(** The result [_invoke_tool] builds from what [execute] did; [None] when it
    never returns. *)
Definition normalise (o : raw_outcome) (elapsed : pyfloat) : option ToolResult :=
  match o with
  | RawResult r => Some (set_duration r elapsed)
  | RawValue v => Some (set_duration (output_result v) elapsed)
  | RawRaise e => Some (set_duration (error_result (describe e)) elapsed)
  | RawNever => None
  end.


Definition returned (r : option ToolResult) : AM ToolResult :=
  match r with Some r => mret r | None => block end.

(** Called on the loop's thread. *)
Definition _invoke_tool (t : Tool) (arguments : jdict) : AM ToolResult :=
  started ← env perf_counter;
  id ← gets (fun s => _run_id (runst s));
  log (AExec (t_name t) arguments);;
  o ← env (execute t (tool_kwargs id t arguments));
  finished ← env perf_counter;
  returned (normalise o (fl_sub finished started)).

(** [_submit_timed_tool]: a slot is held until the job finishes. *)
Definition _submit_timed_tool (t : Tool) (arguments : jdict) : AM (option nat) :=
  g ← gets guards;
  done ← env (jobs_finished (running_jobs g));
  let busy := filter (fun j => j ∉ done) (running_jobs g) in
  if (tool_slots <=? length busy)%nat
  then upd_guards (set_jobs busy (next_job g));; mret None
  else
    id ← gets (fun s => _run_id (runst s));
    upd_guards (set_jobs (next_job g :: busy) (S (next_job g)));;
    log (AExec (t_name t) arguments);;
    env_ (job_start (next_job g) t (tool_kwargs id t arguments));;
    mret (Some (next_job g)).

(** [future.result(timeout=...)]; a finished job has released its slot. *)
Definition await_job (job : nat) (timeout : option pyfloat) : AM (option ToolResult) :=
  o ← env (job_wait job timeout);
  match o with
  | JobDone raw elapsed =>
      upd_guards (fun g => set_jobs (filter (fun j => j <> job) (running_jobs g)) (next_job g) g);;
      match normalise raw elapsed with Some r => mret (Some r) | None => block end
  | JobTimedOut => match timeout with Some _ => mret None | None => block end
  | JobNever => block
  end.

Definition capacity_exhausted : ToolResult := error_result (u "tool execution capacity exhausted").

Definition timed_out (name timeout tail : pystr) (elapsed : pyfloat) : ToolResult :=
  set_duration (error_result (u "Tool " ++ repr name ++ u " timed out after " ++ timeout ++ u "s " ++ tail)) elapsed.

Definition show_timeout (t : option pyfloat) : pystr := match t with Some f => float_repr f | None => u "None" end.

Definition _run_tool (t : Tool) (arguments : jdict) : AM ToolResult :=
  match _tool_timeout t with
  | None => _invoke_tool t arguments
  | Some timeout =>
    job ← _submit_timed_tool t arguments;
    match job with
    | None => mret capacity_exhausted
    | Some j =>
      started ← env perf_counter;
      r ← await_job j (Some timeout);
      match r with
      | Some r => mret r
      | None =>
        now ← env perf_counter;
        mret (timed_out (t_name t) (float_repr timeout)
          (u "(the call may still be running in the background; capacity is bounded)") (fl_sub now started))
      end
    end
  end.

Definition retryable (r : ToolResult) : bool :=
  is_error r && bool_decide (failure_category r = Some TRANSIENT).

(** The loop of [_retry_transient_tool]; [left] is the number of retries still
    allowed, [_max_transient_retries - retries]. *)
Fixpoint retry_loop (left : nat) (retries : Z) (call : ToolCall) (t : Tool) (arguments : jdict)
    (r : ToolResult) : AM ToolResult :=
  if retryable r then
    match left with
    | O => mret r
    | S left' =>
      cancelled ← is_cancelled;
      if cancelled : bool then mret r
      else
        let attempt := (retries + 1)%Z in
        let delay := fl_mul (transient_retry_backoff_seconds cfg) (fl_of_Z (2 ^ retries)) in
        _emit (u "agent.tool_retry")
          [(u "name", JStr (tc_name call)); (u "id", JStr (tc_id call)); (u "attempt", JInt attempt);
           (u "delay_seconds", JFloat delay)];;
        when (truthy (JFloat delay)) (env_ (sleep delay));;
        r' ← _run_tool t arguments;
        retry_loop left' attempt call t arguments r'
    end
  else mret r.

Definition _retry_transient_tool (call : ToolCall) (t : Tool) (arguments : jdict) (r : ToolResult) : AM ToolResult :=
  retry_loop (Z.to_nat (_max_transient_retries t)) 0 call t arguments r.

Definition _finalize_call (call : ToolCall) (t : Tool) (arguments : jdict) (r : ToolResult) : AM unit :=
  audit_result (tc_name call) r;;
  _record_circuit_result (tc_name call) t r;;
  ctx ← context_of AFTER_TOOL_CALL;
  _trigger_hooks AFTER_TOOL_CALL (with_result (with_tool ctx (tc_name call) arguments) r);;
  mret tt.

(** ** Gating *)

Definition _confirmation_status (call : ToolCall) (arguments : jdict) (d : PermissionDecision) : AM confirmation :=
  if negb (has_hooks cfg) then mret NoHook
  else
    n ← gets (fun s => hooks_at ON_PERMISSION_CHECK (world s));
    if (n =? 0)%nat then mret NoHook
    else
      ctx ← context_of ON_PERMISSION_CHECK;
      results ← _trigger_hooks ON_PERMISSION_CHECK (with_decision (with_tool ctx (tc_name call) arguments) d);
      mret (if existsb should_continue results then Approved
            else if existsb (fun r => negb (should_continue r)) results then Denied
            else NoHook).

(** The last replacement of the input among the hook results. *)
Definition replaced_input (arguments : jdict) (results : list HookResult) : jdict :=
  foldl (fun args r =>
    match modified_context r with
    | Some d => match dict_get (u "tool_input") d with Some (JObj i) => i | _ => args end
    | None => args
    end) arguments results.

Definition call_to_json (c : ToolCall) : json :=
  JObj [(u "id", JStr (tc_id c)); (u "name", JStr (tc_name c)); (u "arguments", JObj (tc_arguments c))].

Definition _checkpoint_runtime_state (r : Routing) (rs : RunState) : jdict :=
  [(u "mode", JStr (mode_value (mode r))); (u "sticky_max", JBool (_sticky_max r));
   (u "max_iterations", JInt (max_iterations r));
   (u "max_iterations_override", opt_int (_max_iterations_override r));
   (u "enable_extended_reasoning", JBool (enable_extended_reasoning r));
   (u "pending_confirmation",
      match _pending_confirmation rs with
      | None => JNull
      | Some p => JObj
          [(u "call", call_to_json (pc_call p)); (u "arguments", JObj (pc_arguments p));
           (u "decision", JObj [(u "allowed", JBool (allowed (pc_decision p)));
              (u "reason", JStr (reason (pc_decision p)));
              (u "requires_confirmation", JBool (requires_confirmation (pc_decision p)))])]
      end);
   (u "pending_remaining_calls", JList (map call_to_json (_pending_remaining_calls rs)))].

(** [self.checkpoint_manager.save(self)]. *)
Definition save_checkpoint : AM pystr :=
  s ← gets id;
  r ← env (checkpoint_save (conv s) (_run_id (runst s)) (_checkpoint_runtime_state (routing s) (runst s)));
  lift r.

Definition _save_pending_confirmation_checkpoint : AM unit :=
  when (has_checkpoint_manager cfg) (save_checkpoint;; mret tt).

(** The outcome of gating: the tool and its arguments, or an early result. *)
Inductive prepared :=
| Ready (t : Tool) (arguments : jdict)
| Early (arguments : jdict) (r : ToolResult).

Definition _before_hooks (call : ToolCall) : AM (option jdict) :=
  if has_hooks cfg then
    ctx ← context_of BEFORE_TOOL_CALL;
    results ← _trigger_hooks BEFORE_TOOL_CALL (with_tool ctx (tc_name call) (tc_arguments call));
    mret (if existsb (fun r => negb (should_continue r)) results then None
          else Some (replaced_input (tc_arguments call) results))
  else mret (Some (tc_arguments call)).

(** The checks after the policy: unknown tool, open circuit, invalid input. *)
Definition _admit (call : ToolCall) (arguments : jdict) : AM prepared :=
  match dict_get (tc_name call) (tools cfg) with
  | None => mret (Early arguments (error_result (u "Unknown tool: " ++ tc_name call)))
  | Some t =>
    opened ← _circuit_is_open t;
    if opened : bool then
      mret (Early arguments (set_category
        (error_result (u "Circuit breaker open for tool " ++ repr (tc_name call))) PERMANENT))
    else if validate_tool_inputs cfg then
      problems ← lift (validate_tool_input (t_parameters t) (JObj arguments));
      match problems with
      | [] => mret (Ready t arguments)
      | _ =>
        let r := error_result (u "invalid tool input: " ++ join (u "; ") problems) in
        audit_result (tc_name call) r;;
        mret (Early arguments r)
      end
    else mret (Ready t arguments)
  end.

Definition _prepare_call (call : ToolCall) : AM prepared :=
  input ← _before_hooks call;
  match input with
  | None => mret (Early (tc_arguments call)
      (error_result (u "Tool call " ++ repr (tc_name call) ++ u " cancelled by a before_tool_call hook")))
  | Some arguments =>
    d ← lift (check (tc_name call) arguments);
    audit_call (tc_name call) arguments d;;
    if negb (allowed d)
    then r ← _deny_call call (reason d) arguments; mret (Early arguments r)
    else
      c ← _confirmation_status call arguments d;
      log (ADecide (tc_name call) arguments d c);;
      if requires_confirmation d && bool_decide (c = NoHook) && has_checkpoint_manager cfg
      then
        let p := {| pc_call := call; pc_arguments := arguments; pc_decision := d |} in
        upd_run (set_pending (Some p));;
        id ← save_checkpoint;
        throw (EPending p id)
      else if requires_confirmation d && negb (bool_decide (c = Approved))
      then
        r ← _deny_call call
          (u "requires manual confirmation, not yet supported in automated mode (" ++ reason d ++ u ")") arguments;
        mret (Early arguments r)
      else _admit call arguments
  end.

Definition _execute_one (call : ToolCall) : AM ToolResult :=
  p ← _prepare_call call;
  match p with
  | Early _ r => mret r
  | Ready t arguments =>
    r ← _run_tool t arguments;
    r ← _retry_transient_tool call t arguments r;
    _finalize_call call t arguments r;;
    mret r
  end.

(** ** Batches *)

Definition skipped : ToolResult := error_result (u "skipped: run cancelled").

Definition pending_handler (rest : list ToolCall) (before : AM unit) {T} (e : aexn) : AM T :=
  match e with
  | EPending _ _ =>
    before;;
    upd_run (set_remaining_calls rest);;
    _save_pending_confirmation_checkpoint;;
    throw e
  | _ => throw e
  end.

Fixpoint execute_sequentially (calls : list ToolCall) (any_error : bool) : AM bool :=
  match calls with
  | [] => mret any_error
  | call :: calls' =>
    cancelled ← is_cancelled;
    if cancelled : bool then
      add_result call skipped;;
      execute_sequentially calls' true
    else
      _emit (u "agent.tool_call_started") [(u "name", JStr (tc_name call)); (u "id", JStr (tc_id call))];;
      r ← catch (_execute_one call) (pending_handler calls (mret tt));
      _emit_tool_call_finished call r;;
      add_result call r;;
      execute_sequentially calls' (any_error || is_error r)
  end.

(** The gated calls of a parallel batch, one entry per call in order. *)
Inductive slot :=
| SlotSkipped
| SlotEarly (r : ToolResult)
| SlotPending (t : Tool) (arguments : jdict).

(** A submitted slot: what it waits for. *)
Inductive flight :=
| FlightDone (early_skipped : bool) (r : ToolResult)
| FlightRefused (t : Tool) (arguments : jdict)
| FlightJob (t : Tool) (arguments : jdict) (job : nat) (started : pyfloat).

Inductive landed :=
| LandedEarly (was_skipped : bool) (r : ToolResult)
| LandedRun (t : Tool) (arguments : jdict) (r : ToolResult).

Definition _submit_slot (sl : slot) : AM flight :=
  match sl with
  | SlotSkipped => mret (FlightDone true skipped)
  | SlotEarly r => mret (FlightDone false r)
  | SlotPending t arguments =>
    job ← _submit_timed_tool t arguments;
    match job with
    | None => mret (FlightRefused t arguments)
    | Some j => started ← env perf_counter; mret (FlightJob t arguments j started)
    end
  end.

Definition _collect_flight (cf : ToolCall * flight) : AM landed :=
  let '(call, f) := cf in
  match f with
  | FlightDone sk r => mret (LandedEarly sk r)
  | FlightRefused t arguments => mret (LandedRun t arguments capacity_exhausted)
  | FlightJob t arguments j started =>
    r ← await_job j (_tool_timeout t);
    match r with
    | Some r => mret (LandedRun t arguments r)
    | None =>
      now ← env perf_counter;
      mret (LandedRun t arguments (timed_out (tc_name call) (show_timeout (_tool_timeout t))
        (u "(the call may still be running in the background)") (fl_sub now started)))
    end
  end.

Definition _record_landed (cl : ToolCall * landed) : AM bool :=
  let '(call, l) := cl in
  match l with
  | LandedEarly sk r =>
    when (negb sk) (_emit_tool_call_finished call r);;
    add_result call r;;
    mret (is_error r)
  | LandedRun t arguments r =>
    r ← _retry_transient_tool call t arguments r;
    _finalize_call call t arguments r;;
    _emit_tool_call_finished call r;;
    add_result call r;;
    mret (is_error r)
  end.

Fixpoint traverse {T U} (f : T -> AM U) (l : list T) : AM (list U) :=
  match l with
  | [] => mret []
  | x :: l' => y ← f x; ys ← traverse f l'; mret (y :: ys)
  end.

Definition _dispatch_and_record (calls : list ToolCall) (slots : list slot) : AM bool :=
  flights ← traverse _submit_slot slots;
  results ← traverse _collect_flight (zip calls flights);
  errs ← traverse _record_landed (zip calls results);
  mret (existsb id errs).

(** The gating loop; [done] and [slots] are the calls already gated. *)
Fixpoint gate_batch (done : list ToolCall) (slots : list slot) (calls : list ToolCall) : AM (list slot) :=
  match calls with
  | [] => mret slots
  | call :: calls' =>
    cancelled ← is_cancelled;
    if cancelled : bool then gate_batch (done ++ [call]) (slots ++ [SlotSkipped]) calls'
    else
      _emit (u "agent.tool_call_started") [(u "name", JStr (tc_name call)); (u "id", JStr (tc_id call))];;
      p ← catch (_prepare_call call)
        (pending_handler calls (_dispatch_and_record done slots;; mret tt));
      gate_batch (done ++ [call])
        (slots ++ [match p with Early _ r => SlotEarly r | Ready t arguments => SlotPending t arguments end]) calls'
  end.

Definition _execute_tool_calls_parallel (calls : list ToolCall) : AM bool :=
  slots ← gate_batch [] [] calls;
  _dispatch_and_record calls slots.

Definition _execute_tool_calls (calls : list ToolCall) : AM bool :=
  if parallel_tool_execution cfg && (1 <? zlen calls)%Z
  then _execute_tool_calls_parallel calls
  else execute_sequentially calls false.

(** ** Human verdicts *)

Definition _persist_state : AM unit :=
  when (has_state_store cfg) (
    s ← gets id; r ← env (store_save (conv s));
    match r with
    | Ok _ => mret tt
    | Err e => _emit (u "agent.state_persist_failed") [(u "error", JStr (redact_secrets (describe e)))]
    end);;
  when (has_replay_recorder cfg) (
    s ← gets id; r ← env (recorder_snapshot (conv s) (_run_id (runst s)));
    match r with
    | Ok _ => mret tt
    | Err e => _emit (u "agent.replay_persist_failed") [(u "error", JStr (redact_secrets (describe e)))]
    end).

Definition _resolve_pending_confirmation (approved : bool) : AM unit :=
  p ← gets (fun s => _pending_confirmation (runst s));
  match p with
  | None => throw (EPy (value_error (u "Checkpoint has no pending confirmation")))
  | Some p =>
    let call := pc_call p in
    let arguments := pc_arguments p in
    upd_run (set_pending None);;
    r ← (if approved then
           match dict_get (tc_name call) (tools cfg) with
           | Some t =>
             log (AHuman (tc_name call) arguments);;
             r ← _run_tool t arguments;
             r ← _retry_transient_tool call t arguments r;
             _finalize_call call t arguments r;;
             mret r
           | None => mret (error_result (u "Unknown tool: " ++ tc_name call))
           end
         else _deny_call call (u "confirmation declined by user") arguments);
    _emit_tool_call_finished call r;;
    add_result call r;;
    remaining ← gets (fun s => _pending_remaining_calls (runst s));
    upd_run (set_remaining_calls []);;
    let remaining :=
      match remaining with
      | c :: rest => if bool_decide (tc_id c = tc_id call) then rest else remaining
      | [] => []
      end in
    when (negb (bool_decide (remaining = []))) (_execute_tool_calls remaining;; mret tt);;
    _persist_state
  end.
End Agent.
