(* ===== verification/AgentLoop.v ===== *)
(** * The agent: the run loop (kinetic_sdk/agent/agent.py, third part)

    Routing, memory, planning, model calls, structured answers, verification, the
    tool-calling loop and [run]. The loop's fuel is the number of iterations the
    cap can still allow; [AgentBounds] proves it is never used up. *)

From stdpp Require Import base gmap strings list.
From Stdlib Require Import ZArith Lia SpecFloat.
From S2P Require Import Prelude Json Types Validation TextCompact Summary Conversation EventBus Redact Hooks.
From S2P Require Import Compaction Policy Budgets Structured AgentState AgentTools.

Section Agent.
Context `{PyRuntime} `{SecretPatterns} {M W : Type} (cm : ContextManager M W)
  `{EventSink W} `{AgentEnv W} `{PermissionPolicy}.
Variable cfg : Config.

Abbreviation AM := (A M W).

Definition with_iteration (ctx : HookContext) (i : Z) (message : option pystr) : HookContext := {|
  hc_point := hc_point ctx; hc_run_id := hc_run_id ctx; hc_user_message := message;
  hc_final_text := None; hc_iteration := Some i; hc_tool_name := None; hc_tool_input := None;
  hc_tool_result := None; hc_permission_decision := None; hc_llm_response := None; hc_error := None |}.

Definition with_response (ctx : HookContext) (i : Z) (r : LLMResponse) : HookContext := {|
  hc_point := hc_point ctx; hc_run_id := hc_run_id ctx; hc_user_message := None;
  hc_final_text := None; hc_iteration := Some i; hc_tool_name := None; hc_tool_input := None;
  hc_tool_result := None; hc_permission_decision := None; hc_llm_response := Some r; hc_error := None |}.

Definition with_texts (ctx : HookContext) (message final_text error : option pystr) : HookContext := {|
  hc_point := hc_point ctx; hc_run_id := hc_run_id ctx; hc_user_message := message;
  hc_final_text := final_text; hc_iteration := None; hc_tool_name := None; hc_tool_input := None;
  hc_tool_result := None; hc_permission_decision := None; hc_llm_response := None; hc_error := error |}.

Definition tool_schemas : list json := map (fun nt => to_schema nt.2) (tools cfg).

(** ** Routing *)

Definition escalate : AM bool :=
  r ← gets routing;
  match escalates_to (mode r) with
  | None => mret false
  | Some target =>
    let previous := mode r in
    upd_routing (set_mode target);;
    upd_routing (set_reasoning (bool_decide (target = MAX)));;
    when (bool_decide (target = MAX)) (upd_routing (set_sticky true));;
    when (bool_decide (_max_iterations_override r = None))
      (upd_routing (set_max_iterations (mode_max_iterations target)));;
    _emit (u "agent.escalated")
      [(u "from", JStr (mode_value previous)); (u "to", JStr (mode_value target))];;
    mret true
  end.

Definition _apply_mode (m : AgentMode) : AM unit :=
  upd_routing (set_mode m);;
  upd_routing (set_reasoning (bool_decide (m = MAX)));;
  upd_routing (fun r => set_max_iterations
    (default (mode_max_iterations m) (_max_iterations_override r)) r).

(** The most recent user message whose content is a string. *)
Fixpoint last_user_text (newest_first : list message) : option pystr :=
  match newest_first with
  | [] => None
  | m :: ms =>
    match dict_get (u "role") m, dict_get (u "content") m with
    | Some (JStr r), Some (JStr c) => if bool_decide (r = u "user") then Some c else last_user_text ms
    | _, _ => last_user_text ms
    end
  end.

Definition _first_user_message (st : ConversationState) : option pystr := last_user_text (rev (messages st)).

Definition nonempty (o : option pystr) : option pystr := match o with Some (_ :: _) => o | _ => None end.

Definition _classify_and_route (user_message : option pystr) : AM unit :=
  first ← gets (fun s => _first_user_message (conv s));
  let task := match user_message with Some t => t | None => default [] (nonempty first) end in
  c ← env (classify task);
  match c with
  | Err _ => _apply_mode MAX
  | Ok c =>
    sticky ← gets (fun s => _sticky_max (routing s));
    let downgrade := bool_decide (c_mode c = FLASH) && sticky in
    let applied := if downgrade then MAX else c_mode c in
    let why :=
      if downgrade
      then match c_rationale c with [] => [] | r => r ++ u " " end ++ u "[max sticky: downgrade prevented]"
      else c_rationale c in
    when (negb downgrade && bool_decide (c_mode c = MAX)) (upd_routing (set_sticky true));;
    _apply_mode applied;;
    _emit (u "agent.classified")
      [(u "complexity", JStr (c_complexity c)); (u "mode", JStr (mode_value (c_mode c)));
       (u "applied_mode", JStr (mode_value applied)); (u "confidence", JFloat (c_confidence c));
       (u "rationale", JStr why)]
  end.

Definition _maybe_escalate (iteration : Z) (triggered_by_error already_escalated : bool) : AM bool :=
  m ← gets (fun s => mode (routing s));
  if already_escalated || negb (bool_decide (m = FLASH)) then mret already_escalated
  else if ((iteration =? 0)%Z && triggered_by_error) || (FLASH_ESCALATION_THRESHOLD <=? iteration + 1)%Z
  then escalate else mret false.

(** ** Other threads *)

Definition cancel : AM unit :=
  env_ (fun w => set_control {| cancel_event := true; pause_event := true; inbox := inbox (control w) |} w).

Definition pause : AM unit :=
  env_ (fun w => set_control {| cancel_event := cancel_event (control w); pause_event := false;
                                inbox := inbox (control w) |} w).

Definition resume : AM unit :=
  env_ (fun w => set_control {| cancel_event := cancel_event (control w); pause_event := true;
                                inbox := inbox (control w) |} w).

Definition send_message_while_running (text : pystr) : AM unit :=
  if bool_decide (strip text = []) then throw (EPy (value_error (u "text must be a non-empty string")))
  else env_ (fun w => set_control {| cancel_event := cancel_event (control w);
    pause_event := pause_event (control w); inbox := inbox (control w) ++ [text] |} w).

Definition clear_cancel : AM unit :=
  env_ (fun w => set_control {| cancel_event := false; pause_event := pause_event (control w);
                                inbox := inbox (control w) |} w).

(** [self._pause_event.wait()]. *)
Definition pause_wait : AM unit :=
  env_ interfere;;
  w ← gets world;
  if pause_event (control w) then mret tt
  else match wait_resumed w with
       | Some w' => modify (set_world w')
       | None => block
       end.

Definition add_user (text : pystr) : AM unit := upd_conv (fun st => add_user_message st text).

(** The loop of [_drain_inbox]: a message sent while it runs is taken too. A
    drain that has not emptied the queue after [drain_bound] messages counts as
    never returning. *)
Fixpoint drain_loop (bound : nat) : AM unit :=
  env_ interfere;;
  c ← gets (fun s => control (world s));
  match inbox c, bound with
  | [], _ => mret tt
  | _ :: _, O => block
  | m :: rest, S bound' =>
    env_ (set_control {| cancel_event := cancel_event c; pause_event := pause_event c; inbox := rest |});;
    add_user m;;
    _emit (u "agent.message_injected") [(u "message", JStr m)];;
    drain_loop bound'
  end.

Definition _drain_inbox : AM unit := drain_loop (drain_bound cfg).

(** ** Context, model calls, budgets *)

Definition _maybe_compact_context : AM unit :=
  s ← gets id;
  r ← lift (cm_should_compact cm (manager s) (conv s) (model_context_limit cfg));
  modify (set_manager r.2);;
  when r.1 (
    let before := length_ (conv s) in
    m ← gets manager;
    st ← env (cm_compact cm m (conv s));
    modify (set_conv st);;
    _emit (u "context.compacted")
      [(u "manager", JStr (cm_type_name cm)); (u "messages_before", JInt before);
       (u "messages_after", JInt (length_ st)); (u "messages_removed", JInt (before - length_ st));
       (u "estimated_tokens_after", JInt (cm_estimate_state_tokens cm m st))]).

Definition _record_usage (r : LLMResponse) : AM unit :=
  upd_guards (fun g => set_budget (option_map (fun b => budget_record b (usage r)) (run_budget g)) g);;
  match usage r with
  | [] => mret tt
  | us =>
    g ← gets guards;
    let '(t, res) := usage_record (usage_totals g) us in
    upd_guards (set_usage t);;
    lift res;;
    _emit (u "llm.usage") [(u "usage", JObj us)]
  end.

Definition chat_once (req : LLMRequest) : AM LLMResponse :=
  r ← env (llm_chat req); r ← lift r; _record_usage r;; mret r.

(** Publishing the chunks of a stream; the last [done] response is kept. *)
Fixpoint consume (events : list StreamEvent) (final : option LLMResponse) : AM (option LLMResponse) :=
  match events with
  | [] => mret final
  | SE_text d :: es => _emit (u "agent.text_delta") [(u "delta", JStr d)];; consume es final
  | SE_done r :: es => consume es (Some r)
  | SE_tool_call _ :: es => consume es final
  end.

Definition empty_turn : LLMResponse := {|
  r_content := []; tool_calls := []; stop_reason := Some (u "end_turn"); usage := []; reasoning_text := None |}.

Definition blank_line : pystr := [10%N; 10%N].

Definition request (st : ConversationState) (system_append : option pystr) : LLMRequest :=
  let '(system, msgs) := for_llm st in {|
    req_messages := msgs;
    req_tools := match tool_schemas with [] => None | l => Some l end;
    req_system :=
      match nonempty system_append with
      | None => system
      | Some extra => Some (match nonempty system with Some s => s ++ blank_line ++ extra | None => extra end)
      end |}.

Definition _call_llm (stream : bool) (system_append : option pystr) : AM LLMResponse :=
  st ← gets conv;
  let req := request st system_append in
  log ALlm;;
  if negb stream then chat_once req
  else
    es ← env (llm_stream req);
    final ← consume es.1 None;
    match es.2 with
    | StreamUnsupported => chat_once req
    | StreamRaised e => throw (EPy e)
    | StreamExhausted => let r := default empty_turn final in _record_usage r;; mret r
    end.

Definition _budget_stop_message : AM (option pystr) :=
  b ← gets (fun s => run_budget (guards s));
  match b with
  | None => mret None
  | Some b =>
    match budget_check b with
    | Ok _ => mret None
    | Err e =>
      _emit (u "agent.budget_exceeded") (budget_details b);;
      mret (Some (u "Run stopped: budget exceeded (" ++ exn_msg e ++ u ")."))
    end
  end.

(** The additions of the hooks, after the plan. *)
Definition hook_addition (r : HookResult) : option pystr :=
  match modified_context r with
  | Some ((_ :: _) as d) =>
    match dict_get (u "system_prompt") d with
    | Some (JStr t) => if bool_decide (strip t = []) then None else Some t
    | _ => None
    end
  | _ => None
  end.

Definition _system_prompt_append (p : option Plan) (results : list HookResult) : option pystr :=
  let additions := omap hook_addition results in
  let additions := match p with Some p => plan_to_prompt p :: additions | None => additions end in
  nonempty (Some (join blank_line additions)).

Definition use_block (c : ToolCall) : json :=
  JObj [(u "type", JStr (u "tool_use")); (u "id", JStr (tc_id c)); (u "name", JStr (tc_name c));
        (u "input", JObj (tc_arguments c))].

Definition _assistant_content (r : LLMResponse) : json :=
  let text := match r_content r with
              | [] => []
              | t => [JObj [(u "type", JStr (u "text")); (u "text", JStr t)]]
              end in
  match text ++ map use_block (tool_calls r) with
  | [] => JStr (r_content r)
  | bs => JList bs
  end.

(** ** Final answers *)

(** The fields of [_verification_problems]. *)
Definition _verification_problems (e : option VerificationEvidence) : list pystr :=
  match e with
  | None => [u "missing verification evidence"]
  | Some e =>
    (if bool_decide (changed_files e = []) then [u "changed_files is empty"] else [])
    ++ (if bool_decide (commands_run e = []) then [u "commands_run is empty"] else [])
    ++ (if existsb (fun kv => elem_b (lower kv.2) passing) (test_results e)
        then [] else [u "no successful test result"])
  end.

(** [true] is "retry", [false] is "break". *)
Definition _check_structured (schema : json) (text : pystr) (retries_left : Z) : AM bool :=
  v ← lift (check_final_answer schema text);
  match v with
  | AnswerOk value =>
    upd_answering (set_structured_output (Some value));;
    verifying ← gets (fun s => _effective_verify (answering s));
    when verifying
      (match value with
       | JObj d => upd_answering (set_evidence (Some (evidence_from_dict d)))
       | _ => mret tt
       end);;
    _emit (u "agent.structured_output_parsed") [(u "schema", schema)];;
    if verifying : bool then
      ev ← gets (fun s => verification_evidence (answering s));
      match _verification_problems ev with
      | [] => mret false
      | problems =>
        _emit (u "agent.verification_unverified") [(u "problems", strs problems)];;
        if (0 <? retries_left)%Z then
          add_user (u "Your final answer does not prove the task is complete. Problems: "
            ++ join (u "; ") problems ++ u ". Reply with ONLY a corrected JSON object.");;
          _emit (u "agent.verification_retry") [(u "problems", strs problems)];;
          mret true
        else mret false
      end
    else mret false
  | AnswerBad problems =>
    if (0 <? retries_left)%Z then
      add_user (correction_message (join (u "; ") problems));;
      _emit (u "agent.structured_output_retry") [(u "problems", strs problems)];;
      mret true
    else
      _emit (u "agent.structured_output_invalid") [(u "problems", strs problems)];;
      mret false
  end.

Definition _raise_answer_not_verified {T} (answer feedback : pystr) : AM T :=
  _emit (u "agent.verification_exhausted") [(u "feedback", JStr (redact_secrets feedback))];;
  throw (ENotVerified answer feedback).

(** [self._first_user_message() or "Continue the current task"]. *)
Definition current_task (st : ConversationState) : pystr :=
  default (u "Continue the current task") (nonempty (_first_user_message st)).

Definition _create_plan (user_message : option pystr) : AM (option Plan) :=
  if negb (has_planner cfg) then mret None
  else
    st ← gets conv;
    let task := match nonempty user_message with Some t => t | None => current_task st end in
    r ← env (create_plan task tool_schemas);
    match r with
    | Err e => _emit (u "agent.plan_failed") [(u "error", JStr (redact_secrets (describe e)))];; mret None
    | Ok None =>
      _emit (u "agent.plan_failed") [(u "error", JStr (u "planner returned a non-Plan value"))];; mret None
    | Ok (Some p) =>
      _emit (u "agent.plan_created") [(u "goal", JStr (p_goal p)); (u "steps", strs (p_steps p))];;
      mret (Some p)
    end.

Definition _verify_final_answer (answer : pystr) : AM (bool * pystr) :=
  s ← gets id;
  r ← env (verify (current_task (conv s)) answer (plan (answering s)));
  match r with
  | Err e =>
    _emit (u "agent.verification_failed")
      [(u "reason", JStr (u "exception")); (u "error", JStr (redact_secrets (describe e)))];;
    mret (true, [])
  | Ok InvalidVerdict =>
    _emit (u "agent.verification_failed") [(u "reason", JStr (u "invalid_verdict"))];;
    mret (false, u "Verifier returned an invalid verdict.")
  | Ok (Verdict accepted feedback) =>
    let feedback := default [] feedback in
    _emit (if accepted then u "agent.verification_passed" else u "agent.verification_failed")
      [(u "feedback", JStr (redact_secrets feedback))];;
    mret (accepted, feedback)
  end.

(** ** Memory *)

Definition _recall_memory (query : pystr) : AM unit :=
  r ← env (memory_search query (memory_recall_limit cfg));
  match r with
  | Err e => _emit (u "agent.memory_recall_failed") [(u "error", JStr (redact_secrets (describe e)))]
  | Ok [] => mret tt
  | Ok recalled =>
    add_user (u "[Recalled memories]" ++ newline ++ join newline (map (fun t => u "- " ++ t) recalled));;
    _emit (u "agent.memory_recalled") [(u "query", JStr query); (u "count", JInt (zlen recalled))]
  end.

Definition _store_memory (user_message final_text : pystr) : AM unit :=
  id ← gets (fun s => _run_id (runst s));
  r ← env (memory_add (u "User: " ++ user_message ++ newline ++ u "Assistant: " ++ final_text) id);
  match r with
  | Ok entry => _emit (u "agent.memory_stored") [(u "id", JStr entry)]
  | Err e => _emit (u "agent.memory_store_failed") [(u "error", JStr (redact_secrets (describe e)))]
  end.

Definition _clear_working_memory : AM unit :=
  id ← gets (fun s => _run_id (runst s));
  match id with
  | None => mret tt
  | Some i =>
    r ← env (memory_clear_working i);
    match r with
    | Ok _ => mret tt
    | Err e => _emit (u "agent.memory_cleanup_failed") [(u "error", JStr (redact_secrets (describe e)))]
    end
  end.

(** ** The loop *)

(** The local variables of [_run_loop]. *)
Record Loop := MkLoop {
  l_final_text : pystr;
  l_iteration : Z;
  l_escalated : bool;
  l_retries_left : Z;
  l_verification_left : Z;
  l_rejected : option (pystr * pystr);
}.

(** [LNext]: the next iteration of the [while]; [LDone]: [break] or [return]. *)
Inductive loop_exit := LNext (l : Loop) | LDone (text : pystr).

Definition cancelled_at (l : Loop) : AM loop_exit :=
  _emit (u "agent.cancelled") [(u "iteration", JInt (l_iteration l))];;
  mret (LDone (l_final_text l)).

(** From the model's turn without tool calls: structured output, the verifier,
    persistence. *)
Definition _final_answer (output_schema : option json) (l : Loop) (text : pystr) : AM loop_exit :=
  retry ← match output_schema with
          | Some schema => _check_structured schema text (l_retries_left l)
          | None => mret false
          end;
  if retry : bool then
    mret (LNext (MkLoop text (l_iteration l + 1) (l_escalated l) (l_retries_left l - 1)
                        (l_verification_left l) (l_rejected l)))
  else if has_verifier cfg then
    v ← _verify_final_answer text;
    let '(accepted, feedback) := v : bool * pystr in
    if accepted then _persist_state cfg;; mret (LDone text)
    else
      if (l_verification_left l <=? 0)%Z then _raise_answer_not_verified text feedback
      else
        let left := (l_verification_left l - 1)%Z in
        add_user (u "The proposed final answer was not verified. Correct it using the available evidence. Verifier feedback: "
          ++ default (u "No details provided.") (nonempty (Some feedback)));;
        _emit (u "agent.verification_retry") [(u "feedback", JStr feedback); (u "retries_left", JInt left)];;
        esc ← _maybe_escalate (l_iteration l) true (l_escalated l);
        mret (LNext (MkLoop text (l_iteration l + 1) esc (l_retries_left l) left (Some (text, feedback))))
  else _persist_state cfg;; mret (LDone text).

(** From the model's turn with tool calls to the end of the round. *)
Definition _tool_round (l : Loop) (calls : list ToolCall) : AM loop_exit :=
  any_error ← _execute_tool_calls cfg calls;
  _persist_state cfg;;
  stop ← gets (fun s => _stop_reason (runst s));
  match stop with
  | Some why =>
    _emit (u "agent.error") [(u "reason", JStr why); (u "iteration", JInt (l_iteration l))];;
    mret (LDone (l_final_text l))
  | None =>
    _drain_inbox;;
    pause_wait;;
    cancelled ← is_cancelled;
    if cancelled : bool then cancelled_at l
    else
      esc ← _maybe_escalate (l_iteration l) any_error (l_escalated l);
      mret (LNext (MkLoop (l_final_text l) (l_iteration l + 1) esc (l_retries_left l)
                          (l_verification_left l) (l_rejected l)))
  end.

(** The model's turn. *)
Definition _turn (stream : bool) (l : Loop) (hook_results : list HookResult) : AM LLMResponse :=
  p ← gets (fun s => plan (answering s));
  r ← _call_llm stream (_system_prompt_append p hook_results);
  ctx ← context_of AFTER_LLM_CALL;
  _trigger_hooks cfg AFTER_LLM_CALL (with_response ctx (l_iteration l) r);;
  upd_conv (fun st => add_assistant st (_assistant_content r));;
  match nonempty (reasoning_text r) with
  | Some t => _emit (u "agent.reasoning_trace") [(u "text", JStr t); (u "iteration", JInt (l_iteration l))]
  | None => mret tt
  end;;
  _emit (u "agent.llm_response")
    [(u "tool_calls", JInt (zlen (tool_calls r))); (u "stop_reason", opt_str (stop_reason r))];;
  mret r.

Definition _iteration (stream : bool) (output_schema : option json) (l : Loop) : AM loop_exit :=
  pause_wait;;
  cancelled ← is_cancelled;
  if cancelled : bool then cancelled_at l
  else
    m ← gets (fun s => mode (routing s));
    _emit (u "agent.turn_started") [(u "iteration", JInt (l_iteration l)); (u "mode", JStr (mode_value m))];;
    _maybe_compact_context;;
    st ← gets conv;
    ctx ← context_of BEFORE_LLM_CALL;
    hook_results ← _trigger_hooks cfg BEFORE_LLM_CALL
      (with_iteration ctx (l_iteration l) (_first_user_message st));
    cancelled ← is_cancelled;
    if cancelled : bool then cancelled_at l
    else
      budget_stop ← _budget_stop_message;
      match budget_stop with
      | Some text => mret (LDone text)
      | None =>
        r ← _turn stream l hook_results;
        match tool_calls r with
        | [] => _final_answer output_schema l (r_content r)
        | calls => _tool_round l calls
        end
      end.

(** The [else] of the [while]: the iteration cap was reached. *)
Definition _cap_reached (l : Loop) : AM pystr :=
  match l_rejected l with
  | Some (answer, feedback) => _raise_answer_not_verified answer feedback
  | None =>
    cap ← gets (fun s => max_iterations (routing s));
    _emit (u "agent.error") [(u "reason", JStr (u "max_iterations")); (u "iterations", JInt cap)];;
    mret (l_final_text l)
  end.

Fixpoint loop (fuel : nat) (stream : bool) (output_schema : option json) (l : Loop) : AM pystr :=
  cap ← gets (fun s => max_iterations (routing s));
  if (l_iteration l <? cap)%Z then
    match fuel with
    | O => no_fuel
    | S fuel' =>
      r ← _iteration stream output_schema l;
      match r with
      | LDone text => mret text
      | LNext l' => loop fuel' stream output_schema l'
      end
    end
  else _cap_reached l.

(** The cap can only be raised to the MAX default. *)
Definition loop_fuel (r : Routing) : nat := Z.to_nat (Z.max (max_iterations r) (mode_max_iterations MAX)).

Definition _run_loop (stream : bool) (output_schema : option json) (structured_retries : option Z) : AM pystr :=
  r ← gets routing;
  loop (loop_fuel r) stream output_schema
    (MkLoop [] 0 false (default DEFAULT_STRUCTURED_RETRIES structured_retries)
            (max_verification_retries cfg) None).

(** ** [run] *)

Definition start_run (user_message : option pystr) : AM unit :=
  clear_cancel;;
  upd_run (set_stop_reason None);;
  id ← env uuid4;
  upd_run (set_run_id (Some id));;
  ctx ← context_of BEFORE_RUN;
  _trigger_hooks cfg BEFORE_RUN (with_texts ctx user_message None None);;
  _classify_and_route user_message;;
  p ← _create_plan user_message;
  upd_answering (set_plan p);;
  upd_conv (fun st => set_metadata st
    (match p with
     | Some p => dict_set (u "plan") (MJson (JStr (plan_to_prompt p))) (metadata st)
     | None => dict_pop (u "plan") (metadata st)
     end));;
  r ← gets routing;
  _emit (u "agent.run_started")
    [(u "mode", JStr (mode_value (mode r))); (u "tools", strs (map fst (tools cfg)));
     (u "max_iterations", JInt (max_iterations r))].

(** The handler around [_run_loop]. *)
Definition run_failed {T} (e : aexn) : AM T :=
  match e with
  | EPending _ _ => throw e
  | _ =>
    ctx ← context_of ON_ERROR;
    _trigger_hooks cfg ON_ERROR (with_texts ctx None None (Some (exn_class e ++ u ": " ++ exn_text e)));;
    _emit (u "agent.error") [(u "reason", JStr (u "exception")); (u "error", JStr (exn_text e))];;
    when (has_memory cfg) _clear_working_memory;;
    throw e
  end.

Definition finish_run (user_message : option pystr) (final_text : pystr) : AM unit :=
  upd_run (set_resuming false);;
  ctx ← context_of AFTER_RUN;
  _trigger_hooks cfg AFTER_RUN (with_texts ctx None (Some final_text) None);;
  m ← gets (fun s => mode (routing s));
  _emit (u "agent.run_finished") [(u "final_text", JStr final_text); (u "mode", JStr (mode_value m))];;
  match user_message with
  | Some q => when (has_memory cfg) (_store_memory q final_text)
  | None => mret tt
  end;;
  when (has_memory cfg) _clear_working_memory.

(** The text added to the conversation: the user's message and, when a schema
    was asked for, its instruction. *)
Definition composed_message (user_message : option pystr) (schema : option json) : option pystr :=
  match schema with
  | Some s => Some (default [] user_message ++ blank_line ++ schema_instruction s)
  | None => user_message
  end.

Definition run (user_message : option pystr) (stream : bool) (output_schema : option json)
    (structured_retries : option Z) (verify_flag : option bool) : AM pystr :=
  rs ← gets runst;
  let resuming := _resuming_checkpoint rs && bool_decide (user_message = None) in
  upd_answering (set_structured_output None);;
  upd_answering (set_evidence None);;
  let effective := default (verification_required cfg) verify_flag in
  upd_answering (set_effective_verify effective);;
  let schema := match output_schema with
                | None => if effective then Some (JObj verification_schema) else None
                | s => s
                end in
  if negb (resuming && bool_decide (is_Some (_pending_confirmation rs)))
  then
    match user_message with
    | Some q => when (has_memory cfg) (_recall_memory q)
    | None => mret tt
    end;;
    match composed_message user_message schema with
    | Some text => add_user text
    | None => mret tt
    end;;
    when (negb resuming) (start_run user_message);;
    text ← catch (_run_loop stream schema structured_retries) run_failed;
    finish_run user_message text;;
    mret text
  else throw (EPy (PyExn (u "RuntimeError")
    (u "Resolve the pending confirmation before continuing this checkpoint"))).
End Agent.
