(* ===== verification/AgentFrame.v ===== *)
(** * The agent: reasoning about methods

    A method [keeps P R] when from every state satisfying [P] the state it leaves,
    however it ends, is related by [R] to the state it started from. [ToolRel]
    lists what a relation must allow for every tool-call method to keep it; the
    lemmas below are proved once from that interface and used with several
    relations (frames, authorization, bounds). *)

From stdpp Require Import base gmap strings list.
From Stdlib Require Import ZArith Lia SpecFloat.
From S2P Require Import Prelude Json Types Validation TextCompact Conversation EventBus Redact Hooks.
From S2P Require Import Compaction Policy Budgets Structured AgentState AgentTools.

Section Keeps.
Context {M W : Type}.
Implicit Types (P : St M W -> Prop) (R : St M W -> St M W -> Prop).

Definition keeps {T} P R (m : A M W T) : Prop := forall s, P s -> R s (m s).2.

(** What is known of the value a method returns. *)
Definition ensures {T} P (m : A M W T) (Q : T -> St M W -> Prop) : Prop :=
  forall s, P s -> forall x, (m s).1 = Ret x -> Q x (m s).2.

Definition stable R P : Prop := forall s s', R s s' -> P s -> P s'.

Context (R : St M W -> St M W -> Prop) (R_refl : forall s, R s s)
  (R_trans : forall a b c, R a b -> R b c -> R a c).

Lemma keeps_weaken {T} P (m : A M W T) : keeps (fun _ => True) R m -> keeps P R m.
Proof using Type. intros Hk s _. by apply Hk. Qed.

Lemma keeps_ret {T} P (x : T) : keeps P R (mret x).
Proof using R_refl. intros s _. apply R_refl. Qed.

Lemma keeps_throw {T} P e : keeps P R (throw (T := T) e).
Proof using R_refl. intros s _. apply R_refl. Qed.

Lemma keeps_block {T} P : keeps P R (block (T := T)).
Proof using R_refl. intros s _. apply R_refl. Qed.

Lemma keeps_gets {T} P (f : St M W -> T) : keeps P R (gets f).
Proof using R_refl. intros s _. apply R_refl. Qed.

Lemma keeps_lift {T} P (r : result T) : keeps P R (lift r).
Proof using R_refl. destruct r; intros s _; apply R_refl. Qed.

Lemma keeps_modify P f : (forall s, P s -> R s (f s)) -> keeps P R (modify f).
Proof using Type. intros Hf s Hs. by apply Hf. Qed.

Lemma bind_eq {T U} (m : A M W T) (f : T -> A M W U) s :
  (m ≫= f) s = match m s with
               | (Ret x, s') => f x s' | (Raise e, s') => (Raise e, s')
               | (Blocked, s') => (Blocked, s') | (NoFuel, s') => (NoFuel, s')
               end.
Proof using Type. done. Qed.

Lemma keeps_bind_post {T U} P (Q : T -> St M W -> Prop) (m : A M W T) (f : T -> A M W U) :
  keeps P R m -> ensures P m Q -> (forall x, keeps (Q x) R (f x)) -> keeps P R (m ≫= f).
Proof using R_trans.
  intros Hm He Hf s Hs. rewrite bind_eq. specialize (Hm s Hs). specialize (He s Hs).
  destruct (m s) as [[x|e| |] s']; simpl in *; try done.
  eapply R_trans; [exact Hm | by apply Hf, He].
Qed.

Lemma keeps_bind {T U} P (m : A M W T) (f : T -> A M W U) :
  stable R P -> keeps P R m -> (forall x, keeps P R (f x)) -> keeps P R (m ≫= f).
Proof using R_trans.
  intros Hst Hm Hf. apply (keeps_bind_post _ (fun _ => P)); [done| |done].
  intros s Hs x Hx. eapply Hst; [by apply Hm | done].
Qed.

Lemma keeps_catch {T} P (m : A M W T) h :
  stable R P -> keeps P R m -> (forall e, keeps P R (h e)) -> keeps P R (catch m h).
Proof using R_trans.
  intros Hst Hm Hh s Hs. unfold catch. pose proof (Hm s Hs) as Hms.
  destruct (m s) as [[x|e| |] s'] eqn:E; simpl in *; try done.
  eapply R_trans; [exact Hms|]. apply Hh. by eapply Hst.
Qed.

Lemma keeps_when P b m : keeps P R m -> keeps P R (when b m).
Proof using R_refl. intros Hm. destruct b; [done | apply keeps_ret]. Qed.

Lemma ensures_bind {T U} P (Q : T -> St M W -> Prop) (m : A M W T) (f : T -> A M W U) Q' :
  ensures P m Q -> (forall x, ensures (Q x) (f x) Q') -> ensures P (m ≫= f) Q'.
Proof using Type.
  intros Hm Hf s Hs y. rewrite bind_eq. specialize (Hm s Hs).
  destruct (m s) as [[x|e| |] s']; simpl in *; try done. intros Hy. by eapply (Hf x); [apply Hm|].
Qed.

Lemma ensures_lift {T} P (r : result T) : ensures P (lift r) (fun x _ => r = Ok x).
Proof using Type. destruct r; intros s _ y; simpl; [by intros [= ->] | done]. Qed.

Lemma ensures_any {T} P (m : A M W T) : ensures P m (fun _ _ => True).
Proof using Type. by intros s _ x _. Qed.

Lemma ensures_stable {T} P (m : A M W T) : stable R P -> keeps P R m -> ensures P m (fun _ => P).
Proof using Type. intros Hst Hk s Hs x _. eapply Hst; [by apply Hk | done]. Qed.

Lemma ensures_throw {T} P e (Q : T -> St M W -> Prop) : ensures P (throw (T := T) e) Q.
Proof using Type. by intros s _ x. Qed.

Lemma ensures_ret {T} P (x : T) (Q : T -> St M W -> Prop) : (forall s, P s -> Q x s) -> ensures P (mret x) Q.
Proof using Type. intros Hq s Hs y [= <-]. by apply Hq. Qed.

Lemma ensures_catch {T} P (m : A M W T) h Q : ensures P m Q -> (forall e, ensures (fun _ => True) (h e) Q) ->
  ensures P (catch m h) Q.
Proof using Type.
  intros Hm Hh s Hs x. unfold catch. specialize (Hm s Hs). destruct (m s) as [[y|e| |] s']; simpl in *; try done.
  - intros [= ->]. by apply Hm.
  - intros Hx. by eapply Hh.
Qed.
End Keeps.

(** What a relation must allow for the tool-call methods to keep it. [may t args]
    says that executing [t] with [args] is allowed. *)
Class ToolRel {M W} `{PermissionPolicy} (cfg : Config) (R : St M W -> St M W -> Prop)
    (may : Tool -> jdict -> St M W -> Prop) := {
  tr_refl : forall s, R s s;
  tr_trans : forall a b c, R a b -> R b c -> R a c;
  tr_stable : forall t args, stable R (may t args);
  tr_world : forall s w, R s (set_world w s);
  tr_audit : forall s l, R s (set_audit l s);
  tr_stop : forall s x, R s (set_runst (set_stop_reason x (runst s)) s);
  tr_guards : forall s g, run_budget g = run_budget (guards s) -> usage_totals g = usage_totals (guards s) ->
    (length (running_jobs g) <= max tool_slots (length (running_jobs (guards s))))%nat ->
    R s (set_guards g s);
  tr_decide : forall s n args d c, R s (note (ADecide n args d c) s);
  tr_human : forall s n args, R s (note (AHuman n args) s);
  tr_exec : forall s t args, may t args s -> R s (note (AExec (t_name t) args) s);
  tr_grant : forall s n t args d c, dict_get n (tools cfg) = Some t -> check n args = Ok d ->
    allowed d = true -> (requires_confirmation d = true -> c = Approved) ->
    may t args (note (ADecide n args d c) s);
  tr_human_grant : forall s n t args, dict_get n (tools cfg) = Some t -> may t args (note (AHuman n args) s);
}.

(** A relation that also allows a pending confirmation to be recorded. *)
Class PendRel {M W} (R : St M W -> St M W -> Prop) := {
  tr_pending : forall s p, R s (set_runst (set_pending p (runst s)) s);
  tr_remaining : forall s l, R s (set_runst (set_remaining_calls l (runst s)) s);
}.

Lemma stable_true {M W} (R : St M W -> St M W -> Prop) : stable R (fun _ => True).
Proof. done. Qed.

(** Decompose a goal [keeps P R m] along the structure of the method [m]. *)
Ltac keeps_step :=
  lazymatch goal with
  | |- keeps _ _ (mret _) => apply keeps_ret; apply tr_refl
  | |- keeps _ _ (throw _) => apply keeps_throw; apply tr_refl
  | |- keeps _ _ block => apply keeps_block; apply tr_refl
  | |- keeps _ _ (gets _) => apply keeps_gets; apply tr_refl
  | |- keeps _ _ (lift _) => apply keeps_lift; apply tr_refl
  | |- keeps _ _ (when _ _) => apply keeps_when; [apply tr_refl|]
  | |- keeps _ _ (mbind _ _) =>
      apply keeps_bind; [apply tr_trans | solve [apply stable_true | eauto with keeps] | |]
  | |- keeps _ _ (catch _ _) =>
      apply keeps_catch; [apply tr_trans | solve [apply stable_true | eauto with keeps] | |]
  | |- keeps _ _ (let '(_, _) := ?x in _) => destruct x
  | |- keeps _ _ (match ?x with _ => _ end) => destruct x
  end.

Ltac keeps_tac := repeat first [progress intros | solve [eauto 2 with keeps] | keeps_step].

Create HintDb keeps discriminated.
#[export] Hint Constants Opaque : keeps.
#[export] Hint Resolve stable_true : keeps.

(** ** Traversals *)

Section Traversals.
Context {M W : Type} (R : St M W -> St M W -> Prop) (R_refl : forall s, R s s)
  (R_trans : forall a b c, R a b -> R b c -> R a c).

Lemma keeps_mono {T} (P P' : St M W -> Prop) (m : A M W T) :
  (forall s, P s -> P' s) -> keeps P' R m -> keeps P R m.
Proof using Type. intros HP Hk s Hs. by apply Hk, HP. Qed.

Lemma keeps_traverse {T U} (P : St M W -> Prop) (f : T -> A M W U) l :
  stable R P -> (forall x, x ∈ l -> keeps P R (f x)) -> keeps P R (traverse f l).
Proof using R_refl R_trans.
  intros HP. induction l as [|x l IH]; intros Hf; simpl; [by apply keeps_ret|].
  apply keeps_bind; [done|done|apply Hf; set_solver|]. intros y.
  apply keeps_bind; [done|done|apply IH; set_solver|]. intros ys. by apply keeps_ret.
Qed.

Lemma ensures_traverse {T U} (P : St M W -> Prop) (f : T -> A M W U) (Q : U -> St M W -> Prop) l :
  stable R P -> (forall y, stable R (Q y)) ->
  (forall x, x ∈ l -> keeps P R (f x) /\ ensures P (f x) Q) ->
  ensures P (traverse f l) (fun ys s => Forall (fun y => Q y s) ys).
Proof using R_refl R_trans.
  intros HP HQ. induction l as [|x l IH]; intros Hf; simpl; [by apply ensures_ret; constructor|].
  destruct (Hf x) as [Hk He]; [set_solver|].
  eapply (ensures_bind _ (fun y s => P s /\ Q y s)).
  { intros s Hs y Hy. split; [eapply HP; [by apply Hk | done] | by apply He]. }
  intros y. eapply (ensures_bind _ (fun ys s => Q y s /\ Forall (fun y => Q y s) ys)).
  { intros s [Hs Hq] ys Hys. split.
    - assert (keeps P R (traverse f l)) as Hkl by (apply keeps_traverse; [done|intros; apply Hf; set_solver]).
      eapply HQ; [by apply Hkl | exact Hq].
    - apply IH; [intros; apply Hf; set_solver | done | done]. }
  intros ys. apply ensures_ret. intros s [? ?]. by constructor.
Qed.

(** A batch produces as many values as it is given. *)
Lemma traverse_length {T U} (f : T -> A M W U) l s ys : (traverse f l s).1 = Ret ys -> length ys = length l.
Proof using Type.
  revert s ys; induction l as [|x l IH]; intros s ys; simpl; [by intros [= <-]|].
  rewrite bind_eq. destruct (f x s) as [[y|e| |] s1]; try done.
  rewrite bind_eq. destruct (traverse f l s1) as [[zs|e| |] s2] eqn:E; try done.
  intros [= <-]. simpl. f_equal. apply (IH s1). by rewrite E.
Qed.
End Traversals.

(** A relation that also allows the conversation to change. *)
Class ConvRel {M W} (R : St M W -> St M W -> Prop) := { tr_conv : forall s st, R s (set_conv st s) }.

Section Frame.
Context `{PyRuntime} `{SecretPatterns} {M W : Type} `{EventSink W} `{AgentEnv W} `{PermissionPolicy}
  (cfg : Config) (R : St M W -> St M W -> Prop) (may : Tool -> jdict -> St M W -> Prop)
  `{!ToolRel cfg R may}.
Implicit Types P : St M W -> Prop.

Lemma keeps_env {T} P (f : W -> T * W) : keeps P R (env f).
Proof using ToolRel0. intros s _. unfold env. destruct (f (world s)). apply tr_world. Qed.

Lemma keeps_env_ P f : keeps P R (env_ f).
Proof using ToolRel0. intros s _. apply tr_world. Qed.

Lemma keeps_set_audit P f : keeps P R (modify (fun s => set_audit (f s) s)).
Proof using ToolRel0. intros s _. apply tr_audit. Qed.

Lemma keeps_set_stop P x : keeps P R (upd_run (set_stop_reason x)).
Proof using ToolRel0. intros s _. apply tr_stop. Qed.

Context `{!PendRel R}.

Lemma keeps_set_pending P x : keeps P R (upd_run (set_pending x)).
Proof using PendRel0. intros s _. apply tr_pending. Qed.

Lemma keeps_set_remaining P x : keeps P R (upd_run (set_remaining_calls x)).
Proof using PendRel0. intros s _. apply tr_remaining. Qed.

Lemma keeps_set_stuck P x : keeps P R (upd_guards (set_stuck x)).
Proof using ToolRel0. intros s _. apply tr_guards; simpl; [done|done|lia]. Qed.

Lemma keeps_set_breakers P f : keeps P R (upd_guards (fun g => set_breakers (f g) g)).
Proof using ToolRel0. intros s _. apply tr_guards; simpl; [done|done|lia]. Qed.

Lemma keeps_free_job P (j : nat) :
  keeps P R (upd_guards (fun g => set_jobs (filter (fun i => i <> j) (running_jobs g)) (next_job g) g)).
Proof using ToolRel0.
  intros s _. apply tr_guards; simpl; [done|done|].
  pose proof (length_filter (fun i => i <> j) (running_jobs (guards s))). lia.
Qed.

Lemma keeps_decide P n args d c : keeps P R (log (ADecide n args d c)).
Proof using ToolRel0. intros s _. apply tr_decide. Qed.

Lemma keeps_human P n args : keeps P R (log (AHuman n args)).
Proof using ToolRel0. intros s _. apply tr_human. Qed.

Lemma keeps_exec t args : keeps (may t args) R (log (AExec (t_name t) args)).
Proof using ToolRel0. intros s Hs. by apply tr_exec. Qed.

Hint Resolve keeps_env keeps_env_ keeps_set_audit keeps_set_stop keeps_set_pending keeps_set_remaining
  keeps_set_stuck keeps_set_breakers keeps_free_job keeps_decide keeps_human keeps_exec : keeps.
Lemma may_stable t args : stable R (may t args).
Proof using ToolRel0. apply tr_stable. Qed.

Hint Resolve may_stable : keeps.

Lemma keeps_emit P ty payload : stable R P -> keeps P R (_emit ty payload).
Proof using ToolRel0. intros HP. unfold _emit. keeps_tac. Qed.

Lemma keeps_hooks P p ctx : keeps P R (_trigger_hooks cfg p ctx).
Proof using ToolRel0. unfold _trigger_hooks. keeps_tac. Qed.

Lemma keeps_context P p : stable R P -> keeps P R (context_of (M := M) (W := W) p).
Proof using ToolRel0. intros HP. unfold context_of. keeps_tac. Qed.

Lemma keeps_cancelled P : stable R P -> keeps P R is_cancelled.
Proof using ToolRel0. intros HP. unfold is_cancelled. keeps_tac. Qed.

Lemma keeps_record P e : stable R P -> keeps P R (record_audit e).
Proof using ToolRel0. intros HP. unfold record_audit. keeps_tac. Qed.

Hint Resolve keeps_emit keeps_hooks keeps_context keeps_cancelled keeps_record : keeps.

Lemma keeps_finished P call r : stable R P -> keeps P R (_emit_tool_call_finished call r).
Proof using ToolRel0. intros HP. unfold _emit_tool_call_finished. keeps_tac. Qed.

Lemma keeps_deny P call why input : stable R P -> keeps P R (_deny_call call why input).
Proof using ToolRel0. intros HP. unfold _deny_call. keeps_tac. Qed.

Lemma keeps_circuit_open P t : stable R P -> keeps P R (_circuit_is_open t).
Proof using ToolRel0. intros HP. unfold _circuit_is_open. keeps_tac. Qed.

Lemma keeps_circuit_result P n t r : stable R P -> keeps P R (_record_circuit_result n t r).
Proof using ToolRel0. intros HP. unfold _record_circuit_result. keeps_tac. Qed.

Hint Resolve keeps_finished keeps_deny keeps_circuit_open keeps_circuit_result : keeps.

Lemma keeps_invoke t args : keeps (may t args) R (_invoke_tool t args).
Proof using ToolRel0. unfold _invoke_tool, returned. keeps_tac. Qed.

Lemma keeps_submit t args : keeps (may t args) R (_submit_timed_tool t args).
Proof using ToolRel0.
  intros s Hs. unfold _submit_timed_tool. rewrite bind_eq. unfold gets at 1. cbv beta iota.
  rewrite bind_eq. unfold env at 1. cbv beta.
  destruct (jobs_finished (running_jobs (guards s)) (world s)) as [done w]. cbv beta iota zeta.
  set (busy := filter (fun j => j ∉ done) (running_jobs (guards s))).
  assert (length busy <= length (running_jobs (guards s)))%nat as Hlen by apply length_filter.
  set (s1 := set_world w s). assert (R s s1) as Hr1 by apply tr_world.
  destruct (Nat.leb_spec tool_slots (length busy)) as [Hle|Hlt].
  - eapply tr_trans; [exact Hr1|]. change (R s1 (set_guards (set_jobs busy (next_job (guards s)) (guards s1)) s1)).
    apply tr_guards; simpl; [done|done|lia].
  - eapply tr_trans; [exact Hr1|].
    set (s2 := set_guards (set_jobs (next_job (guards s) :: busy) (S (next_job (guards s))) (guards s1)) s1).
    assert (R s1 s2) as Hr2 by (apply tr_guards; simpl; [done|done|lia]).
    eapply tr_trans; [exact Hr2|]. eapply tr_trans; [|apply tr_world].
    apply tr_exec. eapply tr_stable; [exact Hr2|]. by eapply tr_stable.
Qed.

Lemma keeps_await P j timeout : stable R P -> keeps P R (await_job j timeout).
Proof using ToolRel0. intros HP. unfold await_job. keeps_tac. Qed.

Hint Resolve keeps_invoke keeps_submit keeps_await : keeps.

Lemma keeps_run_tool t args : keeps (may t args) R (_run_tool cfg t args).
Proof using ToolRel0. unfold _run_tool. keeps_tac. Qed.

Hint Resolve keeps_run_tool : keeps.

Lemma keeps_retry_loop left retries call t args r :
  keeps (may t args) R (retry_loop cfg left retries call t args r).
Proof using ToolRel0.
  revert retries r; induction left as [|left IH]; intros retries r; simpl; keeps_tac.
Qed.

Lemma keeps_retry call t args r : keeps (may t args) R (_retry_transient_tool cfg call t args r).
Proof using ToolRel0. apply keeps_retry_loop. Qed.

Lemma keeps_finalize P call t args r : stable R P -> keeps P R (_finalize_call cfg call t args r).
Proof using ToolRel0. intros HP. unfold _finalize_call, audit_result. keeps_tac. Qed.

Lemma keeps_confirmation P call args d : stable R P -> keeps P R (_confirmation_status cfg call args d).
Proof using ToolRel0. intros HP. unfold _confirmation_status. keeps_tac. Qed.

Lemma keeps_checkpoint P : stable R P -> keeps P R save_checkpoint.
Proof using ToolRel0. intros HP. unfold save_checkpoint. keeps_tac. Qed.

Lemma keeps_before_hooks P call : stable R P -> keeps P R (_before_hooks cfg call).
Proof using ToolRel0. intros HP. unfold _before_hooks. keeps_tac. Qed.

Lemma keeps_admit P call args : stable R P -> keeps P R (_admit cfg call args).
Proof using ToolRel0. intros HP. unfold _admit, audit_result. keeps_tac. Qed.

Hint Resolve keeps_retry keeps_finalize keeps_confirmation keeps_checkpoint keeps_before_hooks keeps_admit : keeps.

Lemma keeps_prepare P call : stable R P -> keeps P R (_prepare_call cfg call).
Proof using ToolRel0 PendRel0. intros HP. unfold _prepare_call, audit_call. keeps_tac. Qed.

(** A call that gating lets through may execute. *)
Definition ready_may (p : prepared) (s : St M W) : Prop :=
  match p with Ready t args => may t args s | Early _ _ => True end.

Lemma admit_ready P call args : stable R P ->
  (forall s, P s -> forall t, dict_get (tc_name call) (tools cfg) = Some t -> may t args s) ->
  ensures P (_admit cfg call args) ready_may.
Proof using ToolRel0.
  intros HP Hmay s Hs p Hp. pose proof (keeps_admit P call args HP s Hs) as Hk.
  destruct p as [t a|a r]; [|done]. simpl.
  assert (a = args /\ dict_get (tc_name call) (tools cfg) = Some t) as [-> Ht].
  { revert Hp. unfold _admit. clear. destruct (dict_get _ _) as [t'|]; [|by intros].
    rewrite bind_eq. destruct (_circuit_is_open t' s) as [[[]|e| |] s']; simpl; try by intros.
    destruct (validate_tool_inputs cfg); [|by intros [= -> ->]].
    rewrite bind_eq. destruct (lift _ s') as [[[|e es]|e| |] s'']; simpl; try by intros.
    - by intros [= -> ->].
    - rewrite bind_eq. by destruct (audit_result _ _ s'') as [[?|?| |] ?]. }
  eapply tr_stable; [exact Hk | by apply Hmay].
Qed.

Lemma early_ensures P (m : A M W ToolResult) args : ensures P (r ← m; mret (Early args r)) ready_may.
Proof using Type. eapply ensures_bind; [apply ensures_any|]. intros r. by apply ensures_ret. Qed.

Lemma prepare_ready P call : ensures P (_prepare_call cfg call) ready_may.
Proof using ToolRel0.
  unfold _prepare_call. eapply ensures_bind; [apply ensures_any|]. intros [args|]; [|by apply ensures_ret].
  eapply ensures_bind; [apply ensures_lift|]. intros d. cbv beta.
  eapply (ensures_bind _ (fun _ _ => check (tc_name call) args = Ok d)); [by intros s Hs x _|]. intros _.
  destruct (allowed d) eqn:Ha; simpl; [|apply early_ensures].
  eapply (ensures_bind _ (fun _ _ => check (tc_name call) args = Ok d)); [by intros s Hs x _|]. intros c.
  set (P' := fun s => forall t, (requires_confirmation d = true -> c = Approved) ->
    dict_get (tc_name call) (tools cfg) = Some t -> may t args s).
  eapply (ensures_bind _ (fun _ => P')).
  { intros s Hs x _ t Hc Ht. simpl. by eapply tr_grant. }
  intros _. destruct (requires_confirmation d && bool_decide (c = NoHook) && has_checkpoint_manager cfg).
  - eapply ensures_bind; [apply ensures_any|]. intros [].
    eapply ensures_bind; [apply ensures_any|]. intros id. apply ensures_throw.
  - destruct (requires_confirmation d) eqn:Hrc; simpl.
    + destruct (decide (c = Approved)) as [Hc|Hc]; [rewrite bool_decide_eq_true_2|rewrite bool_decide_eq_false_2]; try done;
        simpl; [|apply early_ensures].
      apply admit_ready; unfold P'.
      * intros s s' Hr Hs t ??. eapply tr_stable; [exact Hr|]. by apply Hs.
      * intros s Hs t Ht. by apply Hs.
    + apply admit_ready; unfold P'.
      * intros s s' Hr Hs t ??. eapply tr_stable; [exact Hr|]. by apply Hs.
      * intros s Hs t Ht. by apply Hs.
Qed.

Lemma ready_stable p : stable R (ready_may p).
Proof using ToolRel0. destruct p; [apply tr_stable | done]. Qed.

Lemma keeps_execute_one P call : stable R P -> keeps P R (_execute_one cfg call).
Proof using ToolRel0 PendRel0.
  intros HP. unfold _execute_one.
  apply (keeps_bind_post R tr_trans _ ready_may); [by apply keeps_prepare | apply prepare_ready|].
  intros [t args|args r]; [|apply keeps_ret, tr_refl].
  change (ready_may (Ready t args)) with (may t args). keeps_tac.
Qed.
(** ** Batches of calls *)

Context `{!ConvRel R}.

Definition slot_may (sl : slot) (s : St M W) : Prop :=
  match sl with SlotPending t args => may t args s | _ => True end.
Definition flight_may (f : flight) (s : St M W) : Prop :=
  match f with FlightRefused t args | FlightJob t args _ _ => may t args s | _ => True end.
Definition landed_may (l : landed) (s : St M W) : Prop :=
  match l with LandedRun t args _ => may t args s | _ => True end.
Definition slots_may (slots : list slot) (s : St M W) : Prop := Forall (fun sl => slot_may sl s) slots.

Lemma keeps_upd_conv P f : keeps P R (upd_conv f).
Proof using ConvRel0. intros s _. apply tr_conv. Qed.

Hint Resolve keeps_upd_conv keeps_prepare keeps_execute_one keeps_run_tool : keeps.

Lemma keeps_add_result P call r : keeps P R (add_result cfg call r).
Proof using ToolRel0 ConvRel0. apply keeps_upd_conv. Qed.

Hint Resolve keeps_add_result : keeps.

Lemma slot_stable sl : stable R (slot_may sl).
Proof using ToolRel0. destruct sl; try done. apply tr_stable. Qed.
Lemma flight_stable f : stable R (flight_may f).
Proof using ToolRel0. destruct f; try done; apply tr_stable. Qed.
Lemma landed_stable l : stable R (landed_may l).
Proof using ToolRel0. destruct l; try done. apply tr_stable. Qed.
Lemma slots_stable slots : stable R (slots_may slots).
Proof using ToolRel0. intros s s' Hr Hs. eapply Forall_impl; [exact Hs|]. intros sl. by apply slot_stable. Qed.

Lemma keeps_submit_slot sl : keeps (slot_may sl) R (_submit_slot sl).
Proof using ToolRel0.
  destruct sl as [|r|t args]; [apply keeps_ret, tr_refl..|]. cbn [_submit_slot].
  change (slot_may (SlotPending t args)) with (may t args). keeps_tac.
Qed.

Lemma submit_slot_may sl : ensures (slot_may sl) (_submit_slot sl) flight_may.
Proof using ToolRel0.
  destruct sl as [|r|t args]; simpl; [by apply ensures_ret..|].
  eapply (ensures_bind _ (fun _ => may t args)); [apply (ensures_stable R); [apply tr_stable|by eapply keeps_submit]|].
  intros [j|]; [|by apply ensures_ret].
  eapply (ensures_bind _ (fun _ => may t args)); [apply (ensures_stable R); [apply tr_stable|by eapply keeps_env]|].
  intros started. by apply ensures_ret.
Qed.

Lemma keeps_collect cf : keeps (flight_may cf.2) R (_collect_flight cfg cf).
Proof using ToolRel0.
  destruct cf as [call [sk r|t args|t args j st]]; [apply keeps_ret, tr_refl..|]. cbn [_collect_flight].
  change (flight_may (call, FlightJob t args j st).2) with (may t args). keeps_tac.
Qed.

Lemma collect_may cf : ensures (flight_may cf.2) (_collect_flight cfg cf) landed_may.
Proof using ToolRel0.
  destruct cf as [call [sk r|t args|t args j st]]; simpl; [by apply ensures_ret..|].
  eapply (ensures_bind _ (fun _ => may t args));
    [apply (ensures_stable R); [apply tr_stable|apply keeps_await, may_stable]|].
  intros [r|]; [by apply ensures_ret|].
  eapply (ensures_bind _ (fun _ => may t args)); [apply (ensures_stable R); [apply tr_stable|by eapply keeps_env]|].
  intros now. by apply ensures_ret.
Qed.

Lemma keeps_record_landed cl : keeps (landed_may cl.2) R (_record_landed cfg cl).
Proof using ToolRel0 ConvRel0.
  destruct cl as [call [sk r|t args r]]; cbn [_record_landed].
  - change (landed_may (call, LandedEarly sk r).2) with (fun _ : St M W => True). keeps_tac.
  - change (landed_may (call, LandedRun t args r).2) with (may t args). keeps_tac.
Qed.

Lemma keeps_dispatch calls slots : keeps (slots_may slots) R (_dispatch_and_record cfg calls slots).
Proof using ToolRel0 ConvRel0.
  assert (forall {T U} (f : T -> A M W U) (may1 : T -> St M W -> Prop) l,
    (forall x, stable R (may1 x)) -> (forall x, keeps (may1 x) R (f x)) ->
    keeps (fun s => Forall (fun x => may1 x s) l) R (traverse f l)) as Htr.
  { intros T U f may1 l Hst Hf. apply keeps_traverse; [apply tr_refl|apply tr_trans| |].
    - intros s s' Hr Hs. eapply Forall_impl; [exact Hs|]. intros x. by apply Hst.
    - intros x Hx. eapply keeps_mono; [|apply Hf]. intros s Hs. by eapply Forall_forall in Hs. }
  assert (forall {T U} (f : T -> A M W U) (may1 : T -> St M W -> Prop) (may2 : U -> St M W -> Prop) l,
    (forall x, stable R (may1 x)) -> (forall x, stable R (may2 x)) ->
    (forall x, keeps (may1 x) R (f x)) -> (forall x, ensures (may1 x) (f x) may2) ->
    ensures (fun s => Forall (fun x => may1 x s) l) (traverse f l) (fun ys s => Forall (fun y => may2 y s) ys)) as Hen.
  { intros T U f may1 may2 l Hs1 Hs2 Hk He. apply (ensures_traverse R); [apply tr_refl|apply tr_trans| |done|].
    - intros s s' Hr Hs. eapply Forall_impl; [exact Hs|]. intros x. by apply Hs1.
    - intros x Hx. split.
      + eapply keeps_mono; [|apply Hk]. intros s Hs. by eapply Forall_forall in Hs.
      + intros s Hs. apply He. by eapply Forall_forall in Hs. }
  assert (forall {U} (m : U -> St M W -> Prop) (ys : list U) s, Forall (fun y => m y s) ys ->
    Forall (fun cy => m cy.2 s) (zip calls ys)) as Hzip.
  { intros U m ys s HF. apply Forall_forall. intros [c y] Hin. simpl.
    apply elem_of_zip_r in Hin. by eapply Forall_forall in HF. }
  unfold _dispatch_and_record.
  eapply keeps_bind_post; [apply tr_trans|apply (Htr _ _ _ slot_may); [apply slot_stable|apply keeps_submit_slot]|
    apply (Hen _ _ _ slot_may flight_may); [apply slot_stable|apply flight_stable|apply keeps_submit_slot|apply submit_slot_may]|].
  intros flights. cbv beta. eapply keeps_mono; [intros s; apply (Hzip _ flight_may)|].
  eapply keeps_bind_post; [apply tr_trans|
    apply (Htr _ _ _ (fun cf : ToolCall * flight => flight_may cf.2)); [intros; apply flight_stable|apply keeps_collect]|
    apply (Hen _ _ _ (fun cf : ToolCall * flight => flight_may cf.2) landed_may);
      [intros; apply flight_stable|apply landed_stable|apply keeps_collect|apply collect_may]|].
  intros results. cbv beta. eapply keeps_mono; [intros s; apply (Hzip _ landed_may)|].
  apply keeps_bind; [apply tr_trans| | |].
  - intros s s' Hr Hs. eapply Forall_impl; [exact Hs|]. intros [c l]. by apply landed_stable.
  - apply (Htr _ _ _ (fun cl : ToolCall * landed => landed_may cl.2)); [intros; apply landed_stable|apply keeps_record_landed].
  - intros errs. apply keeps_ret, tr_refl.
Qed.

Lemma keeps_pending_handler {T} P rest before e :
  stable R P -> keeps P R before -> keeps P R (pending_handler cfg rest before (T := T) e).
Proof using ToolRel0 PendRel0.
  intros HP Hb. unfold pending_handler, _save_pending_confirmation_checkpoint. keeps_tac.
Qed.

Hint Resolve keeps_pending_handler : keeps.

Lemma keeps_sequential P calls any : stable R P -> keeps P R (execute_sequentially cfg calls any).
Proof using ToolRel0 PendRel0 ConvRel0.
  intros HP. revert any; induction calls as [|call calls IH]; intros any; simpl; keeps_tac.
  - eapply keeps_pending_handler; [done|]. keeps_tac.
Qed.

Hint Resolve keeps_sequential slots_stable : keeps.

Lemma slots_may_snoc p slots s :
  ready_may p s -> slots_may slots s ->
  slots_may (slots ++ [match p with Early _ r => SlotEarly r | Ready t args => SlotPending t args end]) s.
Proof using Type. intros Hp Hs. apply Forall_app. split; [done|]. constructor; [|constructor]. by destruct p. Qed.

Lemma handler_never_returns {T} P rest before e Q :
  ensures P (pending_handler cfg rest before (T := T) e) Q.
Proof using Type.
  unfold pending_handler. destruct e; try apply ensures_throw.
  repeat (eapply ensures_bind; [apply ensures_any|intros ?]). apply ensures_throw.
Qed.

(** Gating one call of a parallel batch. *)
Definition gate_one (done : list ToolCall) (slots : list slot) (call : ToolCall) (calls : list ToolCall) : A M W prepared :=
  catch (_prepare_call cfg call) (pending_handler cfg (call :: calls) (_dispatch_and_record cfg done slots;; mret tt)).

Lemma keeps_gate_one done slots call calls : keeps (slots_may slots) R (gate_one done slots call calls).
Proof using ToolRel0 PendRel0 ConvRel0.
  apply keeps_catch; [apply tr_trans|apply slots_stable|apply keeps_prepare, slots_stable|].
  intros e. apply keeps_pending_handler; [apply slots_stable|].
  apply keeps_bind; [apply tr_trans|apply slots_stable|apply keeps_dispatch|]. intros _. apply keeps_ret, tr_refl.
Qed.

Lemma gate_one_ready done slots call calls :
  ensures (slots_may slots) (gate_one done slots call calls) (fun p s => ready_may p s /\ slots_may slots s).
Proof using ToolRel0 PendRel0 ConvRel0.
  assert (ensures (fun _ => True) (gate_one done slots call calls) ready_may) as Hr
    by (apply ensures_catch; [apply prepare_ready|intros e; apply handler_never_returns]).
  intros s Hs p Hp. split; [by apply Hr|].
  eapply slots_stable; [by apply (keeps_gate_one done slots call calls) | done].
Qed.

Lemma keeps_gate done slots calls : keeps (slots_may slots) R (gate_batch cfg done slots calls).
Proof using ToolRel0 PendRel0 ConvRel0.
  revert done slots; induction calls as [|call calls IH]; intros done slots; simpl; [apply keeps_ret, tr_refl|].
  apply keeps_bind; [apply tr_trans|apply slots_stable|apply keeps_cancelled, slots_stable|]. intros [].
  - eapply keeps_mono; [|apply IH]. intros s Hs. apply Forall_app. by split; [|constructor].
  - apply keeps_bind; [apply tr_trans|apply slots_stable|apply keeps_emit, slots_stable|]. intros _.
    eapply (keeps_bind_post R tr_trans); [apply keeps_gate_one|apply gate_one_ready|].
    intros p. eapply keeps_mono; [|apply IH]. intros s [Hp Hs]. by apply slots_may_snoc.
Qed.

Lemma gate_slots done slots calls : ensures (slots_may slots) (gate_batch cfg done slots calls) slots_may.
Proof using ToolRel0 PendRel0 ConvRel0.
  revert done slots; induction calls as [|call calls IH]; intros done slots; simpl; [by apply ensures_ret|].
  eapply ensures_bind; [apply (ensures_stable R); [apply slots_stable|apply keeps_cancelled, slots_stable]|].
  intros [].
  - intros s Hs. apply IH. apply Forall_app. by split; [|constructor].
  - eapply ensures_bind; [apply (ensures_stable R); [apply slots_stable|apply keeps_emit, slots_stable]|].
    intros ?. eapply ensures_bind; [apply gate_one_ready|]. intros p s [Hp Hs]. apply IH. by apply slots_may_snoc.
Qed.

Lemma keeps_parallel P calls : keeps P R (_execute_tool_calls_parallel cfg calls).
Proof using ToolRel0 PendRel0 ConvRel0.
  apply (keeps_mono R P (slots_may [])); [by constructor|]. unfold _execute_tool_calls_parallel.
  eapply (keeps_bind_post R tr_trans); [apply keeps_gate|apply gate_slots|]. intros slots. apply keeps_dispatch.
Qed.

Lemma keeps_execute_tool_calls P calls : stable R P -> keeps P R (_execute_tool_calls cfg calls).
Proof using ToolRel0 PendRel0 ConvRel0.
  intros HP. unfold _execute_tool_calls. case_match; [apply keeps_parallel | by apply keeps_sequential].
Qed.

Lemma keeps_persist P : stable R P -> keeps P R (_persist_state cfg).
Proof using ToolRel0. intros HP. unfold _persist_state. keeps_tac. Qed.

Hint Resolve keeps_parallel keeps_execute_tool_calls keeps_persist : keeps.

Lemma keeps_human_run call t args : dict_get (tc_name call) (tools cfg) = Some t ->
  keeps (fun _ => True) R
    (log (AHuman (tc_name call) args);; r ← _run_tool cfg t args;
     r ← _retry_transient_tool cfg call t args r; _finalize_call cfg call t args r;; mret r).
Proof using ToolRel0.
  intros Ht. eapply (keeps_bind_post R tr_trans _ (fun _ => may t args)); [apply keeps_human| |intros; keeps_tac].
  intros s _ x _. by apply tr_human_grant.
Qed.

Lemma keeps_resolve approved : keeps (fun _ => True) R (_resolve_pending_confirmation cfg approved).
Proof using ToolRel0 PendRel0 ConvRel0.
  unfold _resolve_pending_confirmation.
  apply keeps_bind; [apply tr_trans|done|apply keeps_gets, tr_refl|]. intros [p|]; [|apply keeps_throw, tr_refl].
  apply keeps_bind; [apply tr_trans|done|eauto with keeps|]. intros _.
  apply keeps_bind; [apply tr_trans|done| |intros; keeps_tac].
  destruct approved; [|keeps_tac].
  destruct (dict_get (tc_name (pc_call p)) (tools cfg)) eqn:E; [by apply keeps_human_run | keeps_tac].
Qed.
End Frame.
