(* ===== verification/AgentSafety.v ===== *)
(** * The agent: authorization and bounded execution

    Every relation that the tool-call methods keep and that also allows the loop's
    own attribute changes is kept by a whole [run]. Two such relations give the
    safety theorems: every execution of a tool was authorized for exactly the
    arguments it ran with, and at most eight jobs occupy the thread pool. *)

From stdpp Require Import base gmap strings list.
From Stdlib Require Import ZArith Lia SpecFloat.
From S2P Require Import Prelude Json Types Validation TextCompact Conversation EventBus Redact Hooks.
From S2P Require Import Compaction Policy Budgets Structured AgentState AgentTools AgentLoop AgentFrame.

(** What the loop itself changes besides the conversation; what a model call
    changes; and what starting and finishing a run changes. *)
Class LoopRel `{EventSink W} {M} (R : St M W -> St M W -> Prop) := {
  lr_answering : forall s a, R s (set_answering a s);
  lr_manager : forall s m, R s (set_manager m s);
  lr_escalate : keeps (fun _ => True) R escalate;
}.

Class LlmRel {M W} (R : St M W -> St M W -> Prop) := {
  lr_llm : forall s, R s (note ALlm s);
  lr_guards : forall s g, running_jobs g = running_jobs (guards s) -> R s (set_guards g s);
}.

Class RouteRel {M W} (R : St M W -> St M W -> Prop) := {
  lr_routing : forall s r, R s (set_routing r s);
  lr_run : forall s r, R s (set_runst r s);
}.

(** What the loop says in the conversation besides the model's turns and the tool
    results: user messages, compaction, the plan kept as metadata. *)
Class TalkRel `{PyRuntime} {M W} `{EventSink W} (cm : ContextManager M W) (cfg : Config)
    (R : St M W -> St M W -> Prop) := {
  tk_user : forall s t, R s (set_conv (add_user_message (conv s) t) s);
  tk_metadata : forall s md, R s (set_conv (set_metadata (conv s) md) s);
  tk_compact : keeps (fun _ => True) R (_maybe_compact_context cm cfg);
}.

Lemma compact_kept `{PyRuntime} `{EventSink W} {M} (cm : ContextManager M W) `{AgentEnv W} `{PermissionPolicy} cfg
    (R : St M W -> St M W -> Prop) may `{!ToolRel cfg R may} `{!ConvRel R} `{!LoopRel R} :
  keeps (fun _ => True) R (_maybe_compact_context cm cfg).
Proof.
  assert (forall P m, keeps P R (modify (set_manager m))) as Hm by (intros P m s _; apply lr_manager).
  assert (forall P st, keeps P R (modify (set_conv st))) as Hc by (intros P m s _; apply tr_conv).
  assert (forall ty payload, keeps (fun _ => True) R (_emit ty payload)) as He by (intros; by eapply keeps_emit).
  assert (forall P T (f : W -> T * W), keeps P R (env f)) as Hv by (intros; by eapply keeps_env).
  unfold _maybe_compact_context. keeps_tac.
Qed.

Lemma escalate_kept `{EventSink W} {M} `{PermissionPolicy} cfg (R : St M W -> St M W -> Prop) may
    `{!ToolRel cfg R may} `{!RouteRel R} : keeps (fun _ => True) R escalate.
Proof.
  assert (forall P f, keeps P R (upd_routing f)) as Hr by (intros P f s _; apply lr_routing).
  assert (forall ty payload, keeps (fun _ => True) R (_emit ty payload)) as He by (intros; by eapply keeps_emit).
  unfold escalate. keeps_tac.
Qed.

Section RunFrame.
Context `{PyRuntime} `{SecretPatterns} {M W : Type} (cm : ContextManager M W)
  `{EventSink W} `{AgentEnv W} `{PermissionPolicy}
  (cfg : Config) (R : St M W -> St M W -> Prop) (may : Tool -> jdict -> St M W -> Prop)
  `{!ToolRel cfg R may} `{!PendRel R} `{!ConvRel R} `{!LoopRel R} `{!LlmRel R} `{!RouteRel R} `{!TalkRel cm cfg R}.
Implicit Types P : St M W -> Prop.

Lemma k_env {T} P (f : W -> T * W) : keeps P R (env f).
Proof using ToolRel0. by eapply keeps_env. Qed.
Lemma k_env_ P f : keeps P R (env_ f).
Proof using ToolRel0. by eapply keeps_env_. Qed.
Lemma k_world P w : keeps P R (modify (set_world w)).
Proof using ToolRel0. intros s _. apply tr_world. Qed.
Lemma k_conv P f : keeps P R (upd_conv f).
Proof using ConvRel0. intros s _. apply tr_conv. Qed.
Lemma k_metadata P f : keeps P R (upd_conv (fun st => set_metadata st (f st))).
Proof using TalkRel0. intros s _. apply tk_metadata. Qed.
Lemma k_manager P m : keeps P R (modify (set_manager m)).
Proof using LoopRel0. intros s _. apply lr_manager. Qed.
Lemma k_routing P f : keeps P R (upd_routing f).
Proof using RouteRel0. intros s _. apply lr_routing. Qed.
Lemma k_answering P f : keeps P R (upd_answering f).
Proof using LoopRel0. intros s _. apply lr_answering. Qed.
Lemma k_run P f : keeps P R (upd_run f).
Proof using RouteRel0. intros s _. apply lr_run. Qed.
Lemma k_llm P : keeps P R (log ALlm).
Proof using LlmRel0. intros s _. apply lr_llm. Qed.
Lemma k_budget P f : keeps P R (upd_guards (fun g => set_budget (f g) g)).
Proof using LlmRel0. intros s _. by apply lr_guards. Qed.
Lemma k_usage P x : keeps P R (upd_guards (set_usage x)).
Proof using LlmRel0. intros s _. by apply lr_guards. Qed.
Lemma k_emit ty payload : keeps (fun _ => True) R (_emit ty payload).
Proof using ToolRel0. by eapply keeps_emit. Qed.
Lemma k_hooks P p ctx : keeps P R (_trigger_hooks cfg p ctx).
Proof using ToolRel0. by eapply keeps_hooks. Qed.
Lemma k_context p : keeps (fun _ => True) R (context_of (M := M) (W := W) p).
Proof using ToolRel0. by eapply keeps_context. Qed.
Lemma k_cancelled : keeps (fun _ => True) R is_cancelled.
Proof using ToolRel0. by eapply keeps_cancelled. Qed.
Lemma k_persist : keeps (fun _ => True) R (_persist_state cfg).
Proof using ToolRel0. by eapply keeps_persist. Qed.
Lemma k_tool_calls calls : keeps (fun _ => True) R (_execute_tool_calls cfg calls).
Proof using ToolRel0 PendRel0 ConvRel0. by eapply keeps_execute_tool_calls. Qed.

Hint Resolve k_metadata k_env k_env_ k_world k_manager k_routing k_answering k_run k_llm k_budget
  k_usage k_emit k_hooks k_context k_cancelled k_persist k_tool_calls : keeps.

Abbreviation kept m := (keeps (fun _ => True) R m).

Lemma k_escalate : kept escalate.
Proof using LoopRel0. apply lr_escalate. Qed.
Lemma k_apply_mode m : kept (_apply_mode (M := M) (W := W) m).
Proof using ToolRel0 LoopRel0 TalkRel0 LlmRel0 RouteRel0. unfold _apply_mode. keeps_tac. Qed.
Hint Resolve k_escalate k_apply_mode : keeps.
Lemma k_classify msg : kept (_classify_and_route (M := M) msg).
Proof using ToolRel0 LoopRel0 TalkRel0 LlmRel0 RouteRel0. unfold _classify_and_route. keeps_tac. Qed.
Lemma k_maybe_escalate i t e : kept (_maybe_escalate i t e).
Proof using ToolRel0 LoopRel0 TalkRel0. unfold _maybe_escalate. keeps_tac. Qed.
Lemma k_pause_wait : kept (pause_wait (M := M)).
Proof using ToolRel0. unfold pause_wait. keeps_tac. Qed.
Lemma k_add_user t : kept (add_user (W := W) t).
Proof using ToolRel0 LoopRel0 TalkRel0. intros s _. apply tk_user. Qed.
Hint Resolve k_classify k_maybe_escalate k_pause_wait k_add_user : keeps.
Lemma k_drain n : kept (drain_loop n).
Proof using ToolRel0 LoopRel0 TalkRel0. induction n as [|n IH]; simpl; keeps_tac. Qed.
Lemma k_inbox : kept (_drain_inbox cfg).
Proof using ToolRel0 LoopRel0 TalkRel0. apply k_drain. Qed.
Lemma k_compact : kept (_maybe_compact_context cm cfg).
Proof using TalkRel0. apply tk_compact. Qed.
Lemma k_record_usage r : kept (_record_usage r).
Proof using ToolRel0 LlmRel0. unfold _record_usage. keeps_tac. Qed.
Hint Resolve k_inbox k_compact k_record_usage : keeps.
Lemma k_chat req : kept (chat_once req).
Proof using ToolRel0 LlmRel0. unfold chat_once. keeps_tac. Qed.
Lemma k_consume es f : kept (consume es f).
Proof using ToolRel0. revert f; induction es as [|[] es IH]; intros f; simpl; keeps_tac. Qed.
Hint Resolve k_chat k_consume : keeps.
Lemma k_call_llm stream ap : kept (_call_llm cfg stream ap).
Proof using ToolRel0 LlmRel0. unfold _call_llm. keeps_tac. Qed.
Lemma k_budget_stop : kept _budget_stop_message.
Proof using ToolRel0. unfold _budget_stop_message. keeps_tac. Qed.
Lemma k_check_structured schema t n : kept (_check_structured schema t n).
Proof using ToolRel0 LoopRel0 TalkRel0. unfold _check_structured. keeps_tac. Qed.
Lemma k_not_verified {T} a f : kept (_raise_answer_not_verified (T := T) a f).
Proof using ToolRel0 LoopRel0 TalkRel0. unfold _raise_answer_not_verified. keeps_tac. Qed.
Lemma k_create_plan msg : kept (_create_plan cfg msg).
Proof using ToolRel0. unfold _create_plan. keeps_tac. Qed.
Lemma k_verify a : kept (_verify_final_answer a).
Proof using ToolRel0. unfold _verify_final_answer. keeps_tac. Qed.
Lemma k_recall q : kept (_recall_memory cfg q).
Proof using ToolRel0 LoopRel0 TalkRel0. unfold _recall_memory. keeps_tac. Qed.
Lemma k_store q t : kept (_store_memory q t).
Proof using ToolRel0. unfold _store_memory. keeps_tac. Qed.
Lemma k_clear : kept _clear_working_memory.
Proof using ToolRel0. unfold _clear_working_memory. keeps_tac. Qed.
Hint Resolve k_call_llm k_budget_stop k_check_structured k_not_verified k_create_plan k_verify k_recall
  k_store k_clear : keeps.
Lemma k_cancelled_at l : kept (cancelled_at l).
Proof using ToolRel0. unfold cancelled_at. keeps_tac. Qed.
Lemma k_final_answer o l t : kept (_final_answer cfg o l t).
Proof using ToolRel0 LoopRel0 TalkRel0. unfold _final_answer. keeps_tac. Qed.
Lemma k_turn stream l hr : kept (_turn cfg stream l hr).
Proof using ToolRel0 LoopRel0 TalkRel0 ConvRel0 LlmRel0. pose proof (fun f => k_conv (fun _ => True) f) as Hconv. unfold _turn. keeps_tac. Qed.
Hint Resolve k_cancelled_at k_final_answer k_turn : keeps.
Lemma k_tool_round l calls : kept (_tool_round cfg l calls).
Proof using ToolRel0 PendRel0 LoopRel0 TalkRel0 ConvRel0. unfold _tool_round. keeps_tac. Qed.
Hint Resolve k_tool_round : keeps.
Lemma k_iteration stream o l : kept (_iteration cm cfg stream o l).
Proof using ToolRel0 PendRel0 LoopRel0 TalkRel0 ConvRel0 LlmRel0. unfold _iteration. keeps_tac. Qed.
Lemma k_cap l : kept (_cap_reached l).
Proof using ToolRel0 LoopRel0 TalkRel0. unfold _cap_reached. keeps_tac. Qed.
Lemma k_no_fuel {T} : kept (no_fuel (T := T)).
Proof using ToolRel0. intros s _. apply tr_refl. Qed.
Hint Resolve k_iteration k_cap k_no_fuel : keeps.
Lemma k_loop fuel stream o l : kept (loop cm cfg fuel stream o l).
Proof using ToolRel0 PendRel0 LoopRel0 TalkRel0 ConvRel0 LlmRel0. revert l; induction fuel as [|fuel IH]; intros l; simpl; keeps_tac. Qed.
Hint Resolve k_loop : keeps.
Lemma k_run_loop stream o n : kept (_run_loop cm cfg stream o n).
Proof using ToolRel0 PendRel0 LoopRel0 TalkRel0 ConvRel0 LlmRel0. unfold _run_loop. keeps_tac. Qed.
Lemma k_start msg : kept (start_run cfg msg).
Proof using ToolRel0 LoopRel0 TalkRel0 LlmRel0 RouteRel0. unfold start_run, clear_cancel. keeps_tac. Qed.
Lemma k_failed {T} e : kept (run_failed cfg (T := T) e).
Proof using ToolRel0. unfold run_failed. keeps_tac. Qed.
Lemma k_finish msg t : kept (finish_run cfg msg t).
Proof using ToolRel0 RouteRel0. unfold finish_run. keeps_tac. Qed.
Hint Resolve k_run_loop k_start k_failed k_finish : keeps.

Lemma keeps_run msg stream schema retries v : kept (run cm cfg msg stream schema retries v).
Proof using ToolRel0 PendRel0 LoopRel0 TalkRel0 ConvRel0 LlmRel0 RouteRel0. unfold run. keeps_tac. Qed.
End RunFrame.

(** ** Authorization *)

Section Authorization.
Context `{PyRuntime} `{SecretPatterns} {M W : Type} `{EventSink W} `{AgentEnv W} `{PermissionPolicy} (cfg : Config).

(** Executing tool [n] with [args] was authorized by what happened before: the
    policy allowed exactly these arguments and, if it asked for confirmation, a
    hook approved; or a human approved this saved call. *)
Definition granted (n : pystr) (args : jdict) (before : list action) : Prop :=
  (exists d c, ADecide n args d c ∈ before /\ check n args = Ok d /\ allowed d = true /\
     (requires_confirmation d = true -> c = Approved)) \/
  AHuman n args ∈ before.

Definition authorized (tr : list action) : Prop :=
  forall before n args after, tr = before ++ AExec n args :: after -> granted n args before.

Definition auth_rel (s s' : St M W) : Prop :=
  (exists ext, trace s' = trace s ++ ext) /\ (authorized (trace s) -> authorized (trace s')).

Definition may_execute (t : Tool) (args : jdict) (s : St M W) : Prop := granted (t_name t) args (trace s).

Lemma granted_app n args a b : granted n args a -> granted n args (a ++ b).
Proof using Type.
  intros [(d & c & Hin & Hrest)|Hin]; [left; exists d, c; split; [set_solver|done] | right; set_solver].
Qed.

Lemma authorized_snoc tr a :
  (forall n args, a = AExec n args -> granted n args tr) -> authorized tr -> authorized (tr ++ [a]).
Proof using Type.
  intros Ha Htr before n args after Heq.
  destruct (decide (after = [])) as [->|Hne].
  - apply app_inj_tail in Heq as [-> ->]. by apply Ha.
  - destruct (exists_last Hne) as (after' & x & ->).
    rewrite app_comm_cons, app_assoc in Heq. apply app_inj_tail in Heq as [-> _]. by eapply Htr.
Qed.

Lemma auth_note s a :
  (forall n args, a = AExec n args -> granted n args (trace s)) -> auth_rel s (note a s).
Proof using Type. intros Ha. split; [by eexists|]. by apply authorized_snoc. Qed.

Lemma auth_same_trace (s s' : St M W) : trace s' = trace s -> auth_rel s s'.
Proof using Type. intros Heq. split; [exists []; by rewrite app_nil_r|]. by rewrite Heq. Qed.

(** The dispatch table maps a name to the tool of that name. *)
Definition tools_wf : Prop := forall n t, dict_get n (tools cfg) = Some t -> t_name t = n.

#[local] Instance auth_tool_rel (Hwf : tools_wf) : ToolRel cfg auth_rel may_execute.
Proof using Type.
  split; try (by intros; apply auth_same_trace).
  - intros a b c [[e1 H1'] Ha] [[e2 H2'] Hb]. split; [exists (e1 ++ e2); by rewrite H2', H1', app_assoc|auto].
  - intros t args s s' [[ext He] _] Hg. unfold may_execute. rewrite He. by apply granted_app.
  - intros. by apply auth_note.
  - intros. by apply auth_note.
  - intros s t args Hm. apply auth_note. by intros n a [= <- <-].
  - intros s n t args d c Ht Hc Ha Hr. unfold may_execute. rewrite (Hwf n t Ht). left. exists d, c. simpl. set_solver.
  - intros s n t args Ht. unfold may_execute. rewrite (Hwf n t Ht). right. simpl. set_solver.
Qed.

#[local] Instance auth_pend_rel : PendRel auth_rel.
Proof using Type. split; intros; by apply auth_same_trace. Qed.

#[local] Instance auth_conv_rel : ConvRel auth_rel.
Proof using Type. split. intros. by apply auth_same_trace. Qed.

#[local] Instance auth_llm_rel : LlmRel auth_rel.
Proof using Type. split; intros; [by apply auth_note | by apply auth_same_trace]. Qed.

#[local] Instance auth_route_rel : RouteRel auth_rel.
Proof using Type. split; intros; by apply auth_same_trace. Qed.

#[local] Instance auth_loop_rel (Hwf : tools_wf) : LoopRel auth_rel.
Proof using Type.
  pose proof (auth_tool_rel Hwf). split; try (by intros; apply auth_same_trace).
  exact (escalate_kept cfg auth_rel may_execute).
Qed.

#[local] Instance auth_talk_rel cm (Hwf : tools_wf) : TalkRel cm cfg auth_rel.
Proof using H2.
  pose proof (auth_tool_rel Hwf). pose proof (auth_loop_rel Hwf).
  split; try (by intros; apply auth_same_trace). exact (compact_kept cm cfg auth_rel may_execute).
Qed.

Lemma run_authorized (cm : ContextManager M W) (Hwf : tools_wf) s msg stream schema retries v :
  authorized (trace s) -> authorized (trace (run cm cfg msg stream schema retries v s).2).
Proof using Type.
  intros Ha. pose proof (auth_tool_rel Hwf) as Hrel. pose proof (auth_loop_rel Hwf) as Hloop.
  pose proof (auth_talk_rel cm Hwf) as Htalk. by apply (keeps_run cm cfg auth_rel may_execute msg stream schema retries v s I).
Qed.

Lemma resolve_authorized (Hwf : tools_wf) (s : St M W) approved :
  authorized (trace s) -> authorized (trace (_resolve_pending_confirmation cfg approved s).2).
Proof using Type.
  intros Ha. pose proof (auth_tool_rel Hwf) as Hrel.
  by apply (keeps_resolve cfg auth_rel may_execute approved s I).
Qed.
End Authorization.

(** ** The thread pool *)

Section Slots.
Context `{PyRuntime} `{SecretPatterns} {M W : Type} `{EventSink W} `{AgentEnv W} `{PermissionPolicy} (cfg : Config).

Definition jobs_rel (s s' : St M W) : Prop :=
  (length (running_jobs (guards s')) <= max tool_slots (length (running_jobs (guards s))))%nat.

#[local] Instance jobs_tool_rel : ToolRel cfg jobs_rel (fun _ _ _ => True).
Proof using Type. split; unfold jobs_rel; intros; simpl; try done; lia. Qed.

#[local] Instance jobs_pend_rel : PendRel jobs_rel.
Proof using Type. split; unfold jobs_rel; intros; simpl; lia. Qed.

#[local] Instance jobs_conv_rel : ConvRel jobs_rel.
Proof using Type. split; unfold jobs_rel; intros; simpl; lia. Qed.

#[local] Instance jobs_llm_rel : LlmRel jobs_rel.
Proof using Type. split; unfold jobs_rel; [|intros s g Hg]; intros; simpl; try lia. rewrite Hg. lia. Qed.

#[local] Instance jobs_route_rel : RouteRel jobs_rel.
Proof using Type. split; unfold jobs_rel; intros; simpl; lia. Qed.

#[local] Instance jobs_loop_rel : LoopRel jobs_rel.
Proof using H3 cfg. split; [unfold jobs_rel; intros; simpl; lia..|].
  exact (escalate_kept cfg jobs_rel (fun _ _ _ => True)). Qed.

#[local] Instance jobs_talk_rel cm : TalkRel cm cfg jobs_rel.
Proof using H2 H3.
  split; [unfold jobs_rel; intros; simpl; lia..|]. exact (compact_kept cm cfg jobs_rel (fun _ _ _ => True)).
Qed.

Lemma run_jobs_bounded (cm : ContextManager M W) s msg stream schema retries v :
  (length (running_jobs (guards s)) <= tool_slots)%nat ->
  (length (running_jobs (guards (run cm cfg msg stream schema retries v s).2)) <= tool_slots)%nat.
Proof using Type.
  intros Hj. pose proof (keeps_run cm cfg jobs_rel (fun _ _ _ => True) msg stream schema retries v s I) as Hr.
  unfold jobs_rel in Hr. lia.
Qed.
End Slots.

(** ** Theorems *)

(** C1: no tool runs unauthorized. In everything a run does, and in resolving a
    saved confirmation, each execution of a tool, sequential, parallel or
    retried, is preceded by the policy allowing exactly the arguments it runs
    with, after any hook replaced them, and by an approving hook when the policy
    asked for confirmation, or by a human approving that saved call. *)
Theorem every_execution_authorized `{PyRuntime} `{SecretPatterns} {M W} (cm : ContextManager M W)
    `{EventSink W} `{AgentEnv W} `{PermissionPolicy} cfg (s : St M W) msg stream schema retries v approved :
  tools_wf cfg -> authorized (trace s) ->
  authorized (trace (run cm cfg msg stream schema retries v s).2) /\
  authorized (trace (_resolve_pending_confirmation cfg approved s).2).
Proof. intros Hwf Ha. split; [by apply run_authorized | by apply resolve_authorized]. Qed.

