(* ===== verification/AgentBounds.v ===== *)
(** * The agent: termination and budgets

    The loop makes at most as many model calls as its iteration cap and its run
    budget allow, its mode only moves from FLASH to MAX, and its fuel is never
    used up. *)

From stdpp Require Import base gmap strings list.
From Stdlib Require Import ZArith Lia SpecFloat.
From S2P Require Import Prelude Json Types Validation TextCompact Conversation EventBus Redact Hooks.
From S2P Require Import Compaction Policy Budgets Structured AgentState AgentTools AgentLoop AgentFrame.
From S2P Require Import AgentSafety.

(** ** Methods that never run out of fuel *)

Section Fuel.
Context {M W : Type}.

Definition fueled {T} (m : A M W T) : Prop := forall s, (m s).1 <> NoFuel.

Lemma fueled_ret {T} (x : T) : fueled (mret x).
Proof. by intros s. Qed.
Lemma fueled_throw {T} e : fueled (throw (T := T) e).
Proof. by intros s. Qed.
Lemma fueled_block {T} : fueled (block (T := T)).
Proof. by intros s. Qed.
Lemma fueled_gets {T} (f : St M W -> T) : fueled (gets f).
Proof. by intros s. Qed.
Lemma fueled_lift {T} (r : result T) : fueled (lift r).
Proof. by destruct r; intros s. Qed.
Lemma fueled_modify f : fueled (modify f).
Proof. by intros s. Qed.
Lemma fueled_env {T} (f : W -> T * W) : fueled (env f).
Proof. intros s. unfold env. by destruct (f (world s)). Qed.
Lemma fueled_env_ (f : W -> W) : fueled (env_ f).
Proof. by intros s. Qed.
Lemma fueled_log a : fueled (log a).
Proof. by intros s. Qed.
Lemma fueled_conv f : fueled (upd_conv f).
Proof. by intros s. Qed.
Lemma fueled_routing f : fueled (upd_routing f).
Proof. by intros s. Qed.
Lemma fueled_answering f : fueled (upd_answering f).
Proof. by intros s. Qed.
Lemma fueled_run f : fueled (upd_run f).
Proof. by intros s. Qed.
Lemma fueled_guards f : fueled (upd_guards f).
Proof. by intros s. Qed.

Lemma fueled_bind {T U} (m : A M W T) (f : T -> A M W U) :
  fueled m -> (forall x, fueled (f x)) -> fueled (m ≫= f).
Proof.
  intros Hm Hf s. rewrite bind_eq. specialize (Hm s). destruct (m s) as [[x|e| |] s']; try done. apply Hf.
Qed.

Lemma fueled_catch {T} (m : A M W T) h : fueled m -> (forall e, fueled (h e)) -> fueled (catch m h).
Proof.
  intros Hm Hh s. unfold catch. specialize (Hm s). destruct (m s) as [[x|e| |] s']; try done. apply Hh.
Qed.

Lemma fueled_when b m : fueled m -> fueled (when b m).
Proof. intros Hm. destruct b; [done | apply fueled_ret]. Qed.

Lemma fueled_traverse {T U} (f : T -> A M W U) l : (forall x, fueled (f x)) -> fueled (traverse f l).
Proof.
  intros Hf. induction l as [|x l IH]; simpl; [apply fueled_ret|].
  apply fueled_bind; [done|]. intros y. apply fueled_bind; [done|]. intros ys. apply fueled_ret.
Qed.
End Fuel.

Create HintDb fueled discriminated.
#[export] Hint Constants Opaque : fueled.
#[export] Hint Resolve fueled_ret fueled_throw fueled_block fueled_gets fueled_lift fueled_modify fueled_env
  fueled_env_ fueled_log fueled_conv fueled_routing fueled_answering fueled_run fueled_guards : fueled.

Ltac fueled_step :=
  lazymatch goal with
  | |- fueled (when _ _) => apply fueled_when
  | |- fueled (mbind _ _) => apply fueled_bind
  | |- fueled (catch _ _) => apply fueled_catch
  | |- fueled (traverse _ _) => apply fueled_traverse
  | |- fueled (let '(_, _) := ?x in _) => destruct x
  | |- fueled (match ?x with _ => _ end) => destruct x
  end.

Ltac fueled_tac := repeat first [progress intros | solve [eauto 2 with fueled] | fueled_step].

Section FuelOps.
Context `{PyRuntime} `{SecretPatterns} {M W : Type} (cm : ContextManager M W)
  `{EventSink W} `{AgentEnv W} `{PermissionPolicy} (cfg : Config).

Abbreviation ok m := (fueled (M := M) (W := W) m).

Lemma f_emit ty p : ok (_emit ty p).
Proof. unfold _emit. fueled_tac. Qed.
Lemma f_hooks p ctx : ok (_trigger_hooks cfg p ctx).
Proof. unfold _trigger_hooks. fueled_tac. Qed.
Lemma f_context p : ok (context_of p).
Proof. unfold context_of. fueled_tac. Qed.
Lemma f_cancelled : ok is_cancelled.
Proof. unfold is_cancelled. fueled_tac. Qed.
Lemma f_record e : ok (record_audit e).
Proof. unfold record_audit. fueled_tac. Qed.
Hint Resolve f_emit f_hooks f_context f_cancelled f_record : fueled.
Lemma f_finished c r : ok (_emit_tool_call_finished c r).
Proof. unfold _emit_tool_call_finished. fueled_tac. Qed.
Lemma f_deny c y i : ok (_deny_call c y i).
Proof. unfold _deny_call. fueled_tac. Qed.
Lemma f_open t : ok (_circuit_is_open t).
Proof. unfold _circuit_is_open. fueled_tac. Qed.
Lemma f_circuit n t r : ok (_record_circuit_result n t r).
Proof. unfold _record_circuit_result. fueled_tac. Qed.
Lemma f_invoke t a : ok (_invoke_tool t a).
Proof. unfold _invoke_tool, returned. fueled_tac. Qed.
Lemma f_submit t a : ok (_submit_timed_tool t a).
Proof. unfold _submit_timed_tool. fueled_tac. Qed.
Lemma f_await j t : ok (await_job j t).
Proof. unfold await_job. fueled_tac. Qed.
Hint Resolve f_finished f_deny f_open f_circuit f_invoke f_submit f_await : fueled.
Lemma f_run_tool t a : ok (_run_tool cfg t a).
Proof. unfold _run_tool. fueled_tac. Qed.
Hint Resolve f_run_tool : fueled.
Lemma f_retry_loop n k c t a r : ok (retry_loop cfg n k c t a r).
Proof. revert k r; induction n as [|n IH]; intros k r; simpl; fueled_tac. Qed.
Lemma f_retry c t a r : ok (_retry_transient_tool cfg c t a r).
Proof. apply f_retry_loop. Qed.
Lemma f_finalize c t a r : ok (_finalize_call cfg c t a r).
Proof. unfold _finalize_call, audit_result. fueled_tac. Qed.
Lemma f_confirm c a d : ok (_confirmation_status cfg c a d).
Proof. unfold _confirmation_status. fueled_tac. Qed.
Lemma f_save : ok save_checkpoint.
Proof. unfold save_checkpoint. fueled_tac. Qed.
Lemma f_before c : ok (_before_hooks cfg c).
Proof. unfold _before_hooks. fueled_tac. Qed.
Lemma f_admit c a : ok (_admit cfg c a).
Proof. unfold _admit, audit_result. fueled_tac. Qed.
Hint Resolve f_retry f_finalize f_confirm f_save f_before f_admit : fueled.
Lemma f_prepare c : ok (_prepare_call cfg c).
Proof. unfold _prepare_call, audit_call. fueled_tac. Qed.
Hint Resolve f_prepare : fueled.
Lemma f_one c : ok (_execute_one cfg c).
Proof. unfold _execute_one. fueled_tac. Qed.
Lemma f_add c r : ok (add_result cfg c r).
Proof. unfold add_result. fueled_tac. Qed.
Hint Resolve f_one f_add : fueled.
Lemma f_handler {T} l b e : ok b -> ok (pending_handler cfg l b (T := T) e).
Proof. intros Hb. unfold pending_handler, _save_pending_confirmation_checkpoint. fueled_tac. Qed.
Hint Resolve f_handler : fueled.
Lemma f_sequential l b : ok (execute_sequentially cfg l b).
Proof. revert b; induction l as [|c l IH]; intros b; simpl; fueled_tac. Qed.
Lemma f_submit_slot x : ok (_submit_slot x).
Proof. unfold _submit_slot. fueled_tac. Qed.
Lemma f_collect x : ok (_collect_flight cfg x).
Proof. unfold _collect_flight. fueled_tac. Qed.
Lemma f_landed x : ok (_record_landed cfg x).
Proof. unfold _record_landed. fueled_tac. Qed.
Hint Resolve f_sequential f_submit_slot f_collect f_landed : fueled.
Lemma f_dispatch l x : ok (_dispatch_and_record cfg l x).
Proof. unfold _dispatch_and_record. fueled_tac. Qed.
Hint Resolve f_dispatch : fueled.
Lemma f_gate d x l : ok (gate_batch cfg d x l).
Proof.
  revert d x; induction l as [|c l IH]; intros d x; simpl; fueled_tac. apply f_handler. fueled_tac.
Qed.
Hint Resolve f_gate : fueled.
Lemma f_calls l : ok (_execute_tool_calls cfg l).
Proof. unfold _execute_tool_calls, _execute_tool_calls_parallel. fueled_tac. Qed.
Lemma f_persist : ok (_persist_state cfg).
Proof. unfold _persist_state. fueled_tac. Qed.
Lemma f_escalate : ok escalate.
Proof. unfold escalate. fueled_tac. Qed.
Lemma f_apply m : ok (_apply_mode m).
Proof. unfold _apply_mode. fueled_tac. Qed.
Hint Resolve f_calls f_persist f_escalate f_apply : fueled.
Lemma f_classify msg : ok (_classify_and_route msg).
Proof. unfold _classify_and_route. fueled_tac. Qed.
Lemma f_maybe i a b : ok (_maybe_escalate i a b).
Proof. unfold _maybe_escalate. fueled_tac. Qed.
Lemma f_pause : ok pause_wait.
Proof. unfold pause_wait. fueled_tac. Qed.
Lemma f_user t : ok (add_user t).
Proof. unfold add_user. fueled_tac. Qed.
Hint Resolve f_classify f_maybe f_pause f_user : fueled.
Lemma f_drain n : ok (drain_loop n).
Proof. induction n as [|n IH]; simpl; fueled_tac. Qed.
Lemma f_inbox : ok (_drain_inbox cfg).
Proof. apply f_drain. Qed.
Lemma f_compact : ok (_maybe_compact_context cm cfg).
Proof. unfold _maybe_compact_context. fueled_tac. Qed.
Lemma f_usage r : ok (_record_usage r).
Proof. unfold _record_usage. fueled_tac. Qed.
Hint Resolve f_inbox f_compact f_usage : fueled.
Lemma f_chat q : ok (chat_once q).
Proof. unfold chat_once. fueled_tac. Qed.
Lemma f_consume l f : ok (consume l f).
Proof. revert f; induction l as [|[] l IH]; intros f; simpl; fueled_tac. Qed.
Hint Resolve f_chat f_consume : fueled.
Lemma f_call b a : ok (_call_llm cfg b a).
Proof. unfold _call_llm. fueled_tac. Qed.
Lemma f_stop : ok _budget_stop_message.
Proof. unfold _budget_stop_message. fueled_tac. Qed.
Lemma f_structured x t n : ok (_check_structured x t n).
Proof. unfold _check_structured. fueled_tac. Qed.
Lemma f_rejected {T} a b : ok (_raise_answer_not_verified (T := T) a b).
Proof. unfold _raise_answer_not_verified. fueled_tac. Qed.
Lemma f_plan msg : ok (_create_plan cfg msg).
Proof. unfold _create_plan. fueled_tac. Qed.
Lemma f_verify a : ok (_verify_final_answer a).
Proof. unfold _verify_final_answer. fueled_tac. Qed.
Lemma f_recall q : ok (_recall_memory cfg q).
Proof. unfold _recall_memory. fueled_tac. Qed.
Lemma f_store q t : ok (_store_memory q t).
Proof. unfold _store_memory. fueled_tac. Qed.
Lemma f_clear : ok _clear_working_memory.
Proof. unfold _clear_working_memory. fueled_tac. Qed.
Lemma f_at l : ok (cancelled_at l).
Proof. unfold cancelled_at. fueled_tac. Qed.
Hint Resolve f_call f_stop f_structured f_rejected f_plan f_verify f_recall f_store f_clear f_at : fueled.
Lemma f_final o l t : ok (_final_answer cfg o l t).
Proof. unfold _final_answer. fueled_tac. Qed.
Lemma f_turn b l r : ok (_turn cfg b l r).
Proof. unfold _turn. fueled_tac. Qed.
Lemma f_round l c : ok (_tool_round cfg l c).
Proof. unfold _tool_round. fueled_tac. Qed.
Hint Resolve f_final f_turn f_round : fueled.
Lemma f_iteration b o l : ok (_iteration cm cfg b o l).
Proof. unfold _iteration. fueled_tac. Qed.
Lemma f_cap l : ok (_cap_reached l).
Proof. unfold _cap_reached. fueled_tac. Qed.
Lemma f_start msg : ok (start_run cfg msg).
Proof. unfold start_run, clear_cancel. fueled_tac. Qed.
Lemma f_failed {T} e : ok (run_failed cfg (T := T) e).
Proof. unfold run_failed. fueled_tac. Qed.
Lemma f_finish msg t : ok (finish_run cfg msg t).
Proof. unfold finish_run. fueled_tac. Qed.
Hint Resolve f_iteration f_cap f_start f_failed f_finish : fueled.
End FuelOps.

(** ** What the loop does to routing, budget and the number of model calls *)

#[export] Instance action_llm_dec (a : action) : Decision (a = ALlm).
Proof. destruct a; [by left | by right..]. Defined.

Definition llm_calls {M W} (s : St M W) : Z := zlen (filter (fun a => a = ALlm) (trace s)).

(** Routing only moves towards MAX, and the cap only changes to the MAX default
    when the caller pinned none. *)
Definition routing_le (r r' : Routing) : Prop :=
  _max_iterations_override r' = _max_iterations_override r /\
  (mode r = MAX -> mode r' = MAX) /\ (_sticky_max r = true -> _sticky_max r' = true) /\
  (_max_iterations_override r <> None -> max_iterations r' = max_iterations r) /\
  (max_iterations r' = max_iterations r \/ max_iterations r' = mode_max_iterations MAX).

Definition quiet {M W} (s s' : St M W) : Prop :=
  routing_le (routing s) (routing s') /\ llm_calls s' = llm_calls s /\
  run_budget (guards s') = run_budget (guards s).

Lemma routing_le_refl r : routing_le r r.
Proof. unfold routing_le. naive_solver. Qed.

Lemma routing_le_trans a b c : routing_le a b -> routing_le b c -> routing_le a c.
Proof.
  intros (Ho & Hm & Hs & Hp & Hc) (Ho' & Hm' & Hs' & Hp' & Hc'). unfold routing_le.
  split; [congruence|]. split; [auto|]. split; [auto|]. split.
  - intros Hn. rewrite Hp', Hp by congruence. done.
  - destruct Hc' as [-> | ->]; [done|by right].
Qed.

Lemma quiet_refl {M W} (s : St M W) : quiet s s.
Proof. split; [apply routing_le_refl | done]. Qed.

(** A change outside what [quiet] observes. *)
Lemma quiet_same {M W} (s s' : St M W) :
  routing s' = routing s -> trace s' = trace s -> run_budget (guards s') = run_budget (guards s) -> quiet s s'.
Proof. intros Hr Ht Hb. unfold quiet, llm_calls. rewrite Hr, Ht, Hb. split; [apply routing_le_refl|done]. Qed.

Lemma quiet_trans {M W} (a b c : St M W) : quiet a b -> quiet b c -> quiet a c.
Proof.
  intros (Hr & Hl & Hb) (Hr' & Hl' & Hb'). split; [by eapply routing_le_trans|]. split; congruence.
Qed.

Lemma llm_calls_note {M W} (s : St M W) a :
  llm_calls (note a s) = (llm_calls s + if decide (a = ALlm) then 1 else 0)%Z.
Proof.
  unfold llm_calls. simpl. rewrite filter_app, zlen_app. f_equal. rewrite filter_cons.
  by destruct (decide (a = ALlm)).
Qed.

Section Bounds.
Context `{PyRuntime} `{SecretPatterns} {M W : Type} (cm : ContextManager M W)
  `{EventSink W} `{AgentEnv W} `{PermissionPolicy} (cfg : Config).
Implicit Types s : St M W.

#[local] Instance quiet_tool_rel : ToolRel cfg (quiet (M := M) (W := W)) (fun _ _ _ => True).
Proof using Type.
  split; try done.
  - apply quiet_refl.
  - apply quiet_trans.
  - intros. by apply quiet_same.
  - intros. by apply quiet_same.
  - intros. by apply quiet_same.
  - intros s g Hb _ _. by apply quiet_same.
  - intros. split; [apply routing_le_refl|]. rewrite llm_calls_note. simpl. split; [lia|done].
  - intros. split; [apply routing_le_refl|]. rewrite llm_calls_note. simpl. split; [lia|done].
  - intros. split; [apply routing_le_refl|]. rewrite llm_calls_note. simpl. split; [lia|done].
Qed.

#[local] Instance quiet_pend_rel : PendRel (quiet (M := M) (W := W)).
Proof using Type. split; intros; by apply quiet_same. Qed.

#[local] Instance quiet_conv_rel : ConvRel (quiet (M := M) (W := W)).
Proof using Type. split. intros. by apply quiet_same. Qed.

Lemma emit_world ty payload s : exists w, _emit ty payload s = (Ret tt, set_world w s).
Proof using Type. unfold _emit. rewrite bind_eq. simpl. by eexists. Qed.

Definition escalated_routing (r : Routing) : Routing :=
  let r1 := set_sticky true (set_reasoning true (set_mode MAX r)) in
  if bool_decide (_max_iterations_override r = None) then set_max_iterations (mode_max_iterations MAX) r1 else r1.

(** Escalating from FLASH, in one equation; in MAX it does nothing. *)
Lemma escalate_eq s :
  (mode (routing s) = MAX /\ escalate s = (Ret false, s)) \/
  (mode (routing s) = FLASH /\
   exists w, escalate s = (Ret true, set_world w (set_routing (escalated_routing (routing s)) s))).
Proof using Type.
  destruct s as [c m [[] er n [o|] sm] an ru g au w tr].
  1,2: right; split; [done|]; eexists; vm_compute; reflexivity.
  1,2: left; split; reflexivity.
Qed.

Lemma escalate_quiet : keeps (fun _ => True) (quiet (M := M) (W := W)) escalate.
Proof using Type.
  intros s _. destruct (escalate_eq s) as [[Hm ->]|[Hm [w ->]]]; [apply quiet_refl|].
  split; [|done]. unfold routing_le, escalated_routing. simpl.
  case_bool_decide; simpl; rewrite Hm; naive_solver.
Qed.

#[local] Instance quiet_loop_rel : LoopRel (quiet (M := M) (W := W)).
Proof using Type. split; [intros; by apply quiet_same..|apply escalate_quiet]. Qed.

#[local] Instance quiet_talk_rel : TalkRel cm cfg (quiet (M := M) (W := W)).
Proof using H2 H3.
  split; [intros; by apply quiet_same..|]. exact (compact_kept cm cfg quiet (fun _ _ _ => True)).
Qed.

(** One recorded model call. *)
Definition charged (b b' : option RunBudget) : Prop :=
  exists us, b' = option_map (fun b => budget_record b us) b.

(** From [s], [k] model calls were made; a method that returned recorded its call. *)
Definition called {T} (k : Z) (o : outcome T) s s' : Prop :=
  routing_le (routing s) (routing s') /\ llm_calls s' = (llm_calls s + k)%Z /\
  match o with
  | Ret _ => charged (run_budget (guards s)) (run_budget (guards s'))
  | _ => run_budget (guards s') = run_budget (guards s) \/ charged (run_budget (guards s)) (run_budget (guards s'))
  end.

Lemma quiet_called {T} k (o : outcome T) a b c : quiet a b -> called k o b c -> called k o a c.
Proof using Type.
  intros (Hr & Hl & Hb) (Hr' & Hl' & Hb'). split; [by eapply routing_le_trans|]. split; [lia|].
  rewrite <- Hb. done.
Qed.

Lemma called_quiet {T U} k (o : outcome T) (o' : outcome U) a b c :
  called k o a b -> (o' = Blocked \/ o' = NoFuel \/ exists e, o' = Raise e) \/ (exists x, o = Ret x) ->
  quiet b c -> called k o' a c.
Proof using Type.
  intros (Hr & Hl & Hb) Ho (Hr' & Hl' & Hb'). split; [by eapply routing_le_trans|]. split; [lia|].
  rewrite Hb'. destruct Ho as [[-> |[-> |[e ->]]]|[x ->]].
  1-3: destruct o; auto.
  destruct o'; auto.
Qed.

(** A call followed by quiet steps, and quiet steps that end early. *)
Lemma called_bind {T U} k (m : A M W T) (f : T -> A M W U) s :
  called k (m s).1 s (m s).2 -> (forall x, keeps (fun _ => True) quiet (f x)) ->
  called k ((m ≫= f) s).1 s ((m ≫= f) s).2.
Proof using Type.
  intros Hc Hf. rewrite bind_eq. destruct (m s) as [[x|e| |] s1]; simpl in *; try done.
  eapply called_quiet; [exact Hc|right; by eexists|by apply Hf].
Qed.

Lemma bind_called {T U} (m : A M W T) (f : T -> A M W U) s :
  keeps (fun _ => True) quiet m ->
  (forall x s1, m s = (Ret x, s1) -> called 0 (f x s1).1 s1 (f x s1).2) ->
  called 0 ((m ≫= f) s).1 s ((m ≫= f) s).2.
Proof using Type.
  intros Hm Hf. specialize (Hm s I). rewrite bind_eq. destruct (m s) as [[x|e| |] s1] eqn:E; simpl in *.
  1: eapply quiet_called; [exact Hm | by apply Hf].
  all: destruct Hm as (Hr & Hl & Hb); split; [done|]; split; [lia|by left].
Qed.

Lemma record_usage_called r s : called 0 (_record_usage (M := M) r s).1 s (_record_usage r s).2.
Proof using H3 cfg.
  unfold _record_usage. rewrite bind_eq. unfold upd_guards at 1, modify at 1. cbv beta iota.
  set (s1 := set_guards _ s).
  match goal with |- called _ (?m s1).1 _ _ => assert (keeps (fun _ => True) quiet m) as Hk end.
  { assert (forall ty payload, keeps (fun _ => True) quiet (_emit (M := M) ty payload)) as He
      by (intros; by apply (keeps_emit cfg quiet (fun _ _ _ => True))).
    assert (forall x, keeps (fun _ => True) quiet (upd_guards (M := M) (W := W) (set_usage x))) as Hu
      by (intros x a _; by apply quiet_same).
    keeps_tac. }
  specialize (Hk s1 I). assert (called 0 (Ret tt) s s1) as Hc.
  { split; [apply routing_le_refl|]. split; [unfold llm_calls; simpl; lia|]. by eexists. }
  eapply called_quiet; [exact Hc|right; by eexists|exact Hk].
Qed.

Abbreviation silent m := (keeps (fun _ => True) (quiet (M := M) (W := W)) m).

Lemma q_env {T} (f : W -> T * W) : silent (env f).
Proof using H3 cfg. by apply (keeps_env cfg quiet (fun _ _ _ => True)). Qed.
Lemma q_emit ty payload : silent (_emit ty payload).
Proof using H3 cfg. by apply (keeps_emit cfg quiet (fun _ _ _ => True)). Qed.
Lemma q_conv f : silent (upd_conv f).
Proof using Type. intros s _. by apply quiet_same. Qed.
Lemma q_ret {T} (x : T) : silent (mret x).
Proof using Type. apply keeps_ret, quiet_refl. Qed.
Lemma q_gets {T} (f : St M W -> T) : silent (gets f).
Proof using Type. apply keeps_gets, quiet_refl. Qed.
Lemma q_lift {T} (r : result T) : silent (lift r).
Proof using Type. apply keeps_lift, quiet_refl. Qed.
Lemma q_context p : silent (context_of p).
Proof using H3 cfg. by apply (keeps_context cfg quiet (fun _ _ _ => True)). Qed.
Lemma q_hooks p ctx : silent (_trigger_hooks cfg p ctx).
Proof using H3. by apply (keeps_hooks cfg quiet (fun _ _ _ => True)). Qed.

Hint Resolve q_env q_emit q_conv q_ret q_gets q_lift q_context q_hooks : keeps.

Lemma chat_called req s : called 0 (chat_once (M := M) req s).1 s (chat_once req s).2.
Proof using H3 cfg.
  unfold chat_once. apply bind_called; [apply q_env|]. intros r s1 _.
  apply bind_called; [apply q_lift|]. intros x s2 _.
  apply called_bind; [apply record_usage_called|]. intros []. apply q_ret.
Qed.

Lemma throw_called {T} e s : called 0 (throw (T := T) e s).1 s (throw (M := M) (W := W) (T := T) e s).2.
Proof using Type. split; [apply routing_le_refl|]. split; [simpl; lia|by left]. Qed.

Lemma call_llm_called stream ap s : called 1 (_call_llm (M := M) cfg stream ap s).1 s (_call_llm cfg stream ap s).2.
Proof using H H1 H2 H3 M W cfg cm.
  unfold _call_llm. rewrite bind_eq. unfold gets at 1. cbv beta iota zeta.
  rewrite bind_eq. unfold log at 1, modify at 1. cbv beta iota.
  set (s1 := note ALlm s).
  match goal with |- called 1 (?m s1).1 _ _ => assert (called 0 (m s1).1 s1 (m s1).2) as Hc end.
  { destruct stream; simpl negb; cbv iota; [|apply chat_called].
    apply bind_called; [apply q_env|]. intros [es e] s2 _.
    apply bind_called; [apply (k_consume cfg quiet (fun _ _ _ => True))|]. intros final s3 _.
    destruct e; [|apply chat_called|apply throw_called].
    apply called_bind; [apply record_usage_called|]. intros []. apply q_ret. }
  destruct Hc as (Hr & Hl & Hb). split; [exact Hr|]. split; [|exact Hb].
  pose proof (llm_calls_note s ALlm) as Hn. fold s1 in Hn. rewrite decide_True in Hn by done.
  transitivity (llm_calls s1 + 0)%Z; [exact Hl | rewrite Hn; lia].
Qed.

Lemma turn_called stream l hr s : called 1 (_turn (M := M) cfg stream l hr s).1 s (_turn cfg stream l hr s).2.
Proof using H H1 H2 H3 M W cfg cm.
  unfold _turn. rewrite bind_eq. unfold gets at 1. cbv beta iota.
  apply called_bind; [apply call_llm_called|]. intros r.
  assert (forall T (x : option pystr) (f : pystr -> A M W T) (g : A M W T),
    (forall y, silent (f y)) -> silent g -> silent (match x with Some t => f t | None => g end)) as Hm
    by (by intros T [|] f g Hf Hg).
  keeps_tac.
Qed.

(** ** One iteration *)

Definition budget_allows s : Prop :=
  match run_budget (guards s) with Some b => is_ok (budget_check b) = true | None => True end.

(** What an iteration of the loop does, however it ends. *)
Definition iterated (l : Loop) (o : outcome loop_exit) s s' : Prop :=
  routing_le (routing s) (routing s') /\
  match o with
  | Ret (LNext l') =>
      l_iteration l' = (l_iteration l + 1)%Z /\ budget_allows s /\
      llm_calls s' = (llm_calls s + 1)%Z /\ charged (run_budget (guards s)) (run_budget (guards s'))
  | _ => llm_calls s' = llm_calls s \/ (budget_allows s /\ llm_calls s' = (llm_calls s + 1)%Z)
  end.

Definition next_or_done (l : Loop) (x : loop_exit) s : Prop :=
  match x with LNext l' => l_iteration l' = (l_iteration l + 1)%Z | LDone _ => True end.

Lemma quiet_iterated l o a b c : quiet a b -> iterated l o b c -> iterated l o a c.
Proof using Type.
  intros (Hr & Hl & Hb) (Hr' & Ho). split; [by eapply routing_le_trans|].
  unfold budget_allows in *. rewrite <- Hb, <- Hl. exact Ho.
Qed.

Lemma bind_iterated {T} l (m : A M W T) (f : T -> A M W loop_exit) s :
  silent m -> (forall x s1, m s = (Ret x, s1) -> iterated l (f x s1).1 s1 (f x s1).2) ->
  iterated l ((m ≫= f) s).1 s ((m ≫= f) s).2.
Proof using Type.
  intros Hm Hf. specialize (Hm s I). rewrite bind_eq. destruct (m s) as [[x|e| |] s1] eqn:E; simpl in *.
  1: eapply quiet_iterated; [exact Hm | by apply Hf].
  all: destruct Hm as (Hr & Hl & Hb); split; [done|]; by left.
Qed.

Lemma done_iterated l (m : A M W loop_exit) s :
  silent m -> ensures (fun _ => True) m (fun x _ => match x with LDone _ => True | LNext _ => False end) ->
  iterated l (m s).1 s (m s).2.
Proof using Type.
  intros Hm He. specialize (Hm s I). specialize (He s I).
  destruct (m s) as [[[l'|t]|e| |] s1]; simpl in *; destruct Hm as (Hr & Hl & Hb); split; try done; try by left.
  all: by destruct (He _ eq_refl).
Qed.

Lemma turn_iterated l stream hr (f : LLMResponse -> A M W loop_exit) s :
  budget_allows s -> (forall r, silent (f r)) -> (forall r, ensures (fun _ => True) (f r) (next_or_done l)) ->
  iterated l ((_turn cfg stream l hr ≫= f) s).1 s ((_turn cfg stream l hr ≫= f) s).2.
Proof using H H1 H2 H3 M W cfg cm.
  intros Hb Hf He. pose proof (called_bind 1 (_turn cfg stream l hr) f s (turn_called stream l hr s) Hf) as (Hr & Hl & Hc).
  split; [done|]. rewrite bind_eq in *. destruct (_turn cfg stream l hr s) as [[r|e| |] s1]; simpl in *; [|by right..].
  specialize (He r s1 I). destruct (f r s1) as [[[l'|t]|e| |] s2]; simpl in *; try by right.
  by specialize (He _ eq_refl).
Qed.

Lemma ensures_then {T U} P (m : A M W T) (f : T -> A M W U) Q :
  (forall x, ensures (fun _ => True) (f x) Q) -> ensures P (m ≫= f) Q.
Proof using Type. intros Hf. eapply ensures_bind; [apply ensures_any|exact Hf]. Qed.

Lemma final_answer_next o l t : ensures (fun _ => True) (_final_answer cfg o l t) (next_or_done l).
Proof using Type.
  unfold _final_answer. apply ensures_then. intros [].
  - by apply ensures_ret.
  - destruct (has_verifier cfg); [|apply ensures_then; intros; by apply ensures_ret].
    apply ensures_then. intros [acc fb]. destruct acc; [apply ensures_then; intros; by apply ensures_ret|].
    destruct (l_verification_left l <=? 0)%Z; [apply ensures_then; intros; apply ensures_throw|].
    repeat (apply ensures_then; intros ?). by apply ensures_ret.
Qed.

Lemma tool_round_next l calls : ensures (fun _ => True) (_tool_round cfg l calls) (next_or_done l).
Proof using Type.
  unfold _tool_round. do 3 (apply ensures_then; intros ?). case_match.
  - apply ensures_then. intros ?. by apply ensures_ret.
  - do 3 (apply ensures_then; intros ?). case_match.
    + apply ensures_then. intros ?. by apply ensures_ret.
    + apply ensures_then. intros ?. by apply ensures_ret.
Qed.

Lemma budget_stop_none s s1 : _budget_stop_message (M := M) s = (Ret None, s1) -> budget_allows s1.
Proof using Type.
  unfold _budget_stop_message. rewrite bind_eq. unfold gets at 1. cbv beta iota. unfold budget_allows.
  destruct (run_budget (guards s)) as [b|] eqn:Eb; [|intros [= <-]; by rewrite Eb].
  destruct (budget_check b) eqn:Ec; [intros [= <-]; by rewrite Eb, Ec|].
  rewrite bind_eq. destruct (emit_world (u "agent.budget_exceeded") (budget_details b) s) as [w ->]. done.
Qed.

Lemma iteration_iterated stream o l s :
  iterated l (_iteration cm cfg stream o l s).1 s (_iteration cm cfg stream o l s).2.
Proof using Type.
  unfold _iteration. apply bind_iterated; [apply (k_pause_wait cfg quiet (fun _ _ _ => True))|]. intros _ s1 _.
  assert (forall s, iterated l (cancelled_at l s).1 s (cancelled_at (M := M) l s).2) as Hcan.
  { intros s0. apply done_iterated; [apply (k_cancelled_at cfg quiet (fun _ _ _ => True))|].
    unfold cancelled_at. apply ensures_then. intros _. by apply ensures_ret. }
  apply bind_iterated; [apply (keeps_cancelled cfg quiet (fun _ _ _ => True)); done|]. intros [] s2 _; [apply Hcan|].
  apply bind_iterated; [apply q_gets|]. intros m s3 _.
  apply bind_iterated; [apply q_emit|]. intros _ s4 _.
  apply bind_iterated; [apply (k_compact cm cfg quiet)|]. intros _ s5 _.
  apply bind_iterated; [apply q_gets|]. intros st s6 _.
  apply bind_iterated; [apply q_context|]. intros ctx s7 _.
  apply bind_iterated; [apply q_hooks|]. intros hr s8 _.
  apply bind_iterated; [apply (keeps_cancelled cfg quiet (fun _ _ _ => True)); done|]. intros [] s9 _; [apply Hcan|].
  apply bind_iterated; [apply (k_budget_stop cfg quiet (fun _ _ _ => True))|]. intros [text|] s10 Hstop.
  - by apply done_iterated; [apply q_ret|apply ensures_ret].
  - apply turn_iterated; [by eapply budget_stop_none| |].
    + intros r. destruct (tool_calls r); [apply (k_final_answer cm cfg quiet (fun _ _ _ => True))|
        apply (k_tool_round cm cfg quiet (fun _ _ _ => True))].
    + intros r. destruct (tool_calls r); [apply final_answer_next | apply tool_round_next].
Qed.

(** ** The loop *)

(** How many more calls the run budget allows, when it limits calls. *)
Definition calls_left s : option Z :=
  match run_budget (guards s) with
  | Some b => match _max_calls b with Some m => Some (Z.max 0 (m - _used_calls b)) | None => None end
  | None => None
  end.

(** A bound on the cap for the rest of the loop. *)
Definition cap_within (cap : Z) (r : Routing) : Prop :=
  (max_iterations r <= cap)%Z /\ (_max_iterations_override r = None -> mode_max_iterations MAX <= cap)%Z.

Lemma cap_within_le cap r r' : routing_le r r' -> cap_within cap r -> cap_within cap r'.
Proof using Type.
  intros (Ho & _ & _ & Hp & Hc) [Hm Hn]. split; [|by rewrite Ho].
  destruct (decide (_max_iterations_override r = None)) as [He|He]; [|by rewrite Hp].
  specialize (Hn He). lia.
Qed.

Lemma charged_left s s' : budget_allows s -> charged (run_budget (guards s)) (run_budget (guards s')) ->
  match calls_left s, calls_left s' with
  | Some n, Some n' => (n = n' + 1)%Z
  | None, None => True
  | _, _ => False
  end.
Proof using Type.
  unfold budget_allows, calls_left. intros Hb [us ->]. destruct (run_budget (guards s)) as [b|]; simpl; [|done].
  rewrite budget_check_ok in Hb. unfold budget_exhausted, reached in Hb.
  destruct (_max_calls b) as [m|]; [|done]. bool_hyps. lia.
Qed.

(** What a bounded number of calls means: within the cap and the run budget. *)
Definition within (cap : Z) s s' : Prop :=
  (llm_calls s' <= llm_calls s + cap)%Z /\
  match calls_left s with Some n => (llm_calls s' <= llm_calls s + n)%Z | None => True end.

Lemma calls_left_eq s s' : run_budget (guards s') = run_budget (guards s) -> calls_left s' = calls_left s.
Proof using Type. unfold calls_left. by intros ->. Qed.

Lemma calls_left_nonneg s n : calls_left s = Some n -> (0 <= n)%Z.
Proof using Type. unfold calls_left. repeat case_match; intros [= <-]; lia. Qed.

Lemma quiet_within cap s s' : (0 <= cap)%Z -> quiet s s' -> within cap s s'.
Proof using Type.
  intros Hc (_ & Hl & _). split; [lia|]. destruct (calls_left s) eqn:E; [|done].
  apply calls_left_nonneg in E. lia.
Qed.

Lemma loop_bounds stream o cap fuel l s :
  cap_within cap (routing s) -> (cap - l_iteration l <= Z.of_nat fuel)%Z ->
  let '(oo, s') := loop cm cfg fuel stream o l s in
  oo <> NoFuel /\ routing_le (routing s) (routing s') /\ within (Z.max 0 (cap - l_iteration l)) s s'.
Proof using Type.
  revert l s; induction fuel as [|fuel IH]; intros l s Hcap Hfuel; cbn [loop];
    rewrite bind_eq; unfold gets at 1; cbv beta iota.
  all: destruct (Z.ltb_spec (l_iteration l) (max_iterations (routing s))) as [Hlt|Hge];
    [|pose proof (k_cap cm cfg quiet (fun _ _ _ => True) l s I) as Hq; pose proof (f_cap l s) as Hf;
      destruct (_cap_reached l s) as [oo s']; simpl in *; split; [done|]; split; [apply Hq|]; apply quiet_within; [lia|done]].
  - destruct Hcap. lia.
  - rewrite bind_eq. pose proof (iteration_iterated stream o l s) as [Hr Ho].
    pose proof (f_iteration cm cfg stream o l s) as Hf.
    assert (forall s1, llm_calls s1 = llm_calls s \/ (budget_allows s /\ llm_calls s1 = (llm_calls s + 1)%Z) ->
      within (Z.max 0 (cap - l_iteration l)) s s1) as Hone.
    { intros s1 Hs1. assert (1 <= Z.max 0 (cap - l_iteration l))%Z by (destruct Hcap; lia). split; [lia|].
      destruct (calls_left s) as [n|] eqn:En; [|done]. pose proof (calls_left_nonneg s n En).
      destruct Hs1 as [->|[Hb ->]]; [lia|].
      unfold calls_left, budget_allows in *. destruct (run_budget (guards s)) as [b|]; [|done].
      rewrite budget_check_ok in Hb. unfold budget_exhausted, reached in Hb.
      destruct (_max_calls b) as [m|]; [|done]. bool_hyps. simplify_eq. lia. }
    destruct (_iteration cm cfg stream o l s) as [[[l'|t]|e| |] s1]; simpl in *; try done; try (by split; [|split; [|auto]]).
    destruct Ho as (Hi & Hb & Hl & Hch).
    assert (cap_within cap (routing s1)) as Hcap1 by (by eapply cap_within_le).
    specialize (IH l' s1 Hcap1). rewrite Hi in IH. assert (cap - (l_iteration l + 1) <= Z.of_nat fuel)%Z as Hfu by lia.
    specialize (IH Hfu). destruct (loop cm cfg fuel stream o l' s1) as [oo s2].
    destruct IH as (Hn & Hr' & Hw1 & Hw2). split; [done|]. split; [by eapply routing_le_trans|].
    assert (l_iteration l < cap)%Z by (destruct Hcap; lia). split; [lia|].
    pose proof (charged_left s s1 Hb Hch). destruct (calls_left s), (calls_left s1); try done. lia.
Qed.

(** ** Starting a run *)

(** Starting keeps the pinned cap, the run budget and the number of calls. *)
Definition starting s s' : Prop :=
  llm_calls s' = llm_calls s /\ run_budget (guards s') = run_budget (guards s) /\
  _max_iterations_override (routing s') = _max_iterations_override (routing s) /\
  (_sticky_max (routing s) = true -> _sticky_max (routing s') = true).

Lemma starting_trans a b c : starting a b -> starting b c -> starting a c.
Proof using Type. unfold starting. intros (?&?&?&?) (?&?&?&?). repeat split; try congruence. auto. Qed.

Definition same_routing s s' : Prop := starting s s' /\ routing s' = routing s.

Lemma same_routing_same s s' :
  routing s' = routing s -> trace s' = trace s -> run_budget (guards s') = run_budget (guards s) -> same_routing s s'.
Proof using Type. intros Hr Ht Hb. unfold same_routing, starting, llm_calls. rewrite Hr, Ht, Hb. auto. Qed.

#[local] Instance same_routing_tool_rel : ToolRel cfg same_routing (fun _ _ _ => True).
Proof using Type.
  split; try done; try (intros; by apply same_routing_same).
  - intros a b c [Hs Hr] [Hs' Hr']. split; [by eapply starting_trans | congruence].
  - intros. split; [|done]. unfold starting. rewrite llm_calls_note. simpl. repeat split; auto; lia.
  - intros. split; [|done]. unfold starting. rewrite llm_calls_note. simpl. repeat split; auto; lia.
  - intros. split; [|done]. unfold starting. rewrite llm_calls_note. simpl. repeat split; auto; lia.
Qed.

Abbreviation still m := (keeps (fun _ => True) same_routing m).

Lemma r_emit ty payload : still (_emit ty payload).
Proof using H3 cfg. by apply (keeps_emit cfg same_routing (fun _ _ _ => True)). Qed.
Lemma r_env {T} (f : W -> T * W) : still (env f).
Proof using H3 cfg. by apply (keeps_env cfg same_routing (fun _ _ _ => True)). Qed.
Lemma r_env_ f : still (env_ f).
Proof using H3 cfg. by apply (keeps_env_ cfg same_routing (fun _ _ _ => True)). Qed.
Lemma r_hooks p ctx : still (_trigger_hooks cfg p ctx).
Proof using H3. by apply (keeps_hooks cfg same_routing (fun _ _ _ => True)). Qed.
Lemma r_context p : still (context_of p).
Proof using H3 cfg. by apply (keeps_context cfg same_routing (fun _ _ _ => True)). Qed.
Lemma r_conv f : still (upd_conv f).
Proof using Type. intros s _. by apply same_routing_same. Qed.
Lemma r_answering f : still (upd_answering f).
Proof using Type. intros s _. by apply same_routing_same. Qed.
Lemma r_run f : still (upd_run f).
Proof using Type. intros s _. by apply same_routing_same. Qed.
Lemma r_gets {T} (f : St M W -> T) : still (gets f).
Proof using Type. intros s _. by apply same_routing_same. Qed.

Hint Resolve r_emit r_env r_env_ r_hooks r_context r_conv r_answering r_run r_gets : keeps.

Lemma r_plan msg : still (_create_plan cfg msg).
Proof using H3. unfold _create_plan. keeps_tac. Qed.
Lemma r_user t : still (add_user t).
Proof using Type. apply r_conv. Qed.
Hint Resolve r_plan r_user : keeps.
Lemma r_recall q : still (_recall_memory cfg q).
Proof using H3. unfold _recall_memory. keeps_tac. Qed.
Lemma r_store q t : still (_store_memory q t).
Proof using H3 cfg. unfold _store_memory. keeps_tac. Qed.
Lemma r_clear : still _clear_working_memory.
Proof using H3 cfg. unfold _clear_working_memory. keeps_tac. Qed.
Hint Resolve r_recall r_store r_clear : keeps.
Lemma r_failed {T} e : still (run_failed cfg (T := T) e).
Proof using H3. unfold run_failed. keeps_tac. Qed.
Lemma r_finish msg t : still (finish_run cfg msg t).
Proof using H3. unfold finish_run. keeps_tac. Qed.

Definition apply_routing (m : AgentMode) (r : Routing) : Routing :=
  set_max_iterations (default (mode_max_iterations m) (_max_iterations_override r))
    (set_reasoning (bool_decide (m = MAX)) (set_mode m r)).

Lemma apply_mode_eq m s : _apply_mode m s = (Ret tt, set_routing (apply_routing m (routing s)) s).
Proof using Type. done. Qed.

Lemma classify_routes msg s : let '(o, s') := _classify_and_route (M := M) msg s in
  o = Ret tt /\ starting s s' /\ (mode (routing s') = FLASH -> _sticky_max (routing s') = false) /\ 
  max_iterations (routing s') = default (mode_max_iterations (mode (routing s'))) (_max_iterations_override (routing s')).
Proof using Type.
  unfold _classify_and_route. rewrite bind_eq. unfold gets at 1. cbv beta iota zeta.
  rewrite bind_eq. unfold env at 1. destruct (classify _ _) as [c w]. cbv beta iota.
  set (s1 := set_world w s). destruct c as [c|e];
    [|rewrite apply_mode_eq; unfold starting; simpl; split; [done|]; split; [done|]; by split].
  rewrite bind_eq. unfold gets at 1. cbv beta iota.
  set (down := bool_decide (c_mode c = FLASH) && _sticky_max (routing s1)).
  set (s2 := if negb down && bool_decide (c_mode c = MAX) then set_routing (set_sticky true (routing s1)) s1 else s1).
  rewrite bind_eq. assert (when (negb down && bool_decide (c_mode c = MAX)) (upd_routing (set_sticky true)) s1 = (Ret tt, s2)) as ->
    by (unfold s2; by destruct (negb down && _)). cbv beta iota.
  rewrite bind_eq, apply_mode_eq. cbv beta iota.
  match goal with |- context [_emit ?t ?p ?x] => destruct (emit_world t p x) as [w' ->] end.
  split; [done|]. unfold starting. simpl.
  destruct s as [cv mg r an ru gu au wd tr]. subst down s2 s1. cbn in *.
  destruct r as [md er n ov sm]. simpl in *. destruct (c_mode c), sm; simpl; repeat split; done.
Qed.

Lemma start_routes msg s : let '(o, s') := start_run (M := M) cfg msg s in
  o <> NoFuel /\ starting s s' /\
  (o = Ret tt -> (mode (routing s') = FLASH -> _sticky_max (routing s') = false) /\
   max_iterations (routing s') = default (mode_max_iterations (mode (routing s'))) (_max_iterations_override (routing s'))).
Proof using H3.
  set (Q := fun s' => (mode (routing s') = FLASH -> _sticky_max (routing s') = false) /\
   max_iterations (routing s') = default (mode_max_iterations (mode (routing s'))) (_max_iterations_override (routing s'))).
  pose proof (f_start cfg msg s) as Hf.
  assert (keeps (fun _ => True) starting (start_run cfg msg)) as Hk.
  { assert (forall T (m : A M W T), still m -> keeps (fun _ => True) starting m) as Hs by (intros T m Hm a Ha; by apply Hm).
    assert (keeps (fun _ => True) starting (_classify_and_route (M := M) msg)) as Hc.
    { intros a _. pose proof (classify_routes msg a) as Hr. destruct (_classify_and_route msg a). apply Hr. }
    unfold start_run, clear_cancel. repeat (apply keeps_bind; [apply starting_trans|done|by eauto with keeps|intros ?]).
    apply Hs. apply r_env_. }
  assert (ensures (fun _ => True) (start_run cfg msg) (fun _ => Q)) as He.
  { unfold start_run. do 6 (apply ensures_then; intros ?).
    eapply (ensures_bind _ (fun _ => Q)).
    { intros a _ y _. pose proof (classify_routes msg a) as Hr. destruct (_classify_and_route msg a). apply Hr. }
    intros ?. assert (stable same_routing Q) as HQ by (intros a b' [_ Hr]; unfold Q; by rewrite Hr).
    assert (forall T (m : A M W T), still m -> ensures Q m (fun _ => Q)) as Hs.
    { intros T m Hm. apply (ensures_stable same_routing); [done|]. intros a _. by apply Hm. }
    do 4 (eapply (ensures_bind _ (fun _ => Q)); [apply Hs; eauto with keeps|intros ?]). apply Hs. apply r_emit. }
  specialize (Hk s I). specialize (He s I). destruct (start_run cfg msg s) as [o s']. simpl in *.
  split; [done|]. split; [done|]. intros ->. exact (He tt eq_refl).
Qed.

Lemma still_within cap s s' : (0 <= cap)%Z -> starting s s' -> within cap s s'.
Proof using Type.
  intros Hc (Hl & _). split; [lia|]. destruct (calls_left s) eqn:E; [|done]. apply calls_left_nonneg in E. lia.
Qed.

Lemma starting_within cap a b c : starting a b -> within cap b c -> within cap a c.
Proof using Type. intros (Hl & Hb & _) [Hw Hr]. unfold within. by rewrite <- Hl, <- (calls_left_eq a b Hb). Qed.

Lemma within_starting cap a b c : within cap a b -> starting b c -> within cap a c.
Proof using Type. intros [Hw Hr] (Hl & _). unfold within. by rewrite Hl. Qed.

(** The iteration cap a call of [run] can reach. *)
Definition run_cap (resuming : bool) (r : Routing) : Z :=
  match _max_iterations_override r, resuming with
  | Some n, false => n
  | Some _, true => max_iterations r
  | None, false => mode_max_iterations MAX
  | None, true => Z.max (max_iterations r) (mode_max_iterations MAX)
  end.

(** The part of [run] from the loop on. *)
Lemma finish_bounds stream schema retries msg cap s :
  cap_within cap (routing s) ->
  let '(o, s') := (text ← catch (_run_loop cm cfg stream schema retries) (run_failed cfg);
                   finish_run cfg msg text;; mret text) s in
  o <> NoFuel /\ routing_le (routing s) (routing s') /\ within (Z.max 0 cap) s s'.
Proof using H3.
  intros Hcap. rewrite bind_eq. unfold catch, _run_loop. rewrite bind_eq. unfold gets at 1. cbv beta iota.
  pose proof (loop_bounds stream schema (Z.max (max_iterations (routing s)) (mode_max_iterations MAX))) as Hweak.
  set (l := MkLoop _ _ _ _ _ _).
  assert (cap_within cap (routing s) -> forall fuel,
    (Z.max (max_iterations (routing s)) (mode_max_iterations MAX) <= Z.of_nat fuel)%Z ->
    let '(oo, s') := loop cm cfg fuel stream schema l s in
    oo <> NoFuel /\ routing_le (routing s) (routing s') /\ within (Z.max 0 cap) s s') as Hloop.
  { intros _ fuel Hfuel. set (c := Z.min cap (Z.max (max_iterations (routing s)) (mode_max_iterations MAX))).
    pose proof (loop_bounds stream schema c fuel l s) as Hb. simpl in Hb.
    assert (cap_within c (routing s)) as Hc by (unfold cap_within, c in *; destruct Hcap as [Hc1 Hc2]; split; [lia|intros Hn; specialize (Hc2 Hn); lia]).
    specialize (Hb Hc). assert (c - 0 <= Z.of_nat fuel)%Z as Hcf by (unfold c; lia). specialize (Hb Hcf).
    destruct (loop cm cfg fuel stream schema l s) as [oo s']. destruct Hb as (Hn & Hr & Hw & Hl). split; [done|]. split; [done|].
    split; [unfold c in Hw; lia | done]. }
  specialize (Hloop Hcap (loop_fuel (routing s))). unfold loop_fuel in Hloop at 1.
  assert (Z.max (max_iterations (routing s)) (mode_max_iterations MAX) <=
    Z.of_nat (Z.to_nat (Z.max (max_iterations (routing s)) (mode_max_iterations MAX))))%Z as Hfu by lia.
  specialize (Hloop Hfu). destruct (loop cm cfg _ stream schema l s) as [[text|e| |] s1]; simpl in *.
  - destruct Hloop as (_ & Hr & Hw). rewrite bind_eq. pose proof (r_finish msg text s1 I) as [Hs Hrt].
    pose proof (f_finish cfg msg text s1) as Hf. destruct (finish_run cfg msg text s1) as [[x|e| |] s2]; simpl in *;
      (split; [done|]; split; [by rewrite Hrt|by eapply within_starting]).
  - destruct Hloop as (_ & Hr & Hw). pose proof (r_failed (T := pystr) e s1 I) as [Hs Hrt].
    pose proof (f_failed cfg (T := pystr) e s1) as Hf. destruct (run_failed cfg e s1) as [[x|e'| |] s2]; simpl in *; try done.
    2-3: split; [done|]; split; [by rewrite Hrt|by eapply within_starting].
    rewrite bind_eq. pose proof (r_finish msg x s2 I) as [Hs2 Hrt2].
    pose proof (f_finish cfg msg x s2) as Hf2. destruct (finish_run cfg msg x s2) as [[y|e2| |] s3]; simpl in *;
      (split; [done|]; split; [by rewrite Hrt2, Hrt|]; eapply within_starting; [|done]; by eapply within_starting).
  - destruct Hloop as (_ & Hr & Hw). done.
  - by destruct Hloop.
Qed.

(** What a run guarantees about model calls, routing and termination. *)
Definition bounded (cap : Z) (fresh : bool) {T} (o : outcome T) s s' : Prop :=
  o <> NoFuel /\ within (Z.max 0 cap) s s' /\
  (_sticky_max (routing s) = true -> _sticky_max (routing s') = true) /\
  (forall x, o = Ret x -> fresh = true -> _sticky_max (routing s) = true -> mode (routing s') = MAX).

Lemma bind_bounded {T U} cap fresh (m : A M W T) (f : T -> A M W U) s :
  still m -> fueled m ->
  (forall x s1, routing s1 = routing s -> bounded cap fresh (f x s1).1 s1 (f x s1).2) ->
  bounded cap fresh ((m ≫= f) s).1 s ((m ≫= f) s).2.
Proof using Type.
  intros Hm Hn Hf. specialize (Hm s I) as [Hst Hr]. specialize (Hn s). rewrite bind_eq.
  destruct (m s) as [[x|e| |] s1]; simpl in *; try done.
  - destruct (Hf x s1 Hr) as (Ho & Hw & Hs & Hx). rewrite Hr in Hs, Hx. split; [done|]. split; [|done].
    by eapply starting_within.
  - split; [done|]. split; [apply still_within; [lia|done]|]. split; [by rewrite Hr|done].
  - split; [done|]. split; [apply still_within; [lia|done]|]. split; [by rewrite Hr|done].
Qed.

Lemma finish_bounded stream schema retries msg cap fresh s :
  cap_within cap (routing s) ->
  (fresh = true -> _sticky_max (routing s) = true -> mode (routing s) = MAX) ->
  let m := (text ← catch (_run_loop cm cfg stream schema retries) (run_failed cfg);
            finish_run cfg msg text;; mret text) in
  bounded cap fresh (m s).1 s (m s).2.
Proof using H3.
  intros Hcap Hmode m. pose proof (finish_bounds stream schema retries msg cap s Hcap) as Hb. fold m in Hb.
  destruct (m s) as [o s']. destruct Hb as (Hn & (_ & Hm & Hs & _) & Hw). simpl. split; [done|]. split; [done|].
  split; [done|]. intros x _ Hf Hst. auto.
Qed.

Lemma run_bounded msg stream schema retries v s :
  let resuming := _resuming_checkpoint (runst s) && bool_decide (msg = None) in
  bounded (run_cap resuming (routing s)) (negb resuming)
    (run cm cfg msg stream schema retries v s).1 s (run cm cfg msg stream schema retries v s).2.
Proof using Type.
  intros resuming. unfold run. rewrite bind_eq. unfold gets at 1. cbv beta iota zeta. fold resuming.
  apply bind_bounded; [apply r_answering|apply fueled_answering|]. intros _ s1 Hr1.
  apply bind_bounded; [apply r_answering|apply fueled_answering|]. intros _ s2 Hr2.
  apply bind_bounded; [apply r_answering|apply fueled_answering|]. intros _ s3 Hr3.
  rewrite <- Hr1, <- Hr2, <- Hr3. clear Hr1 Hr2 Hr3.
  match goal with |- context [if ?b then _ else throw _] => destruct b end.
  2: { split; [done|]. split; [apply still_within; [lia|by apply same_routing_same]|]. by split. }
  apply bind_bounded; [destruct msg; [apply keeps_when; [apply (tr_refl (cfg := cfg))|apply r_recall]|
    apply keeps_ret, (tr_refl (cfg := cfg))]|destruct msg; [apply fueled_when, f_recall|apply fueled_ret]|].
  intros _ s4 Hr4.
  apply bind_bounded; [destruct (composed_message _ _); [apply r_user|apply keeps_ret, (tr_refl (cfg := cfg))]|
    destruct (composed_message _ _); [apply f_user|apply fueled_ret]|].
  intros _ s5 Hr5. rewrite <- Hr4, <- Hr5. subst resuming. clear.
  generalize (_resuming_checkpoint (runst s) && bool_decide (msg = None)). intros resuming.
  rewrite bind_eq. destruct resuming; simpl negb; cbv beta iota.
  - change (when false (start_run cfg msg) s5) with (Ret (T := unit) tt, s5). cbv beta iota.
    apply finish_bounded; [|done]. unfold run_cap, cap_within.
    destruct (_max_iterations_override (routing s5)); simpl; split; try lia; try done.
  - change (when true (start_run cfg msg) s5) with (start_run cfg msg s5).
    pose proof (start_routes msg s5) as Hs. destruct (start_run cfg msg s5) as [[[]|e| |] s6]; [|..|by destruct Hs].
    2-3: destruct Hs as (_ & Hst & _); split; [done|]; split; [apply still_within; [lia|done]|]; split; [apply Hst|done].
    destruct Hs as (_ & Hst & Hq). destruct (Hq eq_refl) as [Hsm Hmax]. pose proof Hst as (_ & _ & Hov & Hsk).
    assert (cap_within (run_cap false (routing s5)) (routing s6)) as Hcap.
    { unfold run_cap, cap_within. rewrite Hmax, Hov. destruct (_max_iterations_override (routing s5)); simpl; split; try lia; try done.
      destruct (mode (routing s6)); simpl; lia. }
    destruct (finish_bounded stream (match schema with None => if default (verification_required cfg) v
      then Some (JObj verification_schema) else None | Some _ => schema end) retries msg _ true s6 Hcap) as (Hn & Hw & Hs' & Hm).
    { intros _ Ht. destruct (mode (routing s6)) eqn:Em; [|done]. rewrite Hsm in Ht; done. }
    split; [exact Hn|]. split; [by eapply starting_within|]. split; [auto|]. intros x Hx _ Ht. eapply Hm; [exact Hx|done|auto].
Qed.
End Bounds.

(** ** Theorems *)

(** C5: a run terminates within its caps. Its loop never runs out of the fuel it
    starts with; it makes at most as many model calls as the pinned iteration cap
    (or 50 when none is pinned, escalation included), and never more than the
    calls the run budget had left. *)
Theorem run_calls_bounded `{PyRuntime} `{SecretPatterns} {M W} (cm : ContextManager M W)
    `{EventSink W} `{AgentEnv W} `{PermissionPolicy} cfg (s : St M W) msg stream schema retries v :
  let '(o, s') := run cm cfg msg stream schema retries v s in
  o <> NoFuel /\
  (llm_calls s' <= llm_calls s + Z.max 0 (run_cap (_resuming_checkpoint (runst s) && bool_decide (msg = None)) (routing s)))%Z /\
  match run_budget (guards s) with
  | Some b => match _max_calls b with
              | Some m => (llm_calls s' <= llm_calls s + Z.max 0 (m - _used_calls b))%Z
              | None => True
              end
  | None => True
  end.
Proof.
  pose proof (run_bounded cm cfg msg stream schema retries v s) as Hb.
  destruct (run cm cfg msg stream schema retries v s) as [o s']. destruct Hb as (Hn & [Hw Hl] & _).
  split; [done|]. split; [done|]. unfold calls_left in Hl. simpl in Hl.
  destruct (run_budget (guards s)) as [b|]; [|done]. by destruct (_max_calls b).
Qed.

(** MAX is sticky: once a conversation has run at MAX (classified or
    escalated), every later fresh run that finishes has run at MAX, whatever the
    classifier says, and the stickiness itself is never lost. *)
Theorem max_mode_is_sticky `{PyRuntime} `{SecretPatterns} {M W} (cm : ContextManager M W)
    `{EventSink W} `{AgentEnv W} `{PermissionPolicy} cfg (s s' : St M W) msg stream schema retries v o :
  run cm cfg msg stream schema retries v s = (o, s') -> _sticky_max (routing s) = true ->
  _sticky_max (routing s') = true /\
  (forall text, o = Ret text -> _resuming_checkpoint (runst s) && bool_decide (msg = None) = false ->
     mode (routing s') = MAX).
Proof.
  intros Hrun Hst. pose proof (run_bounded cm cfg msg stream schema retries v s) as Hb. rewrite Hrun in Hb.
  destruct Hb as (_ & _ & Hs & Hm). split; [by apply Hs|]. intros text -> Hf. apply (Hm text); [done| |done]. by rewrite Hf.
Qed.
