(* ===== verification/AgentReplay.v ===== *)
(** * The agent: histories stay replayable

    A batch of tool calls appends one result per call, in the order the model
    asked for them, whether the calls run in sequence or through the thread pool,
    are cancelled, refused, retried or time out. Hence a run leaves a history in
    which every call is answered; only an exception out of the batch leaves calls
    waiting, and then exactly a suffix of them. *)

From stdpp Require Import base gmap strings list.
From Stdlib Require Import ZArith Lia SpecFloat.
From S2P Require Import Prelude Json Types Validation TextCompact Summary Conversation EventBus Redact Hooks.
From S2P Require Import Context Compaction Policy Budgets Structured AgentState AgentTools AgentLoop.
From S2P Require Import AgentFrame AgentSafety.

(** ** Methods that never raise *)

Section Calm.
Context {M W : Type}.

Definition calm {T} (m : A M W T) : Prop := forall s e, (m s).1 <> Raise e.

Lemma calm_ret {T} (x : T) : calm (mret x).
Proof. by intros s e. Qed.
Lemma calm_block {T} : calm (block (T := T)).
Proof. by intros s e. Qed.
Lemma calm_gets {T} (f : St M W -> T) : calm (gets f).
Proof. by intros s e. Qed.
Lemma calm_modify f : calm (modify f).
Proof. by intros s e. Qed.
Lemma calm_env {T} (f : W -> T * W) : calm (env f).
Proof. intros s e. unfold env. by destruct (f (world s)). Qed.
Lemma calm_env_ (f : W -> W) : calm (env_ f).
Proof. by intros s e. Qed.
Lemma calm_log a : calm (log a).
Proof. by intros s e. Qed.
Lemma calm_conv f : calm (upd_conv f).
Proof. by intros s e. Qed.
Lemma calm_run f : calm (upd_run f).
Proof. by intros s e. Qed.
Lemma calm_guards f : calm (upd_guards f).
Proof. by intros s e. Qed.
Lemma calm_routing f : calm (upd_routing f).
Proof. by intros s e. Qed.
Lemma calm_answering f : calm (upd_answering f).
Proof. by intros s e. Qed.

Lemma calm_bind {T U} (m : A M W T) (f : T -> A M W U) : calm m -> (forall x, calm (f x)) -> calm (m ≫= f).
Proof.
  intros Hm Hf s e. rewrite bind_eq. specialize (Hm s). destruct (m s) as [[x|e'| |] s']; try done.
  - apply Hf.
  - by specialize (Hm e').
Qed.

Lemma calm_when b m : calm m -> calm (when b m).
Proof. intros Hm. destruct b; [done | apply calm_ret]. Qed.

Lemma calm_traverse {T U} (f : T -> A M W U) l : (forall x, calm (f x)) -> calm (traverse f l).
Proof.
  intros Hf. induction l as [|x l IH]; simpl; [apply calm_ret|].
  apply calm_bind; [done|]. intros y. apply calm_bind; [done|]. intros ys. apply calm_ret.
Qed.
End Calm.

Create HintDb calm discriminated.
#[export] Hint Constants Opaque : calm.
#[export] Hint Resolve calm_ret calm_block calm_gets calm_modify calm_env calm_env_ calm_log calm_conv calm_run
  calm_guards calm_routing calm_answering : calm.

Ltac calm_step :=
  lazymatch goal with
  | |- calm (when _ _) => apply calm_when
  | |- calm (mbind _ _) => apply calm_bind
  | |- calm (traverse _ _) => apply calm_traverse
  | |- calm (let '(_, _) := ?x in _) => destruct x
  | |- calm (match ?x with _ => _ end) => destruct x
  end.

Ltac calm_tac := repeat first [progress intros | solve [eauto 2 with calm] | calm_step].

Section CalmOps.
Context `{PyRuntime} `{SecretPatterns} {M W : Type} `{EventSink W} `{AgentEnv W} (cfg : Config).

Abbreviation ok m := (calm (M := M) (W := W) m).

Lemma c_emit ty p : ok (_emit ty p).
Proof. unfold _emit. calm_tac. Qed.
Lemma c_hooks p ctx : ok (_trigger_hooks cfg p ctx).
Proof. unfold _trigger_hooks. calm_tac. Qed.
Lemma c_context p : ok (context_of p).
Proof. unfold context_of. calm_tac. Qed.
Lemma c_cancelled : ok is_cancelled.
Proof. unfold is_cancelled. calm_tac. Qed.
Lemma c_record e : ok (record_audit e).
Proof. unfold record_audit. calm_tac. Qed.
Hint Resolve c_emit c_hooks c_context c_cancelled c_record : calm.
Lemma c_finished c r : ok (_emit_tool_call_finished c r).
Proof. unfold _emit_tool_call_finished. calm_tac. Qed.
Lemma c_deny c y i : ok (_deny_call c y i).
Proof. unfold _deny_call. calm_tac. Qed.
Lemma c_circuit n t r : ok (_record_circuit_result n t r).
Proof. unfold _record_circuit_result. calm_tac. Qed.
Lemma c_invoke t a : ok (_invoke_tool t a).
Proof. unfold _invoke_tool, returned. calm_tac. Qed.
Lemma c_submit t a : ok (_submit_timed_tool t a).
Proof. unfold _submit_timed_tool. calm_tac. Qed.
Lemma c_await j t : ok (await_job j t).
Proof. unfold await_job. calm_tac. Qed.
Hint Resolve c_finished c_deny c_circuit c_invoke c_submit c_await : calm.
Lemma c_run_tool t a : ok (_run_tool cfg t a).
Proof. unfold _run_tool. calm_tac. Qed.
Hint Resolve c_run_tool : calm.
Lemma c_retry_loop n k c t a r : ok (retry_loop cfg n k c t a r).
Proof. revert k r; induction n as [|n IH]; intros k r; simpl; calm_tac. Qed.
Lemma c_retry c t a r : ok (_retry_transient_tool cfg c t a r).
Proof. apply c_retry_loop. Qed.
Lemma c_finalize c t a r : ok (_finalize_call cfg c t a r).
Proof. unfold _finalize_call, audit_result. calm_tac. Qed.
Lemma c_add c r : ok (add_result cfg c r).
Proof. unfold add_result. calm_tac. Qed.
Hint Resolve c_retry c_finalize c_add : calm.
Lemma c_submit_slot x : ok (_submit_slot x).
Proof. unfold _submit_slot. calm_tac. Qed.
Lemma c_collect x : ok (_collect_flight cfg x).
Proof. unfold _collect_flight. calm_tac. Qed.
Lemma c_landed x : ok (_record_landed cfg x).
Proof. unfold _record_landed. calm_tac. Qed.
Hint Resolve c_submit_slot c_collect c_landed : calm.
Lemma c_dispatch l x : ok (_dispatch_and_record cfg l x).
Proof. unfold _dispatch_and_record. calm_tac. Qed.
Lemma c_persist : ok (_persist_state cfg).
Proof. unfold _persist_state. calm_tac. Qed.
End CalmOps.

(** What holds of the exceptions a method raises. *)
Section Raises.
Context {M W : Type} (Q : aexn -> St M W -> Prop).

Definition raises {T} (m : A M W T) : Prop := forall s e s', m s = (Raise e, s') -> Q e s'.

Lemma raises_calm {T} (m : A M W T) : calm m -> raises m.
Proof using Type. intros Hm s e s' He. destruct (Hm s e). by rewrite He. Qed.

Lemma raises_bind {T U} (m : A M W T) (f : T -> A M W U) : raises m -> (forall x, raises (f x)) -> raises (m ≫= f).
Proof using Type.
  intros Hm Hf s e s'. rewrite bind_eq. specialize (Hm s). destruct (m s) as [[x|e1| |] s1]; try done.
  - apply Hf.
  - intros [= -> ->]. by apply Hm.
Qed.

Lemma raises_lift {T} (r : result T) : (forall e s, Q (EPy e) s) -> raises (lift r).
Proof using Type. intros Hq s e s'. destruct r; [done|]. intros [= <- <-]. apply Hq. Qed.
End Raises.

(** ** A batch appends its results in order *)

Section Batch.
Context `{PyRuntime} `{SecretPatterns} {M W : Type} `{EventSink W} `{AgentEnv W} `{PermissionPolicy} (cfg : Config).
Implicit Types s : St M W.

Definition same_conv s s' : Prop := conv s' = conv s.

#[local] Instance same_conv_tool_rel : ToolRel cfg same_conv (fun _ _ _ => True).
Proof using Type. split; unfold same_conv; try done. intros. congruence. Qed.

#[local] Instance same_conv_pend_rel : PendRel same_conv.
Proof using Type. by split. Qed.

Definition same_pending s s' : Prop :=
  _pending_confirmation (runst s') = _pending_confirmation (runst s) /\
  _pending_remaining_calls (runst s') = _pending_remaining_calls (runst s).

#[local] Instance same_pending_tool_rel : ToolRel cfg same_pending (fun _ _ _ => True).
Proof using Type. split; unfold same_pending; try done. intros a b c [??] [??]. split; congruence. Qed.

#[local] Instance same_pending_conv_rel : ConvRel same_pending.
Proof using Type. by split. Qed.

Abbreviation quiet_conv m := (keeps (fun _ => True) same_conv m).

Definition answered (calls : list ToolCall) (rs : list ToolResult) : list message :=
  zip_with (result_message cfg) calls rs.

Definition append_all (st : ConversationState) (ms : list message) : ConversationState :=
  foldl append_message st ms.

(** A call waits for a human: it and the calls after it are recorded. *)
Definition pending_at (rest : list ToolCall) (p : Pending) s : Prop :=
  _pending_remaining_calls (runst s) = rest /\ _pending_confirmation (runst s) = Some p /\
  exists later, rest = pc_call p :: later.

(** What a batch that leaves [rest] unanswered may raise. *)
Definition batch_raises (rest : list ToolCall) (e : aexn) s : Prop :=
  match e with
  | EPy _ => True
  | EPending p _ => pending_at rest p s
  | ENotVerified _ _ => False
  end.

(** How far a batch got: the calls it answered, in order, and those left. *)
Definition batch_result {T} (calls : list ToolCall) s (o : outcome T) s' : Prop :=
  exists done rest rs, calls = done ++ rest /\ length rs = length done /\
    conv s' = append_all (conv s) (answered done rs) /\
    (forall x, o = Ret x -> rest = []) /\
    (forall e, o = Raise e -> batch_raises rest e s').

Lemma batch_stop {T} calls s (o : outcome T) s' :
  conv s' = conv s -> (forall x, o <> Ret x) -> (forall e, o = Raise e -> batch_raises calls e s') ->
  batch_result calls s o s'.
Proof using Type.
  intros Hc Hr Hp. exists [], calls, []. do 3 (split; [done|]). split; [|done]. intros x Ho. by destruct (Hr x).
Qed.

Lemma batch_retype {T U} calls s (o : outcome T) (o' : outcome U) s' :
  (forall x, o' <> Ret x) -> (forall e, o' = Raise e -> o = Raise e) -> batch_result calls s o s' -> batch_result calls s o' s'.
Proof using Type.
  intros Hr He (d & r & rs & ?&?&?&_&Hp). exists d, r, rs. do 3 (split; [done|]).
  split; [intros x Ho; by destruct (Hr x)|]. intros e Ho. by apply Hp, He.
Qed.

Lemma batch_cons {T} call calls r s s1 s2 (o : outcome T) :
  conv s1 = append_message (conv s) (result_message cfg call r) ->
  batch_result calls s1 o s2 -> batch_result (call :: calls) s o s2.
Proof using Type.
  intros Hc (done & rest & rs & -> & Hl & Hcv & Hr & Hp). exists (call :: done), rest, (r :: rs).
  split; [done|]. split; [by simpl; f_equal|]. split; [|done]. by rewrite Hcv, Hc.
Qed.

Lemma add_result_conv call r s :
  add_result cfg call r s = (Ret tt, set_conv (append_message (conv s) (result_message cfg call r)) s).
Proof using Type. done. Qed.

(** Saving the checkpoint raises an ordinary exception or returns. *)
Definition saved {T} s (r : outcome T * St M W) : Prop :=
  runst r.2 = runst s /\ conv r.2 = conv s /\ forall e, r.1 = Raise e -> exists x, e = EPy x.

Lemma save_checkpoint_outcome s : saved s (save_checkpoint s).
Proof using Type.
  unfold save_checkpoint, saved. unfold mbind, a_bind, gets, env. cbv beta iota.
  destruct (checkpoint_save _ _ _ (world s)) as [[x|e] w]; [done|].
  split; [done|]. split; [done|]. intros ? [= <-]. by exists e.
Qed.

Lemma save_outcome s : saved s (_save_pending_confirmation_checkpoint cfg s).
Proof using Type.
  unfold _save_pending_confirmation_checkpoint, when. destruct (has_checkpoint_manager cfg); [|done].
  pose proof (save_checkpoint_outcome s) as Hs. rewrite bind_eq. unfold saved in *.
  destruct (save_checkpoint s) as [[x|e| |] s']; simpl in *; destruct Hs as (?&?&He); try done.
  split; [done|]. split; [done|]. intros ? [= <-]. by apply He.
Qed.

(** Gating a call raises an ordinary exception, or leaves that call pending. *)
Definition gate_raises (call : ToolCall) (e : aexn) s : Prop :=
  match e with
  | EPy _ => True
  | EPending p _ => pc_call p = call /\ _pending_confirmation (runst s) = Some p
  | ENotVerified _ _ => False
  end.

Lemma raises_admit (Q : aexn -> St M W -> Prop) call args : (forall e s, Q (EPy e) s) -> raises Q (_admit cfg call args).
Proof using Type.
  intros HQ. unfold _admit. destruct (dict_get _ _) as [t|]; [|apply raises_calm, calm_ret].
  apply raises_bind; [apply raises_calm; unfold _circuit_is_open; calm_tac|]. intros [].
  { apply raises_calm, calm_ret. }
  destruct (validate_tool_inputs cfg); [|apply raises_calm, calm_ret].
  apply raises_bind; [by apply raises_lift|]. intros es. apply raises_calm.
  pose proof (c_record (M := M) (W := W)). unfold audit_result. calm_tac.
Qed.

Lemma raises_prepare call : raises (gate_raises call) (_prepare_call cfg call).
Proof using Type.
  pose proof (c_record (M := M) (W := W)) as Hrec. pose proof (c_deny (M := M) (W := W)) as Hdeny.
  pose proof (c_hooks (M := M) (W := W) cfg) as Hh. pose proof (c_context (M := M) (W := W)) as Hc.
  unfold _prepare_call. apply raises_bind.
  { apply raises_calm. unfold _before_hooks. calm_tac. }
  intros [args|]; [|apply raises_calm, calm_ret].
  apply raises_bind; [by apply raises_lift|]. intros d.
  apply raises_bind; [apply raises_calm; unfold audit_call; calm_tac|]. intros _.
  destruct (negb (allowed d)); [apply raises_calm; calm_tac|].
  apply raises_bind; [apply raises_calm; unfold _confirmation_status; calm_tac|]. intros c.
  apply raises_bind; [apply raises_calm, calm_log|]. intros _.
  destruct (_ && has_checkpoint_manager cfg).
  - set (p := {| pc_call := call; pc_arguments := args; pc_decision := d |}).
    intros s e s'. rewrite bind_eq. cbn [upd_run modify]. set (s1 := set_runst (set_pending (Some p) (runst s)) s).
    rewrite bind_eq. pose proof (save_checkpoint_outcome s1) as (Hr & _ & He).
    destruct (save_checkpoint s1) as [[i|e1| |] s2]; simpl in *; try done.
    + intros [= <- <-]. simpl. by rewrite Hr.
    + intros [= -> _]. by destruct (He e eq_refl) as [x ->].
  - destruct (_ && negb _); [apply raises_calm; calm_tac|]. by apply raises_admit.
Qed.

Lemma raises_execute_one call : raises (gate_raises call) (_execute_one cfg call).
Proof using Type.
  pose proof (c_run_tool (M := M) (W := W) cfg) as Hrun. pose proof (c_retry (M := M) (W := W) cfg call) as Hretry.
  pose proof (c_finalize (M := M) (W := W) cfg call) as Hfin.
  unfold _execute_one. apply raises_bind; [apply raises_prepare|]. intros p. apply raises_calm. calm_tac.
Qed.

Lemma handler_raises {T} (call : ToolCall) later before e s e' s' : calm before -> keeps (fun _ => True) same_pending before ->
  gate_raises call e s -> pending_handler cfg (call :: later) before (T := T) e s = (Raise e', s') ->
  batch_raises (call :: later) e' s'.
Proof using Type.
  intros Hb Hk Hg. unfold pending_handler.
  destruct e as [e|p i|a f]; [by intros [= <- <-]| |done]. destruct Hg as [<- Hp].
  rewrite bind_eq. specialize (Hb s). specialize (Hk s I). apply proj1 in Hk.
  destruct (before s) as [[[]|e| |] s1]; try done; [|by destruct (Hb e)].
  rewrite bind_eq. cbn [upd_run modify]. rewrite bind_eq.
  pose proof (save_outcome (set_runst (set_remaining_calls (pc_call p :: later) (runst s1)) s1)) as Hs.
  destruct (_save_pending_confirmation_checkpoint cfg _) as [[[]|e| |] s2]; destruct Hs as (Hr & _ & Hn); simpl in *; try done.
  - intros [= <- <-]. unfold batch_raises, pending_at. rewrite Hr. simpl. rewrite Hk. split; [done|]. split; [done|]. by exists later.
  - intros [= <- _]. by destruct (Hn e eq_refl) as [x ->].
Qed.

Lemma sequential_batch calls any s :
  let '(o, s') := execute_sequentially cfg calls any s in batch_result calls s o s'.
Proof using Type.
  revert any s; induction calls as [|call calls IH]; intros any s; cbn [execute_sequentially].
  { exists [], [], []. repeat split; done. }
  rewrite bind_eq. pose proof (keeps_cancelled cfg same_conv (fun _ _ _ => True) (fun _ => True) (stable_true _) s I) as Hc.
  pose proof (c_cancelled s) as Hr. destruct (is_cancelled s) as [[b|e| |] s1]; unfold same_conv in Hc; simpl in *; try (by apply batch_stop).
  2: by destruct (Hr e).
  destruct b.
  - rewrite bind_eq, add_result_conv. cbv beta iota.
    specialize (IH true (set_conv (append_message (conv s1) (result_message cfg call skipped)) s1)).
    destruct (execute_sequentially cfg calls true _) as [o s2].
    eapply batch_cons; [|exact IH]. simpl. by rewrite Hc.
  - rewrite bind_eq. set (ty := u "agent.tool_call_started"). set (pl := [(u "name", _); _]).
    pose proof (keeps_emit cfg same_conv (fun _ _ _ => True) (fun _ => True) ty pl (stable_true _) s1 I) as He.
    pose proof (c_emit ty pl s1) as Hn. destruct (_emit ty pl s1) as [[[]|e| |] s2]; unfold same_conv in He; simpl in *;
      try (apply batch_stop; [congruence|done|done]).
    2: by destruct (Hn e).
    rewrite bind_eq. set (m := catch (_execute_one cfg call) (pending_handler cfg (call :: calls) (mret ()))).
    assert (quiet_conv m) as Hm.
    { apply keeps_catch; [apply (tr_trans (cfg := cfg))|done|by apply (keeps_execute_one cfg same_conv (fun _ _ _ => True))|].
      intros e. apply (keeps_pending_handler cfg same_conv (fun _ _ _ => True)); [done|].
      apply keeps_ret, (tr_refl (cfg := cfg)). }
    specialize (Hm s2 I). unfold same_conv in Hm. destruct (m s2) as [[r|e| |] s3] eqn:Em; simpl in *;
      try (apply batch_stop; [congruence|done|done]).
    + rewrite bind_eq. pose proof (keeps_finished cfg same_conv (fun _ _ _ => True) (fun _ => True) call r (stable_true _) s3 I) as Hf.
      pose proof (c_finished call r s3) as Hfn. destruct (_emit_tool_call_finished call r s3) as [[[]|e| |] s4];
        unfold same_conv in Hf; simpl in *; try (apply batch_stop; [congruence|done|done]).
      2: by destruct (Hfn e).
      rewrite bind_eq, add_result_conv. cbv beta iota.
      specialize (IH (any || is_error r) (set_conv (append_message (conv s4) (result_message cfg call r)) s4)).
      destruct (execute_sequentially cfg calls _ _) as [o s5].
      eapply batch_cons; [|exact IH]. simpl. by rewrite Hf, Hm, He, Hc.
    + apply batch_stop; [congruence|done|]. intros ? [= <-]. unfold m, catch in Em.
      destruct (_execute_one cfg call s2) as [[x|e0| |] s2'] eqn:Ex; try done.
      eapply handler_raises; [apply calm_ret|apply keeps_ret, (tr_refl (cfg := cfg))| |exact Em].
      by eapply raises_execute_one.
Qed.

(** ** The parallel path *)

Lemma quiet_traverse {T U} (f : T -> A M W U) l : (forall x, quiet_conv (f x)) -> quiet_conv (traverse f l).
Proof using H3 cfg.
  intros Hf. apply keeps_traverse; [apply (tr_refl (cfg := cfg))|apply (tr_trans (cfg := cfg))|done|]. intros x _. apply Hf.
Qed.

Lemma quiet_submit_slot sl : quiet_conv (_submit_slot (M := M) sl).
Proof using H3 cfg.
  intros s _. apply (keeps_submit_slot cfg same_conv (fun _ _ _ => True)). by destruct sl.
Qed.

Lemma quiet_collect cf : quiet_conv (_collect_flight cfg cf).
Proof using H3.
  intros s _. apply (keeps_collect cfg same_conv (fun _ _ _ => True)). by destruct cf as [? []].
Qed.

(** Recording one landed call appends one result message, if it returns. *)
Lemma record_landed_conv call l s : let '(o, s') := _record_landed cfg (call, l) s in
  (forall e, o <> Raise e) /\
  match o with
  | Ret b => exists r, b = is_error r /\ conv s' = append_message (conv s) (result_message cfg call r)
  | _ => conv s' = conv s
  end.
Proof using H3.
  assert (forall (m : A M W unit) r s, quiet_conv m -> calm m ->
    let '(o, s') := (m;; add_result cfg call r;; mret (is_error r)) s in
    (forall e, o <> Raise e) /\
    match o with
    | Ret b => exists r, b = is_error r /\ conv s' = append_message (conv s) (result_message cfg call r)
    | _ => conv s' = conv s
    end) as Hgen.
  { intros m r s0 Hq Hc. rewrite bind_eq. specialize (Hq s0 I). specialize (Hc s0). unfold same_conv in Hq.
    destruct (m s0) as [[[]|e| |] s1]; simpl in *; try done; [|by destruct (Hc e)].
    split; [done|]. exists r. by rewrite <- Hq. }
  destruct l as [sk r|t args r]; cbn [_record_landed].
  - apply Hgen; [apply keeps_when; [apply (tr_refl (cfg := cfg))|by apply (keeps_finished cfg same_conv (fun _ _ _ => True))]|].
    apply calm_when, c_finished.
  - rewrite bind_eq. pose proof (keeps_retry cfg same_conv (fun _ _ _ => True) call t args r s I) as Hq.
    pose proof (c_retry cfg call t args r s) as Hc. unfold same_conv in Hq.
    destruct (_retry_transient_tool cfg call t args r s) as [[r'|e| |] s1]; simpl in *; try done; [|by destruct (Hc e)].
    specialize (Hgen (_finalize_call cfg call t args r';; _emit_tool_call_finished call r') r' s1).
    assert (forall B (a b : A M W unit) (k : A M W B) x, (a;; b;; k) x = ((a;; b);; k) x) as Hassoc.
    { intros B a b k x. rewrite !bind_eq. by destruct (a x) as [[]?]. }
    rewrite Hassoc, <- Hq. apply Hgen.
    + apply keeps_bind; [apply (tr_trans (cfg := cfg))|done|by apply (keeps_finalize cfg same_conv (fun _ _ _ => True))|].
      intros _. by apply (keeps_finished cfg same_conv (fun _ _ _ => True)).
    + apply calm_bind; [apply c_finalize|]. intros _. apply c_finished.
Qed.

Lemma record_batch cls s : let '(o, s') := traverse (_record_landed cfg) cls s in
  exists n rs, (n <= length cls)%nat /\ length rs = n /\ (forall e, o <> Raise e) /\
    conv s' = append_all (conv s) (answered (take n (map fst cls)) rs) /\ (forall ys, o = Ret ys -> n = length cls).
Proof using H3.
  revert s; induction cls as [|[call l] cls IH]; intros s; cbn [traverse map].
  { exists 0%nat, []. by repeat split. }
  rewrite bind_eq. pose proof (record_landed_conv call l s) as Hl.
  destruct (_record_landed cfg (call, l) s) as [[b|e| |] s1]; destruct Hl as [Hn Hl].
  2: by destruct (Hn e).
  2-3: exists 0%nat, []; repeat split; simpl; try done; lia.
  destruct Hl as (r & -> & Hc). rewrite bind_eq. specialize (IH s1).
  destruct (traverse (_record_landed cfg) cls s1) as [[bs|e| |] s2]; destruct IH as (n & rs & Hle & Hlen & Hnr & Hcv & Hret).
  2: by destruct (Hnr e).
  all: exists (S n), (r :: rs); simpl; rewrite Hcv, Hc; repeat split; try done; try lia.
  intros ys _. by rewrite (Hret bs).
Qed.

Lemma zip_fst {T U} (l : list T) (k : list U) : length k = length l -> map fst (zip l k) = l.
Proof using Type.
  revert k; induction l as [|x l IH]; intros [|y k] Hl; simplify_eq/=; [done|]. by rewrite IH.
Qed.

Lemma dispatch_batch calls slots s : length slots = length calls ->
  let '(o, s') := _dispatch_and_record cfg calls slots s in batch_result calls s o s' /\ forall e, o <> Raise e.
Proof using H3.
  intros Hlen. unfold _dispatch_and_record. rewrite bind_eq.
  pose proof (quiet_traverse _submit_slot slots quiet_submit_slot s I) as H1c. unfold same_conv in H1c.
  pose proof (calm_traverse _submit_slot slots c_submit_slot s) as H1r.
  pose proof (traverse_length _submit_slot slots s) as H1l.
  destruct (traverse _submit_slot slots s) as [[flights|e| |] s1]; simpl in *; [|by destruct (H1r e)|..].
  2-3: split; [by apply batch_stop|done].
  specialize (H1l flights eq_refl). rewrite bind_eq.
  pose proof (quiet_traverse (_collect_flight cfg) (zip calls flights) quiet_collect s1 I) as H2c. unfold same_conv in H2c.
  pose proof (calm_traverse (_collect_flight cfg) (zip calls flights) (c_collect cfg) s1) as H2r.
  pose proof (traverse_length (_collect_flight cfg) (zip calls flights) s1) as H2l.
  destruct (traverse (_collect_flight cfg) (zip calls flights) s1) as [[results|e| |] s2]; simpl in *; [|by destruct (H2r e)|..].
  2-3: split; [apply batch_stop; [congruence|done|done]|done].
  specialize (H2l results eq_refl). rewrite length_zip in H2l. rewrite bind_eq.
  pose proof (record_batch (zip calls results) s2) as H3c. rewrite zip_fst in H3c by lia.
  destruct (traverse (_record_landed cfg) (zip calls results) s2) as [o s3].
  destruct H3c as (n & rs & Hle & Hn & Hnr & Hcv & Hret). rewrite length_zip in Hle, Hret.
  assert (batch_result calls s o s3) as Hb.
  { exists (take n calls), (drop n calls), rs. rewrite take_drop, length_take. split; [done|]. split; [lia|].
    split; [by rewrite Hcv, H2c, H1c|]. split; [|intros e Ho; by destruct (Hnr e)].
    intros x Ho. rewrite (Hret x Ho). apply drop_ge. lia. }
  destruct o as [bs|e| |]; [|by destruct (Hnr e)|..].
  - split; [|done]. destruct Hb as (d & r & rs' & ?&?&?&Hr&_). exists d, r, rs'. repeat split; try done.
    intros x _. by apply (Hr bs).
  - split; [|done]. destruct Hb as (d & r & rs' & ?&?&?&Hr&_). by exists d, r, rs'.
  - split; [|done]. destruct Hb as (d & r & rs' & ?&?&?&Hr&_). by exists d, r, rs'.
Qed.

Lemma dispatch_pending calls slots : keeps (fun _ => True) same_pending (_dispatch_and_record cfg calls slots).
Proof using H3.
  intros s _. apply (keeps_dispatch cfg same_pending (fun _ _ _ => True)).
  apply Forall_forall. by intros [].
Qed.

(** The handler of a parallel batch first finishes the calls gated before. *)
Lemma handler_batch {T} done slots p i calls s : length slots = length done ->
  let '(o, s') := pending_handler cfg calls (_dispatch_and_record cfg done slots;; mret tt) (T := T) (EPending p i) s in
  (forall x, o <> Ret x) /\
  exists d r rs, done = d ++ r /\ length rs = length d /\ conv s' = append_all (conv s) (answered d rs) /\
    forall e, o = Raise e -> r = [].
Proof using H3.
  intros Hlen. unfold pending_handler. rewrite !bind_eq. pose proof (dispatch_batch done slots s Hlen) as Hd.
  destruct (_dispatch_and_record cfg done slots s) as [[b|e| |] s2]; destruct Hd as [(d & r & rs & Hb & Hl & Hc & Hr & _) Hnr];
    [|by destruct (Hnr e)|split; [done|by exists d, r, rs]..].
  cbn [mret a_ret]. rewrite bind_eq. cbn [upd_run modify]. rewrite bind_eq.
  pose proof (save_outcome (set_runst (set_remaining_calls calls (runst s2)) s2)) as (_ & Hcv & _).
  destruct (_save_pending_confirmation_checkpoint cfg _) as [[[]|e| |] s4]; simpl in *; (split; [done|]);
    exists d, r, rs; rewrite Hcv; (split; [done|]); (split; [done|]); (split; [done|]); intros; by eapply Hr.
Qed.

(** Gating: no result is appended, unless a confirmation is pending. *)
Lemma gate_one_conv done slots call calls s : length slots = length done ->
  let '(o, s') := gate_one cfg done slots call calls s in
  match o with
  | Ret _ => conv s' = conv s
  | _ => batch_result (done ++ call :: calls) s o s'
  end.
Proof using Type.
  intros Hlen. unfold gate_one, catch.
  pose proof (keeps_prepare cfg same_conv (fun _ _ _ => True) (fun _ => True) call (stable_true _) s I) as Hp.
  unfold same_conv in Hp. destruct (_prepare_call cfg call s) as [[p|e| |] s1] eqn:Eg; simpl in *; [done|..].
  2-3: by apply batch_stop.
  apply raises_prepare in Eg. destruct e as [e|p i|a f]; [| |done].
  { simpl. apply batch_stop; [done|done|]. by intros ? [= <-]. }
  pose proof (handler_batch (T := prepared) done slots p i (call :: calls) s1 Hlen) as Hh.
  pose proof (handler_raises (T := prepared) call calls (_dispatch_and_record cfg done slots;; mret tt) (EPending p i) s1) as Hr.
  destruct (pending_handler cfg (call :: calls) _ _ s1) as [o s2].
  destruct Hh as (Hnr & d & r & rs & Hd & Hl & Hc & He).
  assert (batch_result (done ++ call :: calls) s o s2) as Hres; [|destruct o as [x|e| |]; try done; by destruct (Hnr x)].
  exists d, (r ++ call :: calls), rs. rewrite app_assoc, <- Hd, <- Hp.
  do 3 (split; [done|]). split.
  - intros x Ho. by destruct (Hnr x).
  - intros e Ho. rewrite (He e Ho). simpl. subst o. eapply Hr; [| |done|done].
    + apply calm_bind; [|intros; apply calm_ret]. intros sx ex. pose proof (dispatch_batch done slots sx Hlen) as Hdd.
      destruct (_dispatch_and_record cfg done slots sx). apply Hdd.
    + apply keeps_bind; [apply (tr_trans (cfg := cfg))|done|apply dispatch_pending|]. intros _. apply keeps_ret, (tr_refl (cfg := cfg)).
Qed.

Lemma gate_batch_conv calls done slots s : length slots = length done ->
  let '(o, s') := gate_batch cfg done slots calls s in
  match o with
  | Ret slots' => conv s' = conv s /\ length slots' = length (done ++ calls)
  | _ => batch_result (done ++ calls) s o s'
  end.
Proof using Type.
  revert done slots s; induction calls as [|call calls IH]; intros done slots s Hlen; cbn [gate_batch].
  { rewrite app_nil_r. by split. }
  assert (forall T (o : outcome T) sa sb, conv sa = conv s -> batch_result (done ++ call :: calls) sa o sb ->
    batch_result (done ++ call :: calls) s o sb) as Hmove.
  { intros T o sa sb Hc. unfold batch_result. by rewrite Hc. }
  assert (forall sl sa, conv sa = conv s ->
    let '(o, s') := gate_batch cfg (done ++ [call]) (slots ++ [sl]) calls sa in
    match o with
    | Ret slots' => conv s' = conv s /\ length slots' = length (done ++ call :: calls)
    | _ => batch_result (done ++ call :: calls) s o s'
    end) as Hrest.
  { intros sl sa Hc. specialize (IH (done ++ [call]) (slots ++ [sl]) sa). rewrite !length_app, Hlen in IH.
    specialize (IH eq_refl). rewrite <- app_assoc in IH. simpl in IH.
    destruct (gate_batch cfg (done ++ [call]) (slots ++ [sl]) calls sa) as [[sls|e| |] s']; [|by eapply Hmove..].
    destruct IH as [-> ->]. split; [done|]. rewrite !length_app. simpl. lia. }
  rewrite bind_eq. pose proof (keeps_cancelled cfg same_conv (fun _ _ _ => True) (fun _ => True) (stable_true _) s I) as Hc.
  pose proof (c_cancelled s) as Hr. destruct (is_cancelled s) as [[b|e| |] s1]; unfold same_conv in Hc; simpl in *; try (by apply batch_stop).
  2: by destruct (Hr e).
  destruct b; [by apply Hrest|].
  rewrite bind_eq. set (ty := u "agent.tool_call_started"). set (pl := [(u "name", _); _]).
  pose proof (keeps_emit cfg same_conv (fun _ _ _ => True) (fun _ => True) ty pl (stable_true _) s1 I) as He.
  pose proof (c_emit ty pl s1) as Hn. destruct (_emit ty pl s1) as [[[]|e| |] s2]; unfold same_conv in He; simpl in *.
  2: by destruct (Hn e).
  2-3: apply batch_stop; [congruence|done|done].
  rewrite bind_eq. pose proof (gate_one_conv done slots call calls s2 Hlen) as Hg. unfold gate_one in Hg.
  destruct (catch _ _ s2) as [[p|e| |] s3]; [apply Hrest; congruence|..].
  all: eapply Hmove; [|eapply batch_retype; [| |exact Hg]]; try done; try congruence; by intros ? [= ->].
Qed.

(** How far any batch gets, in either mode. *)
Lemma tool_calls_batch calls s :
  let '(o, s') := _execute_tool_calls cfg calls s in batch_result calls s o s'.
Proof using Type.
  unfold _execute_tool_calls. destruct (_ && _); [|apply sequential_batch].
  unfold _execute_tool_calls_parallel. rewrite bind_eq.
  pose proof (gate_batch_conv calls [] [] s eq_refl) as Hg. simpl in Hg.
  destruct (gate_batch cfg [] [] calls s) as [[slots|e| |] s1];
    [|eapply batch_retype; [| |exact Hg]; try done; by intros ? [= ->]..].
  destruct Hg as [Hc Hl]. pose proof (dispatch_batch calls slots s1 Hl) as Hd.
  destruct (_dispatch_and_record cfg calls slots s1) as [o s2]. destruct Hd as [Hb _].
  unfold batch_result in *. by rewrite <- Hc.
Qed.

(** ** Histories *)

Lemma append_all_uncapped st ms : max_messages st = None ->
  append_all st ms = set_messages st (messages st ++ ms).
Proof using Type.
  revert st; induction ms as [|m ms IH]; intros st Hc; simpl.
  - rewrite app_nil_r. by destruct st.
  - rewrite append_message_uncapped by done. rewrite IH by done. simpl. by rewrite <- app_assoc.
Qed.

Lemma answered_scan calls rs ids : length rs = length calls ->
  replay_scan (map tc_id calls ++ ids) (answered calls rs) = Some ids.
Proof using Type.
  revert rs; induction calls as [|c calls IH]; intros [|r rs] Hl; try done.
  injection Hl as Hl. cbn [answered zip_with map app replay_scan]. unfold result_message at 1.
  rewrite tool_result_scan. by apply IH.
Qed.

Lemma answered_use_ids calls rs : all_use_ids (answered calls rs) = [].
Proof using Type.
  revert rs; induction calls as [|c calls IH]; intros [|r rs]; try done.
  unfold all_use_ids in *. cbn [answered zip_with map concat]. rewrite IH, app_nil_r.
  unfold result_message. by destruct (is_error r).
Qed.

(** An uncapped history whose calls have fresh ids and are all answered in order,
    but for the calls [ids], which it ends waiting for. *)
Definition waits (st : ConversationState) (ids : list pystr) : Prop :=
  max_messages st = None /\ awaiting st ids /\
  NoDup (all_use_ids (messages st)) /\ [] ∉ all_use_ids (messages st).

(** After a batch on a history that waits for its calls, exactly the calls left
    are waited for. *)
Lemma batch_waits {T} calls s (o : outcome T) s' :
  waits (conv s) (map tc_id calls) -> batch_result calls s o s' ->
  exists rest, waits (conv s') (map tc_id rest) /\ suffix rest calls /\
    (forall x, o = Ret x -> rest = []) /\ (forall e, o = Raise e -> batch_raises rest e s').
Proof using Type.
  intros (Hm & Ha & Hn & He) (done & rest & rs & -> & Hl & Hc & Hr & Hp). exists rest.
  rewrite append_all_uncapped in Hc by done. unfold waits, awaiting in *. rewrite Hc. simpl.
  rewrite all_use_ids_app, answered_use_ids, app_nil_r.
  split; [split; [done|]; split; [|done]|split; [by exists done|done]].
  rewrite replay_scan_app, Ha, map_app. by apply answered_scan.
Qed.
End Batch.

(** ** Histories and the talk of the loop *)

Lemma waits_nil st : waits st [] <-> max_messages st = None /\ replay_ok (messages st).
Proof. unfold waits, replay_ok, awaiting. tauto. Qed.

Lemma waits_append st m ids : waits st [] -> result_ids m = [] -> use_ids m = ids ->
  NoDup ids -> [] ∉ ids -> (forall i, i ∈ ids -> i ∉ all_use_ids (messages st)) -> waits (append_message st m) ids.
Proof.
  intros (Hm & Ha & Hn & He) Hr <- Hnd Hne Hfresh. unfold waits, awaiting in *.
  rewrite append_message_uncapped by done. simpl. split; [done|]. rewrite replay_scan_app, Ha, all_use_ids_app.
  unfold all_use_ids at 2 4. simpl. rewrite app_nil_r. unfold scan_step. rewrite Hr. simpl.
  split; [by destruct (use_ids m)|]. split; [|set_solver].
  apply NoDup_app. split; [done|]. split; [|done]. intros i Hi Hi'. by apply (Hfresh i).
Qed.

Lemma waits_user st t : waits st [] -> waits (add_user_message st t) [].
Proof. intros Hw. apply waits_append; try done; [constructor|set_solver|set_solver]. Qed.

(** The ids a response asks for are those its assistant message carries. *)
Lemma assistant_use_ids r : use_ids (assistant_message (_assistant_content r)) = map tc_id (tool_calls r).
Proof.
  assert (forall cs, omap (block_id (u "tool_use") (u "id")) (map use_block cs) = map tc_id cs) as Hcs.
  { induction cs as [|c cs IH]; [done|].
    change (tc_id c :: omap (block_id (u "tool_use") (u "id")) (map use_block cs) = map tc_id (c :: cs)).
    rewrite IH. done. }
  unfold _assistant_content. destruct (r_content r) as [|ch t], (tool_calls r) as [|c cs]; try done.
  - change (omap (block_id (u "tool_use") (u "id")) (map use_block (c :: cs)) = map tc_id (c :: cs)). apply Hcs.
  - change (omap (block_id (u "tool_use") (u "id")) (map use_block (c :: cs)) = map tc_id (c :: cs)). apply Hcs.
Qed.

Lemma assistant_result_ids r : result_ids (assistant_message (_assistant_content r)) = [].
Proof.
  assert (forall cs, omap (block_id (u "tool_result") (u "tool_use_id")) (map use_block cs) = []) as Hcs.
  { induction cs as [|c cs IH]; [done|exact IH]. }
  unfold _assistant_content. destruct (r_content r) as [|ch t], (tool_calls r) as [|c cs]; try done.
  - change (omap (block_id (u "tool_result") (u "tool_use_id")) (map use_block (c :: cs)) = []). apply Hcs.
  - change (omap (block_id (u "tool_result") (u "tool_use_id")) (map use_block (c :: cs)) = []). apply Hcs.
Qed.

(** ** The loop's methods that never raise *)

Section CalmLoop.
Context `{PyRuntime} `{SecretPatterns} {M W : Type} (cm : ContextManager M W)
  `{EventSink W} `{AgentEnv W} `{PermissionPolicy} (cfg : Config).

Abbreviation ok m := (calm (M := M) (W := W) m).

Hint Resolve c_emit c_hooks c_context c_cancelled c_persist : calm.

Lemma c_escalate : ok escalate.
Proof using Type. unfold escalate. calm_tac. Qed.
Lemma c_apply_mode m : ok (_apply_mode m).
Proof using Type. unfold _apply_mode. calm_tac. Qed.
Hint Resolve c_escalate c_apply_mode : calm.
Lemma c_classify msg : ok (_classify_and_route msg).
Proof using Type. unfold _classify_and_route. calm_tac. Qed.
Lemma c_maybe_escalate i t e : ok (_maybe_escalate i t e).
Proof using Type. unfold _maybe_escalate. calm_tac. Qed.
Lemma c_pause_wait : ok pause_wait.
Proof using Type. unfold pause_wait. calm_tac. Qed.
Lemma c_add_user t : ok (add_user t).
Proof using Type. unfold add_user. calm_tac. Qed.
Hint Resolve c_classify c_maybe_escalate c_pause_wait c_add_user : calm.
Lemma c_drain n : ok (drain_loop n).
Proof using Type. induction n as [|n IH]; simpl; calm_tac. Qed.
Lemma c_inbox : ok (_drain_inbox cfg).
Proof using Type. apply c_drain. Qed.
Lemma c_consume es f : ok (consume es f).
Proof using Type. revert f; induction es as [|[] es IH]; intros f; simpl; calm_tac. Qed.
Lemma c_budget_stop : ok _budget_stop_message.
Proof using Type. unfold _budget_stop_message. calm_tac. Qed.
Lemma c_create_plan msg : ok (_create_plan cfg msg).
Proof using Type. unfold _create_plan. calm_tac. Qed.
Lemma c_verify a : ok (_verify_final_answer a).
Proof using Type. unfold _verify_final_answer. calm_tac. Qed.
Lemma c_recall q : ok (_recall_memory cfg q).
Proof using Type. unfold _recall_memory. calm_tac. Qed.
Lemma c_store q t : ok (_store_memory q t).
Proof using Type. unfold _store_memory. calm_tac. Qed.
Lemma c_clear : ok _clear_working_memory.
Proof using Type. unfold _clear_working_memory. calm_tac. Qed.
Lemma c_cancelled_at l : ok (cancelled_at l).
Proof using Type. unfold cancelled_at. calm_tac. Qed.
Hint Resolve c_inbox c_consume c_budget_stop c_create_plan c_verify c_recall c_store c_clear c_cancelled_at : calm.
Lemma c_start msg : ok (start_run cfg msg).
Proof using Type. unfold start_run, clear_cancel. calm_tac. Qed.
Lemma c_finish msg t : ok (finish_run cfg msg t).
Proof using Type. unfold finish_run. calm_tac. Qed.

(** ** Methods that never leave a confirmation pending *)

Definition tame (e : aexn) (_ : St M W) : Prop := match e with EPending _ _ => False | _ => True end.

Abbreviation tamed m := (raises tame m).

Lemma tame_lift {T} (r : result T) : tamed (lift r).
Proof using Type. by apply raises_lift. Qed.

Lemma t_compact : tamed (_maybe_compact_context cm cfg).
Proof using Type.
  unfold _maybe_compact_context. apply raises_bind; [apply raises_calm; calm_tac|]. intros s.
  apply raises_bind; [apply tame_lift|]. intros r. apply raises_calm. calm_tac.
Qed.

Lemma t_record_usage r : tamed (_record_usage r).
Proof using Type.
  unfold _record_usage. apply raises_bind; [apply raises_calm; calm_tac|]. intros _.
  destruct (usage r) as [|x us]; [apply raises_calm; calm_tac|].
  apply raises_bind; [apply raises_calm; calm_tac|]. intros g. destruct (usage_record _ _) as [t res].
  apply raises_bind; [apply raises_calm; calm_tac|]. intros _.
  apply raises_bind; [apply tame_lift|]. intros _. apply raises_calm; calm_tac.
Qed.

Lemma t_chat req : tamed (chat_once req).
Proof using Type.
  unfold chat_once. apply raises_bind; [apply raises_calm; calm_tac|]. intros r.
  apply raises_bind; [apply tame_lift|]. intros r'.
  apply raises_bind; [apply t_record_usage|]. intros _. apply raises_calm; calm_tac.
Qed.

Lemma t_call_llm stream ap : tamed (_call_llm cfg stream ap).
Proof using Type.
  unfold _call_llm. apply raises_bind; [apply raises_calm; calm_tac|]. intros st.
  apply raises_bind; [apply raises_calm; calm_tac|]. intros _. destruct (negb stream); [apply t_chat|].
  apply raises_bind; [apply raises_calm; calm_tac|]. intros es.
  apply raises_bind; [apply raises_calm; calm_tac|]. intros f. destruct es.2.
  - apply raises_bind; [apply t_record_usage|]. intros _. apply raises_calm; calm_tac.
  - apply t_chat.
  - by intros s e' s' [= <- <-].
Qed.

Lemma t_check_structured schema t n : tamed (_check_structured schema t n).
Proof using Type.
  unfold _check_structured. apply raises_bind; [apply tame_lift|]. intros v. apply raises_calm. calm_tac.
Qed.

Lemma t_not_verified {T} a f : tamed (_raise_answer_not_verified (T := T) a f).
Proof using Type.
  unfold _raise_answer_not_verified. apply raises_bind; [apply raises_calm, c_emit|]. intros _.
  by intros s e s' [= <- <-].
Qed.

Lemma t_final_answer o l t : tamed (_final_answer cfg o l t).
Proof using Type.
  unfold _final_answer. apply raises_bind; [destruct o; [apply t_check_structured|apply raises_calm; calm_tac]|].
  intros []; [apply raises_calm; calm_tac|]. destruct (has_verifier cfg); [|apply raises_calm; calm_tac].
  apply raises_bind; [apply raises_calm; calm_tac|]. intros [[] f]; [apply raises_calm; calm_tac|].
  destruct (_ <=? 0)%Z; [apply t_not_verified|apply raises_calm; calm_tac].
Qed.

Lemma t_cap l : tamed (_cap_reached l).
Proof using Type.
  unfold _cap_reached. destruct (l_rejected l) as [[a f]|]; [apply t_not_verified|apply raises_calm; calm_tac].
Qed.

Lemma t_turn stream l hr : tamed (_turn cfg stream l hr).
Proof using Type.
  unfold _turn. apply raises_bind; [apply raises_calm; calm_tac|]. intros p.
  apply raises_bind; [apply t_call_llm|]. intros r. apply raises_calm; calm_tac.
Qed.
End CalmLoop.

(** ** A whole run *)

Section Replay.
Context `{PyRuntime} `{SecretPatterns} {M W : Type} (cm : ContextManager M W) `{!ReplaySafe cm}
  `{EventSink W} `{AgentEnv W} `{PermissionPolicy} (cfg : Config).
Implicit Types s : St M W.

(** The calls of a response carry distinct non-empty ids that the request's
    history does not use. *)
Definition fresh_response (msgs : list message) (r : LLMResponse) : Prop :=
  NoDup (map tc_id (tool_calls r)) /\ [] ∉ map tc_id (tool_calls r) /\
  forall i, i ∈ map tc_id (tool_calls r) -> i ∉ all_use_ids msgs.

(** What the loop relies on from a model provider. *)
Definition fresh_call_ids : Prop :=
  (forall req w r w', llm_chat req w = (Ok r, w') -> fresh_response (req_messages req) r) /\
  (forall req w es e w' r, llm_stream req w = ((es, e), w') -> SE_done r ∈ es -> fresh_response (req_messages req) r).

Definition whole_rel s s' : Prop := waits (conv s) [] -> waits (conv s') [].

Lemma whole_same s s' : conv s' = conv s -> whole_rel s s'.
Proof using Type. unfold whole_rel. by intros ->. Qed.

#[local] Instance whole_tool_rel : ToolRel cfg whole_rel (fun _ _ _ => True).
Proof using Type. split; try done; try (intros; by apply whole_same). unfold whole_rel. auto. Qed.

#[local] Instance whole_pend_rel : PendRel whole_rel.
Proof using Type. split; intros; by apply whole_same. Qed.

#[local] Instance whole_llm_rel : LlmRel whole_rel.
Proof using Type. split; intros; by apply whole_same. Qed.

#[local] Instance whole_route_rel : RouteRel whole_rel.
Proof using Type. split; intros; by apply whole_same. Qed.

#[local] Instance whole_loop_rel : LoopRel whole_rel.
Proof using H3 cfg.
  split; try (intros; by apply whole_same). exact (escalate_kept cfg whole_rel (fun _ _ _ => True)).
Qed.

#[local] Instance whole_talk_rel : TalkRel cm cfg whole_rel.
Proof using H3 ReplaySafe0.
  split.
  - intros s t. unfold whole_rel. apply waits_user.
  - intros s md Hw. exact Hw.
  - intros s _. unfold whole_rel. intros Hw. unfold _maybe_compact_context. rewrite bind_eq. cbn [gets id].
    rewrite bind_eq. destruct (cm_should_compact cm _ _ _) as [[b m]|e]; cbn [lift throw mret a_ret]; [|done].
    rewrite bind_eq. cbn [modify fst snd]. destruct b; [|done]. unfold when. cbv zeta.
    rewrite bind_eq. unfold gets at 1.
    rewrite bind_eq. unfold env. set (s1 := set_manager m s).
    pose proof (compact_replay_ok (manager s1) (conv s) (world s1)) as Hok.
    pose proof (compact_max_messages (manager s1) (conv s) (world s1)) as Hmax.
    destruct (cm_compact cm (manager s1) (conv s) (world s1)) as [st w]. simpl in Hok, Hmax. cbv beta iota.
    rewrite bind_eq. cbn [modify]. set (s2 := set_conv st _).
    apply waits_nil in Hw as [Hm Ho].
    assert (waits (conv s2) []) as Hw2 by (apply waits_nil; simpl; split; [congruence|by apply Hok]).
    set (m' := _emit _ _). assert (keeps (fun _ => True) whole_rel m') as Hk
      by (by apply (keeps_emit cfg whole_rel (fun _ _ _ => True))). by apply (Hk s2 I).
Qed.

(** How a method leaves the conversation: replayable if it returns or the answer
    was rejected; waiting for exactly the recorded calls if a confirmation is
    pending; and waiting for some calls at most if an exception escaped. *)
Definition settled {T} (o : outcome T) s : Prop :=
  match o with
  | Ret _ | Raise (ENotVerified _ _) => waits (conv s) []
  | Raise (EPending p _) => exists rest, pending_at rest p s /\ waits (conv s) (map tc_id rest)
  | Raise (EPy _) => exists ids, waits (conv s) ids
  | Blocked | NoFuel => True
  end.

Definition settles {T} (m : A M W T) : Prop := forall s, waits (conv s) [] -> settled (m s).1 (m s).2.

Lemma settles_of {T} (m : A M W T) : keeps (fun _ => True) whole_rel m -> raises tame m -> settles m.
Proof using Type.
  intros Hk Ht s Hw. specialize (Hk s I Hw). specialize (Ht s).
  destruct (m s) as [[x|e| |] s']; simpl in *; try done. destruct e; [by eexists|by destruct (Ht _ _ eq_refl)|done].
Qed.

Lemma settles_calm {T} (m : A M W T) : keeps (fun _ => True) whole_rel m -> calm m -> settles m.
Proof using Type. intros Hk Hc. apply settles_of; [done|by apply raises_calm]. Qed.

Lemma settles_bind {T U} (m : A M W T) (f : T -> A M W U) : settles m -> (forall x, settles (f x)) -> settles (m ≫= f).
Proof using Type.
  intros Hm Hf s Hw. rewrite bind_eq. specialize (Hm s Hw). destruct (m s) as [[x|e| |] s']; simpl in *; try done.
  by apply Hf.
Qed.

#[local] Existing Instance same_conv_tool_rel.
#[local] Existing Instance same_pending_tool_rel.

#[local] Instance same_conv_llm_rel : LlmRel (M := M) (W := W) same_conv.
Proof using Type. by split. Qed.

(** A request's response has fresh ids. *)
Lemma chat_fresh (Hfresh : fresh_call_ids) req (P : St M W -> Prop) :
  ensures P (chat_once req) (fun r _ => fresh_response (req_messages req) r).
Proof using Type.
  intros s _ x. unfold chat_once. rewrite bind_eq. unfold env.
  destruct (llm_chat req (world s)) as [[r|e] w] eqn:E; [|done]. cbn [lift mret a_ret].
  rewrite bind_eq. cbn [mret a_ret]. rewrite bind_eq.
  destruct (_record_usage r _) as [[[]|e| |] s']; try done. intros [= <-]. by eapply (proj1 Hfresh).
Qed.

(** The response kept from a stream is one of its [done] responses. *)
Lemma consume_from es f s x : (consume (M := M) (W := W) es f s).1 = Ret x -> forall r, x = Some r -> f = Some r \/ SE_done r ∈ es.
Proof using Type.
  revert f s; induction es as [|e es IH]; intros f s; simpl.
  { intros [= <-]. by left. }
  destruct e as [d|c|r0].
  - rewrite bind_eq. destruct (_emit _ _ s) as [[[]|e| |] s1]; try done.
    intros Hx r Hr. destruct (IH f s1 Hx r Hr); [by left|right; by apply list_elem_of_further].
  - intros Hx r Hr. destruct (IH _ _ Hx r Hr); [by left|right; by apply list_elem_of_further].
  - intros Hx r Hr. destruct (IH _ _ Hx r Hr) as [[= ->]|]; right; [apply list_elem_of_here|by apply list_elem_of_further].
Qed.

Lemma call_llm_fresh (Hfresh : fresh_call_ids) stream ap st :
  ensures (fun s => conv s = st) (_call_llm cfg stream ap) (fun r _ => fresh_response (messages st) r).
Proof using Type.
  unfold _call_llm. eapply (ensures_bind _ (fun x _ => x = st)); [by intros s <- x [= <-]|].
  intros x s Hx. subst x. revert s. set (m := log ALlm ;; _).
  assert (ensures (fun _ => True) m (fun r _ => fresh_response (messages st) r)) as Hm; [|intros s; by apply Hm].
  unfold m. eapply ensures_bind; [apply ensures_any|]. intros []. cbv beta.
  change (messages st) with (req_messages (request cfg st ap)).
  destruct (negb stream); [by apply chat_fresh|].
  eapply (ensures_bind _ (fun es _ => forall r, SE_done r ∈ es.1 -> fresh_response (req_messages (request cfg st ap)) r)).
  { intros s _ [es e]. unfold env. destruct (llm_stream _ _) as [[es' e'] w] eqn:E. intros [= -> ->] r Hr. by eapply (proj2 Hfresh). }
  intros [es e]. eapply (ensures_bind _ (fun f _ => forall r, f = Some r -> fresh_response (req_messages (request cfg st ap)) r)).
  { intros s Hes x Hx r Hr. destruct (consume_from es None s x Hx r Hr); [done|by apply Hes]. }
  intros f. cbn [fst snd]. destruct e; [|by apply chat_fresh|apply ensures_throw].
  intros s Hf x. rewrite bind_eq. destruct (_record_usage _ s) as [[[]|?| |] s']; try done.
  intros [= <-]. destruct f as [r|]; [by apply Hf|].
  split; [constructor|]. split; [apply not_elem_of_nil|]. by intros i Hi%not_elem_of_nil.
Qed.

(** The model's turn: the history then waits for exactly the calls it asked for. *)
Lemma turn_waits (Hfresh : fresh_call_ids) stream l hr s : waits (conv s) [] ->
  let '(o, s') := _turn cfg stream l hr s in
  match o with
  | Ret r => waits (conv s') (map tc_id (tool_calls r))
  | _ => settled o s'
  end.
Proof using H3.
  intros Hw. pose proof (t_turn cfg stream l hr s) as Ht. unfold _turn in *.
  rewrite bind_eq in *. unfold gets at 1 in Ht. unfold gets at 1. cbv beta iota in *. rewrite bind_eq in *.
  set (ap := _system_prompt_append _ _) in *.
  pose proof (k_call_llm cfg same_conv (fun _ _ _ => True) stream ap s I) as Hk. unfold same_conv in Hk.
  pose proof (call_llm_fresh Hfresh stream ap (conv s) s eq_refl) as Hf.
  destruct (_call_llm cfg stream ap s) as [[r|e| |] s1]; simpl in Hk; [|..|done|done].
  2: { specialize (Ht e s1 eq_refl). destruct e; [exists []; by rewrite Hk|done|by simpl; rewrite Hk]. }
  specialize (Hf r eq_refl) as (Hnd & Hne & Hnew). clear Ht.
  rewrite bind_eq. pose proof (k_context cfg same_conv (fun _ _ _ => True) AFTER_LLM_CALL s1 I) as Hkc. unfold same_conv in Hkc.
  pose proof (c_context AFTER_LLM_CALL s1) as Hcc. destruct (context_of AFTER_LLM_CALL s1) as [[ctx|e| |] s2];
    simpl in Hkc; [|by destruct (Hcc e)|done|done].
  rewrite bind_eq. set (hc := with_response _ _ _).
  pose proof (k_hooks cfg same_conv (fun _ _ _ => True) (fun _ => True) AFTER_LLM_CALL hc s2 I) as Hkh. unfold same_conv in Hkh.
  pose proof (c_hooks cfg AFTER_LLM_CALL hc s2) as Hch. destruct (_trigger_hooks cfg AFTER_LLM_CALL hc s2) as [[hs|e| |] s3];
    simpl in Hkh; [|by destruct (Hch e)|done|done].
  rewrite bind_eq. cbn [upd_conv modify]. set (s4 := set_conv _ s3).
  assert (waits (conv s4) (map tc_id (tool_calls r))) as Hw4.
  { simpl. rewrite Hkh, Hkc, Hk. apply waits_append; try done; [apply assistant_result_ids|apply assistant_use_ids]. }
  set (m1 := match nonempty (reasoning_text r) with Some _ => _ | None => _ end).
  set (m2 := _emit (M := M) (u "agent.llm_response") _).
  assert (keeps (fun _ => True) same_conv (m1;; m2)) as Hkm.
  { apply keeps_bind; [apply (tr_trans (cfg := cfg))|done| |intros _; apply (k_emit cfg same_conv (fun _ _ _ => True))].
    unfold m1. destruct (nonempty _); [apply (k_emit cfg same_conv (fun _ _ _ => True))|apply keeps_ret, (tr_refl (cfg := cfg))]. }
  assert (calm (m1;; m2)) as Hcm.
  { apply calm_bind; [|intros _; apply c_emit]. unfold m1. destruct (nonempty _); [apply c_emit|apply calm_ret]. }
  specialize (Hkm s4 I). specialize (Hcm s4). unfold same_conv in Hkm. rewrite bind_eq in Hkm, Hcm. rewrite bind_eq.
  destruct (m1 s4) as [[[]|e| |] s5]; [|by destruct (Hcm e)|done|done].
  rewrite bind_eq. destruct (m2 s5) as [[[]|e| |] s6]; [|by destruct (Hcm e)|done|done].
  simpl in Hkm. simpl. by rewrite Hkm.
Qed.

Lemma bind_settled {T U} (m : A M W T) (f : T -> A M W U) s :
  (forall x s1, m s = (Ret x, s1) -> settled (f x s1).1 (f x s1).2) ->
  (forall e s1, m s = (Raise e, s1) -> settled (T := T) (Raise e) s1) -> settled ((m ≫= f) s).1 ((m ≫= f) s).2.
Proof using Type.
  intros Hf He. rewrite bind_eq. destruct (m s) as [[x|e| |] s1]; try done; [by apply Hf|by apply He].
Qed.

(** A batch on a history that waits for it. *)
Lemma batch_settled {T} calls s (o : outcome T) s' :
  waits (conv s) (map tc_id calls) -> batch_result cfg calls s o s' -> settled o s'.
Proof using Type.
  intros Hw Hb. destruct (batch_waits cfg calls s o s' Hw Hb) as (rest & Hwr & _ & Hret & Hraise).
  destruct o as [x|[e|p i|a f]| |]; try done.
  - by rewrite (Hret x eq_refl) in Hwr.
  - by eexists.
  - exists rest. split; [by apply (Hraise _ eq_refl)|done].
  - by destruct (Hraise _ eq_refl).
Qed.

Lemma round_settled l calls s : waits (conv s) (map tc_id calls) ->
  settled (_tool_round cfg l calls s).1 (_tool_round cfg l calls s).2.
Proof using H3 ReplaySafe0.
  intros Hw. unfold _tool_round. pose proof (tool_calls_batch cfg calls s) as Hb.
  destruct (_execute_tool_calls cfg calls s) as [o s1] eqn:E.
  pose proof (batch_settled calls s o s1 Hw Hb) as Hs. apply bind_settled; rewrite E.
  2: by intros e ? [= -> ->].
  intros any ? [= -> <-]. set (m := _persist_state cfg;; _). revert Hs. simpl. revert s1 E Hb. 
  assert (settles m) as Hm; [|intros s1 _ _; apply Hm]. unfold m.
  apply settles_bind; [apply settles_calm; [apply (k_persist cfg whole_rel (fun _ _ _ => True))|apply c_persist]|]. intros _.
  apply settles_bind; [apply settles_calm; [apply keeps_gets, (tr_refl (cfg := cfg))|apply calm_gets]|]. intros [why|].
  - apply settles_calm; [|apply calm_bind; [apply c_emit|intros _; apply calm_ret]].
    apply keeps_bind; [apply (tr_trans (cfg := cfg))|done|apply (k_emit cfg whole_rel (fun _ _ _ => True))|].
    intros _. apply keeps_ret, (tr_refl (cfg := cfg)).
  - apply settles_bind; [apply settles_calm; [apply (k_inbox cm cfg whole_rel (fun _ _ _ => True))|apply c_inbox]|]. intros _.
    apply settles_bind; [apply settles_calm; [apply (k_pause_wait cfg whole_rel (fun _ _ _ => True))|apply c_pause_wait]|]. intros _.
    apply settles_bind; [apply settles_calm; [apply (k_cancelled cfg whole_rel (fun _ _ _ => True))|apply c_cancelled]|]. intros [].
    + apply settles_calm; [apply (k_cancelled_at cfg whole_rel (fun _ _ _ => True))|apply c_cancelled_at].
    + apply settles_bind; [apply settles_calm; [apply (k_maybe_escalate cm cfg whole_rel (fun _ _ _ => True))|apply c_maybe_escalate]|].
      intros esc. apply settles_calm; [apply keeps_ret, (tr_refl (cfg := cfg))|apply calm_ret].
Qed.

Lemma settles_gets {T} (f : St M W -> T) : settles (gets f).
Proof using cfg H3. apply settles_calm; [apply keeps_gets, (tr_refl (cfg := cfg))|apply calm_gets]. Qed.

Lemma settles_ret {T} (x : T) : settles (mret x).
Proof using cfg H3. apply settles_calm; [apply keeps_ret, (tr_refl (cfg := cfg))|apply calm_ret]. Qed.

Lemma settles_emit ty payload : settles (_emit ty payload).
Proof using cfg H3. apply settles_calm; [apply (k_emit cfg whole_rel (fun _ _ _ => True))|apply c_emit]. Qed.

Lemma settles_cancelled_at l : settles (cancelled_at l).
Proof using cfg H3. apply settles_calm; [apply (k_cancelled_at cfg whole_rel (fun _ _ _ => True))|apply c_cancelled_at]. Qed.

Lemma settles_cancelled : settles is_cancelled.
Proof using cfg H3. apply settles_calm; [apply (k_cancelled cfg whole_rel (fun _ _ _ => True))|apply c_cancelled]. Qed.

Lemma settles_context p : settles (context_of p).
Proof using cfg H3. apply settles_calm; [apply (k_context cfg whole_rel (fun _ _ _ => True))|apply c_context]. Qed.

Lemma settles_hooks p ctx : settles (_trigger_hooks cfg p ctx).
Proof using H3. apply settles_calm; [apply (k_hooks cfg whole_rel (fun _ _ _ => True))|apply c_hooks]. Qed.

Lemma turn_settled (Hfresh : fresh_call_ids) stream schema l hr : settles
  (r ← _turn cfg stream l hr;
   match tool_calls r with
   | [] => _final_answer cfg schema l (r_content r)
   | calls => _tool_round cfg l calls
   end).
Proof using H3 ReplaySafe0.
  intros s Hw. pose proof (turn_waits Hfresh stream l hr s Hw) as Ht. apply bind_settled.
  - intros r s1 E. rewrite E in Ht. destruct (tool_calls r) as [|c cs].
    + apply settles_of; [apply (k_final_answer cm cfg whole_rel (fun _ _ _ => True))|apply t_final_answer|done].
    + by apply round_settled.
  - intros e s1 E. by rewrite E in Ht.
Qed.

Lemma iteration_settles (Hfresh : fresh_call_ids) stream schema l : settles (_iteration cm cfg stream schema l).
Proof using H3 ReplaySafe0.
  unfold _iteration.
  apply settles_bind; [apply settles_calm; [apply (k_pause_wait cfg whole_rel (fun _ _ _ => True))|apply c_pause_wait]|]. intros _.
  apply settles_bind; [apply settles_cancelled|]. intros []; [apply settles_cancelled_at|].
  apply settles_bind; [apply settles_gets|]. intros m.
  apply settles_bind; [apply settles_emit|]. intros _.
  apply settles_bind; [apply settles_of; [apply (k_compact cm cfg whole_rel)|apply t_compact]|]. intros _.
  apply settles_bind; [apply settles_gets|]. intros st.
  apply settles_bind; [apply settles_context|]. intros ctx.
  apply settles_bind; [apply settles_hooks|]. intros hr.
  apply settles_bind; [apply settles_cancelled|]. intros []; [apply settles_cancelled_at|].
  apply settles_bind; [apply settles_calm; [apply (k_budget_stop cfg whole_rel (fun _ _ _ => True))|apply c_budget_stop]|].
  intros [text|]; [apply settles_ret|by apply turn_settled].
Qed.

Lemma loop_settles (Hfresh : fresh_call_ids) fuel stream schema l : settles (loop cm cfg fuel stream schema l).
Proof using H3 ReplaySafe0.
  assert (forall l, settles (_cap_reached l)) as Hcap
    by (intros l'; apply settles_of; [apply (k_cap cm cfg whole_rel (fun _ _ _ => True))|apply t_cap]).
  revert l; induction fuel as [|fuel IH]; intros l; cbn [loop];
    (apply settles_bind; [apply settles_gets|]; intros cap); destruct (_ <? _)%Z; try apply Hcap; [by intros s _|].
  apply settles_bind; [by apply iteration_settles|]. intros [l'|text]; [apply IH|apply settles_ret].
Qed.

(** The handler around the loop re-raises, and leaves the conversation as it is. *)
Lemma failed_settled {T} e s : settled (T := T) (Raise e) s ->
  settled (run_failed cfg (T := T) e s).1 (run_failed cfg (T := T) e s).2.
Proof using H3.
  intros Hs. destruct e as [e|p i|a f]; [set (e' := EPy e) in *|done|set (e' := ENotVerified a f) in *].
  all: pose proof (k_failed (T := T) cfg same_conv (fun _ _ _ => True) e' s I) as Hk; unfold same_conv in Hk.
  all: assert (ensures (M := M) (W := W) (fun _ => True) (run_failed cfg (T := T) e') (fun _ _ => False)) as Hr
    by (unfold run_failed, e'; repeat (eapply ensures_bind; [apply ensures_any|intros ?]); apply ensures_throw).
  all: assert (raises (M := M) (W := W) (fun x _ => x = e') (run_failed cfg (T := T) e')) as Hx.
  1, 3: unfold run_failed, e'; apply raises_bind; [apply raises_calm, c_context|]; intros ctx;
    (apply raises_bind; [apply raises_calm, c_hooks|]); intros hs;
    (apply raises_bind; [apply raises_calm, c_emit|]); intros ev;
    (apply raises_bind; [apply raises_calm, calm_when, c_clear|]); intros cl; by intros s0 x s1 [= <- _].
  all: specialize (Hr s I); specialize (Hx s); destruct (run_failed cfg e' s) as [[x|x| |] s1]; simpl in *;
    try done; try (by destruct (Hr x)); rewrite (Hx x s1 eq_refl), Hk; exact Hs.
Qed.

Lemma run_settles (Hfresh : fresh_call_ids) msg stream schema retries v : settles (run cm cfg msg stream schema retries v).
Proof using H3 ReplaySafe0.
  unfold run. apply settles_bind; [apply settles_gets|]. intros rs.
  do 3 (apply settles_bind;
    [apply settles_calm; [apply k_answering, whole_loop_rel|apply calm_answering]|intros _]).
  cbv zeta. destruct (negb (_ && bool_decide (is_Some _))); [|apply settles_of; [apply keeps_throw, (tr_refl (cfg := cfg))|by intros s e s' [= <- _]]].
  apply settles_bind.
  { destruct msg as [q|]; [|apply settles_ret]. unfold when. destruct (has_memory cfg); [|apply settles_ret].
    apply settles_calm; [apply (k_recall cm cfg whole_rel (fun _ _ _ => True))|apply c_recall]. }
  intros _. apply settles_bind.
  { destruct (composed_message _ _); [|apply settles_ret].
    apply settles_calm; [apply (k_add_user cm cfg whole_rel (fun _ _ _ => True))|apply c_add_user]. }
  intros _. apply settles_bind.
  { unfold when. destruct (negb _); [|apply settles_ret].
    apply settles_calm; [apply (k_start cm cfg whole_rel (fun _ _ _ => True))|apply c_start]. }
  intros _. apply settles_bind.
  { intros s Hw. unfold catch. set (sc := match schema with Some _ => _ | None => _ end).
    assert (settles (_run_loop cm cfg stream sc retries)) as Hl.
    { unfold _run_loop. apply settles_bind; [apply settles_gets|]. intros r. by apply loop_settles. }
    specialize (Hl s Hw). destruct (_run_loop cm cfg stream sc retries s) as [[x|e| |] s1]; try done.
    by apply failed_settled. }
  intros text. apply settles_bind; [|intros _; apply settles_ret].
  apply settles_calm; [apply (k_finish cfg whole_rel (fun _ _ _ => True))|apply c_finish].
Qed.

(** The verdict on a saved call: its result is appended, then the calls after it
    are run. *)
Lemma verdict_calm (p : Pending) approved : exists m : A M W ToolResult,
  calm m /\ keeps (fun _ => True) same_conv m /\ keeps (fun _ => True) same_pending m /\
  forall s, _pending_confirmation (runst s) = Some p ->
  _resolve_pending_confirmation cfg approved s =
  (r ← m; _emit_tool_call_finished (pc_call p) r;; add_result cfg (pc_call p) r;;
   remaining ← gets (fun s => _pending_remaining_calls (runst s));
   upd_run (set_remaining_calls []);;
   let remaining :=
     match remaining with
     | c :: rest => if bool_decide (tc_id c = tc_id (pc_call p)) then rest else remaining
     | [] => []
     end in
   when (negb (bool_decide (remaining = []))) (_execute_tool_calls cfg remaining;; mret tt);;
   _persist_state cfg) (set_runst (set_pending None (runst s)) s).
Proof using H3.
  set (call := pc_call p). set (args := pc_arguments p).
  exists (if approved then
    match dict_get (tc_name call) (tools cfg) with
    | Some t => log (AHuman (tc_name call) args);; r ← _run_tool cfg t args;
                r ← _retry_transient_tool cfg call t args r; _finalize_call cfg call t args r;; mret r
    | None => mret (error_result (u "Unknown tool: " ++ tc_name call))
    end
  else _deny_call call (u "confirmation declined by user") args).
  split; [|split; [|split]].
  - destruct approved; [|apply c_deny]. destruct (dict_get _ _); [|apply calm_ret].
    pose proof (c_run_tool (M := M) (W := W) cfg). pose proof (c_retry (M := M) (W := W) cfg call).
    pose proof (c_finalize (M := M) (W := W) cfg call). calm_tac.
  - destruct approved; [|by apply (keeps_deny cfg same_conv (fun _ _ _ => True))].
    destruct (dict_get _ _) as [t|] eqn:Et; [|apply keeps_ret, (tr_refl (cfg := cfg))].
    by apply (keeps_human_run cfg same_conv (fun _ _ _ => True)).
  - destruct approved; [|by apply (keeps_deny cfg same_pending (fun _ _ _ => True))].
    destruct (dict_get _ _) as [t|] eqn:Et; [|apply keeps_ret, (tr_refl (cfg := cfg))].
    by apply (keeps_human_run cfg same_pending (fun _ _ _ => True)).
  - intros s Hp. unfold _resolve_pending_confirmation. rewrite bind_eq. cbn [gets]. by rewrite Hp.
Qed.

Lemma resolve_settled approved rest p s : pending_at rest p s -> waits (conv s) (map tc_id rest) ->
  settled (_resolve_pending_confirmation cfg approved s).1 (_resolve_pending_confirmation cfg approved s).2.
Proof using H3.
  intros (Hr & Hp & later & ->) Hw. destruct (verdict_calm p approved) as (m & Hcm & Hkm & Hpm & Hres).
  rewrite (Hres s Hp). clear Hres. set (s0 := set_runst _ s). apply bind_settled; [|by intros e s1 E; destruct (Hcm s0 e); rewrite E].
  intros r s1 E. specialize (Hkm s0 I). specialize (Hpm s0 I). rewrite E in Hkm, Hpm. unfold same_conv in Hkm. destruct Hpm as [_ Hpm].
  simpl in Hkm, Hpm. apply bind_settled.
  2: { intros e s2 E2. destruct (c_finished (pc_call p) r s1 e). by rewrite E2. }
  intros [] s2 E2. pose proof (keeps_finished cfg same_conv (fun _ _ _ => True) (fun _ => True) (pc_call p) r (stable_true _) s1 I) as Hc2.
  pose proof (keeps_finished cfg same_pending (fun _ _ _ => True) (fun _ => True) (pc_call p) r (stable_true _) s1 I) as Hp2.
  rewrite E2 in Hc2, Hp2. unfold same_conv in Hc2. destruct Hp2 as [_ Hp2]. simpl in Hc2, Hp2.
  rewrite bind_eq, add_result_conv. cbv beta iota. set (s3 := set_conv _ s2).
  rewrite bind_eq. cbn [gets]. rewrite bind_eq. cbn [upd_run modify]. set (s4 := set_runst _ s3).
  assert (waits (conv s4) (map tc_id later)) as Hw4.
  { simpl. rewrite Hc2, Hkm. destruct Hw as (Hm & Ha & Hn & He). unfold waits, awaiting in *. simpl in Ha.
    rewrite append_message_uncapped by done. simpl. rewrite replay_scan_app, Ha.
    assert (all_use_ids (messages (conv s) ++ [result_message cfg (pc_call p) r]) = all_use_ids (messages (conv s))) as ->.
    { rewrite all_use_ids_app. unfold all_use_ids at 2. unfold result_message.
      destruct (is_error r); simpl; apply app_nil_r. }
    split; [done|]. split; [|done]. cbn [replay_scan]. unfold result_message. by rewrite tool_result_scan. }
  assert (_pending_remaining_calls (runst s3) = pc_call p :: later) as -> by (simpl; congruence).
  cbv iota. rewrite (bool_decide_eq_true_2 (tc_id (pc_call p) = _)) by done.
  assert (settles (_persist_state cfg)) as Hpersist
    by (apply settles_calm; [apply (k_persist cfg whole_rel (fun _ _ _ => True))|apply c_persist]).
  destruct later as [|c cs]; [by apply Hpersist|].
  rewrite bool_decide_eq_false_2 by done. simpl negb. unfold when.
  pose proof (tool_calls_batch cfg (c :: cs) s4) as Hb. rewrite bind_eq, bind_eq.
  destruct (_execute_tool_calls cfg (c :: cs) s4) as [o s5].
  pose proof (batch_settled _ _ _ _ Hw4 Hb) as Hs. destruct o as [any|e| |]; [|exact Hs|done|done].
  cbn [mret a_ret]. by apply Hpersist.
Qed.
End Replay.

(** ** Theorems *)

(** C2: a run keeps the history replayable. Started on an uncapped history in
    which every call is answered, a run that returns, or that ends with a rejected
    answer, leaves such a history, whatever the tools, hooks, policies and the
    context manager do, in sequence or in parallel; a run that stops for a human
    confirmation leaves a history waiting for exactly the recorded calls, the
    first of which is the one to confirm; and an exception that escapes leaves at
    most some calls unanswered. *)
Theorem run_keeps_history_replayable `{PyRuntime} `{SecretPatterns} {M W} (cm : ContextManager M W)
    `{!ReplaySafe cm} `{EventSink W} `{AgentEnv W} `{PermissionPolicy} cfg (s : St M W) msg stream schema retries v :
  fresh_call_ids (W := W) -> waits (conv s) [] ->
  settled (run cm cfg msg stream schema retries v s).1 (run cm cfg msg stream schema retries v s).2.
Proof. intros Hf Hw. by apply run_settles. Qed.

(** C6: the verdict of a human completes the history. Approving or declining a
    saved call appends its result first and then runs the calls recorded after
    it, so that the history is replayable again, or waits for exactly the calls
    of the next confirmation. *)
Theorem verdict_completes_history `{PyRuntime} `{SecretPatterns} {M W} `{EventSink W} `{AgentEnv W}
    `{PermissionPolicy} cfg (s : St M W) approved p rest :
  pending_at rest p s -> waits (conv s) (map tc_id rest) ->
  settled (_resolve_pending_confirmation cfg approved s).1 (_resolve_pending_confirmation cfg approved s).2.
Proof. apply resolve_settled. Qed.

(** C20: a batch of tool calls, run in sequence or through the thread pool, adds
    to the conversation one result per call in the order of the calls and nothing
    else, whichever jobs finish first, are refused, retried, cancelled or time
    out; if it raises, it has done so for a prefix of the calls. *)
Theorem batch_answers_in_order `{PyRuntime} `{SecretPatterns} {M W} `{EventSink W} `{AgentEnv W}
    `{PermissionPolicy} cfg (s : St M W) calls :
  let '(o, s') := _execute_tool_calls cfg calls s in
  exists n rs, length rs = n /\ (n <= length calls)%nat /\
    conv s' = foldl append_message (conv s) (zip_with (result_message cfg) (take n calls) rs) /\
    match o with Ret _ => n = length calls | _ => True end.
Proof.
  pose proof (tool_calls_batch cfg calls s) as Hb. destruct (_execute_tool_calls cfg calls s) as [o s'].
  destruct Hb as (done & rest & rs & -> & Hl & Hc & Hr & _). exists (length done), rs.
  rewrite take_app_length, length_app. split; [done|]. split; [lia|]. split; [done|].
  destruct o; try done. rewrite (Hr _ eq_refl). simpl. lia.
Qed.
