(* ===== verification/AgentScenario.v ===== *)
(** * The agent: concrete runs

    A small world (a scripted model, tools that answer from a list, a log of
    events) in which whole runs are evaluated by the kernel. The runs witness the
    hypotheses of the agent's theorems and exhibit the behaviours recorded as
    findings. *)

From stdpp Require Import base gmap strings list.
From Stdlib Require Import ZArith Lia SpecFloat.
From S2P Require Import Prelude Json Types Validation TextCompact Summary Conversation EventBus Redact Hooks.
From S2P Require Import Context Compaction Policy Budgets Structured AgentState AgentTools AgentLoop.
From S2P Require Import AgentFrame AgentSafety AgentBounds AgentReplay.

(** ** The world *)

Record Desk := MkDesk {
  d_script : list LLMResponse;
  d_control : Control;
  d_events : list Event;
  d_outcomes : list raw_outcome;
  d_mode : AgentMode;
  d_ids : Z;
  d_verdicts : list bool;
}.

#[local] Instance desk_runtime : PyRuntime := {|
  float_repr := fun _ => u "1.0"; py_repr := fun j => match j with JStr s => u "'" ++ s ++ u "'" | _ => u "{}" end;
  sha256_hexdigest := fun s => s; re_search := fun _ _ => Some false;
  json_loads := fun s => if bool_decide (s = u "{}") then Some (JObj []) else None;
  json_raw_decode := fun _ => None;
  url_hostname := fun url => if contains (u "[") url then Err (value_error (u "Invalid IPv6 URL")) else Ok None |}.

#[local] Instance desk_patterns : SecretPatterns := {| rx_sub := fun _ s => s |}.

#[local] Instance desk_sink : EventSink Desk := {|
  publish_to := fun e d => MkDesk (d_script d) (d_control d) (d_events d ++ [e]) (d_outcomes d) (d_mode d)
    (d_ids d) (d_verdicts d) |}.

Definition pop {T} (dflt : T) (l : list T) : T * list T := match l with [] => (dflt, []) | x :: l' => (x, l') end.

Definition next_response (d : Desk) : option LLMResponse * Desk :=
  match d_script d with
  | [] => (None, d)
  | r :: rs => (Some r, MkDesk rs (d_control d) (d_events d) (d_outcomes d) (d_mode d) (d_ids d) (d_verdicts d))
  end.

Definition next_outcome (d : Desk) : raw_outcome * Desk :=
  let '(o, os) := pop (RawValue (JStr (u "ok"))) (d_outcomes d) in
  (o, MkDesk (d_script d) (d_control d) (d_events d) os (d_mode d) (d_ids d) (d_verdicts d)).

Definition next_verdict (d : Desk) : bool * Desk :=
  let '(b, bs) := pop true (d_verdicts d) in
  (b, MkDesk (d_script d) (d_control d) (d_events d) (d_outcomes d) (d_mode d) (d_ids d) bs).

Definition next_id (d : Desk) : pystr * Desk :=
  (u "id-" ++ dec (d_ids d),
   MkDesk (d_script d) (d_control d) (d_events d) (d_outcomes d) (d_mode d) (d_ids d + 1) (d_verdicts d)).

Definition zero : pyfloat := fl_of_Z 0.

(** The provider never reuses the id of a call. *)
Definition freshb (msgs : list message) (r : LLMResponse) : bool :=
  bool_decide (NoDup (map tc_id (tool_calls r))) && bool_decide ([] ∉ map tc_id (tool_calls r)) &&
  forallb (fun i => bool_decide (i ∉ all_use_ids msgs)) (map tc_id (tool_calls r)).

Lemma freshb_spec msgs r : freshb msgs r = true -> fresh_response msgs r.
Proof.
  unfold freshb, fresh_response. intros [[Hn%bool_decide_eq_true He%bool_decide_eq_true]%andb_true_iff Hf]%andb_true_iff.
  split; [done|]. split; [done|]. intros i Hi. apply forallb_forall with (x := i) in Hf; [|by apply list_elem_of_In].
  by apply bool_decide_eq_true in Hf.
Qed.

Definition answer (req : LLMRequest) (d : Desk) : result LLMResponse * Desk :=
  let '(r, d) := next_response d in
  (match r with
   | Some r => if freshb (req_messages req) r then Ok r else Err (value_error (u "reused call id"))
   | None => Err (value_error (u "the script is over"))
   end, d).

(** Jobs keep running until the agent waits for them. *)
#[local] Instance desk_env : AgentEnv Desk := {|
  control := d_control;
  set_control := fun c d => MkDesk (d_script d) c (d_events d) (d_outcomes d) (d_mode d) (d_ids d) (d_verdicts d);
  interfere := fun d => d;
  wait_resumed := fun _ => None;
  llm_chat := answer;
  llm_stream := fun _ d => (([], StreamUnsupported), d);
  classify := fun _ d => (Ok {| c_complexity := u "simple"; c_mode := d_mode d; c_confidence := zero; c_rationale := [] |}, d);
  create_plan := fun _ _ d => (Ok None, d);
  verify := fun _ _ _ d => let '(b, d) := next_verdict d in (Ok (Verdict b None), d);
  memory_search := fun _ _ d => (Ok [u "remembered"], d);
  memory_add := fun _ _ d => (Ok [], d);
  memory_clear_working := fun _ d => (Ok tt, d);
  store_save := fun _ d => (Ok tt, d);
  recorder_snapshot := fun _ _ d => (Ok tt, d);
  checkpoint_save := fun _ _ _ d => (Ok (u "checkpoint"), d);
  execute := fun _ _ d => next_outcome d;
  job_start := fun _ _ _ d => d;
  job_wait := fun _ _ d => let '(o, d) := next_outcome d in (JobDone o zero, d);
  jobs_finished := fun _ d => ([], d);
  hooks_at := fun _ _ => 0%nat;
  run_hook := fun _ _ d => ([], d);
  perf_counter := fun d => (zero, d);
  monotonic := fun d => (zero, d);
  sleep := fun _ d => d;
  uuid4 := next_id;
  utcnow := fun d => ([], d);
|}.

Lemma desk_fresh_call_ids : fresh_call_ids (W := Desk).
Proof.
  split; [|intros req w es e w' r [= <- <- <-] Hr; by apply not_elem_of_nil in Hr].
  intros req w r w'. simpl. unfold answer. destruct (next_response w) as [[r'|] w1]; [|done].
  destruct (freshb _ r') eqn:E; [|done]. intros [= -> _]. by apply freshb_spec.
Qed.

(** ** Building runs *)

Definition echo : Tool := {|
  t_name := u "echo"; t_description := []; t_parameters := JObj [(u "required", JList [JStr (u "text")])];
  risk_level := None; execution_policy := None; accepts_idempotency_key := false |}.

Definition desk_config : Config := {|
  tools := [(u "echo", echo)]; model_context_limit := 1000; tool_timeout := None; validate_tool_inputs := false;
  parallel_tool_execution := false; has_memory := false; memory_recall_limit := 5; has_planner := false;
  has_verifier := false; max_verification_retries := 0; max_transient_retries := 0;
  transient_retry_backoff_seconds := zero; has_injection_guard := false; verification_required := false;
  has_hooks := false; has_checkpoint_manager := false; has_state_store := false; has_replay_recorder := false;
  drain_bound := 0 |}.

Definition quiet_control : Control := {| cancel_event := false; pause_event := true; inbox := [] |}.

Definition desk (script : list LLMResponse) (m : AgentMode) : Desk := MkDesk script quiet_control [] [] m 0 [].

(** A new agent in front of a desk. *)
Definition fresh_agent (d : Desk) : St unit Desk := {|
  conv := {| messages := []; system_prompt := None; max_messages := None; metadata := [] |};
  manager := tt;
  routing := MkRouting FLASH false 5 None false;
  answering := MkAnswering None None false None;
  runst := MkRun None false None [] None;
  guards := MkGuards {| input_tokens := 0; output_tokens := 0; cost_usd := zero; calls := 0 |} None None [] [] 0;
  audit := []; world := d; trace := [] |}.

Definition says (text : pystr) : LLMResponse := {|
  r_content := text; tool_calls := []; stop_reason := None; usage := []; reasoning_text := None |}.

Definition asks (calls : list ToolCall) : LLMResponse := {|
  r_content := []; tool_calls := calls; stop_reason := None; usage := []; reasoning_text := None |}.

Definition echo_call (id text : pystr) : ToolCall := {|
  tc_id := id; tc_name := u "echo"; tc_arguments := [(u "text", JStr text)] |}.

#[local] Instance desk_policy : PermissionPolicy := PermissivePolicy.

Abbreviation start cfg s := (run (noop_manager Desk) cfg (Some (u "task")) false None None None s).

(** ** One round of two calls, then the answer *)

Definition two_calls : list LLMResponse :=
  [asks [echo_call (u "a") (u "x"); echo_call (u "b") (u "y")]; says (u "done")].

Example two_calls_run :
  let '(o, s') := start desk_config (fresh_agent (desk two_calls FLASH)) in
  o = Ret (u "done") /\ length (messages (conv s')) = 5%nat /\ d_script (world s') = [] /\
  map e_type (d_events (world s')) = map u
    ["agent.classified"; "agent.run_started"; "agent.turn_started"; "agent.llm_response";
     "agent.tool_call_started"; "agent.tool_call_finished"; "agent.tool_call_started"; "agent.tool_call_finished";
     "agent.turn_started"; "agent.llm_response"; "agent.run_finished"]%string.
Proof. vm_compute. repeat split. Qed.

(** The conversation of a new agent. *)
Lemma fresh_agent_waits d : waits (conv (fresh_agent d)) [].
Proof. split; [done|]. split; [done|]. split; [constructor|apply not_elem_of_nil]. Qed.

Lemma fresh_agent_authorized d : authorized (trace (fresh_agent d)).
Proof. intros before n args later Heq. by destruct before. Qed.

Lemma desk_tools_wf : tools_wf desk_config.
Proof. intros n t. simpl. destruct (decide _); [by intros [= <-]|done]. Qed.

Definition two_calls_agent : St unit Desk := fresh_agent (desk two_calls FLASH).

Lemma run_keeps_history_replayable_witness :
  (start desk_config two_calls_agent).1 = Ret (u "done") /\
  settled (start desk_config two_calls_agent).1 (start desk_config two_calls_agent).2.
Proof.
  split; [vm_compute; reflexivity|].
  exact (run_keeps_history_replayable (noop_manager Desk) desk_config two_calls_agent
    (Some (u "task")) false None None None desk_fresh_call_ids (fresh_agent_waits _)).
Defined.

Lemma every_execution_authorized_witness :
  length (trace (start desk_config two_calls_agent).2) = 6%nat /\
  authorized (trace (start desk_config two_calls_agent).2).
Proof.
  split; [vm_compute; reflexivity|].
  exact (proj1 (every_execution_authorized (noop_manager Desk) desk_config two_calls_agent
    (Some (u "task")) false None None None true desk_tools_wf (fresh_agent_authorized _))).
Defined.

(** Nine slow calls through the pool: eight run, the ninth is refused. *)
Definition nine_calls : list ToolCall :=
  map (fun i => echo_call i (u "x")) (map u ["a"; "b"; "c"; "d"; "e"; "f"; "g"; "h"; "i"]%string).

Definition pool_config : Config := {|
  tools := tools desk_config; model_context_limit := 1000; tool_timeout := None; validate_tool_inputs := false;
  parallel_tool_execution := true; has_memory := false; memory_recall_limit := 5; has_planner := false;
  has_verifier := false; max_verification_retries := 0; max_transient_retries := 0;
  transient_retry_backoff_seconds := zero; has_injection_guard := false; verification_required := false;
  has_hooks := false; has_checkpoint_manager := false; has_state_store := false; has_replay_recorder := false;
  drain_bound := 0 |}.

Definition nine_calls_agent : St unit Desk := fresh_agent (desk [asks nine_calls; says (u "done")] FLASH).


(** A conversation that has run at MAX, and a classifier that says FLASH. *)
Definition sticky_agent : St unit Desk :=
  set_routing (MkRouting MAX true 50 None true) (fresh_agent (desk [says (u "done")] FLASH)).

Lemma max_mode_is_sticky_witness :
  mode (routing (start desk_config sticky_agent).2) = MAX.
Proof.
  pose proof (max_mode_is_sticky (noop_manager Desk) desk_config sticky_agent (start desk_config sticky_agent).2
    (Some (u "task")) false None None None (start desk_config sticky_agent).1 (surjective_pairing _) eq_refl) as [_ Hm].
  exact (Hm (u "done") ltac:(vm_compute; reflexivity) eq_refl).
Defined.

(** ** A human confirmation *)

Module Confirming.
#[local] Instance asking_policy : PermissionPolicy := {|
  check := fun _ _ => Ok {| allowed := true; reason := u "risky"; requires_confirmation := true |} |}.

Definition validating_config (checkpoints : bool) : Config := {|
  tools := tools desk_config; model_context_limit := 1000; tool_timeout := None; validate_tool_inputs := true;
  parallel_tool_execution := false; has_memory := false; memory_recall_limit := 5; has_planner := false;
  has_verifier := false; max_verification_retries := 0; max_transient_retries := 0;
  transient_retry_backoff_seconds := zero; has_injection_guard := false; verification_required := false;
  has_hooks := false; has_checkpoint_manager := checkpoints; has_state_store := false; has_replay_recorder := false;
  drain_bound := 0 |}.

Definition paused_agent : St unit Desk := (start (validating_config true) two_calls_agent).2.

Definition paused_call : Pending := {|
  pc_call := echo_call (u "a") (u "x"); pc_arguments := [(u "text", JStr (u "x"))];
  pc_decision := {| allowed := true; reason := u "risky"; requires_confirmation := true |} |}.

Example run_pauses :
  (start (validating_config true) two_calls_agent).1 = Raise (EPending paused_call (u "checkpoint")).
Proof. vm_compute. reflexivity. Qed.

(** Approving runs the first call; the second one is pending then. *)
Lemma verdict_completes_history_witness :
  settled (_resolve_pending_confirmation (validating_config true) true paused_agent).1
          (_resolve_pending_confirmation (validating_config true) true paused_agent).2.
Proof.
  apply (verdict_completes_history (validating_config true) paused_agent true paused_call
    [echo_call (u "a") (u "x"); echo_call (u "b") (u "y")]).
  - split; [vm_compute; reflexivity|]. split; [vm_compute; reflexivity|]. by eexists.
  - split; [vm_compute; reflexivity|]. split; [vm_compute; reflexivity|].
    split; apply (bool_decide_unpack _); vm_compute; exact I.
Defined.
End Confirming.

(** ** Behaviours recorded as findings *)

(** A policy rule over URLs and a malformed URL. *)
Module Stranding.
#[local] Instance url_policy : PermissionPolicy := RuleBasedPolicy
  [{| r_tool_name := None; path_prefix := None; domain_pattern := Some (u "example"); command_pattern := None;
      r_decision := no_rule_matched |}] None.

Definition url_call : ToolCall := {| tc_id := u "a"; tc_name := u "echo"; tc_arguments := [(u "url", JStr (u "http://[x"))] |}.

(** an exception out of the permission policy (here a malformed URL in a
    call's arguments) ends the run and leaves the call without a result: the
    history cannot be sent to a provider again, and a later run adds its user
    turn to it all the same. *)
Theorem policy_exception_strands_calls :
  let '(o, s') := start desk_config (fresh_agent (desk [asks [url_call]; says (u "done")] FLASH)) in
  o = Raise (EPy (value_error (u "Invalid IPv6 URL"))) /\
  replay_scan [] (messages (conv s')) = Some [u "a"] /\
  let '(o2, s2) := start desk_config s' in
  o2 = Ret (u "done") /\ replay_scan [] (messages (conv s2)) = None.
Proof. vm_compute. repeat split. Qed.
End Stranding.

Definition bad_call : ToolCall := {| tc_id := u "a"; tc_name := u "echo"; tc_arguments := [] |}.

Definition bad_call_agent : St unit Desk := fresh_agent (desk [asks [bad_call]; says (u "done")] FLASH).

(** The executions in a trace. *)
Definition executions (tr : list action) : list (pystr * jdict) :=
  omap (fun a => match a with AExec n args => Some (n, args) | _ => None end) tr.

(** input validation is skipped on the confirmation path. Input the tool's
    schema rejects never reaches a tool that needs no confirmation, but when the
    same call waited for a human, approving it executes the tool with that
    input. *)
Theorem approval_skips_validation :
  (exists problem, validate_tool_input (t_parameters echo) (JObj (tc_arguments bad_call)) = Ok [problem]) /\
  executions (trace (start (Confirming.validating_config false) bad_call_agent).2) = [] /\
  let waiting := run (H3 := Confirming.asking_policy) (noop_manager Desk) (Confirming.validating_config true)
    (Some (u "task")) false None None None bad_call_agent in
  executions (trace waiting.2) = [] /\
  let approved := _resolve_pending_confirmation (Confirming.validating_config true) true waiting.2 in
  approved.1 = Ret tt /\ executions (trace approved.2) = [(u "echo", [])].
Proof. split; [eexists; vm_compute; reflexivity|]. vm_compute. repeat split. Qed.

(** The result contents a batch adds. *)
Definition result_texts (ms : list message) : list pystr :=
  omap (fun m => match blocks m with
                 | [JObj d] => match dict_get (u "content") d with Some (JStr t) => Some t | _ => None end
                 | _ => None
                 end) ms.

(** the parallel path loses calls the sequential path runs: without a
    timeout, the same nine calls all succeed in sequence, while in parallel the
    ninth is refused because eight are in flight. *)
Theorem parallel_batch_refuses_ninth_call :
  let texts cfg := result_texts (messages (conv (_execute_tool_calls cfg nine_calls nine_calls_agent).2)) in
  texts desk_config = repeat (u "ok") 9 /\
  texts pool_config = repeat (u "ok") 8 ++
    [json_dumps dumps_default (JObj [(u "error", JStr (u "tool execution capacity exhausted"))])].
Proof. vm_compute. split; reflexivity. Qed.

Definition any_object : json := JObj [(u "type", JStr (u "object"))].

(** [structured_output] survives a later failure. An answer that parses but
    proves nothing sets it; when the correction is not JSON at all and no retry is
    left, the run returns that text with the value of the rejected answer still in
    [structured_output]. *)
Theorem rejected_structured_output_survives :
  let '(o, s') := run (noop_manager Desk) desk_config (Some (u "task")) false (Some any_object) (Some 1%Z) (Some true)
    (fresh_agent (desk [says (u "{}"); says (u "oops")] FLASH)) in
  o = Ret (u "oops") /\ structured_output (answering s') = Some (JObj []) /\
  check_final_answer any_object (u "oops") <> Ok (AnswerOk (JObj [])).
Proof. vm_compute. repeat split. discriminate. Qed.

(** structured-output retries bypass escalation: five unparsable answers end a
    FLASH run at the FLASH cap without escalating to MAX, although it spent more
    than three iterations without an answer. *)
Theorem structured_retries_never_escalate :
  let '(o, s') := run (noop_manager Desk) desk_config (Some (u "task")) false (Some any_object) (Some 9%Z) None
    (fresh_agent (desk (repeat (says (u "oops")) 9) FLASH)) in
  o = Ret (u "oops") /\ mode (routing s') = FLASH /\ length (d_script (world s')) = 4%nat.
Proof. vm_compute. repeat split. Qed.
