(* ===== verification/AsyncTools.v ===== *)
(** * The asynchronous agent: one tool call (kinetic_sdk/agent/async_agent.py, first part)

    [AsyncAgent] is a second implementation of the agent, over the same attributes
    ([St]), configuration and environment. What it adds is [AsyncEnv]: at every
    [await] that suspends, the event loop may deliver the cancellation of the task
    ([CancelledError], which no [except Exception] of the agent catches), a timeout
    is [asyncio.wait_for], and a batch runs under [asyncio.gather]. *)

From stdpp Require Import base gmap strings list.
From Stdlib Require Import ZArith Lia SpecFloat.
From S2P Require Import Prelude Json Types Validation TextCompact Conversation EventBus Redact Hooks.
From S2P Require Import Compaction Policy Budgets Structured AgentState AgentTools.

(** [task_cancelled]: what other tasks did while this one was suspended, and
    whether its cancellation is delivered. [wait_for] runs one execution under a
    timeout; [gather] runs those of a batch, each under its own, and tells how
    each one ended. *)
Class AsyncEnv (W : Type) := {
  task_cancelled : W -> bool * W;
  wait_for : Tool -> jdict -> pyfloat -> W -> job_outcome * W;
  gather : list (Tool * jdict * option pyfloat) -> W -> (nat -> job_outcome) * W;
}.

Definition cancelled_error : aexn := EPy (PyExn (u "CancelledError") []).

Definition is_cancelled_error (e : aexn) : bool :=
  match e with EPy e => bool_decide (exn_type e = u "CancelledError") | _ => false end.

Section AsyncAgent.
Context `{PyRuntime} `{SecretPatterns} {M W : Type} `{EventSink W} `{AgentEnv W} `{AsyncEnv W} `{PermissionPolicy}.
Variable cfg : Config.

Abbreviation AM := (A M W).

Definition await {T} (m : AM T) : AM T :=
  cancelled ← env task_cancelled;
  if cancelled : bool then throw cancelled_error else m.

(** ** Methods both classes define with the same body *)

Definition async_preview := _preview.
Definition async_format_tool_output `{PyRuntime} := _format_tool_output.
Definition async_tool_output_for_state := _tool_output_for_state cfg.
Definition async_tool_timeout := _tool_timeout cfg.
Definition async_max_transient_retries := _max_transient_retries cfg.
Definition async_circuit_is_open : Tool -> AM bool := _circuit_is_open.
Definition async_record_circuit_result : pystr -> Tool -> ToolResult -> AM unit := _record_circuit_result.
Definition async_needs_idempotency_key := _needs_idempotency_key.
Definition async_idempotency_key `{PyRuntime} := _idempotency_key.
Definition async_checkpoint_runtime_state := _checkpoint_runtime_state.

(** ** Events and hooks *)

Definition async_emit (event_type : pystr) (payload : jdict) : AM unit :=
  id ← gets (fun s => _run_id (runst s));
  let payload := match id with Some i => dict_set (u "run_id") (JStr i) payload | None => payload end in
  await (env_ (publish_to {| e_type := event_type; e_payload := payload; e_source := Some (u "agent") |})).

Definition async_trigger_hooks (p : HookPoint) (ctx : HookContext) : AM (list HookResult) :=
  if has_hooks cfg then await (env (run_hook p ctx)) else mret [].

(** Unlike the synchronous agent's, the event carries no duration and no artifacts. *)
Definition async_emit_tool_call_finished (call : ToolCall) (r : ToolResult) : AM unit :=
  async_emit (u "agent.tool_call_finished")
    [(u "name", JStr (tc_name call)); (u "id", JStr (tc_id call)); (u "is_error", JBool (is_error r));
     (u "output_preview", JStr (redact_secrets (async_preview (py_str (output r)))))];;
  det ← gets (fun s => stuck_detector (guards s));
  match det with
  | None => mret tt
  | Some d =>
    let '(d', stuck) := stuck_check d (tc_name call) (JObj (tc_arguments call)) r in
    upd_guards (set_stuck (Some d'));;
    when stuck (
      async_emit (u "agent.stuck_detected") [(u "tool_name", JStr (tc_name call)); (u "window", window d')];;
      upd_run (set_stop_reason (Some (u "unproductive_loop"))))
  end.

Definition async_deny_call (call : ToolCall) (why : pystr) (tool_input : jdict) : AM ToolResult :=
  record_audit (fun id now => log_permission_denied id now (tc_name call) tool_input why);;
  async_emit (u "security.permission_denied")
    [(u "name", JStr (tc_name call)); (u "id", JStr (tc_id call)); (u "reason", JStr why);
     (u "input_preview", JStr (redact_secrets (async_preview (py_str (JObj tool_input)))))];;
  mret (error_result (u "Permission denied for tool " ++ repr (tc_name call) ++ u ": " ++ why)).

(** ** Execution *)

Definition async_invoke_tool (t : Tool) (arguments : jdict) : AM ToolResult :=
  started ← env perf_counter;
  id ← gets (fun s => _run_id (runst s));
  log (AExec (t_name t) arguments);;
  o ← await (env (execute t (tool_kwargs id t arguments)));
  finished ← env perf_counter;
  returned (normalise o (fl_sub finished started)).

(** The error of an execution that [asyncio.wait_for] gave up on. *)
Definition async_timed_out (t : Tool) (timeout : pyfloat) : ToolResult :=
  error_result (u "Tool " ++ repr (t_name t) ++ u " timed out after " ++ float_repr timeout ++
    u "s (the call may still be running in the background)").

(** What [_run_tool] returns for an execution under a timeout that ended so. *)
Definition landed_result (t : Tool) (timeout : option pyfloat) (o : job_outcome) : option ToolResult :=
  match o, timeout with
  | JobDone raw elapsed, _ => normalise raw elapsed
  | JobTimedOut, Some timeout => Some (async_timed_out t timeout)
  | _, _ => None
  end.

Definition async_run_tool (t : Tool) (arguments : jdict) : AM ToolResult :=
  match async_tool_timeout t with
  | None => async_invoke_tool t arguments
  | Some timeout =>
    id ← gets (fun s => _run_id (runst s));
    log (AExec (t_name t) arguments);;
    o ← await (env (wait_for t (tool_kwargs id t arguments) timeout));
    returned (landed_result t (Some timeout) o)
  end.

Fixpoint async_retry_loop (left : nat) (retries : Z) (call : ToolCall) (t : Tool) (arguments : jdict)
    (r : ToolResult) : AM ToolResult :=
  if retryable r then
    match left with
    | O => mret r
    | S left' =>
      cancelled ← is_cancelled;
      if cancelled : bool then mret r
      else
        let attempt := (retries + 1)%Z in
        let delay := fl_mul (transient_retry_backoff_seconds cfg) (fl_of_Z (2 ^ retries)) in
        async_emit (u "agent.tool_retry")
          [(u "name", JStr (tc_name call)); (u "id", JStr (tc_id call)); (u "attempt", JInt attempt);
           (u "delay_seconds", JFloat delay)];;
        when (truthy (JFloat delay)) (await (env_ (sleep delay)));;
        r' ← async_run_tool t arguments;
        async_retry_loop left' attempt call t arguments r'
    end
  else mret r.

Definition async_retry_transient_tool (call : ToolCall) (t : Tool) (arguments : jdict) (r : ToolResult) : AM ToolResult :=
  async_retry_loop (Z.to_nat (async_max_transient_retries t)) 0 call t arguments r.

Definition async_finalize_call (call : ToolCall) (t : Tool) (arguments : jdict) (r : ToolResult) : AM unit :=
  audit_result (tc_name call) r;;
  async_record_circuit_result (tc_name call) t r;;
  ctx ← context_of AFTER_TOOL_CALL;
  async_trigger_hooks AFTER_TOOL_CALL (with_result (with_tool ctx (tc_name call) arguments) r);;
  mret tt.

(** ** Gating *)

Definition async_confirmation_status (call : ToolCall) (arguments : jdict) (d : PermissionDecision) : AM confirmation :=
  if negb (has_hooks cfg) then mret NoHook
  else
    n ← gets (fun s => hooks_at ON_PERMISSION_CHECK (world s));
    if (n =? 0)%nat then mret NoHook
    else
      ctx ← context_of ON_PERMISSION_CHECK;
      results ← async_trigger_hooks ON_PERMISSION_CHECK (with_decision (with_tool ctx (tc_name call) arguments) d);
      mret (if existsb should_continue results then Approved
            else if existsb (fun r => negb (should_continue r)) results then Denied
            else NoHook).

(** [await asyncio.to_thread(self.checkpoint_manager.save, self)]. *)
Definition async_save_checkpoint : AM pystr :=
  s ← gets id;
  r ← await (env (checkpoint_save (conv s) (_run_id (runst s)) (async_checkpoint_runtime_state (routing s) (runst s))));
  lift r.

Definition async_save_pending_confirmation_checkpoint : AM unit :=
  when (has_checkpoint_manager cfg) (async_save_checkpoint;; mret tt).

Definition async_before_hooks (call : ToolCall) : AM (option jdict) :=
  if has_hooks cfg then
    ctx ← context_of BEFORE_TOOL_CALL;
    results ← async_trigger_hooks BEFORE_TOOL_CALL (with_tool ctx (tc_name call) (tc_arguments call));
    mret (if existsb (fun r => negb (should_continue r)) results then None
          else Some (replaced_input (tc_arguments call) results))
  else mret (Some (tc_arguments call)).

(** The checks after the policy: unknown tool, open circuit, invalid input. *)
Definition async_admit (call : ToolCall) (arguments : jdict) : AM prepared :=
  match dict_get (tc_name call) (tools cfg) with
  | None => mret (Early arguments (error_result (u "Unknown tool: " ++ tc_name call)))
  | Some t =>
    opened ← async_circuit_is_open t;
    if opened : bool then
      mret (Early arguments (set_category
        (error_result (u "Circuit breaker open for tool " ++ repr (tc_name call))) PERMANENT))
    else if validate_tool_inputs cfg then
      problems ← lift (validate_tool_input (t_parameters t) (JObj arguments));
      match problems with
      | [] => mret (Ready t arguments)
      | _ =>
        let r := error_result (u "invalid tool input: " ++ join (u "; ") problems) in
        audit_result (tc_name call) r;;
        mret (Early arguments r)
      end
    else mret (Ready t arguments)
  end.

Definition async_prepare_call (call : ToolCall) : AM prepared :=
  input ← async_before_hooks call;
  match input with
  | None => mret (Early (tc_arguments call)
      (error_result (u "Tool call " ++ repr (tc_name call) ++ u " cancelled by a before_tool_call hook")))
  | Some arguments =>
    d ← lift (check (tc_name call) arguments);
    audit_call (tc_name call) arguments d;;
    if negb (allowed d)
    then r ← async_deny_call call (reason d) arguments; mret (Early arguments r)
    else
      c ← async_confirmation_status call arguments d;
      log (ADecide (tc_name call) arguments d c);;
      if requires_confirmation d && bool_decide (c = NoHook) && has_checkpoint_manager cfg
      then
        let p := {| pc_call := call; pc_arguments := arguments; pc_decision := d |} in
        upd_run (set_pending (Some p));;
        id ← async_save_checkpoint;
        throw (EPending p id)
      else if requires_confirmation d && negb (bool_decide (c = Approved))
      then
        r ← async_deny_call call
          (u "requires manual confirmation, not yet supported in automated mode (" ++ reason d ++ u ")") arguments;
        mret (Early arguments r)
      else async_admit call arguments
  end.

Definition async_execute_one (call : ToolCall) : AM ToolResult :=
  p ← async_prepare_call call;
  match p with
  | Early _ r => mret r
  | Ready t arguments =>
    r ← async_run_tool t arguments;
    r ← async_retry_transient_tool call t arguments r;
    async_finalize_call call t arguments r;;
    mret r
  end.

(** ** Batches *)

Definition async_pending_handler (rest : list ToolCall) (before : AM unit) {T} (e : aexn) : AM T :=
  match e with
  | EPending _ _ =>
    before;;
    upd_run (set_remaining_calls rest);;
    async_save_pending_confirmation_checkpoint;;
    throw e
  | _ => throw e
  end.

Fixpoint async_execute_sequentially (calls : list ToolCall) (any_error : bool) : AM bool :=
  match calls with
  | [] => mret any_error
  | call :: calls' =>
    cancelled ← is_cancelled;
    if cancelled : bool then
      add_result cfg call skipped;;
      async_execute_sequentially calls' true
    else
      async_emit (u "agent.tool_call_started") [(u "name", JStr (tc_name call)); (u "id", JStr (tc_id call))];;
      r ← catch (async_execute_one call) (async_pending_handler calls' (mret tt));
      async_emit_tool_call_finished call r;;
      add_result cfg call r;;
      async_execute_sequentially calls' (any_error || is_error r)
  end.

(** The executions [asyncio.gather] runs: the pending slots. *)
Definition launches (slots : list slot) : list (Tool * jdict) :=
  omap (fun sl => match sl with SlotPending t arguments => Some (t, arguments) | _ => None end) slots.

(** The slots with their results; the [i]-th pending one takes the [i]-th outcome. *)
Fixpoint land (i : nat) (slots : list slot) (ended : nat -> job_outcome) : option (list landed) :=
  match slots with
  | [] => Some []
  | SlotSkipped :: rest => cons (LandedEarly true skipped) <$> land i rest ended
  | SlotEarly r :: rest => cons (LandedEarly false r) <$> land i rest ended
  | SlotPending t arguments :: rest =>
    r ← landed_result t (async_tool_timeout t) (ended i);
    cons (LandedRun t arguments r) <$> land (S i) rest ended
  end.

Fixpoint log_all (l : list (Tool * jdict)) : AM unit :=
  match l with [] => mret tt | (t, arguments) :: l' => log (AExec (t_name t) arguments);; log_all l' end.

(** [asyncio.gather] over the pending slots; it returns when all have. *)
Definition gather_slots (slots : list slot) : AM (list landed) :=
  match launches slots with
  | [] => match land 0 slots (fun _ => JobNever) with Some ls => mret ls | None => block end
  | jobs =>
    id ← gets (fun s => _run_id (runst s));
    log_all jobs;;
    ended ← await (env (gather (map (fun j => (j.1, tool_kwargs id j.1 j.2, async_tool_timeout j.1)) jobs)));
    match land 0 slots ended with Some ls => mret ls | None => block end
  end.

Definition async_record_landed (cl : ToolCall * landed) : AM bool :=
  let '(call, l) := cl in
  match l with
  | LandedEarly sk r =>
    when (negb sk) (async_emit_tool_call_finished call r);;
    add_result cfg call r;;
    mret (is_error r)
  | LandedRun t arguments r =>
    r ← async_retry_transient_tool call t arguments r;
    async_finalize_call call t arguments r;;
    async_emit_tool_call_finished call r;;
    add_result cfg call r;;
    mret (is_error r)
  end.

Definition async_dispatch_and_record (calls : list ToolCall) (slots : list slot) : AM bool :=
  results ← gather_slots slots;
  errs ← traverse async_record_landed (zip calls results);
  mret (existsb id errs).

(** The gating loop; [done] and [slots] are the calls already gated. *)
Fixpoint async_gate_batch (done : list ToolCall) (slots : list slot) (calls : list ToolCall) : AM (list slot) :=
  match calls with
  | [] => mret slots
  | call :: calls' =>
    cancelled ← is_cancelled;
    if cancelled : bool then async_gate_batch (done ++ [call]) (slots ++ [SlotSkipped]) calls'
    else
      async_emit (u "agent.tool_call_started") [(u "name", JStr (tc_name call)); (u "id", JStr (tc_id call))];;
      p ← catch (async_prepare_call call)
        (async_pending_handler calls (async_dispatch_and_record done slots;; mret tt));
      async_gate_batch (done ++ [call])
        (slots ++ [match p with Early _ r => SlotEarly r | Ready t arguments => SlotPending t arguments end]) calls'
  end.

Definition async_execute_tool_calls_parallel (calls : list ToolCall) : AM bool :=
  slots ← async_gate_batch [] [] calls;
  async_dispatch_and_record calls slots.

Definition async_execute_tool_calls (calls : list ToolCall) : AM bool :=
  if parallel_tool_execution cfg && (1 <? zlen calls)%Z
  then async_execute_tool_calls_parallel calls
  else async_execute_sequentially calls false.

(** ** Human verdicts *)

Definition async_persist_state : AM unit :=
  when (has_state_store cfg) (
    s ← gets id; r ← await (env (store_save (conv s)));
    match r with
    | Ok _ => mret tt
    | Err e => async_emit (u "agent.state_persist_failed") [(u "error", JStr (redact_secrets (describe e)))]
    end);;
  when (has_replay_recorder cfg) (
    s ← gets id; r ← await (env (recorder_snapshot (conv s) (_run_id (runst s))));
    match r with
    | Ok _ => mret tt
    | Err e => async_emit (u "agent.replay_persist_failed") [(u "error", JStr (redact_secrets (describe e)))]
    end).

Definition async_resolve_pending_confirmation (approved : bool) : AM unit :=
  p ← gets (fun s => _pending_confirmation (runst s));
  match p with
  | None => throw (EPy (value_error (u "Checkpoint has no pending confirmation")))
  | Some p =>
    let call := pc_call p in
    let arguments := pc_arguments p in
    upd_run (set_pending None);;
    r ← (if approved then
           match dict_get (tc_name call) (tools cfg) with
           | Some t =>
             log (AHuman (tc_name call) arguments);;
             r ← async_run_tool t arguments;
             r ← async_retry_transient_tool call t arguments r;
             async_finalize_call call t arguments r;;
             mret r
           | None => mret (error_result (u "Unknown tool: " ++ tc_name call))
           end
         else async_deny_call call (u "confirmation declined by user") arguments);
    async_emit_tool_call_finished call r;;
    add_result cfg call r;;
    remaining ← gets (fun s => _pending_remaining_calls (runst s));
    upd_run (set_remaining_calls []);;
    let remaining :=
      match remaining with
      | c :: rest => if bool_decide (tc_id c = tc_id call) then rest else remaining
      | [] => []
      end in
    when (negb (bool_decide (remaining = []))) (async_execute_tool_calls remaining;; mret tt);;
    async_persist_state
  end.
End AsyncAgent.
