(* ===== verification/AsyncLoop.v ===== *)
(** * The asynchronous agent: the run loop (kinetic_sdk/agent/async_agent.py, second part) *)

From stdpp Require Import base gmap strings list.
From Stdlib Require Import ZArith Lia SpecFloat.
From S2P Require Import Prelude Json Types Validation TextCompact Summary Conversation EventBus Redact Hooks.
From S2P Require Import Compaction Policy Budgets Structured AgentState AgentTools AgentLoop AsyncTools.

Section AsyncAgent.
Context `{PyRuntime} `{SecretPatterns} {M W : Type} (cm : ContextManager M W)
  `{EventSink W} `{AgentEnv W} `{AsyncEnv W} `{PermissionPolicy}.
Variable cfg : Config.

Abbreviation AM := (A M W).

(** ** Methods both classes define with the same body *)

Definition async_tool_schemas := tool_schemas cfg.
Definition async_apply_mode : AgentMode -> AM unit := _apply_mode.
Definition async_first_user_message := _first_user_message.
Definition async_assistant_content := _assistant_content.
Definition async_system_prompt_append := _system_prompt_append.
Definition async_cancel : AM unit := cancel.
Definition async_pause : AM unit := pause.
Definition async_resume : AM unit := resume.
Definition async_send_message_while_running : pystr -> AM unit := send_message_while_running.

(** ** Routing *)

(** The event is left to the caller. *)
Definition async_escalate : AM bool :=
  r ← gets routing;
  match escalates_to (mode r) with
  | None => mret false
  | Some target =>
    upd_routing (set_mode target);;
    upd_routing (set_reasoning (bool_decide (target = MAX)));;
    when (bool_decide (target = MAX)) (upd_routing (set_sticky true));;
    when (bool_decide (_max_iterations_override r = None))
      (upd_routing (set_max_iterations (mode_max_iterations target)));;
    mret true
  end.

Definition async_classify_and_route (user_message : option pystr) : AM unit :=
  first ← gets (fun s => async_first_user_message (conv s));
  let task := match user_message with Some t => t | None => default [] (nonempty first) end in
  c ← await (env (classify task));
  match c with
  | Err _ => async_apply_mode MAX
  | Ok c =>
    sticky ← gets (fun s => _sticky_max (routing s));
    let downgrade := bool_decide (c_mode c = FLASH) && sticky in
    let applied := if downgrade then MAX else c_mode c in
    let why :=
      if downgrade
      then match c_rationale c with [] => [] | r => r ++ u " " end ++ u "[max sticky: downgrade prevented]"
      else c_rationale c in
    when (negb downgrade && bool_decide (c_mode c = MAX)) (upd_routing (set_sticky true));;
    async_apply_mode applied;;
    async_emit (u "agent.classified")
      [(u "complexity", JStr (c_complexity c)); (u "mode", JStr (mode_value (c_mode c)));
       (u "applied_mode", JStr (mode_value applied)); (u "confidence", JFloat (c_confidence c));
       (u "rationale", JStr why)]
  end.

Definition async_maybe_escalate (iteration : Z) (triggered_by_error already_escalated : bool) : AM bool :=
  m ← gets (fun s => mode (routing s));
  if already_escalated || negb (bool_decide (m = FLASH)) then mret already_escalated
  else if ((iteration =? 0)%Z && triggered_by_error) || (FLASH_ESCALATION_THRESHOLD <=? iteration + 1)%Z
  then
    previous ← gets (fun s => mode (routing s));
    escalated ← async_escalate;
    if escalated : bool then
      now ← gets (fun s => mode (routing s));
      async_emit (u "agent.escalated")
        [(u "from", JStr (mode_value previous)); (u "to", JStr (mode_value now))];;
      mret true
    else mret false
  else mret false.

(** ** Other tasks *)

(** [await self._pause_event.wait()], which does not suspend when the event is set. *)
Definition async_pause_wait : AM unit :=
  env_ interfere;;
  w ← gets world;
  if pause_event (control w) then mret tt
  else await (match wait_resumed w with
              | Some w' => modify (set_world w')
              | None => block
              end).

Fixpoint async_drain_loop (bound : nat) : AM unit :=
  env_ interfere;;
  c ← gets (fun s => control (world s));
  match inbox c, bound with
  | [], _ => mret tt
  | _ :: _, O => block
  | m :: rest, S bound' =>
    env_ (set_control {| cancel_event := cancel_event c; pause_event := pause_event c; inbox := rest |});;
    add_user m;;
    async_emit (u "agent.message_injected") [(u "message", JStr m)];;
    async_drain_loop bound'
  end.

Definition async_drain_inbox : AM unit := async_drain_loop (drain_bound cfg).

(** ** Context, model calls, budgets *)

Definition async_maybe_compact_context : AM unit :=
  s ← gets id;
  r ← await (lift (cm_should_compact cm (manager s) (conv s) (model_context_limit cfg)));
  modify (set_manager r.2);;
  when r.1 (
    let before := length_ (conv s) in
    m ← gets manager;
    st ← await (env (cm_compact cm m (conv s)));
    modify (set_conv st);;
    async_emit (u "context.compacted")
      [(u "manager", JStr (cm_type_name cm)); (u "messages_before", JInt before);
       (u "messages_after", JInt (length_ st)); (u "messages_removed", JInt (before - length_ st));
       (u "estimated_tokens_after", JInt (cm_estimate_state_tokens cm m st))]).

Definition async_record_usage (r : LLMResponse) : AM unit :=
  upd_guards (fun g => set_budget (option_map (fun b => budget_record b (usage r)) (run_budget g)) g);;
  match usage r with
  | [] => mret tt
  | us =>
    g ← gets guards;
    let '(t, res) := usage_record (usage_totals g) us in
    upd_guards (set_usage t);;
    lift res;;
    async_emit (u "llm.usage") [(u "usage", JObj us)]
  end.

(** [response = await self.llm.chat(...)] and its accounting. *)
Definition async_chat_once (req : LLMRequest) : AM LLMResponse :=
  r ← await (env (llm_chat req)); r ← lift r; async_record_usage r;; mret r.

Fixpoint async_consume (events : list StreamEvent) (final : option LLMResponse) : AM (option LLMResponse) :=
  match events with
  | [] => mret final
  | SE_text d :: es => async_emit (u "agent.text_delta") [(u "delta", JStr d)];; async_consume es final
  | SE_done r :: es => async_consume es (Some r)
  | SE_tool_call _ :: es => async_consume es final
  end.

Definition async_call_llm (stream : bool) (system_append : option pystr) : AM LLMResponse :=
  st ← gets conv;
  let req := request cfg st system_append in
  log ALlm;;
  if negb stream then async_chat_once req
  else
    es ← await (env (llm_stream req));
    final ← async_consume es.1 None;
    match es.2 with
    | StreamUnsupported => async_chat_once req
    | StreamRaised e => throw (EPy e)
    | StreamExhausted => let r := default empty_turn final in async_record_usage r;; mret r
    end.

(** The budget check of the loop. *)
Definition async_budget_stop_message : AM (option pystr) :=
  b ← gets (fun s => run_budget (guards s));
  match b with
  | None => mret None
  | Some b =>
    match budget_check b with
    | Ok _ => mret None
    | Err e =>
      async_emit (u "agent.budget_exceeded") (budget_details b);;
      mret (Some (u "Run stopped: budget exceeded (" ++ exn_msg e ++ u ")."))
    end
  end.

(** ** Final answers *)

(** [true] is "retry", [false] is "break". There is no verification evidence here. *)
Definition async_check_structured (schema : json) (text : pystr) (retries_left : Z) : AM bool :=
  v ← lift (check_final_answer schema text);
  match v with
  | AnswerOk value =>
    upd_answering (set_structured_output (Some value));;
    async_emit (u "agent.structured_output_parsed") [(u "schema", schema)];;
    mret false
  | AnswerBad problems =>
    if (0 <? retries_left)%Z then
      add_user (correction_message (join (u "; ") problems));;
      async_emit (u "agent.structured_output_retry") [(u "problems", strs problems)];;
      mret true
    else
      async_emit (u "agent.structured_output_invalid") [(u "problems", strs problems)];;
      mret false
  end.

Definition async_raise_answer_not_verified {T} (answer feedback : pystr) : AM T :=
  async_emit (u "agent.verification_exhausted") [(u "feedback", JStr (redact_secrets feedback))];;
  throw (ENotVerified answer feedback).

Definition async_create_plan (user_message : option pystr) : AM (option Plan) :=
  if negb (has_planner cfg) then mret None
  else
    st ← gets conv;
    let task := match nonempty user_message with Some t => t | None => current_task st end in
    r ← await (env (create_plan task async_tool_schemas));
    match r with
    | Err e => async_emit (u "agent.plan_failed") [(u "error", JStr (redact_secrets (describe e)))];; mret None
    | Ok None =>
      async_emit (u "agent.plan_failed") [(u "error", JStr (u "planner returned a non-Plan value"))];; mret None
    | Ok (Some p) =>
      async_emit (u "agent.plan_created") [(u "goal", JStr (p_goal p)); (u "steps", strs (p_steps p))];;
      mret (Some p)
    end.

Definition async_verify_final_answer (answer : pystr) : AM (bool * pystr) :=
  s ← gets id;
  r ← await (env (verify (current_task (conv s)) answer (plan (answering s))));
  match r with
  | Err e =>
    async_emit (u "agent.verification_failed")
      [(u "reason", JStr (u "exception")); (u "error", JStr (redact_secrets (describe e)))];;
    mret (true, [])
  | Ok InvalidVerdict =>
    async_emit (u "agent.verification_failed") [(u "reason", JStr (u "invalid_verdict"))];;
    mret (false, u "Verifier returned an invalid verdict.")
  | Ok (Verdict accepted feedback) =>
    let feedback := default [] feedback in
    async_emit (if accepted then u "agent.verification_passed" else u "agent.verification_failed")
      [(u "feedback", JStr (redact_secrets feedback))];;
    mret (accepted, feedback)
  end.

(** ** Memory, which is called on the event loop *)

Definition async_recall_memory (query : pystr) : AM unit :=
  r ← env (memory_search query (memory_recall_limit cfg));
  match r with
  | Err e => async_emit (u "agent.memory_recall_failed") [(u "error", JStr (redact_secrets (describe e)))]
  | Ok [] => mret tt
  | Ok recalled =>
    add_user (u "[Recalled memories]" ++ newline ++ join newline (map (fun t => u "- " ++ t) recalled));;
    async_emit (u "agent.memory_recalled") [(u "query", JStr query); (u "count", JInt (zlen recalled))]
  end.

Definition async_store_memory (user_message final_text : pystr) : AM unit :=
  id ← gets (fun s => _run_id (runst s));
  r ← env (memory_add (u "User: " ++ user_message ++ newline ++ u "Assistant: " ++ final_text) id);
  match r with
  | Ok entry => async_emit (u "agent.memory_stored") [(u "id", JStr entry)]
  | Err e => async_emit (u "agent.memory_store_failed") [(u "error", JStr (redact_secrets (describe e)))]
  end.

Definition async_clear_working_memory : AM unit :=
  id ← gets (fun s => _run_id (runst s));
  match id with
  | None => mret tt
  | Some i =>
    r ← env (memory_clear_working i);
    match r with
    | Ok _ => mret tt
    | Err e => async_emit (u "agent.memory_cleanup_failed") [(u "error", JStr (redact_secrets (describe e)))]
    end
  end.

(** ** The loop *)

Definition async_cancelled_at (l : Loop) : AM loop_exit :=
  async_emit (u "agent.cancelled") [(u "iteration", JInt (l_iteration l))];;
  mret (LDone (l_final_text l)).

Definition async_final_answer (output_schema : option json) (l : Loop) (text : pystr) : AM loop_exit :=
  retry ← match output_schema with
          | Some schema => async_check_structured schema text (l_retries_left l)
          | None => mret false
          end;
  if retry : bool then
    mret (LNext (MkLoop text (l_iteration l + 1) (l_escalated l) (l_retries_left l - 1)
                        (l_verification_left l) (l_rejected l)))
  else if has_verifier cfg then
    v ← async_verify_final_answer text;
    let '(accepted, feedback) := v : bool * pystr in
    if accepted then async_persist_state cfg;; mret (LDone text)
    else
      if (l_verification_left l <=? 0)%Z then async_raise_answer_not_verified text feedback
      else
        let left := (l_verification_left l - 1)%Z in
        add_user (u "The proposed final answer was not verified. Correct it using the available evidence. Verifier feedback: "
          ++ default (u "No details provided.") (nonempty (Some feedback)));;
        async_emit (u "agent.verification_retry") [(u "feedback", JStr feedback); (u "retries_left", JInt left)];;
        esc ← async_maybe_escalate (l_iteration l) true (l_escalated l);
        mret (LNext (MkLoop text (l_iteration l + 1) esc (l_retries_left l) left (Some (text, feedback))))
  else async_persist_state cfg;; mret (LDone text).

Definition async_tool_round (l : Loop) (calls : list ToolCall) : AM loop_exit :=
  any_error ← async_execute_tool_calls cfg calls;
  async_persist_state cfg;;
  stop ← gets (fun s => _stop_reason (runst s));
  match stop with
  | Some why =>
    async_emit (u "agent.error") [(u "reason", JStr why); (u "iteration", JInt (l_iteration l))];;
    mret (LDone (l_final_text l))
  | None =>
    async_drain_inbox;;
    async_pause_wait;;
    cancelled ← is_cancelled;
    if cancelled : bool then async_cancelled_at l
    else
      esc ← async_maybe_escalate (l_iteration l) any_error (l_escalated l);
      mret (LNext (MkLoop (l_final_text l) (l_iteration l + 1) esc (l_retries_left l)
                          (l_verification_left l) (l_rejected l)))
  end.

Definition async_turn (stream : bool) (l : Loop) (hook_results : list HookResult) : AM LLMResponse :=
  p ← gets (fun s => plan (answering s));
  r ← async_call_llm stream (async_system_prompt_append p hook_results);
  ctx ← context_of AFTER_LLM_CALL;
  async_trigger_hooks cfg AFTER_LLM_CALL (with_response ctx (l_iteration l) r);;
  upd_conv (fun st => add_assistant st (async_assistant_content r));;
  match nonempty (reasoning_text r) with
  | Some t => async_emit (u "agent.reasoning_trace") [(u "text", JStr t); (u "iteration", JInt (l_iteration l))]
  | None => mret tt
  end;;
  async_emit (u "agent.llm_response")
    [(u "tool_calls", JInt (zlen (tool_calls r))); (u "stop_reason", opt_str (stop_reason r))];;
  mret r.

Definition async_iteration (stream : bool) (output_schema : option json) (l : Loop) : AM loop_exit :=
  async_pause_wait;;
  cancelled ← is_cancelled;
  if cancelled : bool then async_cancelled_at l
  else
    m ← gets (fun s => mode (routing s));
    async_emit (u "agent.turn_started") [(u "iteration", JInt (l_iteration l)); (u "mode", JStr (mode_value m))];;
    async_maybe_compact_context;;
    st ← gets conv;
    ctx ← context_of BEFORE_LLM_CALL;
    hook_results ← async_trigger_hooks cfg BEFORE_LLM_CALL
      (with_iteration ctx (l_iteration l) (async_first_user_message st));
    cancelled ← is_cancelled;
    if cancelled : bool then async_cancelled_at l
    else
      budget_stop ← async_budget_stop_message;
      match budget_stop with
      | Some text => mret (LDone text)
      | None =>
        r ← async_turn stream l hook_results;
        match tool_calls r with
        | [] => async_final_answer output_schema l (r_content r)
        | calls => async_tool_round l calls
        end
      end.

Definition async_cap_reached (l : Loop) : AM pystr :=
  match l_rejected l with
  | Some (answer, feedback) => async_raise_answer_not_verified answer feedback
  | None =>
    cap ← gets (fun s => max_iterations (routing s));
    async_emit (u "agent.error") [(u "reason", JStr (u "max_iterations")); (u "iterations", JInt cap)];;
    mret (l_final_text l)
  end.

Fixpoint async_loop (fuel : nat) (stream : bool) (output_schema : option json) (l : Loop) : AM pystr :=
  cap ← gets (fun s => max_iterations (routing s));
  if (l_iteration l <? cap)%Z then
    match fuel with
    | O => no_fuel
    | S fuel' =>
      r ← async_iteration stream output_schema l;
      match r with
      | LDone text => mret text
      | LNext l' => async_loop fuel' stream output_schema l'
      end
    end
  else async_cap_reached l.

Definition async_run_loop (stream : bool) (output_schema : option json) (structured_retries : option Z) : AM pystr :=
  r ← gets routing;
  async_loop (loop_fuel r) stream output_schema
    (MkLoop [] 0 false (default DEFAULT_STRUCTURED_RETRIES structured_retries)
            (max_verification_retries cfg) None).

(** ** [run] *)

Definition async_start_run (user_message : option pystr) : AM unit :=
  clear_cancel;;
  upd_run (set_stop_reason None);;
  id ← env uuid4;
  upd_run (set_run_id (Some id));;
  ctx ← context_of BEFORE_RUN;
  async_trigger_hooks cfg BEFORE_RUN (with_texts ctx user_message None None);;
  async_classify_and_route user_message;;
  p ← async_create_plan user_message;
  upd_answering (set_plan p);;
  upd_conv (fun st => set_metadata st
    (match p with
     | Some p => dict_set (u "plan") (MJson (JStr (plan_to_prompt p))) (metadata st)
     | None => dict_pop (u "plan") (metadata st)
     end));;
  r ← gets routing;
  async_emit (u "agent.run_started")
    [(u "mode", JStr (mode_value (mode r))); (u "tools", strs (map fst (tools cfg)));
     (u "max_iterations", JInt (max_iterations r))].

(** The handlers around [_run_loop]; [except Exception] lets [CancelledError] pass. *)
Definition async_run_failed {T} (e : aexn) : AM T :=
  match e with
  | EPending _ _ => throw e
  | _ =>
    if is_cancelled_error e then throw e
    else
      ctx ← context_of ON_ERROR;
      async_trigger_hooks cfg ON_ERROR (with_texts ctx None None (Some (exn_class e ++ u ": " ++ exn_text e)));;
      async_emit (u "agent.error") [(u "reason", JStr (u "exception")); (u "error", JStr (exn_text e))];;
      when (has_memory cfg) async_clear_working_memory;;
      throw e
  end.

Definition async_finish_run (user_message : option pystr) (final_text : pystr) : AM unit :=
  upd_run (set_resuming false);;
  ctx ← context_of AFTER_RUN;
  async_trigger_hooks cfg AFTER_RUN (with_texts ctx None (Some final_text) None);;
  m ← gets (fun s => mode (routing s));
  async_emit (u "agent.run_finished") [(u "final_text", JStr final_text); (u "mode", JStr (mode_value m))];;
  match user_message with
  | Some q => when (has_memory cfg) (async_store_memory q final_text)
  | None => mret tt
  end;;
  when (has_memory cfg) async_clear_working_memory.

Definition async_run (user_message : option pystr) (stream : bool) (output_schema : option json)
    (structured_retries : option Z) : AM pystr :=
  rs ← gets runst;
  let resuming := _resuming_checkpoint rs && bool_decide (user_message = None) in
  upd_answering (set_structured_output None);;
  if negb (resuming && bool_decide (is_Some (_pending_confirmation rs)))
  then
    match user_message with
    | Some q => when (has_memory cfg) (async_recall_memory q)
    | None => mret tt
    end;;
    match composed_message user_message output_schema with
    | Some text => add_user text
    | None => mret tt
    end;;
    when (negb resuming) (async_start_run user_message);;
    text ← catch (async_run_loop stream output_schema structured_retries) async_run_failed;
    async_finish_run user_message text;;
    mret text
  else throw (EPy (PyExn (u "RuntimeError")
    (u "Resolve the pending confirmation before continuing this checkpoint"))).
End AsyncAgent.
