(* ===== verification/AsyncFrame.v ===== *)
(** * The asynchronous agent: reasoning about methods

    [AgentFrame] for the methods of [AsyncAgent]: a relation that allows what the
    tool-call methods and the loop do is kept by a whole [async_run], wherever its
    task is cancelled. *)

From stdpp Require Import base gmap strings list.
From Stdlib Require Import ZArith Lia SpecFloat.
From S2P Require Import Prelude Json Types Validation TextCompact Conversation EventBus Redact Hooks.
From S2P Require Import Compaction Policy Budgets Structured AgentState AgentTools AgentLoop AgentFrame AgentSafety.
From S2P Require Import AsyncTools AsyncLoop.

Section Tools.
Context `{PyRuntime} `{SecretPatterns} {M W : Type} `{EventSink W} `{AgentEnv W} `{AsyncEnv W} `{PermissionPolicy}
  (cfg : Config) (R : St M W -> St M W -> Prop) (may : Tool -> jdict -> St M W -> Prop) `{!ToolRel cfg R may}.
Implicit Types P : St M W -> Prop.

Lemma a_env {T} P (f : W -> T * W) : keeps P R (env f).
Proof using ToolRel0. by eapply keeps_env. Qed.
Lemma a_env_ P f : keeps P R (env_ f).
Proof using ToolRel0. by eapply keeps_env_. Qed.
Lemma a_stop P x : keeps P R (upd_run (set_stop_reason x)).
Proof using ToolRel0. by eapply keeps_set_stop. Qed.
Lemma a_stuck P x : keeps P R (upd_guards (set_stuck x)).
Proof using ToolRel0. by eapply keeps_set_stuck. Qed.
Lemma a_decide P n args d c : keeps P R (log (ADecide n args d c)).
Proof using ToolRel0. by eapply keeps_decide. Qed.
Lemma a_human P n args : keeps P R (log (AHuman n args)).
Proof using ToolRel0. by eapply keeps_human. Qed.
Lemma a_exec t args : keeps (may t args) R (log (AExec (t_name t) args)).
Proof using ToolRel0. by eapply keeps_exec. Qed.
Lemma a_may t args : stable R (may t args).
Proof using ToolRel0. by eapply may_stable. Qed.
Lemma a_context P p : stable R P -> keeps P R (context_of (M := M) (W := W) p).
Proof using ToolRel0. by eapply keeps_context. Qed.
Lemma a_cancelled P : stable R P -> keeps P R is_cancelled.
Proof using ToolRel0. by eapply keeps_cancelled. Qed.
Lemma a_record P e : stable R P -> keeps P R (record_audit e).
Proof using ToolRel0. by eapply keeps_record. Qed.
Lemma a_circuit_open P t : stable R P -> keeps P R (async_circuit_is_open t).
Proof using ToolRel0. by eapply keeps_circuit_open. Qed.
Lemma a_circuit_result P n t r : stable R P -> keeps P R (async_record_circuit_result n t r).
Proof using ToolRel0. by eapply keeps_circuit_result. Qed.

Hint Resolve a_env a_env_ a_stop a_stuck a_decide a_human a_exec a_may a_context a_cancelled a_record
  a_circuit_open a_circuit_result : keeps.

(** A cancellation delivered at an [await] changes nothing else. *)
Lemma a_await {T} P (m : A M W T) : stable R P -> keeps P R m -> keeps P R (await m).
Proof using ToolRel0. intros HP Hm. unfold await. keeps_tac. Qed.

Ltac await_tac := repeat first [progress intros | solve [eauto 2 with keeps] | apply a_await; [eauto with keeps|] | keeps_step].

Lemma a_emit P ty payload : stable R P -> keeps P R (async_emit ty payload).
Proof using ToolRel0. intros HP. unfold async_emit. await_tac. Qed.
Lemma a_hooks P p ctx : stable R P -> keeps P R (async_trigger_hooks cfg p ctx).
Proof using ToolRel0. intros HP. unfold async_trigger_hooks. await_tac. Qed.
Hint Resolve a_emit a_hooks : keeps.
Lemma a_finished P call r : stable R P -> keeps P R (async_emit_tool_call_finished call r).
Proof using ToolRel0. intros HP. unfold async_emit_tool_call_finished. await_tac. Qed.
Lemma a_deny P call why input : stable R P -> keeps P R (async_deny_call call why input).
Proof using ToolRel0. intros HP. unfold async_deny_call. await_tac. Qed.
Lemma a_invoke t args : keeps (may t args) R (async_invoke_tool t args).
Proof using ToolRel0. unfold async_invoke_tool, returned. await_tac. Qed.
Hint Resolve a_finished a_deny a_invoke : keeps.
Lemma a_run_tool t args : keeps (may t args) R (async_run_tool cfg t args).
Proof using ToolRel0. unfold async_run_tool, returned. await_tac. Qed.
Hint Resolve a_run_tool : keeps.
Lemma a_retry_loop left retries call t args r : keeps (may t args) R (async_retry_loop cfg left retries call t args r).
Proof using ToolRel0. revert retries r; induction left as [|left IH]; intros retries r; simpl; await_tac. Qed.
Lemma a_retry call t args r : keeps (may t args) R (async_retry_transient_tool cfg call t args r).
Proof using ToolRel0. apply a_retry_loop. Qed.
Lemma a_finalize P call t args r : stable R P -> keeps P R (async_finalize_call cfg call t args r).
Proof using ToolRel0. intros HP. unfold async_finalize_call, audit_result. await_tac. Qed.
Lemma a_confirmation P call args d : stable R P -> keeps P R (async_confirmation_status cfg call args d).
Proof using ToolRel0. intros HP. unfold async_confirmation_status. await_tac. Qed.
Lemma a_checkpoint P : stable R P -> keeps P R async_save_checkpoint.
Proof using ToolRel0. intros HP. unfold async_save_checkpoint. await_tac. Qed.
Lemma a_before P call : stable R P -> keeps P R (async_before_hooks cfg call).
Proof using ToolRel0. intros HP. unfold async_before_hooks. await_tac. Qed.
Lemma a_admit P call args : stable R P -> keeps P R (async_admit cfg call args).
Proof using ToolRel0. intros HP. unfold async_admit, audit_result. await_tac. Qed.
Hint Resolve a_retry a_finalize a_confirmation a_checkpoint a_before a_admit : keeps.

Lemma a_persist P : stable R P -> keeps P R (async_persist_state cfg).
Proof using ToolRel0. intros HP. unfold async_persist_state. await_tac. Qed.

Context `{!PendRel R}.

Lemma a_pending P x : keeps P R (upd_run (set_pending x)).
Proof using PendRel0. intros s _. apply tr_pending. Qed.
Lemma a_remaining P x : keeps P R (upd_run (set_remaining_calls x)).
Proof using PendRel0. intros s _. apply tr_remaining. Qed.
Hint Resolve a_pending a_remaining : keeps.

Lemma a_prepare P call : stable R P -> keeps P R (async_prepare_call cfg call).
Proof using ToolRel0 PendRel0. intros HP. unfold async_prepare_call, audit_call. await_tac. Qed.

Abbreviation ready_may := (ready_may may).

(** [async_admit] is [_admit] word for word. *)
Lemma admit_same call args : async_admit cfg call args = _admit (M := M) (W := W) cfg call args.
Proof using Type. done. Qed.

Lemma a_early P (m : A M W ToolResult) args : ensures P (r ← m; mret (Early args r)) ready_may.
Proof using Type. eapply ensures_bind; [apply ensures_any|]. intros r. by apply ensures_ret. Qed.

Lemma a_prepare_ready P call : ensures P (async_prepare_call cfg call) ready_may.
Proof using ToolRel0.
  unfold async_prepare_call. eapply ensures_bind; [apply ensures_any|]. intros [args|]; [|by apply ensures_ret].
  eapply ensures_bind; [apply ensures_lift|]. intros d. cbv beta.
  eapply (ensures_bind _ (fun _ _ => check (tc_name call) args = Ok d)); [by intros s Hs x _|]. intros _.
  destruct (allowed d) eqn:Ha; simpl; [|apply a_early].
  eapply (ensures_bind _ (fun _ _ => check (tc_name call) args = Ok d)); [by intros s Hs x _|]. intros c.
  set (P' := fun s => forall t, (requires_confirmation d = true -> c = Approved) ->
    dict_get (tc_name call) (tools cfg) = Some t -> may t args s).
  eapply (ensures_bind _ (fun _ => P')).
  { intros s Hs x _ t Hc Ht. simpl. by eapply tr_grant. }
  intros _. destruct (requires_confirmation d && bool_decide (c = NoHook) && has_checkpoint_manager cfg).
  - eapply ensures_bind; [apply ensures_any|]. intros [].
    eapply ensures_bind; [apply ensures_any|]. intros id. apply ensures_throw.
  - assert ((requires_confirmation d = true -> c = Approved) -> ensures P' (async_admit cfg call args) ready_may) as Hgo.
    { intros Hc. rewrite admit_same. eapply (admit_ready cfg R may); unfold P'.
      - intros s s' Hr Hs t ??. eapply tr_stable; [exact Hr|]. by apply Hs.
      - intros s Hs t Ht. by apply Hs. }
    destruct (requires_confirmation d && negb (bool_decide (c = Approved))) eqn:E; [apply a_early|].
    apply Hgo. intros Hrc. rewrite Hrc in E. by apply negb_false_iff, bool_decide_eq_true in E.
Qed.

Lemma a_execute_one P call : stable R P -> keeps P R (async_execute_one cfg call).
Proof using ToolRel0 PendRel0.
  intros HP. unfold async_execute_one.
  apply (keeps_bind_post R (tr_trans (cfg := cfg)) _ ready_may); [by apply a_prepare|apply a_prepare_ready|].
  intros [t args|args r]; [|apply keeps_ret, (tr_refl (cfg := cfg))].
  change (ready_may (Ready t args)) with (may t args). await_tac.
Qed.

(** ** Batches *)

Context `{!ConvRel R}.

Lemma a_add_result P call r : keeps P R (add_result cfg call r).
Proof using ConvRel0. intros s _. apply tr_conv. Qed.
Hint Resolve a_prepare a_execute_one a_add_result a_persist : keeps.

Abbreviation slots_may := (slots_may may).

Lemma log_all_kept jobs : keeps (fun s => Forall (fun j => may j.1 j.2 s) jobs) R (log_all (M := M) (W := W) jobs).
Proof using ToolRel0.
  induction jobs as [|[t args] jobs IH]; simpl; [apply keeps_ret, (tr_refl (cfg := cfg))|].
  apply (keeps_bind_post R (tr_trans (cfg := cfg)) _ (fun _ s => Forall (fun j => may j.1 j.2 s) jobs)).
  - eapply keeps_mono; [|apply a_exec]. intros s Hs. by apply Forall_cons in Hs as [Hs _].
  - intros s Hs x Hx. apply Forall_cons in Hs as [Hs Hr]. eapply Forall_impl; [exact Hr|].
    intros j Hj. eapply tr_stable; [|exact Hj]. by apply a_exec.
  - intros _. apply IH.
Qed.

Lemma launches_may slots s : slots_may slots s -> Forall (fun j => may j.1 j.2 s) (launches slots).
Proof using Type.
  intros Hs. induction Hs as [|sl slots Hsl _ IH]; [constructor|]. destruct sl; cbn; try done. by constructor.
Qed.

Lemma land_may slots i ended ls s : land cfg i slots ended = Some ls -> slots_may slots s ->
  Forall (fun l => landed_may may l s) ls /\ length ls = length slots.
Proof using Type.
  revert i ls; induction slots as [|sl slots IH]; intros i ls; cbn [land]; [intros [= <-]; by repeat constructor|].
  intros Hl Hs. apply Forall_cons in Hs as [Hsl Hs].
  destruct sl as [|r|t args]; cbn [mbind option_bind] in Hl.
  1-2: destruct (land cfg i slots ended) eqn:E; [|done]; injection Hl as <-; destruct (IH _ _ E Hs);
    (split; [by constructor|by simpl; f_equal]).
  destruct (landed_result _ _ _); [|done]. destruct (land cfg (S i) slots ended) eqn:E; [|done].
  injection Hl as <-. destruct (IH _ _ E Hs). split; [by constructor|by simpl; f_equal].
Qed.

Lemma slots_kept slots : stable R (slots_may slots).
Proof using ToolRel0. exact (slots_stable cfg R may slots). Qed.

Lemma a_landed slots i ended : ensures (slots_may slots)
  (match land cfg i slots ended with Some ls => mret ls | None => block end : A M W (list landed))
  (fun ls s => Forall (fun l => landed_may may l s) ls).
Proof using Type.
  intros s Hs ls. destruct (land cfg i slots ended) as [ls'|] eqn:E; [|done]. intros [= <-]. by eapply land_may.
Qed.

Lemma a_gather slots : keeps (slots_may slots) R (gather_slots cfg slots).
Proof using ToolRel0.
  pose proof (slots_kept slots) as Hst. unfold gather_slots. destruct (launches slots) as [|j jobs] eqn:E; [await_tac|].
  apply keeps_bind; [apply (tr_trans (cfg := cfg))|done|await_tac|]. intros id.
  apply keeps_bind; [apply (tr_trans (cfg := cfg))|done| |intros; await_tac].
  eapply keeps_mono; [|apply log_all_kept]. intros s Hs. rewrite <- E. by apply launches_may.
Qed.

Lemma a_gather_may slots : ensures (slots_may slots) (gather_slots cfg slots)
  (fun ls s => Forall (fun l => landed_may may l s) ls).
Proof using ToolRel0.
  pose proof (slots_kept slots) as Hst. unfold gather_slots. destruct (launches slots) as [|j jobs] eqn:E; [apply a_landed|].
  eapply (ensures_bind _ (fun _ => slots_may slots)); [by intros s Hs ? _|]. intros id.
  eapply (ensures_bind _ (fun _ => slots_may slots)).
  { apply (ensures_stable R); [done|]. eapply keeps_mono; [|apply log_all_kept]. intros s Hs. rewrite <- E. by apply launches_may. }
  intros _. eapply (ensures_bind _ (fun _ => slots_may slots)); [apply (ensures_stable R); [done|await_tac]|].
  intros ended. apply a_landed.
Qed.

Lemma a_record_landed cl : keeps (fun s => landed_may may cl.2 s) R (async_record_landed cfg cl).
Proof using ToolRel0 ConvRel0.
  destruct cl as [call [sk r|t args r]]; cbn [async_record_landed].
  - change (fun s => landed_may may (call, LandedEarly sk r).2 s) with (fun _ : St M W => True). await_tac.
  - change (fun s => landed_may may (call, LandedRun t args r).2 s) with (may t args). await_tac.
Qed.

Lemma a_dispatch calls slots : keeps (slots_may slots) R (async_dispatch_and_record cfg calls slots).
Proof using ToolRel0 ConvRel0.
  unfold async_dispatch_and_record. eapply (keeps_bind_post R (tr_trans (cfg := cfg))); [apply a_gather|apply a_gather_may|].
  intros results. cbv beta.
  set (P := fun s => Forall (fun cl : ToolCall * landed => landed_may may cl.2 s) (zip calls results)).
  assert (stable R P) as HP.
  { intros s s' Hr Hs. eapply Forall_impl; [exact Hs|]. intros [c l]. by apply (landed_stable cfg R may). }
  apply (keeps_mono R _ P).
  { intros s HF. apply Forall_forall. intros [c y] Hin. simpl. apply elem_of_zip_r in Hin. by eapply Forall_forall in HF. }
  apply keeps_bind; [apply (tr_trans (cfg := cfg))|done| |intros; apply keeps_ret, (tr_refl (cfg := cfg))].
  apply keeps_traverse; [apply (tr_refl (cfg := cfg))|apply (tr_trans (cfg := cfg))|done|].
  intros cl Hin. eapply keeps_mono; [|apply a_record_landed]. intros s Hs. by eapply Forall_forall in Hs.
Qed.

Lemma a_pending_handler {T} P rest before e : stable R P -> keeps P R before ->
  keeps P R (async_pending_handler cfg rest before (T := T) e).
Proof using ToolRel0 PendRel0.
  intros HP Hb. unfold async_pending_handler, async_save_pending_confirmation_checkpoint. await_tac.
Qed.

Lemma a_sequential P calls any : stable R P -> keeps P R (async_execute_sequentially cfg calls any).
Proof using ToolRel0 PendRel0 ConvRel0.
  intros HP. revert any; induction calls as [|call calls IH]; intros any; simpl; await_tac.
  apply a_pending_handler; [done|]. await_tac.
Qed.

(** Gating one call of a parallel batch. *)
Definition async_gate_one (done : list ToolCall) (slots : list slot) (call : ToolCall) (calls : list ToolCall) : A M W prepared :=
  catch (async_prepare_call cfg call)
    (async_pending_handler cfg (call :: calls) (async_dispatch_and_record cfg done slots;; mret tt)).

Lemma a_gate_one done slots call calls : keeps (slots_may slots) R (async_gate_one done slots call calls).
Proof using ToolRel0 PendRel0 ConvRel0.
  pose proof (slots_kept slots) as Hst.
  apply keeps_catch; [apply (tr_trans (cfg := cfg))|done|by apply a_prepare|].
  intros e. apply a_pending_handler; [done|].
  apply keeps_bind; [apply (tr_trans (cfg := cfg))|done|apply a_dispatch|]. intros _. apply keeps_ret, (tr_refl (cfg := cfg)).
Qed.

Lemma a_gate_one_ready done slots call calls :
  ensures (slots_may slots) (async_gate_one done slots call calls) (fun p s => ready_may p s /\ slots_may slots s).
Proof using ToolRel0 PendRel0 ConvRel0.
  assert (ensures (fun _ => True) (async_gate_one done slots call calls) ready_may) as Hr.
  { apply ensures_catch; [apply a_prepare_ready|]. intros e. unfold async_pending_handler. destruct e; try apply ensures_throw.
    repeat (eapply ensures_bind; [apply ensures_any|intros ?]). apply ensures_throw. }
  intros s Hs p Hp. split; [by apply Hr|].
  eapply slots_kept; [by apply (a_gate_one done slots call calls)|done].
Qed.

Lemma a_gate done slots calls : keeps (slots_may slots) R (async_gate_batch cfg done slots calls) /\
  ensures (slots_may slots) (async_gate_batch cfg done slots calls) slots_may.
Proof using ToolRel0 PendRel0 ConvRel0.
  revert done slots; induction calls as [|call calls IH]; intros done slots; simpl.
  { split; [apply keeps_ret, (tr_refl (cfg := cfg))|by apply ensures_ret]. }
  pose proof (slots_kept slots) as Hst.
  assert (forall s, slots_may slots s -> slots_may (slots ++ [SlotSkipped]) s) as Hskip.
  { intros s Hs. apply Forall_app. by split; [|constructor]. }
  assert (forall p s, ready_may p s /\ slots_may slots s ->
    slots_may (slots ++ [match p with Early _ r => SlotEarly r | Ready t args => SlotPending t args end]) s) as Hsnoc.
  { intros p s [Hp Hs]. by apply slots_may_snoc. }
  split.
  - apply keeps_bind; [apply (tr_trans (cfg := cfg))|done|by apply a_cancelled|]. intros [].
    + eapply keeps_mono; [exact Hskip|]. apply IH.
    + apply keeps_bind; [apply (tr_trans (cfg := cfg))|done|by apply a_emit|]. intros _.
      eapply (keeps_bind_post R (tr_trans (cfg := cfg))); [apply a_gate_one|apply a_gate_one_ready|].
      intros p. eapply keeps_mono; [apply Hsnoc|]. apply IH.
  - eapply ensures_bind; [apply (ensures_stable R); [done|by apply a_cancelled]|]. intros [].
    + intros s Hs. by apply IH, Hskip.
    + eapply ensures_bind; [apply (ensures_stable R); [done|by apply a_emit]|].
      intros ?. eapply ensures_bind; [apply a_gate_one_ready|]. intros p s Hps. by apply IH, Hsnoc.
Qed.

Lemma a_tool_calls P calls : stable R P -> keeps P R (async_execute_tool_calls cfg calls).
Proof using ToolRel0 PendRel0 ConvRel0.
  intros HP. unfold async_execute_tool_calls. case_match; [|by apply a_sequential].
  apply (keeps_mono R P (slots_may [])); [by constructor|]. unfold async_execute_tool_calls_parallel.
  eapply (keeps_bind_post R (tr_trans (cfg := cfg))); [apply a_gate|apply a_gate|]. intros slots. apply a_dispatch.
Qed.
Hint Resolve a_tool_calls : keeps.

Lemma a_human_run call t args : dict_get (tc_name call) (tools cfg) = Some t ->
  keeps (fun _ => True) R
    (log (AHuman (tc_name call) args);; r ← async_run_tool cfg t args;
     r ← async_retry_transient_tool cfg call t args r; async_finalize_call cfg call t args r;; mret r).
Proof using ToolRel0.
  intros Ht. eapply (keeps_bind_post R (tr_trans (cfg := cfg)) _ (fun _ => may t args)); [apply a_human| |intros; await_tac].
  intros s _ x _. by apply tr_human_grant.
Qed.

Lemma a_resolve approved : keeps (fun _ => True) R (async_resolve_pending_confirmation cfg approved).
Proof using ToolRel0 PendRel0 ConvRel0.
  unfold async_resolve_pending_confirmation.
  apply keeps_bind; [apply (tr_trans (cfg := cfg))|done|apply keeps_gets, (tr_refl (cfg := cfg))|]. intros [p|]; [|apply keeps_throw, (tr_refl (cfg := cfg))].
  apply keeps_bind; [apply (tr_trans (cfg := cfg))|done|eauto with keeps|]. intros _.
  apply keeps_bind; [apply (tr_trans (cfg := cfg))|done| |intros; await_tac].
  destruct approved; [|await_tac].
  destruct (dict_get (tc_name (pc_call p)) (tools cfg)) eqn:E; [by apply a_human_run|await_tac].
Qed.
End Tools.

(** ** The loop *)

Section Run.
Context `{PyRuntime} `{SecretPatterns} {M W : Type} (cm : ContextManager M W)
  `{EventSink W} `{AgentEnv W} `{AsyncEnv W} `{PermissionPolicy}
  (cfg : Config) (R : St M W -> St M W -> Prop) (may : Tool -> jdict -> St M W -> Prop)
  `{!ToolRel cfg R may} `{!PendRel R} `{!ConvRel R} `{!LoopRel R} `{!LlmRel R} `{!RouteRel R}.

Abbreviation kept m := (keeps (fun _ => True) R m).

Lemma b_env {T} P (f : W -> T * W) : keeps P R (env f).
Proof using ToolRel0. by eapply keeps_env. Qed.
Lemma b_env_ P f : keeps P R (env_ f).
Proof using ToolRel0. by eapply keeps_env_. Qed.
Lemma b_world P w : keeps P R (modify (set_world w)).
Proof using ToolRel0. intros s _. apply tr_world. Qed.
Lemma b_conv P f : keeps P R (upd_conv f).
Proof using ConvRel0. intros s _. apply tr_conv. Qed.
Lemma b_set_conv P st : keeps P R (modify (set_conv st)).
Proof using ConvRel0. intros s _. apply tr_conv. Qed.
Lemma b_user P t : keeps P R (add_user (W := W) t).
Proof using ConvRel0. apply b_conv. Qed.
Lemma b_manager P m : keeps P R (modify (set_manager m)).
Proof using LoopRel0. intros s _. apply lr_manager. Qed.
Lemma b_routing P f : keeps P R (upd_routing f).
Proof using RouteRel0. intros s _. apply lr_routing. Qed.
Lemma b_answering P f : keeps P R (upd_answering f).
Proof using LoopRel0. intros s _. apply lr_answering. Qed.
Lemma b_run P f : keeps P R (upd_run f).
Proof using RouteRel0. intros s _. apply lr_run. Qed.
Lemma b_llm P : keeps P R (log ALlm).
Proof using LlmRel0. intros s _. apply lr_llm. Qed.
Lemma b_budget P f : keeps P R (upd_guards (fun g => set_budget (f g) g)).
Proof using LlmRel0. intros s _. by apply lr_guards. Qed.
Lemma b_usage P x : keeps P R (upd_guards (set_usage x)).
Proof using LlmRel0. intros s _. by apply lr_guards. Qed.
Lemma b_context p : kept (context_of (M := M) (W := W) p).
Proof using ToolRel0. by eapply keeps_context. Qed.
Lemma b_cancelled : kept is_cancelled.
Proof using ToolRel0. by eapply keeps_cancelled. Qed.
Lemma b_await {T} (m : A M W T) : kept m -> kept (await m).
Proof using ToolRel0. by apply (a_await cfg R may). Qed.
Lemma b_emit ty payload : kept (async_emit ty payload).
Proof using ToolRel0. by eapply a_emit. Qed.
Lemma b_hooks p ctx : kept (async_trigger_hooks cfg p ctx).
Proof using ToolRel0. by eapply a_hooks. Qed.
Lemma b_persist : kept (async_persist_state cfg).
Proof using ToolRel0. by eapply a_persist. Qed.
Lemma b_tool_calls calls : kept (async_execute_tool_calls cfg calls).
Proof using ToolRel0 PendRel0 ConvRel0. by eapply a_tool_calls. Qed.

Hint Resolve b_env b_env_ b_world b_conv b_set_conv b_user b_manager b_routing b_answering b_run b_llm b_budget
  b_usage b_context b_cancelled b_emit b_hooks b_persist b_tool_calls : keeps.

Ltac loop_tac := repeat first [progress intros | solve [eauto 2 with keeps] | apply b_await | keeps_step].

Lemma b_escalate : kept async_escalate.
Proof using ToolRel0 RouteRel0. unfold async_escalate. loop_tac. Qed.
Lemma b_apply_mode m : kept (async_apply_mode (M := M) (W := W) m).
Proof using ToolRel0 RouteRel0. unfold async_apply_mode, _apply_mode. loop_tac. Qed.
Hint Resolve b_escalate b_apply_mode : keeps.
Lemma b_classify msg : kept (async_classify_and_route (M := M) msg).
Proof using ToolRel0 RouteRel0. unfold async_classify_and_route. loop_tac. Qed.
Lemma b_maybe_escalate i t e : kept (async_maybe_escalate i t e).
Proof using ToolRel0 RouteRel0. unfold async_maybe_escalate. loop_tac. Qed.
Lemma b_pause_wait : kept (async_pause_wait (M := M)).
Proof using ToolRel0. unfold async_pause_wait. loop_tac. Qed.
Hint Resolve b_classify b_maybe_escalate b_pause_wait : keeps.
Lemma b_drain n : kept (async_drain_loop n).
Proof using ToolRel0 ConvRel0. induction n as [|n IH]; simpl; loop_tac. Qed.
Lemma b_inbox : kept (async_drain_inbox cfg).
Proof using ToolRel0 ConvRel0. apply b_drain. Qed.
Lemma b_compact : kept (async_maybe_compact_context cm cfg).
Proof using ToolRel0 ConvRel0 LoopRel0. unfold async_maybe_compact_context. loop_tac. Qed.
Lemma b_record_usage r : kept (async_record_usage r).
Proof using ToolRel0 LlmRel0. unfold async_record_usage. loop_tac. Qed.
Hint Resolve b_inbox b_compact b_record_usage : keeps.
Lemma b_chat req : kept (async_chat_once req).
Proof using ToolRel0 LlmRel0. unfold async_chat_once. loop_tac. Qed.
Lemma b_consume es f : kept (async_consume es f).
Proof using ToolRel0. revert f; induction es as [|[] es IH]; intros f; simpl; loop_tac. Qed.
Hint Resolve b_chat b_consume : keeps.
Lemma b_call_llm stream ap : kept (async_call_llm cfg stream ap).
Proof using ToolRel0 LlmRel0. unfold async_call_llm. loop_tac. Qed.
Lemma b_budget_stop : kept async_budget_stop_message.
Proof using ToolRel0. unfold async_budget_stop_message. loop_tac. Qed.
Lemma b_check_structured schema t n : kept (async_check_structured schema t n).
Proof using ToolRel0 ConvRel0 LoopRel0. unfold async_check_structured. loop_tac. Qed.
Lemma b_not_verified {T} a f : kept (async_raise_answer_not_verified (T := T) a f).
Proof using ToolRel0. unfold async_raise_answer_not_verified. loop_tac. Qed.
Lemma b_create_plan msg : kept (async_create_plan cfg msg).
Proof using ToolRel0. unfold async_create_plan. loop_tac. Qed.
Lemma b_verify a : kept (async_verify_final_answer a).
Proof using ToolRel0. unfold async_verify_final_answer. loop_tac. Qed.
Lemma b_recall q : kept (async_recall_memory cfg q).
Proof using ToolRel0 ConvRel0. unfold async_recall_memory. loop_tac. Qed.
Lemma b_store q t : kept (async_store_memory q t).
Proof using ToolRel0. unfold async_store_memory. loop_tac. Qed.
Lemma b_clear : kept async_clear_working_memory.
Proof using ToolRel0. unfold async_clear_working_memory. loop_tac. Qed.
Hint Resolve b_call_llm b_budget_stop b_check_structured b_not_verified b_create_plan b_verify b_recall b_store b_clear : keeps.
Lemma b_cancelled_at l : kept (async_cancelled_at l).
Proof using ToolRel0. unfold async_cancelled_at. loop_tac. Qed.
Lemma b_final_answer o l t : kept (async_final_answer cfg o l t).
Proof using ToolRel0 ConvRel0 LoopRel0 RouteRel0. unfold async_final_answer. loop_tac. Qed.
Lemma b_turn stream l hr : kept (async_turn cfg stream l hr).
Proof using ToolRel0 ConvRel0 LlmRel0. unfold async_turn. loop_tac. Qed.
Hint Resolve b_cancelled_at b_final_answer b_turn : keeps.
Lemma b_tool_round l calls : kept (async_tool_round cfg l calls).
Proof using ToolRel0 PendRel0 ConvRel0 RouteRel0. unfold async_tool_round. loop_tac. Qed.
Hint Resolve b_tool_round : keeps.
Lemma b_iteration stream o l : kept (async_iteration cm cfg stream o l).
Proof using ToolRel0 PendRel0 ConvRel0 LoopRel0 LlmRel0 RouteRel0. unfold async_iteration. loop_tac. Qed.
Lemma b_cap l : kept (async_cap_reached l).
Proof using ToolRel0. unfold async_cap_reached. loop_tac. Qed.
Lemma b_no_fuel {T} : kept (no_fuel (T := T)).
Proof using ToolRel0. intros s _. apply tr_refl. Qed.
Hint Resolve b_iteration b_cap b_no_fuel : keeps.
Lemma b_loop fuel stream o l : kept (async_loop cm cfg fuel stream o l).
Proof using ToolRel0 PendRel0 ConvRel0 LoopRel0 LlmRel0 RouteRel0.
  revert l; induction fuel as [|fuel IH]; intros l; simpl; loop_tac.
Qed.
Hint Resolve b_loop : keeps.
Lemma b_run_loop stream o n : kept (async_run_loop cm cfg stream o n).
Proof using ToolRel0 PendRel0 ConvRel0 LoopRel0 LlmRel0 RouteRel0. unfold async_run_loop. loop_tac. Qed.
Lemma b_start msg : kept (async_start_run cfg msg).
Proof using ToolRel0 ConvRel0 LoopRel0 RouteRel0. unfold async_start_run, clear_cancel. loop_tac. Qed.
Lemma b_failed {T} e : kept (async_run_failed cfg (T := T) e).
Proof using ToolRel0. unfold async_run_failed. loop_tac. Qed.
Lemma b_finish msg t : kept (async_finish_run cfg msg t).
Proof using ToolRel0 RouteRel0. unfold async_finish_run. loop_tac. Qed.
Hint Resolve b_run_loop b_start b_failed b_finish : keeps.

Lemma keeps_async_run msg stream schema retries : kept (async_run cm cfg msg stream schema retries).
Proof using ToolRel0 PendRel0 ConvRel0 LoopRel0 LlmRel0 RouteRel0. unfold async_run. loop_tac. Qed.
End Run.
