(* ===== verification/AsyncAgent.v ===== *)
(** * The asynchronous agent: authorization, and equivalence with the synchronous one

    Wherever its task is cancelled, nothing runs unauthorized. A task that is
    never cancelled behaves, on the path both implementations share (no timeouts,
    no parallel batches), exactly as the synchronous agent. *)

From stdpp Require Import base gmap strings list.
From Stdlib Require Import ZArith Lia SpecFloat.
From S2P Require Import Prelude Json Types Validation TextCompact Summary Conversation EventBus Redact Hooks.
From S2P Require Import Compaction Policy Budgets Structured AgentState AgentTools AgentLoop AgentFrame AgentSafety AgentBounds.
From S2P Require Import AgentReplay AsyncTools AsyncLoop AsyncFrame.

(** ** Authorization *)

(** C3: the asynchronous agent enforces the same gate. In everything one of its
    runs does, sequentially or under [gather], and in resolving a saved
    confirmation, each execution of a tool is preceded by the policy allowing
    exactly its arguments, and by a confirmation where one was required; and this
    holds wherever the event loop delivers the cancellation of the task. *)
Theorem async_execution_authorized `{PyRuntime} `{SecretPatterns} {M W} (cm : ContextManager M W)
    `{EventSink W} `{AgentEnv W} `{AsyncEnv W} `{PermissionPolicy} cfg (s : St M W) msg stream schema retries approved :
  tools_wf cfg -> authorized (trace s) ->
  authorized (trace (async_run cm cfg msg stream schema retries s).2) /\
  authorized (trace (async_resolve_pending_confirmation cfg approved s).2).
Proof.
  intros Hwf Ha. pose proof (auth_tool_rel (M := M) (W := W) cfg Hwf) as Ht. pose proof (auth_loop_rel (M := M) (W := W) cfg Hwf) as Hl.
  pose proof (auth_pend_rel (M := M) (W := W)). pose proof (auth_conv_rel (M := M) (W := W)).
  pose proof (auth_llm_rel (M := M) (W := W)). pose proof (auth_route_rel (M := M) (W := W)).
  split.
  - by apply (keeps_async_run cm cfg auth_rel may_execute msg stream schema retries s I).
  - by apply (a_resolve cfg auth_rel may_execute approved s I).
Qed.

(** ** Two programs that do the same *)

Section Same.
Context {M W : Type} (I : St M W -> Prop).

(** From every state of the invariant, the same outcome and the same state, in
    which the invariant holds again. *)
Definition same {T} (m m' : A M W T) : Prop := forall s, I s -> m s = m' s /\ I (m' s).2.

Lemma same_refl {T} (m : A M W T) : (forall s, I s -> I (m s).2) -> same m m.
Proof using Type. intros Hm s Hs. split; [done|by apply Hm]. Qed.

Lemma same_bind_post {T U} (Q : T -> Prop) (m m' : A M W T) (f f' : T -> A M W U) :
  same m m' -> ensures I m' (fun x _ => Q x) -> (forall x, Q x -> same (f x) (f' x)) -> same (m ≫= f) (m' ≫= f').
Proof using Type.
  intros Hm HQ Hf s Hs. rewrite !bind_eq. destruct (Hm s Hs) as [-> Hi]. specialize (HQ s Hs).
  destruct (m' s) as [[x|e| |] s1]; try done. apply Hf; [by apply HQ|done].
Qed.

Lemma same_bind {T U} (m m' : A M W T) (f f' : T -> A M W U) :
  same m m' -> (forall x, same (f x) (f' x)) -> same (m ≫= f) (m' ≫= f').
Proof using Type. intros Hm Hf. by apply (same_bind_post (fun _ => True)). Qed.

Lemma same_catch_post {T} (Q : aexn -> St M W -> Prop) (m m' : A M W T) h h' : same m m' -> raises Q m' ->
  (forall e, (exists s, Q e s) -> same (h e) (h' e)) -> same (catch m h) (catch m' h').
Proof using Type.
  intros Hm HQ Hh s Hs. unfold catch. destruct (Hm s Hs) as [-> Hi]. specialize (HQ s).
  destruct (m' s) as [[x|e| |] s1]; try done. apply Hh; [|done]. exists s1. by apply HQ.
Qed.

Lemma same_catch {T} (m m' : A M W T) h h' : same m m' -> (forall e, same (h e) (h' e)) -> same (catch m h) (catch m' h').
Proof using Type. intros Hm Hh. by apply (same_catch_post (fun _ _ => True)). Qed.

Lemma same_when b m m' : same m m' -> same (when b m) (when b m').
Proof using Type. intros Hm. destruct b; [done|]. by apply same_refl. Qed.

Lemma same_ret {T} (x : T) : same (mret x) (mret x).
Proof using Type. by apply same_refl. Qed.
Lemma same_throw {T} e : same (throw (T := T) e) (throw e).
Proof using Type. by apply same_refl. Qed.
Lemma same_block {T} : same (block (T := T)) block.
Proof using Type. by apply same_refl. Qed.
Lemma same_gets {T} (f : St M W -> T) : same (gets f) (gets f).
Proof using Type. by apply same_refl. Qed.
Lemma same_lift {T} (r : result T) : same (lift r) (lift r).
Proof using Type. by destruct r; apply same_refl. Qed.
End Same.

(** The invariant: the attribute only the synchronous agent has is unset. *)
Definition unverified {M W} (s : St M W) : Prop := _effective_verify (answering s) = false.

Section Equivalence.
Context `{PyRuntime} `{SecretPatterns} {M W : Type} (cm : ContextManager M W)
  `{EventSink W} `{AgentEnv W} `{AsyncEnv W} `{PermissionPolicy} (cfg : Config).

Abbreviation sim := (same (M := M) (W := W) unverified).

(** Nobody cancels the task. *)
Definition never_cancelled : Prop := forall w : W, task_cancelled w = (false, w).

(** No subscriber distinguishes the two events about a finished call, which
    differ in the duration and the artifacts the asynchronous one leaves out. *)
Definition finished_events_alike : Prop := forall id call r (w : W),
  let payload extra := [(u "name", JStr (tc_name call)); (u "id", JStr (tc_id call)); (u "is_error", JBool (is_error r));
    (u "output_preview", JStr (redact_secrets (_preview (py_str (output r)))))] ++ extra in
  let publish p := publish_to {| e_type := u "agent.tool_call_finished";
    e_payload := match id with Some i => dict_set (u "run_id") (JStr i) p | None => p end; e_source := Some (u "agent") |} w in
  publish (payload []) =
  publish (payload [(u "duration_seconds", opt_float (duration_seconds r)); (u "artifacts", JList (map JStr (artifacts r)))]).

(** Batches are sequential, no tool runs under a timeout, and confirmations are
    not deferred: in these the two implementations differ. *)
Definition shared_path : Prop :=
  parallel_tool_execution cfg = false /\ has_checkpoint_manager cfg = false /\ forall n t, dict_get n (tools cfg) = Some t -> _tool_timeout cfg t = None.

Context (Hnever : never_cancelled) (Hevents : finished_events_alike) (Hpath : shared_path).

Lemma same_await {T} (m m' : A M W T) : sim m m' -> sim (await m) m'.
Proof using Hnever.
  intros Hm s Hs. unfold await. rewrite bind_eq. unfold env at 1. rewrite Hnever.
  replace (set_world (world s) s) with s by (by destruct s). by apply Hm.
Qed.

Lemma same_env {T} (f : W -> T * W) : sim (env f) (env f).
Proof using Type. apply same_refl. intros s Hs. unfold env. by destruct (f (world s)). Qed.
Lemma same_env_ (f : W -> W) : sim (env_ f) (env_ f).
Proof using Type. by apply same_refl. Qed.
Lemma same_log a : sim (log a) (log a).
Proof using Type. by apply same_refl. Qed.
Lemma same_upd_conv f : sim (upd_conv f) (upd_conv f).
Proof using Type. by apply same_refl. Qed.
Lemma same_upd_run f : sim (upd_run f) (upd_run f).
Proof using Type. by apply same_refl. Qed.
Lemma same_upd_guards f : sim (upd_guards f) (upd_guards f).
Proof using Type. by apply same_refl. Qed.
Lemma same_upd_routing f : sim (upd_routing f) (upd_routing f).
Proof using Type. by apply same_refl. Qed.
Lemma same_set_plan p : sim (upd_answering (set_plan p)) (upd_answering (set_plan p)).
Proof using Type. by apply same_refl. Qed.
Lemma same_set_output p : sim (upd_answering (set_structured_output p)) (upd_answering (set_structured_output p)).
Proof using Type. by apply same_refl. Qed.
Lemma same_set_conv st : sim (modify (set_conv st)) (modify (set_conv st)).
Proof using Type. by apply same_refl. Qed.
Lemma same_set_manager m : sim (modify (set_manager m)) (modify (set_manager m)).
Proof using Type. by apply same_refl. Qed.
Lemma same_set_world w : sim (modify (set_world w)) (modify (set_world w)).
Proof using Type. by apply same_refl. Qed.
Lemma same_set_audit f : sim (modify (fun s => set_audit (f s) s)) (modify (fun s => set_audit (f s) s)).
Proof using Type. by apply same_refl. Qed.

Create HintDb same discriminated.
Hint Constants Opaque : same.
Hint Resolve same_ret same_throw same_block same_gets same_lift same_env same_env_ same_log same_upd_conv same_upd_run
  same_upd_guards same_upd_routing same_set_plan same_set_output same_set_conv same_set_manager same_set_world same_set_audit : same.

Ltac same_step :=
  lazymatch goal with
  | |- same _ (await _) _ => apply same_await
  | |- same _ (mbind _ _) (mbind _ _) => apply same_bind
  | |- same _ (catch _ _) (catch _ _) => apply same_catch
  | |- same _ (when _ _) (when _ _) => apply same_when
  | |- same _ (let '(_, _) := ?x in _) _ => destruct x
  | |- same _ (match ?x with _ => _ end) _ => destruct x
  end.

Ltac same_tac := repeat first [progress intros | solve [eauto 2 with same] | same_step].

Lemma s_context p : sim (context_of p) (context_of p).
Proof using Type. unfold context_of. same_tac. Qed.
Lemma s_cancelled : sim is_cancelled is_cancelled.
Proof using Type. unfold is_cancelled. same_tac. Qed.
Lemma s_record e : sim (record_audit e) (record_audit e).
Proof using Type. unfold record_audit. same_tac. Qed.
Lemma s_audit_result n r : sim (audit_result n r) (audit_result n r).
Proof using Type. apply s_record. Qed.
Lemma s_audit_call n i d : sim (audit_call n i d) (audit_call n i d).
Proof using Type. apply s_record. Qed.
Lemma s_add_result call r : sim (add_result cfg call r) (add_result cfg call r).
Proof using Type. apply same_upd_conv. Qed.
Lemma s_user t : sim (add_user t) (add_user t).
Proof using Type. apply same_upd_conv. Qed.
Lemma s_circuit_open t : sim (async_circuit_is_open t) (_circuit_is_open t).
Proof using Type. unfold async_circuit_is_open, _circuit_is_open. same_tac. Qed.
Lemma s_circuit_result n t r : sim (async_record_circuit_result n t r) (_record_circuit_result n t r).
Proof using Type. unfold async_record_circuit_result, _record_circuit_result. same_tac. Qed.
Hint Resolve s_context s_cancelled s_record s_audit_result s_audit_call s_add_result s_user s_circuit_open s_circuit_result : same.

Lemma s_emit ty p : sim (async_emit ty p) (_emit ty p).
Proof using Hnever. unfold async_emit, _emit. same_tac. Qed.
Lemma s_hooks p ctx : sim (async_trigger_hooks cfg p ctx) (_trigger_hooks cfg p ctx).
Proof using Hnever. unfold async_trigger_hooks, _trigger_hooks. same_tac. Qed.
Hint Resolve s_emit s_hooks : same.

Lemma s_finished call r : sim (async_emit_tool_call_finished call r) (_emit_tool_call_finished call r).
Proof using Hnever Hevents.
  unfold async_emit_tool_call_finished, _emit_tool_call_finished, async_preview. apply same_bind; [|same_tac].
  intros s Hs. pose proof (s_emit (u "agent.tool_call_finished") [(u "name", JStr (tc_name call)); (u "id", JStr (tc_id call));
    (u "is_error", JBool (is_error r)); (u "output_preview", JStr (redact_secrets (_preview (py_str (output r)))))] s Hs) as [-> Hi].
  unfold _emit. rewrite !bind_eq. cbn [gets]. unfold env_.
  pose proof (Hevents (_run_id (runst s)) call r (world s)) as He. cbn zeta in He. rewrite app_nil_r in He. cbn [app] in He.
  split; [|done]. f_equal. f_equal. exact He.
Qed.

Lemma s_deny call why i : sim (async_deny_call call why i) (_deny_call call why i).
Proof using Hnever. unfold async_deny_call, _deny_call. same_tac. Qed.
Lemma s_invoke t args : sim (async_invoke_tool t args) (_invoke_tool t args).
Proof using Hnever. unfold async_invoke_tool, _invoke_tool, returned. same_tac. Qed.
Hint Resolve s_finished s_deny s_invoke : same.

Definition known (t : Tool) : Prop := _tool_timeout cfg t = None.

Lemma s_run_tool t args : known t -> sim (async_run_tool cfg t args) (_run_tool cfg t args).
Proof using Hnever. unfold known, async_run_tool, _run_tool, async_tool_timeout. intros ->. apply s_invoke. Qed.
Hint Resolve s_run_tool : same.
Lemma s_retry call t args r : known t -> sim (async_retry_transient_tool cfg call t args r) (_retry_transient_tool cfg call t args r).
Proof using Hnever.
  intros Ht. unfold async_retry_transient_tool, _retry_transient_tool, async_max_transient_retries.
  generalize (Z.to_nat (_max_transient_retries cfg t)), 0%Z. intros left. revert r.
  induction left as [|left IH]; intros r k; cbn [async_retry_loop retry_loop]; same_tac.
Qed.
Lemma s_finalize call t args r : sim (async_finalize_call cfg call t args r) (_finalize_call cfg call t args r).
Proof using Hnever. unfold async_finalize_call, _finalize_call. same_tac. Qed.
Lemma s_confirmation call args d : sim (async_confirmation_status cfg call args d) (_confirmation_status cfg call args d).
Proof using Hnever. unfold async_confirmation_status, _confirmation_status. same_tac. Qed.
Lemma s_checkpoint : sim async_save_checkpoint save_checkpoint.
Proof using Hnever. unfold async_save_checkpoint, save_checkpoint, async_checkpoint_runtime_state. same_tac. Qed.
Hint Resolve s_retry s_finalize s_confirmation s_checkpoint : same.
Lemma s_save_pending : sim (async_save_pending_confirmation_checkpoint cfg) (_save_pending_confirmation_checkpoint cfg).
Proof using Hnever. unfold async_save_pending_confirmation_checkpoint, _save_pending_confirmation_checkpoint. same_tac. Qed.
Lemma s_before call : sim (async_before_hooks cfg call) (_before_hooks cfg call).
Proof using Hnever. unfold async_before_hooks, _before_hooks. same_tac. Qed.
Lemma s_admit call args : sim (async_admit cfg call args) (_admit cfg call args).
Proof using Type. unfold async_admit, _admit. same_tac. Qed.
Hint Resolve s_save_pending s_before s_admit : same.
Lemma s_prepare call : sim (async_prepare_call cfg call) (_prepare_call cfg call).
Proof using Hnever. unfold async_prepare_call, _prepare_call. same_tac. Qed.
Hint Resolve s_prepare : same.

Definition any_rel (_ _ : St M W) : Prop := True.

Lemma known_rel : ToolRel cfg any_rel (fun t _ _ => known t).
Proof using Hpath. destruct Hpath as (_ & _ & Hk). split; try done; [by intros t args s s' _|intros; by eapply Hk..]. Qed.

Lemma prepared_known call : ensures unverified (_prepare_call (M := M) (W := W) cfg call)
  (fun p _ => match p with Ready t _ => known t | Early _ _ => True end).
Proof using Hpath.
  pose proof known_rel as Hk. intros s _ p Hp. pose proof (prepare_ready cfg any_rel (fun t _ _ => known t) (fun _ => True) call s I p Hp).
  by destruct p.
Qed.

Lemma s_execute_one call : sim (async_execute_one cfg call) (_execute_one cfg call).
Proof using Hnever Hpath.
  unfold async_execute_one, _execute_one. eapply same_bind_post; [apply s_prepare|apply prepared_known|].
  intros [t args|args r] Hk; same_tac.
Qed.
Hint Resolve s_execute_one : same.

(** Without a checkpoint manager no call is left pending. *)
Lemma never_pending call : raises tame (_execute_one (M := M) (W := W) cfg call).
Proof using Hpath.
  pose proof (c_record (M := M) (W := W)) as Hrec. pose proof (c_deny (M := M) (W := W)) as Hdeny.
  pose proof (c_hooks (M := M) (W := W) cfg) as Hh. pose proof (c_context (M := M) (W := W)) as Hc.
  pose proof (c_run_tool (M := M) (W := W) cfg) as Hrun. pose proof (c_retry (M := M) (W := W) cfg call) as Hretry.
  pose proof (c_finalize (M := M) (W := W) cfg call) as Hfin. destruct Hpath as (_ & Hck & _).
  unfold _execute_one. apply raises_bind; [|intros p; apply raises_calm; calm_tac].
  unfold _prepare_call. apply raises_bind; [apply raises_calm; unfold _before_hooks; calm_tac|].
  intros [args|]; [|apply raises_calm, calm_ret].
  apply raises_bind; [by apply raises_lift|]. intros d.
  apply raises_bind; [apply raises_calm; unfold audit_call; calm_tac|]. intros _.
  destruct (negb (allowed d)); [apply raises_calm; calm_tac|].
  apply raises_bind; [apply raises_calm; unfold _confirmation_status; calm_tac|]. intros c.
  apply raises_bind; [apply raises_calm, calm_log|]. intros _. rewrite Hck, andb_false_r.
  destruct (_ && negb _); [apply raises_calm; calm_tac|]. by apply raises_admit.
Qed.

Lemma s_sequential calls any : sim (async_execute_sequentially cfg calls any) (execute_sequentially cfg calls any).
Proof using Hnever Hevents Hpath.
  revert any. induction calls as [|call calls IH]; intros any; cbn [async_execute_sequentially execute_sequentially]; [same_tac|].
  apply same_bind; [same_tac|]. intros []; [same_tac|]. apply same_bind; [same_tac|]. intros _.
  apply same_bind; [|same_tac]. apply (same_catch_post unverified tame); [same_tac|apply never_pending|].
  intros e [s0 He]. destruct e; [apply same_throw|done|apply same_throw].
Qed.
Lemma s_tool_calls calls : sim (async_execute_tool_calls cfg calls) (_execute_tool_calls cfg calls).
Proof using Hnever Hevents Hpath.
  unfold async_execute_tool_calls, _execute_tool_calls. destruct Hpath as [-> _]. apply s_sequential.
Qed.
Lemma s_persist : sim (async_persist_state cfg) (_persist_state cfg).
Proof using Hnever. unfold async_persist_state, _persist_state. same_tac. Qed.
Hint Resolve s_tool_calls s_persist : same.

Lemma s_resolve approved : sim (async_resolve_pending_confirmation cfg approved) (_resolve_pending_confirmation cfg approved).
Proof using Hnever Hevents Hpath.
  unfold async_resolve_pending_confirmation, _resolve_pending_confirmation. apply same_bind; [same_tac|].
  intros [p|]; [|same_tac]. apply same_bind; [same_tac|]. intros _. apply same_bind; [|same_tac].
  destruct approved; [|same_tac]. destruct (dict_get (tc_name (pc_call p)) (tools cfg)) as [t|] eqn:Et; [|same_tac].
  assert (known t) by (destruct Hpath as (_ & _ & Hk); by eapply Hk). same_tac.
Qed.

(** *** The loop *)

(** Escalation: the event the caller publishes is the one [escalate] publishes. *)
Lemma escalate_split (s : St M W) : mode (routing s) = FLASH ->
  let s1 := set_routing (escalated_routing (routing s)) s in
  async_escalate s = (Ret true, s1) /\ mode (routing s1) = MAX /\
  escalate s = (_emit (u "agent.escalated") [(u "from", JStr (mode_value FLASH)); (u "to", JStr (mode_value MAX))];; mret true) s1.
Proof using Type. destruct s as [c m [md er n [o|] sm] an ru g au w tr]; simpl; intros ->; repeat split. Qed.

Lemma s_escalate i t e : sim (async_maybe_escalate i t e) (_maybe_escalate i t e).
Proof using Hnever.
  intros s Hs. unfold async_maybe_escalate, _maybe_escalate. rewrite !bind_eq. cbn [gets].
  destruct (e || negb (bool_decide (mode (routing s) = FLASH))) eqn:E; [done|].
  destruct (((i =? 0)%Z && t) || _); [|done]. apply orb_false_iff in E as [_ E]. apply negb_false_iff, bool_decide_eq_true in E.
  destruct (escalate_split s E) as (Ha & Hm & ->). rewrite bind_eq. cbn [gets]. rewrite bind_eq, Ha, bind_eq. cbn [gets].
  rewrite E, Hm. revert Hs. intros Hs.
  assert (unverified (set_routing (escalated_routing (routing s)) s)) as Hs1 by done. clear Hs Hm.
  revert Hs1. generalize (set_routing (escalated_routing (routing s)) s). apply same_bind; [apply s_emit|same_tac].
Qed.

Lemma s_apply_mode m : sim (async_apply_mode m) (_apply_mode m).
Proof using Type. unfold async_apply_mode, _apply_mode. same_tac. Qed.
Hint Resolve s_escalate s_apply_mode : same.
Lemma s_classify msg : sim (async_classify_and_route msg) (_classify_and_route msg).
Proof using Hnever. unfold async_classify_and_route, _classify_and_route, async_first_user_message. same_tac. Qed.
Lemma s_pause_wait : sim async_pause_wait pause_wait.
Proof using Hnever. unfold async_pause_wait, pause_wait. same_tac. Qed.
Hint Resolve s_classify s_pause_wait : same.
Lemma s_inbox : sim (async_drain_inbox cfg) (_drain_inbox cfg).
Proof using Hnever.
  unfold async_drain_inbox, _drain_inbox. induction (drain_bound cfg) as [|n IH]; cbn [async_drain_loop drain_loop]; same_tac.
Qed.
Lemma s_compact : sim (async_maybe_compact_context cm cfg) (_maybe_compact_context cm cfg).
Proof using Hnever. unfold async_maybe_compact_context, _maybe_compact_context. same_tac. Qed.
Lemma s_usage r : sim (async_record_usage r) (_record_usage r).
Proof using Hnever. unfold async_record_usage, _record_usage. same_tac. Qed.
Hint Resolve s_inbox s_compact s_usage : same.
Lemma s_chat req : sim (async_chat_once req) (chat_once req).
Proof using Hnever. unfold async_chat_once, chat_once. same_tac. Qed.
Lemma s_consume es f : sim (async_consume es f) (consume es f).
Proof using Hnever. revert f; induction es as [|[] es IH]; intros f; cbn [async_consume consume]; same_tac. Qed.
Hint Resolve s_chat s_consume : same.
Lemma s_call_llm stream ap : sim (async_call_llm cfg stream ap) (_call_llm cfg stream ap).
Proof using Hnever. unfold async_call_llm, _call_llm. same_tac. Qed.
Lemma s_budget : sim async_budget_stop_message _budget_stop_message.
Proof using Hnever. unfold async_budget_stop_message, _budget_stop_message. same_tac. Qed.
Hint Resolve s_call_llm s_budget : same.

(** Without evidence to check, a conforming answer is accepted by both. *)
Lemma s_structured schema t n : sim (async_check_structured schema t n) (_check_structured schema t n).
Proof using Hnever.
  unfold async_check_structured, _check_structured. apply same_bind; [same_tac|]. intros [value|problems]; [|same_tac].
  apply same_bind; [same_tac|]. intros _ s Hs. rewrite !bind_eq. cbn [gets]. unfold unverified in Hs. rewrite Hs. cbn [when].
  rewrite !bind_eq. cbn [mret a_ret]. rewrite bind_eq.
  destruct (s_emit (u "agent.structured_output_parsed") [(u "schema", schema)] s Hs) as [-> Hi].
  destruct (_emit (u "agent.structured_output_parsed") [(u "schema", schema)] s) as [[[]|e| |] s1]; done.
Qed.
Lemma s_not_verified {T} a f : sim (async_raise_answer_not_verified (T := T) a f) (_raise_answer_not_verified a f).
Proof using Hnever. unfold async_raise_answer_not_verified, _raise_answer_not_verified. same_tac. Qed.
Lemma s_plan msg : sim (async_create_plan cfg msg) (_create_plan cfg msg).
Proof using Hnever. unfold async_create_plan, _create_plan, async_tool_schemas. same_tac. Qed.
Lemma s_verify a : sim (async_verify_final_answer a) (_verify_final_answer a).
Proof using Hnever. unfold async_verify_final_answer, _verify_final_answer. same_tac. Qed.
Lemma s_recall q : sim (async_recall_memory cfg q) (_recall_memory cfg q).
Proof using Hnever. unfold async_recall_memory, _recall_memory. same_tac. Qed.
Lemma s_store q t : sim (async_store_memory q t) (_store_memory q t).
Proof using Hnever. unfold async_store_memory, _store_memory. same_tac. Qed.
Lemma s_clear : sim async_clear_working_memory _clear_working_memory.
Proof using Hnever. unfold async_clear_working_memory, _clear_working_memory. same_tac. Qed.
Lemma s_cancelled_at l : sim (async_cancelled_at l) (cancelled_at l).
Proof using Hnever. unfold async_cancelled_at, cancelled_at. same_tac. Qed.
Hint Resolve s_structured s_not_verified s_plan s_verify s_recall s_store s_clear s_cancelled_at : same.
Lemma s_final_answer o l t : sim (async_final_answer cfg o l t) (_final_answer cfg o l t).
Proof using Hnever. unfold async_final_answer, _final_answer. same_tac. Qed.
Lemma s_turn stream l hr : sim (async_turn cfg stream l hr) (_turn cfg stream l hr).
Proof using Hnever.
  unfold async_turn, _turn, async_system_prompt_append, async_assistant_content. same_tac.
Qed.
Lemma s_round l calls : sim (async_tool_round cfg l calls) (_tool_round cfg l calls).
Proof using Hnever Hevents Hpath. unfold async_tool_round, _tool_round. same_tac. Qed.
Hint Resolve s_final_answer s_turn s_round : same.
Lemma s_iteration stream o l : sim (async_iteration cm cfg stream o l) (_iteration cm cfg stream o l).
Proof using Hnever Hevents Hpath. unfold async_iteration, _iteration, async_first_user_message. same_tac. Qed.
Lemma s_cap l : sim (async_cap_reached l) (_cap_reached l).
Proof using Hnever. unfold async_cap_reached, _cap_reached. same_tac. Qed.
Hint Resolve s_iteration s_cap : same.
Lemma s_run_loop stream o n : sim (async_run_loop cm cfg stream o n) (_run_loop cm cfg stream o n).
Proof using Hnever Hevents Hpath.
  unfold async_run_loop, _run_loop. apply same_bind; [same_tac|]. intros r. generalize (MkLoop [] 0 false (default DEFAULT_STRUCTURED_RETRIES n) (max_verification_retries cfg) None).
  induction (loop_fuel r) as [|fuel IH]; intros l; cbn [async_loop loop]; same_tac. by apply same_refl.
Qed.
Lemma s_start msg : sim (async_start_run cfg msg) (start_run cfg msg).
Proof using Hnever. unfold async_start_run, start_run, clear_cancel. same_tac. Qed.
Lemma s_finish msg t : sim (async_finish_run cfg msg t) (finish_run cfg msg t).
Proof using Hnever. unfold async_finish_run, finish_run. same_tac. Qed.
Hint Resolve s_run_loop s_start s_finish : same.

(** Sequencing, from one state; [ok] is what is known of the whole outcome. *)
Lemma bind_alike {T U} (ok : outcome U -> Prop) (m m' : A M W T) (f f' : T -> A M W U) s :
  unverified s -> sim m m' -> ok ((m' ≫= f') s).1 ->
  (forall x s1, unverified s1 -> ok (f' x s1).1 -> f x s1 = f' x s1) -> (m ≫= f) s = (m' ≫= f') s.
Proof using Type.
  intros Hs Hm Hok Hf. rewrite !bind_eq in *. destruct (Hm s Hs) as [-> Hi].
  destruct (m' s) as [[x|e| |] s1]; try done. by apply Hf.
Qed.

Definition not_cancelled {T} (o : outcome T) : Prop := forall e, o = Raise e -> is_cancelled_error e = false.

Lemma failed_alike {T} e (s : St M W) : unverified s -> is_cancelled_error e = false ->
  async_run_failed cfg (T := T) e s = run_failed cfg e s /\ unverified (run_failed cfg (T := T) e s).2.
Proof using Hnever.
  intros Hs He. unfold async_run_failed, run_failed. rewrite He.
  assert (forall e', sim (ctx ← context_of ON_ERROR;
    async_trigger_hooks cfg ON_ERROR (with_texts ctx None None (Some (exn_class e' ++ u ": " ++ exn_text e')));;
    async_emit (u "agent.error") [(u "reason", JStr (u "exception")); (u "error", JStr (exn_text e'))];;
    when (has_memory cfg) async_clear_working_memory;; throw (T := T) e')
   (ctx ← context_of ON_ERROR;
    _trigger_hooks cfg ON_ERROR (with_texts ctx None None (Some (exn_class e' ++ u ": " ++ exn_text e')));;
    _emit (u "agent.error") [(u "reason", JStr (u "exception")); (u "error", JStr (exn_text e'))];;
    when (has_memory cfg) _clear_working_memory;; throw e')) as Hsim by (intros e'; same_tac).
  destruct e; [by apply (Hsim (EPy e))|done|by apply (Hsim (ENotVerified answer feedback))].
Qed.

(** The handler re-raises what it caught. *)
Lemma failed_raises {T} e (s : St M W) : exists s1, run_failed cfg (T := T) e s = (Raise e, s1).
Proof using Type.
  assert (forall (m : A M W unit) (s0 : St M W), (exists s1, m s0 = (Ret tt, s1)) -> exists s1, (m;; throw (T := T) e) s0 = (Raise e, s1)) as Hgen.
  { intros m s0 [s1 Hm]. rewrite bind_eq, Hm. by eexists. }
  assert (forall s0 : St M W, exists s1, when (has_memory cfg) _clear_working_memory s0 = (Ret tt, s1)) as Hmem.
  { intros s0. destruct (has_memory cfg); [|by eexists]. unfold when, _clear_working_memory. rewrite bind_eq. cbn [gets].
    destruct (_run_id (runst s0)) as [i|]; [|by eexists]. rewrite bind_eq. unfold env at 1.
    destruct (memory_clear_working i (world s0)) as [[x|ex] w]; [by eexists|].
    edestruct (emit_world (M := M) (W := W)) as [w' ->]. by eexists. }
  assert (forall s0 : St M W, exists s1, (ctx ← context_of ON_ERROR;
    _trigger_hooks cfg ON_ERROR (with_texts ctx None None (Some (exn_class e ++ u ": " ++ exn_text e)));;
    _emit (u "agent.error") [(u "reason", JStr (u "exception")); (u "error", JStr (exn_text e))];;
    when (has_memory cfg) _clear_working_memory;; throw (T := T) e) s0 = (Raise e, s1)) as Hall.
  { intros s0.
    assert (exists l w, _trigger_hooks cfg ON_ERROR (with_texts (hook_context ON_ERROR (_run_id (runst s0))) None None
      (Some (exn_class e ++ u ": " ++ exn_text e))) s0 = (Ret l, set_world w s0)) as (l & w & Hh).
    { unfold _trigger_hooks. destruct (has_hooks cfg); [|exists [], (world s0); by destruct s0].
      unfold env. destruct (run_hook _ _ (world s0)) as [l w]. by exists l, w. }
    rewrite bind_eq. unfold context_of at 1. rewrite bind_eq. cbn [gets mret a_ret]. rewrite bind_eq, Hh, bind_eq.
    edestruct (emit_world (M := M) (W := W)) as [w' ->]. apply Hgen, Hmem. }
  unfold run_failed. destruct e; [apply Hall|by eexists|apply Hall].
Qed.

Lemma catch_alike stream o n s : unverified s ->
  not_cancelled (catch (_run_loop cm cfg stream o n) (run_failed cfg) s).1 ->
  catch (async_run_loop cm cfg stream o n) (async_run_failed cfg) s = catch (_run_loop cm cfg stream o n) (run_failed cfg) s /\
  unverified (catch (_run_loop cm cfg stream o n) (run_failed cfg) s).2.
Proof using Hnever Hevents Hpath.
  intros Hs Hok. unfold catch in *. destruct (s_run_loop stream o n s Hs) as [-> Hi].
  destruct (_run_loop cm cfg stream o n s) as [[x|e| |] s1]; try done. simpl in Hi.
  destruct (failed_raises (T := pystr) e s1) as [s2 Hf]. assert (is_cancelled_error e = false) as He by (apply Hok; by rewrite Hf).
  by apply failed_alike.
Qed.

(** What follows the attribute assignments at the head of [run]. *)
Lemma body_alike (resuming : bool) msg stream schema retries s : unverified s ->
  let body recall start loop finish : A M W pystr :=
    (match msg with Some q => when (has_memory cfg) (recall q) | None => mret tt end;;
     match composed_message msg schema with Some text => add_user text | None => mret tt end;;
     when (negb resuming) start;;
     text ← loop; finish text;; mret text) in
  let async_body := body (async_recall_memory cfg) (async_start_run cfg msg)
    (catch (async_run_loop cm cfg stream schema retries) (async_run_failed cfg)) (async_finish_run cfg msg) in
  let sync_body := body (_recall_memory cfg) (start_run cfg msg)
    (catch (_run_loop cm cfg stream schema retries) (run_failed cfg)) (finish_run cfg msg) in
  not_cancelled (sync_body s).1 -> async_body s = sync_body s.
Proof using Hnever Hevents Hpath.
  intros Hs. cbv zeta. intros Hok. apply (bind_alike not_cancelled); [done|same_tac|done|]. clear s Hs Hok. intros _ s Hs Hok.
  apply (bind_alike not_cancelled); [done|same_tac|done|]. clear s Hs Hok. intros _ s Hs Hok.
  apply (bind_alike not_cancelled); [done|same_tac|done|]. clear s Hs Hok. intros _ s Hs Hok.
  rewrite !bind_eq in *. destruct (catch_alike stream schema retries s Hs) as [-> Hi].
  { intros e He. apply Hok. destruct (catch _ _ s) as [[x|e'| |] s1]; try done; simpl in *; naive_solver. }
  destruct (catch (_run_loop cm cfg stream schema retries) (run_failed cfg) s) as [[x|e'| |] s1]; try done.
  apply (bind_alike not_cancelled); [done|same_tac|done|]. done.
Qed.

Lemma run_alike s msg stream schema retries :
  verification_evidence (answering s) = None -> unverified s ->
  not_cancelled (run cm cfg msg stream schema retries (Some false) s).1 ->
  async_run cm cfg msg stream schema retries s = run cm cfg msg stream schema retries (Some false) s.
Proof using Hnever Hevents Hpath.
  intros He Hs. set (s1 := set_answering (set_structured_output None (answering s)) s).
  assert (unverified s1) as Hs1 by done.
  assert (forall k : A M W pystr, (upd_answering (set_evidence None);; upd_answering (set_effective_verify false);; k) s1 = k s1) as Hskip.
  { intros k. subst s1. destruct s as [c m r [so ev efv p] ru g au w tr]. unfold unverified in Hs. simpl in *. by subst. }
  assert (exists k, run cm cfg msg stream schema retries (Some false) s = k s1 /\
    (not_cancelled (k s1).1 -> async_run cm cfg msg stream schema retries s = k s1)) as (k & -> & Hk); [|exact Hk].
  eexists. split.
  - unfold run. rewrite bind_eq. cbn [gets]. rewrite bind_eq. cbn [upd_answering modify]. fold s1. apply Hskip.
  - unfold async_run. rewrite bind_eq. cbn [gets]. rewrite bind_eq. cbn [upd_answering modify]. fold s1.
    destruct (negb _); [|done]. destruct schema; apply (body_alike _ msg stream _ retries s1 Hs1).
Qed.
End Equivalence.

