(* ===== verification/AsyncReplay.v ===== *)
(** * The asynchronous agent: what a batch of calls leaves in the history

    A batch appends one result per call, in the order of the calls, and returns
    only when all are answered. A cancellation of the task may stop it anywhere:
    the calls it had not reached stay open. *)

From stdpp Require Import base gmap strings list.
From Stdlib Require Import ZArith Lia SpecFloat.
From S2P Require Import Prelude Json Types Validation TextCompact Summary Conversation EventBus Redact Hooks.
From S2P Require Import Context Compaction Policy Budgets Structured AgentState AgentTools AgentLoop AgentFrame AgentSafety AgentBounds.
From S2P Require Import AgentReplay AgentScenario AsyncTools AsyncLoop AsyncFrame AsyncAgent.

(** ** Which exceptions a method raises *)

Section Plain.
Context `{PyRuntime} `{SecretPatterns} {M W : Type} `{EventSink W} `{AgentEnv W} `{AsyncEnv W} `{PermissionPolicy} (cfg : Config).
Context (Q : aexn -> St M W -> Prop) (HQ : forall x s, Q (EPy x) s).

Abbreviation plain m := (raises (M := M) (W := W) Q m).

Lemma p_calm {T} (m : A M W T) : calm m -> plain m.
Proof using Type. apply raises_calm. Qed.
Lemma p_await {T} (m : A M W T) : plain m -> plain (await m).
Proof using HQ.
  intros Hm. unfold await. apply raises_bind; [apply p_calm, calm_env|]. intros []; [|done]. intros s e s' [= <- <-]. apply HQ.
Qed.
Lemma p_lift {T} (r : result T) : plain (lift r).
Proof using HQ. apply raises_lift. intros. apply HQ. Qed.
Lemma p_when b m : plain m -> plain (when b m).
Proof using Type. intros Hm. destruct b; [done|]. apply p_calm, calm_ret. Qed.

Create HintDb plain discriminated.
Hint Constants Opaque : plain.

Ltac plain_step :=
  lazymatch goal with
  | |- raises _ (await _) => apply p_await
  | |- raises _ (lift _) => apply p_lift
  | |- raises _ (when _ _) => apply p_when
  | |- raises _ (mbind _ _) => apply raises_bind
  | |- raises _ (let '(_, _) := ?x in _) => destruct x
  | |- raises _ (match ?x with _ => _ end) => destruct x
  | |- raises _ _ => apply p_calm; solve [eauto 2 with calm | calm_tac]
  end.

Ltac plain_tac := repeat first [progress intros | solve [eauto 2 with plain] | plain_step].

Lemma p_context p : plain (context_of p).
Proof using Type. apply p_calm, c_context. Qed.
Lemma p_cancelled : plain is_cancelled.
Proof using Type. apply p_calm, c_cancelled. Qed.
Lemma p_record e : plain (record_audit e).
Proof using Type. apply p_calm, c_record. Qed.
Lemma p_audit_result n r : plain (audit_result n r).
Proof using Type. apply p_record. Qed.
Lemma p_audit_call n i d : plain (audit_call n i d).
Proof using Type. apply p_record. Qed.
Lemma p_circuit n t r : plain (async_record_circuit_result n t r).
Proof using Type. apply p_calm, c_circuit. Qed.
Lemma p_add call r : plain (add_result cfg call r).
Proof using Type. apply p_calm, c_add. Qed.
Hint Resolve p_context p_cancelled p_record p_audit_result p_audit_call p_circuit p_add : plain.

Lemma p_emit ty p : plain (async_emit ty p).
Proof using HQ. unfold async_emit. plain_tac. Qed.
Lemma p_hooks p ctx : plain (async_trigger_hooks cfg p ctx).
Proof using HQ. unfold async_trigger_hooks. plain_tac. Qed.
Hint Resolve p_emit p_hooks : plain.
Lemma p_finished call r : plain (async_emit_tool_call_finished call r).
Proof using HQ. unfold async_emit_tool_call_finished. plain_tac. Qed.
Lemma p_deny call why i : plain (async_deny_call call why i).
Proof using HQ. unfold async_deny_call. plain_tac. Qed.
Lemma p_invoke t args : plain (async_invoke_tool t args).
Proof using HQ. unfold async_invoke_tool, returned. plain_tac. Qed.
Hint Resolve p_finished p_deny p_invoke : plain.
Lemma p_run_tool t args : plain (async_run_tool cfg t args).
Proof using HQ. unfold async_run_tool, returned. plain_tac. Qed.
Hint Resolve p_run_tool : plain.
Lemma p_retry call t args r : plain (async_retry_transient_tool cfg call t args r).
Proof using HQ.
  unfold async_retry_transient_tool. generalize (Z.to_nat (async_max_transient_retries cfg t)), 0%Z. intros left. revert r.
  induction left as [|left IH]; intros r k; cbn [async_retry_loop]; plain_tac.
Qed.
Lemma p_finalize call t args r : plain (async_finalize_call cfg call t args r).
Proof using HQ. unfold async_finalize_call. plain_tac. Qed.
Lemma p_save_checkpoint : plain async_save_checkpoint.
Proof using HQ. unfold async_save_checkpoint. plain_tac. Qed.
Hint Resolve p_retry p_finalize p_save_checkpoint : plain.
Lemma p_save : plain (async_save_pending_confirmation_checkpoint cfg).
Proof using HQ. unfold async_save_pending_confirmation_checkpoint. plain_tac. Qed.
Lemma p_confirmation call args d : plain (async_confirmation_status cfg call args d).
Proof using HQ. unfold async_confirmation_status. plain_tac. Qed.
Lemma p_before call : plain (async_before_hooks cfg call).
Proof using HQ. unfold async_before_hooks. plain_tac. Qed.
Lemma p_admit call args : plain (async_admit cfg call args).
Proof using HQ. rewrite admit_same. by apply raises_admit. Qed.
Hint Resolve p_save p_confirmation p_before p_admit : plain.

Lemma p_gather slots : plain (gather_slots cfg slots).
Proof using HQ.
  assert (forall l, plain (log_all l)) as Hl.
  { induction l as [|[t a] l IH]; cbn [log_all]; [apply p_calm, calm_ret|]. apply raises_bind; [apply p_calm, calm_log|done]. }
  unfold gather_slots. plain_tac.
Qed.
Lemma p_record_landed cl : plain (async_record_landed cfg cl).
Proof using HQ. destruct cl as [call []]; cbn [async_record_landed]; plain_tac. Qed.
Hint Resolve p_gather p_record_landed : plain.
Lemma p_traverse {T U} (f : T -> A M W U) l : (forall x, plain (f x)) -> plain (traverse f l).
Proof using Type.
  intros Hf. induction l as [|x l IH]; cbn [traverse]; [apply p_calm, calm_ret|].
  apply raises_bind; [done|]. intros y. apply raises_bind; [done|]. intros ys. apply p_calm, calm_ret.
Qed.
Lemma p_dispatch calls slots : plain (async_dispatch_and_record cfg calls slots).
Proof using HQ.
  unfold async_dispatch_and_record. apply raises_bind; [apply p_gather|]. intros ls.
  apply raises_bind; [apply p_traverse, p_record_landed|]. intros es. apply p_calm, calm_ret.
Qed.

Lemma p_persist : plain (async_persist_state cfg).
Proof using HQ. unfold async_persist_state. plain_tac. Qed.

(** Gating raises an ordinary exception, or leaves the call pending. *)
Lemma p_prepare call : (forall p i s, pc_call p = call -> _pending_confirmation (runst s) = Some p -> Q (EPending p i) s) ->
  plain (async_prepare_call cfg call).
Proof using HQ.
  intros HP. unfold async_prepare_call. apply raises_bind; [apply p_before|]. intros [args|]; [|apply p_calm, calm_ret].
  apply raises_bind; [apply p_lift|]. intros d. apply raises_bind; [apply p_audit_call|]. intros _.
  destruct (negb (allowed d)); [plain_tac|]. apply raises_bind; [apply p_confirmation|]. intros c.
  apply raises_bind; [apply p_calm, calm_log|]. intros _. destruct (_ && has_checkpoint_manager cfg); [|plain_tac].
  set (p := {| pc_call := call; pc_arguments := args; pc_decision := d |}).
  intros s e s'. rewrite bind_eq. cbn [upd_run modify]. set (s1 := set_runst (set_pending (Some p) (runst s)) s).
  rewrite bind_eq. pose proof (p_save_checkpoint s1) as Hr.
  pose proof (same_pending_tool_rel (M := M) (W := W) cfg) as Hframe.
  pose proof (a_checkpoint cfg same_pending (fun _ _ _ => True) (fun _ => True) (stable_true _) s1 I) as [Hp _].
  destruct (async_save_checkpoint s1) as [[i|e1| |] s2]; simpl in *; try done.
  - intros [= <- <-]. by apply HP.
  - intros [= -> ->]. by apply Hr.
Qed.
End Plain.

(** ** How far a batch gets *)

Section Batch.
Context `{PyRuntime} `{SecretPatterns} {M W : Type} `{EventSink W} `{AgentEnv W} `{AsyncEnv W} `{PermissionPolicy} (cfg : Config).
Implicit Types s : St M W.

(** A call waits for a human: it is recorded with the calls after it, or, by the
    sequential path, only they are. *)
Definition left_pending (rest : list ToolCall) (p : Pending) s : Prop :=
  _pending_confirmation (runst s) = Some p /\
  exists later, rest = pc_call p :: later /\
    (_pending_remaining_calls (runst s) = later \/ _pending_remaining_calls (runst s) = rest).

(** What a batch that leaves [rest] unanswered may raise; [CancelledError] is one of the [EPy]. *)
Definition stops_with (rest : list ToolCall) (e : aexn) s : Prop :=
  match e with
  | EPy _ => True
  | EPending p _ => left_pending rest p s
  | ENotVerified _ _ => False
  end.

(** The calls answered, in order, and those left. *)
Definition progress {T} (calls : list ToolCall) s (o : outcome T) s' : Prop :=
  exists done rest rs, calls = done ++ rest /\ length rs = length done /\
    conv s' = append_all (conv s) (answered cfg done rs) /\
    (forall x, o = Ret x -> rest = []) /\
    (forall e, o = Raise e -> stops_with rest e s').

(** [m] gets so far from any state. *)
Definition gets_to {T} (calls : list ToolCall) (m : A M W T) : Prop := forall s, progress calls s (m s).1 (m s).2.

Abbreviation quiet_conv m := (keeps (fun _ => True) (same_conv (M := M) (W := W)) m).
Abbreviation ordinary := (fun (e : aexn) (_ : St M W) => exists x, e = EPy x).

Lemma ordinary_py x s : ordinary (EPy x) s.
Proof using Type. by exists x. Qed.

Lemma progress_stop {T} calls s (o : outcome T) s' :
  conv s' = conv s -> (forall x, o <> Ret x) -> (forall e, o = Raise e -> stops_with calls e s') -> progress calls s o s'.
Proof using Type.
  intros Hc Hr Hp. exists [], calls, []. do 3 (split; [done|]). split; [|done]. intros x Ho. by destruct (Hr x).
Qed.

Lemma progress_from {T} calls s s1 (o : outcome T) s' : conv s1 = conv s -> progress calls s1 o s' -> progress calls s o s'.
Proof using Type. intros Hc. unfold progress. by rewrite Hc. Qed.

(** A step that says nothing and raises only ordinary exceptions comes before. *)
Lemma bind_gets_to {T U} calls (m : A M W T) (f : T -> A M W U) :
  quiet_conv m -> raises ordinary m -> (forall x, gets_to calls (f x)) -> gets_to calls (m ≫= f).
Proof using Type.
  intros Hq Hr Hf s. rewrite bind_eq. specialize (Hq s I). specialize (Hr s). unfold same_conv in Hq.
  destruct (m s) as [[x|e| |] s1]; simpl in *; [by eapply progress_from, Hf| |by apply progress_stop..].
  destruct (Hr e s1 eq_refl) as [x ->]. apply progress_stop; [done|done|]. by intros ? [= <-].
Qed.

Lemma add_gets_to {T} call r calls (f : unit -> A M W T) :
  gets_to calls (f tt) -> gets_to (call :: calls) (add_result cfg call r ≫= f).
Proof using Type.
  intros Hf s. rewrite bind_eq, add_result_conv. cbv beta iota.
  destruct (Hf (set_conv (append_message (conv s) (result_message cfg call r)) s)) as (d & rest & rs & -> & Hl & Hc & Hr & He).
  exists (call :: d), rest, (r :: rs). split; [done|]. split; [by simpl; f_equal|]. by rewrite Hc.
Qed.

Lemma gets_to_mono {T} calls (m : A M W T) s : gets_to calls m -> progress calls s (m s).1 (m s).2.
Proof using Type. intros Hm. apply Hm. Qed.

Lemma ret_gets_to {T} (x : T) : gets_to [] (mret x).
Proof using Type. intros s. exists [], [], []. by repeat split. Qed.

(** [same_conv] as a frame for every method. *)
Abbreviation conv_frame := (same_conv_tool_rel (M := M) (W := W) cfg).

Lemma q_cancelled : quiet_conv is_cancelled.
Proof using cfg H4. pose proof conv_frame. by apply (a_cancelled cfg same_conv (fun _ _ _ => True)). Qed.
Lemma q_async_emit ty p : quiet_conv (async_emit ty p).
Proof using cfg H4. pose proof conv_frame. by apply (a_emit cfg same_conv (fun _ _ _ => True)). Qed.
Lemma q_finished call r : quiet_conv (async_emit_tool_call_finished call r).
Proof using cfg H4. pose proof conv_frame. by apply (a_finished cfg same_conv (fun _ _ _ => True)). Qed.
Lemma q_prepare call : quiet_conv (async_prepare_call cfg call).
Proof using Type.
  pose proof conv_frame. pose proof (same_conv_pend_rel (M := M) (W := W)).
  by apply (a_prepare cfg same_conv (fun _ _ _ => True)).
Qed.
Lemma q_execute_one call : quiet_conv (async_execute_one cfg call).
Proof using Type.
  pose proof conv_frame. pose proof (same_conv_pend_rel (M := M) (W := W)).
  by apply (a_execute_one cfg same_conv (fun _ _ _ => True)).
Qed.
Lemma q_save : quiet_conv (async_save_pending_confirmation_checkpoint cfg).
Proof using cfg H4.
  pose proof conv_frame. unfold async_save_pending_confirmation_checkpoint, when. destruct (has_checkpoint_manager cfg); [|by intros s _].
  apply keeps_bind; [apply (tr_trans (cfg := cfg))|done|by apply (a_checkpoint cfg same_conv (fun _ _ _ => True))|].
  intros i s _. done.
Qed.

(** A call gated so may be left pending. *)
Definition gated_so (call : ToolCall) (e : aexn) s : Prop :=
  match e with
  | EPy _ => True
  | EPending p _ => pc_call p = call /\ _pending_confirmation (runst s) = Some p
  | ENotVerified _ _ => False
  end.

Lemma raises_gated call : raises (gated_so call) (async_prepare_call cfg call).
Proof using Type. by apply p_prepare. Qed.

Lemma raises_executed call : raises (gated_so call) (async_execute_one cfg call).
Proof using Type.
  unfold async_execute_one. apply raises_bind; [apply raises_gated|]. intros [t args|args r]; [|apply raises_calm, calm_ret].
  apply raises_bind; [by apply p_run_tool|]. intros r. apply raises_bind; [by apply p_retry|]. intros r'.
  apply raises_bind; [by apply p_finalize|]. intros _. apply raises_calm, calm_ret.
Qed.

(** The bookkeeping of a pending call: the calls left are recorded and the
    checkpoint is saved again, unless saving fails or the task is cancelled. *)
Lemma saved_pending {T} rest p i s (o : outcome T) s' :
  _pending_confirmation (runst s) = Some p ->
  (upd_run (set_remaining_calls rest);; async_save_pending_confirmation_checkpoint cfg;; throw (EPending p i)) s = (o, s') ->
  conv s' = conv s /\ (forall x, o <> Ret x) /\
  forall e, o = Raise e -> (exists x, e = EPy x) \/
    e = EPending p i /\ _pending_confirmation (runst s') = Some p /\ _pending_remaining_calls (runst s') = rest.
Proof using cfg H4.
  intros Hp. rewrite bind_eq. cbn [upd_run modify]. set (s1 := set_runst _ s). rewrite bind_eq.
  pose proof (q_save s1 I) as Hq. pose proof (p_save cfg ordinary ordinary_py s1) as Hr. unfold same_conv in Hq.
  assert (keeps (fun _ => True) same_pending (async_save_pending_confirmation_checkpoint (M := M) (W := W) cfg)) as Hk.
  { unfold async_save_pending_confirmation_checkpoint, when. destruct (has_checkpoint_manager cfg); [|by intros ? _].
    pose proof (same_pending_tool_rel (M := M) (W := W) cfg).
    apply keeps_bind; [apply (tr_trans (cfg := cfg))|done|by apply (a_checkpoint cfg same_pending (fun _ _ _ => True))|].
    intros j s0 _. done. }
  specialize (Hk s1 I) as [Hk1 Hk2].
  destruct (async_save_pending_confirmation_checkpoint cfg s1) as [[[]|e| |] s2]; simpl in *; intros [= <- <-];
    (split; [done|]); (split; [done|]); intros e' [= <-].
  - right. rewrite Hk1, Hk2. done.
  - left. by apply (Hr e s2).
Qed.

Lemma sequential_gets_to calls any : gets_to calls (async_execute_sequentially cfg calls any).
Proof using Type.
  revert any; induction calls as [|call calls IH]; intros any; cbn [async_execute_sequentially]; [apply ret_gets_to|].
  apply bind_gets_to; [apply q_cancelled|apply p_cancelled|]. intros []; [by apply add_gets_to|].
  apply bind_gets_to; [apply q_async_emit|apply p_emit, ordinary_py|]. intros _ s. rewrite bind_eq. unfold catch.
  pose proof (q_execute_one call s I) as Hq. pose proof (raises_executed call s) as Hr. unfold same_conv in Hq.
  destruct (async_execute_one cfg call s) as [[r|e| |] s1]; simpl in *.
  - apply (progress_from _ _ s1); [done|].
    change (progress (call :: calls) s1 ((async_emit_tool_call_finished call r;; add_result cfg call r;;
      async_execute_sequentially cfg calls (any || is_error r)) s1).1 ((async_emit_tool_call_finished call r;; add_result cfg call r;;
      async_execute_sequentially cfg calls (any || is_error r)) s1).2).
    apply gets_to_mono, bind_gets_to; [apply q_finished|apply p_finished, ordinary_py|]. intros _. by apply add_gets_to.
  - specialize (Hr e s1 eq_refl). destruct e as [e|p i|? ?]; [by apply progress_stop; [| |intros ? [= <-]]| |done].
    destruct Hr as [Hc Hp]. unfold async_pending_handler. rewrite bind_eq. cbn [mret a_ret].
    destruct ((upd_run (set_remaining_calls calls);; async_save_pending_confirmation_checkpoint cfg;; throw (EPending p i)) s1)
      as [o s2] eqn:E. destruct (saved_pending _ _ _ _ _ _ Hp E) as (Hcv & Hn & He).
    assert (forall U (o' : outcome U), (forall x, o' <> Ret x) -> (forall e, o' = Raise e -> o = Raise e) ->
      progress (call :: calls) s o' s2) as Hgo.
    { intros U o' Ho' Hoe. apply progress_stop; [congruence|done|]. intros e Ho. apply Hoe in Ho.
      destruct (He e Ho) as [[x ->]|(-> & Hp' & Hr')]; [done|]. split; [done|]. exists calls. rewrite Hc. auto. }
    revert E. unfold mbind at 1. intros E. destruct o as [x|e| |]; [by destruct (Hn x)|..]; simpl; rewrite ?E; apply Hgo; naive_solver.
  - by apply progress_stop.
  - by apply progress_stop.
Qed.
(** *** The parallel path *)

Lemma gets_to_eq {T} calls (m m' : A M W T) : (forall s, m s = m' s) -> gets_to calls m' -> gets_to calls m.
Proof using Type. intros Heq Hm s. rewrite Heq. apply Hm. Qed.

Lemma bind_assoc {T U V} (m : A M W T) (f : T -> A M W U) (g : U -> A M W V) s :
  ((m ≫= f) ≫= g) s = (m ≫= (fun x => f x ≫= g)) s.
Proof using Type. rewrite !bind_eq. by destruct (m s) as [[x|e| |] s1]. Qed.

(** Answering [c1], and then [c2]. *)
Lemma seq_gets_to {T U} c1 c2 (m : A M W T) (f : T -> A M W U) :
  gets_to c1 m -> raises ordinary m -> (forall x, gets_to c2 (f x)) -> gets_to (c1 ++ c2) (m ≫= f).
Proof using Type.
  intros Hm Hr Hf s. rewrite bind_eq. destruct (Hm s) as (d & rest & rs & -> & Hl & Hc & Hret & He). specialize (Hr s).
  destruct (m s) as [[x|e| |] s1]; simpl in *.
  - assert (rest = []) as -> by by eapply Hret. rewrite app_nil_r.
    destruct (Hf x s1) as (d2 & rest2 & rs2 & -> & Hl2 & Hc2 & Hr2 & He2). exists (d ++ d2), rest2, (rs ++ rs2).
    rewrite app_assoc. split; [done|]. split; [rewrite !length_app; lia|]. split; [|done].
    rewrite Hc2, Hc. unfold append_all, answered. rewrite zip_with_app by done. by rewrite foldl_app.
  - destruct (Hr e s1 eq_refl) as [x ->]. exists d, (rest ++ c2), rs. rewrite app_assoc. do 3 (split; [done|]).
    split; [done|]. by intros ? [= <-].
  - exists d, (rest ++ c2), rs. by rewrite app_assoc.
  - exists d, (rest ++ c2), rs. by rewrite app_assoc.
Qed.

Lemma landed_gets_to call l : gets_to [call] (async_record_landed cfg (call, l)).
Proof using cfg H4.
  pose proof conv_frame. destruct l as [sk r|t args r]; cbn [async_record_landed].
  - apply bind_gets_to.
    + apply keeps_when; [apply (tr_refl (cfg := cfg))|apply q_finished].
    + apply p_when, p_finished, ordinary_py.
    + intros _. apply add_gets_to, ret_gets_to.
  - apply bind_gets_to; [|apply p_retry, ordinary_py|intros r'].
    { intros s _. by apply (a_retry cfg same_conv (fun _ _ _ => True)). }
    apply bind_gets_to; [by apply (a_finalize cfg same_conv (fun _ _ _ => True))|apply p_finalize, ordinary_py|intros _].
    apply bind_gets_to; [apply q_finished|apply p_finished, ordinary_py|intros _]. apply add_gets_to, ret_gets_to.
Qed.

Lemma record_gets_to cls : gets_to (map fst cls) (traverse (async_record_landed cfg) cls).
Proof using cfg H4.
  induction cls as [|[call l] cls IH]; cbn [traverse map]; [apply ret_gets_to|].
  apply (seq_gets_to [call]); [apply landed_gets_to|apply p_record_landed, ordinary_py|]. intros b.
  rewrite <- (app_nil_r (map fst cls)). apply seq_gets_to; [done|apply p_traverse; intros; apply p_record_landed, ordinary_py|].
  intros bs. apply ret_gets_to.
Qed.

Lemma gather_length slots : ensures (fun _ => True) (gather_slots (M := M) (W := W) cfg slots) (fun ls _ => length ls = length slots).
Proof using cfg H4.
  assert (forall i ended, ensures (fun _ => True) (match land cfg i slots ended with Some ls => mret ls | None => block end : A M W (list landed))
    (fun ls _ => length ls = length slots)) as Hl.
  { intros i ended s _ ls. destruct (land cfg i slots ended) as [ls'|] eqn:E; [|done]. intros [= <-].
    apply (land_may cfg (fun _ _ _ => True) _ _ _ _ s E). apply Forall_forall. by intros []. }
  unfold gather_slots. destruct (launches slots); [apply Hl|].
  do 3 (eapply ensures_bind; [apply ensures_any|intros ?]). apply Hl.
Qed.

Lemma dispatch_gets_to calls slots : length slots = length calls -> gets_to calls (async_dispatch_and_record cfg calls slots).
Proof using cfg H4.
  intros Hlen s. unfold async_dispatch_and_record. rewrite bind_eq. pose proof conv_frame.
  assert (same_conv s (gather_slots cfg slots s).2) as Hq.
  { apply (a_gather cfg same_conv (fun _ _ _ => True)). apply Forall_forall. by intros []. }
  pose proof (p_gather cfg ordinary ordinary_py slots s) as Hr. pose proof (gather_length slots s I) as Hl. unfold same_conv in Hq.
  destruct (gather_slots cfg slots s) as [[ls|e| |] s1]; simpl in *; [|destruct (Hr e s1 eq_refl) as [x ->]; by apply progress_stop; [| |intros ? [= <-]]|by apply progress_stop..].
  specialize (Hl ls eq_refl). apply (progress_from _ _ s1); [done|]. apply gets_to_mono.
  pose proof (seq_gets_to (map fst (zip calls ls)) [] (traverse (async_record_landed cfg) (zip calls ls)) (fun errs => mret (existsb id errs))) as Hg.
  rewrite app_nil_r, zip_fst in Hg by congruence. apply Hg.
  - rewrite <- (zip_fst calls ls) at 1 by congruence. apply record_gets_to.
  - apply p_traverse. intros. apply p_record_landed, ordinary_py.
  - intros es. apply ret_gets_to.
Qed.

(** The handler of a parallel batch answers the calls gated before the pending one. *)
Lemma gate_one_gets_to {T} done slots call calls (f : prepared -> A M W T) : length slots = length done ->
  (forall p, gets_to (done ++ call :: calls) (f p)) ->
  gets_to (done ++ call :: calls) (async_gate_one cfg done slots call calls ≫= f).
Proof using Type.
  intros Hlen Hf s. rewrite bind_eq. unfold async_gate_one, catch.
  pose proof (q_prepare call s I) as Hq. pose proof (raises_gated call s) as Hr. unfold same_conv in Hq.
  destruct (async_prepare_call cfg call s) as [[p|e| |] s1]; simpl in *; [by eapply progress_from, Hf| |by apply progress_stop..].
  specialize (Hr e s1 eq_refl). destruct e as [e|p i|? ?]; [by apply progress_stop; [| |intros ? [= <-]]| |done].
  destruct Hr as [Hc Hp]. unfold async_pending_handler. apply (progress_from _ _ s1); [done|].
  set (save := fun _ : unit => upd_run (set_remaining_calls (call :: calls));; async_save_pending_confirmation_checkpoint cfg;; throw (T := prepared) (EPending p i)).
  assert (((async_dispatch_and_record cfg done slots;; mret tt) ≫= save) s1 = (async_dispatch_and_record cfg done slots ≫= (fun _ => save tt)) s1) as ->.
  { rewrite !bind_eq. by destruct (async_dispatch_and_record cfg done slots s1) as [[]?]. }
  rewrite bind_eq.
  pose proof (dispatch_gets_to done slots Hlen s1) as (d & rest & rs & -> & Hl & Hcv & Hret & _).
  pose proof (p_dispatch cfg ordinary ordinary_py (d ++ rest) slots s1) as Hr.
  assert (same_pending s1 (async_dispatch_and_record cfg (d ++ rest) slots s1).2) as [Hk _].
  { pose proof (same_pending_tool_rel (M := M) (W := W) cfg). pose proof (same_pending_conv_rel (M := M) (W := W)).
    apply (a_dispatch cfg same_pending (fun _ _ _ => True)). apply Forall_forall. by intros []. }
  destruct (async_dispatch_and_record cfg (d ++ rest) slots s1) as [[b|e| |] s2]; simpl in *.
  - assert (rest = []) as -> by by eapply Hret. rewrite app_nil_r.
    destruct (save tt s2) as [o s3] eqn:E. assert (_pending_confirmation (runst s2) = Some p) as Hp2 by congruence.
    destruct (saved_pending _ _ _ _ _ _ Hp2 E) as (Hcv3 & Hn & He).
    exists d, (call :: calls), rs. split; [done|]. split; [done|].
    destruct o as [x|e| |]; [by destruct (Hn x)|..]; simpl; (split; [congruence|]); (split; [done|]); [|done..].
    intros ? [= <-]. destruct (He e eq_refl) as [[x ->]|(-> & Hp3 & Hr3)]; [done|]. split; [done|]. exists calls. rewrite Hc. auto.
  - destruct (Hr e s2 eq_refl) as [x ->]. exists d, (rest ++ call :: calls), rs. rewrite app_assoc. do 3 (split; [done|]).
    split; [done|]. by intros ? [= <-].
  - exists d, (rest ++ call :: calls), rs. by rewrite app_assoc.
  - exists d, (rest ++ call :: calls), rs. by rewrite app_assoc.
Qed.

Lemma gate_gets_to {T} done slots calls (f : list slot -> A M W T) : length slots = length done ->
  (forall slots', length slots' = length (done ++ calls) -> gets_to (done ++ calls) (f slots')) ->
  gets_to (done ++ calls) (async_gate_batch cfg done slots calls ≫= f).
Proof using Type.
  revert done slots; induction calls as [|call calls IH]; intros done slots Hlen Hf; cbn [async_gate_batch].
  { apply (gets_to_eq _ _ (f slots)); [done|]. apply Hf. by rewrite app_nil_r. }
  assert (forall sl, gets_to (done ++ call :: calls) (async_gate_batch cfg (done ++ [call]) (slots ++ [sl]) calls ≫= f)) as Hrest.
  { intros sl. specialize (IH (done ++ [call]) (slots ++ [sl])). rewrite <- app_assoc in IH. cbn [app] in IH.
    apply IH; [|done]. rewrite !length_app. simpl. lia. }
  eapply gets_to_eq; [intros s; apply bind_assoc|]. apply bind_gets_to; [apply q_cancelled|apply p_cancelled|]. intros []; [done|].
  eapply gets_to_eq; [intros s; apply bind_assoc|]. apply bind_gets_to; [apply q_async_emit|apply p_emit, ordinary_py|]. intros _.
  eapply gets_to_eq; [intros s; apply bind_assoc|]. apply gate_one_gets_to; [done|]. intros p. apply Hrest.
Qed.

(** How far a batch of either mode gets. *)
Lemma tool_calls_progress calls : gets_to calls (async_execute_tool_calls cfg calls).
Proof using Type.
  unfold async_execute_tool_calls. destruct (_ && _); [|apply sequential_gets_to].
  apply (gate_gets_to [] []); [done|]. intros slots Hs. by apply dispatch_gets_to.
Qed.

(** *** Human verdicts *)

(** A step after the batch that says nothing and raises only ordinary exceptions. *)
Lemma then_gets_to {T U} calls (m : A M W T) (f : T -> A M W U) :
  gets_to calls m -> (forall x, quiet_conv (f x)) -> (forall x, raises ordinary (f x)) -> gets_to calls (m ≫= f).
Proof using Type.
  intros Hm Hq Hr s. rewrite bind_eq. destruct (Hm s) as (d & rest & rs & -> & Hl & Hc & Hret & He).
  destruct (m s) as [[x|e| |] s1]; simpl in *;
    [|by exists d, rest, rs; do 4 (split; [done|]); intros e' [= <-]; apply He|by exists d, rest, rs..].
  assert (rest = []) as -> by by eapply Hret. specialize (Hq x s1 I). specialize (Hr x s1). unfold same_conv in Hq.
  exists d, [], rs. split; [done|]. split; [done|]. split; [congruence|]. split; [done|].
  intros e Ho. destruct (f x s1) as [o s2]; simpl in *. subst o. by destruct (Hr e s2 eq_refl) as [y ->].
Qed.

(** [bind_gets_to] from the states in which the calls to make are [rem]. *)
Definition gets_from {T} (rem calls : list ToolCall) (m : A M W T) : Prop :=
  forall s, _pending_remaining_calls (runst s) = rem -> progress calls s (m s).1 (m s).2.

Lemma bind_gets_from {T U} rem calls (m : A M W T) (f : T -> A M W U) :
  quiet_conv m -> raises ordinary m -> keeps (fun _ => True) same_pending m ->
  (forall x, gets_from rem calls (f x)) -> gets_from rem calls (m ≫= f).
Proof using Type.
  intros Hq Hr Hk Hf s Hs. rewrite bind_eq. specialize (Hq s I). specialize (Hr s). specialize (Hk s I) as [_ Hk]. unfold same_conv in Hq.
  destruct (m s) as [[x|e| |] s1]; simpl in *; [|destruct (Hr e s1 eq_refl) as [x ->]; by apply progress_stop; [| |intros ? [= <-]]|by apply progress_stop..].
  eapply progress_from; [exact Hq|]. apply Hf. congruence.
Qed.

Lemma bind_add_from {T} rem call r calls (f : unit -> A M W T) :
  gets_from rem calls (f tt) -> gets_from rem (call :: calls) (add_result cfg call r ≫= f).
Proof using Type.
  intros Hf s Hs. rewrite bind_eq, add_result_conv. cbv beta iota.
  destruct (Hf (set_conv (append_message (conv s) (result_message cfg call r)) s) Hs) as (d & rest & rs & -> & Hl & Hc & Hr & He).
  exists (call :: d), rest, (r :: rs). split; [done|]. split; [by simpl; f_equal|]. by rewrite Hc.
Qed.

(** A relation both frames allow is kept by what a verdict does before recording its result. *)
Lemma verdict_kept (R : St M W -> St M W -> Prop) `{!ToolRel cfg R (fun _ _ _ => True)} (p : Pending) (approved : bool) :
  keeps (fun _ => True) R
    (if approved then
       match dict_get (tc_name (pc_call p)) (tools cfg) with
       | Some t =>
         log (AHuman (tc_name (pc_call p)) (pc_arguments p));; r ← async_run_tool cfg t (pc_arguments p);
         r ← async_retry_transient_tool cfg (pc_call p) t (pc_arguments p) r;
         async_finalize_call cfg (pc_call p) t (pc_arguments p) r;; mret r
       | None => mret (error_result (u "Unknown tool: " ++ tc_name (pc_call p)))
       end
     else async_deny_call (pc_call p) (u "confirmation declined by user") (pc_arguments p)).
Proof using Type.
  destruct approved; [|by apply (a_deny cfg R (fun _ _ _ => True))].
  destruct (dict_get _ _) eqn:E; [|apply keeps_ret, (tr_refl (cfg := cfg))].
  by apply (a_human_run cfg R (fun _ _ _ => True)).
Qed.

Lemma verdict_raises (p : Pending) (approved : bool) : raises ordinary
    (if approved then
       match dict_get (tc_name (pc_call p)) (tools cfg) with
       | Some t =>
         log (AHuman (tc_name (pc_call p)) (pc_arguments p));; r ← async_run_tool cfg t (pc_arguments p);
         r ← async_retry_transient_tool cfg (pc_call p) t (pc_arguments p) r;
         async_finalize_call cfg (pc_call p) t (pc_arguments p) r;; mret r
       | None => mret (error_result (u "Unknown tool: " ++ tc_name (pc_call p)))
       end
     else async_deny_call (pc_call p) (u "confirmation declined by user") (pc_arguments p)).
Proof using Type.
  destruct approved; [|apply p_deny, ordinary_py]. destruct (dict_get _ _); [|apply raises_calm, calm_ret].
  apply raises_bind; [apply raises_calm, calm_log|]. intros _. apply raises_bind; [apply p_run_tool, ordinary_py|]. intros r.
  apply raises_bind; [apply p_retry, ordinary_py|]. intros r'. apply raises_bind; [apply p_finalize, ordinary_py|].
  intros _. apply raises_calm, calm_ret.
Qed.

Lemma resolve_progress approved rest p s : left_pending rest p s -> NoDup (map tc_id rest) ->
  progress rest s (async_resolve_pending_confirmation cfg approved s).1 (async_resolve_pending_confirmation cfg approved s).2.
Proof using Type.
  intros (Hp & later & -> & Hrem) Hd. pose proof conv_frame. pose proof (same_pending_tool_rel (M := M) (W := W) cfg).
  unfold async_resolve_pending_confirmation. rewrite bind_eq. cbn [gets]. rewrite Hp. rewrite bind_eq. cbn [upd_run modify].
  set (s1 := set_runst (set_pending None (runst s)) s). apply (progress_from _ _ s1); [done|].
  assert (_pending_remaining_calls (runst s1) = _pending_remaining_calls (runst s)) as Hs1 by done. revert Hs1. generalize s1.
  apply bind_gets_from; [apply verdict_kept; apply _|apply verdict_raises|apply verdict_kept; apply _|]. intros r.
  apply bind_gets_from; [apply q_finished|apply p_finished, ordinary_py|by apply (a_finished cfg same_pending (fun _ _ _ => True))|]. intros _.
  apply bind_add_from. clear s1. intros s1 Hs1. rewrite bind_eq. cbn [gets]. rewrite bind_eq. cbn [upd_run modify].
  set (s2 := set_runst _ s1). apply (progress_from _ _ s2); [done|].
  assert (match _pending_remaining_calls (runst s1) with
          | c :: rest => if bool_decide (tc_id c = tc_id (pc_call p)) then rest else _pending_remaining_calls (runst s1)
          | [] => []
          end = later) as ->.
  { rewrite Hs1. destruct Hrem as [->| ->]; [|by rewrite bool_decide_true]. destruct later as [|c later]; [done|].
    rewrite bool_decide_false; [done|]. intros Heq. cbn [map] in Hd. apply NoDup_cons in Hd as [Hn _]. apply Hn.
    rewrite <- Heq. by apply list_elem_of_here. }
  apply gets_to_mono. apply then_gets_to.
  - unfold when. destruct (bool_decide (later = [])) eqn:E; cbn [negb].
    + apply bool_decide_eq_true in E as ->. apply ret_gets_to.
    + apply then_gets_to; [apply tool_calls_progress|intros ? ? _; done|intros b; apply raises_calm, calm_ret].
  - intros _. by apply (a_persist cfg same_conv (fun _ _ _ => True)).
  - intros _. apply p_persist, ordinary_py.
Qed.
End Batch.

(** however a batch ends, its results are in order. In either mode the
    asynchronous agent appends to the history one result for each of a prefix of
    the calls, in the model's order; it returns only when every call is answered;
    and when a confirmation stops it, the pending call and the calls after it are
    exactly the unanswered ones, and the checkpointed remainder is those calls,
    with or without the pending one. Only an exception, or the cancellation of the
    task, leaves calls open without a record of them. *)
Theorem async_batch_answers_in_order `{PyRuntime} `{SecretPatterns} {M W} `{EventSink W} `{AgentEnv W} `{AsyncEnv W}
    `{PermissionPolicy} cfg calls (s : St M W) :
  let '(o, s') := async_execute_tool_calls cfg calls s in
  exists done rest rs, calls = done ++ rest /\ length rs = length done /\
    conv s' = append_all (conv s) (answered cfg done rs) /\
    (forall x, o = Ret x -> rest = []) /\
    (forall e, o = Raise e -> stops_with rest e s').
Proof.
  pose proof (tool_calls_progress cfg calls s) as Hp. by destruct (async_execute_tool_calls cfg calls s).
Qed.

(** a verdict finishes the batch it interrupted. After a batch stopped for a
    human, in either mode and whichever form its remainder was recorded in,
    applying the verdict answers the pending call and then the calls after it,
    each once and in order, and returns only when all are answered. *)
Theorem async_verdict_answers_batch `{PyRuntime} `{SecretPatterns} {M W} `{EventSink W} `{AgentEnv W} `{AsyncEnv W}
    `{PermissionPolicy} cfg approved rest p (s : St M W) :
  left_pending rest p s -> NoDup (map tc_id rest) ->
  let '(o, s') := async_resolve_pending_confirmation cfg approved s in
  exists done open rs, rest = done ++ open /\ length rs = length done /\
    conv s' = append_all (conv s) (answered cfg done rs) /\
    (forall x, o = Ret x -> open = []) /\
    (forall e, o = Raise e -> stops_with open e s').
Proof.
  intros Hp Hd. pose proof (resolve_progress cfg approved rest p s Hp Hd) as Hr.
  by destruct (async_resolve_pending_confirmation cfg approved s).
Qed.

(** ** Scenarios *)

#[local] Existing Instance desk_runtime.
#[local] Existing Instance desk_patterns.
#[local] Existing Instance desk_sink.
#[local] Existing Instance desk_env.
#[local] Existing Instance desk_policy.

(** An event loop that delivers a cancellation when the [n]-th identifier has
    been handed out, if ever; every execution of a batch answers as the desk's
    tools do. *)
Definition cancelling_at (n : option Z) : AsyncEnv Desk := {|
  task_cancelled := fun d => (bool_decide (n = Some (d_ids d)), d);
  wait_for := fun _ _ _ d => let '(o, d) := next_outcome d in (JobDone o zero, d);
  gather := fun _ d => (fun _ => JobDone (RawValue (JStr (u "ok"))) zero, d);
|}.

Abbreviation async_start env cfg s :=
  (async_run (H3 := env) (noop_manager Desk) cfg (Some (u "task")) false None None s).

Example async_two_calls :
  let '(o, s') := async_start (cancelling_at None) desk_config two_calls_agent in
  o = Ret (u "done") /\ length (messages (conv s')) = 5%nat /\
  map e_type (d_events (world s')) = map u
    ["agent.classified"; "agent.run_started"; "agent.turn_started"; "agent.llm_response";
     "agent.tool_call_started"; "agent.tool_call_finished"; "agent.tool_call_started"; "agent.tool_call_finished";
     "agent.turn_started"; "agent.llm_response"; "agent.run_finished"]%string.
Proof. vm_compute. repeat split. Qed.

(** the parallel path of the asynchronous agent runs all nine calls the
    thread pool of the synchronous one refuses to run at once. *)
Example async_parallel_runs_nine :
  result_texts (messages (conv (async_execute_tool_calls (H3 := cancelling_at None) pool_config nine_calls nine_calls_agent).2)) =
  repeat (u "ok") 9.
Proof. vm_compute. reflexivity. Qed.

(** cancelling the task of a run while a tool executes strands the call: the
    history ends with a call that has no result, no event says that the run
    ended, and the next run sends a provider a history it rejects. *)
Lemma cancellation_strands_calls :
  let '(o, s') := async_start (cancelling_at (Some 2%Z)) desk_config two_calls_agent in
  o = Raise cancelled_error /\
  replay_scan [] (messages (conv s')) = Some [u "a"; u "b"] /\
  last (map e_type (d_events (world s'))) = Some (u "agent.tool_call_started") /\
  let '(o2, s2) := async_start (cancelling_at None) desk_config s' in
  o2 = Ret (u "done") /\ replay_scan [] (messages (conv s2)) = None.
Proof. vm_compute. repeat split. Qed.

Lemma async_execution_authorized_witness :
  length (trace (async_start (cancelling_at (Some 2%Z)) desk_config two_calls_agent).2) = 3%nat /\
  authorized (trace (async_start (cancelling_at (Some 2%Z)) desk_config two_calls_agent).2).
Proof.
  split; [vm_compute; reflexivity|].
  exact (proj1 (@async_execution_authorized _ _ _ _ (noop_manager Desk) _ _ (cancelling_at (Some 2%Z)) _ desk_config two_calls_agent
    (Some (u "task")) false None None true desk_tools_wf (fresh_agent_authorized _))).
Defined.

(** A sink that keeps only the types of the events. *)
Definition typed_sink : EventSink Desk := {|
  publish_to := fun e d => MkDesk (d_script d) (d_control d) (d_events d ++ [{| e_type := e_type e; e_payload := []; e_source := None |}])
    (d_outcomes d) (d_mode d) (d_ids d) (d_verdicts d) |}.


(** The first of two calls waits for a human, who approves it: the second one waits then. *)
Definition async_paused_agent : St unit Desk :=
  (async_run (H3 := cancelling_at None) (H4 := Confirming.asking_policy) (noop_manager Desk) (Confirming.validating_config true)
     (Some (u "task")) false None None two_calls_agent).2.

Lemma async_verdict_answers_batch_witness :
  left_pending [echo_call (u "a") (u "x"); echo_call (u "b") (u "y")] Confirming.paused_call async_paused_agent /\
  let '(o, s') := async_resolve_pending_confirmation (H3 := cancelling_at None) (H4 := Confirming.asking_policy)
    (Confirming.validating_config true) true async_paused_agent in
  exists done open rs, [echo_call (u "a") (u "x"); echo_call (u "b") (u "y")] = done ++ open /\ length rs = length done /\
    conv s' = append_all (conv async_paused_agent) (answered (Confirming.validating_config true) done rs) /\
    (forall x, o = Ret x -> open = []) /\
    (forall e, o = Raise e -> stops_with open e s').
Proof.
  assert (left_pending [echo_call (u "a") (u "x"); echo_call (u "b") (u "y")] Confirming.paused_call async_paused_agent) as Hp.
  { split; [vm_compute; reflexivity|]. eexists. split; [reflexivity|]. left. vm_compute. reflexivity. }
  split; [exact Hp|].
  apply (@async_verdict_answers_batch _ _ _ _ _ _ (cancelling_at None) Confirming.asking_policy
    (Confirming.validating_config true) true [echo_call (u "a") (u "x"); echo_call (u "b") (u "y")] Confirming.paused_call); [exact Hp|].
  apply (bool_decide_unpack _). vm_compute. exact I.
Defined.

(** The verdict moves the desk on: one call is answered, the other is the one pending. *)
Example async_verdict_moves_on :
  let '(o, s') := async_resolve_pending_confirmation (H3 := cancelling_at None) (H4 := Confirming.asking_policy)
    (Confirming.validating_config true) true async_paused_agent in
  (exists p i, o = Raise (EPending p i) /\ tc_id (pc_call p) = u "b") /\
  replay_scan [] (messages (conv s')) = Some [u "b"].
Proof. vm_compute. split; [by do 2 eexists|done]. Qed.
