(* ===== verification/Store.v ===== *)
(** * Persistence of conversations (kinetic_sdk/conversation/store.py, checkpoint.py)

    The JSON file store (save, load, delete), the dictionary form of a state, and
    the two branch operations [fork_store] and [rewind_state]. A file is its text,
    [None] when it does not exist; decoding the text is the runtime's [json.loads]. *)

From stdpp Require Import base gmap strings list.
From Stdlib Require Import ZArith Lia.
From S2P Require Import Prelude Json Validation Summary Conversation Budgets.

Definition SCHEMA_VERSION : Z := 1.

Definition store_error (msg : pystr) : pyexn := PyExn (u "ConversationStoreError") msg.
Definition checkpoint_error (msg : pystr) : pyexn := PyExn (u "CheckpointError") msg.

(** ** States as dictionaries *)

(** A serializer's view of a metadata value. [other] is what it does with an
    object that is not JSON: [None] raises [TypeError]. *)
Definition value_json (other : StructuredSummary -> option json) (v : mvalue) : option json :=
  match v with MJson j => Some j | MSummary s => other s end.

Fixpoint metadata_json (other : StructuredSummary -> option json) (md : list (pystr * mvalue)) : option jdict :=
  match md with
  | [] => Some []
  | (k, v) :: md' =>
    match value_json other v, metadata_json other md' with
    | Some j, Some d => Some ((k, j) :: d)
    | _, _ => None
    end
  end.

Definition state_fields (st : ConversationState) (md : jdict) : jdict :=
  [(u "system_prompt", match system_prompt st with Some p => JStr p | None => JNull end);
   (u "messages", JList (map JObj (messages st)));
   (u "max_messages", opt_int (max_messages st));
   (u "metadata", JObj md)].

Definition state_to_dict (other : StructuredSummary -> option json) (st : ConversationState) : option jdict :=
  match metadata_json other (metadata st) with Some md => Some (state_fields st md) | None => None end.

(** What loading rebuilds: [system_prompt] and [max_messages] are taken as they
    are, unchecked. *)
Record Loaded := {
  ld_system_prompt : json;
  ld_messages : list message;
  ld_max_messages : json;
  ld_metadata : jdict;
}.

Fixpoint dict_list (l : list json) : option (list message) :=
  match l with
  | [] => Some []
  | JObj d :: l' => (fun r => d :: r) <$> dict_list l'
  | _ :: _ => None
  end.

(** [dict(x)]. [None]: a non-empty sequence, whose items Python would read as
    pairs; nothing this library writes is one. *)
Definition py_dict (x : json) : option (result jdict) :=
  match x with
  | JObj d => Some (Ok d)
  | JList [] | JStr [] => Some (Ok [])
  | JNull | JBool _ | JInt _ | JFloat _ => Some (Err type_error)
  | JList _ | JStr _ => None
  end.

Definition state_from_dict (data : json) : option (result Loaded) :=
  match data with
  | JObj d =>
    match dict_get (u "messages") d with
    | Some (JList l) =>
      match dict_list l with
      | Some ms =>
        let md := match dict_get (u "metadata") d with
                  | Some m => if truthy m then m else JObj []
                  | None => JObj []
                  end in
        (fun r => rmap (fun md => {|
           ld_system_prompt := default JNull (dict_get (u "system_prompt") d);
           ld_messages := ms;
           ld_max_messages := default JNull (dict_get (u "max_messages") d);
           ld_metadata := md |}) r) <$> py_dict md
      | None => Some (Err (value_error (u "state.messages must be a list of dicts")))
      end
    | _ => Some (Err (value_error (u "state.messages must be a list of dicts")))
    end
  | _ => Some (Err (PyExn (u "TypeError") (u "state payload must be a dict")))
  end.

(** The state a loaded one is, when its fields have the declared types. *)
Definition loaded_state (l : Loaded) : option ConversationState :=
  match ld_system_prompt l, ld_max_messages l with
  | (JNull | JStr _) as p, (JNull | JInt _) as c =>
    Some {| system_prompt := match p with JStr s => Some s | _ => None end;
            messages := ld_messages l;
            max_messages := match c with JInt z => Some z | _ => None end;
            metadata := map (fun kv => (kv.1, MJson kv.2)) (ld_metadata l) |}
  | _, _ => None
  end.

(** ** The file store *)

Section FileStore.
Context `{PyRuntime}.
(** The path, as it appears in messages, and the text of a decoding error. *)
Variable path : pystr.
Variable decode_error : pystr -> pystr.

Definition cannot_load (why : pystr) : pyexn :=
  store_error (u "Cannot load conversation from " ++ path ++ u ": " ++ why).

Definition save_payload (d : jdict) : json := JObj [(u "schema_version", JInt SCHEMA_VERSION); (u "state", JObj d)].

(** [JsonFileConversationStore.save]: [io] is the error of the file system, if
    any. The target changes only by the final rename. *)
Definition save (io : option pyexn) (st : ConversationState) (file : option pystr) : result unit * option pystr :=
  match io with
  | Some e => (Err e, file)
  | None =>
    match state_to_dict (fun _ => None) st with
    | None => (Err type_error, file)
    | Some d => (Ok tt, Some (json_dumps dumps_utf8 (save_payload d)))
    end
  end.

Definition load (file : option pystr) : option (result (option Loaded)) :=
  match file with
  | None => Some (Ok None)
  | Some text =>
    match json_loads text with
    | None => Some (Err (cannot_load (decode_error text)))
    | Some (JObj d) =>
      match dict_get (u "state") d with
      | None => Some (Err (cannot_load (u "not a conversation file")))
      | Some state =>
        let version := default JNull (dict_get (u "schema_version") d) in
        if negb (py_eq version (JInt SCHEMA_VERSION))
        then Some (Err (cannot_load (u "schema version " ++ py_repr version ++ u " is not supported (expected "
               ++ dec SCHEMA_VERSION ++ u ")")))
        else (fun r => match r with
              | Ok l => Ok (Some l)
              | Err e => Err (cannot_load (exn_msg e))
              end) <$> state_from_dict state
      end
    | Some _ => Some (Err (cannot_load (u "not a conversation file")))
    end
  end.

Definition delete (file : option pystr) : option pystr := None.
End FileStore.

(** ** Branches *)

(** [fork_store]: the source's loaded state is saved at a path that must not
    exist yet. *)
Definition fork_store `{PyRuntime} (destination_path : pystr) (io : option pyexn)
    (source : result (option ConversationState)) (destination : option pystr) : result unit * option pystr :=
  match destination with
  | Some _ => (Err (checkpoint_error (u "fork destination " ++ destination_path
      ++ u " already exists (refusing to overwrite)")), destination)
  | None =>
    match source with
    | Err e => (Err e, None)
    | Ok None => (Ok tt, None)
    | Ok (Some st) => save io st None
    end
  end.

Definition is_tool_use (b : json) : bool :=
  match b with
  | JObj d => match dict_get (u "type") d with Some (JStr t) => bool_decide (t = u "tool_use") | _ => false end
  | _ => false
  end.

(** The cut is refused when this is its last message. *)
Definition dangling_tail (m : message) : bool :=
  match dict_get (u "role") m, dict_get (u "content") m with
  | Some (JStr r), Some (JList l) => bool_decide (r = u "assistant") && existsb is_tool_use l
  | _, _ => false
  end.

Definition rewind_state (st : ConversationState) (keep_messages : Z) : result ConversationState :=
  if (keep_messages <? 0)%Z
  then Err (checkpoint_error (u "keep_messages must be a non-negative int, got " ++ dec keep_messages))
  else
    let ms := ztake keep_messages (messages st) in
    if match last ms with Some tail => dangling_tail tail | None => false end
    then Err (checkpoint_error (u "rewind cut lands on a dangling tool_use (history would not replay); cut one message earlier/later"))
    else Ok (set_messages st ms).

(** ** Lemmas *)

Lemma dict_list_map ms : dict_list (map JObj ms) = Some ms.
Proof. induction ms as [|m ms IH]; simpl; [done|]. by rewrite IH. Qed.

(** Metadata that is JSON already. *)
Definition json_metadata (st : ConversationState) : Prop :=
  exists d, metadata st = map (fun kv => (kv.1, MJson kv.2)) d.

Lemma metadata_json_json other d : metadata_json other (map (fun kv => (kv.1, MJson kv.2)) d) = Some d.
Proof. induction d as [|[k j] d IH]; simpl; [done|]. by rewrite IH. Qed.

Lemma state_dict_roundtrip other st : json_metadata st ->
  exists d l, state_to_dict other st = Some d /\ state_from_dict (JObj d) = Some (Ok l) /\ loaded_state l = Some st.
Proof.
  intros [md Hmd]. unfold state_to_dict. rewrite Hmd, metadata_json_json.
  eexists; eexists. split; [done|]. split.
  - unfold state_from_dict, state_fields.
    set (d := [_; _; _; _]).
    change (dict_get (u "messages") d) with (Some (JList (map JObj (messages st)))).
    cbv iota. rewrite dict_list_map.
    change (dict_get (u "metadata") d) with (Some (JObj md)).
    change (dict_get (u "system_prompt") d) with (Some (match system_prompt st with Some p => JStr p | None => JNull end)).
    change (dict_get (u "max_messages") d) with (Some (opt_int (max_messages st))).
    destruct md; reflexivity.
  - unfold loaded_state. destruct st as [p ms c m]; simpl in *. subst m.
    by destruct p, c, md.
Qed.

Lemma metadata_json_summary md k s : (k, MSummary s) ∈ md -> metadata_json (fun _ => None) md = None.
Proof.
  induction md as [|[k' v] md IH]; simpl; [by intros Hin%not_elem_of_nil|].
  intros [[= <- <-] | Hin]%elem_of_cons; [done|]. rewrite (IH Hin). by destruct (value_json _ v).
Qed.

Lemma replay_scan_prefix w ms k w' : replay_scan w ms = Some w' -> is_Some (replay_scan w (take k ms)).
Proof.
  rewrite <- (take_drop k ms) at 1. rewrite replay_scan_app. by destruct (replay_scan w (take k ms)).
Qed.

(** Each message asks for at most one call, and only the assistant asks. *)
Definition single_call (m : message) : Prop :=
  (length (use_ids m) <= 1)%nat /\ (use_ids m <> [] -> dict_get (u "role") m = Some (JStr (u "assistant"))).

Lemma dangling_single m : single_call m -> use_ids m <> [] -> dangling_tail m = true.
Proof.
  intros [_ Hr] Hu. unfold dangling_tail. rewrite (Hr Hu). clear Hr. unfold use_ids, blocks in Hu.
  destruct (dict_get (u "content") m) as [[| | | | |l|]|]; try done. rewrite bool_decide_eq_true_2 by done. simpl.
  apply existsb_exists. destruct (omap _ l) as [|i ids] eqn:E; [done|].
  assert (i ∈ omap (block_id (u "tool_use") (u "id")) l) as Hi by (rewrite E; set_solver).
  apply list_elem_of_omap in Hi as (b & Hb & Hi). exists b. split; [by apply list_elem_of_In|].
  destruct b as [| | | | | |d]; try done. simpl in *.
  destruct (decide (dict_get (u "type") d = Some (JStr (u "tool_use")))) as [->|]; [|done].
  by rewrite bool_decide_eq_true_2.
Qed.

Lemma single_waiting w ms w' : Forall single_call ms -> (length w <= 1)%nat ->
  replay_scan w ms = Some w' -> (length w' <= 1)%nat.
Proof.
  intros HF. revert w; induction HF as [|m ms [Hm _] HF IH]; intros w Hw; simpl; [by intros [= <-]|].
  destruct (scan_step w m) as [w1|] eqn:E; [|done]. apply IH.
  unfold scan_step in E. destruct w as [|x w], (use_ids m) as [|y us], (result_ids m) as [|r [|]]; try done;
    try (injection E as <-; simpl in *; lia).
  case_decide; [|done]. injection E as <-. simpl in *. lia.
Qed.

Lemma single_tail ms w : Forall single_call ms -> replay_scan [] ms = Some w ->
  match last ms with Some tail => dangling_tail tail | None => false end = false -> w = [].
Proof.
  intros HF Hs Hd. destruct ms as [|m ms _] using rev_ind; [by injection Hs as <-|].
  rewrite last_snoc in Hd. apply Forall_app in HF as [HF Hm]. rewrite Forall_singleton in Hm.
  rewrite replay_scan_app in Hs. destruct (replay_scan [] ms) as [w1|] eqn:E; [|done].
  apply single_waiting in E; [|done|simpl; lia]. simpl in Hs.
  destruct (scan_step w1 m) as [w2|] eqn:E2; [|done]. injection Hs as <-.
  unfold scan_step in E2. destruct w1 as [|x [|]]; [|clear E|simpl in E; lia].
  - destruct (result_ids m); [|done]. injection E2 as <-.
    destruct (decide (use_ids m = [])) as [|Hu]; [done|]. by rewrite (dangling_single m Hm Hu) in Hd.
  - destruct (use_ids m), (result_ids m) as [|r [|]]; try done. case_decide; [|done]. by injection E2 as <-.
Qed.

(** ** Theorems *)

(** saving a conversation and loading the file gives the same conversation
    back, system prompt, message cap and metadata included, when the metadata is
    JSON; a failed save leaves the file as it was. *)
Theorem store_roundtrip `{PyRuntime} path decode_error io st file :
  json_metadata st ->
  (forall d, state_to_dict (fun _ => None) st = Some d ->
     json_loads (json_dumps dumps_utf8 (save_payload d)) = Some (save_payload d)) ->
  let '(r, file') := save io st file in
  match io with
  | Some e => r = Err e /\ file' = file
  | None => r = Ok tt /\ exists l, load path decode_error file' = Some (Ok (Some l)) /\ loaded_state l = Some st
  end.
Proof.
  intros Hmd Hrt. unfold save. destruct io as [e|]; [done|].
  destruct (state_dict_roundtrip (fun _ => None) st Hmd) as (d & l & Hd & Hl & Hst).
  rewrite Hd. split; [done|]. exists l. split; [|done]. unfold load. rewrite (Hrt d Hd).
  unfold save_payload. cbn [dict_get]. rewrite decide_False by done. rewrite decide_True by done.
  rewrite decide_True by done. change (py_eq (default JNull (Some (JInt SCHEMA_VERSION))) (JInt SCHEMA_VERSION)) with true.
  simpl negb. cbv iota. by rewrite Hl.
Qed.

(** a conversation whose metadata holds a progressive summary cannot be
    saved: the save raises and the file keeps the older conversation. *)
Theorem summary_blocks_saving `{PyRuntime} st k s file :
  (k, MSummary s) ∈ metadata st -> save None st file = (Err type_error, file).
Proof. intros Hin. unfold save, state_to_dict. by rewrite (metadata_json_summary _ k s). Qed.

(** loading starts fresh only when there is no file: every existing file
    either yields a conversation or raises. *)
Theorem load_never_forgets `{PyRuntime} path decode_error file :
  load path decode_error file = Some (Ok None) <-> file = None.
Proof.
  split; [|by intros ->]. destruct file as [text|]; [|done]. unfold load.
  destruct (json_loads text) as [[| | | | | |d]|]; try done.
  destruct (dict_get (u "state") d) as [state|]; [|done]. destruct (negb _); [done|].
  by destruct (state_from_dict state) as [[l|e]|].
Qed.

(** rewinding a replayable history in which every round makes one call yields
    a replayable history: the boundaries it refuses are exactly the cuts between a
    call and its result. *)
Theorem rewind_keeps_history_replayable st keep st' :
  replayable st -> Forall single_call (messages st) -> rewind_state st keep = Ok st' ->
  replayable st' /\ messages st' = ztake keep (messages st).
Proof.
  intros Hr HF. unfold rewind_state. destruct (keep <? 0)%Z; [done|].
  destruct (match last _ with Some _ => _ | None => _ end) eqn:Hd; [done|]. intros [= <-].
  split; [|done]. unfold replayable, awaiting in *. simpl.
  destruct (replay_scan_prefix [] (messages st) (Z.to_nat keep) [] Hr) as [w Hw]. unfold ztake in *. rewrite Hw. f_equal.
  eapply single_tail; [|exact Hw|exact Hd]. by apply Forall_take.
Qed.

Definition two_call_round : ConversationState := {|
  system_prompt := None; max_messages := None; metadata := [];
  messages :=
    [user_message (u "task");
     assistant_message (JList (map (fun i => JObj [(u "type", JStr (u "tool_use")); (u "id", JStr i)]) [u "a"; u "b"]));
     [(u "role", JStr (u "user")); (u "content", JList [JObj [(u "type", JStr (u "tool_result")); (u "tool_use_id", JStr (u "a"))]])];
     [(u "role", JStr (u "user")); (u "content", JList [JObj [(u "type", JStr (u "tool_result")); (u "tool_use_id", JStr (u "b"))]])]] |}.

(** a round of two calls can be cut in half: rewinding to just after the
    first result is accepted and leaves the second call without a result. *)
Theorem rewind_can_split_a_round :
  replayable two_call_round /\
  exists st', rewind_state two_call_round 3 = Ok st' /\ replay_scan [] (messages st') = Some [u "b"].
Proof. split; [vm_compute; reflexivity|]. eexists. split; [reflexivity|]. vm_compute. reflexivity. Qed.

(** ** Witnesses *)

Definition saved_state : ConversationState := {|
  system_prompt := Some (u "be brief"); max_messages := Some 5%Z; metadata := [(u "k", MJson (JInt 1))];
  messages := [user_message (u "hi")] |}.

Definition saved_payload : json := save_payload (state_fields saved_state [(u "k", JInt 1)]).

Definition saved_text : pystr :=
  u "{" ++ join (u ", ") (map (fun kv => [34%N] ++ kv.1 ++ [34%N] ++ u ": " ++ kv.2)
    [(u "schema_version", u "1");
     (u "state", u "{" ++ join (u ", ") (map (fun kv => [34%N] ++ kv.1 ++ [34%N] ++ u ": " ++ kv.2)
        [(u "system_prompt", [34%N] ++ u "be brief" ++ [34%N]);
         (u "messages", u "[{" ++ join (u ", ") (map (fun kv => [34%N] ++ kv.1 ++ [34%N] ++ u ": " ++ [34%N] ++ kv.2 ++ [34%N])
            [(u "role", u "user"); (u "content", u "hi")]) ++ u "}]");
         (u "max_messages", u "5");
         (u "metadata", u "{" ++ [34%N] ++ u "k" ++ [34%N] ++ u ": 1}")]) ++ u "}")]) ++ u "}".

(** A decoder that knows this one text. *)
#[local] Instance store_runtime : PyRuntime := decoding_runtime [(saved_text, saved_payload)].

Lemma store_roundtrip_witness :
  (save None saved_state None).2 = Some saved_text /\
  let '(r, file) := save None saved_state None in
  r = Ok tt /\ exists l, load (u "chat.json") id file = Some (Ok (Some l)) /\ loaded_state l = Some saved_state.
Proof.
  split; [vm_compute; reflexivity|].
  apply (store_roundtrip (u "chat.json") id None saved_state None).
  - exists [(u "k", JInt 1)]. reflexivity.
  - intros d Hd. vm_compute in Hd. injection Hd as <-. vm_compute. reflexivity.
Defined.

Lemma summary_blocks_saving_witness :
  save None (set_metadata saved_state [(u "structured_summary", MSummary empty_summary)]) (Some saved_text)
  = (Err type_error, Some saved_text).
Proof.
  apply (summary_blocks_saving _ (u "structured_summary") empty_summary). simpl. apply list_elem_of_here.
Defined.

Definition one_call_round : ConversationState := {|
  system_prompt := None; max_messages := None; metadata := [];
  messages :=
    [user_message (u "task");
     assistant_message (JList [JObj [(u "type", JStr (u "tool_use")); (u "id", JStr (u "a"))]]);
     [(u "role", JStr (u "user")); (u "content", JList [JObj [(u "type", JStr (u "tool_result")); (u "tool_use_id", JStr (u "a"))]])];
     assistant_message (JStr (u "done"))] |}.

Lemma rewind_keeps_history_replayable_witness :
  is_ok (rewind_state one_call_round 2) = false /\
  replayable (set_messages one_call_round (take 3 (messages one_call_round))) /\
  messages (set_messages one_call_round (take 3 (messages one_call_round))) = ztake 3 (messages one_call_round).
Proof.
  split; [vm_compute; reflexivity|].
  apply (rewind_keeps_history_replayable one_call_round 3).
  - vm_compute. reflexivity.
  - repeat constructor; try (vm_compute; lia); vm_compute; intros; congruence.
  - vm_compute. reflexivity.
Defined.
