(* ===== verification/Memory.v ===== *)
(** * Long-term memory (kinetic_sdk/memory/provider.py, inmemory.py, json_file.py, tool.py)

    Entries with a lifecycle tier, a provenance, an optional expiry and a scope;
    the keyword-ranked store, its JSON file, and the agent's three memory tools. *)

From stdpp Require Import base strings list sorting.
From Stdlib Require Import ZArith Lia SpecFloat.
From S2P Require Import Prelude Json PyText Types Validation Store.

(** ** Entries *)

Inductive MemoryTier := WORKING | EPISODIC | PERSISTENT.
Inductive MemorySource := UNKNOWN | USER_INPUT | TOOL_RESULT | LLM_INFERENCE.

#[export] Instance memory_tier_eq_dec : EqDecision MemoryTier.
Proof. solve_decision. Defined.
#[export] Instance memory_source_eq_dec : EqDecision MemorySource.
Proof. solve_decision. Defined.

Definition tier_value (t : MemoryTier) : pystr :=
  match t with WORKING => u "working" | EPISODIC => u "episodic" | PERSISTENT => u "persistent" end.

Definition source_value (s : MemorySource) : pystr :=
  match s with
  | UNKNOWN => u "unknown" | USER_INPUT => u "user_input" | TOOL_RESULT => u "tool_result"
  | LLM_INFERENCE => u "llm_inference"
  end.

(** [MemoryTier(value)] and [MemorySource(value)]. *)
Definition tier_of (v : pystr) : option MemoryTier :=
  find (fun t => bool_decide (tier_value t = v)) [WORKING; EPISODIC; PERSISTENT].
Definition source_of (v : pystr) : option MemorySource :=
  find (fun s => bool_decide (source_value s = v)) [UNKNOWN; USER_INPUT; TOOL_RESULT; LLM_INFERENCE].

Record MemoryEntry := {
  m_id : pystr;
  m_text : pystr;
  m_metadata : jdict;
  m_created_at : pystr;
  m_tier : MemoryTier;
  m_source : MemorySource;
  m_expires_at : option pystr;
}.

Abbreviation Entries := (list MemoryEntry).

Definition memory_error (msg : pystr) : pyexn := PyExn (u "MemoryError") msg.

(** What the providers use of [datetime] and of [str.lower]: the instant a
    timestamp denotes, naive ones read as UTC ([None]: [ValueError]); the
    timestamp some seconds later; the lower case of a text. *)
Class Datetime := {
  iso_instant : pystr -> option Z;
  iso_after : pystr -> json -> result pystr;
  lower_case : pystr -> pystr;
}.

Section Provider.
Context `{Datetime}.

Definition expiry_iso (ttl_seconds : option json) (created_at : pystr) : result (option pystr) :=
  let invalid := Err (memory_error (u "ttl_seconds must be a non-negative number or None")) in
  match ttl_seconds with
  | None | Some JNull => Ok None
  | Some (JInt z) => if (z <? 0)%Z then invalid else rmap Some (iso_after created_at (JInt z))
  | Some (JFloat f) => if fl_lt f (fl_of_Z 0) then invalid else rmap Some (iso_after created_at (JFloat f))
  | Some _ => invalid
  end.

(** [now] is the instant of the call. *)
Definition is_expired (now : Z) (e : MemoryEntry) : bool :=
  match m_expires_at e with
  | None => false
  | Some t => match iso_instant (py_replace_all (u "Z") (u "+00:00") t) with
              | None => true
              | Some i => (i <=? now)%Z
              end
  end.

Definition matches_scope (e : MemoryEntry) (scope : option (list (pystr * pystr))) : bool :=
  match scope with
  | None => true
  | Some kvs => forallb (fun kv => py_eq (default JNull (dict_get kv.1 (m_metadata e))) (JStr kv.2)) kvs
  end.

(** [_TOKEN_RE]: ASCII letters and digits, the underscore and the two ranges of
    accented letters. *)
Definition token_char (c : N) : bool :=
  ((48 <=? c) && (c <=? 57) || (97 <=? c) && (c <=? 122) || (65 <=? c) && (c <=? 90) || (c =? 95)
   || (224 <=? c) && (c <=? 7929) || (192 <=? c) && (c <=? 7928))%N.

(** [_TOKEN_RE.findall]: the maximal runs of such characters. *)
Fixpoint token_runs (cur s : pystr) : list pystr :=
  match s with
  | [] => match cur with [] => [] | _ => [rev cur] end
  | c :: s' =>
    if token_char c then token_runs (c :: cur) s'
    else match cur with [] => token_runs [] s' | _ => rev cur :: token_runs [] s' end
  end.

Definition _STOPWORDS : list pystr :=
  [u "the"; u "a"; u "an"; u "and"; u "or"; u "of"; u "to"; u "in"; u "on"; u "for"; u "with";
   u "is"; u "are"; u "was"; u "were"; u "be"; u "it"; u "its"; u "this"; u "that";
   u "và"; u "của"; u "là"; u "cho"; u "với"; u "trong"; u "một"; u "các"; u "những"; u "được"].

(** The set of tokens, in order of first occurrence. *)
Definition tokens (text : pystr) : list pystr :=
  from_keys (filter (fun t => elem_b t _STOPWORDS = false /\ (1 < length t)%nat) (token_runs [] (lower_case text))).

Definition relevance (query text : pystr) : pyfloat :=
  match tokens query with
  | [] => fl_of_Z 0
  | q => fl_div (fl_of_Z (zlen (filter (fun t => elem_b t (tokens text) = true) q))) (fl_of_Z (zlen q))
  end.

(** ** The process-local store ([InMemoryMemory])

    The entries, oldest first; [ttl], [tiers] and [scope] are the optional
    arguments; [now] and [id] come from the clock and [uuid4]. *)

Definition in_tiers (tiers : option (list MemoryTier)) (e : MemoryEntry) : bool :=
  match tiers with None => true | Some ts => bool_decide (m_tier e ∈ ts) end.

Definition add (id created_at text : pystr) (md : jdict) (tier : MemoryTier) (src : MemorySource) (ttl : option json)
    (es : Entries) : result MemoryEntry * Entries :=
  if bool_decide (strip text = []) then (Err (memory_error (u "memory text must be a non-empty string")), es)
  else match expiry_iso ttl created_at with
  | Err e => (Err e, es)
  | Ok exp =>
    let e := {| m_id := id; m_text := text; m_metadata := md; m_created_at := created_at; m_tier := tier;
                m_source := src; m_expires_at := exp |} in (Ok e, es ++ [e])
  end.

Definition all_entries (now : Z) (tiers : option (list MemoryTier)) (scope : option (list (pystr * pystr)))
    (include_expired : bool) (es : Entries) : Entries :=
  filter (fun e => in_tiers tiers e && matches_scope e scope && (include_expired || negb (is_expired now e)) = true) es.

(** The sort key: the score, then the position; [reverse=True]. *)
Definition ranked_after (x y : pyfloat * nat * MemoryEntry) : bool :=
  if fl_eq x.1.1 y.1.1 then (x.1.2 <? y.1.2)%nat else fl_lt x.1.1 y.1.1.

Fixpoint insert_ranked (x : pyfloat * nat * MemoryEntry) (l : list (pyfloat * nat * MemoryEntry)) :=
  match l with
  | [] => [x]
  | y :: l' => if ranked_after x y then y :: insert_ranked x l' else x :: l
  end.

Definition rank (l : list (pyfloat * nat * MemoryEntry)) := foldr insert_ranked [] l.

Definition search (now : Z) (query : pystr) (limit : Z) (tiers : option (list MemoryTier))
    (scope : option (list (pystr * pystr))) (include_expired : bool) (es : Entries) : Entries :=
  if (limit <=? 0)%Z then []
  else
    let entries := all_entries now tiers scope include_expired es in
    let scored := imap (fun i e => (relevance query (m_text e), i, e)) entries in
    ztake limit (map snd (filter (fun x => fl_lt (fl_of_Z 0) x.1.1 = true) (rank scored))).

Definition clear (tiers : option (list MemoryTier)) (scope : option (list (pystr * pystr))) (es : Entries) : Entries :=
  filter (fun e => in_tiers tiers e && matches_scope e scope = false) es.

Definition delete (id : pystr) (es : Entries) : bool * Entries :=
  let es' := filter (fun e => m_id e <> id) es in (negb (length es' =? length es)%nat, es').

Definition purge_expired (now : Z) (es : Entries) : Z * Entries :=
  let es' := filter (fun e => is_expired now e = false) es in ((zlen es - zlen es')%Z, es').
End Provider.

(** ** The JSON file ([JsonFileMemory]) *)

Definition MEMORY_SCHEMA_VERSION : Z := 2.

Section JsonFile.
Context `{PyRuntime} `{Datetime}.
(** The path, as messages show it, and the text of a decoding error. *)
Variable path : pystr.
Variable decode_error : pystr -> pystr.

Definition entry_json (e : MemoryEntry) : json :=
  JObj [(u "id", JStr (m_id e)); (u "text", JStr (m_text e)); (u "metadata", JObj (m_metadata e));
        (u "created_at", JStr (m_created_at e)); (u "tier", JStr (tier_value (m_tier e)));
        (u "source", JStr (source_value (m_source e)));
        (u "expires_at", match m_expires_at e with Some t => JStr t | None => JNull end)].

Definition memory_payload (es : Entries) : json :=
  JObj [(u "schema_version", JInt MEMORY_SCHEMA_VERSION); (u "entries", JList (map entry_json es))].

(** [str(item.get(key, ""))]. *)
Definition text_field (k : pystr) (d : jdict) : pystr := py_str (default (JStr []) (dict_get k d)).

Definition _enum_or_default {E} (of_value : pystr -> option E) (v : option json) (dflt : E) : E :=
  match v with Some (JStr s) => default dflt (of_value s) | _ => dflt end.

(** An entry of the file. [None]: its metadata is a non-empty sequence, which
    Python would read as pairs; persisting never writes one. *)
Definition entry_of_item (d : jdict) : option (result MemoryEntry) :=
  let md := match dict_get (u "metadata") d with Some m => if truthy m then m else JObj [] | None => JObj [] end in
  (fun r => rmap (fun md => {|
     m_id := text_field (u "id") d; m_text := text_field (u "text") d; m_metadata := md;
     m_created_at := text_field (u "created_at") d;
     m_tier := _enum_or_default tier_of (dict_get (u "tier") d) PERSISTENT;
     m_source := _enum_or_default source_of (dict_get (u "source") d) UNKNOWN;
     m_expires_at := as_str (dict_get (u "expires_at") d) |}) r) <$> py_dict md.

Fixpoint load_entries (l : list json) : option (result Entries) :=
  match l with
  | [] => Some (Ok [])
  | JObj d :: l' =>
    match entry_of_item d with
    | None => None
    | Some (Err e) => Some (Err e)
    | Some (Ok e) => (fun r => rmap (cons e) r) <$> load_entries l'
    end
  | _ :: l' => load_entries l'
  end.

Definition cannot_load_memory (why : pystr) : pyexn :=
  memory_error (u "Cannot load memory from " ++ path ++ u ": " ++ why).

(** [_load]. *)
Definition memory_load (file : option pystr) : option (result Entries) :=
  match file with
  | None => Some (Ok [])
  | Some text =>
    match json_loads text with
    | None => Some (Err (cannot_load_memory (decode_error text)))
    | Some (JObj d) =>
      match dict_get (u "entries") d with
      | None => Some (Err (cannot_load_memory (u "not a memory file")))
      | Some entries =>
        match default JNull (dict_get (u "schema_version") d) with
        | JList _ | JObj _ => Some (Err type_error)
        | version =>
          if negb (py_in version [JInt 1; JInt MEMORY_SCHEMA_VERSION])
          then Some (Err (cannot_load_memory (u "schema version " ++ py_repr version ++ u " is not supported (expected 1 or "
                 ++ dec MEMORY_SCHEMA_VERSION ++ u ")")))
          else match entries with
          | JList l => load_entries l
          | _ => Some (Err (cannot_load_memory (u "entries not a list")))
          end
        end
      end
    | Some _ => Some (Err (cannot_load_memory (u "not a memory file")))
    end
  end.

(** The store and its file; [io] is the error of the file system, if any. *)
Definition file_memory : Type := Entries * option pystr.

Definition _persist (io : option pyexn) (s : file_memory) : result unit * file_memory :=
  match io with
  | Some e => (Err e, s)
  | None => (Ok tt, (s.1, Some (json_dumps dumps_utf8 (memory_payload s.1))))
  end.

Definition _persist_or_remove_if_empty (io : option pyexn) (s : file_memory) : result unit * file_memory :=
  match s.1 with
  | [] => match s.2, io with
          | None, _ => (Ok tt, s)
          | Some _, Some e => (Err e, s)
          | Some _, None => (Ok tt, ([], None))
          end
  | _ => _persist io s
  end.

Definition file_add (io : option pyexn) (id created_at text : pystr) (md : jdict) (tier : MemoryTier)
    (src : MemorySource) (ttl : option json) (s : file_memory) : result MemoryEntry * file_memory :=
  match add id created_at text md tier src ttl s.1 with
  | (Err e, _) => (Err e, s)
  | (Ok e, es) => let '(r, s') := _persist io (es, s.2) in (rmap (fun _ => e) r, s')
  end.

Definition file_clear (io : option pyexn) (tiers : option (list MemoryTier)) (scope : option (list (pystr * pystr)))
    (s : file_memory) : result unit * file_memory :=
  _persist_or_remove_if_empty io (clear tiers scope s.1, s.2).

Definition file_delete (io : option pyexn) (id : pystr) (s : file_memory) : result bool * file_memory :=
  let '(deleted, es) := delete id s.1 in
  if deleted then let '(r, s') := _persist_or_remove_if_empty io (es, s.2) in (rmap (fun _ => deleted) r, s')
  else (Ok deleted, (es, s.2)).

Definition file_purge (io : option pyexn) (now : Z) (s : file_memory) : result Z * file_memory :=
  let '(purged, es) := purge_expired now s.1 in
  if (purged =? 0)%Z then (Ok purged, (es, s.2))
  else let '(r, s') := _persist_or_remove_if_empty io (es, s.2) in (rmap (fun _ => purged) r, s').
End JsonFile.

(** ** The provider's interface *)

Abbreviation Scope := (option (list (pystr * pystr))).
Abbreviation Tiers := (option (list MemoryTier)).

(** What a tool uses of a provider, and what the provider promises of its
    entries ([mp_entries]); an operation that raises may have been carried out. *)
Class MemoryProvider (P : Type) := {
  mp_entries : P -> Entries;
  mp_add : pystr -> MemorySource -> P -> result MemoryEntry * P;
  mp_search : pystr -> Z -> P -> result Entries;
  mp_all : Tiers -> Scope -> bool -> P -> result Entries;
  mp_clear : Tiers -> Scope -> P -> result unit * P;
  mp_delete : pystr -> P -> result bool * P;
  mp_cleared : forall ts sc p, mp_entries (mp_clear ts sc p).2 = clear ts sc (mp_entries p);
  mp_deleted : forall id p, mp_entries (mp_delete id p).2 = (delete id (mp_entries p)).2;
}.

(** ** The tools *)

Definition MAX_LIMIT : Z := 20.

Definition _entry_dict (e : MemoryEntry) : json :=
  JObj [(u "id", JStr (m_id e)); (u "text", JStr (m_text e)); (u "metadata", JObj (m_metadata e));
        (u "created_at", JStr (m_created_at e)); (u "tier", JStr (tier_value (m_tier e)));
        (u "source", JStr (source_value (m_source e)));
        (u "expires_at", match m_expires_at e with Some t => JStr t | None => JNull end)].

Definition entries_result (es : Entries) : ToolResult :=
  output_result (JObj [(u "memories", JList (map _entry_dict es)); (u "count", JInt (zlen es))]).

Section Tools.
Context `{PyRuntime} {P : Type} `{MemoryProvider P}.

(** The cap of a search. *)
Definition search_cap (default_limit : Z) (limit : option Z) : Z :=
  Z.min (match limit with Some l => if (0 <? l)%Z then l else default_limit | None => default_limit end) MAX_LIMIT.

(** [MemoryTool.execute]. *)
Definition memory_execute (default_limit : Z) (action text query : pystr) (limit : option Z) (p : P)
    : result ToolResult * P :=
  if decide (action = u "store") then
    if bool_decide (strip text = []) then (Ok (error_result (u "'store' requires a non-empty 'text'")), p)
    else let '(r, p') := mp_add text LLM_INFERENCE p in
         (rmap (fun e => output_result (JObj [(u "id", JStr (m_id e)); (u "stored", JBool true)])) r, p')
  else if decide (action = u "search") then
    if bool_decide (strip query = []) then (Ok (error_result (u "'search' requires a non-empty 'query'")), p)
    else (rmap entries_result (mp_search query (search_cap default_limit limit) p), p)
  else if decide (action = u "list") then (rmap entries_result (mp_all None None false p), p)
  else if decide (action = u "clear") then
    let '(r, p') := mp_clear None None p in (rmap (fun _ => output_result (JObj [(u "cleared", JBool true)])) r, p')
  else (Ok (error_result (u "unknown action: " ++ py_repr (JStr action))), p).

(** [_parse_tiers]: [Some None] is [None] given. *)
Definition _parse_tiers (values : option (list pystr)) : option Tiers :=
  match values with
  | None => Some None
  | Some vs => Some <$> mapM tier_of vs
  end.

Definition invalid_tiers : ToolResult := error_result (u "tiers must contain valid memory tier names").

(** [MemoryInspectTool.execute]; a scope has string keys and values by the schema. *)
Definition inspect_execute (tiers : option (list pystr)) (scope : Scope) (include_expired : bool) (p : P)
    : result ToolResult :=
  match _parse_tiers tiers with
  | None => Ok invalid_tiers
  | Some ts =>
    if bool_decide (scope = Some []) then Ok (error_result (u "scope must be an object with string keys and values"))
    else rmap entries_result (mp_all ts scope include_expired p)
  end.

(** [MemoryForgetTool.execute]. *)
Definition forget_execute (id : option pystr) (scope : Scope) (tiers : option (list pystr)) (p : P)
    : result ToolResult * P :=
  match id with
  | Some ((_ :: _) as i) =>
    let '(r, p') := mp_delete i p in
    (rmap (fun b => output_result (JObj [(u "deleted", JBool b); (u "id", JStr i)])) r, p')
  | _ =>
    match _parse_tiers tiers with
    | None => (Ok invalid_tiers, p)
    | Some ts =>
      match scope with
      | None | Some [] => (Ok (error_result (u "forgetting by scope requires a non-empty string-valued scope")), p)
      | Some sc =>
        if match ts with None => true | Some l => bool_decide (PERSISTENT ∈ l) end
        then (Ok (error_result (u "refusing to delete persistent memory by scope; delete a specific id instead")), p)
        else match mp_all ts scope true p with
        | Err e => (Err e, p)
        | Ok before =>
          let '(r, p') := mp_clear ts scope p in
          (rmap (fun _ => output_result (JObj [(u "deleted", JInt (zlen before));
             (u "scope", JObj (map (fun kv => (kv.1, JStr kv.2)) sc))])) r, p')
        end
      end
    end
  end.
End Tools.

(** ** Lemmas *)

Lemma tier_of_value t : tier_of (tier_value t) = Some t.
Proof. by destruct t. Qed.

Lemma source_of_value s : source_of (source_value s) = Some s.
Proof. by destruct s. Qed.

(** Only entries of a tier that is cleared go. *)
Lemma clear_keeps ts sc es e : e ∈ es -> in_tiers ts e = false -> e ∈ clear ts sc es.
Proof. intros He Ht. unfold clear. apply list_elem_of_filter. by rewrite Ht. Qed.

Lemma entry_roundtrip `{PyRuntime} e : exists d, entry_json e = JObj d /\ entry_of_item d = Some (Ok e).
Proof.
  destruct e as [i t md c tr sr ex]. eexists. split; [reflexivity|]. unfold entry_of_item.
  set (d := [_; _; _; _; _; _; _]).
  assert (match dict_get (u "metadata") d with Some m => if truthy m then m else JObj [] | None => JObj [] end = JObj md) as ->
    by by destruct md.
  cbn [py_dict fmap option_fmap option_map rmap]. do 2 f_equal.
  assert (dict_get (u "tier") d = Some (JStr (tier_value tr))) as -> by done.
  assert (dict_get (u "source") d = Some (JStr (source_value sr))) as -> by done.
  cbn [_enum_or_default]. rewrite tier_of_value, source_of_value. by destruct ex.
Qed.

Lemma load_entries_roundtrip `{PyRuntime} es : load_entries (map entry_json es) = Some (Ok es).
Proof.
  induction es as [|e es IH]; [done|]. cbn [map]. destruct (entry_roundtrip e) as (d & -> & Hd). cbn [load_entries].
  by rewrite Hd, IH.
Qed.

(** ** Ranking *)

Lemma sf_compare_antisym x y : SFcompare y x = option_map CompOpp (SFcompare x y).
Proof.
  destruct x as [sx|sx| |sx mx ex], y as [sy|sy| |sy my ey]; try done; try (by destruct sx); try (by destruct sy);
    try (by destruct sx, sy).
  destruct sx, sy; try done; unfold SFcompare; rewrite (Z.compare_antisym ex ey);
    change (Pos.compare_cont Eq) with Pos.compare; rewrite (Pos.compare_antisym mx my);
    destruct (ex ?= ey)%Z; try done; by destruct (mx ?= my)%positive.
Qed.

Lemma fl_lt_asym x y : fl_lt x y = true -> fl_lt y x = false.
Proof. unfold fl_lt, SFltb. rewrite (sf_compare_antisym x y). by destruct (SFcompare x y) as [[]|]. Qed.

Lemma fl_eq_sym x y : fl_eq x y = fl_eq y x.
Proof. unfold fl_eq, SFeqb. rewrite (sf_compare_antisym x y). by destruct (SFcompare x y) as [[]|]. Qed.

Lemma ranked_asym x y : ranked_after x y = true -> ranked_after y x = false.
Proof.
  unfold ranked_after. rewrite (fl_eq_sym y.1.1 x.1.1). destruct (fl_eq _ _); [|apply fl_lt_asym].
  intros Hl. apply Nat.ltb_lt in Hl. apply Nat.ltb_ge. lia.
Qed.

(** No entry of a ranking is followed by one that ranks before it. *)
Abbreviation in_rank_order := (Sorted (fun x y => ranked_after x y = false)).

Lemma insert_ranked_sorted x l : in_rank_order l -> in_rank_order (insert_ranked x l).
Proof.
  induction 1 as [|y l Hs IH Hd]; simpl; [repeat constructor|]. destruct (ranked_after x y) eqn:E.
  - constructor; [done|]. destruct l as [|z l]; simpl; [constructor; by apply ranked_asym|].
    destruct (ranked_after x z); constructor; [by inversion Hd|by apply ranked_asym].
  - constructor; [by constructor|]. by constructor.
Qed.

Lemma insert_ranked_perm x l : insert_ranked x l ≡ₚ x :: l.
Proof.
  induction l as [|y l IH]; simpl; [done|]. destruct (ranked_after x y); [|done]. rewrite IH. constructor.
Qed.

Lemma rank_sorted l : in_rank_order (rank l).
Proof. induction l as [|x l IH]; simpl; [constructor|by apply insert_ranked_sorted]. Qed.

Lemma rank_perm l : rank l ≡ₚ l.
Proof. induction l as [|x l IH]; simpl; [done|]. by rewrite insert_ranked_perm, IH. Qed.

(** ** Theorems *)

(** What a search may return. *)
Definition eligible `{Datetime} (now : Z) (ts : Tiers) (sc : Scope) (expired_too : bool) (e : MemoryEntry) : Prop :=
  in_tiers ts e = true /\ matches_scope e sc = true /\ (expired_too = false -> is_expired now e = false).

Lemma all_entries_spec `{Datetime} now ts sc x es e : e ∈ all_entries now ts sc x es <-> e ∈ es /\ eligible now ts sc x e.
Proof.
  unfold all_entries, eligible. rewrite list_elem_of_filter, !andb_true_iff, orb_true_iff, negb_true_iff.
  destruct x; naive_solver.
Qed.

(** a search returns at most [limit] entries, best match first, all of them
    stored, unexpired and in the requested tiers and scope, and sharing a word
    with the query; it omits such an entry only when the limit is reached. *)
Theorem search_is_ranked_recall `{Datetime} now query limit ts sc x es :
  exists ranked, in_rank_order ranked /\
    search now query limit ts sc x es = ztake limit (map snd (filter (fun y => fl_lt (fl_of_Z 0) y.1.1 = true) ranked)) /\
    (0 < limit -> zlen (search now query limit ts sc x es) <= limit)%Z /\
    (forall e, e ∈ search now query limit ts sc x es ->
       e ∈ es /\ eligible now ts sc x e /\ fl_lt (fl_of_Z 0) (relevance query (m_text e)) = true) /\
    (forall e, (zlen (search now query limit ts sc x es) < limit)%Z -> e ∈ es -> eligible now ts sc x e ->
       fl_lt (fl_of_Z 0) (relevance query (m_text e)) = true -> e ∈ search now query limit ts sc x es).
Proof.
  set (scored := imap (fun i e => (relevance query (m_text e), i, e)) (all_entries now ts sc x es)).
  assert (forall y, y ∈ rank scored <-> exists i e, y = (relevance query (m_text e), i, e) /\ all_entries now ts sc x es !! i = Some e) as Hin.
  { intros y. rewrite rank_perm. unfold scored. rewrite elem_of_lookup_imap. naive_solver. }
  exists (rank scored). split; [apply rank_sorted|].
  unfold search. fold scored. destruct (Z.leb_spec limit 0) as [Hl|Hl].
  { split; [unfold ztake; by rewrite Z2Nat.nonpos|]. split; [intros; unfold zlen; simpl; lia|].
    split; [by intros e ?%not_elem_of_nil|]. intros e Hz. unfold zlen in Hz. simpl in Hz. lia. }
  set (hits := map snd (filter _ (rank scored))).
  assert (forall e, e ∈ hits <-> e ∈ es /\ eligible now ts sc x e /\ fl_lt (fl_of_Z 0) (relevance query (m_text e)) = true) as Hhits.
  { intros e. unfold hits. rewrite list_elem_of_fmap. setoid_rewrite list_elem_of_filter. split.
    - intros (y & -> & Hy & Hr). apply Hin in Hr as (i & e' & -> & Hi). simpl in *.
      apply list_elem_of_lookup_2, all_entries_spec in Hi as [? ?]. done.
    - intros (He & Hel & Hs). assert (e ∈ all_entries now ts sc x es) as [i Hi]%list_elem_of_lookup by (by apply all_entries_spec).
      exists (relevance query (m_text e), i, e). split; [done|]. split; [done|]. apply Hin. by exists i, e. }
  split; [done|]. split; [intros _; rewrite zlen_ztake by lia; lia|]. split.
  - intros e He. apply Hhits. unfold ztake in He. rewrite <- (take_drop (Z.to_nat limit) hits). apply elem_of_app. by left.
  - intros e Hz He Hel Hs. rewrite zlen_ztake in Hz by lia. unfold ztake. rewrite take_ge by (unfold zlen in Hz; lia).
    by apply Hhits.
Qed.

(** forgetting deletes only what was named: with an id at most the entries of
    that id, without one never an entry of the persistent tier. *)
Theorem forgetting_spares_persistent `{PyRuntime} {P} `{MemoryProvider P} id sc tiers p r p' e :
  forget_execute id sc tiers p = (r, p') -> e ∈ mp_entries p ->
  match id with Some ((_ :: _) as i) => m_id e <> i | _ => m_tier e = PERSISTENT end -> e ∈ mp_entries p'.
Proof.
  intros Hf He Hk. unfold forget_execute in Hf.
  assert (forall ts r p', (match ts with None => true | Some l => bool_decide (PERSISTENT ∈ l) end) = false -> m_tier e = PERSISTENT ->
    mp_clear ts sc p = (r, p') -> e ∈ mp_entries p') as Hclear.
  { intros ts r0 p0 Ht Hp Hc. pose proof (mp_cleared ts sc p) as Hm. rewrite Hc in Hm. simpl in Hm. rewrite Hm.
    apply clear_keeps; [done|]. destruct ts as [l|]; [|done]. simpl. by rewrite Hp. }
  assert (forall o : option (list pystr), m_tier e = PERSISTENT ->
    match _parse_tiers o with
    | None => (Ok invalid_tiers, p)
    | Some ts => match sc with
      | None | Some [] => (Ok (error_result (u "forgetting by scope requires a non-empty string-valued scope")), p)
      | Some sc' =>
        if match ts with None => true | Some l => bool_decide (PERSISTENT ∈ l) end
        then (Ok (error_result (u "refusing to delete persistent memory by scope; delete a specific id instead")), p)
        else match mp_all ts sc true p with
        | Err e => (Err e, p)
        | Ok before => let '(r, p') := mp_clear ts sc p in
          (rmap (fun _ => output_result (JObj [(u "deleted", JInt (zlen before));
             (u "scope", JObj (map (fun kv => (kv.1, JStr kv.2)) sc'))])) r, p')
        end end end = (r, p') -> e ∈ mp_entries p') as Hscope.
  { intros o Hp. destruct (_parse_tiers o) as [ts|]; [|by intros [= _ <-]]. destruct sc as [[|kv sc']|]; [by intros [= _ <-]| |by intros [= _ <-]].
    destruct (match ts with None => true | Some l => bool_decide (PERSISTENT ∈ l) end) eqn:Ht; [by intros [= _ <-]|].
    destruct (mp_all _ _ _ _); [|by intros [= _ <-]]. destruct (mp_clear _ _ _) as [r0 p0] eqn:Hc. intros [= _ <-].
    by eapply Hclear. }
  destruct id as [[|c i]|]; [by eapply Hscope| |by eapply Hscope].
  pose proof (mp_deleted (c :: i) p) as Hd. destruct (mp_delete (c :: i) p) as [r0 p0]. injection Hf as _ <-. simpl in Hd.
  rewrite Hd. apply list_elem_of_filter. done.
Qed.

(** what the file store persisted is loaded back unchanged, and a failed write
    leaves the file as it was. *)
Theorem memory_file_roundtrip `{PyRuntime} path decode_error io (s : file_memory) :
  json_loads (json_dumps dumps_utf8 (memory_payload s.1)) = Some (memory_payload s.1) ->
  let '(r, s') := _persist io s in
  s'.1 = s.1 /\ match io with
  | None => r = Ok tt /\ memory_load path decode_error s'.2 = Some (Ok s.1)
  | Some e => r = Err e /\ s'.2 = s.2
  end.
Proof.
  intros Hj. unfold _persist. destruct io; [done|]. split; [done|]. split; [done|]. cbn [snd memory_load]. rewrite Hj.
  assert (forall d, memory_payload s.1 = JObj d -> dict_get (u "entries") d = Some (JList (map entry_json s.1)) /\
    dict_get (u "schema_version") d = Some (JInt 2)) as Hd by (by intros d [= <-]).
  unfold memory_payload in *. destruct (Hd _ eq_refl) as [-> ->]. cbn [from_option id].
  apply load_entries_roundtrip.
Qed.

(** ** The two providers of the package *)

Section Instances.
Context `{PyRuntime} `{Datetime}.
(** The clock and the identifier of the next entry; the file system's answer. *)
Variables (now : Z) (fresh_id created_at : pystr) (io : option pyexn).

Definition InMemoryMemory : MemoryProvider Entries.
Proof using All.
  refine {|
    mp_entries es := es;
    mp_add text src es := add fresh_id created_at text [] PERSISTENT src None es;
    mp_search q n es := Ok (search now q n None None false es);
    mp_all ts sc x es := Ok (all_entries now ts sc x es);
    mp_clear ts sc es := (Ok tt, clear ts sc es);
    mp_delete i es := let '(b, es') := delete i es in (Ok b, es') |}; done.
Defined.

Lemma persist_entries s : (_persist io s).2.1 = s.1.
Proof. unfold _persist. by destruct io. Qed.

Lemma persist_or_remove_entries s : (_persist_or_remove_if_empty io s).2.1 = s.1.
Proof. destruct s as [[|e es] f]; unfold _persist_or_remove_if_empty; cbn [fst snd]; [by destruct f, io|apply persist_entries]. Qed.

Definition JsonFileMemory : MemoryProvider file_memory.
Proof using All.
  refine {|
    mp_entries s := s.1;
    mp_add text src s := file_add io fresh_id created_at text [] PERSISTENT src None s;
    mp_search q n s := Ok (search now q n None None false s.1);
    mp_all ts sc x s := Ok (all_entries now ts sc x s.1);
    mp_clear := file_clear io;
    mp_delete := file_delete io |}.
  - intros ts sc s. apply persist_or_remove_entries.
  - intros i s. unfold file_delete, delete. destruct (negb _); [|done].
    pose proof (persist_or_remove_entries (filter (fun e => m_id e <> i) s.1, s.2)) as Hp.
    by destruct (_persist_or_remove_if_empty _ _).
Defined.
End Instances.

(** ** Witnesses *)

#[local] Instance utc_seconds : Datetime := {|
  iso_instant t := Some (zlen t); iso_after t _ := Ok (t ++ u "+"); lower_case := lower |}.

Definition fact (i : pystr) (t : MemoryTier) : MemoryEntry := {|
  m_id := i; m_text := u "the build uses tox"; m_metadata := [(u "run_id", JStr (u "r1"))]; m_created_at := [];
  m_tier := t; m_source := USER_INPUT; m_expires_at := None |}.

Definition two_facts : Entries := [fact (u "a") PERSISTENT; fact (u "b") WORKING].

#[local] Instance plain_runtime : PyRuntime :=
  decoding_runtime [(json_dumps (H := decoding_runtime []) dumps_utf8 (memory_payload two_facts), memory_payload two_facts)].

#[local] Instance memory_of_facts : MemoryProvider Entries := InMemoryMemory 0 (u "c") [] None.

Lemma forgetting_spares_persistent_witness :
  let '(r, p') := forget_execute None (Some [(u "run_id", u "r1")]) (Some [u "working"]) two_facts in
  p' = [fact (u "a") PERSISTENT] /\ fact (u "a") PERSISTENT ∈ mp_entries p'.
Proof.
  split; [vm_compute; reflexivity|].
  apply (forgetting_spares_persistent None (Some [(u "run_id", u "r1")]) (Some [u "working"]) two_facts
           (forget_execute None (Some [(u "run_id", u "r1")]) (Some [u "working"]) two_facts).1).
  - vm_compute. reflexivity.
  - apply list_elem_of_here.
  - reflexivity.
Defined.

Lemma memory_file_roundtrip_witness :
  let '(r, s') := _persist None (two_facts, None) in
  s'.1 = two_facts /\ r = Ok tt /\ memory_load (u "memory.json") id s'.2 = Some (Ok two_facts).
Proof.
  apply (memory_file_roundtrip (u "memory.json") id None (two_facts, None)). vm_compute. reflexivity.
Defined.
