(* ===== verification/Replay.v ===== *)
(** * Recording and resuming runs (kinetic_sdk/replay/models.py, store.py, recorder.py, checkpoint.py)

    A replay is an append-only list of steps. The recorder appends redacted events
    and state snapshots; the checkpoint manager writes a snapshot and the agent's
    runtime state into it and rebuilds both from the latest ones. What they need
    of a store is the interface [ReplayStore]; the JSON file is one instance. *)

From stdpp Require Import base gmap strings list.
From Stdlib Require Import ZArith Lia SpecFloat.
From S2P Require Import Prelude Json Types Validation Summary Conversation EventBus Redact Policy Budgets.
From S2P Require Import Store AgentState AgentTools.

(** ** Replays *)

Record ReplayStep := {
  sequence : Z;
  timestamp : pystr;
  event_type : pystr;
  payload : jdict;
}.

Record ReplayRun := {
  rr_run_id : pystr;
  steps : list ReplayStep;
  parent_run_id : option pystr;
  fork_sequence : option Z;
}.

Definition add_step (r : ReplayRun) (s : ReplayStep) : ReplayRun := {|
  rr_run_id := rr_run_id r; steps := steps r ++ [s];
  parent_run_id := parent_run_id r; fork_sequence := fork_sequence r |}.

Definition step_to_dict (s : ReplayStep) : json :=
  JObj [(u "sequence", JInt (sequence s)); (u "timestamp", JStr (timestamp s));
        (u "event_type", JStr (event_type s)); (u "payload", JObj (payload s))].

(** [isinstance(x, int)]; a [bool] is one. *)
Definition int_like (x : option json) : option Z :=
  match x with
  | Some (JInt z) => Some z
  | Some (JBool b) => Some (if b then 1 else 0)%Z
  | _ => None
  end.

Definition step_from_dict (d : jdict) : result ReplayStep :=
  match int_like (dict_get (u "sequence") d) with
  | Some seq =>
    if (seq <? 0)%Z then Err (value_error (u "step.sequence must be a non-negative int"))
    else match dict_get (u "timestamp") d, dict_get (u "event_type") d with
    | Some (JStr ts), Some (JStr ty) =>
      match dict_get (u "payload") d with
      | Some (JObj p) => Ok {| sequence := seq; timestamp := ts; event_type := ty; payload := p |}
      | _ => Err (value_error (u "step.payload must be a dict"))
      end
    | _, _ => Err (value_error (u "step timestamp and event_type must be strings"))
    end
  | None => Err (value_error (u "step.sequence must be a non-negative int"))
  end.

Definition run_to_dict (r : ReplayRun) : jdict :=
  [(u "run_id", JStr (rr_run_id r)); (u "steps", JList (map step_to_dict (steps r)))]
  ++ match parent_run_id r with Some p => [(u "parent_run_id", JStr p)] | None => [] end
  ++ match fork_sequence r with Some z => [(u "fork_sequence", JInt z)] | None => [] end.

(** The steps that are dictionaries, parsed in order. *)
Fixpoint parse_steps (l : list json) : result (list ReplayStep) :=
  match l with
  | [] => Ok []
  | JObj d :: l' => s <-! step_from_dict d ;; ss <-! parse_steps l' ;; Ok (s :: ss)
  | _ :: l' => parse_steps l'
  end.

Fixpoint contiguous (next : Z) (ss : list ReplayStep) : bool :=
  match ss with
  | [] => true
  | s :: ss' => (sequence s =? next)%Z && contiguous (next + 1) ss'
  end.

Definition parent_ok (x : option json) : option (option pystr) :=
  match x with
  | None | Some JNull => Some None
  | Some (JStr ((_ :: _) as p)) => Some (Some p)
  | _ => None
  end.

Definition fork_ok (x : option json) : option (option Z) :=
  match x with
  | None | Some JNull => Some None
  | _ => match int_like x with
         | Some z => if (z <? 0)%Z then None else Some (Some z)
         | None => None
         end
  end.

Definition run_from_dict (d : jdict) : result ReplayRun :=
  match dict_get (u "run_id") d with
  | Some (JStr ((_ :: _) as id)) =>
    match dict_get (u "steps") d with
    | Some (JList l) =>
      match parent_ok (dict_get (u "parent_run_id") d) with
      | None => Err (value_error (u "parent_run_id must be a non-empty string when supplied"))
      | Some parent =>
        match fork_ok (dict_get (u "fork_sequence") d) with
        | None => Err (value_error (u "fork_sequence must be a non-negative int when supplied"))
        | Some fork =>
          parsed <-! parse_steps l ;;
          if negb (length parsed =? length l)%nat then Err (value_error (u "each step must be a dict"))
          else if negb (contiguous 0 parsed)
          then Err (value_error (u "step sequences must start at zero and be contiguous"))
          else Ok {| rr_run_id := id; steps := parsed; parent_run_id := parent; fork_sequence := fork |}
        end
      end
    | _ => Err (value_error (u "steps must be a list"))
    end
  | _ => Err (value_error (u "run_id must be a non-empty string"))
  end.

(** What every replay that can be loaded satisfies. *)
Definition run_wf (r : ReplayRun) : Prop :=
  rr_run_id r <> [] /\ contiguous 0 (steps r) = true /\ parent_run_id r <> Some [] /\
  match fork_sequence r with Some z => (0 <= z)%Z | None => True end.

(** [run_wf] as the conditions that loading checks. *)
Definition run_wf_b (r : ReplayRun) : bool :=
  bool_decide (rr_run_id r <> []) && contiguous 0 (steps r) && bool_decide (parent_run_id r <> Some []) &&
  match fork_sequence r with Some z => (0 <=? z)%Z | None => true end.

(** ** Stores *)

Class ReplayStore (D : Type) := {
  rp_save : ReplayRun -> D -> result unit * D;
  rp_load : D -> result (option ReplayRun);
  (** The replays that the store's encoding represents. *)
  rp_encodes : ReplayRun -> Prop;
  rp_wf : forall d r, rp_load d = Ok (Some r) -> run_wf r;
  rp_load_save : forall r d d', run_wf r -> rp_encodes r -> rp_save r d = (Ok tt, d') -> rp_load d' = Ok (Some r);
}.

Definition REPLAY_SCHEMA_VERSION : Z := 1.

Definition replay_error (msg : pystr) : pyexn := PyExn (u "ReplayStoreError") msg.

Section JsonFile.
Context `{PyRuntime}.
Variable path : pystr.
Variable decode_error : pystr -> pystr.
(** The file system's answer to a write. *)
Variable io : option pyexn.

Definition cannot_load_replay (why : pystr) : pyexn :=
  replay_error (u "Cannot load replay from " ++ path ++ u ": " ++ why).

Definition replay_payload (r : ReplayRun) : json :=
  JObj [(u "schema_version", JInt REPLAY_SCHEMA_VERSION); (u "replay", JObj (run_to_dict r))].

Definition replay_save (r : ReplayRun) (file : option pystr) : result unit * option pystr :=
  match io with
  | Some e => (Err e, file)
  | None => (Ok tt, Some (json_dumps dumps_utf8 (replay_payload r)))
  end.

Definition replay_load (file : option pystr) : result (option ReplayRun) :=
  match file with
  | None => Ok None
  | Some text =>
    match json_loads text with
    | None => Err (cannot_load_replay (decode_error text))
    | Some (JObj d) =>
      match dict_get (u "replay") d with
      | None => Err (cannot_load_replay (u "not a replay file"))
      | Some replay =>
        let version := default JNull (dict_get (u "schema_version") d) in
        if negb (py_eq version (JInt REPLAY_SCHEMA_VERSION))
        then Err (cannot_load_replay (u "schema version " ++ py_repr version ++ u " is not supported (expected "
               ++ dec REPLAY_SCHEMA_VERSION ++ u ")"))
        else match replay with
        | JObj data =>
          match run_from_dict data with
          | Ok r => Ok (Some r)
          | Err e => Err (cannot_load_replay (exn_msg e))
          end
        | _ => Err (cannot_load_replay (u "replay must be a dict"))
        end
      end
    | Some _ => Err (cannot_load_replay (u "not a replay file"))
    end
  end.
End JsonFile.

(** ** The recorder *)

(** A state whose strings are redacted; a summary object is left as it is. *)
Definition redact_entry `{SecretPatterns} (kv : pystr * mvalue) : pystr * mvalue :=
  match kv.2 with
  | MJson j => match redact_value (JObj [(kv.1, j)]) with JObj [(_, j')] => (kv.1, MJson j') | _ => kv end
  | MSummary _ => kv
  end.

Definition redact_message `{SecretPatterns} (m : message) : message :=
  match redact_value (JObj m) with JObj d => d | _ => m end.

Definition redact_state `{SecretPatterns} (st : ConversationState) : ConversationState := {|
  system_prompt := option_map redact_secrets (system_prompt st);
  messages := map redact_message (messages st);
  max_messages := max_messages st;
  metadata := map redact_entry (metadata st) |}.

Record RecorderConfig := {
  capture_raw_snapshots : bool;
  capture_reasoning : bool;
  rc_parent_run_id : option pystr;
  rc_fork_sequence : option Z;
}.

Definition make_recorder (raw reasoning : bool) (parent : option pystr) (fork : option Z) : result RecorderConfig :=
  if negb (bool_decide (is_Some parent <-> is_Some fork))
  then Err (value_error (u "parent_run_id and fork_sequence must be supplied together"))
  else Ok {| capture_raw_snapshots := raw; capture_reasoning := reasoning;
             rc_parent_run_id := parent; rc_fork_sequence := fork |}.

Section Recorder.
Context `{SecretPatterns} {D : Type} `{ReplayStore D}.
Variable cfg : RecorderConfig.
(** [str(...)] of a summary object, which the stores write for it. *)
Variable summary_str : StructuredSummary -> pystr.

(** [_run] and the store. *)
Definition rec_state : Type := option ReplayRun * D.

Definition _new_run (run_id : pystr) (d : D) : result ReplayRun :=
  existing <-! rp_load d ;;
  let fresh := {| rr_run_id := run_id; steps := []; parent_run_id := rc_parent_run_id cfg;
                  fork_sequence := rc_fork_sequence cfg |} in
  Ok (match existing with
      | Some r => if decide (rr_run_id r = run_id) then r else fresh
      | None => fresh
      end).

Definition _append (now ty : pystr) (p : jdict) (r : ReplayRun) (d : D) : result unit * rec_state :=
  let r' := add_step r {| sequence := zlen (steps r); timestamp := now; event_type := ty; payload := p |} in
  let '(res, d') := rp_save r' d in (res, (Some r', d')).

Definition record_step (now run_id ty : pystr) (p : jdict) (s : rec_state) : result unit * rec_state :=
  match s.1 with
  | Some r =>
    if decide (rr_run_id r = run_id) then _append now ty p r s.2
    else match _new_run run_id s.2 with Ok r => _append now ty p r s.2 | Err e => (Err e, s) end
  | None => match _new_run run_id s.2 with Ok r => _append now ty p r s.2 | Err e => (Err e, s) end
  end.

Definition handle (now : pystr) (e : Event) (s : rec_state) : result unit * rec_state :=
  if bool_decide (e_type e = u "agent.reasoning_trace") && negb (capture_reasoning cfg) then (Ok tt, s)
  else match dict_get (u "run_id") (e_payload e) with
  | Some (JStr ((_ :: _) as run_id)) =>
    record_step now run_id (e_type e) (redact_message (e_payload e)) s
  | _ => (Ok tt, s)
  end.

Definition snapshot (now : pystr) (st : ConversationState) (run_id : option pystr) (s : rec_state)
    : result unit * rec_state :=
  match run_id with
  | None => (Ok tt, s)
  | Some run_id =>
    let st' := if capture_raw_snapshots cfg then st else redact_state st in
    match state_to_dict (fun x => Some (JStr (summary_str x))) st' with
    | Some d => record_step now run_id (u "replay.snapshot") [(u "state", JObj d)] s
    | None => (Err type_error, s)
    end
  end.
End Recorder.

(** ** Restoring runtime state ([Agent._restore_checkpoint_runtime_state]) *)

Definition missing_key (k : pystr) : pyexn := PyExn (u "KeyError") (u "'" ++ k ++ u "'").

Definition invalid_runtime (e : pyexn) : pyexn :=
  value_error (u "Invalid checkpoint runtime state: " ++ exn_msg e).

(** [d[k]]. *)
Definition item (k : pystr) (d : jdict) : result json :=
  match dict_get k d with Some v => Ok v | None => Err (missing_key k) end.

(** [int(x)]; [None]: strings and floats, which saving never writes here. *)
Definition py_int (x : json) : option (result Z) :=
  match x with
  | JInt z => Some (Ok z)
  | JBool b => Some (Ok (if b then 1 else 0)%Z)
  | JStr _ | JFloat _ => None
  | JNull | JList _ | JObj _ => Some (Err type_error)
  end.

Definition agent_mode (x : json) : result AgentMode :=
  match x with
  | JStr v => match mode_of_value v with Some m => Ok m | None => Err (value_error v) end
  | _ => Err (value_error [])
  end.

Section Restore.
Context `{PyRuntime}.

Definition restore_routing (d : jdict) : option (result Routing) :=
  match (m <-! item (u "mode") d ;; agent_mode m), item (u "sticky_max") d, item (u "max_iterations") d with
  | Err e, _, _ | Ok _, Err e, _ | Ok _, Ok _, Err e => Some (Err (invalid_runtime e))
  | Ok m, Ok sticky, Ok cap =>
    match py_int cap with
    | None => None
    | Some (Err e) => Some (Err (invalid_runtime e))
    | Some (Ok cap) =>
      match item (u "enable_extended_reasoning") d with
      | Err e => Some (Err (invalid_runtime e))
      | Ok reasoning => Some (Ok
          (MkRouting m (truthy reasoning) cap (int_like (dict_get (u "max_iterations_override") d)) (truthy sticky)))
      end
    end
  end.

(** [ToolCall(str(d["id"]), str(d["name"]), dict(d["arguments"]))]. *)
Definition call_from_dict (d : jdict) : option (result ToolCall) :=
  match item (u "id") d, item (u "name") d, item (u "arguments") d with
  | Err e, _, _ | Ok _, Err e, _ | Ok _, Ok _, Err e => Some (Err e)
  | Ok i, Ok n, Ok a =>
    (fun r => rmap (fun args => {| tc_id := py_str i; tc_name := py_str n; tc_arguments := args |}) r) <$> py_dict a
  end.

(** [PermissionDecision( **d )]; [None]: fields of other types than it declares. *)
Definition decision_from_dict (d : jdict) : option (result PermissionDecision) :=
  if existsb (fun kv => negb (elem_b kv.1 [u "allowed"; u "reason"; u "requires_confirmation"])) d
  then Some (Err type_error)
  else
    match dict_get (u "allowed") d, default (JStr []) (dict_get (u "reason") d),
          default (JBool false) (dict_get (u "requires_confirmation") d) with
    | None, _, _ => Some (Err type_error)
    | Some (JBool a), JStr r, JBool c => Some (Ok {| allowed := a; reason := r; requires_confirmation := c |})
    | _, _, _ => None
    end.

Definition restore_pending (d : jdict) (current : option Pending) : option (result (option Pending)) :=
  match dict_get (u "pending_confirmation") d with
  | Some (JObj p) =>
    match dict_get (u "call") p, dict_get (u "arguments") p, dict_get (u "decision") p with
    | Some (JObj c), Some (JObj a), Some (JObj dec) =>
      match call_from_dict c, decision_from_dict dec with
      | Some (Ok c), Some (Ok dec) => Some (Ok (Some {| pc_call := c; pc_arguments := a; pc_decision := dec |}))
      | Some (Err e), _ => Some (Err e)
      | None, _ => None
      | Some (Ok _), Some (Err e) => Some (Err e)
      | Some (Ok _), None => None
      end
    | _, _, _ => Some (Err (value_error (u "Invalid pending confirmation checkpoint data")))
    end
  | _ => Some (Ok current)
  end.

Fixpoint restore_calls (l : list json) : option (result (list ToolCall)) :=
  match l with
  | [] => Some (Ok [])
  | JObj d :: l' =>
    match call_from_dict d with
    | Some (Ok c) => (fun r => rmap (fun cs => c :: cs) r) <$> restore_calls l'
    | Some (Err e) => Some (Err e)
    | None => None
    end
  | _ :: l' => restore_calls l'
  end.

(** The routing and run state of the agent after the restore. *)
Definition _restore_checkpoint_runtime_state (run_id : pystr) (runtime : jdict) (rs : RunState)
    : option (result (Routing * RunState)) :=
  match restore_routing runtime with
  | None => None
  | Some (Err e) => Some (Err e)
  | Some (Ok r) =>
    match restore_pending runtime (_pending_confirmation rs) with
    | None => None
    | Some (Err e) => Some (Err e)
    | Some (Ok pending) =>
      match default (JList []) (dict_get (u "pending_remaining_calls") runtime) with
      | JList l =>
        (fun calls => rmap (fun calls => (r, MkRun (Some run_id) true pending calls (_stop_reason rs))) calls)
          <$> restore_calls l
      | _ => Some (Err (value_error (u "Invalid pending remaining calls checkpoint data")))
      end
    end
  end.
End Restore.

(** ** [CheckpointManager] *)

Section Checkpoints.
Context `{PyRuntime} `{SecretPatterns} {D : Type} `{ReplayStore D}.
Variable summary_str : StructuredSummary -> pystr.

Definition raw_recorder : RecorderConfig := {|
  capture_raw_snapshots := true; capture_reasoning := false; rc_parent_run_id := None; rc_fork_sequence := None |}.

(** [CheckpointManager.save], given the agent's state, run id and runtime state. *)
Definition checkpoint_write (now : pystr) (st : ConversationState) (run_id : option pystr) (runtime : jdict) (d : D)
    : result pystr * D :=
  match run_id with
  | Some ((_ :: _) as id) =>
    let '(r1, s1) := snapshot raw_recorder summary_str now st run_id (None, d) in
    match r1 with
    | Err e => (Err e, s1.2)
    | Ok _ =>
      let '(r2, s2) := handle raw_recorder now {| e_type := u "replay.checkpoint";
        e_payload := [(u "run_id", JStr id); (u "agent", JObj runtime)]; e_source := None |} s1 in
      (rmap (fun _ => id) r2, s2.2)
    end
  | _ => (Err (checkpoint_error (u "Cannot checkpoint an agent before its run has started")), d)
  end.

(** The last step of a type. *)
Definition last_step (ty : pystr) (ss : list ReplayStep) : option ReplayStep :=
  last (filter (fun s => event_type s = ty) ss).

(** What [CheckpointManager.resume] reads before it builds the agent: the loaded
    conversation and the runtime state. [checkpoint_id] appears in messages only. *)
Definition checkpoint_read (checkpoint_id : pystr) (d : D) : option (result (Loaded * jdict)) :=
  match rp_load d with
  | Err e => Some (Err e)
  | Ok replay =>
    match replay with
    | Some r =>
      if decide (rr_run_id r = checkpoint_id) then
        match last_step (u "replay.snapshot") (steps r), last_step (u "replay.checkpoint") (steps r) with
        | Some snap, Some meta =>
          match dict_get (u "state") (payload snap), dict_get (u "agent") (payload meta) with
          | Some (JObj state), Some (JObj runtime) =>
            (fun l => match l with
             | Ok l => Ok (l, runtime)
             | Err e => Err (checkpoint_error (u "Checkpoint " ++ repr checkpoint_id ++ u " has invalid state: " ++ exn_msg e))
             end) <$> state_from_dict (JObj state)
          | _, _ => Some (Err (checkpoint_error (u "Checkpoint " ++ repr checkpoint_id ++ u " is invalid")))
          end
        | _, _ => Some (Err (checkpoint_error (u "Checkpoint " ++ repr checkpoint_id ++ u " is incomplete")))
        end
      else Some (Err (checkpoint_error (u "Checkpoint " ++ repr checkpoint_id ++ u " was not found")))
    | None => Some (Err (checkpoint_error (u "Checkpoint " ++ repr checkpoint_id ++ u " was not found")))
    end
  end.

(** [CheckpointManager.resume]: the conversation, routing and run state of the
    rebuilt agent, given those of a newly constructed one, and the store with the
    resumption recorded. *)
Definition checkpoint_resume (now checkpoint_id : pystr) (fresh : RunState) (d : D)
    : option (result (Loaded * Routing * RunState) * D) :=
  match checkpoint_read checkpoint_id d with
  | None => None
  | Some (Err e) => Some (Err e, d)
  | Some (Ok (l, runtime)) =>
    match _restore_checkpoint_runtime_state checkpoint_id runtime fresh with
    | None => None
    | Some (Err e) => Some (Err e, d)
    | Some (Ok (r, rs)) =>
      let '(res, s) := handle raw_recorder now {| e_type := u "replay.resumed";
        e_payload := [(u "run_id", JStr checkpoint_id); (u "checkpoint_id", JStr checkpoint_id)];
        e_source := None |} (None, d) in
      Some (rmap (fun _ => (l, r, rs)) res, s.2)
    end
  end.
End Checkpoints.

(** ** Lemmas *)

Lemma contiguous_nonneg n ss : (0 <= n)%Z -> contiguous n ss = true -> Forall (fun s => (0 <= sequence s)%Z) ss.
Proof.
  revert n; induction ss as [|s ss IH]; intros n Hn; simpl; [constructor|].
  intros [Hs Hss]%andb_true_iff. apply Z.eqb_eq in Hs. constructor; [lia|]. apply (IH (n + 1)%Z); [lia|done].
Qed.

Lemma contiguous_snoc n ss s : contiguous n (ss ++ [s]) = contiguous n ss && (sequence s =? n + zlen ss)%Z.
Proof.
  revert n; induction ss as [|x ss IH]; intros n; simpl.
  - rewrite andb_true_r. by replace (n + zlen [])%Z with n by (unfold zlen; simpl; lia).
  - rewrite IH, andb_assoc. f_equal. f_equal. rewrite zlen_cons. lia.
Qed.

Lemma parse_steps_dicts ss : Forall (fun s => (0 <= sequence s)%Z) ss -> parse_steps (map step_to_dict ss) = Ok ss.
Proof.
  induction 1 as [|s ss Hs _ IH]; simpl; [done|]. unfold step_from_dict. simpl.
  destruct (Z.ltb_spec (sequence s) 0); [lia|]. simpl. rewrite IH. by destruct s.
Qed.

Lemma parse_steps_nonneg l ss : parse_steps l = Ok ss -> (length ss <= length l)%nat.
Proof.
  revert ss; induction l as [|x l IH]; intros ss; simpl; [by intros [= <-]|].
  destruct x; try (intros Hp; apply IH in Hp; lia).
  destruct (step_from_dict d) as [s|e]; [|done]. simpl. destruct (parse_steps l) as [ss'|e]; [|done].
  intros [= <-]. simpl. specialize (IH ss' eq_refl). lia.
Qed.

(** Parsing inverts printing. *)
Lemma run_dict_roundtrip r : run_wf r -> run_from_dict (run_to_dict r) = Ok r.
Proof.
  intros (Hid & Hc & Hp & Hf). unfold run_from_dict.
  assert (dict_get (u "run_id") (run_to_dict r) = Some (JStr (rr_run_id r))) as -> by done.
  assert (dict_get (u "steps") (run_to_dict r) = Some (JList (map step_to_dict (steps r)))) as -> by done.
  assert (parent_ok (dict_get (u "parent_run_id") (run_to_dict r)) = Some (parent_run_id r)) as ->.
  { unfold run_to_dict. destruct (parent_run_id r) as [[|x p]|], (fork_sequence r); done. }
  assert (fork_ok (dict_get (u "fork_sequence") (run_to_dict r)) = Some (fork_sequence r)) as ->.
  { assert (dict_get (u "fork_sequence") (run_to_dict r) = option_map JInt (fork_sequence r)) as ->
      by (unfold run_to_dict; by destruct (parent_run_id r), (fork_sequence r)).
    destruct (fork_sequence r) as [z|]; simpl; [|done]. by destruct (Z.ltb_spec z 0); [lia|]. }
  rewrite parse_steps_dicts by (by eapply contiguous_nonneg). cbn [rbind].
  rewrite length_map, Nat.eqb_refl, Hc. destruct r as [[|c id] ss p f]; done.
Qed.

Lemma parent_ok_spec x p : parent_ok x = Some p -> p <> Some [].
Proof. destruct x as [[| | | |[|c s]| |]|]; simpl; intros [= <-]; done. Qed.

Lemma fork_ok_spec x f : fork_ok x = Some f -> match f with Some z => (0 <= z)%Z | None => True end.
Proof.
  destruct x as [[|b|z| | | |]|]; simpl; try (intros [= <-]; done); try done.
  - destruct b; simpl; intros [= <-]; lia.
  - destruct (Z.ltb_spec z 0); [done|]. intros [= <-]. lia.
Qed.

Lemma run_from_dict_wf d r : run_from_dict d = Ok r -> run_wf r.
Proof.
  unfold run_from_dict. destruct (dict_get (u "run_id") d) as [[| | | |[|c id]| |]|]; try done.
  destruct (dict_get (u "steps") d) as [[| | | | |l|]|]; try done.
  destruct (parent_ok _) as [p|] eqn:Ep; [|done]. destruct (fork_ok _) as [f|] eqn:Ef; [|done].
  destruct (parse_steps l) as [ss|e]; [|done]. simpl. destruct (negb (_ =? _)%nat); [done|].
  destruct (contiguous 0 ss) eqn:Ec; [|done]. intros [= <-].
  split; [done|]. split; [done|]. split; [by eapply parent_ok_spec|by eapply fork_ok_spec].
Qed.

Lemma run_wf_b_spec r : run_wf_b r = true <-> run_wf r.
Proof.
  unfold run_wf_b, run_wf. rewrite !andb_true_iff, !bool_decide_eq_true.
  destruct (fork_sequence r); [rewrite Z.leb_le|]; tauto.
Qed.

Lemma add_step_wf r now ty p : run_wf r ->
  run_wf (add_step r {| sequence := zlen (steps r); timestamp := now; event_type := ty; payload := p |}).
Proof.
  intros (Hid & Hc & Hp & Hf). split; [done|]. split; [|done]. simpl. rewrite contiguous_snoc, Hc. simpl. apply Z.eqb_refl.
Qed.

(** The JSON file implements the interface; it represents the replays on which
    [json.loads] inverts [json.dumps]. *)
Section JsonStore.
Context `{PyRuntime} (path : pystr) (decode_error : pystr -> pystr) (io : option pyexn).

#[export] #[refine] Instance json_file_store : ReplayStore (option pystr) := {|
  rp_save := replay_save io;
  rp_load := replay_load path decode_error;
  rp_encodes r := json_loads (json_dumps dumps_utf8 (replay_payload r)) = Some (replay_payload r);
|}.
Proof using All.
  - intros [text|] r; [|done]. unfold replay_load. destruct (json_loads text) as [[| | | | | |d]|]; try done.
    destruct (dict_get (u "replay") d) as [rep|]; [|done]. destruct (negb _); [done|]. destruct rep; try done.
    destruct (run_from_dict d0) as [r'|] eqn:E; [|done]. intros [= <-]. by eapply run_from_dict_wf.
  - intros r d d' Hwf Hinv Hs. unfold replay_save in Hs. destruct io; [done|].
    apply (f_equal snd) in Hs. cbn [snd] in Hs. subst d'. unfold replay_load.
    rewrite Hinv. unfold replay_payload. cbn [dict_get]. rewrite decide_False by done.
    rewrite decide_True by done. rewrite decide_True by done.
    change (py_eq (default JNull (Some (JInt REPLAY_SCHEMA_VERSION))) (JInt REPLAY_SCHEMA_VERSION)) with true.
    cbn [negb]. by rewrite (run_dict_roundtrip r Hwf).
Defined.
End JsonStore.

(** A store in memory: one slot that every save fills. *)
#[export] #[refine] Instance memory_store : ReplayStore (option ReplayRun) := {|
  rp_save r _ := (Ok tt, Some r);
  rp_load d := Ok (match d with Some r => if run_wf_b r then Some r else None | None => None end);
  rp_encodes _ := True;
|}.
Proof.
  - intros [r'|] r; [|done]. destruct (run_wf_b r') eqn:E; [|done]. intros [= <-]. by apply run_wf_b_spec.
  - intros r d d' Hwf _ [= <-]. apply run_wf_b_spec in Hwf. by rewrite Hwf.
Defined.

Section RecorderFacts.
Context `{SecretPatterns} {D : Type} `{ReplayStore D}.
Variable cfg : RecorderConfig.

(** The lineage of a recorder that can be read back. *)
Definition lineage_wf : Prop :=
  rc_parent_run_id cfg <> Some [] /\ match rc_fork_sequence cfg with Some z => (0 <= z)%Z | None => True end.

(** The replay a step of [run_id] goes to. *)
Definition current (run_id : pystr) (s : rec_state) : result ReplayRun :=
  match s.1 with
  | Some r => if decide (rr_run_id r = run_id) then Ok r else _new_run cfg run_id s.2
  | None => _new_run cfg run_id s.2
  end.

Lemma record_step_current now run_id ty p (s : rec_state) :
  record_step cfg now run_id ty p s =
  match current run_id s with Ok r => _append now ty p r s.2 | Err e => (Err e, s) end.
Proof. unfold record_step, current. destruct s as [[r|] d]; simpl; [|done]. by case_decide. Qed.

Lemma new_run_wf run_id (d : D) r : run_id <> [] -> lineage_wf -> _new_run cfg run_id d = Ok r ->
  run_wf r /\ rr_run_id r = run_id.
Proof.
  intros Hid [Hp Hf]. unfold _new_run. destruct (rp_load d) as [[r0|]|e] eqn:E; simpl; [| |done].
  - case_decide as Heq; intros [= <-]; [|by repeat split]. split; [by eapply rp_wf|done].
  - intros [= <-]. by repeat split.
Qed.

Lemma current_wf run_id (s : rec_state) r : run_id <> [] -> lineage_wf ->
  (forall r0, s.1 = Some r0 -> run_wf r0) -> current run_id s = Ok r -> run_wf r /\ rr_run_id r = run_id.
Proof.
  intros Hid Hl Hs. unfold current. destruct (s.1) as [r0|] eqn:E; [|by apply new_run_wf].
  case_decide as Heq; [|by apply new_run_wf]. intros [= <-]. split; [by apply Hs|done].
Qed.

Lemma append_ok now ty p r (d : D) (s : rec_state) : run_wf r -> _append now ty p r d = (Ok tt, s) ->
  let r' := add_step r {| sequence := zlen (steps r); timestamp := now; event_type := ty; payload := p |} in
  s.1 = Some r' /\ run_wf r' /\ (rp_encodes r' -> rp_load s.2 = Ok (Some r')).
Proof.
  intros Hwf. unfold _append. destruct (rp_save _ d) as [res d'] eqn:Es. intros [= -> <-]. simpl.
  pose proof (add_step_wf r now ty p Hwf) as Hwf'. split; [done|]. split; [done|].
  intros Henc. by eapply rp_load_save.
Qed.

(** The steps that a list of (time, event) pairs becomes, numbered from [n]. *)
Fixpoint numbered (n : Z) (l : list (pystr * Event)) : list ReplayStep :=
  match l with
  | [] => []
  | (now, e) :: l' =>
    {| sequence := n; timestamp := now; event_type := e_type e; payload := redact_message (e_payload e) |}
    :: numbered (n + 1) l'
  end.

(** Every event is handed to [handle], until one raises. *)
Fixpoint record_all (l : list (pystr * Event)) (s : rec_state) : result unit * rec_state :=
  match l with
  | [] => (Ok tt, s)
  | (now, e) :: l' =>
    match handle cfg now e s with
    | (Ok _, s') => record_all l' s'
    | r => r
    end
  end.

(** An event of the run that the recorder does not skip. *)
Definition recordable (run_id : pystr) (x : pystr * Event) : Prop :=
  dict_get (u "run_id") (e_payload x.2) = Some (JStr run_id) /\ e_type x.2 <> u "agent.reasoning_trace".

Lemma handle_recordable run_id now e (s : rec_state) : run_id <> [] -> recordable run_id (now, e) ->
  handle cfg now e s = record_step cfg now run_id (e_type e) (redact_message (e_payload e)) s.
Proof.
  intros Hid [Hr Ht]. simpl in *. unfold handle. rewrite bool_decide_eq_false_2 by done. simpl. rewrite Hr.
  by destruct run_id.
Qed.

Lemma record_all_steps run_id l (s s' : rec_state) r0 :
  run_id <> [] -> Forall (recordable run_id) l -> s.1 = Some r0 -> run_wf r0 -> rr_run_id r0 = run_id ->
  rp_load s.2 = Ok (Some r0) \/ l <> [] ->
  record_all l s = (Ok tt, s') ->
  exists r, s'.1 = Some r /\ run_wf r /\ rr_run_id r = run_id /\
    steps r = steps r0 ++ numbered (zlen (steps r0)) l /\
    (rp_encodes r -> rp_load s'.2 = Ok (Some r)).
Proof.
  intros Hid HF. revert s r0. induction HF as [|[now e] l Hx HF IH]; intros s r0 Hs Hwf Hr Hl; simpl.
  - intros [= <-]. exists r0. rewrite app_nil_r. destruct Hl; [|done]. by split_and!.
  - rewrite (handle_recordable run_id), record_step_current by done. unfold current. rewrite Hs, decide_True by done.
    destruct (_append _ _ _ _ _) as [[[]|] s1] eqn:Ea; [|done]. intros Hall.
    apply append_ok in Ea as (H1 & Hwf1 & Hl1); [|done].
    destruct l as [|x l].
    + simpl in Hall. injection Hall as <-. eexists. split; [exact H1|]. by split_and!.
    + eapply IH in Hall as (r & Hr1 & Hr2 & Hr3 & Hr4 & Hr5); [|exact H1|done|done|by right].
      exists r. repeat (split; [done|]). split; [|done]. rewrite Hr4. simpl. rewrite <- app_assoc. simpl.
      rewrite zlen_app. by replace (zlen [_])%Z with 1%Z by done.
Qed.
End RecorderFacts.

(** ** Runtime state *)

Lemma mode_value_inverse m : mode_of_value (mode_value m) = Some m.
Proof. by destruct m. Qed.

Lemma call_roundtrip `{PyRuntime} c : call_from_dict
  [(u "id", JStr (tc_id c)); (u "name", JStr (tc_name c)); (u "arguments", JObj (tc_arguments c))] = Some (Ok c).
Proof. by destruct c. Qed.

Lemma restore_calls_roundtrip `{PyRuntime} cs : restore_calls (map call_to_json cs) = Some (Ok cs).
Proof. induction cs as [|c cs IH]; [done|]. cbn [map restore_calls call_to_json]. rewrite call_roundtrip, IH. done. Qed.

Lemma restore_routing_roundtrip `{PyRuntime} r rs : restore_routing (_checkpoint_runtime_state r rs) = Some (Ok r).
Proof.
  unfold restore_routing. set (d := _checkpoint_runtime_state r rs).
  change (item (u "mode") d) with (Ok (JStr (mode_value (mode r)))).
  change (item (u "sticky_max") d) with (Ok (JBool (_sticky_max r))).
  change (item (u "max_iterations") d) with (Ok (JInt (max_iterations r))).
  change (item (u "enable_extended_reasoning") d) with (Ok (JBool (enable_extended_reasoning r))).
  change (dict_get (u "max_iterations_override") d) with (Some (opt_int (_max_iterations_override r))).
  cbn [rbind agent_mode]. rewrite mode_value_inverse. destruct r as [m b n [z|] x]; done.
Qed.

Lemma restore_runtime `{PyRuntime} id r rs fresh : _pending_confirmation fresh = None ->
  _restore_checkpoint_runtime_state id (_checkpoint_runtime_state r rs) fresh =
  Some (Ok (r, MkRun (Some id) true (_pending_confirmation rs) (_pending_remaining_calls rs) (_stop_reason fresh))).
Proof.
  intros Hf. unfold _restore_checkpoint_runtime_state. rewrite restore_routing_roundtrip.
  assert (restore_pending (_checkpoint_runtime_state r rs) (_pending_confirmation fresh) =
          Some (Ok (_pending_confirmation rs))) as ->.
  { unfold restore_pending. set (d := _checkpoint_runtime_state r rs).
    change (dict_get (u "pending_confirmation") d) with (Some (match _pending_confirmation rs with
      | None => JNull
      | Some p => JObj
          [(u "call", call_to_json (pc_call p)); (u "arguments", JObj (pc_arguments p));
           (u "decision", JObj [(u "allowed", JBool (allowed (pc_decision p)));
              (u "reason", JStr (reason (pc_decision p)));
              (u "requires_confirmation", JBool (requires_confirmation (pc_decision p)))])]
      end)).
    destruct (_pending_confirmation rs) as [[[i n a] args [al re rc]]|]; [|by rewrite Hf]. done. }
  assert (default (JList []) (dict_get (u "pending_remaining_calls") (_checkpoint_runtime_state r rs)) =
          JList (map call_to_json (_pending_remaining_calls rs))) as -> by done.
  by rewrite restore_calls_roundtrip.
Qed.

Lemma last_step_snoc ty ss s : event_type s = ty -> last_step ty (ss ++ [s]) = Some s.
Proof.
  intros Hs. unfold last_step. rewrite filter_app, filter_cons_True by done. by rewrite filter_nil, last_snoc.
Qed.

Lemma last_step_other ty ss s : event_type s <> ty -> last_step ty (ss ++ [s]) = last_step ty ss.
Proof. intros Hs. unfold last_step. rewrite filter_app, filter_cons_False by done. by rewrite app_nil_r. Qed.

Section CheckpointFacts.
Context `{PyRuntime} `{SecretPatterns} {D : Type} `{ReplayStore D}.
Variable summary_str : StructuredSummary -> pystr.

Lemma lineage_raw : lineage_wf raw_recorder.
Proof. by split. Qed.

(** What a checkpoint leaves in the store: the replay of the run, ending in a
    snapshot of the conversation and the redacted runtime state. *)
Lemma checkpoint_write_ok now st id runtime (d d' : D) out :
  json_metadata st -> (forall r, rp_encodes r) ->
  checkpoint_write summary_str now st (Some id) runtime d = (Ok out, d') ->
  out = id /\ id <> [] /\ exists r ss fields n m,
    rp_load d' = Ok (Some r) /\ run_wf r /\ rr_run_id r = id /\
    state_to_dict (fun _ => None) st = Some fields /\
    steps r = (ss ++ [{| sequence := n; timestamp := now; event_type := u "replay.snapshot";
                         payload := [(u "state", JObj fields)] |}])
              ++ [{| sequence := m; timestamp := now; event_type := u "replay.checkpoint";
                     payload := redact_message [(u "run_id", JStr id); (u "agent", JObj runtime)] |}].
Proof.
  intros Hmd Henc. unfold checkpoint_write. destruct id as [|c id']; [done|]. set (id := c :: id').
  destruct (state_dict_roundtrip (fun x => Some (JStr (summary_str x))) st Hmd) as (fields & _ & Hd & _).
  assert (state_to_dict (fun _ => None) st = Some fields) as Hd0.
  { destruct Hmd as [md Hmd]. unfold state_to_dict in *. rewrite Hmd, metadata_json_json in *. done. }
  unfold snapshot. cbn [capture_raw_snapshots raw_recorder]. rewrite Hd, record_step_current.
  destruct (current raw_recorder id (None, d)) as [r0|e] eqn:Hc; [|done].
  apply current_wf in Hc as [Hwf0 Hid0]; [|done|apply lineage_raw|done].
  destruct (_append _ _ _ _ _) as [[[]|] s1] eqn:Ea; [|done].
  apply append_ok in Ea as (Hs1 & Hwf1 & Hl1); [|done].
  rewrite (handle_recordable raw_recorder id), record_step_current by done.
  unfold current. rewrite Hs1. rewrite decide_True by exact Hid0.
  destruct (_append _ _ _ _ _) as [[[]|] s2] eqn:Ea; [|done].
  apply append_ok in Ea as (Hs2 & Hwf2 & Hl2); [|done]. intros [= <- <-].
  split; [done|]. split; [done|]. do 5 eexists. split; [by apply Hl2|]. split; [done|]. split; [done|].
  split; [done|]. done.
Qed.

(** Reading a checkpoint back. *)
Lemma checkpoint_read_written now st id runtime (d d' : D) out :
  json_metadata st -> (forall r, rp_encodes r) -> redact_value (JObj runtime) = JObj runtime ->
  checkpoint_write summary_str now st (Some id) runtime d = (Ok out, d') ->
  out = id /\ exists l, checkpoint_read id d' = Some (Ok (l, runtime)) /\ loaded_state l = Some st.
Proof.
  intros Hmd Henc Hred Hw. apply checkpoint_write_ok in Hw as (-> & Hid & r & ss & fields & n & m & Hl & _ & Hr & Hf & Hs);
    [|done|done]. split; [done|].
  destruct (state_dict_roundtrip (fun _ => None) st Hmd) as (fields' & l & Hf' & Hfrom & Hst).
  rewrite Hf in Hf'. injection Hf' as <-. exists l. split; [|done].
  unfold checkpoint_read. rewrite Hl, decide_True by done.
  rewrite Hs, last_step_other, last_step_snoc, last_step_snoc by done. cbn [payload].
  assert (dict_get (u "agent") (redact_message [(u "run_id", JStr id); (u "agent", JObj runtime)]) = Some (JObj runtime)) as ->.
  { unfold redact_message. cbn [redact_value map snd fst] in *. cbn [dict_get]. rewrite decide_False by done.
    rewrite decide_True by done. f_equal. exact Hred. }
  change (dict_get (u "state") _) with (Some (JObj fields)). cbv iota. by rewrite Hfrom.
Qed.
End CheckpointFacts.

(** ** Theorems *)

(** every event of a run that the recorder accepts becomes the next step of
    the run's replay, numbered from where the stored replay ended, redacted, in the
    order of the events; the replay is well formed and is what the store returns. *)
Theorem recorded_events_are_stored `{SecretPatterns} {D : Type} `{ReplayStore D} cfg run_id x l (d : D) s' :
  run_id <> [] -> lineage_wf cfg -> Forall (recordable run_id) (x :: l) ->
  record_all cfg (x :: l) (None, d) = (Ok tt, s') ->
  exists r0 r, _new_run cfg run_id d = Ok r0 /\ s'.1 = Some r /\ run_wf r /\ rr_run_id r = run_id /\
    steps r = steps r0 ++ numbered (zlen (steps r0)) (x :: l) /\
    (rp_encodes r -> rp_load s'.2 = Ok (Some r)).
Proof.
  intros Hid Hl HF Hrec.
  destruct (_new_run cfg run_id d) as [r0|e] eqn:Hn.
  - destruct (new_run_wf cfg run_id d r0 Hid Hl Hn) as [Hwf Hr]. exists r0.
    assert (record_all cfg (x :: l) (Some r0, d) = (Ok tt, s')) as Hrec'.
    { rewrite <- Hrec. destruct x as [now e]. inversion HF; subst. simpl.
      rewrite !(handle_recordable cfg (rr_run_id r0)), !record_step_current by done.
      unfold current. simpl. by rewrite decide_True, Hn by done. }
    eapply record_all_steps in Hrec' as (r & H1' & H2' & H3' & H4' & H5'); [|exact Hid|exact HF|done|done|done|by right].
    exists r. by split_and!.
  - exfalso. destruct x as [now e']. inversion HF; subst. simpl in Hrec.
    rewrite (handle_recordable cfg run_id), record_step_current in Hrec by done.
    unfold current in Hrec. simpl in Hrec. by rewrite Hn in Hrec.
Qed.


(** No pattern matches anything. *)
#[local] Instance no_secrets : SecretPatterns := {| rx_sub _ text := text |}.

#[local] Instance plain_runtime : PyRuntime := decoding_runtime [].

Definition login_call : ToolCall := {|
  tc_id := u "c1"; tc_name := u "login"; tc_arguments := [(u "password", JStr (u "hunter2"))] |}.

Definition awaiting_login : RunState :=
  MkRun (Some (u "run")) false
    (Some {| pc_call := login_call; pc_arguments := tc_arguments login_call;
             pc_decision := {| allowed := true; reason := u "sensitive"; requires_confirmation := true |} |}) [] None.

Definition new_agent : RunState := MkRun None false None [] None.

Definition flash_routing : Routing := MkRouting FLASH false 5 None false.

Definition greeting : ConversationState := {|
  system_prompt := None; max_messages := None; metadata := []; messages := [user_message (u "log in")] |}.

(** the arguments of a call that waits for confirmation are redacted on their
    way into the checkpoint, although it records raw snapshots: the resumed agent
    holds the placeholder in place of a password and would run the approved call
    with it. *)
Theorem checkpoint_redacts_pending_arguments :
  let '(r, d) := checkpoint_write (fun _ => []) (u "t0") greeting (Some (u "run"))
                   (_checkpoint_runtime_state flash_routing awaiting_login) (None : option ReplayRun) in
  r = Ok (u "run") /\
  option_map (fun out => rmap (fun x => option_map pc_arguments (_pending_confirmation x.2)) out.1)
    (checkpoint_resume (u "t1") (u "run") new_agent d)
  = Some (Ok (Some [(u "password", JStr REDACTED)])).
Proof. vm_compute. done. Qed.

(** ** Witnesses *)

Definition started (run_id : pystr) : Event :=
  {| e_type := u "agent.started"; e_payload := [(u "run_id", JStr run_id)]; e_source := None |}.

Definition plain_recorder : RecorderConfig := {|
  capture_raw_snapshots := false; capture_reasoning := false; rc_parent_run_id := None; rc_fork_sequence := None |}.

Definition two_steps : ReplayRun := {|
  rr_run_id := u "run"; parent_run_id := None; fork_sequence := None;
  steps := map (fun x => {| sequence := x.1; timestamp := x.2; event_type := u "agent.started";
                            payload := [(u "run_id", JStr (u "run"))] |}) [(0%Z, u "t0"); (1%Z, u "t1")] |}.

Lemma recorded_events_are_stored_witness :
  exists r0 r, _new_run plain_recorder (u "run") (None : option ReplayRun) = Ok r0 /\ Some two_steps = Some r /\
    run_wf r /\ rr_run_id r = u "run" /\
    steps r = steps r0 ++ numbered (zlen (steps r0)) [(u "t0", started (u "run")); (u "t1", started (u "run"))] /\
    (rp_encodes r -> rp_load (Some two_steps) = Ok (Some r)).
Proof.
  apply (recorded_events_are_stored plain_recorder (u "run") (u "t0", started (u "run")) [(u "t1", started (u "run"))]
           None (Some two_steps, Some two_steps)).
  - done.
  - by split.
  - repeat constructor; vm_compute; done.
  - vm_compute. reflexivity.
Defined.

Definition awaiting_listing : RunState :=
  MkRun (Some (u "run")) false
    (Some {| pc_call := {| tc_id := u "c1"; tc_name := u "ls"; tc_arguments := [(u "path", JStr (u "/tmp"))] |};
             pc_arguments := [(u "path", JStr (u "/tmp"))];
             pc_decision := {| allowed := true; reason := u "sensitive"; requires_confirmation := true |} |})
    [{| tc_id := u "c2"; tc_name := u "pwd"; tc_arguments := [] |}] None.

