(* ===== verification/ReplayDebug.v ===== *)
(** * Debugging a replay (kinetic_sdk/replay/session.py, deterministic.py, debugger.py)

    The cursor over a replay, forking a conversation from a snapshot, comparing
    two replays, and the tool doubles that repeat recorded results. *)

From stdpp Require Import base gmap strings list.
From Stdlib Require Import ZArith Lia SpecFloat.
From S2P Require Import Prelude Json PyText Types Validation Summary Conversation EventBus Redact Policy Budgets.
From S2P Require Import Structured Store AgentState AgentTools Replay.

(** ** The cursor ([ReplayDebugger]) *)

Record ReplayDebugger := { rd_replay : ReplayRun; _position : Z }.

Definition open_replay {D} `{ReplayStore D} (d : D) : result ReplayDebugger :=
  r <-! rp_load d ;;
  match r with
  | None => Err (replay_error (u "No replay has been saved"))
  | Some r => Ok {| rd_replay := r; _position := -1 |}
  end.

Definition current (d : ReplayDebugger) : option ReplayStep :=
  let n := zlen (steps (rd_replay d)) in
  if ((0 <=? _position d) && (_position d <? n))%Z then steps (rd_replay d) !! Z.to_nat (_position d) else None.

Definition index_error : pyexn := PyExn (u "IndexError") (u "Replay sequence is outside the recorded timeline").

Definition seek (d : ReplayDebugger) (sequence : Z) : result (option ReplayStep * ReplayDebugger) :=
  if negb ((-1 <=? sequence) && (sequence <=? zlen (steps (rd_replay d))))%Z then Err index_error
  else let d' := {| rd_replay := rd_replay d; _position := sequence |} in Ok (current d', d').

Definition next (d : ReplayDebugger) : result (option ReplayStep * ReplayDebugger) :=
  seek d (Z.min (_position d + 1) (zlen (steps (rd_replay d)))).

Definition previous (d : ReplayDebugger) : result (option ReplayStep * ReplayDebugger) :=
  seek d (Z.max (_position d - 1) (-1)).

(** ** The timeline *)

Record TimelineEntry := {
  te_sequence : Z;
  te_timestamp : pystr;
  te_event_type : pystr;
  te_label : pystr;
  te_payload : jdict;
}.

Inductive DiffKind := Added | Removed | Equal | Changed.

#[export] Instance diff_kind_eq_dec : EqDecision DiffKind.
Proof. solve_decision. Defined.

Record ReplayDiffEntry := { kind : DiffKind; left : option ReplayStep; right : option ReplayStep }.

#[export] Instance replay_step_eq_dec : EqDecision ReplayStep.
Proof. solve_decision. Defined.

#[export] Instance replay_diff_entry_eq_dec : EqDecision ReplayDiffEntry.
Proof. solve_decision. Defined.

Section Debug.
Context `{PyRuntime}.

Definition payload_name (p : jdict) : pystr := py_str (default (JStr (u "unknown")) (dict_get (u "name") p)).

Definition _label (s : ReplayStep) : pystr :=
  if decide (event_type s = u "agent.tool_call_started") then u "Tool started: " ++ payload_name (payload s)
  else if decide (event_type s = u "agent.tool_call_finished") then
    let status := if opt_truthy (dict_get (u "is_error") (payload s)) then u "failed" else u "finished" in
    u "Tool " ++ status ++ u ": " ++ payload_name (payload s)
  else if decide (event_type s = u "replay.snapshot") then u "Replay-valid checkpoint"
  else py_replace_all (u ".") (u " · ") (event_type s).

Definition timeline (r : ReplayRun) : list TimelineEntry :=
  map (fun s => {| te_sequence := sequence s; te_timestamp := timestamp s; te_event_type := event_type s;
                   te_label := _label s; te_payload := payload s |}) (steps r).

Definition timeline_json (r : ReplayRun) : pystr :=
  json_dumps dumps_utf8 (JList (map (fun e => JObj
    [(u "sequence", JInt (te_sequence e)); (u "timestamp", JStr (te_timestamp e));
     (u "event_type", JStr (te_event_type e)); (u "label", JStr (te_label e));
     (u "payload", JObj (te_payload e))]) (timeline r))).

(** ** Comparison *)

(** [_stable_value]: the value without run identifiers, at any depth. *)
Fixpoint _stable_value (v : json) : json :=
  match v with
  | JObj d =>
    let fix go (d : jdict) : jdict :=
      match d with
      | [] => []
      | (k, v) :: d' => if bool_decide (k = u "run_id") then go d' else (k, _stable_value v) :: go d'
      end in JObj (go d)
  | JList l => JList (map _stable_value l)
  | _ => v
  end.

Definition _step_key (s : ReplayStep) : pystr :=
  json_dumps dumps_sorted (JObj [(u "event_type", JStr (event_type s));
                                 (u "payload", _stable_value (JObj (payload s)))]).

Definition diff_kind (l r : option ReplayStep) : DiffKind :=
  match l, r with
  | None, _ => Added
  | _, None => Removed
  | Some l, Some r => if decide (_step_key l = _step_key r) then Equal else Changed
  end.

Definition diff_entry (l r : list ReplayStep) (index : nat) : ReplayDiffEntry :=
  {| kind := diff_kind (l !! index) (r !! index); left := l !! index; right := r !! index |}.

Definition compare_runs (self other : ReplayRun) : list ReplayDiffEntry :=
  map (diff_entry (steps self) (steps other)) (seq 0 (Nat.max (length (steps self)) (length (steps other)))).

Definition changed (entries : list ReplayDiffEntry) : list ReplayDiffEntry :=
  filter (fun e => kind e <> Equal) entries.

Definition is_equal (entries : list ReplayDiffEntry) : bool := bool_decide (changed entries = []).
End Debug.

(** ** Branches ([ReplayBranch]) *)

(** Whether a value contains the redaction marker. *)
Fixpoint _contains_redaction (v : json) : bool :=
  match v with
  | JStr s => contains REDACTED s
  | JObj d =>
    let fix go (d : jdict) : bool :=
      match d with
      | [] => false
      | (_, v) :: d' => _contains_redaction v || go d'
      end in go d
  | JList l => existsb _contains_redaction l
  | _ => false
  end.

Record ReplayBranch := { br_parent_run_id : pystr; br_fork_sequence : Z; br_state : ConversationState }.

Definition set_state (b : ReplayBranch) (st : ConversationState) : ReplayBranch :=
  {| br_parent_run_id := br_parent_run_id b; br_fork_sequence := br_fork_sequence b; br_state := st |}.

Definition input_error : pyexn := value_error (u "input text must be a non-empty string").

(** A plain user turn. *)
Definition plain_user (m : message) : bool :=
  bool_decide (dict_get (u "role") m = Some (JStr (u "user"))) && is_str (dict_get (u "content") m).

(** The latest plain user turn with its content replaced; [None]: there is none. *)
Fixpoint replace_first (text : pystr) (reversed : list message) : option (list message) :=
  match reversed with
  | [] => None
  | m :: ms => if plain_user m then Some (dict_set (u "content") (JStr text) m :: ms)
               else (fun ms' => m :: ms') <$> replace_first text ms
  end.

Definition replace_input (b : ReplayBranch) (text : pystr) : result ReplayBranch :=
  if bool_decide (strip text = []) then Err input_error
  else match replace_first text (rev (messages (br_state b))) with
  | Some ms => Ok (set_state b (set_messages (br_state b) (rev ms)))
  | None => Ok (set_state b (add_user_message (br_state b) text))
  end.

Definition add_input (b : ReplayBranch) (text : pystr) : result ReplayBranch :=
  if bool_decide (strip text = []) then Err input_error
  else Ok (set_state b (add_user_message (br_state b) text)).

(** [create_recorder]. *)
Definition create_recorder (b : ReplayBranch) (capture_raw : bool) : result RecorderConfig :=
  make_recorder capture_raw false (Some (br_parent_run_id b)) (Some (br_fork_sequence b)).

Definition fork_error (msg : pystr) : pyexn := PyExn (u "ReplayForkError") msg.

(** [fork]. [None]: a snapshot whose fields have types that saving never writes. *)
Definition fork (r : ReplayRun) (sequence_ : option Z) : option (result ReplayBranch) :=
  let target := default (zlen (steps r) - 1)%Z sequence_ in
  if (target <? 0)%Z || (zlen (steps r) <=? target)%Z
  then Some (Err (fork_error (u "fork sequence is outside the recorded timeline")))
  else match last_step (u "replay.snapshot") (ztake (target + 1) (steps r)) with
  | None => Some (Err (fork_error (u "no replay-valid snapshot exists at or before this sequence")))
  | Some s =>
    match dict_get (u "state") (payload s) with
    | Some (JObj d) =>
      if _contains_redaction (JObj d)
      then Some (Err (fork_error (u "snapshot is redacted; use protected raw snapshots to fork a live conversation")))
      else match state_from_dict (JObj d) with
      | None => None
      | Some (Err e) => Some (Err (fork_error (u "snapshot state is invalid: " ++ exn_msg e)))
      | Some (Ok l) =>
        match loaded_state l with
        | None => None
        | Some st => Some (Ok {| br_parent_run_id := rr_run_id r; br_fork_sequence := sequence s; br_state := st |})
        end
      end
    | _ => Some (Err (fork_error (u "snapshot has no conversation state")))
    end
  end.

(** ** Deterministic tools *)

Definition deterministic_error : pyexn := PyExn (u "DeterministicReplayError")
  (u "Replay contains redacted snapshots; record with capture_raw_snapshots=True in protected storage to replay tools").

Record RecordedToolCall := { rc_name : pystr; rc_arguments : jdict; rc_result : ToolResult }.

Section Deterministic.
Context `{PyRuntime}.

Definition _tool_result_from_block (block : jdict) : ToolResult :=
  let content := default JNull (dict_get (u "content") block) in
  if opt_truthy (dict_get (u "is_error") block) then
    match match content with JStr s => json_loads s | _ => None end with
    | Some (JObj parsed) =>
      match dict_get (u "error") parsed with
      | Some (JStr e) => error_result e
      | _ => error_result (py_str content)
      end
    | _ => error_result (py_str content)
    end
  else output_result content.

(** The calls of an assistant message, by id. *)
Definition call_of_block (b : json) : option (pystr * (pystr * jdict)) :=
  match b with
  | JObj d =>
    if decide (dict_get (u "type") d = Some (JStr (u "tool_use"))) then
      match dict_get (u "id") d, dict_get (u "name") d, dict_get (u "input") d with
      | Some (JStr i), Some (JStr n), Some (JObj a) => Some (i, (n, a))
      | _, _, _ => None
      end
    else None
  | _ => None
  end.

Definition result_of_block (b : json) : option (pystr * ToolResult) :=
  match b with
  | JObj d =>
    if decide (dict_get (u "type") d = Some (JStr (u "tool_result"))) then
      match dict_get (u "tool_use_id") d with
      | Some (JStr i) => Some (i, _tool_result_from_block d)
      | _ => None
      end
    else None
  | _ => None
  end.

Definition has_role (role : pystr) (m : message) : bool := bool_decide (dict_get (u "role") m = Some (JStr role)).

Definition message_calls (m : message) : list (pystr * (pystr * jdict)) :=
  if has_role (u "assistant") m then omap call_of_block (blocks m) else [].

Definition message_results (m : message) : list (pystr * ToolResult) :=
  if has_role (u "user") m then omap result_of_block (blocks m) else [].

(** [d[k] = v], and the same unless the key is there. *)
Definition assign {V} (d : list (pystr * V)) (kv : pystr * V) : list (pystr * V) := dict_set kv.1 kv.2 d.
Definition assign_new {V} (d : list (pystr * V)) (kv : pystr * V) : list (pystr * V) :=
  if dict_has kv.1 d then d else assign d kv.

Definition Scan : Type := list (pystr * (pystr * jdict)) * list (pystr * ToolResult).

Definition scan_message (acc : Scan) (m : message) : Scan :=
  (foldl assign acc.1 (message_calls m), foldl assign_new acc.2 (message_results m)).

(** The loop over the snapshots of a replay. *)
Fixpoint scan_snapshots (ss : list ReplayStep) (acc : Scan) : option (result Scan) :=
  match ss with
  | [] => Some (Ok acc)
  | s :: ss' =>
    if decide (event_type s = u "replay.snapshot") then
      match dict_get (u "state") (payload s) with
      | Some (JObj d) =>
        if _contains_redaction (JObj d) then Some (Err deterministic_error)
        else match state_from_dict (JObj d) with
        | None => None
        | Some (Err e) => Some (Err e)
        | Some (Ok l) => scan_snapshots ss' (foldl scan_message acc (ld_messages l))
        end
      | _ => scan_snapshots ss' acc
      end
    else scan_snapshots ss' acc
  end.

Definition paired (defs : list (pystr * (pystr * jdict))) (results : list (pystr * ToolResult)) : list RecordedToolCall :=
  omap (fun kv => (fun r => {| rc_name := kv.2.1; rc_arguments := kv.2.2; rc_result := r |}) <$> dict_get kv.1 results) defs.

Definition from_replay (r : ReplayRun) : option (result (list RecordedToolCall)) :=
  (fun x => rmap (fun acc => paired acc.1 acc.2) x) <$> scan_snapshots (steps r) ([], []).

(** [tools()]: the recorded calls of each tool, in order; a tool's queue is its state. *)
Definition Queues : Type := list (pystr * list RecordedToolCall).

Definition tools_of (calls : list RecordedToolCall) : Queues :=
  foldl (fun q c => dict_set (rc_name c) (default [] (dict_get (rc_name c) q) ++ [c]) q) [] calls.

(** [ReplayTool.execute] of the tool [name]. *)
Definition replay_execute (strict : bool) (name : pystr) (params : jdict) (q : Queues) : ToolResult * Queues :=
  match default [] (dict_get name q) with
  | [] => (error_result (u "No recorded result remains for tool " ++ py_repr (JStr name)), q)
  | c :: cs =>
    let q' := dict_set name cs q in
    if strict && negb (py_eq (JObj (rc_arguments c)) (JObj params))
    then (error_result (u "Recorded input mismatch for tool " ++ py_repr (JStr name) ++ u ": expected "
            ++ py_repr (JObj (rc_arguments c)) ++ u ", got " ++ py_repr (JObj params)), q')
    else (rc_result c, q')
  end.

(** A sequence of calls. *)
Fixpoint replay_all (strict : bool) (calls : list (pystr * jdict)) (q : Queues) : list ToolResult * Queues :=
  match calls with
  | [] => ([], q)
  | (n, a) :: calls' =>
    let '(r, q1) := replay_execute strict n a q in
    let '(rs, q2) := replay_all strict calls' q1 in (r :: rs, q2)
  end.
End Deterministic.

(** ** Lemmas: the cursor and comparison *)

Definition cursor_ok (d : ReplayDebugger) : Prop := (-1 <= _position d <= zlen (steps (rd_replay d)))%Z.

Lemma seek_ok d z s d' : seek d z = Ok (s, d') -> rd_replay d' = rd_replay d /\ _position d' = z /\ cursor_ok d' /\ s = current d'.
Proof.
  unfold seek. destruct (negb _) eqn:E; [done|]. intros [= <- <-]. bool_hyps. unfold cursor_ok. simpl. by split_and!.
Qed.

Section CompareFacts.
Context `{PyRuntime}.

Lemma diff_entry_equal l r i : (i < Nat.max (length l) (length r))%nat ->
  kind (diff_entry l r i) = Equal <-> exists s s', l !! i = Some s /\ r !! i = Some s' /\ _step_key s = _step_key s'.
Proof.
  intros Hi. change (kind (diff_entry l r i)) with (diff_kind (l !! i) (r !! i)). unfold diff_kind.
  destruct (l !! i) as [s|], (r !! i) as [s'|].
  2-4: split; [done|]; intros (? & ? & ? & ? & _); done.
  destruct (decide (_step_key s = _step_key s')) as [Hk|Hk]; (split; [|done || intros (? & ? & [= <-] & [= <-] & ?); done]).
  - intros _. by exists s, s'.
  - done.
Qed.

Lemma is_equal_spec a b : is_equal (compare_runs a b) = true <->
  forall i, (i < Nat.max (length (steps a)) (length (steps b)))%nat -> kind (diff_entry (steps a) (steps b) i) = Equal.
Proof.
  unfold is_equal, changed, compare_runs. rewrite bool_decide_eq_true. split.
  - intros Hf i Hi. destruct (decide (kind (diff_entry (steps a) (steps b) i) = Equal)) as [|Hn]; [done|].
    exfalso. assert (diff_entry (steps a) (steps b) i ∈ filter (fun e => kind e <> Equal)
      (map (diff_entry (steps a) (steps b)) (seq 0 (Nat.max (length (steps a)) (length (steps b)))))) as Hin.
    { apply list_elem_of_filter. split; [done|]. apply list_elem_of_fmap. exists i. split; [done|]. apply elem_of_seq. lia. }
    rewrite Hf in Hin. by apply not_elem_of_nil in Hin.
  - intros Hall. destruct (filter _ _) as [|e es] eqn:E; [done|]. exfalso.
    assert (e ∈ filter (fun e => kind e <> Equal) (map (diff_entry (steps a) (steps b))
              (seq 0 (Nat.max (length (steps a)) (length (steps b)))))) as Hin by (rewrite E; apply list_elem_of_here).
    apply list_elem_of_filter in Hin as [Hk Hin]. apply list_elem_of_fmap in Hin as (i & -> & Hi). apply elem_of_seq in Hi.
    apply Hk, Hall. lia.
Qed.

Lemma keys_equal_spec l r : map _step_key l = map _step_key r <->
  forall i, (i < Nat.max (length l) (length r))%nat -> kind (diff_entry l r i) = Equal.
Proof.
  split.
  - intros Hm i Hi. apply diff_entry_equal; [done|].
    assert (length l = length r) as Hl by (rewrite <- (length_map _step_key l), Hm; apply length_map).
    destruct (lookup_lt_is_Some_2 l i) as [s Hs]; [lia|]. destruct (lookup_lt_is_Some_2 r i) as [s' Hs']; [lia|].
    exists s, s'. split; [done|]. split; [done|].
    assert (map _step_key l !! i = map _step_key r !! i) as Heq by by rewrite Hm.
    change (map _step_key) with (fmap (M := list) _step_key) in Heq. rewrite !list_lookup_fmap, Hs, Hs' in Heq. exact (Some_inj _ _ Heq).
  - intros Hall. apply list_eq. intros i. change (map _step_key) with (fmap (M := list) _step_key). rewrite !list_lookup_fmap.
    destruct (Nat.lt_ge_cases i (Nat.max (length l) (length r))) as [Hi|Hi].
    + destruct (proj1 (diff_entry_equal l r i Hi) (Hall i Hi)) as (s & s' & -> & -> & Hk). exact (f_equal Some Hk).
    + rewrite (lookup_ge_None_2 l i), (lookup_ge_None_2 r i) by lia. done.
Qed.
End CompareFacts.

(** A payload with other run identifiers in the same places. *)
Fixpoint relabel (new : json -> json) (v : json) : json :=
  match v with
  | JObj d =>
    let fix go (d : jdict) : jdict :=
      match d with
      | [] => []
      | (k, v) :: d' => (k, if bool_decide (k = u "run_id") then new v else relabel new v) :: go d'
      end in JObj (go d)
  | JList l => JList (map (relabel new) l)
  | _ => v
  end.

Lemma stable_relabel new v : _stable_value (relabel new v) = _stable_value v.
Proof.
  induction v as [| | | | |l IH|d IH] using json_ind; try done.
  - simpl. f_equal. rewrite map_map. induction IH as [|x l Hx _ IHl]; simpl; [done|]. by rewrite Hx, IHl.
  - simpl. f_equal. induction IH as [|[k x] d Hx _ IHd]; [done|]. case_bool_decide; simpl.
    + exact IHd.
    + simpl in Hx. by rewrite Hx, IHd.
Qed.

(** ** Lemmas: assignments in order *)

Section Assign.
Context {V : Type}.
Implicit Types (E : list (pystr * V)).

Lemma assign_known E kv : NoDup (map fst E) -> kv ∈ E -> assign E kv = E.
Proof.
  unfold assign. destruct kv as [k v]. simpl. induction E as [|[k' v'] E IH]; [by intros _ ?%not_elem_of_nil|].
  simpl. intros [Hn Hd]%NoDup_cons [[= <- <-]|Hin]%elem_of_cons; [by rewrite decide_True|].
  rewrite decide_False; [by rewrite IH|]. intros ->. apply Hn. change k' with (k', v).1. by apply (list_elem_of_fmap_2 fst).
Qed.

Lemma assign_fresh E kv : kv.1 ∉ map fst E -> assign E kv = E ++ [kv].
Proof.
  unfold assign. destruct kv as [k v]. simpl. induction E as [|[k' v'] E IH]; [done|]. simpl.
  intros Hn. rewrite decide_False by set_solver. rewrite IH by set_solver. done.
Qed.

Lemma keys_take E k : NoDup (map fst E) -> NoDup (map fst (take k E)).
Proof. intros Hd. rewrite <- (take_drop k E), map_app in Hd. by apply NoDup_app in Hd as [? _]. Qed.

Lemma key_fresh E j kv : NoDup (map fst E) -> E !! j = Some kv -> kv.1 ∉ map fst (take j E).
Proof.
  intros Hd Hj Hin. rewrite <- (take_drop_middle E j kv Hj), map_app in Hd. simpl in Hd.
  apply NoDup_app in Hd as (_ & Hd & _). apply (Hd kv.1 Hin). apply list_elem_of_here.
Qed.

Lemma take_max_S E k j kv : E !! j = Some kv -> (k <= j)%nat -> take (Nat.max k j) E ++ [kv] = take (Nat.max k (S j)) E.
Proof. intros Hj Hk. rewrite !Nat.max_r by lia. by rewrite (take_S_r E j kv). Qed.

(** Assigning a prefix again changes nothing; a longer prefix adds what is new. *)
Lemma assign_prefix (f : list (pystr * V) -> pystr * V -> list (pystr * V)) E k j :
  (forall D kv, NoDup (map fst D) -> kv ∈ D -> f D kv = D) ->
  (forall D kv, kv.1 ∉ map fst D -> f D kv = D ++ [kv]) ->
  NoDup (map fst E) -> foldl f (take k E) (take j E) = take (Nat.max k j) E.
Proof.
  intros Hold Hnew Hd. induction j as [|j IH]; [simpl; by rewrite Nat.max_0_r|].
  destruct (E !! j) as [kv|] eqn:Hj.
  - rewrite (take_S_r E j kv Hj), foldl_app, IH. simpl. destruct (Nat.lt_ge_cases j k) as [Hk|Hk].
    + rewrite (Nat.max_l k (S j)), (Nat.max_l k j) by lia. apply Hold; [by apply keys_take|].
      apply list_elem_of_lookup. exists j. by rewrite lookup_take_lt.
    + rewrite <- (take_max_S E k j kv) by (done || lia). rewrite Nat.max_r by lia. apply Hnew. by apply key_fresh.
  - apply lookup_ge_None in Hj. rewrite (take_ge E (S j)) by lia. rewrite (take_ge E j) in IH by lia.
    rewrite IH. by rewrite !take_ge by lia.
Qed.

Lemma assign_new_known E kv : kv ∈ E -> assign_new E kv = E.
Proof.
  intros Hin. unfold assign_new, dict_has. destruct (dict_get kv.1 E) eqn:Hg; [done|].
  exfalso. assert (is_Some (dict_get kv.1 E)) as [? ?]; [|congruence]. apply dict_get_key. by apply (list_elem_of_fmap_2 fst).
Qed.

Lemma assign_new_fresh E kv : kv.1 ∉ map fst E -> assign_new E kv = E ++ [kv].
Proof.
  intros Hn. unfold assign_new, dict_has. destruct (dict_get kv.1 E) eqn:Hg; [|by apply assign_fresh].
  exfalso. apply Hn, dict_get_key. by rewrite Hg.
Qed.
End Assign.

Lemma prefix_take {A} (l k : list A) : l `prefix_of` k -> exists j, l = take j k.
Proof. intros [r ->]. exists (length l). by rewrite take_app_length. Qed.

Lemma take_self {A} (l : list A) n : l = take n l -> (length l <= n)%nat.
Proof. intros Hl. rewrite Hl, length_take. lia. Qed.

Lemma concat_map_prefix {A B} (f : A -> list B) l k : l `prefix_of` k -> concat (map f l) `prefix_of` concat (map f k).
Proof. intros [r ->]. rewrite map_app, concat_app. by exists (concat (map f r)). Qed.

(** ** Lemmas: what the doubles are built from *)

Section DeterministicFacts.
Context `{PyRuntime}.

Definition calls_of (h : list message) := concat (map message_calls h).
Definition results_of (h : list message) := concat (map message_results h).

Lemma scan_messages_spec h acc : foldl scan_message acc h =
  (foldl assign acc.1 (calls_of h), foldl assign_new acc.2 (results_of h)).
Proof.
  unfold calls_of, results_of. revert acc; induction h as [|m h IH]; intros acc; simpl; [by destruct acc|].
  by rewrite IH, !foldl_app.
Qed.

(** The histories of the snapshots, when all are raw and can be read. *)
Fixpoint snapshot_histories (ss : list ReplayStep) : option (list (list message)) :=
  match ss with
  | [] => Some []
  | s :: ss' =>
    if decide (event_type s = u "replay.snapshot") then
      match dict_get (u "state") (payload s) with
      | Some (JObj d) =>
        if _contains_redaction (JObj d) then None
        else match state_from_dict (JObj d) with
        | Some (Ok l) => (fun hs => ld_messages l :: hs) <$> snapshot_histories ss'
        | _ => None
        end
      | _ => snapshot_histories ss'
      end
    else snapshot_histories ss'
  end.

Lemma scan_histories ss hs acc : snapshot_histories ss = Some hs ->
  scan_snapshots ss acc = Some (Ok (foldl (foldl scan_message) acc hs)).
Proof.
  revert hs acc; induction ss as [|s ss IH]; intros hs acc; cbn [snapshot_histories scan_snapshots]; [by intros [= <-]|].
  case_decide; [|by apply IH]. destruct (dict_get (u "state") (payload s)) as [[]|]; try by apply IH.
  destruct (_contains_redaction _); [done|]. destruct (state_from_dict _) as [[l|]|]; [|done..].
  destruct (snapshot_histories ss) as [hs'|]; [|done]. intros [= <-]. by rewrite (IH hs').
Qed.

(** Snapshots of a history that only grew give the calls and results of the longest. *)
Lemma scan_growing hs h E R : calls_of h = E -> results_of h = R -> NoDup (map fst E) -> NoDup (map fst R) ->
  (forall h', h' ∈ hs -> h' `prefix_of` h) -> h ∈ hs -> foldl (foldl scan_message) ([], []) hs = (E, R).
Proof.
  intros HE HR HdE HdR Hpre Hin.
  assert (forall hs i j, (forall h', h' ∈ hs -> h' `prefix_of` h) -> exists i' j',
    foldl (foldl scan_message) (take i E, take j R) hs = (take i' E, take j' R) /\
    (h ∈ hs -> take i' E = E /\ take j' R = R) /\ (i <= i')%nat /\ (j <= j')%nat) as Hgrow.
  { clear Hpre Hin hs. induction hs as [|h0 hs IH]; intros i j Hpre.
    { exists i, j. split; [done|]. split; [by intros ?%not_elem_of_nil|lia]. }
    pose proof (Hpre h0 (list_elem_of_here _ _)) as H0.
    destruct (prefix_take _ _ (concat_map_prefix message_calls _ _ H0)) as [a Ha].
    destruct (prefix_take _ _ (concat_map_prefix message_results _ _ H0)) as [b Hb].
    fold (calls_of h0) (calls_of h) in Ha. fold (results_of h0) (results_of h) in Hb. rewrite HE in Ha. rewrite HR in Hb.
    cbn [foldl]. rewrite scan_messages_spec. cbn [fst snd]. rewrite Ha, Hb.
    rewrite (assign_prefix assign E i a (fun D kv Hd => assign_known D kv Hd) (fun D kv => assign_fresh D kv) HdE).
    rewrite (assign_prefix assign_new R j b (fun D kv _ => assign_new_known D kv) (fun D kv => assign_new_fresh D kv) HdR).
    destruct (IH (Nat.max i a) (Nat.max j b)) as (i' & j' & Hf & Hall & Hi & Hj).
    { intros h' Hh'. apply Hpre. by apply list_elem_of_further. }
    exists i', j'. split; [done|]. split; [|lia]. intros [->|Hh]%elem_of_cons; [|by apply Hall].
    assert (E = take a E) as HEa by congruence. assert (R = take b R) as HRb by congruence.
    apply take_self in HEa, HRb. rewrite !take_ge by lia. done. }
  destruct (Hgrow hs 0%nat 0%nat Hpre) as (i' & j' & Hf & Hall & _). destruct (Hall Hin) as [Hi Hj].
  rewrite Hi, Hj in Hf. exact Hf.
Qed.

(** ** Lemmas: the queues *)

Definition holds_calls (q : Queues) (rem : list RecordedToolCall) : Prop :=
  forall n, default [] (dict_get n q) = filter (fun c => rc_name c = n) rem.

Lemma tools_of_holds calls : holds_calls (tools_of calls) calls.
Proof.
  unfold tools_of. assert (forall q done_, holds_calls q done_ ->
    holds_calls (foldl (fun q c => dict_set (rc_name c) (default [] (dict_get (rc_name c) q) ++ [c]) q) q calls) (done_ ++ calls)) as Hgen.
  { induction calls as [|c calls IH]; intros q done_ Hq; simpl; [by rewrite app_nil_r|].
    replace (done_ ++ c :: calls) with ((done_ ++ [c]) ++ calls) by (by rewrite <- app_assoc).
    apply IH. intros n. rewrite dict_get_set, filter_app, filter_cons. case_decide as Hn; [subst|]; simpl.
    - rewrite Hq, decide_True by done. done.
    - rewrite decide_False by congruence. rewrite filter_nil, app_nil_r. apply Hq. }
  apply (Hgen [] []). by intros n.
Qed.

Lemma replay_next q c rem : holds_calls q (c :: rem) -> py_eq (JObj (rc_arguments c)) (JObj (rc_arguments c)) = true ->
  exists q', replay_execute true (rc_name c) (rc_arguments c) q = (rc_result c, q') /\ holds_calls q' rem.
Proof.
  intros Hq Ha. unfold replay_execute. rewrite (Hq (rc_name c)), filter_cons_True by done. rewrite Ha. simpl.
  eexists. split; [done|]. intros n. rewrite dict_get_set. case_decide as Hn; [by subst|].
  rewrite Hq, filter_cons_False by congruence. done.
Qed.

Lemma replay_repeats calls q : holds_calls q calls ->
  Forall (fun c => py_eq (JObj (rc_arguments c)) (JObj (rc_arguments c)) = true) calls ->
  exists q', replay_all true (map (fun c => (rc_name c, rc_arguments c)) calls) q = (map rc_result calls, q') /\ holds_calls q' [].
Proof.
  intros Hq Ha. revert q Hq; induction Ha as [|c calls Hc _ IH]; intros q Hq; [by exists q|]. simpl.
  destruct (replay_next q c calls Hq Hc) as (q1 & -> & Hq1). destruct (IH q1 Hq1) as (q2 & -> & Hq2). by exists q2.
Qed.
End DeterministicFacts.

(** ** The conversation a branch repeats *)

Section Exchanges.
Context `{PyRuntime}.
Variable cfg : Config.

(** The block [add_result] appends for a call. *)
Definition result_block (call : ToolCall) (r : ToolResult) : jdict :=
  [(u "type", JStr (u "tool_result")); (u "tool_use_id", JStr (tc_id call));
   (u "content", JStr (_tool_output_for_state cfg call r))]
  ++ (if is_error r then [(u "is_error", JBool true)] else []).

Lemma result_message_block call r : result_message cfg call r =
  [(u "role", JStr (u "user")); (u "content", JList [JObj (result_block call r)])].
Proof. done. Qed.

Definition call_entry (x : ToolCall * ToolResult) : pystr * (pystr * jdict) :=
  (tc_id x.1, (tc_name x.1, tc_arguments x.1)).

Definition result_entry (x : ToolCall * ToolResult) : pystr * ToolResult :=
  (tc_id x.1, _tool_result_from_block (result_block x.1 x.2)).

(** A history whose calls are those of [xs], in order, each answered with its result. *)
Definition exchanges (h : list message) (xs : list (ToolCall * ToolResult)) : Prop :=
  calls_of h = map call_entry xs /\ results_of h = map result_entry xs.

(** Decoding the text of an error gives the error back. *)
Definition error_decodes (r : ToolResult) : Prop := is_error r = true ->
  json_loads (json_dumps dumps_default (JObj [(u "error", opt_str (error r))])) = Some (JObj [(u "error", opt_str (error r))]).

Lemma repeated_result_visible call r : has_injection_guard cfg = false -> error_decodes r ->
  result_message cfg call (_tool_result_from_block (result_block call r)) = result_message cfg call r.
Proof.
  intros Hg Hd. unfold result_message, _tool_output_for_state. rewrite Hg. cbv zeta.
  assert (forall t, dict_get (u "content") (result_block call r) = Some (JStr t) <-> t = _format_tool_output r) as Hc.
  { intros t. unfold result_block, _tool_output_for_state. rewrite Hg. cbv zeta. split; [by intros [= <-]|by intros ->]. }
  pose proof (proj2 (Hc _) eq_refl) as Ht. clear Hc. unfold _tool_result_from_block. rewrite Ht. cbn [from_option id].
  assert (opt_truthy (dict_get (u "is_error") (result_block call r)) = is_error r) as ->.
  { unfold result_block. by destruct (is_error r). }
  unfold _format_tool_output. specialize (Hd). unfold error_decodes in Hd. destruct (is_error r) eqn:He.
  - cbv beta iota. rewrite Hd by done. destruct r as [o [[|c e]|] md fc ds ar]; done.
  - cbn [is_error error output_result output]. by destruct (output r).
Qed.

Lemma paired_entries xs : NoDup (map (fun x => tc_id x.1) xs) ->
  paired (map call_entry xs) (map result_entry xs) =
  map (fun x => {| rc_name := tc_name x.1; rc_arguments := tc_arguments x.1;
                   rc_result := _tool_result_from_block (result_block x.1 x.2) |}) xs.
Proof.
  intros Hd. unfold paired.
  assert (forall x, x ∈ xs -> dict_get (tc_id x.1) (map result_entry xs) = Some (_tool_result_from_block (result_block x.1 x.2))) as Hget.
  { intros x Hx. apply dict_get_in; [by rewrite map_map|]. change (result_entry x ∈ result_entry <$> xs).
    by apply list_elem_of_fmap_2. }
  assert (forall ys R, (forall x, x ∈ ys -> dict_get (tc_id x.1) R = Some (_tool_result_from_block (result_block x.1 x.2))) ->
    omap (fun kv => (fun r => {| rc_name := kv.2.1; rc_arguments := kv.2.2; rc_result := r |}) <$> dict_get kv.1 R) (map call_entry ys)
    = map (fun x => {| rc_name := tc_name x.1; rc_arguments := tc_arguments x.1;
                   rc_result := _tool_result_from_block (result_block x.1 x.2) |}) ys) as Hgen; [|by apply Hgen].
  intros ys R Hys. induction ys as [|x ys IH]; [done|]. cbn [map omap list_omap]. cbn [call_entry fst snd].
  rewrite (Hys x) by apply list_elem_of_here. cbn. f_equal. apply IH. intros y Hy. apply Hys. by apply list_elem_of_further.
Qed.
End Exchanges.

(** a branch that makes the recorded calls again, with the recorded tools in
    place of the real ones, appends the very messages of the original run: each
    call is answered by its own result, in order, and nothing recorded is left. *)
Theorem recorded_tools_repeat_the_run `{PyRuntime} cfg r hs h xs :
  has_injection_guard cfg = false ->
  snapshot_histories (steps r) = Some hs -> (forall h', h' ∈ hs -> h' `prefix_of` h) -> h ∈ hs ->
  exchanges cfg h xs -> NoDup (map (fun x => tc_id x.1) xs) ->
  Forall (fun x => error_decodes x.2 /\ py_eq (JObj (tc_arguments x.1)) (JObj (tc_arguments x.1)) = true) xs ->
  exists calls rs q, from_replay r = Some (Ok calls) /\
    replay_all true (map (fun x => (tc_name x.1, tc_arguments x.1)) xs) (tools_of calls) = (rs, q) /\
    Forall2 (fun x res => result_message cfg x.1 res = result_message cfg x.1 x.2) xs rs /\
    forall n, default [] (dict_get n q) = [].
Proof.
  intros Hg Hhs Hpre Hin [HE HR] Hd Hall.
  assert (scan_snapshots (steps r) ([], []) = Some (Ok (map call_entry xs, map (result_entry cfg) xs))) as Hscan.
  { rewrite (scan_histories _ hs) by done. do 2 f_equal. apply (scan_growing hs h); try done; by rewrite map_map. }
  unfold from_replay. rewrite Hscan. simpl fmap. rewrite paired_entries by done.
  set (calls := map _ xs). destruct (replay_repeats calls (tools_of calls) (tools_of_holds calls)) as (q & Hq & Hempty).
  { unfold calls. apply Forall_map. eapply Forall_impl; [exact Hall|]. by intros x [_ Hx]. }
  exists calls, (map rc_result calls), q. split; [done|].
  split; [rewrite <- Hq; unfold calls; by rewrite map_map|]. split; [|exact Hempty].
  unfold calls. rewrite map_map. clear -Hg Hall. induction Hall as [|x xs [Hx _] _ IH]; constructor; [|exact IH].
  by apply repeated_result_visible.
Qed.

(** two replays compare equal exactly when they have the same events with the
    same payloads up to run identifiers; in particular a run recorded again under
    another run id and at other times compares equal. *)
Theorem comparison_ignores_identity `{PyRuntime} a b :
  (is_equal (compare_runs a b) = true <-> map _step_key (steps a) = map _step_key (steps b)) /\
  forall new_id new_time, steps b = map (fun s => {| sequence := sequence s; timestamp := new_time (timestamp s);
      event_type := event_type s;
      payload := match relabel new_id (JObj (payload s)) with JObj d => d | _ => [] end |}) (steps a) ->
    is_equal (compare_runs a b) = true.
Proof.
  assert (is_equal (compare_runs a b) = true <-> map _step_key (steps a) = map _step_key (steps b)) as Hiff.
  { by rewrite is_equal_spec, keys_equal_spec. }
  split; [done|]. intros new_id new_time Hb. apply Hiff. rewrite Hb, map_map. apply map_ext. intros s.
  assert (exists d, relabel new_id (JObj (payload s)) = JObj d) as [d Hd] by by eexists.
  rewrite Hd. unfold _step_key. cbn [event_type payload]. by rewrite <- Hd, stable_relabel.
Qed.

(** ** Forking *)

(** Replacing a plain user turn changes no call and no result. *)
Lemma plain_turn_scan w m : plain_user m = true -> scan_step w m = match w with [] => Some [] | _ => None end.
Proof.
  unfold plain_user. intros Hm. apply andb_prop in Hm as [_ Hc].
  assert (blocks m = []) as Hb by (unfold blocks; by destruct (dict_get (u "content") m) as [[]|]).
  unfold scan_step, use_ids, result_ids. rewrite Hb. by destruct w.
Qed.

Lemma plain_set m text : plain_user m = true -> plain_user (dict_set (u "content") (JStr text) m) = true.
Proof.
  unfold plain_user. intros Hm. apply andb_prop in Hm as [Hr _]. apply bool_decide_eq_true in Hr.
  rewrite dict_get_set_ne by done. by rewrite dict_get_set_eq, Hr.
Qed.

Lemma replace_first_scan text l l' : replace_first text l = Some l' -> forall w, replay_scan w (rev l') = replay_scan w (rev l).
Proof.
  revert l'; induction l as [|m l IH]; intros l'; simpl; [done|]. destruct (plain_user m) eqn:Hp.
  - intros [= <-] w. simpl. rewrite !replay_scan_app. destruct (replay_scan w (rev l)) as [w'|]; [|done]. simpl.
    by rewrite (plain_turn_scan w' m Hp), (plain_turn_scan w' _ (plain_set m text Hp)).
  - destruct (replace_first text l) as [l0|]; [|done]. intros [= <-] w. simpl. by rewrite !replay_scan_app, (IH l0).
Qed.

Lemma user_turn_awaiting st text : max_messages st = None -> replayable st -> replayable (add_user_message st text).
Proof.
  intros Hm Hr. unfold replayable, awaiting, add_user_message, append_message, _enforce_cap in *. cbn [max_messages set_messages].
  rewrite Hm. cbn [messages set_messages]. by rewrite replay_scan_app, Hr.
Qed.

(** What [fork] answers for a position of the timeline. *)
Lemma fork_at r n pre s post : (0 <= n < zlen (steps r))%Z -> ztake (n + 1) (steps r) = pre ++ s :: post ->
  event_type s = u "replay.snapshot" -> Forall (fun s' => event_type s' <> u "replay.snapshot") post ->
  forall st l, dict_get (u "state") (payload s) = Some (JObj l) -> _contains_redaction (JObj l) = false ->
  (exists ld, state_from_dict (JObj l) = Some (Ok ld) /\ loaded_state ld = Some st) ->
  fork r (Some n) = Some (Ok {| br_parent_run_id := rr_run_id r; br_fork_sequence := sequence s; br_state := st |}).
Proof.
  intros Hn Ht Hs Hpost st l Hl Hred (ld & Hf & Hst). unfold fork. cbn [from_option id].
  destruct (Z.ltb_spec n 0); [lia|]. destruct (Z.leb_spec (zlen (steps r)) n); [lia|]. cbn [orb].
  assert (last_step (u "replay.snapshot") (ztake (n + 1) (steps r)) = Some s) as ->.
  { rewrite Ht. clear -Hs Hpost. unfold last_step. rewrite filter_app, filter_cons_True by done.
    assert (filter (fun s' => event_type s' = u "replay.snapshot") post = []) as ->; [|by rewrite last_snoc].
    induction Hpost as [|s' post Hn _ IH]; [done|]. by rewrite filter_cons_False. }
  by rewrite Hl, Hred, Hf, Hst.
Qed.

(** forking at a position continues from the latest raw snapshot recorded at
    or before it, with exactly the recorded conversation; replacing or adding the
    user's input keeps a replayable conversation replayable. *)
Theorem fork_continues_recorded_conversation r n pre s post other st :
  (0 <= n < zlen (steps r))%Z -> ztake (n + 1) (steps r) = pre ++ s :: post ->
  event_type s = u "replay.snapshot" -> Forall (fun s' => event_type s' <> u "replay.snapshot") post ->
  json_metadata st -> (JObj <$> state_to_dict other st) = dict_get (u "state") (payload s) ->
  (forall j, dict_get (u "state") (payload s) = Some j -> _contains_redaction j = false) ->
  exists b, fork r (Some n) = Some (Ok b) /\ br_state b = st /\ br_parent_run_id b = rr_run_id r /\
    br_fork_sequence b = sequence s /\
    (max_messages st = None -> replayable st -> forall text b',
       replace_input b text = Ok b' \/ add_input b text = Ok b' -> replayable (br_state b')).
Proof.
  intros Hn Ht Hs Hpost Hmd Hst Hred.
  destruct (state_dict_roundtrip other st Hmd) as (d & l & Hd & Hl & Hload). rewrite Hd in Hst. symmetry in Hst.
  eexists. split; [apply (fork_at r n pre s post Hn Ht Hs Hpost st d Hst (Hred _ Hst)); by exists l|].
  split; [done|]. split; [done|]. split; [done|]. intros Hm Hr text b' [Hb|Hb].
  - unfold replace_input in Hb. case_bool_decide; [done|]. cbn [br_state] in Hb.
    destruct (replace_first text (rev (messages st))) as [ms|] eqn:E; injection Hb as <-; [|by apply user_turn_awaiting].
    unfold replayable, awaiting in *. cbn [set_state br_state set_messages messages].
    rewrite (replace_first_scan _ _ _ E), rev_involutive. done.
  - unfold add_input in Hb. case_bool_decide; [done|]. injection Hb as <-. by apply user_turn_awaiting.
Qed.

(** The cursor steps over the whole timeline: [next] moves to the following step,
    and [previous] comes back. *)
Lemma next_then_previous d : cursor_ok d -> (_position d < zlen (steps (rd_replay d)))%Z ->
  exists d', next d = Ok (steps (rd_replay d) !! Z.to_nat (_position d + 1), d') /\ cursor_ok d' /\
    previous d' = Ok (current d, d).
Proof.
  destruct d as [r p]. unfold cursor_ok. cbn [_position rd_replay]. intros Hp Hlt.
  exists {| rd_replay := r; _position := p + 1 |}. unfold next, previous, seek. cbn [_position rd_replay].
  rewrite Z.min_l, Z.max_l by lia.
  rewrite (proj2 (Z.leb_le (-1) (p + 1))), (proj2 (Z.leb_le (p + 1) (zlen (steps r)))) by lia. cbn [andb negb].
  rewrite (proj2 (Z.leb_le (-1) (p + 1 - 1))), (proj2 (Z.leb_le (p + 1 - 1) (zlen (steps r)))) by lia. cbn [andb negb].
  replace (p + 1 - 1)%Z with p by lia. split; [|split; [lia|done]]. do 2 f_equal. unfold current. cbn [_position rd_replay].
  destruct (Z.leb_spec 0 (p + 1)); [|lia]. destruct (Z.ltb_spec (p + 1) (zlen (steps r))); [done|]. simpl. symmetry.
  apply lookup_ge_None_2. unfold zlen in *. lia.
Qed.

(** ** Surprising behaviour *)

(** with an injection guard the recorded text is already fenced, and the agent
    fences it again: the message differs from the recorded one. *)
Theorem guarded_results_are_fenced_twice `{PyRuntime} cfg call r : has_injection_guard cfg = true -> is_error r = false ->
  result_message cfg call (_tool_result_from_block (result_block cfg call r)) <> result_message cfg call r.
Proof.
  intros Hg He. set (inner := _tool_output_for_state cfg call r).
  assert (_tool_result_from_block (result_block cfg call r) = output_result (JStr inner)) as ->.
  { unfold _tool_result_from_block, result_block. rewrite He. done. }
  unfold result_message. rewrite He. cbn [is_error error output_result].
  assert (_tool_output_for_state cfg call (output_result (JStr inner)) = wrap inner (u "tool:" ++ tc_name call)) as ->.
  { unfold _tool_output_for_state. rewrite Hg. done. }
  fold inner. unfold tool_result_message. intros [= Heq]. apply (f_equal length) in Heq. unfold wrap in Heq.
  rewrite !length_app in Heq. change (length (u "</untrusted>")) with 12%nat in Heq. unfold fence_end in Heq.
  change (length (u "</untrusted>")) with 12%nat in Heq. lia.
Qed.

Definition use_message (i n : pystr) (a : jdict) : message := assistant_message (JList [JObj
  [(u "type", JStr (u "tool_use")); (u "id", JStr i); (u "name", JStr n); (u "input", JObj a)]]).

(** an id that a provider uses again in a later turn pairs the later call with
    the earlier result, although the history is replayable. *)
Theorem reused_ids_mispair `{PyRuntime} :
  let a := [(u "path", JStr (u "a"))] in
  let b := [(u "path", JStr (u "b"))] in
  let h := [use_message (u "call_0") (u "read") a; tool_result_message (u "call_0") (JStr (u "text of a")) false;
            use_message (u "call_0") (u "read") b; tool_result_message (u "call_0") (JStr (u "text of b")) false] in
  replay_scan [] h = Some [] /\
  let '(defs, results) := foldl scan_message ([], []) h in
  paired defs results = [{| rc_name := u "read"; rc_arguments := b; rc_result := output_result (JStr (u "text of a")) |}].
Proof. split; vm_compute; reflexivity. Qed.

(** ** Witnesses *)

#[local] Instance plain_runtime : PyRuntime := decoding_runtime [].

Definition plain_config : Config := {|
  tools := []; model_context_limit := 1000; tool_timeout := None; validate_tool_inputs := false;
  parallel_tool_execution := false; has_memory := false; memory_recall_limit := 5; has_planner := false;
  has_verifier := false; max_verification_retries := 0; max_transient_retries := 0;
  transient_retry_backoff_seconds := S754_zero false; has_injection_guard := false; verification_required := false;
  has_hooks := false; has_checkpoint_manager := false; has_state_store := false; has_replay_recorder := false;
  drain_bound := 0 |}.

Definition read_call (i path : pystr) : ToolCall := {|
  tc_id := i; tc_name := u "read"; tc_arguments := [(u "path", JStr path)] |}.

(** Two reads, the second while a snapshot of the first was already taken. *)
Definition two_reads : list (ToolCall * ToolResult) :=
  [(read_call (u "c1") (u "a"), output_result (JStr (u "text of a")));
   (read_call (u "c2") (u "b"), output_result (JList [JInt 1; JInt 2]))].

Definition reads_history (xs : list (ToolCall * ToolResult)) : list message :=
  user_message (u "read both") :: concat (map (fun x =>
    [use_message (tc_id x.1) (tc_name x.1) (tc_arguments x.1); result_message plain_config x.1 x.2]) xs).

Definition reads_state (xs : list (ToolCall * ToolResult)) : ConversationState := {|
  system_prompt := Some (u "help"); messages := reads_history xs; max_messages := None; metadata := [] |}.

Definition snapshot_of (n : Z) (xs : list (ToolCall * ToolResult)) : ReplayStep := {|
  sequence := n; timestamp := u "t"; event_type := u "replay.snapshot";
  payload := [(u "state", JObj (state_fields (reads_state xs) []))] |}.

Definition event_step (n : Z) (ty run : pystr) : ReplayStep := {|
  sequence := n; timestamp := u "t"; event_type := ty; payload := [(u "run_id", JStr run)] |}.

Definition reads_run (id : pystr) : ReplayRun := {|
  rr_run_id := id;
  steps := [event_step 0 (u "agent.started") id; snapshot_of 1 (take 1 two_reads); snapshot_of 2 two_reads;
            event_step 3 (u "agent.finished") id];
  parent_run_id := None; fork_sequence := None |}.

Lemma recorded_tools_repeat_the_run_witness :
  exists calls rs q, from_replay (reads_run (u "r1")) = Some (Ok calls) /\
    replay_all true (map (fun x => (tc_name x.1, tc_arguments x.1)) two_reads) (tools_of calls) = (rs, q) /\
    Forall2 (fun x res => result_message plain_config x.1 res = result_message plain_config x.1 x.2) two_reads rs /\
    forall n, default [] (dict_get n q) = [].
Proof.
  apply (recorded_tools_repeat_the_run plain_config (reads_run (u "r1")) [reads_history (take 1 two_reads); reads_history two_reads]
           (reads_history two_reads)).
  - reflexivity.
  - vm_compute. reflexivity.
  - intros h' [-> | ->%list_elem_of_singleton]%elem_of_cons; [|done].
    exists (drop 3 (reads_history two_reads)). vm_compute. reflexivity.
  - apply list_elem_of_further, list_elem_of_here.
  - split; vm_compute; reflexivity.
  - apply (bool_decide_unpack _). vm_compute. exact I.
  - repeat constructor; done.
Defined.

Lemma comparison_ignores_identity_witness : is_equal (compare_runs (reads_run (u "r1")) (reads_run (u "r2"))) = true.
Proof.
  apply (proj2 (comparison_ignores_identity (reads_run (u "r1")) (reads_run (u "r2"))) (fun _ => JStr (u "r2")) id).
  vm_compute. reflexivity.
Defined.

Lemma fork_continues_recorded_conversation_witness :
  exists b, fork (reads_run (u "r1")) (Some 3%Z) = Some (Ok b) /\ br_state b = reads_state two_reads /\
    br_parent_run_id b = u "r1" /\ br_fork_sequence b = 2%Z /\
    (max_messages (reads_state two_reads) = None -> replayable (reads_state two_reads) -> forall text b',
       replace_input b text = Ok b' \/ add_input b text = Ok b' -> replayable (br_state b')).
Proof.
  apply (fork_continues_recorded_conversation (reads_run (u "r1")) 3
           [event_step 0 (u "agent.started") (u "r1"); snapshot_of 1 (take 1 two_reads)] (snapshot_of 2 two_reads)
           [event_step 3 (u "agent.finished") (u "r1")] (fun _ => None) (reads_state two_reads)).
  - done.
  - reflexivity.
  - reflexivity.
  - repeat constructor. done.
  - by exists [].
  - reflexivity.
  - intros j [= <-]. vm_compute. reflexivity.
Defined.
