(* ===== verification/FileLock.v ===== *)
(** * File ownership locks (kinetic_sdk/subagent/filelock.py)

    The lock record of one canonical path, as the file system holds it, and the
    threads that operate on it: every atomic access to the record, the clock or a
    registry's mutex is one step of one thread, and the steps interleave freely.
    [reg t] is the registry (process) of thread [t]; the [threading.RLock] of a
    registry excludes only its own threads. Clock readings never go backwards. *)

From stdpp Require Import base gmap strings list functions.
From Stdlib Require Import ZArith Lia SpecFloat.
From S2P Require Import Prelude Json Budgets.

(** ** Records *)

Record FileLockInfo := {
  path : pystr;
  owner_id : pystr;
  acquired_at : pyfloat;
  expires_at : option pyfloat;
}.

(** [==] of the frozen dataclass. *)
Definition info_eqb (a b : FileLockInfo) : bool :=
  bool_decide (path a = path b) && bool_decide (owner_id a = owner_id b) && fl_eq (acquired_at a) (acquired_at b)
  && match expires_at a, expires_at b with
     | Some x, Some y => fl_eq x y
     | None, None => true
     | _, _ => false
     end.

Definition _payload (info : FileLockInfo) : json :=
  JObj [(u "path", JStr (path info)); (u "owner_id", JStr (owner_id info));
        (u "acquired_at", JFloat (acquired_at info));
        (u "expires_at", match expires_at info with Some e => JFloat e | None => JNull end)].

(** The text of a record: [None] when it does not decode. [float] of an integer
    too large for a float raises. *)
Definition _read_record (text : option json) : result (option FileLockInfo) :=
  match text with
  | Some (JObj d) =>
    match dict_get (u "path") d, dict_get (u "owner_id") d, dict_get (u "acquired_at") d, dict_get (u "expires_at") d with
    | Some (JStr p), Some (JStr o), Some acquired, Some expires =>
      match as_float (Some acquired), expires with
      | Some (Ok a), JNull => Ok (Some {| path := p; owner_id := o; acquired_at := a; expires_at := None |})
      | Some (Ok a), _ =>
        match as_float (Some expires) with
        | Some (Ok e) => Ok (Some {| path := p; owner_id := o; acquired_at := a; expires_at := Some e |})
        | Some (Err x) => Err x
        | None => Ok None
        end
      | Some (Err x), JNull => Err x
      | Some (Err x), _ => match as_float (Some expires) with Some _ => Err x | None => Ok None end
      | None, _ => Ok None
      end
    | _, _, _, _ => Ok None
    end
  | _ => Ok None
  end.

Definition _is_expired (info : FileLockInfo) (now : pyfloat) : bool :=
  match expires_at info with Some e => fl_le e now | None => false end.

(** ** Operations in progress *)

(** The arguments of [acquire] after its checks. *)
Record AcquireArgs := {
  a_owner : pystr;
  a_lease : option pyfloat;
  a_deadline : option pyfloat;
}.

Definition positive_lease (lease default_lease : option pyfloat) : result (option pyfloat) :=
  let l := match lease with Some l => Some l | None => default_lease end in
  match l with
  | Some x => if fl_le x (S754_zero false) then Err (value_error (u "lease_seconds must be positive or None")) else Ok l
  | None => Ok None
  end.

(** The checks of [acquire] after the path is resolved, and the deadline. *)
Definition acquire_args (owner : pystr) (timeout lease default_lease : option pyfloat) (monotonic : pyfloat)
    : result AcquireArgs :=
  match strip owner with
  | [] => Err (value_error (u "owner_id must be a non-empty string"))
  | _ =>
    if match timeout with Some t => fl_lt t (S754_zero false) | None => false end
    then Err (value_error (u "timeout must be non-negative or None"))
    else
      l <-! positive_lease lease default_lease ;;
      Ok {| a_owner := owner; a_lease := l;
            a_deadline := option_map (fl_add monotonic) timeout |}
  end.

(** Where [_remove_if_unchanged] returns to: the loop of [acquire], or the end of
    [owner_of]. *)
Inductive after_removal := ToAcquire (a : AcquireArgs) | ToOwnerOf.

(** An operation that raised is kept as the class of its exception. *)
Inductive finish := Granted (owner : pystr) | Completed | Failed (exception : pystr).

(** The program point of a thread, with the values of its local variables. [seen]
    is the clock reading that found the record expired. *)
Inductive pc :=
| Idle
| Finished (f : finish)
| AcqLoop (a : AcquireArgs)
| AcqCreate (a : AcquireArgs) (info : FileLockInfo)
| AcqWrite (ino : nat) (info : FileLockInfo)
| AcqRead (a : AcquireArgs) (info : FileLockInfo)
| RemoveLock (k : after_removal) (expected : FileLockInfo) (seen : pyfloat)
| RemoveRead (k : after_removal) (expected : FileLockInfo) (seen : pyfloat)
| RemoveUnlink (k : after_removal) (expected : FileLockInfo) (seen : pyfloat)
| ReleaseLock (owner : pystr)
| ReleaseRead (owner : pystr)
| ReleaseUnlink (owner : pystr)
| RenewLock (owner : pystr) (lease : option pyfloat)
| RenewRead (owner : pystr) (lease : option pyfloat)
| RenewReplace (updated : FileLockInfo)
| OwnerRead
| OwnerClock (info : FileLockInfo)
| Crashed.

(** The directory entry (an inode and its text), the next inode, the mutex of each
    registry, the threads, and the wall clock. *)
Record sys := {
  file : option (nat * option json);
  next_ino : nat;
  mutex : nat -> option nat;
  pcs : nat -> pc;
  wall : pyfloat;
}.

Inductive call :=
| CAcquire (a : AcquireArgs)
| CRelease (owner : pystr)
| CRenew (owner : pystr) (lease : option pyfloat)
| COwnerOf.

(** A label: a thread starts an operation, a thread takes its next step (with the
    clocks it would read and whether a write succeeds), or a process dies. *)
Inductive label :=
| LCall (t : nat) (c : call)
| LStep (t : nat) (clock mono : pyfloat) (io : bool)
| LCrash (r : nat).

Inductive event := EGrant (owner : pystr) | ERelease (owner : pystr) | ERenew (owner : pystr) | EReclaim.

#[export] Instance event_eq_dec : EqDecision event.
Proof. solve_decision. Defined.

Definition ownership_error : pystr := u "FileLockOwnershipError".
Definition timeout_error : pystr := u "FileLockTimeoutError".
Definition os_error : pystr := u "OSError".

Definition entry_text (s : sys) : option json := match file s with Some (_, text) => text | None => None end.
Definition read_info (s : sys) : result (option FileLockInfo) := _read_record (entry_text s).

Definition goto (t : nat) (p : pc) (s : sys) : sys :=
  {| file := file s; next_ino := next_ino s; mutex := mutex s; pcs := <[t := p]> (pcs s); wall := wall s |}.
Definition set_file (f : option (nat * option json)) (s : sys) : sys :=
  {| file := f; next_ino := next_ino s; mutex := mutex s; pcs := pcs s; wall := wall s |}.
Definition new_file (text : option json) (s : sys) : sys :=
  {| file := Some (next_ino s, text); next_ino := S (next_ino s); mutex := mutex s; pcs := pcs s; wall := wall s |}.
Definition set_mutex (r : nat) (o : option nat) (s : sys) : sys :=
  {| file := file s; next_ino := next_ino s; mutex := <[r := o]> (mutex s); pcs := pcs s; wall := wall s |}.
Definition set_wall (c : pyfloat) (s : sys) : sys :=
  {| file := file s; next_ino := next_ino s; mutex := mutex s; pcs := pcs s; wall := c |}.

Definition after_remove (k : after_removal) : pc :=
  match k with ToAcquire a => AcqLoop a | ToOwnerOf => Finished Completed end.

Section Steps.
Variable canonical : pystr.
Variable reg : nat -> nat.

(** [with self._mutex:], entered and left. *)
Definition enter (t : nat) (p : pc) (s : sys) : option sys :=
  match mutex s (reg t) with
  | None => Some (goto t p (set_mutex (reg t) (Some t) s))
  | Some _ => None
  end.
Definition leave (t : nat) (p : pc) (s : sys) : sys := goto t p (set_mutex (reg t) None s).

Definition start_call (t : nat) (c : call) (s : sys) : sys :=
  goto t match c with
         | CAcquire a => AcqLoop a
         | CRelease o => ReleaseLock o
         | CRenew o l => RenewLock o l
         | COwnerOf => OwnerRead
         end s.

(** [FileLockInfo] of a loop iteration that reads the clock [now]. *)
Definition lease_info (a : AcquireArgs) (now : pyfloat) : FileLockInfo := {|
  path := canonical; owner_id := a_owner a; acquired_at := now; expires_at := option_map (fl_add now) (a_lease a) |}.

(** The rest of an iteration of [acquire] after the record is read. *)
Definition acquire_decide (t : nat) (a : AcquireArgs) (now mono : pyfloat) (existing : option FileLockInfo) (s : sys)
    : sys * option event :=
  let wait :=
    if match a_deadline a with Some d => fl_le d mono | None => false end
    then (goto t (Finished (Failed timeout_error)) s, None)
    else (goto t (AcqLoop a) s, None) in
  match existing with
  | Some e =>
    if decide (owner_id e = a_owner a) then (goto t (Finished (Granted (a_owner a))) s, Some (EGrant (a_owner a)))
    else if _is_expired e now then (goto t (RemoveLock (ToAcquire a) e now) s, None)
    else wait
  | None => wait
  end.

(** [_try_create]: the exclusive open, and then the write to the new file; a
    failed write unlinks whatever the name stands for. *)
Definition try_create (t : nat) (a : AcquireArgs) (info : FileLockInfo) (s : sys) : sys :=
  match file s with
  | None => goto t (AcqWrite (next_ino s) info) (new_file None s)
  | Some _ => goto t (AcqRead a info) s
  end.

Definition write_created (t ino : nat) (info : FileLockInfo) (io : bool) (s : sys) : sys * option event :=
  if io then
    let s' := match file s with
              | Some (i, _) => if decide (i = ino) then set_file (Some (i, Some (_payload info))) s else s
              | None => s
              end in
    (goto t (Finished (Granted (owner_id info))) s', Some (EGrant (owner_id info)))
  else (goto t (Finished (Failed os_error)) (set_file None s), None).

Definition acquire_read (t : nat) (a : AcquireArgs) (info : FileLockInfo) (mono : pyfloat) (s : sys) : sys * option event :=
  match read_info s with
  | Ok existing => acquire_decide t a (acquired_at info) mono existing s
  | Err e => (goto t (Finished (Failed (exn_type e))) s, None)
  end.

(** [_remove_if_unchanged], inside its mutex. *)
Definition remove_read (t : nat) (k : after_removal) (e : FileLockInfo) (now : pyfloat) (s : sys) : sys :=
  match read_info s with
  | Ok (Some c) => if info_eqb c e then goto t (RemoveUnlink k e now) s else leave t (after_remove k) s
  | Ok None => leave t (after_remove k) s
  | Err x => leave t (Finished (Failed (exn_type x))) s
  end.

(** [release], inside the mutex. *)
Definition release_read (t : nat) (o : pystr) (s : sys) : sys :=
  match read_info s with
  | Ok (Some c) =>
    if decide (owner_id c = o) then goto t (ReleaseUnlink o) s
    else leave t (Finished (Failed ownership_error)) s
  | Ok None => leave t (Finished (Failed ownership_error)) s
  | Err x => leave t (Finished (Failed (exn_type x))) s
  end.

Definition release_unlink (t : nat) (o : pystr) (s : sys) : sys * option event :=
  match file s with
  | Some _ => (leave t (Finished Completed) (set_file None s), Some (ERelease o))
  | None => (leave t (Finished (Failed ownership_error)) s, None)
  end.

(** [renew], inside the mutex. *)
Definition renew_read (t : nat) (o : pystr) (l : option pyfloat) (clock : pyfloat) (s : sys) : sys :=
  match read_info s with
  | Ok (Some c) =>
    if decide (owner_id c = o)
    then goto t (RenewReplace {| path := canonical; owner_id := o; acquired_at := acquired_at c;
                                 expires_at := option_map (fl_add clock) l |}) s
    else leave t (Finished (Failed ownership_error)) s
  | Ok None => leave t (Finished (Failed ownership_error)) s
  | Err x => leave t (Finished (Failed (exn_type x))) s
  end.

(** [_write_record(..., replace=True)]: the rename of a complete temporary file. *)
Definition write_record (t : nat) (info : FileLockInfo) (s : sys) : sys * option event :=
  (leave t (Finished Completed) (new_file (Some (_payload info)) s), Some (ERenew (owner_id info))).

(** [owner_of], and the body of the loop of [locked_paths] for this record. *)
Definition owner_read (t : nat) (s : sys) : sys :=
  match read_info s with
  | Ok (Some c) => goto t (OwnerClock c) s
  | Ok None => goto t (Finished Completed) s
  | Err x => goto t (Finished (Failed (exn_type x))) s
  end.

Definition owner_clock (t : nat) (c : FileLockInfo) (clock : pyfloat) (s : sys) : sys :=
  goto t (if _is_expired c clock then RemoveLock ToOwnerOf c clock else Finished Completed) s.

Definition thread_step (t : nat) (clock mono : pyfloat) (io : bool) (s : sys) : option (sys * option event) :=
  match pcs s t with
  | Idle | Finished _ | Crashed => None
  | AcqLoop a => Some (goto t (AcqCreate a (lease_info a clock)) s, None)
  | AcqCreate a info => Some (try_create t a info s, None)
  | AcqWrite ino info => Some (write_created t ino info io s)
  | AcqRead a info => Some (acquire_read t a info mono s)
  | RemoveLock k e now => (fun s => (s, None)) <$> enter t (RemoveRead k e now) s
  | RemoveRead k e now => Some (remove_read t k e now s, None)
  | RemoveUnlink k e now => Some (leave t (after_remove k) (set_file None s), Some EReclaim)
  | ReleaseLock o => (fun s => (s, None)) <$> enter t (ReleaseRead o) s
  | ReleaseRead o => Some (release_read t o s, None)
  | ReleaseUnlink o => Some (release_unlink t o s)
  | RenewLock o l => (fun s => (s, None)) <$> enter t (RenewRead o l) s
  | RenewRead o l => Some (renew_read t o l clock s, None)
  | RenewReplace info => Some (write_record t info s)
  | OwnerRead => Some (owner_read t s, None)
  | OwnerClock c => Some (owner_clock t c clock s, None)
  end.

(** A process dies: its threads stop and its mutex is gone with it. *)
Definition crash (r : nat) (s : sys) : sys := {|
  file := file s; next_ino := next_ino s; mutex := <[r := None]> (mutex s);
  pcs := fun t => if decide (reg t = r) then Crashed else pcs s t; wall := wall s |}.

Definition sys_step (l : label) (s : sys) : option (sys * option event) :=
  match l with
  | LCall t c =>
    match pcs s t with
    | Idle | Finished _ => Some (start_call t c s, None)
    | _ => None
    end
  | LStep t clock mono io =>
    if fl_le (wall s) clock then thread_step t clock mono io (set_wall clock s) else None
  | LCrash r => Some (crash r s, None)
  end.

Fixpoint run_labels (ls : list label) (s : sys) : option (sys * list event) :=
  match ls with
  | [] => Some (s, [])
  | l :: ls' =>
    match sys_step l s with
    | Some (s1, ev) =>
      match run_labels ls' s1 with
      | Some (s2, tr) => Some (s2, option_list ev ++ tr)
      | None => None
      end
    | None => None
    end
  end.

Definition init : sys :=
  {| file := None; next_ino := 0; mutex := fun _ => None; pcs := fun _ => Idle; wall := S754_zero false |}.

Definition reachable (s : sys) : Prop := exists ls tr, run_labels ls init = Some (s, tr).
End Steps.

(** The body of every thread step. *)
Ltac open_step := unfold thread_step, try_create, write_created, acquire_read, remove_read, release_read, release_unlink,
  renew_read, write_record, owner_read, owner_clock.
Ltac open_step_in H := unfold thread_step, try_create, write_created, acquire_read, remove_read, release_read,
  release_unlink, renew_read, write_record, owner_read, owner_clock in H.

(** ** The abstract lease

    What callers are promised: a variable that holds at most one lease, granted
    when it is empty (or again to its owner), released and renewed by its owner,
    and taken away only when the wall clock has reached its expiry. *)

Inductive lease_step (now : pyfloat) : option FileLockInfo -> option event -> option FileLockInfo -> Prop :=
| lease_stutter x : lease_step now x None x
| lease_grant info : lease_step now None (Some (EGrant (owner_id info))) (Some info)
| lease_again info : lease_step now (Some info) (Some (EGrant (owner_id info))) (Some info)
| lease_release info : lease_step now (Some info) (Some (ERelease (owner_id info))) None
| lease_renew info info' : owner_id info' = owner_id info ->
    lease_step now (Some info) (Some (ERenew (owner_id info))) (Some info')
| lease_reclaim info : _is_expired info now = true -> lease_step now (Some info) (Some EReclaim) None.

(** The lease that a lock file stands for: none while it is missing or unreadable. *)
Definition lease_of (s : sys) : option FileLockInfo :=
  match read_info s with Ok x => x | Err _ => None end.

(** ** Lemmas *)

Lemma read_payload info : _read_record (Some (_payload info)) = Ok (Some info).
Proof. by destruct info as [p o a [e|]]. Qed.

Lemma expired_equal c e now w : info_eqb c e = true -> _is_expired e now = true -> fl_le now w = true ->
  _is_expired c w = true.
Proof.
  unfold info_eqb, _is_expired. intros Heq He Hw. bool_hyps.
  destruct (expires_at e) as [x|]; [|done]. destruct (expires_at c) as [y|]; [|done].
  eapply fl_le_trans; [by apply fl_eq_le|]. by eapply fl_le_trans.
Qed.

Lemma expired_later e now w : _is_expired e now = true -> fl_le now w = true -> _is_expired e w = true.
Proof. unfold _is_expired. destruct (expires_at e); [|done]. apply fl_le_trans. Qed.

(** ** The invariant of one registry *)

Definition in_mutex (p : pc) : bool :=
  match p with
  | RemoveRead _ _ _ | RemoveUnlink _ _ _ | ReleaseRead _ | ReleaseUnlink _ | RenewRead _ _ | RenewReplace _ => true
  | _ => false
  end.

Definition is_writer (p : pc) : bool := match p with AcqWrite _ _ => true | _ => false end.

(** A record written completely, of which [P] holds. *)
Definition written (f : option (nat * option json)) (P : FileLockInfo -> Prop) : Prop :=
  exists i c, f = Some (i, Some (_payload c)) /\ P c.

(** What a thread at a program point may rely on. *)
Definition fact (f : option (nat * option json)) (w : pyfloat) (p : pc) : Prop :=
  match p with
  | AcqCreate a info | AcqRead a info => owner_id info = a_owner a /\ fl_le (acquired_at info) w = true
  | AcqWrite ino info => f = Some (ino, None)
  | RemoveLock _ e now | RemoveRead _ e now => _is_expired e now = true /\ fl_le now w = true
  | RemoveUnlink _ e now => written f (fun c => _is_expired c w = true)
  | ReleaseUnlink o => written f (fun c => owner_id c = o)
  | RenewReplace info => written f (fun c => owner_id c = owner_id info)
  | _ => True
  end.

Definition file_ok (f : option (nat * option json)) : Prop :=
  match f with
  | Some (_, Some text) => exists info, text = _payload info
  | _ => True
  end.

Record Inv (reg : nat -> nat) (s : sys) : Prop := {
  inv_file : file_ok (file s);
  inv_mutex : forall t, in_mutex (pcs s t) = true -> mutex s (reg t) = Some t;
  inv_fact : forall t, fact (file s) (wall s) (pcs s t);
  inv_writer : forall t t', is_writer (pcs s t) = true -> is_writer (pcs s t') = true -> t = t';
}.

Section OneRegistry.
Variable canonical : pystr.
Variable reg : nat -> nat.
Hypothesis shared : forall t t', reg t = reg t'.

Lemma fact_later f w w' p : fl_le w w' = true -> fact f w p -> fact f w' p.
Proof.
  intros Hw. destruct p; simpl; try done.
  1-2: intros [? ?]; split; [done|by eapply fl_le_trans].
  1-2: intros [? ?]; split; [done|by eapply fl_le_trans].
  intros (i & c & Hf & Hc). exists i, c. split; [done|by eapply expired_later].
Qed.

(** A step of [t] that leads to [p] and leaves the file [f]. *)
Lemma inv_moved t p s f n m :
  Inv reg s -> file_ok f ->
  (forall t', t' <> t -> in_mutex (pcs s t') = true -> m (reg t') = Some t') ->
  (in_mutex p = true -> m (reg t) = Some t) ->
  (forall t', t' <> t -> fact f (wall s) (pcs s t')) ->
  fact f (wall s) p ->
  (is_writer p = true -> forall t', t' <> t -> is_writer (pcs s t') = false) ->
  Inv reg {| file := f; next_ino := n; mutex := m; pcs := <[t := p]> (pcs s); wall := wall s |}.
Proof.
  intros HI Hf Hm Hmp Ho Hp Hw. constructor; simpl; [done| | |].
  - intros t'. destruct (decide (t' = t)) as [->|Hne]; [by rewrite fn_lookup_insert|].
    rewrite fn_lookup_insert_ne by done. by apply Hm.
  - intros t'. destruct (decide (t' = t)) as [->|Hne]; [by rewrite fn_lookup_insert|].
    rewrite fn_lookup_insert_ne by done. by apply Ho.
  - intros t1 t2. destruct (decide (t1 = t)) as [->|H1], (decide (t2 = t)) as [->|H2]; [done| | |];
      rewrite ?fn_lookup_insert, ?fn_lookup_insert_ne by done.
    + intros Hw1 Hw2. by rewrite (Hw Hw1 t2 H2) in Hw2.
    + intros Hw1 Hw2. by rewrite (Hw Hw2 t1 H1) in Hw1.
    + by apply (inv_writer _ _ HI).
Qed.

(** Steps that leave the file alone. *)
Lemma inv_goto t p s : Inv reg s -> fact (file s) (wall s) p ->
  (in_mutex p = true -> mutex s (reg t) = Some t) -> is_writer p = false -> Inv reg (goto t p s).
Proof.
  intros HI Hp Hm Hw. apply inv_moved; [done|apply (inv_file _ _ HI)| |done| |done|by rewrite Hw].
  - intros t' _. apply (inv_mutex _ _ HI).
  - intros t' _. apply (inv_fact _ _ HI).
Qed.

Lemma others_outside t s t' : Inv reg s -> mutex s (reg t) = Some t -> t' <> t -> in_mutex (pcs s t') = false.
Proof using shared.
  intros HI Hm Hne. destruct (in_mutex (pcs s t')) eqn:E; [|done].
  apply (inv_mutex _ _ HI) in E. rewrite (shared t' t), Hm in E. congruence.
Qed.

Lemma inv_enter t p s s' : Inv reg s -> enter reg t p s = Some s' -> fact (file s) (wall s) p -> is_writer p = false ->
  Inv reg s' /\ lease_of s' = lease_of s.
Proof using shared.
  intros HI. unfold enter. destruct (mutex s (reg t)) eqn:Em; [done|]. intros [= <-] Hp Hw. split; [|done].
  apply (inv_moved t p s); [done|apply (inv_file _ _ HI)| | | |done|by rewrite Hw].
  - intros t' Hne Hin. apply (inv_mutex _ _ HI) in Hin. rewrite (shared t' t) in Hin. congruence.
  - intros _. simpl. by rewrite fn_lookup_insert.
  - intros t' _. apply (inv_fact _ _ HI).
Qed.

(** Leaving the mutex, with the file possibly replaced. *)
Lemma inv_leave t p s f n : Inv reg s -> in_mutex (pcs s t) = true -> in_mutex p = false -> is_writer p = false ->
  (forall f w, fact f w p) -> file_ok f -> (f = file s \/ written (file s) (fun _ => True)) ->
  Inv reg {| file := f; next_ino := n; mutex := <[reg t := None]> (mutex s); pcs := <[t := p]> (pcs s); wall := wall s |}.
Proof using shared.
  intros HI Hin Hp Hw Hfp Hf Hwr. apply inv_moved; [done|done| | | |done|by rewrite Hw].
  - intros t' Hne Ht'. by rewrite (others_outside t s t' HI (inv_mutex _ _ HI t Hin) Hne) in Ht'.
  - by rewrite Hp.
  - intros t' Hne. pose proof (inv_fact _ _ HI t') as Hft.
    pose proof (others_outside t s t' HI (inv_mutex _ _ HI t Hin) Hne) as Hout.
    destruct Hwr as [->|(i & c & Hc & _)]; [done|]. destruct (pcs s t'); try done. simpl in Hft. congruence.
Qed.

(** A complete record is the lease it was written for. *)
Lemma written_lease s P : written (file s) P -> exists c, lease_of s = Some c /\ P c.
Proof.
  intros (i & c & Hf & Hc). exists c. split; [|done]. unfold lease_of, read_info, entry_text. rewrite Hf.
  by rewrite read_payload.
Qed.

Lemma lease_written s c : Inv reg s -> lease_of s = Some c -> exists i, file s = Some (i, Some (_payload c)).
Proof.
  intros HI. pose proof (inv_file _ _ HI) as Hf. unfold lease_of, read_info, entry_text.
  destruct (file s) as [[i [text|]]|]; try done. destruct Hf as [info ->]. rewrite read_payload.
  intros [= <-]. by exists i.
Qed.

Lemma read_lease s x : Inv reg s -> read_info s = x -> x = Ok (lease_of s).
Proof.
  intros HI <-. pose proof (inv_file _ _ HI) as Hf. unfold lease_of, read_info, entry_text.
  destruct (file s) as [[i [text|]]|]; try done. destruct Hf as [info ->]. by rewrite read_payload.
Qed.

(** What every step of one thread does: it keeps the invariant and is a step of
    the abstract lease. *)
Definition sound (s s' : sys) (ev : option event) : Prop :=
  Inv reg s' /\ wall s' = wall s /\ lease_step (wall s) (lease_of s) ev (lease_of s').

Lemma sound_goto t p s : Inv reg s -> fact (file s) (wall s) p -> in_mutex p = in_mutex (pcs s t) ->
  is_writer p = false -> sound s (goto t p s) None.
Proof.
  intros HI Hp Hm Hw. split; [|split; [done|apply lease_stutter]].
  apply inv_goto; [done|done| |done]. intros Hin. rewrite Hm in Hin. by apply (inv_mutex _ _ HI).
Qed.

Lemma sound_leave t p s : Inv reg s -> in_mutex (pcs s t) = true -> in_mutex p = false -> is_writer p = false ->
  (forall f w, fact f w p) -> sound s (leave reg t p s) None.
Proof using shared.
  intros HI Hin Hp Hw Hfp. split; [|split; [done|apply lease_stutter]].
  apply (inv_leave t p s (file s) (next_ino s)); try done; [apply (inv_file _ _ HI)|by left].
Qed.

Lemma sound_enter t p s s' ev : Inv reg s -> (fun s => (s, None : option event)) <$> enter reg t p s = Some (s', ev) ->
  fact (file s) (wall s) p -> is_writer p = false -> sound s s' ev.
Proof using shared.
  intros HI He Hp Hw. destruct (enter reg t p s) as [s1|] eqn:E; [|done]. simpl in He. injection He as <- <-.
  assert (wall s1 = wall s) as Hws by (unfold enter in E; destruct (mutex s (reg t)); [done|by injection E as <-]).
  apply (inv_enter t p s s1 HI) in E as [HI' Hl]; [|done|done]. split; [done|]. split; [done|].
  rewrite Hl. apply lease_stutter.
Qed.

Lemma sound_decide t a info mono x s s' ev : Inv reg s -> pcs s t = AcqRead a info -> lease_of s = x ->
  acquire_decide t a (acquired_at info) mono x s = (s', ev) -> sound s s' ev.
Proof.
  intros HI Hpc Hl. pose proof (inv_fact _ _ HI t) as Hf. rewrite Hpc in Hf. destruct Hf as [_ Hle].
  unfold acquire_decide. destruct x as [e|].
  - case_decide as Ho.
    + intros [= <- <-]. split; [apply inv_goto; by rewrite ?Hpc|]. split; [done|].
      change (lease_of (goto _ _ s)) with (lease_of s). rewrite Hl, <- Ho. apply lease_again.
    + destruct (_is_expired e (acquired_at info)) eqn:Ex.
      * intros [= <- <-]. apply sound_goto; [done|done|by rewrite Hpc|done].
      * case_match; intros [= <- <-]; (apply sound_goto; [done|done|by rewrite Hpc|done]).
  - case_match; intros [= <- <-]; (apply sound_goto; [done|done|by rewrite Hpc|done]).
Qed.

Lemma sound_create t a info s : Inv reg s -> pcs s t = AcqCreate a info -> file s = None ->
  sound s (goto t (AcqWrite (next_ino s) info) (new_file None s)) None.
Proof.
  intros HI Hpc Hf. split; [|split; [done|]].
  - apply (inv_moved t _ s (Some (next_ino s, None))); try done.
    + intros t' _. apply (inv_mutex _ _ HI).
    + intros t' _. pose proof (inv_fact _ _ HI t') as Hft. rewrite Hf in Hft.
      destruct (pcs s t'); try done; by destruct Hft as (? & ? & ? & ?).
    + intros _ t' _. pose proof (inv_fact _ _ HI t') as Hft. rewrite Hf in Hft. by destruct (pcs s t').
  - assert (lease_of s = None) as -> by (unfold lease_of, read_info, entry_text; by rewrite Hf). apply lease_stutter.
Qed.

(** A write to the record that [t] created. *)
Lemma inv_write t p ino info s f : Inv reg s -> pcs s t = AcqWrite ino info -> file_ok f ->
  in_mutex p = false -> is_writer p = false -> (forall f w, fact f w p) ->
  Inv reg {| file := f; next_ino := next_ino s; mutex := mutex s; pcs := <[t := p]> (pcs s); wall := wall s |}.
Proof.
  intros HI Hpc Hf Hp Hw Hfp. pose proof (inv_fact _ _ HI t) as Hft. rewrite Hpc in Hft. simpl in Hft.
  apply inv_moved; try done; [|by rewrite Hp| |by rewrite Hw].
  - intros t' _. apply (inv_mutex _ _ HI).
  - intros t' Hne. pose proof (inv_fact _ _ HI t') as Hft'. rewrite Hft in Hft'.
    destruct (pcs s t') eqn:E; try done; try by destruct Hft' as (? & ? & ? & ?).
    destruct Hne. apply (inv_writer _ _ HI); by rewrite ?E, ?Hpc.
Qed.

Lemma sound_write t ino info clock mono io s s' ev : Inv reg s -> pcs s t = AcqWrite ino info ->
  thread_step canonical reg t clock mono io s = Some (s', ev) -> sound s s' ev.
Proof.
  intros HI Hpc. pose proof (inv_fact _ _ HI t) as Hft. rewrite Hpc in Hft. simpl in Hft.
  open_step. rewrite Hpc.
  assert (lease_of s = None) as Hl by (unfold lease_of, read_info, entry_text; by rewrite Hft).
  destruct io; intros [= <- <-].
  - rewrite Hft, decide_True by done. split; [|split; [done|]].
    + apply (inv_write t _ ino info s); try done. by exists info.
    + rewrite Hl. replace (lease_of _) with (Some info) by (by destruct info as [? ? ? [?|]]). apply lease_grant.
  - split; [|split; [done|]]; [by apply (inv_write t _ ino info s)|]. rewrite Hl. apply lease_stutter.
Qed.

(** A thread in the mutex takes the lease away. *)
Lemma sound_unlink t p s c ev : Inv reg s -> in_mutex (pcs s t) = true -> in_mutex p = false -> is_writer p = false ->
  (forall f w, fact f w p) -> written (file s) (fun _ => True) -> lease_of s = Some c ->
  lease_step (wall s) (Some c) ev None -> sound s (leave reg t p (set_file None s)) ev.
Proof using shared.
  intros HI Hin Hp Hw Hfp Hwr Hl Hstep. split; [|split; [done|]].
  - apply (inv_leave t p s None (next_ino s)); try done. by right.
  - by rewrite Hl.
Qed.

Lemma resume_outside k : in_mutex (after_remove k) = false /\ is_writer (after_remove k) = false /\ forall f w, fact f w (after_remove k).
Proof. by destruct k. Qed.

Lemma written_true f P : written f P -> written f (fun _ => True).
Proof. intros (i & c & Hf & _). by exists i, c. Qed.

(** Steps outside the removals, releases and renewals. *)
Lemma thread_step_outside t mono io s s' ev : Inv reg s -> fl_le (wall s) (wall s) = true ->
  in_mutex (pcs s t) = false -> thread_step canonical reg t (wall s) mono io s = Some (s', ev) -> sound s s' ev.
Proof using shared.
  intros HI Hw Hin Hs. pose proof (inv_fact _ _ HI t) as Hf. pose proof Hs as Hs0. open_step_in Hs.
  destruct (pcs s t) as [|f|a|a info|ino info|a info|k e now| | |o| | |o l| | | |c|] eqn:Hpc; try done; simpl in Hf.
  - injection Hs as <- <-. apply sound_goto; by rewrite ?Hpc.
  - destruct (file s) as [f|] eqn:Ef; injection Hs as <- <-; [|by apply (sound_create t a info)].
    apply sound_goto; by rewrite ?Hpc.
  - by eapply sound_write.
  - destruct (read_info s) as [x|] eqn:Er; apply (read_lease s _ HI) in Er; [|done]. injection Er as ->.
    injection Hs as Hs. by eapply sound_decide.
  - by eapply sound_enter.
  - by eapply sound_enter.
  - by eapply sound_enter.
  - destruct (read_info s) as [[c|]|]; injection Hs as <- <-; apply sound_goto; by rewrite ?Hpc.
  - injection Hs as <- <-. destruct (_is_expired c (wall s)) eqn:Ex; apply sound_goto; by rewrite ?Hpc.
Qed.

(** Steps inside the mutex. *)
Lemma thread_step_inside t clock mono io s s' ev : Inv reg s ->
  in_mutex (pcs s t) = true -> thread_step canonical reg t clock mono io s = Some (s', ev) -> sound s s' ev.
Proof using shared.
  intros HI Hin Hs. pose proof (inv_fact _ _ HI t) as Hf. pose proof (inv_mutex _ _ HI t Hin) as Hm. open_step_in Hs.
  destruct (pcs s t) as [| | | | | | |k e now|k e now| |o|o| |o l|info| | |] eqn:Hpc; try done; simpl in Hf;
    try (destruct (read_info s) as [x|] eqn:Er; apply (read_lease s _ HI) in Er; [|done]; injection Er as ->).
  - destruct Hf as [He Hle]. destruct (resume_outside k) as (Hk1 & Hk2 & Hk3).
    destruct (lease_of s) as [c|] eqn:Hl; [|injection Hs as <- <-; apply sound_leave; by rewrite ?Hpc].
    destruct (info_eqb c e) eqn:Heq; injection Hs as <- <-; [|apply sound_leave; by rewrite ?Hpc].
    apply sound_goto; [done| |by rewrite Hpc|done]. apply (lease_written s c HI) in Hl as [i Hi].
    exists i, c. split; [done|]. by eapply expired_equal.
  - destruct (resume_outside k) as (Hk1 & Hk2 & Hk3). injection Hs as <- <-.
    destruct (written_lease s _ Hf) as (c & Hl & Hc). apply sound_unlink with c; try by rewrite ?Hpc.
    + by eapply written_true.
    + by apply lease_reclaim.
  - destruct (lease_of s) as [c|] eqn:Hl; [|injection Hs as <- <-; apply sound_leave; by rewrite ?Hpc].
    case_decide as Ho; injection Hs as <- <-; [|apply sound_leave; by rewrite ?Hpc].
    apply sound_goto; [done| |by rewrite Hpc|done]. apply (lease_written s c HI) in Hl as [i Hi]. by exists i, c.
  - destruct (written_lease s _ Hf) as (c & Hl & Hc). pose proof (written_true _ _ Hf) as Hwr.
    destruct Hf as (i & c' & Hi & _). rewrite Hi in Hs. injection Hs as <- <-.
    apply sound_unlink with c; try by rewrite ?Hpc. rewrite <- Hc. apply lease_release.
  - destruct (lease_of s) as [c|] eqn:Hl; [|injection Hs as <- <-; apply sound_leave; by rewrite ?Hpc].
    case_decide as Ho; injection Hs as <- <-; [|apply sound_leave; by rewrite ?Hpc].
    apply sound_goto; [done| |by rewrite Hpc|done]. apply (lease_written s c HI) in Hl as [i Hi]. by exists i, c.
  - injection Hs as <- <-. destruct (written_lease s _ Hf) as (c & Hl & Hc). split; [|split; [done|]].
    + apply (inv_leave t _ s (Some (next_ino s, Some (_payload info)))); try by rewrite ?Hpc.
      * by exists info.
      * right. by eapply written_true.
    + rewrite Hl, <- Hc. replace (lease_of _) with (Some info) by (by destruct info as [? ? ? [?|]]).
      by apply lease_renew.
Qed.

Lemma inv_wall c s : Inv reg s -> fl_le (wall s) c = true -> Inv reg (set_wall c s).
Proof.
  intros HI Hc. constructor; try apply HI. intros t. apply (fact_later _ (wall s)); [done|apply (inv_fact _ _ HI)].
Qed.

Lemma inv_crash r s : Inv reg s -> Inv reg (crash reg r s).
Proof.
  intros HI. constructor; simpl; [apply (inv_file _ _ HI)| | |].
  - intros t. case_decide as Hr; [done|]. intros Hin. rewrite fn_lookup_insert_ne by congruence.
    by apply (inv_mutex _ _ HI).
  - intros t. case_decide; [done|apply (inv_fact _ _ HI)].
  - intros t t'. case_decide; [done|]. case_decide; [done|]. apply (inv_writer _ _ HI).
Qed.

Lemma step_sound l s s' ev : Inv reg s -> sys_step canonical reg l s = Some (s', ev) ->
  Inv reg s' /\ (wall s' = wall s \/ fl_le (wall s) (wall s') = true) /\ lease_step (wall s') (lease_of s) ev (lease_of s').
Proof using shared.
  intros HI Hs. destruct l as [t c|t clock mono io|r]; simpl in Hs.
  - assert (sound s (start_call t c s) None) as (HI' & Hw & Hl) by (unfold start_call; destruct (pcs s t) eqn:Hpc; try done;
      apply sound_goto; try done; destruct c; by rewrite ?Hpc).
    assert ((s', ev) = (start_call t c s, None)) as [= -> ->] by (by destruct (pcs s t); simplify_eq).
    split; [done|]. split; [by left|done].
  - destruct (fl_le (wall s) clock) eqn:Hc; [|done]. set (s1 := set_wall clock s) in *.
    assert (sound s1 s' ev) as (HI' & Hw & Hl).
    { pose proof (inv_wall clock s HI Hc) as HI1. destruct (in_mutex (pcs s1 t)) eqn:Hin.
      - by eapply thread_step_inside.
      - eapply thread_step_outside; [done| |done|exact Hs]. by eapply fl_le_refl_l. }
    split; [done|]. split; [right; by rewrite Hw|]. by rewrite Hw.
  - injection Hs as <- <-. split; [by apply inv_crash|]. split; [by left|apply lease_stutter].
Qed.

Lemma inv_init : Inv reg init.
Proof. by constructor. Qed.

Lemma run_inv ls s s' tr : Inv reg s -> run_labels canonical reg ls s = Some (s', tr) ->
  Inv reg s' /\ (wall s' = wall s \/ fl_le (wall s) (wall s') = true).
Proof using shared.
  revert s tr; induction ls as [|l ls IH]; intros s tr HI; simpl; [intros [= <- <-]; by split; [|left]|].
  destruct (sys_step canonical reg l s) as [[s1 ev]|] eqn:E; [|done]. destruct (run_labels canonical reg ls s1) as [[s2 tr2]|] eqn:E2; [|done].
  intros [= <- <-]. apply step_sound in E as (HI1 & Hw1 & _); [|done]. apply IH in E2 as [HI2 Hw2]; [|done].
  split; [done|]. destruct Hw1 as [<-|Hw1]; [done|]. right. destruct Hw2 as [->|Hw2]; [done|by eapply fl_le_trans].
Qed.

Lemma reachable_inv s : reachable canonical reg s -> Inv reg s.
Proof using shared. intros (ls & tr & Hr). apply run_inv in Hr as [HI _]; [done|apply inv_init]. Qed.

(** A lease is undisturbed while its owner neither releases nor renews it and the
    clock has not reached its expiry. *)
Lemma run_keeps_lease ls s s' tr c : Inv reg s -> lease_of s = Some c ->
  run_labels canonical reg ls s = Some (s', tr) -> _is_expired c (wall s') = false ->
  ERelease (owner_id c) ∉ tr -> ERenew (owner_id c) ∉ tr ->
  lease_of s' = Some c /\ forall o, EGrant o ∈ tr -> o = owner_id c.
Proof using shared.
  revert s tr; induction ls as [|l ls IH]; intros s tr HI Hl; simpl.
  { intros [= <- <-] _ _ _. split; [done|]. intros o Ho. by apply not_elem_of_nil in Ho. }
  destruct (sys_step canonical reg l s) as [[s1 ev]|] eqn:E; [|done].
  destruct (run_labels canonical reg ls s1) as [[s2 tr2]|] eqn:E2; [|done]. intros [= <- <-] Hx Hr Hn.
  apply step_sound in E as (HI1 & _ & Hstep); [|done]. pose proof (run_inv _ _ _ _ HI1 E2) as [_ Hw].
  rewrite elem_of_app in Hr, Hn. rewrite Hl in Hstep.
  assert (lease_of s1 = Some c /\ forall o, EGrant o ∈ option_list ev -> o = owner_id c) as [Hl1 Hg].
  { remember (Some c) as x eqn:Ex. remember (lease_of s1) as y eqn:Ey.
    destruct Hstep as [x|info|info|info|info info' Ho|info Hexp]; simplify_eq; simpl in *.
    - split; [done|]. intros o Ho. by apply not_elem_of_nil in Ho.
    - split; [done|]. intros o Ho. rewrite list_elem_of_singleton in Ho. congruence.
    - destruct Hr. left. apply list_elem_of_here.
    - destruct Hn. left. apply list_elem_of_here.
    - destruct Hw as [Hw|Hw]; [rewrite Hw in Hx; congruence|]. by rewrite (expired_later _ _ _ Hexp Hw) in Hx. }
  eapply IH in E2 as [Hl2 Hg2]; [|done|done|done|tauto|tauto]. split; [done|].
  intros o [Ho|Ho]%elem_of_app; [by apply Hg|by apply Hg2].
Qed.
End OneRegistry.

(** ** A record whose writer died *)

Definition can_touch (p : pc) : bool :=
  match p with AcqWrite _ _ | RemoveUnlink _ _ _ | ReleaseUnlink _ | RenewReplace _ => true | _ => false end.

(** The lock file exists, was never written, and nobody is about to touch it. *)
Definition torn (s : sys) : Prop := (exists i, file s = Some (i, None)) /\ forall t, can_touch (pcs s t) = false.

Lemma torn_goto t p s : torn s -> can_touch p = false -> torn (goto t p s).
Proof.
  intros [Hf Hp] Hc. split; [done|]. intros t'. simpl. destruct (decide (t' = t)) as [->|Hne].
  - by rewrite fn_lookup_insert.
  - by rewrite fn_lookup_insert_ne.
Qed.

Lemma torn_enter reg t p s s' ev : torn s -> can_touch p = false ->
  (fun s => (s, None : option event)) <$> enter reg t p s = Some (s', ev) -> torn s' /\ ev = None.
Proof.
  intros Ht Hc. unfold enter. destruct (mutex s (reg t)); [done|]. simpl. intros [= <- <-].
  split; [|done]. by apply (torn_goto t p (set_mutex (reg t) (Some t) s)).
Qed.

Lemma torn_leave reg t p s : torn s -> can_touch p = false -> torn (leave reg t p s).
Proof. intros Ht. by apply (torn_goto t p (set_mutex (reg t) None s)). Qed.

Lemma torn_thread canonical reg t clock mono io s s' ev : torn s ->
  thread_step canonical reg t clock mono io s = Some (s', ev) -> torn s' /\ ev = None.
Proof.
  intros Ht. pose proof Ht as [[i Hf] Hp]. specialize (Hp t). open_step.
  assert (read_info s = Ok None) as -> by (unfold read_info, entry_text; by rewrite Hf). rewrite Hf.
  destruct (pcs s t) as [| | | | | | |k e now| | | | | | | | | |] eqn:Hpc; try done;
    try (by apply torn_enter); try (intros [= <- <-]; split; [|done]);
    try (apply torn_leave; [done|]); try (by apply torn_goto); try done.
  - unfold acquire_decide. case_match; intros [= <- <-]; (split; [by apply torn_goto|done]).
  - by destruct k.
  - match goal with |- context [_is_expired ?c clock] => destruct (_is_expired c clock) end; by apply torn_goto.
Qed.

Lemma torn_step canonical reg l s s' ev : torn s -> sys_step canonical reg l s = Some (s', ev) -> torn s' /\ ev = None.
Proof.
  intros Ht. destruct l as [t c|t clock mono io|r]; simpl.
  - intros Hs. assert ((s', ev) = (start_call t c s, None)) as [= -> ->] by (by destruct (pcs s t); simplify_eq).
    split; [|done]. apply torn_goto; [done|by destruct c].
  - destruct (fl_le (wall s) clock); [|done]. by apply torn_thread.
  - intros [= <- <-]. split; [|done]. split; [apply Ht|]. intros t. simpl. case_decide; [done|apply Ht].
Qed.

(** ** Progress *)

Lemma run_cons canonical reg l ls s s1 s2 ev tr : sys_step canonical reg l s = Some (s1, ev) ->
  run_labels canonical reg ls s1 = Some (s2, tr) -> run_labels canonical reg (l :: ls) s = Some (s2, option_list ev ++ tr).
Proof. intros H1 H2. simpl. by rewrite H1, H2. Qed.

Lemma run_app canonical reg ls ls' s s1 s2 tr tr' : run_labels canonical reg ls s = Some (s1, tr) ->
  run_labels canonical reg ls' s1 = Some (s2, tr') -> run_labels canonical reg (ls ++ ls') s = Some (s2, tr ++ tr').
Proof.
  revert s tr; induction ls as [|l ls IH]; intros s tr; simpl; [by intros [= <- <-]|].
  destruct (sys_step canonical reg l s) as [[s3 ev]|]; [|done]. destruct (run_labels canonical reg ls s3) as [[s4 tr4]|] eqn:E; [|done].
  intros [= -> <-] H2. by rewrite (IH _ _ E H2), app_assoc.
Qed.

Lemma fl_eq_refl_l x y : fl_le x y = true -> fl_eq x x = true.
Proof.
  unfold fl_le, fl_eq, SFleb, SFeqb, SFcompare. destruct x as [[]|[]| |[] mx e1]; try done;
    intros _; rewrite Z.compare_refl; change (Pos.compare_cont Eq mx mx) with (mx ?= mx)%positive; by rewrite Pos.compare_refl.
Qed.

Lemma info_eqb_refl e k : _is_expired e k = true -> fl_eq (acquired_at e) (acquired_at e) = true -> info_eqb e e = true.
Proof.
  unfold _is_expired, info_eqb. destruct (expires_at e) as [x|] eqn:E; [|done]. intros Hx Ha.
  by rewrite !bool_decide_eq_true_2, Ha, (fl_eq_refl_l _ _ Hx).
Qed.

Section Solo.
Variable canonical : pystr.
Variable reg : nat -> nat.
Variables (t : nat) (k m : pyfloat) (a : AcquireArgs).

Lemma solo_grant s : pcs s t = AcqLoop a -> fl_le (wall s) k = true -> file s = None ->
  exists s', run_labels canonical reg (repeat (LStep t k m true) 3) s = Some (s', [EGrant (a_owner a)]) /\
    lease_of s' = Some (lease_info canonical a k) /\ wall s' = k.
Proof.
  intros Hpc Hk Hf. pose proof (fl_le_refl_l _ _ Hk) as Hkk. eexists. split; [|split].
  - cbn [repeat]. eapply (run_cons _ _ _ _ _ _ _ None).
    { simpl. rewrite Hk. open_step. simpl. rewrite Hpc. reflexivity. }
    eapply (run_cons _ _ _ _ _ _ _ None).
    { simpl. rewrite Hkk. open_step. simpl. rewrite fn_lookup_insert, Hf. reflexivity. }
    eapply (run_cons _ _ _ _ _ _ _ (Some _)).
    { simpl. rewrite Hkk. open_step. simpl. rewrite fn_lookup_insert. simpl.
      rewrite decide_True by done. reflexivity. }
    reflexivity.
  - unfold lease_info. by destruct (a_lease a).
  - done.
Qed.

(** The six steps that find an expired record and remove it. *)
Lemma solo_reclaim s i e : pcs s t = AcqLoop a -> fl_le (wall s) k = true -> mutex s (reg t) = None ->
  file s = Some (i, Some (_payload e)) -> owner_id e <> a_owner a -> _is_expired e k = true -> info_eqb e e = true ->
  exists s', run_labels canonical reg (repeat (LStep t k m true) 6) s = Some (s', [EReclaim]) /\
    pcs s' t = AcqLoop a /\ fl_le (wall s') k = true /\ file s' = None.
Proof.
  intros Hpc Hk Hm Hf Ho Hx He. pose proof (fl_le_refl_l _ _ Hk) as Hkk.
  assert (forall s, file s = Some (i, Some (_payload e)) -> read_info s = Ok (Some e)) as Hread.
  { intros s1 H1. unfold read_info, entry_text. rewrite H1. apply read_payload. }
  eexists. split; [|split; [|split]].
  - cbn [repeat]. eapply (run_cons _ _ _ _ _ _ _ None).
    { simpl. rewrite Hk. open_step. simpl. rewrite Hpc. reflexivity. }
    eapply (run_cons _ _ _ _ _ _ _ None).
    { simpl. rewrite Hkk. open_step. simpl. rewrite fn_lookup_insert, Hf. reflexivity. }
    eapply (run_cons _ _ _ _ _ _ _ None).
    { simpl. rewrite Hkk. open_step. simpl. rewrite fn_lookup_insert, Hread by done.
      unfold acquire_decide. simpl. rewrite decide_False, Hx by done. reflexivity. }
    eapply (run_cons _ _ _ _ _ _ _ None).
    { simpl. rewrite Hkk. open_step. simpl. rewrite fn_lookup_insert. unfold enter. simpl. rewrite Hm. reflexivity. }
    eapply (run_cons _ _ _ _ _ _ _ None).
    { simpl. rewrite Hkk. open_step. simpl. rewrite fn_lookup_insert, Hread, He by done. reflexivity. }
    eapply (run_cons _ _ _ _ _ _ _ (Some _)).
    { simpl. rewrite Hkk. open_step. simpl. rewrite fn_lookup_insert. reflexivity. }
    reflexivity.
  - simpl. by rewrite fn_lookup_insert.
  - done.
  - done.
Qed.
End Solo.

(** ** Theorems *)

Section Theorems.
Variable canonical : pystr.
Variable reg : nat -> nat.

(** C32: one registry implements the abstract lease: every step of every
    interleaving of its threads, crashes included, is a step of the lease that the
    lock file stands for, at the current wall-clock time. *)
Theorem registry_refines_lease l s s' ev : (forall t t', reg t = reg t') -> reachable canonical reg s ->
  sys_step canonical reg l s = Some (s', ev) -> lease_step (wall s') (lease_of s) ev (lease_of s').
Proof.
  intros Hsh Hr Hs. pose proof (reachable_inv canonical reg Hsh s Hr) as HI.
  by destruct (step_sound canonical reg Hsh l s s' ev HI Hs) as (_ & _ & H).
Qed.

(** C16: mutual exclusion. From any reachable state of one registry, whatever its
    threads do, a lease that the clock has not reached and whose owner neither
    releases nor renews it stays as it is, and no other owner is granted the lock. *)
Theorem live_lease_excludes ls s s' tr c : (forall t t', reg t = reg t') -> reachable canonical reg s ->
  lease_of s = Some c -> run_labels canonical reg ls s = Some (s', tr) ->
  _is_expired c (wall s') = false -> ERelease (owner_id c) ∉ tr -> ERenew (owner_id c) ∉ tr ->
  lease_of s' = Some c /\ forall o, EGrant o ∈ tr -> o = owner_id c.
Proof.
  intros Hsh Hr Hl Hrun Hx Hrel Hren. eapply (run_keeps_lease canonical reg Hsh); eauto. by apply (reachable_inv canonical reg Hsh).
Qed.

(** C33: progress. A thread that enters the acquire loop and runs alone is granted
    the lock within nine steps when the record is missing or has expired, also when
    its previous owner died. *)
Theorem expired_lock_is_reclaimed t a k m s :
  pcs s t = AcqLoop a -> fl_le (wall s) k = true -> mutex s (reg t) = None ->
  (file s = None \/ exists i e, file s = Some (i, Some (_payload e)) /\ owner_id e <> a_owner a /\
     _is_expired e k = true /\ fl_eq (acquired_at e) (acquired_at e) = true) ->
  exists n s' tr, (n <= 9)%nat /\ run_labels canonical reg (repeat (LStep t k m true) n) s = Some (s', tr) /\
    (tr = [EGrant (a_owner a)] \/ tr = [EReclaim; EGrant (a_owner a)]) /\ lease_of s' = Some (lease_info canonical a k).
Proof.
  intros Hpc Hk Hm [Hf|(i & e & Hf & Ho & Hx & Ha)].
  - destruct (solo_grant canonical reg t k m a s Hpc Hk Hf) as (s' & Hr & Hl & _).
    exists 3%nat, s', [EGrant (a_owner a)]. split; [lia|]. split; [done|]. split; [by left|done].
  - destruct (solo_reclaim canonical reg t k m a s i e Hpc Hk Hm Hf Ho Hx (info_eqb_refl e k Hx Ha))
      as (s1 & Hr1 & Hpc1 & Hk1 & Hf1).
    destruct (solo_grant canonical reg t k m a s1 Hpc1 Hk1 Hf1) as (s' & Hr & Hl & _).
    exists (6 + 3)%nat, s', ([EReclaim] ++ [EGrant (a_owner a)]). split; [lia|].
    rewrite repeat_app. split; [by eapply run_app|]. split; [by right|done].
Qed.

(** a lock file whose writer died between creating and writing it blocks its
    path for good: in no continuation is the lock granted again, released or
    reclaimed, whatever the lease was. *)
Theorem torn_record_is_permanent ls s s' tr : torn s -> run_labels canonical reg ls s = Some (s', tr) -> torn s' /\ tr = [].
Proof.
  revert s tr; induction ls as [|l ls IH]; intros s tr Ht; simpl; [by intros [= <- <-]|].
  destruct (sys_step canonical reg l s) as [[s1 ev]|] eqn:E; [|done].
  destruct (run_labels canonical reg ls s1) as [[s2 tr2]|] eqn:E2; [|done]. intros [= <- <-].
  apply torn_step in E as [Ht1 ->]; [|done]. by apply IH in E2.
Qed.
End Theorems.

(** ** Two registries on one directory *)

Definition at_time (z : Z) : pyfloat := fl_of_Z z.

Definition wants (o : pystr) (lease : Z) : AcquireArgs :=
  {| a_owner := o; a_lease := Some (fl_of_Z lease); a_deadline := None |}.

Definition steps_at (t : nat) (n : nat) (z : Z) : list label := repeat (LStep t (at_time z) (at_time 0) true) n.

(** Process 0 holds the lock from 0 to 10 and goes away. At 20, process 1 finds the
    record expired, reads it again under its mutex and is about to unlink it;
    process 2 does the same, completes, and holds the lock until 120. *)
Definition takeover : list label :=
  [LCall 0 (CAcquire (wants (u "a") 10))] ++ steps_at 0 3 0 ++
  [LCall 1 (CAcquire (wants (u "b") 100)); LCall 2 (CAcquire (wants (u "c") 100))] ++
  steps_at 1 5 20 ++ steps_at 2 9 20.

(** with one registry per process the lock is not exclusive: process 1 unlinks
    the record that process 2 has just created, and both own the path while both
    leases have a hundred seconds to run. *)
Theorem processes_can_share_a_lock :
  exists s1 s2 lease, run_labels (u "/w/f") id takeover init = Some (s1, [EGrant (u "a"); EReclaim; EGrant (u "c")]) /\
    lease_of s1 = Some lease /\ owner_id lease = u "c" /\
    run_labels (u "/w/f") id (steps_at 1 4 20) s1 = Some (s2, [EReclaim; EGrant (u "b")]) /\
    _is_expired lease (wall s2) = false.
Proof. do 3 eexists. split; [vm_compute; reflexivity|]. split; [vm_compute; reflexivity|]. split; [done|]. split; vm_compute; reflexivity. Qed.

(** ** Witnesses *)

Definition one_process : nat -> nat := fun _ => 0%nat.

Definition first_grant : list label := [LCall 0 (CAcquire (wants (u "a") 100))] ++ steps_at 0 3 0.

(** While thread 0 holds the lock, thread 1 tries to take it. *)
Definition contention : list label := [LCall 1 (CAcquire (wants (u "b") 100))] ++ steps_at 1 7 50.

Definition state_after (reg : nat -> nat) (ls : list label) (s : sys) : sys :=
  match run_labels (u "/w/f") reg ls s with Some (s', _) => s' | None => s end.

Lemma registry_refines_lease_witness :
  exists s', sys_step (u "/w/f") one_process (LStep 0 (at_time 0) (at_time 0) true) (state_after one_process (take 3 first_grant) init)
    = Some (s', Some (EGrant (u "a"))) /\
  lease_step (wall s') (lease_of (state_after one_process (take 3 first_grant) init)) (Some (EGrant (u "a"))) (lease_of s').
Proof.
  eexists. split; [vm_compute; reflexivity|].
  apply (registry_refines_lease (u "/w/f") one_process (LStep 0 (at_time 0) (at_time 0) true)).
  - done.
  - exists (take 3 first_grant), []. vm_compute. reflexivity.
  - vm_compute. reflexivity.
Defined.

Lemma live_lease_excludes_witness :
  let s := state_after one_process first_grant init in
  exists c, lease_of s = Some c /\ owner_id c = u "a" /\
  lease_of (state_after one_process contention s) = Some c /\ forall o, EGrant o ∈ [] -> o = owner_id c.
Proof.
  eexists. split; [vm_compute; reflexivity|]. split; [reflexivity|].
  apply (live_lease_excludes (u "/w/f") one_process contention (state_after one_process first_grant init)).
  - done.
  - exists first_grant, [EGrant (u "a")]. vm_compute. reflexivity.
  - vm_compute. reflexivity.
  - vm_compute. reflexivity.
  - vm_compute. reflexivity.
  - apply not_elem_of_nil.
  - apply not_elem_of_nil.
Defined.

(** Thread 1 asks for the lock after the holder's process has died and the lease
    has run out. *)
Definition orphaned : list label := first_grant ++ [LCrash 0; LCall 1 (CAcquire (wants (u "b") 100))].

Lemma expired_lock_is_reclaimed_witness :
  exists n s' tr, (n <= 9)%nat /\
    run_labels (u "/w/f") id (repeat (LStep 1 (at_time 200) (at_time 0) true) n) (state_after id orphaned init) = Some (s', tr) /\
    (tr = [EGrant (u "b")] \/ tr = [EReclaim; EGrant (u "b")]) /\
    lease_of s' = Some (lease_info (u "/w/f") (wants (u "b") 100) (at_time 200)).
Proof.
  apply (expired_lock_is_reclaimed (u "/w/f") id 1 (wants (u "b") 100) (at_time 200) (at_time 0) (state_after id orphaned init)).
  - vm_compute. reflexivity.
  - vm_compute. reflexivity.
  - vm_compute. reflexivity.
  - right. exists 0%nat, (lease_info (u "/w/f") (wants (u "a") 100) (at_time 0)).
    split; [vm_compute; reflexivity|]. split; [vm_compute; congruence|]. split; vm_compute; reflexivity.
Defined.

(** Process 0 dies right after it created the file. *)
Definition torn_state : sys := state_after id ([LCall 0 (CAcquire (wants (u "a") 100))] ++ steps_at 0 2 0 ++ [LCrash 0]) init.

Lemma torn_record_is_permanent_witness :
  torn (state_after id ([LCall 1 (CAcquire (wants (u "b") 100))] ++ steps_at 1 7 1000) torn_state) /\ [] = ([] : list event).
Proof.
  apply (torn_record_is_permanent (u "/w/f") id ([LCall 1 (CAcquire (wants (u "b") 100))] ++ steps_at 1 7 1000) torn_state).
  - split; [by exists 0%nat|]. intros t. destruct t as [|[|t]]; reflexivity.
  - vm_compute. reflexivity.
Defined.
