(* ===== verification/Patch.v ===== *)
(** * Applying unified diffs (kinetic_sdk/files/patch.py)

    The parser of unified diffs, the application of hunks to the lines of a file,
    and the tool that dry-runs a multi-file patch in memory before it writes. The
    workspace and the lock registry are an interface: any operations on any world. *)

From stdpp Require Import base gmap strings list.
From Stdlib Require Import ZArith Lia.
From Stdlib Require DecimalNat.
From S2P Require Import Prelude Json PyText Types.

Record Hunk := {
  old_start : Z;
  old_count : Z;
  new_start : Z;
  new_count : Z;
  h_lines : list pystr;
}.

Record FilePatch := { fp_path : pystr; hunks : list Hunk }.

Definition patch_error (msg : pystr) : pyexn := PyExn (u "PatchApplyError") msg.

(** ** Hunk headers

    The match of [_HUNK_HEADER]. [\d] and [int] also take the decimal digits of
    other scripts, which Python's Unicode tables give: [other_digit]. *)

Class UnicodeDigits := { other_digit : N -> option Z }.

Section Headers.
Context `{UnicodeDigits}.

Definition digit (c : N) : option Z :=
  if ((48 <=? c) && (c <=? 57))%N then Some (Z.of_N c - 48)%Z
  else if (c <? 128)%N then None else other_digit c.

(** A maximal run of digits: its value, if there is one, and the rest. *)
Fixpoint digits_from (acc : Z) (s : pystr) : Z * pystr :=
  match s with
  | c :: s' => match digit c with Some d => digits_from (10 * acc + d) s' | None => (acc, s) end
  | [] => (acc, s)
  end.

Definition number (s : pystr) : option (Z * pystr) :=
  match s with
  | c :: s' => match digit c with Some d => Some (digits_from d s') | None => None end
  | [] => None
  end.

Definition skip_prefix (p s : pystr) : option pystr :=
  if starts_with p s then Some (drop (length p) s) else None.

(** The optional [,count]. *)
Definition optional_count (s : pystr) : option Z * pystr :=
  match skip_prefix (u ",") s with
  | Some s' => match number s' with Some (n, s'') => (Some n, s'') | None => (None, s) end
  | None => (None, s)
  end.

(** [(old_start, old_count, new_start, new_count)]. *)
Definition hunk_header (s : pystr) : option (Z * option Z * Z * option Z) :=
  s1 ← skip_prefix (u "@@ -") s; '(a, s2) ← number s1;
  let '(b, s3) := optional_count s2 in
  s4 ← skip_prefix (u " +") s3; '(c, s5) ← number s4;
  let '(d, s6) := optional_count s5 in
  s7 ← skip_prefix (u " @@") s6; Some (a, b, c, d).

(** ** Parsing *)

Definition parse_path (header prefix : pystr) : result pystr :=
  let value := strip (default [] (head (split_on 9 (drop (length prefix) header)))) in
  let value := if starts_with (u "a/") value || starts_with (u "b/") value then drop 2 value else value in
  if bool_decide (value = []) || bool_decide (value = u "/dev/null")
  then Err (patch_error (u "patches must modify existing workspace files"))
  else Ok value.

Definition no_newline_marker : pystr := u "\ No newline at end of file".

(** [hunk_lines[-1] = hunk_lines[-1].rstrip(...)]. *)
Fixpoint strip_last (l : list pystr) : list pystr :=
  match l with
  | [] => []
  | [x] => [rstrip_with is_crlf x]
  | x :: l' => x :: strip_last l'
  end.

Definition is_old (l : pystr) : bool := match l with c :: _ => (c =? 32)%N || (c =? 45)%N | [] => false end.
Definition is_new (l : pystr) : bool := match l with c :: _ => (c =? 32)%N || (c =? 43)%N | [] => false end.

(** The lines of a hunk: what was read, how many old and new lines it has, and
    the lines left. *)
Fixpoint hunk_body (lines hl : list pystr) (old_seen new_seen : Z) : result (list pystr * Z * Z * list pystr) :=
  match lines with
  | [] => Ok (hl, old_seen, new_seen, [])
  | line :: rest =>
    if starts_with (u "--- ") line || starts_with (u "diff --git ") line then Ok (hl, old_seen, new_seen, lines)
    else if starts_with no_newline_marker line then
      match hl with
      | [] => Err (patch_error (u "newline marker has no preceding hunk line"))
      | _ => hunk_body rest (strip_last hl) old_seen new_seen
      end
    else if is_old line || is_new line then
      hunk_body rest (hl ++ [line]) (old_seen + if is_old line then 1 else 0) (new_seen + if is_new line then 1 else 0)
    else Ok (hl, old_seen, new_seen, lines)
  end.

(** The hunks of one file. [total] is the number of lines of the patch, for the
    line numbers in messages. *)
Fixpoint parse_hunks (fuel : nat) (total : Z) (lines : list pystr) (acc : list Hunk)
    : option (result (list Hunk * list pystr)) :=
  match fuel with
  | O => None
  | S fuel =>
    match lines with
    | [] => Some (Ok (acc, []))
    | line :: rest =>
      if starts_with (u "--- ") line then Some (Ok (acc, lines))
      else match hunk_header (rstrip_with is_crlf line) with
      | None =>
        if starts_with (u "diff --git ") line || starts_with (u "index ") line then Some (Ok (acc, lines))
        else Some (Err (patch_error (u "expected @@ hunk header at line " ++ dec (total - zlen lines + 1))))
      | Some (os, oc, ns, nc) =>
        match hunk_body rest [] 0 0 with
        | Err e => Some (Err e)
        | Ok (hl, old_seen, new_seen, rest') =>
          let oc := default 1%Z oc in
          let nc := default 1%Z nc in
          if (old_seen =? oc)%Z && (new_seen =? nc)%Z
          then parse_hunks fuel total rest'
                 (acc ++ [{| old_start := os; old_count := oc; new_start := ns; new_count := nc; h_lines := hl |}])
          else Some (Err (patch_error (u "hunk line counts do not match its header")))
        end
      end
    end
  end.

Definition is_preamble (line : pystr) : bool :=
  existsb (fun p => starts_with p line)
    [u "diff --git "; u "index "; u "new file mode "; u "deleted file mode "].

Fixpoint parse_files (fuel : nat) (total : Z) (lines : list pystr) (acc : list FilePatch)
    : option (result (list FilePatch)) :=
  match fuel with
  | O => None
  | S fuel =>
    match lines with
    | [] => Some (Ok acc)
    | line :: rest =>
      if is_preamble line then parse_files fuel total rest acc
      else if negb (starts_with (u "--- ") line)
      then Some (Err (patch_error (u "expected --- file header at line " ++ dec (total - zlen lines + 1))))
      else match parse_path line (u "--- ") with
      | Err e => Some (Err e)
      | Ok old_path =>
        match rest with
        | line2 :: rest2 =>
          if negb (starts_with (u "+++ ") line2) then Some (Err (patch_error (u "missing +++ file header")))
          else match parse_path line2 (u "+++ ") with
          | Err e => Some (Err e)
          | Ok new_path =>
            if negb (bool_decide (old_path = new_path)) then Some (Err (patch_error (u "renames are not supported")))
            else match parse_hunks fuel total rest2 [] with
            | None => None
            | Some (Err e) => Some (Err e)
            | Some (Ok ([], _)) => Some (Err (patch_error (u "no hunks for " ++ new_path)))
            | Some (Ok (hs, rest3)) => parse_files fuel total rest3 (acc ++ [{| fp_path := new_path; hunks := hs |}])
            end
          end
        | [] => Some (Err (patch_error (u "missing +++ file header")))
        end
      end
    end
  end.

Definition parse_patch (patch : pystr) : option (result (list FilePatch)) :=
  match strip patch with
  | [] => Some (Err (patch_error (u "no patch content")))
  | _ => let lines := splitlines_keep patch in parse_files (S (length lines)) (zlen lines) lines []
  end.
End Headers.

(** ** Applying hunks *)

Definition file_newline (newline line : pystr) : pystr :=
  rstrip_with is_crlf line
  ++ if ends_with [10%N] line || ends_with [13%N] line then newline else [].

Definition expected_lines (newline : pystr) (h : Hunk) : list pystr :=
  map (fun l => file_newline newline (tail l)) (filter (fun l => is_old l = true) (h_lines h)).
Definition replacement_lines (newline : pystr) (h : Hunk) : list pystr :=
  map (fun l => file_newline newline (tail l)) (filter (fun l => is_new l = true) (h_lines h)).

(** [lines[start:start+n]] for [0 <= start]. *)
Definition window_at (start n : Z) (lines : list pystr) : list pystr := ztake n (zdrop start lines).

(** [range(lower, upper + 1)]. *)
Definition zrange (lower upper : Z) : list Z := map (fun k => (lower + Z.of_nat k)%Z) (seq 0 (Z.to_nat (upper + 1 - lower))).

Definition splice (start n : Z) (new lines : list pystr) : list pystr :=
  ztake start lines ++ new ++ zdrop (start + n) lines.

Definition candidates (start : Z) (expected lines : list pystr) : list Z :=
  filter (fun c => window_at c (zlen expected) lines = expected)
    (zrange (Z.max 0 (start - 20)) (Z.min (zlen lines - zlen expected) (start + 20))).

Definition old_index (h : Hunk) : Z := if (old_count h =? 0)%Z then old_start h else (old_start h - 1)%Z.

(** One hunk, given the lines so far and the offset of the earlier hunks. *)
Definition apply_hunk (newline : pystr) (h : Hunk) (st : list pystr * Z) : result (list pystr * Z) :=
  let '(lines, offset) := st in
  let start := (old_index h + offset)%Z in
  if (start <? 0)%Z || (zlen lines <? start)%Z then Err (patch_error (u "hunk position is outside the file"))
  else
    let expected := expected_lines newline h in
    let replacement := replacement_lines newline h in
    let finish start := Ok (splice start (zlen expected) replacement lines,
                            (start - old_index h + zlen replacement - zlen expected)%Z) in
    if decide (window_at start (zlen expected) lines = expected) then finish start
    else match candidates start expected lines with
         | [c] => finish c
         | [] => Err (patch_error (u "hunk context does not match the file within 20 lines"))
         | _ => Err (patch_error (u "hunk context matches multiple nearby locations"))
         end.

Fixpoint apply_hunks (newline : pystr) (hs : list Hunk) (st : list pystr * Z) : result (list pystr * Z) :=
  match hs with
  | [] => Ok st
  | h :: hs' => st' <-! apply_hunk newline h st ;; apply_hunks newline hs' st'
  end.

Definition file_newline_of (original : pystr) : pystr :=
  if contains [13%N; 10%N] original then [13%N; 10%N] else [10%N].

Definition _apply_file_patch (original : pystr) (fp : FilePatch) : result pystr :=
  r <-! apply_hunks (file_newline_of original) (hunks fp) (splitlines_keep original, 0%Z) ;; Ok (concat r.1).

(** ** The tool *)

(** The workspace, and the lock registry with the tool's owner id and timeout. *)
Class Workspace (W : Type) := {
  ws_resolve : pystr -> W -> result unit;
  ws_read : pystr -> W -> result pystr;
  ws_write : pystr -> pystr -> W -> result unit * W;
  lk_acquire : pystr -> pystr -> W -> result unit * W;
  lk_release : pystr -> pystr -> W -> result unit * W;
}.

Section Tool.
Context `{UnicodeDigits} {W : Type} `{Workspace W}.
(** [isinstance(exc, cls)]. *)
Variable isinstance : pyexn -> pystr -> bool.
(** Whether a registry is configured, and the owner bound to the tool. *)
Variables (locked : bool) (owner : option pystr).

Definition not_bound : pyexn :=
  value_error (u "ApplyPatchTool with lock_registry is not bound to an agent; set an owner before applying patches").

(** [with self._lock_registry.acquire(...): operation()]. *)
Definition _write_locked (path content : pystr) (w : W) : result unit * W :=
  if negb locked then ws_write path content w
  else match owner with
  | None => (Err not_bound, w)
  | Some o =>
    match lk_acquire path o w with
    | (Err e, w1) => (Err e, w1)
    | (Ok _, w1) =>
      let '(r, w2) := ws_write path content w1 in
      match lk_release path o w2 with
      | (Err e, w3) => (Err e, w3)
      | (Ok _, w3) => (r, w3)
      end
    end
  end.

Definition aborted (path why : pystr) : pystr := u "apply_patch aborted: " ++ path ++ why.

(** The text a file patch starts from: what an earlier patch of the same path
    made, or the file, which is then remembered. *)
Definition current_text (fp : FilePatch) (originals resolved : list (pystr * pystr)) (w : W)
    : result (pystr * list (pystr * pystr)) :=
  _ <-! ws_resolve (fp_path fp) w ;;
  match dict_get (fp_path fp) resolved with
  | Some text => Ok (text, originals)
  | None => text <-! ws_read (fp_path fp) w ;; Ok (text, dict_set (fp_path fp) text originals)
  end.

(** The dry run: the previous and the new text of every path, an error message,
    or an exception. *)
Fixpoint dry_run (fps : list FilePatch) (originals resolved : list (pystr * pystr)) (w : W)
    : result (pystr + list (pystr * pystr) * list (pystr * pystr)) :=
  match fps with
  | [] => Ok (inr (originals, resolved))
  | fp :: fps' =>
    match current_text fp originals resolved w with
    | Err e =>
      if isinstance e (u "FileNotFoundError") then Ok (inl (aborted (fp_path fp) (u " does not exist")))
      else if existsb (isinstance e) [u "ValueError"; u "WorkspaceError"; u "OSError"]
      then Ok (inl (aborted (fp_path fp) (u ": " ++ exn_msg e)))
      else Err e
    | Ok (text, originals') =>
      match _apply_file_patch text fp with
      | Err e => Ok (inl (aborted (fp_path fp) (u ": " ++ exn_msg e)))
      | Ok text' => dry_run fps' originals' (dict_set (fp_path fp) text' resolved) w
      end
    end
  end.

(** The writes, in order, until one raises: the paths written. *)
Fixpoint write_all (todo : list (pystr * pystr)) (written : list pystr) (w : W) : (list pystr * option pyexn) * W :=
  match todo with
  | [] => ((written, None), w)
  | (path, content) :: todo' =>
    match _write_locked path content w with
    | (Ok _, w') => write_all todo' (written ++ [path]) w'
    | (Err e, w') => ((written, Some e), w')
    end
  end.

(** The rollback of [paths], in this order; the messages of the writes that failed. *)
Fixpoint rollback (paths : list pystr) (originals : list (pystr * pystr)) (w : W) : list pystr * W :=
  match paths with
  | [] => ([], w)
  | path :: paths' =>
    match _write_locked path (default [] (dict_get path originals)) w with
    | (Ok _, w') => rollback paths' originals w'
    | (Err e, w') => let '(errs, w'') := rollback paths' originals w' in ((path ++ u ": " ++ exn_msg e) :: errs, w'')
    end
  end.

Definition rolled_back (e : pyexn) (errs : list pystr) : pystr :=
  u "apply_patch failed mid-write, rolled back: " ++ exn_msg e
  ++ match errs with [] => [] | _ => u " (rollback errors: " ++ join (u "; ") errs ++ u ")" end.

(** [execute]: the result, the undo texts kept by the tool and the world. [None]:
    the parser's measure ran out, which it does not. *)
Definition execute (patch : pystr) (undo : list (pystr * pystr)) (w : W)
    : option (result ToolResult * list (pystr * pystr) * W) :=
  match parse_patch patch with
  | None => None
  | Some (Err e) => Some (Ok (error_result (u "patch is empty or malformed: " ++ exn_msg e)), undo, w)
  | Some (Ok []) => Some (Ok (error_result (u "patch is empty or malformed")), undo, w)
  | Some (Ok fps) =>
    match dry_run fps [] [] w with
    | Err e => Some (Err e, undo, w)
    | Ok (inl msg) => Some (Ok (error_result msg), undo, w)
    | Ok (inr (originals, resolved)) =>
      match write_all resolved [] w with
      | ((written, Some e), w1) =>
        let '(errs, w2) := rollback (rev written) originals w1 in
        Some (Ok (error_result (rolled_back e errs)), undo, w2)
      | ((written, None), w1) =>
        Some (Ok {| output := JStr (u "applied patch to " ++ dec (zlen written) ++ u " file(s)"); error := None;
                    tr_metadata := [(u "files", JList (map JStr written))]; failure_category := None;
                    duration_seconds := None; artifacts := [] |},
              foldl (fun d kv => dict_set kv.1 kv.2 d) undo originals, w1)
      end
    end
  end.
End Tool.

(** ** Lemmas: the parser's measure *)

Section ParseFacts.
Context `{UnicodeDigits}.

Lemma hunk_body_rest lines hl o n r : hunk_body lines hl o n = Ok r -> (length r.2 <= length lines)%nat.
Proof.
  revert hl o n; induction lines as [|l ls IH]; intros hl o n; cbn [hunk_body length]; [by intros [= <-]|].
  destruct (starts_with (u "--- ") l || starts_with (u "diff --git ") l); [by intros [= <-]|].
  destruct (starts_with no_newline_marker l).
  - destruct hl; [done|]. intros Hr. apply IH in Hr. lia.
  - destruct (is_old l || is_new l); [intros Hr; apply IH in Hr; lia|by intros [= <-]].
Qed.

Lemma parse_hunks_total fuel total lines acc : (length lines < fuel)%nat ->
  exists r, parse_hunks fuel total lines acc = Some r /\ forall x, r = Ok x -> (length x.2 <= length lines)%nat.
Proof.
  revert lines acc; induction fuel as [|fuel IH]; intros lines acc Hf; [lia|]. destruct lines as [|l ls]; cbn [parse_hunks length] in *.
  { eexists. split; [done|]. by intros x [= <-]. }
  destruct (starts_with (u "--- ") l); [eexists; split; [done|]; by intros x [= <-]|].
  destruct (hunk_header _) as [[[[os oc] ns] nc]|].
  - destruct (hunk_body ls [] 0 0) as [[[[hl o] n] rest]|e] eqn:E; [|by eexists].
    apply hunk_body_rest in E. simpl in E. case_goal; [|by eexists].
    edestruct IH as (r & Hr & Hx); [|eexists; split; [exact Hr|]]; [lia|]. intros x Hx'. apply Hx in Hx'. lia.
  - case_goal; [|by eexists]. eexists. split; [done|]. by intros x [= <-].
Qed.

Lemma parse_files_total fuel total lines acc : (length lines < fuel)%nat -> is_Some (parse_files fuel total lines acc).
Proof.
  revert lines acc; induction fuel as [|fuel IH]; intros lines acc Hf; [lia|]. destruct lines as [|l ls]; cbn [parse_files length] in *; [done|].
  destruct (is_preamble l); [apply IH; lia|]. destruct (negb _); [done|]. destruct (parse_path _ _); [|done].
  destruct ls as [|l2 ls2]; [done|]. destruct (negb _); [done|]. destruct (parse_path _ _); [|done].
  destruct (negb _); [done|]. simpl in *.
  destruct (parse_hunks_total fuel total ls2 []) as (r & Hr & Hx); [lia|]. rewrite Hr.
  destruct r as [[[|h hs] rest]|]; try done. specialize (Hx _ eq_refl). simpl in Hx. apply IH. lia.
Qed.

Lemma parse_patch_total patch : is_Some (parse_patch patch).
Proof. unfold parse_patch. destruct (strip patch); [done|]. apply parse_files_total. lia. Qed.
End ParseFacts.

(** ** Edit scripts

    The reference for application: what a list of edits makes of the lines of a
    file, and the hunks that a diff program writes for them. *)

Inductive tag := Context | Removed | Added.

#[export] Instance tag_eq_dec : EqDecision tag.
Proof. solve_decision. Defined.

Definition tag_char (t : tag) : N := match t with Context => 32 | Removed => 45 | Added => 43 end.

(** Unchanged lines, then the lines of a hunk. *)
Record Edit := { e_skip : list pystr; e_body : list (tag * pystr) }.

Definition old_side (b : list (tag * pystr)) : list pystr :=
  map snd (filter (fun x => x.1 <> Added) b).
Definition new_side (b : list (tag * pystr)) : list pystr :=
  map snd (filter (fun x => x.1 <> Removed) b).

Definition edit_source (e : Edit) : list pystr := e_skip e ++ old_side (e_body e).
Definition edit_target (e : Edit) : list pystr := e_skip e ++ new_side (e_body e).

(** The file before and after the script; [rest] are its last unchanged lines. *)
Definition source (es : list Edit) (rest : list pystr) : list pystr := concat (map edit_source es) ++ rest.
Definition target (es : list Edit) (rest : list pystr) : list pystr := concat (map edit_target es) ++ rest.

(** The hunk of an edit after [p] old lines and [q] new lines; a hunk without old
    (or new) lines names the line before it. *)
Definition edit_hunk (p q : Z) (e : Edit) : Hunk :=
  let oc := zlen (old_side (e_body e)) in
  let nc := zlen (new_side (e_body e)) in
  let at_ x c := if (c =? 0)%Z then x else (x + 1)%Z in
  {| old_start := at_ (p + zlen (e_skip e))%Z oc; old_count := oc;
     new_start := at_ (q + zlen (e_skip e))%Z nc; new_count := nc;
     h_lines := map (fun x => tag_char x.1 :: x.2) (e_body e) |}.

Fixpoint script_hunks (p q : Z) (es : list Edit) : list Hunk :=
  match es with
  | [] => []
  | e :: es' => edit_hunk p q e :: script_hunks (p + zlen (edit_source e)) (q + zlen (edit_target e)) es'
  end.

(** A line of text with its line feed. *)
Definition text_line (l : pystr) : Prop :=
  exists body, l = body ++ [10%N] /\ Forall (fun c => is_line_break c = false) body.

Lemma splitlines_text ls : Forall text_line ls -> splitlines_keep (concat ls) = ls.
Proof.
  unfold splitlines_keep. induction 1 as [|l ls (body & -> & Hb) _ IH]; simpl; [done|].
  rewrite <- app_assoc. simpl. rewrite splitlines_body by done. by rewrite IH.
Qed.

Lemma drop_while_all p (l : pystr) : Forall (fun c => p c = false) l -> drop_while p l = l.
Proof. by destruct 1 as [|c l Hc _]; simpl; rewrite ?Hc. Qed.

Lemma text_line_newline l : text_line l -> file_newline [10%N] l = l.
Proof.
  intros (body & -> & Hb). unfold file_newline, rstrip_with, ends_with. rewrite rev_app_distr. simpl.
  rewrite drop_while_all, rev_involutive; [done|]. apply Forall_rev. eapply Forall_impl; [exact Hb|].
  intros c Hc. unfold is_line_break in Hc. unfold is_crlf. bool_hyps. destruct (N.eqb_spec c 10), (N.eqb_spec c 13); subst; done.
Qed.

Definition edit_text (e : Edit) : Prop := Forall text_line (e_skip e) /\ Forall (fun x => text_line x.2) (e_body e).

Lemma expected_edit p q e : edit_text e -> expected_lines [10%N] (edit_hunk p q e) = old_side (e_body e).
Proof.
  intros [_ Hb]. unfold expected_lines, old_side, edit_hunk. simpl.
  induction Hb as [|[t l] b Hl _ IH]; simpl; [done|].
  destruct t; rewrite ?filter_cons_True, ?filter_cons_False by done; simpl; rewrite ?IH, ?text_line_newline; done.
Qed.

Lemma replacement_edit p q e : edit_text e -> replacement_lines [10%N] (edit_hunk p q e) = new_side (e_body e).
Proof.
  intros [_ Hb]. unfold replacement_lines, new_side, edit_hunk. simpl.
  induction Hb as [|[t l] b Hl _ IH]; simpl; [done|].
  destruct t; rewrite ?filter_cons_True, ?filter_cons_False by done; simpl; rewrite ?IH, ?text_line_newline; done.
Qed.

Lemma old_index_edit p q e : old_index (edit_hunk p q e) = (p + zlen (e_skip e))%Z.
Proof. unfold old_index, edit_hunk. simpl. destruct (Z.eqb_spec (zlen (old_side (e_body e))) 0); lia. Qed.

Lemma zdrop_app_len {A} (a b : list A) : zdrop (zlen a) (a ++ b) = b.
Proof. unfold zdrop, zlen. rewrite Nat2Z.id. apply drop_app_length. Qed.

Lemma ztake_app_len {A} (a b : list A) : ztake (zlen a) (a ++ b) = a.
Proof. unfold ztake, zlen. rewrite Nat2Z.id. apply take_app_length. Qed.

(** A hunk whose old lines are where it says applies there. *)
Lemma apply_hunk_exact p q e (done_lines rest : list pystr) : edit_text e ->
  apply_hunk [10%N] (edit_hunk p q e) (done_lines ++ edit_source e ++ rest, zlen done_lines - p)%Z =
  Ok ((done_lines ++ edit_target e) ++ rest, zlen (done_lines ++ edit_target e) - (p + zlen (edit_source e)))%Z.
Proof.
  intros He. unfold apply_hunk. rewrite old_index_edit, expected_edit, replacement_edit by done.
  set (a := done_lines ++ e_skip e). set (o := old_side (e_body e)). set (n := new_side (e_body e)).
  assert (done_lines ++ edit_source e ++ rest = a ++ o ++ rest) as -> by (unfold a, edit_source; by rewrite <- !app_assoc).
  replace (p + zlen (e_skip e) + (zlen done_lines - p))%Z with (zlen a) by (unfold a; rewrite zlen_app; lia).
  pose proof (zlen_nonneg a). pose proof (zlen_nonneg (o ++ rest)).
  destruct (Z.ltb_spec (zlen a) 0); [lia|]. destruct (Z.ltb_spec (zlen (a ++ o ++ rest)) (zlen a)) as [Hlt|].
  { rewrite zlen_app in Hlt. lia. }
  simpl. unfold window_at, splice. rewrite zdrop_app_len, !ztake_app_len, decide_True by done.
  assert (zdrop (zlen a + zlen o) (a ++ o ++ rest) = rest) as ->.
  { rewrite <- zlen_app, app_assoc. apply zdrop_app_len. }
  unfold edit_target, edit_source. fold n o. f_equal. f_equal.
  - unfold a. by rewrite <- !app_assoc.
  - unfold a. rewrite !zlen_app. lia.
Qed.

Lemma apply_script p q es (done_lines rest : list pystr) : Forall edit_text es ->
  exists off, apply_hunks [10%N] (script_hunks p q es) (done_lines ++ source es rest, zlen done_lines - p)%Z =
  Ok (done_lines ++ target es rest, off).
Proof.
  intros HF. revert p q done_lines; induction HF as [|e es He _ IH]; intros p q done_lines; [by eexists|].
  cbn [apply_hunks script_hunks]. unfold source, target in *. cbn [map concat]. rewrite <- !app_assoc.
  rewrite apply_hunk_exact by done. cbn [rbind].
  destruct (IH (p + zlen (edit_source e))%Z (q + zlen (edit_target e))%Z (done_lines ++ edit_target e)) as [off Hoff].
  rewrite Hoff. exists off. by rewrite <- app_assoc.
Qed.

Lemma old_side_text e : edit_text e -> Forall text_line (edit_source e).
Proof.
  intros [Hs Hb]. apply Forall_app. split; [done|]. unfold old_side. apply Forall_map.
  induction Hb as [|[t l] b Hl _ IH]; [constructor|].
  destruct t; rewrite ?filter_cons_True, ?filter_cons_False by done; try done; by constructor.
Qed.

Lemma source_text es rest : Forall edit_text es -> Forall text_line rest -> Forall text_line (source es rest).
Proof.
  intros HF Hr. apply Forall_app. split; [|done]. apply Forall_concat, Forall_map.
  eapply Forall_impl; [exact HF|]. apply old_side_text.
Qed.

Lemma text_no_cr ls : Forall text_line ls -> contains [13%N; 10%N] (concat ls) = false.
Proof.
  intros HF. destruct (contains _ _) eqn:E; [|done]. apply contains_spec in E as (l & r & E).
  assert (13%N ∈ concat ls) as Hin by (rewrite E; apply elem_of_app; right; apply list_elem_of_here). exfalso. clear E.
  induction HF as [|x ls (body & -> & Hb) _ IH]; simpl in Hin; [by apply not_elem_of_nil in Hin|].
  rewrite !elem_of_app, list_elem_of_singleton in Hin. destruct Hin as [[Hin | Hin] | Hin]; [|done|by apply IH].
  rewrite Forall_forall in Hb. by specialize (Hb _ Hin).
Qed.

(** ** Printing patches *)

Fixpoint uint_chars (d : Decimal.uint) : pystr :=
  match d with
  | Decimal.Nil => []
  | Decimal.D0 d => 48%N :: uint_chars d
  | Decimal.D1 d => 49%N :: uint_chars d
  | Decimal.D2 d => 50%N :: uint_chars d
  | Decimal.D3 d => 51%N :: uint_chars d
  | Decimal.D4 d => 52%N :: uint_chars d
  | Decimal.D5 d => 53%N :: uint_chars d
  | Decimal.D6 d => 54%N :: uint_chars d
  | Decimal.D7 d => 55%N :: uint_chars d
  | Decimal.D8 d => 56%N :: uint_chars d
  | Decimal.D9 d => 57%N :: uint_chars d
  end.

Definition num (z : Z) : pystr := uint_chars (Nat.to_uint (Z.to_nat z)).

Definition header_line (h : Hunk) : pystr :=
  u "@@ -" ++ num (old_start h) ++ u "," ++ num (old_count h) ++ u " +" ++ num (new_start h) ++ u ","
  ++ num (new_count h) ++ u " @@" ++ [10%N].

Definition hunk_lines (h : Hunk) : list pystr := header_line h :: h_lines h.

Definition file_lines (fp : FilePatch) : list pystr :=
  [u "--- a/" ++ fp_path fp ++ [10%N]; u "+++ b/" ++ fp_path fp ++ [10%N]] ++ concat (map hunk_lines (hunks fp)).

Definition print_patch (fps : list FilePatch) : pystr := concat (concat (map file_lines fps)).

(** A line of a hunk that is not taken for a file header. *)
Definition hunk_line_ok (l : pystr) : Prop :=
  (exists t body, l = tag_char t :: body /\ text_line body) /\ starts_with (u "--- ") l = false.

Definition hunk_ok (h : Hunk) : Prop :=
  (0 <= old_start h)%Z /\ (0 <= new_start h)%Z /\ Forall hunk_line_ok (h_lines h) /\
  old_count h = zlen (filter (fun l => is_old l = true) (h_lines h)) /\
  new_count h = zlen (filter (fun l => is_new l = true) (h_lines h)).

(** A path that a header carries unchanged. *)
Definition path_ok (p : pystr) : Prop :=
  p <> [] /\ p <> u "/dev/null" /\ 9%N ∉ p /\ Forall (fun c => is_line_break c = false) p /\
  rstrip_with is_space p = p.

Definition file_ok (fp : FilePatch) : Prop := path_ok (fp_path fp) /\ hunks fp <> [] /\ Forall hunk_ok (hunks fp).

Section PrintFacts.
Context `{UnicodeDigits}.

Definition no_digit (s : pystr) : Prop := match s with c :: _ => digit c = None | [] => True end.

Lemma digits_from_uint d acc s : no_digit s ->
  digits_from (Z.of_nat acc) (uint_chars d ++ s) = (Z.of_nat (Nat.of_uint_acc d acc), s).
Proof.
  intros Hs. revert acc; induction d as [|d IH|d IH|d IH|d IH|d IH|d IH|d IH|d IH|d IH|d IH]; intros acc; simpl.
  { destruct s as [|c s]; [done|]. simpl in *. by rewrite Hs. }
  all: rewrite Nat.tail_mul_spec, <- IH; f_equal; lia.
Qed.

Lemma uint_nonnil n : Nat.to_uint n <> Decimal.Nil.
Proof.
  intros E. pose proof (DecimalNat.Unsigned.to_of (Nat.to_uint n)) as H1. rewrite DecimalNat.Unsigned.of_to, E in H1. done.
Qed.

Lemma number_num z s : (0 <= z)%Z -> no_digit s -> number (num z ++ s) = Some (z, s).
Proof.
  intros Hz Hs. unfold num. pose proof (uint_nonnil (Z.to_nat z)) as Hn.
  pose proof (digits_from_uint (Nat.to_uint (Z.to_nat z)) 0 s Hs) as Hd.
  change (Nat.of_uint_acc ?d 0) with (Nat.of_uint d) in Hd. rewrite DecimalNat.Unsigned.of_to, Z2Nat.id in Hd by done.
  destruct (Nat.to_uint (Z.to_nat z)); [done|..]; exact (f_equal Some Hd).
Qed.

Lemma skip_prefix_app p s : skip_prefix p (p ++ s) = Some s.
Proof.
  unfold skip_prefix. assert (starts_with p (p ++ s) = true) as -> by (apply starts_with_prefix; by exists s).
  by rewrite drop_app_length.
Qed.

Lemma rstrip_newline x c : is_crlf c = false -> rstrip_with is_crlf ((x ++ [c]) ++ [10%N]) = x ++ [c].
Proof.
  intros Hc. unfold rstrip_with. rewrite !rev_app_distr. simpl. rewrite Hc. simpl. by rewrite rev_involutive.
Qed.

Lemma hunk_header_line h (Hh : hunk_ok h) :
  hunk_header (rstrip_with is_crlf (header_line h)) =
  Some (old_start h, Some (old_count h), new_start h, Some (new_count h)).
Proof.
  destruct Hh as (Hos & Hns & _ & Hoc & Hnc).
  assert (0 <= old_count h)%Z by (rewrite Hoc; apply zlen_nonneg).
  assert (0 <= new_count h)%Z by (rewrite Hnc; apply zlen_nonneg).
  assert (rstrip_with is_crlf (header_line h) =
    u "@@ -" ++ num (old_start h) ++ u "," ++ num (old_count h) ++ u " +" ++ num (new_start h) ++ u ","
    ++ num (new_count h) ++ u " @@" ++ []) as ->.
  { unfold header_line. rewrite app_nil_r. change (u " @@") with ([32%N; 64%N] ++ [64%N]).
    rewrite !app_assoc. by apply rstrip_newline. }
  unfold hunk_header, optional_count.
  repeat (first [rewrite skip_prefix_app | rewrite number_num by done]; cbn [mbind option_bind]). done.
Qed.

(** The lines after a hunk: the end, a hunk header or a file header. *)
Definition stops (rest : list pystr) : Prop :=
  match rest with
  | [] => True
  | l :: _ => starts_with (u "--- ") l = true \/ exists c s, l = c :: s /\ c = 64%N
  end.

Lemma tag_chars t body : let l := tag_char t :: body in
  starts_with (u "diff --git ") l = false /\ starts_with no_newline_marker l = false /\
  is_old l || is_new l = true.
Proof. by destruct t. Qed.

Lemma zlen_filter_cons P `{forall x : pystr, Decision (P x)} l ls :
  zlen (filter P (l :: ls)) = ((if decide (P l) then 1 else 0) + zlen (filter P ls))%Z.
Proof. rewrite filter_cons. case_decide; [rewrite zlen_cons|]; lia. Qed.

Lemma hunk_body_stop rest hl o n : stops rest -> hunk_body rest hl o n = Ok (hl, o, n, rest).
Proof.
  destruct rest as [|l rest]; [done|]. cbn [hunk_body stops]. intros [Hl|(c & s & -> & ->)]; [by rewrite Hl|done].
Qed.

Lemma hunk_body_lines ls rest hl o n : Forall hunk_line_ok ls -> stops rest ->
  hunk_body (ls ++ rest) hl o n =
  Ok (hl ++ ls, o + zlen (filter (fun l => is_old l = true) ls), n + zlen (filter (fun l => is_new l = true) ls), rest)%Z.
Proof.
  intros HF Hr. revert hl o n; induction HF as [|l ls [(t & body & -> & Hb) Hh] _ IH]; intros hl o n.
  { rewrite hunk_body_stop by done. rewrite app_nil_r. unfold zlen. simpl. by rewrite !Z.add_0_r. }
  destruct (tag_chars t body) as (H1 & H2 & H3). cbn [app hunk_body]. rewrite Hh, H1, H2, H3. simpl orb. cbv iota.
  rewrite IH, !zlen_filter_cons, <- app_assoc, !Z.add_assoc.
  by destruct (is_old (tag_char t :: body)), (is_new (tag_char t :: body)).
Qed.

Definition ends_file (rest : list pystr) : Prop :=
  match rest with [] => True | l :: _ => starts_with (u "--- ") l = true end.

Lemma ends_file_stops rest : ends_file rest -> stops rest.
Proof. destruct rest; [done|]. by left. Qed.

Lemma header_line_at h : exists s, header_line h = 64%N :: s.
Proof. unfold header_line. by eexists. Qed.

Lemma hunks_stop hs rest : ends_file rest -> stops (concat (map hunk_lines hs) ++ rest).
Proof.
  destruct hs as [|h hs]; [apply ends_file_stops|]. intros _. simpl. right.
  destruct (header_line_at h) as [s Hs]. by exists 64%N, s.
Qed.

Lemma parse_hunks_print fuel total hs rest acc : Forall hunk_ok hs -> ends_file rest ->
  (length (concat (map hunk_lines hs) ++ rest) < fuel)%nat ->
  parse_hunks fuel total (concat (map hunk_lines hs) ++ rest) acc = Some (Ok (acc ++ hs, rest)).
Proof.
  intros HF Hr. revert fuel acc; induction HF as [|h hs Hh HF IH]; intros [|fuel] acc Hf; try (simpl in Hf; lia).
  { rewrite app_nil_r. simpl. destruct rest as [|l rest]; [done|]. simpl in Hr. by rewrite Hr. }
  cbn [map concat] in *. unfold hunk_lines at 1. unfold hunk_lines at 1 in Hf. rewrite <- app_assoc in *. cbn [app parse_hunks] in *.
  destruct (header_line_at h) as [s Hs].
  assert (starts_with (u "--- ") (header_line h) = false) as -> by (by rewrite Hs).
  rewrite hunk_header_line by done. pose proof Hh as (_ & _ & Hl & Hoc & Hnc).
  rewrite hunk_body_lines by (done || by apply hunks_stop). rewrite <- Hoc, <- Hnc. simpl default.
  rewrite !Z.eqb_refl. cbn [andb app]. rewrite IH; [by rewrite <- app_assoc; destruct h|].
  simpl in Hf. rewrite length_app in Hf. lia.
Qed.

Lemma split_on_none c s : c ∉ s -> split_on c s = [s].
Proof.
  induction s as [|x s IH]; simpl; [done|]. intros [Hx Hs]%not_elem_of_cons. rewrite IH by done.
  destruct (N.eqb_spec x c); congruence.
Qed.

Lemma drop_while_shorter f (x : pystr) : (length (drop_while f x) <= length x)%nat.
Proof. induction x as [|c x IH]; simpl; [done|]. destruct (f c); simpl; lia. Qed.

Lemma rstrip_last x c : rstrip_with is_space (x ++ [c]) = x ++ [c] -> is_space c = false.
Proof.
  unfold rstrip_with. rewrite rev_app_distr. simpl. destruct (is_space c); [|done].
  intros H1. apply (f_equal length) in H1. rewrite length_rev, length_app in H1. simpl in H1.
  pose proof (drop_while_shorter is_space (rev x)) as H2. rewrite length_rev in H2. lia.
Qed.

(** Stripping a header value whose ends are not white space. *)
Lemma strip_framed (front p : pystr) : p <> [] -> rstrip_with is_space p = p ->
  Forall (fun c => is_space c = false) front -> front <> [] -> strip (front ++ p ++ [10%N]) = front ++ p.
Proof.
  intros Hne Hrs Hf Hfn. destruct p as [|c p _] using rev_ind; [done|]. apply rstrip_last in Hrs.
  unfold strip, lstrip_with. destruct Hf as [|x front Hx Hf]; [done|]. simpl. rewrite Hx.
  unfold rstrip_with. rewrite <- (rev_involutive (x :: front ++ p ++ [c])). f_equal.
  simpl. rewrite !rev_app_distr. simpl. by rewrite Hrs.
Qed.

Lemma parse_header_path p letter prefix : path_ok p -> prefix = [letter; 47%N] -> (letter = 97%N \/ letter = 98%N) ->
  forall head4, length head4 = 4%nat -> parse_path (head4 ++ prefix ++ p ++ [10%N]) head4 = Ok p.
Proof.
  intros (Hne & Hnull & Htab & _ & Hrs) -> Hl head4 H4. unfold parse_path. rewrite drop_app_length.
  assert (9%N ∉ [letter; 47%N] ++ p ++ [10%N]) as Hnt.
  { rewrite !not_elem_of_app. split_and!; [|done|]; apply (bool_decide_unpack _); by destruct Hl as [-> | ->]. }
  rewrite split_on_none by done.
  pose proof (strip_framed [letter; 47%N] p Hne Hrs) as Hst.
  change (default [] (head [?x])) with x.
  rewrite Hst; [|by destruct Hl as [-> | ->]; repeat constructor|done]. cbv zeta.
  assert (starts_with (u "a/") ([letter; 47%N] ++ p) || starts_with (u "b/") ([letter; 47%N] ++ p) = true) as ->
    by (by destruct Hl as [-> | ->]; destruct p).
  simpl drop. by rewrite !bool_decide_eq_false_2.
Qed.

Lemma file_lines_end fps rest : ends_file rest -> ends_file (concat (map file_lines fps) ++ rest).
Proof. by destruct fps. Qed.

Lemma parse_files_print fuel total fps acc : Forall file_ok fps ->
  (length (concat (map file_lines fps)) < fuel)%nat ->
  parse_files fuel total (concat (map file_lines fps)) acc = Some (Ok (acc ++ fps)).
Proof.
  intros HF. revert fuel acc; induction HF as [|fp fps (Hp & Hne & Hh) HF IH]; intros [|fuel] acc Hf; try (simpl in Hf; lia).
  { by rewrite app_nil_r. }
  cbn [map concat] in *. unfold file_lines at 1. unfold file_lines at 1 in Hf. rewrite <- app_assoc in *. cbn [app parse_files length] in *.
  assert (is_preamble (u "--- a/" ++ fp_path fp ++ [10%N]) = false) as -> by done.
  assert (starts_with (u "--- ") (u "--- a/" ++ fp_path fp ++ [10%N]) = true) as -> by done.
  assert (starts_with (u "+++ ") (u "+++ b/" ++ fp_path fp ++ [10%N]) = true) as -> by done. cbn [negb].
  assert (parse_path (u "--- a/" ++ fp_path fp ++ [10%N]) (u "--- ") = Ok (fp_path fp)) as ->
    by exact (parse_header_path (fp_path fp) 97%N [97%N; 47%N] Hp eq_refl (or_introl eq_refl) (u "--- ") eq_refl).
  assert (parse_path (u "+++ b/" ++ fp_path fp ++ [10%N]) (u "+++ ") = Ok (fp_path fp)) as ->
    by exact (parse_header_path (fp_path fp) 98%N [98%N; 47%N] Hp eq_refl (or_intror eq_refl) (u "+++ ") eq_refl).
  rewrite bool_decide_eq_true_2 by done. cbn [negb].
  assert (ends_file (concat (map file_lines fps))) as He by (by destruct fps).
  rewrite parse_hunks_print by (done || lia). simpl app.
  destruct (hunks fp) as [|h hs] eqn:E; [done|]. rewrite IH.
  - rewrite <- app_assoc. do 3 f_equal. simpl. f_equal. destruct fp; simpl in *; congruence.
  - rewrite length_app in Hf. lia.
Qed.


Lemma num_chars z : Forall (fun c => is_line_break c = false) (num z).
Proof. unfold num. induction (Nat.to_uint (Z.to_nat z)); simpl; by constructor. Qed.

Lemma text_line_intro x : Forall (fun c => is_line_break c = false) x -> text_line (x ++ [10%N]).
Proof. by exists x. Qed.

Lemma hunk_text_lines h : hunk_ok h -> Forall text_line (hunk_lines h).
Proof.
  intros (_ & _ & Hl & _). constructor.
  - unfold header_line. change (u " @@" ++ [10%N]) with (u " @@" ++ [10%N]). rewrite !app_assoc. apply text_line_intro.
    repeat (apply Forall_app; split); try apply num_chars; by repeat constructor.
  - eapply Forall_impl; [exact Hl|]. intros l [(t & body & -> & x & -> & Hx) _].
    apply (text_line_intro (tag_char t :: x)). constructor; [by destruct t|done].
Qed.

Lemma file_text_lines fp : file_ok fp -> Forall text_line (file_lines fp).
Proof.
  intros ((_ & _ & _ & Hb & _) & _ & Hh). unfold file_lines. repeat apply Forall_cons_2.
  - rewrite app_assoc. apply text_line_intro, Forall_app. split; [by repeat constructor|done].
  - rewrite app_assoc. apply text_line_intro, Forall_app. split; [by repeat constructor|done].
  - apply Forall_concat, Forall_map. eapply Forall_impl; [exact Hh|]. apply hunk_text_lines.
Qed.

Lemma strip_nonempty c s : is_space c = false -> strip (c :: s) <> [].
Proof.
  intros Hc. unfold strip, lstrip_with. simpl. rewrite Hc. unfold rstrip_with. intros E.
  apply (f_equal (@rev N)) in E. rewrite rev_involutive in E. simpl in E.
  induction (rev s) as [|x l IH]; simpl in E; [by rewrite Hc in E|]. by destruct (is_space x); [apply IH|].
Qed.

Lemma parse_printed fps : fps <> [] -> Forall file_ok fps -> parse_patch (print_patch fps) = Some (Ok fps).
Proof.
  intros Hne HF. unfold parse_patch. destruct (strip (print_patch fps)) as [|c s] eqn:E.
  - destruct fps as [|fp fps]; [done|]. by apply strip_nonempty in E.
  - unfold print_patch. rewrite splitlines_text; [by rewrite parse_files_print by (done || lia)|].
    apply Forall_concat, Forall_map. eapply Forall_impl; [exact HF|]. apply file_text_lines.
Qed.

(** No removed line reads like a file header. *)
Definition plain_edit (e : Edit) : Prop :=
  edit_text e /\ Forall (fun x => x.1 = Removed -> starts_with (u "-- ") x.2 = false) (e_body e).

Lemma edit_hunk_ok p q e : (0 <= p)%Z -> (0 <= q)%Z -> plain_edit e -> hunk_ok (edit_hunk p q e).
Proof.
  intros Hp Hq [[Hs Hb] Hd]. pose proof (zlen_nonneg (e_skip e)). unfold hunk_ok, edit_hunk. simpl.
  assert (forall (P : tag -> bool) (f : pystr -> bool), (forall t l, f (tag_char t :: l) = P t) ->
    zlen (map snd (filter (fun x : tag * pystr => P x.1 = true) (e_body e))) =
    zlen (filter (fun l => f l = true) (map (fun x => tag_char x.1 :: x.2) (e_body e)))) as Hcount.
  { intros P f Hf. unfold zlen. f_equal. rewrite length_map. clear -Hf.
    induction (e_body e) as [|[t l] b IH]; simpl; [done|]. rewrite !filter_cons. simpl. rewrite Hf.
    destruct (P t); simpl; congruence. }
  split_and!.
  - case_match; lia.
  - case_match; lia.
  - apply Forall_map, Forall_forall. intros [t l] Hin. rewrite Forall_forall in Hb, Hd.
    specialize (Hb _ Hin). specialize (Hd _ Hin). split; [by exists t, l|].
    destruct t; [done| |done]. simpl in *. by apply Hd.
  - rewrite <- (Hcount (fun t => bool_decide (t <> Added)) is_old) by (by intros []).
    unfold old_side. do 2 f_equal. clear. induction (e_body e) as [|[t l] b IH]; [done|].
    rewrite !filter_cons. destruct t; simpl; congruence.
  - rewrite <- (Hcount (fun t => bool_decide (t <> Removed)) is_new) by (by intros []).
    unfold new_side. do 2 f_equal. clear. induction (e_body e) as [|[t l] b IH]; [done|].
    rewrite !filter_cons. destruct t; simpl; congruence.
Qed.

Lemma script_hunks_ok p q es : (0 <= p)%Z -> (0 <= q)%Z -> Forall plain_edit es -> Forall hunk_ok (script_hunks p q es).
Proof.
  intros Hp Hq HF. revert p q Hp Hq; induction HF as [|e es He _ IH]; intros p q Hp Hq; simpl; constructor.
  - by apply edit_hunk_ok.
  - pose proof (zlen_nonneg (edit_source e)). pose proof (zlen_nonneg (edit_target e)). apply IH; lia.
Qed.
End PrintFacts.

(** ** All or nothing *)

(** A workspace whose files are what was last written to them. [alias p q]: both
    paths resolve to one file. A write that raises changes nothing, locks are not
    files, and a lock that was acquired can be released. *)
Class LawfulWorkspace {W : Type} `{Workspace W} (alias : pystr -> pystr -> bool) := {
  alias_refl p : alias p p = true;
  alias_read p q w : alias p q = true -> ws_read p w = ws_read q w;
  read_written p q c w w' : ws_write p c w = (Ok tt, w') -> ws_read q w' = if alias q p then Ok c else ws_read q w;
  read_failed p q c w w' e : ws_write p c w = (Err e, w') -> ws_read q w' = ws_read q w;
  read_acquired p o q w : ws_read q (lk_acquire p o w).2 = ws_read q w;
  read_released p o q w : ws_read q (lk_release p o w).2 = ws_read q w;
  released p o w : (lk_release p o w).1 = Ok tt;
}.

Section Atomicity.
Context `{UnicodeDigits} {W : Type} `{Workspace W} (alias : pystr -> pystr -> bool) `{!LawfulWorkspace alias}.
Variable isinstance : pyexn -> pystr -> bool.
Variables (locked : bool) (owner : option pystr).

Lemma write_locked_reads p c w r w' : _write_locked locked owner p c w = (r, w') ->
  forall q, ws_read q w' = if is_ok r && alias q p then Ok c else ws_read q w.
Proof using LawfulWorkspace0.
  unfold _write_locked. intros Hw q. destruct (negb locked).
  - destruct r as [[]|e]; simpl; [by eapply read_written|by eapply read_failed].
  - destruct owner as [o|]; [|by simplify_eq].
    pose proof (read_acquired p o q w) as Ha. destruct (lk_acquire p o w) as [[[]|e] w1]; [|by simplify_eq]. simpl in Ha.
    destruct (ws_write p c w1) as [r1 w2] eqn:E. pose proof (released p o w2) as Hr. pose proof (read_released p o q w2) as Hrr.
    destruct (lk_release p o w2) as [r3 w3]. simpl in *. subst r3. injection Hw as <- <-. rewrite Hrr, <- Ha.
    destruct r1 as [[]|e]; simpl; [by eapply read_written|by eapply read_failed].
Qed.

(** The paths written by [write_all]. *)
Lemma write_all_spec todo done_paths w written oe w' : write_all locked owner todo done_paths w = ((written, oe), w') ->
  exists k, written = done_paths ++ map fst (take k todo) /\
    (oe = None -> take k todo = todo) /\
    (forall q, (forall p, p ∈ map fst (take k todo) -> alias q p = false) -> ws_read q w' = ws_read q w).
Proof using LawfulWorkspace0.
  revert done_paths w; induction todo as [|[p c] todo IH]; intros done_paths w; simpl.
  { intros [= <- <- <-]. exists 0%nat. rewrite app_nil_r. by split_and!. }
  destruct (_write_locked locked owner p c w) as [[[]|e] w1] eqn:E; pose proof (write_locked_reads _ _ _ _ _ E) as Hq.
  - intros Hr. apply IH in Hr as (k & -> & Hall & Hk). exists (S k). simpl. split; [by rewrite <- app_assoc|].
    split; [intros Hn; by rewrite Hall|]. intros q Hout. rewrite Hk.
    + rewrite Hq, Hout; [done|by apply list_elem_of_here].
    + intros p' Hp'. apply Hout. by apply list_elem_of_further.
  - intros [= <- <- <-]. exists 0%nat. rewrite app_nil_r. split; [done|]. split; [done|]. intros q _. by rewrite Hq.
Qed.

(** Writing back what was read restores the files. *)
Lemma rollback_restores paths originals w0 w errs w' : rollback locked owner paths originals w = (errs, w') -> errs = [] ->
  (forall p, p ∈ paths -> ws_read p w0 = Ok (default [] (dict_get p originals))) ->
  (forall q, (forall p, p ∈ paths -> alias q p = false) -> ws_read q w = ws_read q w0) ->
  forall q, ws_read q w' = ws_read q w0.
Proof using LawfulWorkspace0.
  revert w errs; induction paths as [|p paths IH]; intros w errs; simpl.
  { intros [= <- <-] _ _ Hq q. apply Hq. intros p Hp. by apply not_elem_of_nil in Hp. }
  destruct (_write_locked _ _ _ _ _) as [[[]|e] w1] eqn:E; pose proof (write_locked_reads _ _ _ _ _ E) as Hw.
  - intros Hr Hn Ho Hq. eapply IH; [exact Hr|done| |].
    + intros p' Hp'. apply Ho. by apply list_elem_of_further.
    + intros q Hout. rewrite Hw. simpl. destruct (alias q p) eqn:Ea.
      * rewrite (alias_read q p) by done. symmetry. apply Ho, list_elem_of_here.
      * apply Hq. intros p' [-> | Hp']%elem_of_cons; [done|by apply Hout].
  - destruct (rollback _ _ _ _ _) as [errs' w2]. by intros [= <- <-].
Qed.

(** What the dry run leaves: the texts read, and one result per path. *)
Definition read_all (originals resolved : list (pystr * pystr)) (w : W) : Prop :=
  (forall p t, dict_get p originals = Some t -> ws_read p w = Ok t) /\
  (forall p, is_Some (dict_get p resolved) -> is_Some (dict_get p originals)).

Lemma current_text_ok fp originals resolved w t originals' : read_all originals resolved w ->
  current_text fp originals resolved w = Ok (t, originals') ->
  read_all originals' resolved w /\ is_Some (dict_get (fp_path fp) originals') /\
  (dict_get (fp_path fp) resolved = None -> ws_read (fp_path fp) w = Ok t).
Proof.
  intros [Ho Hr]. unfold current_text. destruct (ws_resolve _ _); [|done]. cbn [rbind].
  destruct (dict_get (fp_path fp) resolved) as [t0|] eqn:E.
  - intros [= -> <-]. split; [done|]. split; [|done]. apply Hr. by rewrite E.
  - destruct (ws_read _ _) as [t0|] eqn:Ew; [|done]. intros [= -> <-]. split; [split|split; [|done]].
    + intros p t'. rewrite dict_get_set. case_decide; [by intros [= <-]; subst|apply Ho].
    + intros p Hp. rewrite dict_get_set. case_decide; [done|by apply Hr].
    + by rewrite dict_get_set, decide_True.
Qed.

Lemma dry_run_ok fps originals resolved w os rs : read_all originals resolved w ->
  dry_run isinstance fps originals resolved w = Ok (inr (os, rs)) -> read_all os rs w.
Proof.
  revert originals resolved; induction fps as [|fp fps IH]; intros originals resolved HR; simpl; [by intros [= <- <-]|].
  destruct (current_text fp originals resolved w) as [[t originals']|e] eqn:E; [|by repeat case_match].
  destruct (_apply_file_patch t fp) as [t'|]; [|done].
  apply current_text_ok in E as ([Ho Hr] & Hs & _); [|done]. apply IH. split; [done|].
  intros p. rewrite dict_get_set. case_decide as Hp; [by subst|apply Hr].
Qed.

(** A path that the patch names once gets the patched text of its file. *)
Lemma dry_run_texts fps originals resolved w os rs : read_all originals resolved w ->
  NoDup (map fp_path fps) -> (forall fp, fp ∈ fps -> dict_get (fp_path fp) resolved = None) ->
  dry_run isinstance fps originals resolved w = Ok (inr (os, rs)) ->
  (forall fp, fp ∈ fps -> exists t t', ws_read (fp_path fp) w = Ok t /\ _apply_file_patch t fp = Ok t' /\
     dict_get (fp_path fp) rs = Some t') /\
  (forall p, p ∉ map fp_path fps -> dict_get p rs = dict_get p resolved).
Proof.
  revert originals resolved; induction fps as [|fp fps IH]; intros originals resolved HR Hnd Hfresh; simpl.
  { intros [= <- <-]. split; [|done]. intros fp Hfp. by apply not_elem_of_nil in Hfp. }
  destruct (current_text fp originals resolved w) as [[t originals']|e] eqn:E; [|by repeat case_match].
  destruct (_apply_file_patch t fp) as [t'|] eqn:Ea; [|done]. simpl in Hnd. apply NoDup_cons in Hnd as [Hnin Hnd].
  apply current_text_ok in E as ([Ho Hr] & Hs & Ht); [|done].
  intros Hd. apply IH in Hd as [Hin Hout]; [| |done|].
  - split.
    + intros fp' [-> | Hfp]%elem_of_cons; [|by apply Hin]. exists t, t'.
      split; [apply Ht, Hfresh, list_elem_of_here|]. split; [done|]. rewrite Hout by done.
      by rewrite dict_get_set, decide_True.
    + intros p [Hp Hp']%not_elem_of_cons. rewrite Hout by done. by rewrite dict_get_set, decide_False.
  - split; [done|]. intros p. rewrite dict_get_set. case_decide as Hp; [by subst|apply Hr].
  - intros fp' Hfp. rewrite dict_get_set, decide_False; [by apply Hfresh, list_elem_of_further|].
    intros Heq. apply Hnin. rewrite <- Heq. by apply list_elem_of_fmap_2.
Qed.

(** The writes of distinct files. *)
Lemma write_all_reads todo done_paths w written w' : write_all locked owner todo done_paths w = ((written, None), w') ->
  (forall p q, p ∈ map fst todo -> q ∈ map fst todo -> alias p q = true -> p = q) -> NoDup (map fst todo) ->
  forall p c, (p, c) ∈ todo -> ws_read p w' = Ok c.
Proof using LawfulWorkspace0.
  revert done_paths w; induction todo as [|[p0 c0] todo IH]; intros done_paths w; simpl.
  { intros _ _ _ p c Hp. by apply not_elem_of_nil in Hp. }
  destruct (_write_locked locked owner p0 c0 w) as [[[]|e] w1] eqn:E; [|done]. intros Hr Hal [Hnin Hnd]%NoDup_cons p c.
  intros [[= -> ->] | Hin]%elem_of_cons.
  - pose proof (write_locked_reads _ _ _ _ _ E p0) as Hq. simpl in Hq. rewrite alias_refl in Hq.
    apply write_all_spec in Hr as (k & _ & Hall & Hk). rewrite Hk; [done|]. rewrite Hall by done.
    intros p' Hp'. destruct (alias p0 p') eqn:Ea; [|done]. apply Hal in Ea; [by subst| |].
    + apply list_elem_of_here.
    + by apply list_elem_of_further.
  - eapply IH; [exact Hr| |done|exact Hin]. intros p' q' Hp' Hq'. apply Hal; by apply list_elem_of_further.
Qed.

(** Every key of the dry run's result is a path of the patch, once. *)
Lemma dry_run_keys fps originals resolved w os rs :
  dry_run isinstance fps originals resolved w = Ok (inr (os, rs)) -> NoDup (map fst resolved) ->
  NoDup (map fst rs) /\ forall p, p ∈ map fst rs -> p ∈ map fst resolved \/ p ∈ map fp_path fps.
Proof.
  revert originals resolved; induction fps as [|fp fps IH]; intros originals resolved; simpl.
  { intros [= <- <-]. split; [done|]. intros p Hp. by left. }
  destruct (current_text fp originals resolved w) as [[t originals']|e]; [|by repeat case_match].
  destruct (_apply_file_patch t fp) as [t'|]; [|done]. intros Hd Hnd.
  apply IH in Hd as [Hn Hp]; [|by apply dict_set_nodup].
  split; [done|]. intros p [Hp' | Hp']%Hp; [apply dict_set_key in Hp' as [-> | Hp']|]; [right; apply list_elem_of_here|by left|].
  right. by apply list_elem_of_further.
Qed.
End Atomicity.

(** ** Theorems *)

(** a patch that was printed is parsed back as it was, whatever the number of
    files and hunks, when no line of it reads like a file header. *)
Theorem parse_inverts_print `{UnicodeDigits} fps : fps <> [] -> Forall file_ok fps ->
  parse_patch (print_patch fps) = Some (Ok fps).
Proof. apply parse_printed. Qed.



(** ** A workspace in memory *)

#[local] Instance ascii_digits : UnicodeDigits := {| other_digit _ := None |}.

Definition same_file (p : pystr) : pystr := if starts_with (u "./") p then drop 2 p else p.

Definition not_found : pyexn := PyExn (u "FileNotFoundError") [].

#[local] Instance disk : Workspace (list (pystr * pystr)) := {|
  ws_resolve _ _ := Ok tt;
  ws_read p w := match dict_get (same_file p) w with Some t => Ok t | None => Err not_found end;
  ws_write p c w := (Ok tt, dict_set (same_file p) c w);
  lk_acquire _ _ w := (Ok tt, w);
  lk_release _ _ w := (Ok tt, w);
|}.

#[local] Instance disk_lawful : LawfulWorkspace (fun p q => bool_decide (same_file p = same_file q)).
Proof.
  constructor; try done.
  - intros p. by apply bool_decide_eq_true_2.
  - intros p q w Hp. apply bool_decide_eq_true_1 in Hp. simpl. by rewrite Hp.
  - intros p q c w w'. intros [= <-]. simpl. rewrite dict_get_set. case_decide as Hp.
    + by rewrite bool_decide_eq_true_2.
    + by rewrite bool_decide_eq_false_2.
Defined.

Definition by_class (e : pyexn) (cls : pystr) : bool := bool_decide (exn_type e = cls).

Definition ln (s : pystr) : pystr := s ++ [10%N].

(** A patch that replaces line [k] of [p]. *)
Definition replace_line (p : pystr) (k : Z) (old new : pystr) : FilePatch := {| fp_path := p; hunks := [
  {| old_start := k; old_count := 1; new_start := k; new_count := 1;
     h_lines := [u "-" ++ ln old; u "+" ++ ln new] |}] |}.

Definition two_files : list (pystr * pystr) := [(u "a", ln (u "1") ++ ln (u "2")); (u "b", ln (u "1"))].

(** a patch that names one file by two paths is applied to the text on disk
    twice: the second write discards the first edit and the tool reports both. *)
Theorem aliased_paths_lose_an_edit :
  let patch := print_patch [replace_line (u "a") 1 (u "1") (u "x"); replace_line (u "./a") 2 (u "2") (u "y")] in
  exists r undo w', execute by_class false None patch [] two_files = Some (Ok r, undo, w') /\
    output r = JStr (u "applied patch to 2 file(s)") /\ ws_read (u "a") w' = Ok (ln (u "1") ++ ln (u "y")).
Proof. do 3 eexists. split; [vm_compute; reflexivity|]. split; vm_compute; reflexivity. Qed.

(** a hunk that removes a line starting with two dashes and a space is taken
    for a file header, so the patch is refused although it is what a diff program
    prints. *)
Theorem removed_dashes_refused :
  let query := ln (u "-- comment") ++ ln (u "SELECT 1;") in
  let fp := {| fp_path := u "q.sql"; hunks := script_hunks 0 0 [{| e_skip := []; e_body := [(Removed, ln (u "-- comment")); (Context, ln (u "SELECT 1;"))] |}] |} in
  _apply_file_patch query fp = Ok (ln (u "SELECT 1;")) /\
  exists e, parse_patch (print_patch [fp]) = Some (Err e).
Proof. split; [vm_compute; reflexivity|]. eexists. vm_compute. reflexivity. Qed.

(** ** Witnesses *)

Ltac by_compute := apply (bool_decide_unpack _); vm_compute; exact I.

Lemma plain_path : path_ok (u "a").
Proof. split_and!; by_compute. Qed.

Lemma replace_ok p k old new : path_ok p -> (0 <= k)%Z -> text_line (ln old) -> text_line (ln new) ->
  starts_with (u "-- ") (ln old) = false -> file_ok (replace_line p k old new).
Proof.
  intros Hp Hk Ho Hn Hd. split; [done|]. split; [done|]. apply Forall_singleton. split_and!; try done.
  repeat constructor; simpl; [by exists Removed, (ln old)|done|by exists Added, (ln new)].
Qed.

Lemma text_ln s : Forall (fun c => is_line_break c = false) s -> text_line (ln s).
Proof. by exists s. Qed.

Lemma parse_inverts_print_witness :
  parse_patch (print_patch [replace_line (u "a") 1 (u "1") (u "x")]) = Some (Ok [replace_line (u "a") 1 (u "1") (u "x")]).
Proof.
  apply (parse_inverts_print [replace_line (u "a") 1 (u "1") (u "x")]).
  - done.
  - apply Forall_singleton, replace_ok; [apply plain_path|lia|apply text_ln; by repeat constructor|
      apply text_ln; by repeat constructor|vm_compute; reflexivity].
Defined.

(** Two edits, the first of which moves the second. *)
Definition two_edits : list Edit := [
  {| e_skip := [ln (u "one")]; e_body := [(Context, ln (u "two")); (Added, ln (u "new")); (Added, ln (u "newer"))] |};
  {| e_skip := [ln (u "three")]; e_body := [(Removed, ln (u "four"))] |}].


Definition good_patch : pystr := print_patch [replace_line (u "a") 1 (u "1") (u "x")].

