(* ===== verification/Editor.v ===== *)
(** * The file editor (kinetic_sdk/files/tool.py)

    [FileTool]: viewing, creating, replacing, inserting and undoing, through the
    workspace interface of Patch.v. Parameters have the types of the tool's
    schema. A replacement is planned on the text alone ([plan_edit]) and written
    under the lock; the previous text is kept for one undo. *)

From stdpp Require Import base strings list.
From Stdlib Require Import ZArith Lia SpecFloat.
From S2P Require Import Prelude Json PyText Types Patch.

(** ** Fuzzy matching *)

Record Line := { body : pystr; start_at : nat; body_end : nat; full_end : nat }.

Fixpoint lines_from (offset : nat) (ls : list pystr) : list Line :=
  match ls with
  | [] => []
  | l :: ls' =>
    let b := rstrip_with is_crlf l in
    {| body := b; start_at := offset; body_end := offset + length b; full_end := offset + length l |}
    :: lines_from (offset + length l) ls'
  end.

Definition _line_contents_and_spans (text : pystr) : list Line := lines_from 0 (splitlines_keep text).

Definition is_indent (c : N) : bool := ((c =? 32) || (c =? 9))%N.

Definition _normalise_indentation (line : pystr) : pystr :=
  let rest := drop_while is_indent line in
  (if (length rest <? length line)%nat then [32%N] else []) ++ rest.

Definition crlf : pystr := [13%N; 10%N].

Definition _preserve_newline_style (value reference : pystr) : pystr :=
  if negb (contains crlf reference) then value
  else py_replace_all [10%N] crlf (py_replace_all [13%N] [10%N] (py_replace_all crlf [10%N] value)).

(** [line.strip(" ")]. *)
Definition strip_spaces (line : pystr) : pystr :=
  rstrip_with (fun c => (c =? 32)%N) (lstrip_with (fun c => (c =? 32)%N) line).

Inductive Strategy := LineTrimmed | IndentationNormalized | AnchoredBlock | AnchoredBlockRejected.

Definition strategy_name (s : Strategy) : pystr :=
  match s with
  | LineTrimmed => u "line_whitespace_trimmed"
  | IndentationNormalized => u "indentation_normalized"
  | AnchoredBlock => u "anchored_block"
  | AnchoredBlockRejected => u "anchored_block_rejected"
  end.

(** The span from line [first] to line [last], with or without its line end. *)
Definition span (lines : list Line) (include_final_newline : bool) (first last : nat) : nat * nat :=
  match lines !! first, lines !! last with
  | Some f, Some l => (start_at f, if include_final_newline then full_end l else body_end l)
  | _, _ => (0, 0)
  end.

(** The first lines of the runs equal to [old_bodies] up to [transform]. *)
Definition run_starts (transform : pystr -> pystr) (bodies old_bodies : list pystr) : list nat :=
  let n := length old_bodies in
  if (length bodies <? n)%nat then []
  else filter (fun i => map transform (take n (drop i bodies)) = map transform old_bodies)
              (seq 0 (length bodies - n + 1)).

Definition contiguous_matches (transform : pystr -> pystr) (lines : list Line) (old_bodies : list pystr)
    (include_final_newline : bool) : list (nat * nat) :=
  map (fun i => span lines include_final_newline i (i + length old_bodies - 1))
      (run_starts transform (map body lines) old_bodies).

Definition tenths_2 : pyfloat := S754_finite false 7205759403792794 (-55).
Definition tenths_6 : pyfloat := S754_finite false 5404319552844595 (-53).

Definition allowed_delta (old_bodies : list pystr) : Z :=
  Z.max 2 (trunc_float (fl_mul (fl_of_Z (zlen old_bodies)) tenths_2)).

(** The pairs of lines equal to the first and to the last line of the old text. *)
Definition anchors (bodies old_bodies : list pystr) : list (nat * nat) :=
  filter (fun fl => bodies !! fl.1 = head old_bodies /\ bodies !! fl.2 = last old_bodies)
    (concat (map (fun f => map (pair f) (seq (S f) (length bodies - S f))) (seq 0 (length bodies)))).

(** Close enough in size and content. *)
Definition anchored (bodies old_bodies : list pystr) (fl : nat * nat) : bool :=
  let candidate := take (fl.2 + 1 - fl.1) (drop fl.1 bodies) in
  (Z.abs (zlen candidate - zlen old_bodies) <=? allowed_delta old_bodies)%Z
  && negb (fl_lt (sequence_ratio (join [10%N] old_bodies) (join [10%N] candidate)) tenths_6).

Definition _fuzzy_find_details (content old_str : pystr) : option Strategy * list (nat * nat) :=
  let lines := _line_contents_and_spans content in
  let old_bodies := map body (_line_contents_and_spans old_str) in
  let inc := ends_with [10%N] old_str || ends_with [13%N] old_str in
  let bodies := map body lines in
  if bool_decide (lines = []) || bool_decide (old_bodies = []) then (None, []) else
  match contiguous_matches strip_spaces lines old_bodies inc with
  | [m] => (Some LineTrimmed, [m])
  | _ =>
    match contiguous_matches _normalise_indentation lines old_bodies inc with
    | [m] => (Some IndentationNormalized, [m])
    | _ =>
      if (3 <=? length old_bodies)%nat then
        let candidates := anchors bodies old_bodies in
        let matches := map (fun fl => span lines inc fl.1 fl.2)
                           (filter (fun fl => anchored bodies old_bodies fl = true) candidates) in
        match matches with
        | [m] => (Some AnchoredBlock, [m])
        | [] => if existsb (fun fl => negb (anchored bodies old_bodies fl)) candidates
                then (Some AnchoredBlockRejected, []) else (None, [])
        | _ => (None, matches)
        end
      else (None, [])
    end
  end.

(** ** Re-indentation *)

Definition indent (line : pystr) : pystr := take (length line - length (drop_while is_indent line)) line.

Definition has_char (c : N) (s : pystr) : bool := elem_b c s.

(** [min(widths)]. *)
Definition min_list (l : list nat) : nat :=
  match l with [] => 0 | x :: l' => foldl Nat.min x l' end.

Definition nonempty_text (s : pystr) : bool := negb (bool_decide (s = [])).

Definition reindent_line (target_indents : list pystr) (uses_tabs : bool) (old_line new_line target_indent : pystr)
    : option pystr :=
  let new_indent := indent new_line in
  let text := drop (length new_indent) new_line in
  if bool_decide (new_indent = []) then Some new_line
  else if bool_decide (new_indent = indent old_line) then Some (target_indent ++ text)
  else if uses_tabs then Some (replicate (Z.to_nat (expanded_width new_indent / 4)) 9%N ++ text)
  else
    let width := min_list (map length (filter (fun v => nonempty_text v = true) target_indents)) in
    if (width <=? 0)%nat then None
    else Some (replicate (width * (length new_indent / 4)) 32%N ++ text).

Fixpoint reindent_lines (targets : list pystr) (uses_tabs : bool) (old_lines new_lines target_indents : list pystr)
    : option (list pystr) :=
  match old_lines, new_lines, target_indents with
  | o :: os, n :: ns, t :: ts =>
    l ← reindent_line targets uses_tabs o n t;
    ls ← reindent_lines targets uses_tabs os ns ts;
    Some (l :: ls)
  | _, _, _ => Some []
  end.

Definition _reindent_fuzzy_replacement (old_str new_str matched : pystr) : option pystr :=
  let old_lines := splitlines_keep old_str in
  let new_lines := splitlines_keep new_str in
  let matched_lines := splitlines_keep matched in
  let targets := map indent matched_lines in
  if bool_decide (new_lines = []) then Some new_str
  else if negb (existsb nonempty_text targets) then
    if negb (existsb (fun l => nonempty_text (indent l)) new_lines) then Some new_str else None
  else
    let uses_tabs := existsb (has_char 9) targets in
    if uses_tabs && existsb (has_char 32) targets then None
    else if negb (length new_lines =? length old_lines)%nat || negb (length matched_lines =? length old_lines)%nat then None
    else ls ← reindent_lines targets uses_tabs old_lines new_lines targets; Some (concat ls).

(** ** The tool *)

(** What the editor uses of a workspace beside reading and writing: deleting,
    listing one directory, and the snapshot store. *)
Class EditorBackend (W : Type) := {
  ws_delete : pystr -> W -> result unit * W;
  ws_list : pystr -> W -> result (list pystr);
  snapshot : pystr -> pystr -> W -> result unit * W;
}.

(** [is_internal_snapshot_path]: a component of the path is the private area. *)
Definition is_internal_snapshot_path (path : pystr) : bool := elem_b (u ".kinetic") (split_on 47 path).

(** The optional parameters of [execute]. *)
Record Params := {
  view_range : option (list Z);
  file_text : option pystr;
  old_str : option pystr;
  new_str : option pystr;
  replace_all : bool;
  insert_line : option Z;
}.

Definition no_params : Params := {|
  view_range := None; file_text := None; old_str := None; new_str := None; replace_all := false; insert_line := None |}.

Definition tool_result (out : pystr) (md : jdict) : ToolResult := {|
  output := JStr out; error := None; tr_metadata := md; failure_category := None;
  duration_seconds := None; artifacts := [] |}.

Definition MAX_VIEW_LINE_CHARS : Z := 500.

Definition _truncate_view_line (line : pystr) : pystr :=
  if (zlen line <=? MAX_VIEW_LINE_CHARS)%Z then line else ztake MAX_VIEW_LINE_CHARS line ++ u "...(cut)".

Fixpoint numbered_lines (i : Z) (lines : list pystr) : list pystr :=
  match lines with
  | [] => []
  | l :: lines' => (dec i ++ [9%N] ++ _truncate_view_line l) :: numbered_lines (i + 1) lines'
  end.

(** The bounds [view] uses, or the error. *)
Definition view_bounds (range : option (list Z)) (n : Z) : pystr + Z * Z :=
  match range with
  | None => inr (1, n)%Z
  | Some [s; e] =>
    let e := if (e =? -1)%Z then n else e in
    if (s <? 1)%Z || (e <? s)%Z
    then inl (u "invalid view_range [" ++ join (u ", ") (map dec (default [] range)) ++ u "]")
    else inr (s, e)
  | Some _ => inl (u "view_range must be [start, end]")
  end.

Definition view_text (max_view_lines : Z) (range : option (list Z)) (content : pystr) : ToolResult :=
  let lines := splitlines content in
  match view_bounds range (zlen lines) with
  | inl msg => error_result msg
  | inr (start, stop) =>
    let sliced := ztake (stop - (start - 1)) (zdrop (start - 1) lines) in
    let truncated := (max_view_lines <? zlen sliced)%Z in
    let shown := if truncated then ztake max_view_lines sliced else sliced in
    let more :=
      if truncated then
        [10%N] ++ u "[... còn " ++ dec (zlen sliced - zlen shown) ++ u " dòng nữa; dùng view_range=["
        ++ dec (start + zlen shown) ++ u ", " ++ dec stop ++ u "] để xem tiếp ...]"
      else [] in
    tool_result (join [10%N] (numbered_lines start shown) ++ more)
      [(u "total_lines", JInt (zlen lines)); (u "truncated", JBool truncated)]
  end.

Definition _view_directory {W} `{EditorBackend W} (isinstance : pyexn -> pystr -> bool) (path : pystr) (w : W)
    : result ToolResult :=
  match ws_list path w with
  | Err e => if isinstance e (u "FileNotFoundError") || isinstance e (u "NotADirectoryError")
             then Ok (error_result (u "no such file or directory: " ++ path)) else Err e
  | Ok entries =>
    let entries := filter (fun e => rstrip_with (fun c => (c =? 47)%N) e <> u ".kinetic") entries in
    let text := join [10%N] entries in
    Ok (tool_result (if nonempty_text text then text else u "(empty directory)") [])
  end.

(** The replacement of [str_replace] on the text of the file: the error, or the
    new text and the metadata. *)
Definition exact_edit (path content old new : pystr) (occurrences : nat) (all : bool) : pystr * jdict :=
  let count := if all then occurrences else 1%nat in
  (py_replace count old (_preserve_newline_style new content) content,
   [(u "path", JStr path); (u "count", JInt (Z.of_nat count))]).

Definition line_range (content : pystr) (start stop : nat) : pystr :=
  let start_line := (Z.of_nat (py_count [10%N] (take start content)) + 1)%Z in
  let end_line := (Z.of_nat (py_count [10%N] (take stop content)) +
    if (start <? stop)%nat && bool_decide (take 1 (drop (stop - 1) content) = [10%N]) then 0 else 1)%Z in
  dec start_line ++ u "-" ++ dec end_line.

Definition fuzzy_edit (path content old new : pystr) (all : bool) : pystr + pystr * jdict :=
  let '(strategy, matches) := _fuzzy_find_details content old in
  match strategy with
  | Some AnchoredBlockRejected =>
    inl (u "anchored_block fuzzy match rejected because the matched block is too different in size or middle content; use a more exact old_str")
  | _ =>
    match matches with
    | [] => inl (u "old_str not found in the file")
    | [(start, stop)] =>
      if all then inl (u "replace_all=True only supports exact matches; narrow old_str or disable replace_all to use fuzzy matching")
      else
        let replacement := _preserve_newline_style new content in
        let reindented :=
          match strategy with
          | Some IndentationNormalized => _reindent_fuzzy_replacement old replacement (take (stop - start) (drop start content))
          | _ => Some replacement
          end in
        match reindented with
        | None => inl (u "indentation_normalized fuzzy match rejected because replacement indentation could not be inferred safely")
        | Some r =>
          inr (take start content ++ r ++ drop stop content,
               [(u "path", JStr path); (u "count", JInt 1);
                (u "match_strategy", match strategy with Some s => JStr (strategy_name s) | None => JNull end);
                (u "lines", JStr (line_range content start stop))])
        end
    | _ => inl (u "old_str fuzzy-matches " ++ dec (zlen matches) ++ u " times; it must match exactly once")
    end
  end.

Definition plan_edit (path content old new : pystr) (all : bool) : pystr + pystr * jdict :=
  let occurrences := py_count old content in
  if (1 <? occurrences)%nat && negb all then
    inl (u "old_str matches " ++ dec (Z.of_nat occurrences)
         ++ u " times; pass replace_all=True to replace all of them, or narrow old_str to match exactly once")
  else if (0 <? occurrences)%nat then inr (exact_edit path content old new occurrences all)
  else fuzzy_edit path content old new all.

(** The text of the success message. *)
Definition edited_message (path : pystr) (md : jdict) : pystr :=
  let count := match dict_get (u "count") md with Some (JInt n) => dec n | _ => [] end in
  match dict_get (u "match_strategy") md, dict_get (u "lines") md with
  | Some (JStr s), Some (JStr ls) =>
    u "edited " ++ path ++ u " (" ++ count ++ u " replacement, fuzzy=" ++ s ++ u ", lines " ++ ls ++ u ")"
  | _, _ => u "edited " ++ path ++ u " (" ++ count ++ u " replacement(s))"
  end.

(** The text of the file after [insert]. *)
Definition inserted_lines (content new : pystr) : list pystr :=
  let new := _preserve_newline_style new content in
  let ls := splitlines_keep new in
  if nonempty_text new && negb (ends_with [10%N] new || ends_with [13%N] new)
  then match last ls with Some l => removelast ls ++ [l ++ [10%N]] | None => ls end
  else ls.

Definition insert_text (content new : pystr) (at_line : nat) : pystr :=
  let lines := splitlines_keep content in
  concat (take at_line lines ++ inserted_lines content new ++ drop at_line lines).

Inductive Action := View | Create | StrReplace | Insert | UndoEdit.

#[export] Instance action_eq_dec : EqDecision Action.
Proof. solve_decision. Defined.

Section Tool.
Context {W : Type} `{Workspace W} `{EditorBackend W}.
(** [isinstance(exc, cls)]. *)
Variable isinstance : pyexn -> pystr -> bool.
Variables (max_view_lines : Z) (locked : bool) (owner : option pystr) (snapshots : bool).

(** The previous text of a path; [None]: the path was created. *)
Abbreviation Undo := (list (pystr * option pystr)).
Abbreviation outcome := (result ToolResult * Undo * W)%type.

Definition not_bound : pyexn :=
  value_error (u "FileTool with lock_registry is not bound to an agent; call file_tool.bind(agent) after constructing the agent").

(** [with self._lock_registry.acquire(...): operation()]. *)
Definition _write_locked (path : pystr) (operation : W -> result unit * W) (w : W) : result unit * W :=
  if negb locked then operation w
  else match owner with
  | None => (Err not_bound, w)
  | Some o =>
    match lk_acquire path o w with
    | (Err e, w1) => (Err e, w1)
    | (Ok _, w1) =>
      let '(r, w2) := operation w1 in
      match lk_release path o w2 with
      | (Err e, w3) => (Err e, w3)
      | (Ok _, w3) => (r, w3)
      end
    end
  end.

Definition _snapshot_and_write (path previous updated : pystr) (w : W) : result unit * W :=
  if snapshots then
    match snapshot path previous w with
    | (Err e, w1) => (Err e, w1)
    | (Ok _, w1) => ws_write path updated w1
    end
  else ws_write path updated w.

(** A write, and what is done only if it did not raise. *)
Definition commit (write : result unit * W) (undo undo' : Undo) (r : ToolResult) : outcome :=
  match write with
  | (Ok _, w') => (Ok r, undo', w')
  | (Err e, w') => (Err e, undo, w')
  end.

Definition _view (path : pystr) (p : Params) (w : W) : result ToolResult :=
  match ws_read path w with
  | Ok content => Ok (view_text max_view_lines (view_range p) content)
  | Err e =>
    if isinstance e (u "FileNotFoundError") || isinstance e (u "IsADirectoryError")
    then _view_directory isinstance path w else Err e
  end.

Definition _create (path : pystr) (p : Params) (undo : Undo) (w : W) : outcome :=
  match file_text p with
  | None => (Ok (error_result (u "create requires file_text")), undo, w)
  | Some text =>
    match ws_read path w with
    | Ok _ => (Ok (error_result (u "file already exists: " ++ path ++ u " (use str_replace to edit)")), undo, w)
    | Err e =>
      if isinstance e (u "FileNotFoundError")
      then commit (_write_locked path (ws_write path text) w) undo (dict_set path None undo)
                  (tool_result (u "created " ++ path) [(u "path", JStr path)])
      else (Err e, undo, w)
    end
  end.

Definition _str_replace (path : pystr) (p : Params) (undo : Undo) (w : W) : outcome :=
  match old_str p, new_str p with
  | Some old, Some new =>
    match ws_read path w with
    | Err e => if isinstance e (u "FileNotFoundError")
               then (Ok (error_result (u "no such file: " ++ path)), undo, w) else (Err e, undo, w)
    | Ok content =>
      match plan_edit path content old new (replace_all p) with
      | inl msg => (Ok (error_result msg), undo, w)
      | inr (new_content, md) =>
        commit (_write_locked path (_snapshot_and_write path content new_content) w) undo
               (dict_set path (Some content) undo) (tool_result (edited_message path md) md)
      end
    end
  | _, _ => (Ok (error_result (u "str_replace requires old_str and new_str")), undo, w)
  end.

Definition _insert (path : pystr) (p : Params) (undo : Undo) (w : W) : outcome :=
  match insert_line p, new_str p with
  | Some k, Some new =>
    match ws_read path w with
    | Err e => if isinstance e (u "FileNotFoundError")
               then (Ok (error_result (u "no such file: " ++ path)), undo, w) else (Err e, undo, w)
    | Ok content =>
      let n := zlen (splitlines_keep content) in
      if negb ((0 <=? k) && (k <=? n))%Z
      then (Ok (error_result (u "insert_line " ++ dec k ++ u " out of range 0.." ++ dec n)), undo, w)
      else commit (_write_locked path (_snapshot_and_write path content (insert_text content new (Z.to_nat k))) w) undo
                  (dict_set path (Some content) undo)
                  (tool_result (u "inserted into " ++ path ++ u " after line " ++ dec k) [(u "path", JStr path)])
    end
  | _, _ => (Ok (error_result (u "insert requires insert_line and new_str")), undo, w)
  end.

Definition _undo_edit (path : pystr) (undo : Undo) (w : W) : outcome :=
  match dict_get path undo with
  | None => (Ok (error_result (u "nothing to undo for " ++ path)), undo, w)
  | Some None =>
    commit (_write_locked path (ws_delete path) w) undo (dict_pop path undo)
           (tool_result (u "undid create of " ++ path) [])
  | Some (Some previous) =>
    match (match ws_read path w with
           | Ok t => Ok t
           | Err e => if isinstance e (u "FileNotFoundError") then Ok [] else Err e
           end) with
    | Err e => (Err e, undo, w)
    | Ok current =>
      commit (_write_locked path (ws_write path previous) w) undo (dict_set path (Some current) undo)
             (tool_result (u "reverted " ++ path ++ u " to its previous content") [])
    end
  end.

Definition action_of (a : pystr) : option Action :=
  dict_get a [(u "view", View); (u "create", Create); (u "str_replace", StrReplace); (u "insert", Insert);
              (u "undo_edit", UndoEdit)].

Definition run_handler (a : Action) (path : pystr) (p : Params) (undo : Undo) (w : W) : outcome :=
  match a with
  | View => (_view path p w, undo, w)
  | Create => _create path p undo w
  | StrReplace => _str_replace path p undo w
  | Insert => _insert path p undo w
  | UndoEdit => _undo_edit path undo w
  end.

(** The [except] clauses of [execute]. *)
Definition reported (e : pyexn) : result ToolResult :=
  if isinstance e (u "FileLockTimeoutError") then Ok (error_result (u "file is locked for writing: " ++ exn_msg e))
  else if isinstance e (u "ValueError") then Ok (error_result (u "path rejected: " ++ exn_msg e))
  else if existsb (isinstance e) [u "OSError"; u "WorkspaceError"; u "SnapshotStoreError"]
  then Ok (error_result (u "filesystem error: " ++ exn_msg e)) else Err e.

Definition execute `{PyRuntime} (action path : pystr) (p : Params) (undo : Undo) (w : W) : outcome :=
  match action_of action with
  | None => (Ok (error_result (u "unknown action " ++ py_repr (JStr action)
                               ++ u " (expected view/create/str_replace/insert/undo_edit)")), undo, w)
  | Some a =>
    if is_internal_snapshot_path path
    then (Ok (error_result (u "path is reserved for internal snapshot storage")), undo, w)
    else
      let '(r, undo', w') := run_handler a path p undo w in
      (match r with Ok t => Ok t | Err e => reported e end, undo', w')
  end.
End Tool.

(** ** Where an edit happens *)

Lemma rstrip_prefix p s : exists k, s = rstrip_with p s ++ k.
Proof.
  destruct (drop_while_suffix p (rev s)) as [k Hk]. exists (rev k). unfold rstrip_with.
  rewrite <- rev_app_distr, <- Hk. by rewrite rev_involutive.
Qed.

(** What follows the body of a line. *)
Definition line_end (l : pystr) : pystr := drop (length (rstrip_with is_crlf l)) l.

Lemma lines_from_length o ls : length (lines_from o ls) = length ls.
Proof. revert o; induction ls as [|l ls IH]; intros o; simpl; [done|]. by rewrite IH. Qed.

Lemma lines_from_lookup o ls i l : ls !! i = Some l ->
  lines_from o ls !! i = Some {| body := rstrip_with is_crlf l;
    start_at := o + length (concat (take i ls));
    body_end := o + length (concat (take i ls)) + length (rstrip_with is_crlf l);
    full_end := o + length (concat (take i ls)) + length l |}.
Proof.
  revert o i; induction ls as [|l0 ls IH]; intros o [|i]; simpl; [done..| |].
  - intros [= ->]. by rewrite Nat.add_0_r.
  - intros Hl. rewrite (IH _ _ Hl), length_app. by rewrite !Nat.add_assoc.
Qed.

Definition bodies (s : pystr) : list pystr := map body (_line_contents_and_spans s).

Lemma bodies_length s : length (bodies s) = length (splitlines_keep s).
Proof. unfold bodies, _line_contents_and_spans. by rewrite length_map, lines_from_length. Qed.

Lemma concat_take_le (L : list pystr) i j : (i <= j)%nat -> (length (concat (take i L)) <= length (concat (take j L)))%nat.
Proof.
  intros Hij. replace (take j L) with (take i L ++ drop i (take j L)); [rewrite concat_app, length_app; lia|].
  rewrite <- (take_drop i (take j L)) at 2. by rewrite take_take, Nat.min_l.
Qed.

(** A span cuts the text at the boundaries of its lines. *)
Lemma span_cuts content inc i j a b : (i < length (splitlines_keep content))%nat ->
  (j < length (splitlines_keep content))%nat ->
  span (_line_contents_and_spans content) inc i j = (a, b) -> exists l, splitlines_keep content !! j = Some l /\
  take a content = concat (take i (splitlines_keep content)) /\ (i <= j -> a <= b)%nat /\
  drop b content = (if inc then [] else line_end l) ++ concat (drop (S j) (splitlines_keep content)).
Proof.
  set (L := splitlines_keep content). intros Hi Hj.
  destruct (lookup_lt_is_Some_2 _ _ Hi) as [li Hli]. destruct (lookup_lt_is_Some_2 _ _ Hj) as [lj Hlj].
  unfold span, _line_contents_and_spans. fold L.
  rewrite (lines_from_lookup 0 L i li Hli), (lines_from_lookup 0 L j lj Hlj). simpl. intros [= <- <-].
  exists lj. split; [done|].
  assert (forall k, content = concat (take k L) ++ concat (drop k L)) as Hc.
  { intros k. rewrite <- concat_app, take_drop. unfold L. by rewrite splitlines_keep_concat. }
  split; [rewrite (Hc i) at 1; by rewrite take_app_length|].
  split; [intros Hij; pose proof (concat_take_le L i j Hij); destruct inc; lia|].
  assert (content = concat (take j L) ++ lj ++ concat (drop (S j) L)) as Hcj.
  { rewrite (Hc j) at 1. by rewrite (drop_S L lj j Hlj). }
  destruct (rstrip_prefix is_crlf lj) as [k Hk].
  destruct inc; rewrite Hcj at 1.
  - rewrite app_assoc, <- length_app. by rewrite drop_app_length.
  - unfold line_end. rewrite Hk at 2 4. rewrite drop_app_length, <- app_assoc, app_assoc, <- length_app.
    by rewrite drop_app_length.
Qed.

(** Lines [i..j] of a text resemble the lines of [old] in the sense of a strategy. *)
Definition similar (s : Strategy) (content old : pystr) (i j : nat) : Prop :=
  let b := bodies content in
  let o := bodies old in
  let run transform := (1 <= length o)%nat /\ (i + length o <= length b)%nat /\ j = (i + length o - 1)%nat /\
    map transform (take (length o) (drop i b)) = map transform o in
  match s with
  | LineTrimmed => run strip_spaces
  | IndentationNormalized => run _normalise_indentation
  | AnchoredBlock => (i < j < length b)%nat /\ b !! i = head o /\ b !! j = last o /\ anchored b o (i, j) = true
  | AnchoredBlockRejected => False
  end.

(** The only lines that do. *)
Definition only_similar (s : Strategy) (content old : pystr) (i j : nat) : Prop :=
  similar s content old i j /\ forall i' j', similar s content old i' j' -> i' = i /\ j' = j.

Definition fuzzy_replacement (s : Strategy) (content old new matched : pystr) : option pystr :=
  match s with
  | IndentationNormalized => _reindent_fuzzy_replacement old (_preserve_newline_style new content) matched
  | _ => Some (_preserve_newline_style new content)
  end.

(** The edits [str_replace] makes without [replace_all]. *)
Inductive one_place (content old new : pystr) : pystr -> Prop :=
| exact_place l r : content = l ++ old ++ r ->
    (forall l' r', content = l' ++ old ++ r' -> (length l <= length l' < length l + Nat.max 1 (length old))%nat) ->
    one_place content old new (l ++ _preserve_newline_style new content ++ r)
| fuzzy_place s i j l repl matched : contains old content = false ->
    only_similar s content old i j -> (i <= j)%nat -> splitlines_keep content !! j = Some l ->
    let rest := (if ends_with [10%N] old || ends_with [13%N] old then [] else line_end l)
                ++ concat (drop (S j) (splitlines_keep content)) in
    content = concat (take i (splitlines_keep content)) ++ matched ++ rest ->
    fuzzy_replacement s content old new matched = Some repl ->
    one_place content old new (concat (take i (splitlines_keep content)) ++ repl ++ rest).

Lemma run_starts_spec transform b o i : o <> [] ->
  i ∈ run_starts transform b o <-> (i + length o <= length b)%nat /\ map transform (take (length o) (drop i b)) = map transform o.
Proof.
  intros Ho. unfold run_starts. destruct (Nat.ltb_spec (length b) (length o)).
  - split; [by intros ?%not_elem_of_nil|lia].
  - rewrite list_elem_of_filter, elem_of_seq. split; [intros [? ?]; split; [lia|done]|intros [? ?]; split; [done|lia]].
Qed.

Lemma anchors_spec b o i j : (i, j) ∈ anchors b o <-> (i < j < length b)%nat /\ b !! i = head o /\ b !! j = last o.
Proof.
  unfold anchors. rewrite list_elem_of_filter. simpl.
  enough ((i, j) ∈ concat (map (fun f => map (pair f) (seq (S f) (length b - S f))) (seq 0 (length b)))
          <-> (i < j < length b)%nat) as -> by tauto.
  rewrite list_elem_of_In, in_concat. split.
  - intros (row & Hr & Hp). apply in_map_iff in Hr as (f & <- & Hf). apply in_map_iff in Hp as (l & [= <- <-] & Hl).
    apply in_seq in Hf, Hl. lia.
  - intros Hij. exists (map (pair i) (seq (S i) (length b - S i))). split.
    + apply in_map_iff. exists i. split; [done|]. apply in_seq. lia.
    + apply in_map, in_seq. lia.
Qed.

(** A list with one element has it as its only member. *)
Lemma map_singleton {A B} (f : A -> B) l y : map f l = [y] -> exists x, l = [x] /\ f x = y.
Proof. destruct l as [|x [|x' l]]; [done| |done]. intros [= <-]. by exists x. Qed.

Lemma run_only s transform lines content old inc m : s = LineTrimmed /\ transform = strip_spaces \/
    s = IndentationNormalized /\ transform = _normalise_indentation ->
  lines = _line_contents_and_spans content -> bodies old <> [] ->
  contiguous_matches transform lines (bodies old) inc = [m] ->
  exists i j, only_similar s content old i j /\ (i <= j)%nat /\ span lines inc i j = m.
Proof.
  intros Hs -> Ho Hm. apply map_singleton in Hm as (i & Hi & Hspan). fold (bodies content) in Hi.
  exists i, (i + length (bodies old) - 1)%nat.
  assert (1 <= length (bodies old))%nat by (destruct (bodies old); [done|simpl; lia]).
  assert (forall k, k ∈ run_starts transform (bodies content) (bodies old) <-> k = i) as Hall.
  { intros k. rewrite Hi. by rewrite list_elem_of_singleton. }
  setoid_rewrite run_starts_spec in Hall; [|done].
  split; [|split; [lia|done]].
  destruct Hs as [[-> ->]|[-> ->]]; (split; [split; [done|split; [|split]]; [|done|]; by apply (Hall i)|]);
    intros i' j' (_ & ? & -> & ?); assert (i' = i) as -> by (apply Hall; by split); done.
Qed.

Lemma fuzzy_find_only content old strategy a b : _fuzzy_find_details content old = (strategy, [(a, b)]) ->
  exists s i j, strategy = Some s /\ s <> AnchoredBlockRejected /\ only_similar s content old i j /\ (i <= j)%nat /\
    span (_line_contents_and_spans content) (ends_with [10%N] old || ends_with [13%N] old) i j = (a, b).
Proof.
  unfold _fuzzy_find_details. fold (bodies old). fold (bodies content).
  set (inc := ends_with [10%N] old || ends_with [13%N] old). case_bool_decide; [done|].
  case_bool_decide as Ho; [done|]. cbn [orb].
  destruct (contiguous_matches strip_spaces _ _ inc) as [|m [|]] eqn:E1.
  2: { intros [= <- ->]. destruct (run_only LineTrimmed strip_spaces _ content old inc (a, b) (or_introl (conj eq_refl eq_refl)) eq_refl Ho E1) as (i & j & ?).
       by exists LineTrimmed, i, j. }
  1, 2: destruct (contiguous_matches _normalise_indentation _ _ inc) as [|m' [|]] eqn:E2.
  2, 5: intros [= <- ->]; destruct (run_only IndentationNormalized _normalise_indentation _ content old inc (a, b)
          (or_intror (conj eq_refl eq_refl)) eq_refl Ho E2) as (i & j & ?); by exists IndentationNormalized, i, j.
  all: destruct (3 <=? length (bodies old))%nat; [|done].
  all: set (f := filter _ _); destruct (map _ f) as [|m1 [|]] eqn:E3; [by destruct (existsb _ _)| |done].
  all: intros [= <- ->]; apply map_singleton in E3 as ([i j] & Hf & Hspan).
  all: assert (forall fl, fl ∈ f <-> fl = (i, j)) as Hall by (intros fl; rewrite Hf; by rewrite list_elem_of_singleton).
  all: unfold f in Hall; setoid_rewrite list_elem_of_filter in Hall.
  all: destruct (proj2 (Hall (i, j)) eq_refl) as [Ha Hin]; apply anchors_spec in Hin as (Hij & Hi & Hj).
  all: exists AnchoredBlock, i, j; (split; [done|]); (split; [done|]); (split; [split|split; [lia|done]]); [exact (conj Hij (conj Hi (conj Hj Ha)))|].
  all: intros i' j' (? & ? & ? & ?); assert ((i', j') = (i, j)) as [= -> ->] by (apply Hall; split; [done|by apply anchors_spec]); done.
Qed.

Lemma exact_edit_one_place content old new : py_count old content = 1%nat ->
  one_place content old new (py_replace 1 old (_preserve_newline_style new content) content).
Proof.
  set (new' := _preserve_newline_style new content). destruct old as [|c o] eqn:Eo.
  - simpl. intros [= Hc]. destruct content; [|done]. simpl. apply (exact_place [] [] new [] []); [done|].
    intros l' r' Hl. symmetry in Hl. apply app_nil in Hl as [-> _]. simpl. lia.
  - rewrite <- Eo. assert (old <> []) as Ho by (by rewrite Eo). intros Hc.
    assert (count_from 0 old content = 1%nat) as Hc' by (rewrite Eo in Hc |- *; exact Hc).
    destruct (count_one_unique old new' Ho content Hc') as (l & r & Hs & Hr & Hu).
    assert (py_replace 1 old new' content = l ++ new' ++ r) as -> by (rewrite <- (Hr 0%nat); by rewrite Eo).
    apply exact_place; [done|]. intros l' r' Hl. specialize (Hu _ _ Hl). lia.
Qed.

Lemma similar_bound s content old i j : similar s content old i j -> (j < length (bodies content))%nat.
Proof.
  unfold similar. generalize (bodies content) (bodies old). intros b o. destruct s; cbv zeta; [| | |done].
  1, 2: intros (? & ? & -> & _); lia.
  intros (? & _); lia.
Qed.

Lemma fuzzy_edit_one_place path content old new content' md : contains old content = false ->
  fuzzy_edit path content old new false = inr (content', md) -> one_place content old new content'.
Proof.
  intros Hc. unfold fuzzy_edit. destruct (_fuzzy_find_details content old) as [strategy matches] eqn:E.
  destruct matches as [|[a b] [|]]; [by repeat case_match| |by repeat case_match].
  apply fuzzy_find_only in E as (s & i & j & -> & Hs & Honly & Hij & Hspan).
  set (matched := take (b - a) (drop a content)).
  assert (j < length (splitlines_keep content))%nat as Hj.
  { rewrite <- bodies_length. apply (similar_bound s content old i j), Honly. }
  destruct (span_cuts _ _ _ _ _ _ (Nat.le_lt_trans _ _ _ Hij Hj) Hj Hspan) as (l & Hl & Ha & Hab & Hb).
  intros He.
  assert (exists repl, fuzzy_replacement s content old new matched = Some repl /\
    content' = take a content ++ repl ++ drop b content) as (repl & Hr & ->).
  { destruct s; [| | |done]; repeat case_match; simplify_eq; eauto. }
  rewrite Ha, Hb. eapply (fuzzy_place content old new s i j l repl matched); try done.
  rewrite <- Ha, <- Hb. unfold matched. rewrite <- (take_drop a content) at 1. f_equal.
  rewrite <- (take_drop (b - a) (drop a content)) at 1. f_equal. rewrite drop_drop. f_equal. lia.
Qed.

Lemma plan_edit_one_place path content old new content' md :
  plan_edit path content old new false = inr (content', md) -> one_place content old new content'.
Proof.
  unfold plan_edit. cbn [negb]. rewrite andb_true_r. destruct (Nat.ltb_spec 1 (py_count old content)); [done|].
  destruct (Nat.ltb_spec 0 (py_count old content)).
  - intros [= <- <-]. apply exact_edit_one_place. lia.
  - intros He. eapply fuzzy_edit_one_place; [|exact He]. destruct old as [|c o] eqn:Eo; [simpl in *; lia|].
    apply count_zero; [done|]. rewrite <- Eo in *. unfold py_count in *. rewrite Eo in *. lia.
Qed.

(** ** The world *)

(** Deleting, listing and snapshots. A snapshot touches only files that resolve
    into the private area ([private]). *)
Class LawfulBackend {W : Type} `{Workspace W} `{EditorBackend W} (isinstance : pyexn -> pystr -> bool)
    (alias : pystr -> pystr -> bool) (private : pystr -> bool) := {
  read_deleted p q w w' : ws_delete p w = (Ok tt, w') ->
    if alias q p then exists e, ws_read q w' = Err e /\ isinstance e (u "FileNotFoundError") = true
    else ws_read q w' = ws_read q w;
  read_undeleted p q w w' e : ws_delete p w = (Err e, w') -> ws_read q w' = ws_read q w;
  read_snapshot p t q w : private q = false -> ws_read q (snapshot p t w).2 = ws_read q w;
}.

Section Edits.
Context `{PyRuntime} {W : Type} `{Workspace W} `{EditorBackend W}.
Context (isinstance : pyexn -> pystr -> bool) (alias : pystr -> pystr -> bool) (private : pystr -> bool).
Context `{!LawfulWorkspace alias} `{!LawfulBackend isinstance alias private}.
Variables (max_view_lines : Z) (locked : bool) (owner : option pystr) (snapshots : bool).

Abbreviation locked_write := (_write_locked locked owner).

(** The files outside the private area read the same. *)
Definition unchanged (w w' : W) : Prop := forall q, private q = false -> ws_read q w' = ws_read q w.

(** [path] holds [text] and the other files read the same. *)
Definition holds (path text : pystr) (w w' : W) : Prop :=
  forall q, private q = false -> ws_read q w' = if alias q path then Ok text else ws_read q w.

(** The lock around an operation does not touch the files. *)
Lemma locked_op path op w r w' : locked_write path op w = (r, w') ->
  (exists e, r = Err e /\ forall q, ws_read q w' = ws_read q w) \/
  (exists w1 w2, (forall q, ws_read q w1 = ws_read q w) /\ op w1 = (r, w2) /\ forall q, ws_read q w' = ws_read q w2).
Proof using LawfulWorkspace0.
  unfold _write_locked. destruct (negb locked); [intros Ho; right; by exists w, w'|].
  destruct owner as [o|]; [|intros [= <- <-]; left; by eexists].
  pose proof (fun q => read_acquired path o q w) as Ha. destruct (lk_acquire path o w) as [[[]|e] w1].
  2: intros [= <- <-]; left; by eexists.
  destruct (op w1) as [r1 w2] eqn:E. pose proof (released path o w2) as Hr. pose proof (fun q => read_released path o q w2) as Hrr.
  destruct (lk_release path o w2) as [r3 w3]. simpl in *. subst r3. intros [= <- <-]. right. by exists w1, w2.
Qed.

Lemma locked_reads path op w r w' (Q : W -> W -> Prop) :
  (forall w1 w2, op w1 = (r, w2) -> if is_ok r then Q w1 w2 else unchanged w1 w2) ->
  (forall wa w1 w2 wb, (forall q, ws_read q w1 = ws_read q wa) -> (forall q, ws_read q wb = ws_read q w2) ->
     Q w1 w2 -> Q wa wb) ->
  locked_write path op w = (r, w') -> if is_ok r then Q w w' else unchanged w w'.
Proof using LawfulWorkspace0.
  intros Hop HQ Hw. destruct (locked_op _ _ _ _ _ Hw) as [(e & -> & Hq)|(w1 & w2 & Hpre & Hr & Hpost)]; [by intros q _|].
  specialize (Hop _ _ Hr). destruct (is_ok r); [by eapply HQ|]. intros q Hq. by rewrite Hpost, Hop, Hpre.
Qed.

Lemma write_holds path text w r w' : locked_write path (ws_write path text) w = (r, w') ->
  if is_ok r then holds path text w w' else unchanged w w'.
Proof using LawfulWorkspace0.
  apply locked_reads.
  - intros w1 w2 Hw. destruct r as [[]|e]; intros q _; [by eapply read_written|by eapply read_failed].
  - intros wa w1 w2 wb Hpre Hpost Hh q Hq. rewrite Hpost, Hh by done. case_match; [done|]. by rewrite Hpre.
Qed.

Lemma snapshot_write_holds path previous text w r w' :
  locked_write path (_snapshot_and_write snapshots path previous text) w = (r, w') ->
  if is_ok r then holds path text w w' else unchanged w w'.
Proof using LawfulWorkspace0 LawfulBackend0.
  apply locked_reads.
  - intros w1 w2 Hw. unfold _snapshot_and_write in Hw. destruct snapshots.
    + pose proof (fun q => read_snapshot path previous q w1) as Hs. destruct (snapshot path previous w1) as [[[]|e] w3].
      * destruct r as [[]|e]; intros q Hq; simpl in Hs; rewrite <- (Hs q Hq); [by eapply read_written|by eapply read_failed].
      * injection Hw as <- <-. intros q Hq. by apply Hs.
    + destruct r as [[]|e]; intros q _; [by eapply read_written|by eapply read_failed].
  - intros wa w1 w2 wb Hpre Hpost Hh q Hq. rewrite Hpost, Hh by done. case_match; [done|]. by rewrite Hpre.
Qed.

(** [path] is gone and the other files read the same. *)
Definition gone (path : pystr) (w w' : W) : Prop := forall q, private q = false ->
  if alias q path then exists e, ws_read q w' = Err e /\ isinstance e (u "FileNotFoundError") = true
  else ws_read q w' = ws_read q w.

Lemma delete_gone path w r w' : locked_write path (ws_delete path) w = (r, w') ->
  if is_ok r then gone path w w' else unchanged w w'.
Proof using LawfulWorkspace0 LawfulBackend0.
  apply locked_reads.
  - intros w1 w2 Hw. destruct r as [[]|e]; intros q Hq; [by eapply read_deleted|by eapply read_undeleted].
  - intros wa w1 w2 wb Hpre Hpost Hh q Hq. specialize (Hh q Hq). rewrite Hpost. case_match; [done|]. by rewrite Hh, Hpre.
Qed.

(** ** What an action does *)

Abbreviation Undo := (list (pystr * option pystr)).

(** The effect of a successful action on the undo table and the files. *)
Inductive effect (path : pystr) (undo : Undo) (w : W) : Action -> Undo -> W -> Prop :=
| Created text e w' : ws_read path w = Err e -> isinstance e (u "FileNotFoundError") = true ->
    holds path text w w' -> effect path undo w Create (dict_set path None undo) w'
| Rewritten a content text w' : ws_read path w = Ok content -> holds path text w w' ->
    effect path undo w a (dict_set path (Some content) undo) w'
| Recreated text e w' : ws_read path w = Err e -> isinstance e (u "FileNotFoundError") = true ->
    dict_get path undo = Some (Some text) -> holds path text w w' ->
    effect path undo w UndoEdit (dict_set path (Some []) undo) w'
| Removed w' : dict_get path undo = Some None -> gone path w w' -> effect path undo w UndoEdit (dict_pop path undo) w'.

Definition succeeded (r : result ToolResult) : Prop := match r with Ok t => error t = None | Err _ => False end.

(** An action fails without an effect, or succeeds with one (or viewed). *)
Definition outcome_ok (path : pystr) (undo : Undo) (w : W) (a : Action) (o : result ToolResult * Undo * W) : Prop :=
  let '(r, undo', w') := o in
  (undo' = undo /\ unchanged w w' /\ (succeeded r -> a = View)) \/ (succeeded r /\ effect path undo w a undo' w').

Lemma refused path undo w a r : ~ succeeded r \/ a = View -> outcome_ok path undo w a (r, undo, w).
Proof. intros Hr. left. split; [done|]. split; [by intros q _|]. intros Hs. by destruct Hr. Qed.

Local Ltac refuse := apply refused; left; intros ?; done.

Lemma commit_ok path undo undo' w a write (Q : W -> W -> Prop) t : error t = None ->
  (if is_ok write.1 then Q w write.2 else unchanged w write.2) ->
  (forall w', Q w w' -> effect path undo w a undo' w') ->
  outcome_ok path undo w a (commit write undo undo' t).
Proof.
  intros Ht Hw He. destruct write as [[[]|e] w1]; simpl in *; [right; split; [done|by apply He]|].
  left. by split_and!.
Qed.

Lemma handler_outcome a path p undo w :
  outcome_ok path undo w a
    (run_handler isinstance max_view_lines locked owner snapshots a path p undo w).
Proof using LawfulWorkspace0 LawfulBackend0.
  destruct a; simpl.
  - apply refused. by right.
  - unfold _create. destruct (file_text p) as [text|]; [|refuse].
    destruct (ws_read path w) as [c|e] eqn:Er; [refuse|].
    destruct (isinstance e _) eqn:Ei; [|refuse].
    eapply commit_ok; [done|by eapply write_holds, surjective_pairing|]. intros w'. by eapply Created.
  - unfold _str_replace. destruct (old_str p) as [old|]; [|refuse]. destruct (new_str p) as [new|]; [|refuse].
    destruct (ws_read path w) as [c|e] eqn:Er; [|destruct (isinstance e _); refuse].
    destruct (plan_edit path c old new (replace_all p)) as [msg|[text md]]; [refuse|].
    eapply commit_ok; [done|by eapply snapshot_write_holds, surjective_pairing|]. intros w'. by eapply Rewritten.
  - unfold _insert. destruct (insert_line p) as [k|]; [|refuse]. destruct (new_str p) as [new|]; [|refuse].
    destruct (ws_read path w) as [c|e] eqn:Er; [|destruct (isinstance e _); refuse].
    destruct (negb _); [refuse|].
    eapply commit_ok; [done|by eapply snapshot_write_holds, surjective_pairing|]. intros w'. by eapply Rewritten.
  - unfold _undo_edit. destruct (dict_get path undo) as [[previous|]|] eqn:Eu; [| |refuse].
    + destruct (ws_read path w) as [c|e] eqn:Er; [|destruct (isinstance e _) eqn:Ei; [|refuse]].
      all: eapply commit_ok; [done|by eapply write_holds, surjective_pairing|]; intros w' Hh.
      * by eapply Rewritten.
      * by eapply Recreated.
    + eapply commit_ok; [done|by eapply delete_gone, surjective_pairing|]. intros w'. by eapply Removed.
Qed.

Abbreviation edit := (execute isinstance max_view_lines locked owner snapshots).

Lemma reported_fails e : ~ succeeded (reported isinstance e).
Proof. unfold reported. repeat case_match; intros ?; done. Qed.

Lemma execute_outcome action path p undo w :
  outcome_ok path undo w (default View (action_of action)) (edit action path p undo w).
Proof using LawfulWorkspace0 LawfulBackend0.
  unfold execute. destruct (action_of action) as [a|]; [|refuse].
  destruct (is_internal_snapshot_path path); [refuse|].
  pose proof (handler_outcome a path p undo w) as Ho. destruct (run_handler _ _ _ _ _ _ _ _ _ _) as [[r undo'] w'].
  destruct r as [t|e]; [exact Ho|]. destruct Ho as [(-> & Hu & _)|[[] _]]. left. split; [done|]. split; [done|].
  intros Hs. by apply reported_fails in Hs.
Qed.

(** an action that reports an error, or raises, leaves the undo table and every
    file outside the snapshot area as they were. *)
Theorem failed_edit_changes_nothing action path p undo w r undo' w' :
  edit action path p undo w = (r, undo', w') -> ~ succeeded r -> undo' = undo /\ unchanged w w'.
Proof using LawfulWorkspace0 LawfulBackend0.
  intros He Hr. pose proof (execute_outcome action path p undo w) as Ho. rewrite He in Ho.
  destruct Ho as [(? & ? & _)|[? _]]; [by split|done].
Qed.

(** a successful [str_replace] without [replace_all] replaces one place of the
    file: the only occurrence of [old_str] (another could only overlap it), or
    without one the only run of lines that resembles it in the sense of the first
    strategy that finds a single run. Every other file is as it was. *)
Theorem str_replace_edits_one_place path p undo w r undo' w' old new :
  edit (u "str_replace") path p undo w = (r, undo', w') -> succeeded r ->
  old_str p = Some old -> new_str p = Some new -> replace_all p = false ->
  exists content content', ws_read path w = Ok content /\ one_place content old new content' /\ holds path content' w w'.
Proof using LawfulWorkspace0 LawfulBackend0.
  intros He Hr Ho Hn Ha. unfold execute in He.
  replace (action_of (u "str_replace")) with (Some StrReplace) in He by (vm_compute; reflexivity).
  destruct (is_internal_snapshot_path path); [by simplify_eq|]. cbn [run_handler] in He. unfold _str_replace in He.
  rewrite Ho, Hn, Ha in He. destruct (ws_read path w) as [content|e] eqn:Er.
  2: { destruct (isinstance e (u "FileNotFoundError")); simplify_eq; [done|]. by apply reported_fails in Hr. }
  destruct (plan_edit path content old new false) as [msg|[text md]] eqn:Ep; [by simplify_eq|].
  exists content, text. split; [done|]. split; [by eapply plan_edit_one_place|].
  pose proof (snapshot_write_holds path content text w) as Hw.
  destruct (_write_locked _ _ _ _ _) as [[[]|e] w1]; simpl in He; simplify_eq; [by apply (Hw (Ok tt))|].
  by apply reported_fails in Hr.
Qed.

(** [w2] holds the files of [w]; a missing file may raise another exception of the
    same class. *)
Definition restored (path : pystr) (w w2 : W) : Prop := forall q, private q = false ->
  match ws_read q w with
  | Ok text => ws_read q w2 = Ok text
  | Err e => if alias q path then exists e', ws_read q w2 = Err e' /\ isinstance e' (u "FileNotFoundError") = true
             else ws_read q w2 = Err e
  end.

Lemma undo_outcome path undo w p r undo' w' : edit (u "undo_edit") path p undo w = (r, undo', w') ->
  (~ succeeded r /\ undo' = undo /\ unchanged w w') \/
  (succeeded r /\ dict_get path undo = Some None /\ gone path w w') \/
  (succeeded r /\ exists text, dict_get path undo = Some (Some text) /\ holds path text w w').
Proof using LawfulWorkspace0 LawfulBackend0.
  intros He. pose proof (execute_outcome (u "undo_edit") path p undo w) as Ho. rewrite He in Ho.
  replace (action_of (u "undo_edit")) with (Some UndoEdit) in Ho by (vm_compute; reflexivity). simpl in Ho.
  destruct Ho as [(-> & Hu & Hv)|[Hr _]]; [left; split; [intros Hr; by specialize (Hv Hr)|done]|].
  right. unfold execute in He. replace (action_of (u "undo_edit")) with (Some UndoEdit) in He by (vm_compute; reflexivity).
  destruct (is_internal_snapshot_path path); [by simplify_eq|]. cbn [run_handler] in He. unfold _undo_edit in He.
  destruct (dict_get path undo) as [[text|]|] eqn:Eu; [| |by simplify_eq].
  - right. split; [done|]. exists text. split; [done|].
    pose proof (write_holds path text w) as Hw.
    destruct (match ws_read path w with Ok t => Ok t | Err e => if isinstance e (u "FileNotFoundError") then Ok [] else Err e end).
    2: { simplify_eq. by apply reported_fails in Hr. }
    destruct (_write_locked _ _ _ _ _) as [[[]|e] w1]; simpl in He; simplify_eq; [by apply (Hw (Ok tt))|].
    by apply reported_fails in Hr.
  - left. split; [done|]. split; [done|]. pose proof (delete_gone path w) as Hw.
    destruct (_write_locked _ _ _ _ _) as [[[]|e] w1]; simpl in He; simplify_eq; [by apply (Hw (Ok tt))|].
    by apply reported_fails in Hr.
Qed.

(** undoing the last action on a path (a creation, replacement, insertion, or an
    undo of one of them) gives every file its text of before the action; if the
    undo fails it changes nothing and can be repeated. *)
Theorem undo_restores action path p undo w r undo1 w1 p2 r2 undo2 w2 :
  edit action path p undo w = (r, undo1, w1) -> succeeded r -> private path = false ->
  action_of action <> Some View -> is_ok (ws_read path w) = true \/ action_of action = Some Create ->
  edit (u "undo_edit") path p2 undo1 w1 = (r2, undo2, w2) ->
  (succeeded r2 /\ restored path w w2) \/ (~ succeeded r2 /\ undo2 = undo1 /\ unchanged w1 w2).
Proof using LawfulWorkspace0 LawfulBackend0.
  intros He Hr Hp Hv Hok He2. pose proof (execute_outcome action path p undo w) as Ho. rewrite He in Ho.
  assert (default View (action_of action) <> View) as Hv'.
  { intros Ha. destruct (action_of action) eqn:Ea; simpl in Ha; [by subst|]. unfold execute in He. rewrite Ea in He. by simplify_eq. }
  destruct Ho as [(_ & _ & Hs)|[_ Heff]]; [by specialize (Hs Hr)|].
  destruct (undo_outcome _ _ _ _ _ _ _ He2) as [?|[(Hs & Hd & Hg)|(Hs & text & Hd & Hh2)]]; [by right|left..]; (split; [done|]).
  - intros q Hq. specialize (Hg q Hq).
    inversion Heff as [? e ? Hr1 Hi Hh|? c ? ? Hr1 Hh|? e ? Hr1 Hi Hg1 Hh|? Hg1 Hh]; subst.
    + specialize (Hh q Hq). destruct (alias q path) eqn:Ea; [rewrite (alias_read q path w Ea), Hr1; done|].
      rewrite Hg, Hh. by destruct (ws_read q w).
    + by rewrite dict_get_set_eq in Hd.
    + by rewrite dict_get_set_eq in Hd.
    + by rewrite dict_get_pop, decide_True in Hd.
  - intros q Hq. specialize (Hh2 q Hq).
    inversion Heff as [? e ? Hr1 Hi Hh|? c ? ? Hr1 Hh|? e ? Hr1 Hi Hg1 Hh|? Hg1 Hh]; subst.
    + by rewrite dict_get_set_eq in Hd.
    + rewrite dict_get_set_eq in Hd. injection Hd as ->. specialize (Hh q Hq).
      destruct (alias q path) eqn:Ea; [by rewrite (alias_read q path w Ea), Hr1|]. rewrite Hh2, Hh. by destruct (ws_read q w).
    + destruct Hok as [Hok|Hok]; [by rewrite Hr1 in Hok|]. rewrite Hok in *. done.
    + by rewrite dict_get_pop, decide_True in Hd.
Qed.
End Edits.

(** ** Concrete files *)

#[local] Existing Instance disk.
#[local] Existing Instance disk_lawful.

#[local] Instance disk_backend : EditorBackend (list (pystr * pystr)) := {|
  ws_delete p w := if dict_has (same_file p) w then (Ok tt, dict_pop (same_file p) w) else (Err not_found, w);
  ws_list _ _ := Ok [];
  snapshot _ _ w := (Ok tt, w);
|}.

#[local] Instance disk_backend_lawful :
  LawfulBackend by_class (fun p q => bool_decide (same_file p = same_file q)) (fun _ => false).
Proof.
  constructor; [| |done]; intros p q w w'; simpl.
  - destruct (dict_has _ _); [|done]. intros [= <-]. case_bool_decide as Hq; simpl.
    + rewrite Hq, dict_get_pop, decide_True by done. by exists not_found.
    + by rewrite dict_get_pop, decide_False.
  - intros e. destruct (dict_has _ _); [done|]. by intros [= _ <-].
Defined.

Definition replacing (old new : pystr) : Params := {|
  view_range := None; file_text := None; old_str := Some old; new_str := Some new; replace_all := false; insert_line := None |}.

Definition inserting (k : Z) (new : pystr) : Params := {|
  view_range := None; file_text := None; old_str := None; new_str := Some new; replace_all := false; insert_line := Some k |}.

(** The editor without locks and snapshots. *)
Abbreviation plain_edit := (execute by_class 2000 false None false).

(** inserting after a last line that has no line end continues that line. *)
Theorem insert_glues_last_line `{PyRuntime} :
  exists r undo w', plain_edit (u "insert") (u "f") (inserting 1 (u "two")) [] [(u "f", u "one")] = (Ok r, undo, w') /\
    error r = None /\ ws_read (u "f") w' = Ok (u "onetwo" ++ [10%N]).
Proof. do 3 eexists. split; [vm_compute; reflexivity|]. by split. Qed.

(** a line inserted into a file with CRLF line ends gets a bare LF. *)
Theorem insert_mixes_line_ends `{PyRuntime} :
  exists r undo w', plain_edit (u "insert") (u "f") (inserting 1 (u "x")) [] [(u "f", u "a" ++ crlf ++ u "b" ++ crlf)] = (Ok r, undo, w') /\
    error r = None /\ ws_read (u "f") w' = Ok (u "a" ++ crlf ++ u "x" ++ [10%N] ++ u "b" ++ crlf).
Proof. do 3 eexists. split; [vm_compute; reflexivity|]. by split. Qed.

(** a text that occurs at two overlapping places counts as occurring once. *)
Theorem overlapping_matches_pass `{PyRuntime} :
  exists r undo w', plain_edit (u "str_replace") (u "f") (replacing (u "aa") (u "b")) [] [(u "f", u "aaa")] = (Ok r, undo, w') /\
    error r = None /\ ws_read (u "f") w' = Ok (u "ba").
Proof. do 3 eexists. split; [vm_compute; reflexivity|]. by split. Qed.

(** Files with another agent's write, which lands while the lock is waited for. *)
Record Shared := { files : list (pystr * pystr); pending : list (pystr * pystr) }.

#[local] Instance shared_disk : Workspace Shared := {|
  ws_resolve _ _ := Ok tt;
  ws_read p w := match dict_get p (files w) with Some t => Ok t | None => Err not_found end;
  ws_write p c w := (Ok tt, {| files := dict_set p c (files w); pending := pending w |});
  lk_acquire _ _ w := (Ok tt, {| files := foldl (fun d kv => dict_set kv.1 kv.2 d) (files w) (pending w); pending := [] |});
  lk_release _ _ w := (Ok tt, w);
|}.

#[local] Instance shared_backend : EditorBackend Shared := {|
  ws_delete p w := (Ok tt, {| files := dict_pop p (files w); pending := pending w |});
  ws_list _ _ := Ok [];
  snapshot _ _ w := (Ok tt, w);
|}.

(** the file is read before its lock is acquired, so what the previous owner
    writes while this edit waits is overwritten. *)
Theorem waiting_edit_overwrites `{PyRuntime} :
  let w := {| files := [(u "f", ln (u "one") ++ ln (u "two"))]; pending := [(u "f", ln (u "ONE") ++ ln (u "two"))] |} in
  exists r undo w', execute by_class 2000 true (Some (u "me")) false (u "str_replace") (u "f")
      (replacing (u "two") (u "TWO")) [] w = (Ok r, undo, w') /\
    error r = None /\ ws_read (u "f") w' = Ok (ln (u "one") ++ ln (u "TWO")).
Proof. do 3 eexists. split; [vm_compute; reflexivity|]. by split. Qed.

(** ** Witnesses *)

#[local] Instance plain_runtime : PyRuntime := decoding_runtime [].

Abbreviation same_path := (fun p q => bool_decide (same_file p = same_file q)).
Abbreviation nothing_private := (fun _ : pystr => false).

Definition one_file : list (pystr * pystr) := [(u "f", ln (u "def f():") ++ ln (u "  return 1"))].

(** The replaced lines are found by their indentation only. *)
Definition retabbed : Params := replacing ([9%N] ++ ln (u "return 1")) ([9%N] ++ ln (u "return 2")).

Lemma failed_edit_changes_nothing_witness :
  exists r undo' w', plain_edit (u "create") (u "f") no_params [] one_file = (r, undo', w') /\
    undo' = [] /\ unchanged nothing_private one_file w'.
Proof.
  do 3 eexists. split; [vm_compute; reflexivity|].
  apply (failed_edit_changes_nothing by_class same_path nothing_private 2000 false None false
           (u "create") (u "f") no_params [] one_file (Ok (error_result (u "create requires file_text")))).
  - vm_compute. reflexivity.
  - intros ?. done.
Defined.

Lemma str_replace_edits_one_place_witness :
  exists r undo' w', plain_edit (u "str_replace") (u "f") retabbed [] one_file = (r, undo', w') /\
    ws_read (u "f") w' = Ok (ln (u "def f():") ++ ln (u "  return 2")) /\
    exists content content', ws_read (u "f") one_file = Ok content /\
      one_place content ([9%N] ++ ln (u "return 1")) ([9%N] ++ ln (u "return 2")) content' /\
      holds same_path nothing_private (u "f") content' one_file w'.
Proof.
  do 3 eexists. split; [vm_compute; reflexivity|]. split; [vm_compute; reflexivity|].
  eapply (str_replace_edits_one_place by_class same_path nothing_private 2000 false None false (u "f") retabbed [] one_file);
    [vm_compute; reflexivity|reflexivity..].
Defined.

Lemma undo_restores_witness :
  exists r1 undo1 w1 r2 undo2 w2,
    plain_edit (u "str_replace") (u "f") retabbed [] one_file = (r1, undo1, w1) /\
    plain_edit (u "undo_edit") (u "f") no_params undo1 w1 = (r2, undo2, w2) /\
    ((succeeded r2 /\ restored by_class same_path nothing_private (u "f") one_file w2) \/
     (~ succeeded r2 /\ undo2 = undo1 /\ unchanged nothing_private w1 w2)).
Proof.
  do 6 eexists. split; [vm_compute; reflexivity|]. split; [vm_compute; reflexivity|].
  eapply (undo_restores by_class same_path nothing_private 2000 false None false (u "str_replace") (u "f") retabbed [] one_file
           _ _ _ no_params); [vm_compute; reflexivity|reflexivity|reflexivity|by vm_compute|by left|vm_compute; reflexivity].
Defined.
