(* ===== verification/Client.v ===== *)
(** * The model client (kinetic_sdk/llm/client.py)

    [LiteLLMClient]: translation of the conversation into the OpenAI message
    format, parsing of complete and of streamed responses, and the retry loop.
    The [litellm] package is an interface; its response objects are records of the
    attributes the client reads. *)

From stdpp Require Import base gmap strings list sorting.
From Stdlib Require Import ZArith Lia SpecFloat.
From S2P Require Import Prelude Json Types Summary Conversation Budgets.

Section Client.
Context `{PyRuntime}.

Definition attribute_error : pyexn := PyExn (u "AttributeError") [].
Definition type_error_ : pyexn := PyExn (u "TypeError") [].

(** ** Translating messages *)

Definition has_type (ty : pystr) (b : json) : bool :=
  match b with JObj d => match dict_get (u "type") d with Some t => py_eq t (JStr ty) | None => false end | _ => false end.

(** [block.get(key, dflt)] of a dictionary. *)
Definition value_or (key : pystr) (dflt b : json) : json :=
  match b with JObj d => default dflt (dict_get key d) | _ => dflt end.

(** [''.join(parts)], which needs strings. *)
Fixpoint join_text (parts : list json) : result pystr :=
  match parts with
  | [] => Ok []
  | JStr s :: parts' => r <-! join_text parts' ;; Ok (s ++ r)
  | _ :: _ => Err type_error_
  end.

Definition text_part (b : json) : list json := if has_type (u "text") b then [value_or (u "text") (JStr []) b] else [].

Definition _flatten_text (blocks : list json) : result pystr :=
  join_text (concat (map (fun b => match b with JStr _ => [b] | _ => text_part b end) blocks)).

Definition function_call (b : json) : json :=
  JObj [(u "id", value_or (u "id") (JStr []) b); (u "type", JStr (u "function"));
        (u "function", JObj [(u "name", value_or (u "name") (JStr []) b);
           (u "arguments", JStr (json_dumps dumps_default (value_or (u "input") (JObj []) b)))])].

(** Iterating over [content or []]; the keys of a dictionary are not blocks. *)
Definition content_items (content : json) : result (list json) :=
  if negb (truthy content) then Ok []
  else match content with
       | JList l => Ok l
       | JObj _ | JStr _ => Ok []
       | _ => Err type_error_
       end.

Definition _translate_assistant (content : json) : result message :=
  match content with
  | JStr s => Ok [(u "role", JStr (u "assistant")); (u "content", JStr s)]
  | _ =>
    l <-! content_items content ;;
    text <-! join_text (concat (map text_part l)) ;;
    let calls := map function_call (filter (fun b => has_type (u "text") b = false /\ has_type (u "tool_use") b = true) l) in
    Ok ([(u "role", JStr (u "assistant")); (u "content", match text with [] => JNull | _ => JStr text end)]
        ++ match calls with [] => [] | _ => [(u "tool_calls", JList calls)] end)
  end.

Definition image_url (b : json) : json :=
  let source := match value_or (u "source") (JObj []) b with JObj d => JObj d | _ => JObj [] end in
  JObj [(u "type", JStr (u "image_url"));
        (u "image_url", JObj [(u "url", JStr (u "data:" ++ py_str (value_or (u "media_type") (JStr (u "image/png")) source)
           ++ u ";base64," ++ py_str (value_or (u "data") (JStr []) source)))])].

Fixpoint _translate_content_blocks (content : list json) : result (list json) :=
  match content with
  | [] => Ok []
  | JObj d :: rest =>
    r <-! _translate_content_blocks rest ;;
    Ok ((if has_type (u "image") (JObj d) then image_url (JObj d) else JObj d) :: r)
  | _ :: _ => Err attribute_error
  end.

Definition tool_message (b : json) : message :=
  [(u "role", JStr (u "tool")); (u "tool_call_id", value_or (u "tool_use_id") (JStr []) b);
   (u "content", value_or (u "content") (JStr []) b)].

Definition is_result (b : json) : bool := has_type (u "tool_result") b.

(** The messages that one message becomes. *)
Definition translate_message (m : message) : result (list message) :=
  let role := default JNull (dict_get (u "role") m) in
  let content := default JNull (dict_get (u "content") m) in
  if py_eq role (JStr (u "assistant")) then a <-! _translate_assistant content ;; Ok [a]
  else match py_eq role (JStr (u "user")), content with
  | true, JList l =>
    let results := filter (fun b => is_result b = true) l in
    let extras := filter (fun b => is_result b = false) l in
    match results with
    | [] => r <-! _translate_content_blocks l ;; Ok [[(u "role", JStr (u "user")); (u "content", JList r)]]
    | _ =>
      match extras with
      | [] => Ok (map tool_message results)
      | _ => t <-! _flatten_text extras ;;
             Ok (map tool_message results ++ [[(u "role", JStr (u "user")); (u "content", JStr t)]])
      end
    end
  | _, JList l => t <-! _flatten_text l ;; Ok [[(u "role", role); (u "content", JStr t)]]
  | _, _ => Ok [[(u "role", role); (u "content", content)]]
  end.

Fixpoint translate_each (ms : list message) : result (list message) :=
  match ms with
  | [] => Ok []
  | m :: ms' => a <-! translate_message m ;; r <-! translate_each ms' ;; Ok (a ++ r)
  end.

Definition _translate_messages (ms : list message) (system : option pystr) : result (list message) :=
  r <-! translate_each ms ;;
  Ok (match system with
      | Some ((_ :: _) as s) => [(u "role", JStr (u "system")); (u "content", JStr s)] :: r
      | _ => r
      end).

Definition translate_tool (t : jdict) : json :=
  JObj [(u "type", JStr (u "function"));
        (u "function", JObj [(u "name", default (JStr []) (dict_get (u "name") t));
           (u "description", default (JStr []) (dict_get (u "description") t));
           (u "parameters", default (JObj []) (dict_get (u "input_schema") t))])].

Definition _translate_tools (tools : option (list jdict)) : option (list json) :=
  match tools with
  | None | Some [] => None
  | Some l => Some (map translate_tool l)
  end.

(** ** Responses

    Attributes of the provider's objects, as [getattr] with the code's default
    gives them. *)

Record RawCall := {
  rc_id : json;
  rc_index : option Z;
  (** name and arguments, when there is a [function] *)
  rc_function : option (json * json);
}.

Record RawMessage := { rm_content : json; rm_calls : list RawCall }.

Record RawUsage := { prompt_tokens : json; completion_tokens : json }.

Record RawResponse := {
  (** [choices[0]], if there is one: its message and finish reason *)
  rr_choice : option (option RawMessage * json);
  rr_usage : option RawUsage;
}.

(** A tool call whose parts are what the provider sent. *)
Record ParsedCall := { pcall_id : json; pcall_name : json; pcall_arguments : json }.

Record Response := { resp_content : pystr; resp_calls : list ParsedCall; resp_stop : json; resp_usage : jdict }.

Definition raw_arguments (raw : json) : json := JObj [(u "_raw", raw)].

Definition parse_arguments (raw : json) : json :=
  match raw with
  | JStr s => match json_loads s with Some v => v | None => raw_arguments raw end
  | _ => if truthy raw then raw else JObj []
  end.

Definition parse_call (c : RawCall) : option ParsedCall :=
  match rc_function c with
  | None => None
  | Some (name, args) =>
    Some {| pcall_id := rc_id c; pcall_name := name; pcall_arguments := parse_arguments args |}
  end.

Definition _map_stop_reason (finish : json) : json :=
  match finish with
  | JStr s =>
    if decide (s = u "stop") then JStr (u "end_turn")
    else if decide (s = u "length") then JStr (u "max_tokens")
    else if decide (s = u "tool_calls") then JStr (u "tool_use")
    else if decide (s = u "function_call") then JStr (u "tool_use")
    else if decide (s = u "content_filter") then JStr (u "end_turn")
    else finish
  | _ => finish
  end.

Definition _parse_usage (usage : option RawUsage) : jdict :=
  match usage with
  | None => []
  | Some us =>
    (match prompt_tokens us with JNull => [] | x => [(u "input_tokens", x)] end)
    ++ (match completion_tokens us with JNull => [] | x => [(u "output_tokens", x)] end)
  end.

Definition parse_llm_response (raw : RawResponse) : Response :=
  let msg := match rr_choice raw with Some (m, _) => m | None => None end in
  {| resp_content := match msg with
                     | Some m => if truthy (rm_content m) then py_str (rm_content m) else []
                     | None => []
                     end;
     resp_calls := match msg with Some m => omap parse_call (rm_calls m) | None => [] end;
     resp_stop := match rr_choice raw with Some (_, f) => _map_stop_reason f | None => JNull end;
     resp_usage := _parse_usage (rr_usage raw) |}.

(** [cost]: what [litellm.completion_cost] returned, or [None] if it raised. *)
Definition _attach_cost (cost : option json) (r : Response) : result Response :=
  match cost with
  | Some c =>
    match as_float (Some c) with
    | Some f =>
      if match c with JFloat x => fl_lt (S754_zero false) x | _ => match as_int (Some c) with Some z => (0 <? z)%Z | None => false end end
      then v <-! f ;;
           Ok {| resp_content := resp_content r; resp_calls := resp_calls r; resp_stop := resp_stop r;
                 resp_usage := dict_set (u "cost_usd") (JFloat v) (resp_usage r) |}
      else Ok r
    | None => Ok r
    end
  | None => Ok r
  end.

(** ** Streams *)

Record Slot := { slot_id : pystr; slot_name : pystr; slot_args : list pystr }.

(** A fragment of a tool call; the strings are empty where the attribute is
    missing or [None]. *)
Record Fragment := { f_index : option Z; f_id : pystr; f_function : option (pystr * pystr) }.

Record Chunk := {
  k_choice : option (pystr * list Fragment * json);
  k_usage : option RawUsage;
}.

Definition empty_slot : Slot := {| slot_id := []; slot_name := []; slot_args := [] |}.

Definition or_else (x old : pystr) : pystr := match x with [] => old | _ => x end.

Definition fill_slot (id name args : pystr) (s : Slot) : Slot := {|
  slot_id := or_else id (slot_id s); slot_name := or_else name (slot_name s);
  slot_args := slot_args s ++ match args with [] => [] | _ => [args] end |}.

Definition fragment_index (f : Fragment) : Z := default 0%Z (f_index f).

Definition add_fragment (slots : list (Z * Slot)) (f : Fragment) : list (Z * Slot) :=
  match f_function f with
  | None => slots
  | Some (name, args) =>
    let i := fragment_index f in
    dict_set i (fill_slot (f_id f) name args (default empty_slot (dict_get i slots))) slots
  end.

(** [text_buf], [tool_fragments], [stop_reason] and [usage]. *)
Record StreamState := {
  text_buf : list pystr;
  tool_fragments : list (Z * Slot);
  st_stop : json;
  st_usage : jdict;
}.

(** One chunk: the text event it yields, if any, and the new accumulators. *)
Definition add_chunk (s : StreamState) (c : Chunk) : option pystr * StreamState :=
  match k_choice c with
  | None => (None, s)
  | Some (text, frags, finish) =>
    (match text with [] => None | _ => Some text end,
     {| text_buf := text_buf s ++ match text with [] => [] | _ => [text] end;
        tool_fragments := foldl add_fragment (tool_fragments s) frags;
        st_stop := if truthy finish then _map_stop_reason finish else st_stop s;
        st_usage := foldl (fun d kv => dict_set kv.1 kv.2 d) (st_usage s) (_parse_usage (k_usage c)) |})
  end.

Definition _tool_call_from_fragments (s : Slot) : ParsedCall :=
  let raw := concat (slot_args s) in
  {| pcall_id := JStr (slot_id s); pcall_name := JStr (slot_name s);
     pcall_arguments := match raw with
                        | [] => JObj []
                        | _ => match json_loads raw with Some v => v | None => raw_arguments (JStr raw) end
                        end |}.

Definition by_index (a b : Z * Slot) : Prop := (a.1 <= b.1)%Z.
#[local] Instance by_index_dec a b : Decision (by_index a b).
Proof. unfold by_index. apply _. Defined.

Definition sorted_slots (slots : list (Z * Slot)) : list Slot := map snd (merge_sort by_index slots).

Fixpoint add_chunks (cs : list Chunk) (s : StreamState) : list pystr * StreamState :=
  match cs with
  | [] => ([], s)
  | c :: cs' =>
    let '(ev, s1) := add_chunk s c in
    let '(evs, s2) := add_chunks cs' s1 in (option_list ev ++ evs, s2)
  end.

(** [chat_stream] over the chunks of the stream: the text events and the response
    of the final [done] event. *)
Definition chat_stream (cs : list Chunk) : list pystr * Response :=
  let '(evs, s) := add_chunks cs {| text_buf := []; tool_fragments := []; st_stop := JNull; st_usage := [] |} in
  (evs, {| resp_content := concat (text_buf s);
           resp_calls := map _tool_call_from_fragments (sorted_slots (tool_fragments s));
           resp_stop := st_stop s; resp_usage := st_usage s |}).
End Client.

(** ** Retries *)

Record RetryConfig := { max_retries : Z; retry_base_delay : pyfloat; retry_max_delay : pyfloat }.

(** An exception of the provider, with its [status_code] when that is an [int]. *)
Record LLMError := { le_exn : pyexn; status_code : option Z }.

Definition _is_retryable (e : LLMError) : bool :=
  let by_name := existsb (fun m => contains m (lower (exn_type (le_exn e))))
    [u "timeout"; u "connection"; u "ratelimit"; u "rate_limit"; u "unavailable"] in
  match status_code e with
  | Some s =>
    if (s =? 408)%Z || (s =? 409)%Z || (s =? 429)%Z || (500 <=? s)%Z then true
    else if (400 <=? s)%Z && (s <? 500)%Z then false
    else by_name
  | None => by_name
  end.

Section Retry.
Context {W R : Type}.
(** [litellm.completion] of the request, and [random.uniform] with [time.sleep]. *)
Variable completion : W -> (R + LLMError) * W.
Variable back_off : pyfloat -> W -> W.
Variable cfg : RetryConfig.

(** [min(base * 2 ** (attempt - 1), max)]; the jitter is part of [back_off]. *)
Definition delay (attempt : Z) : pyfloat :=
  let d := fl_mul (retry_base_delay cfg) (fl_of_Z (2 ^ (attempt - 1))) in
  if fl_lt (retry_max_delay cfg) d then retry_max_delay cfg else d.

(** [None]: the measure ran out. *)
Fixpoint completion_loop (fuel : nat) (attempt : Z) (w : W) : option ((R + LLMError) * W) :=
  match fuel with
  | O => None
  | S fuel =>
    match completion w with
    | (inl r, w1) => Some (inl r, w1)
    | (inr e, w1) =>
      if (max_retries cfg <=? attempt)%Z || negb (_is_retryable e) then Some (inr e, w1)
      else completion_loop fuel (attempt + 1) (back_off (delay (attempt + 1)) w1)
    end
  end.

Definition _completion_with_retry (w : W) : option ((R + LLMError) * W) :=
  completion_loop (S (Z.to_nat (max_retries cfg))) 0 w.
End Retry.

(** ** Pairing in the OpenAI format *)

Definition call_ids (m : message) : list pystr :=
  match dict_get (u "tool_calls") m with
  | Some (JList l) => omap (fun c => as_str (jget (u "id") c)) l
  | _ => []
  end.

Definition is_tool_message (m : message) : bool :=
  match dict_get (u "role") m with Some (JStr r) => bool_decide (r = u "tool") | _ => false end.

(** What providers of that format require: the calls of an assistant message are
    answered by one tool message each, in order, before anything else. *)
Definition oa_step (waiting : list pystr) (m : message) : option (list pystr) :=
  match waiting, is_tool_message m with
  | [], false => Some (call_ids m)
  | w :: waiting', true => if decide (dict_get (u "tool_call_id") m = Some (JStr w)) then Some waiting' else None
  | _, _ => None
  end.

Fixpoint oa_scan (waiting : list pystr) (ms : list message) : option (list pystr) :=
  match ms with
  | [] => Some waiting
  | m :: ms' => match oa_step waiting m with Some w => oa_scan w ms' | None => None end
  end.

Definition role_of (m : message) : json := default JNull (dict_get (u "role") m).

(** A message as [ConversationState] makes them: calls are the assistant's and
    have string ids, results are the user's, alone in their message. *)
Definition shaped (m : message) : Prop :=
  role_of m <> JStr (u "tool") /\
  (forall b, b ∈ blocks m -> has_type (u "tool_use") b = true ->
     role_of m = JStr (u "assistant") /\ exists i, jget (u "id") b = Some (JStr i)) /\
  (forall b, b ∈ blocks m -> has_type (u "tool_result") b = true ->
     role_of m = JStr (u "user") /\ (exists i, jget (u "tool_use_id") b = Some (JStr i)) /\
     forall b', b' ∈ blocks m -> has_type (u "tool_result") b' = true).

Lemma py_eq_str j s : py_eq j (JStr s) = true <-> j = JStr s.
Proof.
  destruct j; simpl; try (split; [done|congruence]). rewrite bool_decide_eq_true. split; congruence.
Qed.

Lemma has_type_iff ty b : has_type ty b = true <-> exists d, b = JObj d /\ dict_get (u "type") d = Some (JStr ty).
Proof.
  destruct b as [| | | | | |d]; simpl; try (split; [done|by intros (? & ? & ?)]).
  destruct (dict_get (u "type") d) as [t|] eqn:E; [|split; [done|intros (d' & [= <-] & ?); congruence]].
  rewrite py_eq_str. split; [intros ->; by exists d|intros (d' & [= <-] & ?); congruence].
Qed.

Lemma block_id_typed ty key b i : has_type ty b = true -> jget key b = Some (JStr i) -> block_id ty key b = Some i.
Proof. intros (d & -> & Ht)%has_type_iff. simpl. intros Hk. by rewrite decide_True, Hk by done. Qed.

Lemma block_id_untyped ty key b : has_type ty b = false -> block_id ty key b = None.
Proof.
  intros Hb. destruct b as [| | | | | |d]; try done. simpl. case_decide as Ht; [|done].
  assert (has_type ty (JObj d) = true) by (apply has_type_iff; by exists d). congruence.
Qed.

Lemma types_exclusive ty ty' b : has_type ty b = true -> ty <> ty' -> has_type ty' b = false.
Proof.
  intros (d & -> & Ht)%has_type_iff Hne. destruct (has_type ty' (JObj d)) eqn:E; [|done].
  apply has_type_iff in E as (d' & [= <-] & Ht'). congruence.
Qed.

(** The ids of the blocks of one type. *)
Lemma block_ids_filter ty key (l : list json) : (forall b, b ∈ l -> has_type ty b = true -> exists i, jget key b = Some (JStr i)) ->
  omap (block_id ty key) l = omap (fun b => as_str (jget key b)) (filter (fun b => has_type ty b = true) l).
Proof.
  induction l as [|b l IH]; intros Hl; [done|]. cbn [omap list_omap].
  assert (forall b', b' ∈ l -> has_type ty b' = true -> exists i, jget key b' = Some (JStr i)) as Hl'.
  { intros b' Hb'. apply Hl. by apply list_elem_of_further. }
  rewrite filter_cons. case_decide as Ht.
  - destruct (Hl b (list_elem_of_here _ _) Ht) as [i Hi]. cbn [omap list_omap].
    rewrite (block_id_typed _ _ _ i), Hi by done. cbn [as_str]. by rewrite <- IH.
  - rewrite block_id_untyped by (by destruct (has_type ty b)). by apply IH.
Qed.

Section Translation.
Context `{PyRuntime}.

Lemma filter_both (l : list json) : filter (fun b => has_type (u "text") b = false /\ has_type (u "tool_use") b = true) l =
  filter (fun b => has_type (u "tool_use") b = true) l.
Proof.
  induction l as [|b l IH]; [done|]. rewrite !filter_cons, IH.
  destruct (has_type (u "tool_use") b) eqn:E.
  - rewrite !decide_True; [done|done|]. split; [by apply (types_exclusive (u "tool_use"))|done].
  - rewrite !decide_False; [done|done|]. by intros [_ ?].
Qed.

Lemma function_call_ids (cs : list json) : (forall b, b ∈ cs -> exists i, jget (u "id") b = Some (JStr i)) ->
  omap (fun c => as_str (jget (u "id") c)) (map function_call cs) = omap (fun b => as_str (jget (u "id") b)) cs.
Proof.
  induction cs as [|b cs IH]; intros Hcs; [done|]. cbn [map omap list_omap].
  destruct (Hcs b (list_elem_of_here _ _)) as [i Hi]. rewrite IH by (intros b' Hb'; apply Hcs; by apply list_elem_of_further).
  rewrite Hi. unfold function_call. destruct b as [| | | | | |d]; try done. simpl in Hi. simpl. by rewrite Hi.
Qed.

(** The assistant message for these blocks and this text. *)
Definition assistant_out (text : pystr) (calls : list json) : message :=
  [(u "role", JStr (u "assistant")); (u "content", match text with [] => JNull | _ => JStr text end)]
  ++ match calls with [] => [] | _ => [(u "tool_calls", JList calls)] end.

Lemma assistant_out_ids text cs : is_tool_message (assistant_out text cs) = false /\
  call_ids (assistant_out text cs) = omap (fun c => as_str (jget (u "id") c)) cs.
Proof. split; [done|]. by destruct cs. Qed.

Definition content_blocks (content : json) : list json := match content with JList l => l | _ => [] end.

Lemma content_items_blocks content l : content_items content = Ok l -> l = content_blocks content.
Proof.
  unfold content_items. destruct content as [|b|z|f|s|l'|d]; simpl;
    repeat match goal with |- context [if ?b then _ else _] => destruct b eqn:? end; try done; try by intros [= <-].
  intros [= <-]. by destruct l'.
Qed.

Lemma assistant_calls content a : _translate_assistant content = Ok a ->
  (forall b, b ∈ content_blocks content -> has_type (u "tool_use") b = true -> exists i, jget (u "id") b = Some (JStr i)) ->
  is_tool_message a = false /\ call_ids a = omap (block_id (u "tool_use") (u "id")) (content_blocks content).
Proof.
  intros Ha Hid. rewrite block_ids_filter by done.
  assert ((exists s, content = JStr s) \/ forall s, content <> JStr s) as [[s ->]|Hns].
  { destruct content; try (right; congruence). left. by eexists. }
  { simpl in Ha. by injection Ha as <-. }
  assert (_translate_assistant content =
    (l <-! content_items content ;; text <-! join_text (concat (map text_part l)) ;;
     Ok (assistant_out text (map function_call
       (filter (fun b => has_type (u "text") b = false /\ has_type (u "tool_use") b = true) l))))) as Heq
    by (destruct content; try done; by destruct (Hns s)).
  rewrite Heq in Ha. destruct (content_items content) as [l|] eqn:E; [|done]. apply content_items_blocks in E as ->.
  cbn [rbind] in Ha. destruct (join_text _) as [text|]; [|done]. cbn [rbind] in Ha. injection Ha as <-.
  rewrite filter_both. destruct (assistant_out_ids text (map function_call
    (filter (fun b => has_type (u "tool_use") b = true) (content_blocks content)))) as [H1 H2].
  split; [done|]. rewrite H2. apply function_call_ids.
  intros b Hb. apply list_elem_of_filter in Hb as [Ht Hb]. by apply Hid.
Qed.

Lemma filter_none (l : list json) : (forall b, b ∈ l -> is_result b = true) ->
  filter (fun b => is_result b = false) l = [] /\ filter (fun b => is_result b = true) l = l.
Proof.
  induction l as [|b l IH]; intros Hl; [done|]. rewrite !filter_cons.
  destruct IH as [H1 H2]; [intros b' Hb'; apply Hl; by apply list_elem_of_further|].
  pose proof (Hl b (list_elem_of_here _ _)) as Hb. rewrite decide_False, decide_True by (simpl; congruence). by rewrite H1, H2.
Qed.

Lemma no_ids ty key (l : list json) : (forall b, b ∈ l -> has_type ty b = false) -> omap (block_id ty key) l = [].
Proof.
  induction l as [|b l IH]; intros Hl; [done|]. cbn [omap list_omap]. rewrite block_id_untyped by (apply Hl, list_elem_of_here).
  apply IH. intros b' Hb'. apply Hl. by apply list_elem_of_further.
Qed.

(** A message whose content mentions no calls and no results. *)
Lemma scan_plain w w' m : use_ids m = [] -> result_ids m = [] -> scan_step w m = Some w' -> w = [] /\ w' = [].
Proof. unfold scan_step. intros -> ->. destruct w; [by intros [= <-]|done]. Qed.

(** One message. *)
Lemma translate_step m out w w' : shaped m -> translate_message m = Ok out -> scan_step w m = Some w' ->
  oa_scan w out = Some w'.
Proof.
  intros (Hrole & Huse & Hres) Ht Hs. unfold translate_message in Ht. fold (role_of m) in Ht.
  set (content := default JNull (dict_get (u "content") m)) in *.
  assert (blocks m = content_blocks content) as Hb
    by (unfold blocks, content; by destruct (dict_get (u "content") m) as [[]|]).
  clearbody content.
  destruct (py_eq (role_of m) (JStr (u "assistant"))) eqn:Ea.
  { apply py_eq_str in Ea. destruct (_translate_assistant content) as [a|] eqn:E; [|done]. injection Ht as <-.
    rewrite Hb in Huse. apply assistant_calls in E as [H1 H2]; [|intros b Hin Hty; by apply Huse].
    assert (result_ids m = []) as Hr.
    { apply no_ids. intros b Hin. destruct (has_type _ b) eqn:Hty; [|done]. destruct (Hres b Hin Hty) as [Hu _]. by rewrite Ea in Hu. }
    unfold scan_step in Hs. rewrite Hr in Hs. simpl. unfold oa_step. rewrite H1, H2, <- Hb.
    destruct w as [|x w]; [by injection Hs as <-|]. by destruct (use_ids m). }
  assert (forall b, b ∈ blocks m -> has_type (u "tool_use") b = false) as Hnu.
  { intros b Hin. destruct (has_type _ b) eqn:Hty; [|done]. destruct (Huse b Hin Hty) as [Hu _].
    rewrite Hu in Ea. by rewrite (proj2 (py_eq_str _ _) eq_refl) in Ea. }
  assert (use_ids m = []) as Hu by (by apply no_ids).
  assert (forall r c, role_of m = r -> is_tool_message [(u "role", r); (u "content", c)] = false) as Hnt.
  { intros r c <-. unfold is_tool_message. simpl. destruct (role_of m) as [| | | |x| |] eqn:E; try done.
    apply bool_decide_eq_false_2. intros ->. by destruct Hrole. }
  assert (forall r c, role_of m = r -> result_ids m = [] -> oa_scan w [[(u "role", r); (u "content", c)]] = Some w') as Hplain.
  { intros r c Hr Hri. destruct (scan_plain w w' m Hu Hri Hs) as [-> ->]. simpl. unfold oa_step. by rewrite (Hnt r c Hr). }
  destruct (py_eq (role_of m) (JStr (u "user"))) eqn:Eu.
  - apply py_eq_str in Eu. destruct content as [| | | | |l|] eqn:Ec;
      try (injection Ht as <-; apply Hplain; [done|]; apply no_ids; intros b' Hin; rewrite Hb in Hin; by apply not_elem_of_nil in Hin).
    simpl in Hb. destruct (filter (fun b => is_result b = true) l) as [|b bs] eqn:Ef.
    + destruct (_translate_content_blocks l) as [r|]; [|done]. injection Ht as <-. apply Hplain; [done|].
      apply no_ids. rewrite Hb. intros b Hin. destruct (has_type _ b) eqn:Hty; [|done].
      assert (b ∈ filter (fun b => is_result b = true) l) as Hf by (by apply list_elem_of_filter).
      rewrite Ef in Hf. by apply not_elem_of_nil in Hf.
    + assert (b ∈ l) as Hin.
      { assert (b ∈ filter (fun b => is_result b = true) l) as Hf by (rewrite Ef; apply list_elem_of_here).
        by apply list_elem_of_filter in Hf as [_ ?]. }
      assert (is_result b = true) as Hbr.
      { assert (b ∈ filter (fun b => is_result b = true) l) as Hf by (rewrite Ef; apply list_elem_of_here).
        by apply list_elem_of_filter in Hf as [? _]. }
      assert (forall b', b' ∈ l -> is_result b' = true) as Hall.
      { rewrite Hb in Hres. destruct (Hres b Hin Hbr) as (_ & _ & Hall). exact Hall. }
      destruct (filter_none l Hall) as [Hfn Hfa]. rewrite Hfn in Ht. injection Ht as <-. rewrite Hfa in Ef. subst l.
      assert (exists i, jget (u "tool_use_id") b = Some (JStr i)) as [i Hi].
      { rewrite Hb in Hres. by destruct (Hres b Hin Hbr) as (_ & Hi & _). }
      unfold scan_step in Hs. rewrite Hu in Hs. unfold result_ids in Hs. rewrite Hb in Hs. simpl in Hs.
      rewrite (block_id_typed _ _ _ i Hbr Hi) in Hs. destruct w as [|x w]; [done|].
      destruct bs as [|b2 bs].
      * simpl in Hs. case_decide as Hx; [|done]. injection Hs as <-. subst x. simpl. unfold oa_step. simpl.
        destruct b as [| | | | | |d]; try done. simpl in Hi |- *. rewrite Hi. simpl. by rewrite decide_True.
      * simpl in Hs. assert (is_result b2 = true) as Hb2 by (apply Hall, list_elem_of_further, list_elem_of_here).
        assert (exists i, jget (u "tool_use_id") b2 = Some (JStr i)) as [i2 Hi2].
        { rewrite Hb in Hres. destruct (Hres b2) as (_ & Hi2 & _); [apply list_elem_of_further, list_elem_of_here|done|done]. }
        by rewrite (block_id_typed _ _ _ i2 Hb2 Hi2) in Hs.
  - assert (result_ids m = []) as Hri.
    { apply no_ids. intros b Hin. destruct (has_type _ b) eqn:Hty; [|done]. destruct (Hres b Hin Hty) as [Hr _].
      rewrite Hr in Eu. by rewrite (proj2 (py_eq_str _ _) eq_refl) in Eu. }
    destruct content as [| | | | |l|]; try (injection Ht as <-; by apply Hplain).
    destruct (_flatten_text l); [|done]. injection Ht as <-. by apply Hplain.
Qed.

Lemma oa_scan_app w a b : oa_scan w (a ++ b) = match oa_scan w a with Some w' => oa_scan w' b | None => None end.
Proof. revert w; induction a as [|m a IH]; intros w; simpl; [done|]. destruct (oa_step w m); [apply IH|done]. Qed.

Lemma translate_scan ms out w w' : Forall shaped ms -> translate_each ms = Ok out -> replay_scan w ms = Some w' ->
  oa_scan w out = Some w'.
Proof.
  intros HF. revert out w; induction HF as [|m ms Hm _ IH]; intros out w; simpl; [by intros [= <-]|].
  destruct (translate_message m) as [a|] eqn:Ea; [|done]. cbn [rbind]. destruct (translate_each ms) as [r|]; [|done].
  intros [= <-]. destruct (scan_step w m) as [w1|] eqn:Es; [|done]. intros Hr.
  rewrite oa_scan_app, (translate_step m a w w1) by done. by apply IH.
Qed.
End Translation.

(** ** The retry loop *)

Section RetryFacts.
Context {W R : Type}.
Variable completion : W -> (R + LLMError) * W.
Variable back_off : pyfloat -> W -> W.
Variable cfg : RetryConfig.

(** The world after [n] attempts that failed in a retryable way, each followed by
    its delay; [a] attempts were retried before. *)
Fixpoint after_failures (n : nat) (a : Z) (w : W) : option W :=
  match n with
  | O => Some w
  | S n =>
    match completion w with
    | (inr e, w1) => if _is_retryable e then after_failures n (a + 1) (back_off (delay cfg (a + 1)) w1) else None
    | _ => None
    end
  end.

Lemma completion_loop_exact k a w : (0 <= a)%Z -> (Z.of_nat k = max_retries cfg - a)%Z ->
  exists n wn r w', (n <= k)%nat /\ after_failures n a w = Some wn /\ completion wn = (r, w') /\
    completion_loop completion back_off cfg (S k) a w = Some (r, w') /\
    forall e, r = inr e -> n = k \/ _is_retryable e = false.
Proof.
  revert a w; induction k as [|k IH]; intros a w Ha Hk; cbn [completion_loop]; destruct (completion w) as [[r|e] w1] eqn:Ec.
  - exists 0%nat, w, (inl r), w1. by split_and!; try lia.
  - exists 0%nat, w, (inr e), w1. split_and!; try done; [|intros; by left].
    by destruct (Z.leb_spec (max_retries cfg) a); [|lia].
  - exists 0%nat, w, (inl r), w1. by split_and!; try lia.
  - destruct (Z.leb_spec (max_retries cfg) a); [lia|]. destruct (_is_retryable e) eqn:Er; simpl.
    + destruct (IH (a + 1)%Z (back_off (delay cfg (a + 1)) w1)) as (n & wn & r & w' & Hn & Hf & Hc & Hr & He); [lia|lia|].
      exists (S n), wn, r, w'. split; [lia|]. split; [simpl; by rewrite Ec, Er|]. split; [done|]. split; [exact Hr|].
      intros e' Hr'. destruct (He e' Hr') as [-> | ?]; [by left|by right].
    + exists 0%nat, w, (inr e), w1. split; [lia|]. split; [done|]. split; [done|]. split; [done|].
      intros e' [= <-]. by right.
Qed.
End RetryFacts.

(** ** Assembling streamed calls *)

Section StreamFacts.
Context `{PyRuntime}.

(** The fragments of a stream, and those of the call at [i]. *)
Definition fragments (cs : list Chunk) : list Fragment :=
  concat (map (fun c => match k_choice c with Some (_, fs, _) => fs | None => [] end) cs).

Definition frags_at (i : Z) (fs : list Fragment) : list (pystr * (pystr * pystr)) :=
  omap (fun f => match f_function f with
                 | Some na => if decide (fragment_index f = i) then Some (f_id f, na) else None
                 | None => None
                 end) fs.

Definition fill (s : Slot) (x : pystr * (pystr * pystr)) : Slot := fill_slot x.1 x.2.1 x.2.2 s.

Lemma slot_at i fs slots :
  dict_get i (foldl add_fragment slots fs) =
  match frags_at i fs with
  | [] => dict_get i slots
  | l => Some (foldl fill (default empty_slot (dict_get i slots)) l)
  end.
Proof.
  revert slots; induction fs as [|f fs IH]; intros slots; [done|]. cbn [foldl]. rewrite IH.
  unfold add_fragment, frags_at. cbn [omap list_omap]. destruct (f_function f) as [[n a]|]; [|done].
  rewrite dict_get_set. destruct (decide (fragment_index f = i)) as [<-|Hne].
  - rewrite decide_True by done. fold (frags_at (fragment_index f) fs). by destruct (frags_at (fragment_index f) fs).
  - by rewrite decide_False by done.
Qed.

Lemma slots_nodup fs slots : NoDup (map fst slots) -> NoDup (map fst (foldl add_fragment slots fs)).
Proof.
  revert slots; induction fs as [|f fs IH]; intros slots Hs; [done|]. cbn [foldl]. apply IH. unfold add_fragment.
  destruct (f_function f) as [[n a]|]; [by apply dict_set_nodup|done].
Qed.

Lemma sorted_keys_strong (l : list (Z * Slot)) : StronglySorted by_index l -> StronglySorted Z.le (map fst l).
Proof.
  induction 1 as [|a l _ IH Ha]; simpl; constructor; [done|]. apply Forall_map.
  eapply Forall_impl; [exact Ha|]. by intros b.
Qed.

#[local] Instance by_index_trans : Transitive by_index.
Proof. intros a b c. unfold by_index. lia. Qed.
#[local] Instance by_index_total : Total by_index.
Proof. intros a b. unfold by_index. lia. Qed.

(** The slots of indices [0 .. n-1], in this order. *)
Lemma sorted_slots_spec (slots : list (Z * Slot)) n : NoDup (map fst slots) ->
  (forall i, i ∈ map fst slots <-> (0 <= i < n)%Z) ->
  sorted_slots slots = map (fun i => default empty_slot (dict_get i slots)) (seqZ 0 n).
Proof.
  intros Hnd Hk. unfold sorted_slots. set (l := merge_sort by_index slots).
  assert (l ≡ₚ slots) as Hp by apply merge_sort_Permutation.
  assert (map fst l = seqZ 0 n) as Hkeys.
  { apply (Sorted_unique Z.le).
    - apply StronglySorted_Sorted, sorted_keys_strong, StronglySorted_merge_sort; apply _.
    - clear. generalize 0%Z. intros m. apply StronglySorted_Sorted. destruct (Z.le_gt_cases n 0) as [Hn|Hn].
      + rewrite seqZ_nil by done. constructor.
      + replace n with (Z.of_nat (Z.to_nat n)) by lia. generalize (Z.to_nat n). clear. intros k. revert m.
        induction k as [|k IH]; intros m; [rewrite seqZ_nil by lia; constructor|].
        rewrite seqZ_cons by lia. constructor; [replace (Z.pred (Z.of_nat (S k))) with (Z.of_nat k) by lia; apply IH|].
        apply Forall_seqZ. lia.
    - apply NoDup_Permutation; [by rewrite Hp|apply NoDup_seqZ|]. intros i. rewrite Hp, Hk, elem_of_seqZ. lia. }
  rewrite <- Hkeys, map_map. apply map_ext_in. intros [i sl] Hin. simpl. apply list_elem_of_In in Hin.
  rewrite Hp in Hin. by rewrite (dict_get_in i sl).
Qed.

(** The last of the strings that is not empty. *)
Definition last_text (l : list pystr) : pystr := default [] (last (filter (fun x => x <> []) l)).

Lemma or_else_last (l : list pystr) x : foldl (fun old new => or_else new old) x l = default x (last (filter (fun x => x <> []) l)).
Proof.
  induction l as [|y l IH] using rev_ind; [done|]. rewrite foldl_app, filter_app. simpl. rewrite IH.
  destruct y as [|c y].
  - rewrite filter_cons_False by (intros Hn; by apply Hn). by rewrite filter_nil, app_nil_r.
  - rewrite filter_cons_True by done. by rewrite filter_nil, last_snoc.
Qed.

Lemma fill_spec l sl : let r := foldl fill sl l in
  slot_id r = foldl (fun old new => or_else new old) (slot_id sl) (map fst l) /\
  slot_name r = foldl (fun old new => or_else new old) (slot_name sl) (map (fun x => x.2.1) l) /\
  concat (slot_args r) = concat (slot_args sl) ++ concat (map (fun x => x.2.2) l).
Proof.
  revert sl; induction l as [|[id [n a]] l IH]; intros sl; simpl; [by rewrite app_nil_r|].
  destruct (IH (fill sl (id, (n, a)))) as (H1 & H2 & H3). rewrite H1, H2, H3. split; [done|]. split; [done|].
  unfold fill, fill_slot. cbn [slot_args fst snd map concat]. rewrite concat_app, <- app_assoc. f_equal.
  destruct a; [done|]. simpl. by rewrite app_nil_r.
Qed.

(** The chunks of a stream carry these calls (id, name and argument text): the
    fragments of call [k] have index [k], in any interleaving with the others. *)
Definition delivers (fs : list Fragment) (calls : list (pystr * pystr * pystr)) : Prop :=
  (forall i, frags_at i fs <> [] <-> (0 <= i < zlen calls)%Z) /\
  forall k id name args, calls !! k = Some (id, name, args) ->
    last_text (map fst (frags_at (Z.of_nat k) fs)) = id /\
    last_text (map (fun x => x.2.1) (frags_at (Z.of_nat k) fs)) = name /\
    concat (map (fun x => x.2.2) (frags_at (Z.of_nat k) fs)) = args.

Definition streamed_call (c : pystr * pystr * pystr) : ParsedCall :=
  _tool_call_from_fragments {| slot_id := c.1.1; slot_name := c.1.2; slot_args := [c.2] |}.

Lemma fill_call l c : last_text (map fst l) = c.1.1 -> last_text (map (fun x => x.2.1) l) = c.1.2 ->
  concat (map (fun x => x.2.2) l) = c.2 ->
  _tool_call_from_fragments (foldl fill empty_slot l) = streamed_call c.
Proof.
  intros H1 H2 H3. destruct (fill_spec l empty_slot) as (F1 & F2 & F3). rewrite or_else_last in F1, F2.
  unfold streamed_call, _tool_call_from_fragments. rewrite F1, F2, F3. cbn [slot_id slot_name slot_args empty_slot concat app].
  unfold last_text in H1, H2. by rewrite H1, H2, H3, app_nil_r.
Qed.

Lemma stream_slots fs calls : delivers fs calls ->
  map _tool_call_from_fragments (sorted_slots (foldl add_fragment [] fs)) = map streamed_call calls.
Proof.
  intros [Hix Hc].
  assert (forall i, is_Some (dict_get i (foldl add_fragment [] fs)) <-> frags_at i fs <> []) as Hget.
  { intros i. rewrite slot_at. destruct (frags_at i fs); simpl; [split; [by intros [? ?]|done]|]. split; [done|by eexists]. }
  rewrite (sorted_slots_spec _ (zlen calls)).
  - apply list_eq. intros k. rewrite !list_lookup_fmap. unfold zlen at 1. destruct (calls !! k) as [[[cid n] a]|] eqn:E.
    + assert (k < length calls)%nat as Hk by (by eapply lookup_lt_Some).
      rewrite lookup_seqZ_lt by lia. rewrite Z.add_0_l. cbn [fmap option_fmap option_map]. rewrite slot_at. specialize (Hc k cid n a E) as (H1 & H2 & H3).
      assert (frags_at (Z.of_nat k) fs <> []) as Hne by (apply Hix; unfold zlen; lia).
      destruct (frags_at (Z.of_nat k) fs) as [|x l] eqn:El; [done|]. f_equal.
      by apply (fill_call (x :: l) (cid, n, a)).
    + rewrite lookup_seqZ_ge; [done|]. apply lookup_ge_None in E. lia.
  - apply slots_nodup. constructor.
  - intros i. rewrite <- dict_get_key, Hget. apply Hix.
Qed.

Lemma add_chunks_spec cs s : let '(evs, s') := add_chunks cs s in
  tool_fragments s' = foldl add_fragment (tool_fragments s) (fragments cs) /\
  concat (text_buf s') = concat (text_buf s) ++ concat evs.
Proof.
  revert s; induction cs as [|c cs IH]; intros s; simpl; [by rewrite app_nil_r|].
  destruct (add_chunk s c) as [ev s1] eqn:E. specialize (IH s1). destruct (add_chunks cs s1) as [evs s2].
  destruct IH as [H1 H2]. rewrite H1, H2. unfold add_chunk in E. unfold fragments. simpl.
  destruct (k_choice c) as [[[text fs] fin]|]; injection E as <- <-; [|done]. simpl. rewrite foldl_app. split; [done|].
  rewrite concat_app, <- app_assoc. f_equal. destruct text; [done|]. simpl. by rewrite app_nil_r.
Qed.
End StreamFacts.

(** ** Theorems *)


(** a request is repeated exactly while it fails in a retryable way and
    retries are left: the loop ends, with the outcome of its last attempt, after at
    most [max_retries] repetitions, and an error it lets through is either not
    retryable or the last one allowed. *)
Theorem retries_are_exact {W R} (completion : W -> (R + LLMError) * W) back_off cfg w : (0 <= max_retries cfg)%Z ->
  exists n wn r w', (Z.of_nat n <= max_retries cfg)%Z /\
    after_failures completion back_off cfg n 0 w = Some wn /\ completion wn = (r, w') /\
    _completion_with_retry completion back_off cfg w = Some (r, w') /\
    forall e, r = inr e -> Z.of_nat n = max_retries cfg \/ _is_retryable e = false.
Proof.
  intros Hm. destruct (completion_loop_exact completion back_off cfg (Z.to_nat (max_retries cfg)) 0 w)
    as (n & wn & r & w' & Hn & Hf & Hc & Hr & He); [lia|lia|].
  exists n, wn, r, w'. split; [lia|]. split; [done|]. split; [done|]. split; [exact Hr|].
  intros e Hre. destruct (He e Hre) as [-> | ?]; [left; lia|by right].
Qed.

Definition complete_call (c : pystr * pystr * pystr) : RawCall :=
  {| rc_id := JStr c.1.1; rc_index := None; rc_function := Some (JStr c.1.2, JStr c.2) |}.

(** streaming is equivalent to a complete response: however the fragments of
    the calls are split over chunks and interleaved, the final event has the calls
    that parsing the complete calls gives, in order, provided no call has empty
    argument text; the text events add up to the content. *)
Theorem stream_equals_complete_response `{PyRuntime} cs calls finish usage content :
  delivers (fragments cs) calls -> Forall (fun c => c.2 <> []) calls ->
  resp_calls (chat_stream cs).2 =
  resp_calls (parse_llm_response {| rr_choice := Some (Some {| rm_content := content; rm_calls := map complete_call calls |}, finish);
                                 rr_usage := usage |}) /\
  concat (chat_stream cs).1 = resp_content (chat_stream cs).2.
Proof.
  intros Hd Ha. unfold chat_stream.
  pose proof (add_chunks_spec cs {| text_buf := []; tool_fragments := []; st_stop := JNull; st_usage := [] |}) as Hs.
  destruct (add_chunks cs _) as [evs s]. destruct Hs as [H1 H2]. simpl in *. rewrite H1, H2. split; [|done].
  rewrite (stream_slots _ calls Hd). clear -Ha. induction Ha as [|[[i n] a] calls Hc _ IH]; [done|]. simpl in *. rewrite IH.
  f_equal. unfold streamed_call, _tool_call_from_fragments, parse_arguments. simpl. rewrite app_nil_r. by destruct a.
Qed.

(** ** Witnesses *)

(** A decoder that knows one text. *)
#[local] Instance client_runtime : PyRuntime := decoding_runtime [(u "[1]", JList [JInt 1])].

(** a call without argument text is read in two ways: complete, its arguments
    become a dictionary with the key [_raw]; streamed, they become empty. *)
Theorem empty_arguments_differ :
  let complete := {| rr_choice := Some (Some {| rm_content := JNull; rm_calls := [complete_call (u "c", u "now", [])] |}, JNull);
                     rr_usage := None |} in
  let chunk := {| k_choice := Some ([], [{| f_index := Some 0%Z; f_id := u "c"; f_function := Some (u "now", []) |}], JNull);
                  k_usage := None |} in
  map pcall_arguments (resp_calls (parse_llm_response complete)) = [JObj [(u "_raw", JStr [])]] /\
  map pcall_arguments (resp_calls (chat_stream [chunk]).2) = [JObj []].
Proof. split; vm_compute; reflexivity. Qed.

Definition ls_block (i : pystr) : json :=
  JObj [(u "type", JStr (u "tool_use")); (u "id", JStr i); (u "name", JStr (u "ls")); (u "input", JObj [])].

Definition called_history : list message :=
  [user_message (u "task"); assistant_message (JList [ls_block (u "a"); ls_block (u "b")]);
   tool_result_message (u "a") (JStr (u "ok")) false].

(** The conversation it becomes. *)
Definition called_conversation : list message :=
  match _translate_messages called_history (Some (u "be brief")) with Ok out => out | Err _ => [] end.

Lemma user_shaped t : shaped (user_message t).
Proof. split; [done|]. split; intros b Hb; by apply not_elem_of_nil in Hb. Qed.

Lemma result_shaped i o e : shaped (tool_result_message i o e).
Proof.
  split; [done|]. split; intros b Hb; apply list_elem_of_singleton in Hb as ->; [by destruct e|].
  intros _. split; [done|]. split; [by eexists|]. intros b' Hb'. apply list_elem_of_singleton in Hb' as ->. by destruct e.
Qed.

Lemma uses_shaped is' : shaped (assistant_message (JList (map ls_block is'))).
Proof.
  split; [done|]. unfold blocks. simpl. split; intros b Hb; apply list_elem_of_In, in_map_iff in Hb as (i & <- & _); [|done].
  intros _. split; [done|]. by eexists.
Qed.


(** A provider that is overloaded twice. *)
Definition flaky (w : nat) : (pystr + LLMError) * nat :=
  (if (w <? 2)%nat then inr {| le_exn := PyExn (u "ServiceError") (u "busy"); status_code := Some 503%Z |} else inl (u "hello"), S w).

Definition two_retries : RetryConfig :=
  {| max_retries := 2; retry_base_delay := fl_of_Z 1; retry_max_delay := fl_of_Z 8 |}.

Lemma retries_are_exact_witness :
  _completion_with_retry flaky (fun _ w => w) two_retries 0%nat = Some (inl (u "hello"), 3%nat) /\
  exists n wn r w', (Z.of_nat n <= 2)%Z /\ after_failures flaky (fun _ w => w) two_retries n 0 0%nat = Some wn /\
    flaky wn = (r, w') /\ _completion_with_retry flaky (fun _ w => w) two_retries 0%nat = Some (r, w') /\
    forall e, r = inr e -> Z.of_nat n = 2%Z \/ _is_retryable e = false.
Proof.
  split; [vm_compute; reflexivity|]. apply (retries_are_exact flaky (fun _ w => w) two_retries 0%nat). done.
Defined.

(** Two calls whose fragments alternate. *)
Definition fragment (i : Z) (cid name args : pystr) : Fragment :=
  {| f_index := Some i; f_id := cid; f_function := Some (name, args) |}.

Definition chunk_of (text : pystr) (fs : list Fragment) : Chunk := {| k_choice := Some (text, fs, JNull); k_usage := None |}.

Definition interleaved : list Chunk :=
  [chunk_of (u "Let me ") [fragment 1 (u "c2") (u "rm") []]; chunk_of (u "see") [fragment 0 (u "c1") (u "ls") (u "[")];
   chunk_of [] [fragment 1 [] [] (u "[1"); fragment 0 [] [] (u "1]")]; chunk_of [] [fragment 1 [] [] (u "]")]].

Definition both_calls : list (pystr * pystr * pystr) := [(u "c1", u "ls", u "[1]"); (u "c2", u "rm", u "[1]")].

Lemma interleaved_delivers : delivers (fragments interleaved) both_calls.
Proof.
  split.
  - intros i. assert (frags_at i (fragments interleaved) <> [] <-> i = 0%Z \/ i = 1%Z) as ->; [|unfold zlen; simpl; lia].
    unfold frags_at, fragments, interleaved. cbn. unfold fragment_index. cbn.
    destruct (decide (1%Z = i)) as [<-|H1]; [split; [by right|done]|].
    destruct (decide (0%Z = i)) as [<-|H0]; [split; [by left|done]|]. split; [done|]. intros [-> | ->]; done.
  - intros [|[|k]] cid n a; [| |done]; intros [= <- <- <-]; by vm_compute.
Qed.

Lemma stream_equals_complete_response_witness :
  resp_calls (chat_stream interleaved).2 =
  resp_calls (parse_llm_response {| rr_choice := Some (Some {| rm_content := JNull; rm_calls := map complete_call both_calls |}, JNull);
                                 rr_usage := None |}) /\
  concat (chat_stream interleaved).1 = resp_content (chat_stream interleaved).2.
Proof.
  apply (stream_equals_complete_response interleaved both_calls JNull None JNull).
  - apply interleaved_delivers.
  - by repeat constructor.
Defined.
