(* ===== verification/Subagent.v ===== *)
(** * Sub-agents (kinetic_sdk/subagent/delegation.py, pool.py, tool.py)

    The guard around a sub-agent's model client, spawning and running a sub-agent,
    the delegation tool and the concurrent pool. Budgets and circuit breakers are
    mutable objects shared by reference, so they live in a heap; running an agent
    to its final message is a parameter (AgentLoop.v models it). *)

From stdpp Require Import base gmap strings list functions.
From Stdlib Require Import ZArith Lia.
From S2P Require Import Prelude Json Types Redact Budgets.

(** ** Model clients *)

(** The provider's client, a guard and the pool's serializing wrapper. A guard
    refers to its budget and breaker by reference. *)
Inductive Client :=
| Provider (n : nat)
| Guarded (inner : Client) (budget breaker : nat) (agent_id : pystr)
| Serialized (inner : Client).

Record Heap (W : Type) := MkHeap {
  budgets : nat -> SpawnBudget;
  breakers : nat -> RepetitionCircuitBreaker;
  outside : W;
}.
Arguments MkHeap {W}.
Arguments budgets {W}.
Arguments breakers {W}.
Arguments outside {W}.

(** ** Agents as delegation sees them *)

Record SubagentSpec := {
  s_name : pystr;
  s_system_prompt : pystr;
  s_description : pystr;
  s_model : option pystr;
}.

(** A registered tool: a delegation tool with its specs, budget and owner, a file
    tool with its owner, or any other. *)
Inductive AgentTool :=
| DelegateTool (specs : list (pystr * SubagentSpec)) (budget : nat) (owner : option pystr)
| FileTool (tool : pystr) (owner : option pystr)
| OtherTool (tool : pystr).

(** An agent as delegation sees it. [inherited] stands for the event bus,
    classifier, iteration limit, context configuration, policy, audit logger and
    hooks, which a sub-agent takes over as they are; [C] is the type of clients. *)
Record Delegate (C I : Type) := MkDelegate {
  d_id : pystr;
  d_llm : C;
  d_tools : list AgentTool;
  d_system_prompt : option pystr;
  d_history : nat;
  d_inherited : I;
}.
Arguments MkDelegate {C I}.
Arguments d_id {C I}.
Arguments d_llm {C I}.
Arguments d_tools {C I}.
Arguments d_system_prompt {C I}.
Arguments d_history {C I}.
Arguments d_inherited {C I}.

Section Clients.
Context `{PyRuntime} {W Request : Type}.
(** The provider's [chat], and its [model] attribute if it has one. *)
Variable provider_chat : nat -> Request -> W -> result LLMResponse * W.
Variable provider_model : nat -> option pystr.

Definition set_budget_at (i : nat) (b : SpawnBudget) (h : Heap W) : Heap W :=
  MkHeap (<[i := b]> (budgets h)) (breakers h) (outside h).
Definition set_breaker_at (i : nat) (b : RepetitionCircuitBreaker) (h : Heap W) : Heap W :=
  MkHeap (budgets h) (<[i := b]> (breakers h)) (outside h).

(** The loop over the requested calls: budget first, then breaker, until one raises. *)
Fixpoint charge (budget breaker : nat) (agent_id : pystr) (calls : list ToolCall) (h : Heap W) : result unit * Heap W :=
  match calls with
  | [] => (Ok tt, h)
  | c :: calls' =>
    match record_tool_call (budgets h budget) agent_id (tc_name c) with
    | Err e => (Err e, h)
    | Ok b =>
      let h1 := set_budget_at budget b h in
      let '(k, r) := repetition_record (breakers h1 breaker) (tc_name c) (JObj (tc_arguments c)) in
      let h2 := set_breaker_at breaker k h1 in
      match r with
      | Ok _ => charge budget breaker agent_id calls' h2
      | Err e => (Err e, h2)
      end
    end
  end.

Fixpoint chat (c : Client) (r : Request) (h : Heap W) : result LLMResponse * Heap W :=
  match c with
  | Provider n => let '(x, w) := provider_chat n r (outside h) in (x, MkHeap (budgets h) (breakers h) w)
  | Serialized inner => chat inner r h
  | Guarded inner budget breaker agent_id =>
    match chat inner r h with
    | (Ok response, h1) =>
      match charge budget breaker agent_id (tool_calls response) h1 with
      | (Ok _, h2) => (Ok response, h2)
      | (Err e, h2) => (Err e, h2)
      end
    | (Err e, h1) => (Err e, h1)
    end
  end.

(** The [model] attribute; both wrappers fall back to a placeholder. *)
Fixpoint model_of (c : Client) : option pystr :=
  match c with
  | Provider n => provider_model n
  | Guarded inner _ _ _ | Serialized inner => Some (default (u "unknown") (model_of inner))
  end.

(** ** Spawning *)

Definition subagent_error (msg : pystr) : pyexn := PyExn (u "SubagentError") msg.

(** [base_llm.inner] of a guard. *)
Definition unguarded (c : Client) : Client :=
  match c with Guarded inner _ _ _ => inner | _ => c end.

(** The client of a sub-agent before it is guarded. [factory] builds a client for a
    model name. *)
Definition base_client (override : option Client) (parent_llm : Client) (spec : SubagentSpec)
    (factory : option (pystr -> result Client)) : result Client :=
  let base := unguarded (match override with Some c => c | None => parent_llm end) in
  let requested := match s_model spec with Some ((_ :: _) as m) => Some m | _ => model_of base end in
  match factory with
  | Some f =>
    match requested with
    | Some m => f m
    | None => Err (subagent_error (u "Sub-agent " ++ py_repr (JStr (s_name spec))
        ++ u " cannot use llm_factory because the parent client has no model name"))
    end
  | None =>
    match s_model spec with
    | Some m =>
      if decide (model_of base = Some m) then Ok base
      else Err (subagent_error (u "Sub-agent " ++ py_repr (JStr (s_name spec)) ++ u " requests model "
        ++ py_repr (JStr m) ++ u ", which differs from the parent's model; pass llm_factory to build a client for it"
        ++ u " (or leave spec.model=None to inherit)"))
    | None => Ok base
    end
  end.

(** Tools as the sub-agent gets them: clones of delegation and file tools bound to
    it, the others shared. A file tool takes the id its locks are owned under. *)
Definition clone_tool (budget : nat) (owner lock_owner : pystr) (t : AgentTool) : AgentTool :=
  match t with
  | DelegateTool specs _ _ => DelegateTool specs budget (Some owner)
  | FileTool f _ => FileTool f (Some lock_owner)
  | OtherTool o => OtherTool o
  end.

(** [spawn_subagent]. [agent_id] is the new id, [breaker] a reference that is not in
    use; the new breaker is put there. A file tool is bound before the id is
    registered, so that [agent_id_for] mints another one for it, [minted]. *)
Definition spawn_subagent {I} (parent : Delegate Client I) (spec : SubagentSpec) (budget : nat) (max_repeats : Z)
    (factory : option (pystr -> result Client)) (override : option Client) (agent_id minted : pystr) (breaker : nat)
    (h : Heap W) : result (Delegate Client I) * Heap W :=
  match base_client override (d_llm parent) spec factory with
  | Err e => (Err e, h)
  | Ok base =>
    match make_repetition_breaker max_repeats with
    | Err e => (Err e, h)
    | Ok k =>
      (Ok (MkDelegate agent_id (Guarded base budget breaker agent_id)
             (map (clone_tool budget agent_id minted) (d_tools parent)) (Some (s_system_prompt spec)) 0 (d_inherited parent)),
       set_breaker_at breaker k h)
    end
  end.

(** ** Running *)

Inductive audit_entry :=
| SpawnEntry (parent agent spec : pystr) (model : option pystr) (budget_used budget_max : Z)
| FinishEntry (agent spec outcome detail : pystr).

(** The outcome [run_subagent] records for an exception. *)
Definition outcome_of (e : pyexn) : pystr * pystr :=
  if decide (exn_type e = u "BudgetExceededError") then (u "budget_exceeded", exn_msg e)
  else if decide (exn_type e = u "RepetitionLimitError") then (u "repetition_limit", exn_msg e)
  else (u "error", exn_type e ++ u ": " ++ exn_msg e).

Record DelegationResult := { final_message : pystr; agent_id : pystr }.

(** [run_subagent]: [run_agent] is [Agent.run]; entries go to the shared audit log. *)
Definition run_subagent {I} (run_agent : Delegate Client I -> pystr -> Heap W -> result pystr * Heap W)
    (parent : Delegate Client I) (spec : SubagentSpec) (task : pystr) (budget : nat) (max_repeats : Z)
    (factory : option (pystr -> result Client)) (override : option Client) (new_id minted : pystr) (breaker : nat)
    (h : Heap W) : result DelegationResult * list audit_entry * Heap W :=
  match spawn_subagent parent spec budget max_repeats factory override new_id minted breaker h with
  | (Err e, h1) => (Err e, [], h1)
  | (Ok agent, h1) =>
    let spawned := SpawnEntry (d_id parent) new_id (s_name spec) (model_of (d_llm agent)) (sb_used (budgets h1 budget)) (sb_max (budgets h1 budget)) in
    match run_agent agent task h1 with
    | (Ok message, h2) =>
      (Ok {| final_message := message; agent_id := new_id |},
       [spawned; FinishEntry new_id (s_name spec) (u "completed") message], h2)
    | (Err e, h2) =>
      (Err e, [spawned; FinishEntry new_id (s_name spec) (outcome_of e).1 (outcome_of e).2], h2)
    end
  end.

Definition registered (specs : list (pystr * SubagentSpec)) : pystr :=
  match join (u ", ") (map fst (sort_items specs)) with [] => u "(none)" | names => names end.

(** [DelegateTool.execute], given what [run_subagent] does for a spec. *)
Definition delegate_execute `{SecretPatterns} (bound : bool) (specs : list (pystr * SubagentSpec))
    (delegate : SubagentSpec -> result DelegationResult * list audit_entry * Heap W) (name : pystr) (h : Heap W)
    : ToolResult * list audit_entry * Heap W :=
  if negb bound
  then (error_result (u "DelegateTool is not bound to an agent; call delegate_tool.bind(agent) after constructing the agent"), [], h)
  else match dict_get name specs with
  | None => (error_result (u "Unknown sub-agent " ++ py_repr (JStr name) ++ u ". Registered: " ++ registered specs), [], h)
  | Some spec =>
    match delegate spec with
    | (Ok r, log, h') =>
      (output_result (JObj [(u "subagent", JStr (s_name spec)); (u "agent_id", JStr (agent_id r));
                            (u "final_message", JStr (redact_secrets (final_message r)))]), log, h')
    | (Err e, log, h') => (error_result (exn_type e ++ u ": " ++ exn_msg e), log, h')
    end
  end.

(** ** The pool *)

(** The client that concurrent workers share when there is no factory. *)
Definition pool_override (max_concurrency : Z) (parent_llm : Client) (factory : option (pystr -> result Client))
    : option Client :=
  match factory with
  | None => if (1 <? max_concurrency)%Z then Some (Serialized parent_llm) else None
  | Some _ => None
  end.

(** [[future.result() for future in futures]]: the results in the order of the
    specs, or the first exception in that order. *)
Fixpoint gather_results (outcomes : list (result DelegationResult)) : result (list DelegationResult) :=
  match outcomes with
  | [] => Ok []
  | r :: outcomes' => x <-! r ;; xs <-! gather_results outcomes' ;; Ok (x :: xs)
  end.

Definition merge_separator : pystr := [10%N; 10%N] ++ u "--- Sub-agent result ---" ++ [10%N; 10%N].

Definition _default_merge (results : list DelegationResult) : pystr := join merge_separator (map final_message results).
End Clients.

(** ** Lemmas *)

Section Facts.
Context `{PyRuntime} {W Request : Type}.
Variable provider_chat : nat -> Request -> W -> result LLMResponse * W.
Variable provider_model : nat -> option pystr.

Definition within (b : SpawnBudget) : Prop := (sb_used b <= sb_max b)%Z.

(** How a budget may change: its limit stays, its count grows within the limit. *)
Definition spent (b b' : SpawnBudget) (n : Z) : Prop :=
  sb_max b' = sb_max b /\ (sb_used b + n <= sb_used b')%Z /\ (within b -> within b').

Lemma spent_refl b : spent b b 0.
Proof. split; [done|]. split; [lia|done]. Qed.

Lemma spent_trans b1 b2 b3 m n : spent b1 b2 m -> spent b2 b3 n -> spent b1 b3 (m + n).
Proof. intros (H1 & H2 & H3) (H4 & H5 & H6). split; [congruence|]. split; [lia|tauto]. Qed.

Lemma spent_weaken b b' m n : (n <= m)%Z -> spent b b' m -> spent b b' n.
Proof. intros Hle (H1 & H2 & H3). split; [done|]. split; [lia|done]. Qed.

Lemma record_spent b agent name b' : record_tool_call b agent name = Ok b' -> spent b b' 1 /\ sb_used b' = (sb_used b + 1)%Z.
Proof.
  unfold record_tool_call. destruct (Z.leb_spec (sb_max b) (sb_used b)); [done|]. intros [= <-]. split; [|done].
  split; [done|]. simpl. split; [lia|]. unfold within. simpl. lia.
Qed.

(** Charging: the guard's budget pays for every call that is admitted. *)
Lemma charge_spent bud brk agent calls (h h' : Heap W) r : charge bud brk agent calls h = (r, h') ->
  spent (budgets h bud) (budgets h' bud) (if is_ok r then zlen calls else 0) /\
  (is_ok r = true -> sb_used (budgets h' bud) = (sb_used (budgets h bud) + zlen calls)%Z) /\
  (forall i, i <> bud -> budgets h' i = budgets h i) /\ (forall i, i <> brk -> breakers h' i = breakers h i) /\
  outside h' = outside h.
Proof.
  revert h; induction calls as [|c calls IH]; intros h; cbn [charge].
  { intros [= <- <-]. simpl. split; [apply spent_refl|]. split; [unfold zlen; simpl; lia|done]. }
  destruct (record_tool_call _ _ _) as [b|e] eqn:Er; [|intros [= <- <-]; simpl; split; [apply spent_refl|done]].
  apply record_spent in Er as [Hs Hu]. 
  match goal with |- context [repetition_record ?a ?b ?c] => destruct (repetition_record a b c) as [k [[]|e]] end.
  - intros Hc. apply IH in Hc as (Hs' & Hu' & Hb & Hk & Hw). simpl in *. rewrite fn_lookup_insert in Hs', Hu'.
    split; [|split; [|split; [|split; [|done]]]].
    + eapply spent_weaken; [|eapply spent_trans; [exact Hs|exact Hs']]. destruct r; simpl; rewrite ?zlen_cons; lia.
    + intros Hok. rewrite (Hu' Hok), Hu, zlen_cons. lia.
    + intros i Hi. rewrite Hb by done. by rewrite fn_lookup_insert_ne.
    + intros i Hi. rewrite Hk by done. by rewrite fn_lookup_insert_ne.
  - intros [= <- <-]. simpl. rewrite fn_lookup_insert. split; [by eapply spent_weaken; [|exact Hs]; lia|]. split; [done|].
    split; [intros i Hi; by rewrite fn_lookup_insert_ne|]. split; [intros i Hi; by rewrite fn_lookup_insert_ne|done].
Qed.

Lemma charge_spent_any bud brk agent calls (h h' : Heap W) r i : charge bud brk agent calls h = (r, h') ->
  spent (budgets h i) (budgets h' i) 0.
Proof.
  intros Hc. apply charge_spent in Hc as (Hs & _ & Hb & _). destruct (decide (i = bud)) as [->|Hi].
  - eapply spent_weaken; [|exact Hs]. destruct r; simpl; [apply zlen_nonneg|done].
  - rewrite Hb by done. apply spent_refl.
Qed.

(** No chat, through whatever wrappers, gives budget back. *)
Lemma chat_spent c q (h h' : Heap W) r i : chat provider_chat c q h = (r, h') -> spent (budgets h i) (budgets h' i) 0.
Proof.
  revert h h' r; induction c as [n|c IH bud brk agent|c IH]; intros h h' r; simpl.
  - destruct (provider_chat _ _ _) as [x w]. intros [= <- <-]. apply spent_refl.
  - destruct (chat provider_chat c q h) as [[response|e] h1] eqn:E; apply IH in E; [|by intros [= <- <-]].
    destruct (charge bud brk agent (tool_calls response) h1) as [[[]|e] h2] eqn:Ec; apply (charge_spent_any _ _ _ _ _ _ _ i) in Ec;
      intros [= <- <-]; exact (spent_trans _ _ _ _ _ E Ec).
  - apply IH.
Qed.

(** A guarded chat pays for the calls it lets through. *)
Lemma guarded_spent inner bud brk agent q (h h' : Heap W) r : chat provider_chat (Guarded inner bud brk agent) q h = (r, h') ->
  spent (budgets h bud) (budgets h' bud) (match r with Ok x => zlen (tool_calls x) | Err _ => 0 end).
Proof.
  simpl. destruct (chat provider_chat inner q h) as [[response|e] h1] eqn:E; apply (chat_spent _ _ _ _ _ bud) in E;
    [|by intros [= <- <-]].
  destruct (charge bud brk agent (tool_calls response) h1) as [[[]|e] h2] eqn:Ec; apply charge_spent in Ec as (Hs & _);
    intros [= <- <-]; exact (spent_trans _ _ _ _ _ E Hs).
Qed.

(** The turns of a tree of agents, in any order: how many tool calls their clients
    let through, and the heap afterwards. *)
Fixpoint turns (l : list (Client * Request)) (h : Heap W) : Z * Heap W :=
  match l with
  | [] => (0%Z, h)
  | (c, q) :: l' =>
    let '(r, h1) := chat provider_chat c q h in
    let '(n, h2) := turns l' h1 in
    ((match r with Ok x => zlen (tool_calls x) | Err _ => 0 end + n)%Z, h2)
  end.

Definition charges (bud : nat) (c : Client) : Prop := exists inner brk agent, c = Guarded inner bud brk agent.

Lemma turns_spent bud l (h : Heap W) : Forall (fun x => charges bud x.1) l ->
  spent (budgets h bud) (budgets (turns l h).2 bud) (turns l h).1.
Proof.
  intros HF. revert h; induction HF as [|[c q] l (inner & brk & agent & Hc) _ IH]; intros h; simpl; [apply spent_refl|].
  simpl in Hc. subst c. destruct (chat provider_chat _ q h) as [r h1] eqn:E. apply guarded_spent in E.
  specialize (IH h1). destruct (turns l h1) as [n h2]. exact (spent_trans _ _ _ _ _ E IH).
Qed.

(** A client under at most one guard. *)
Definition flat (c : Client) : Prop := exists n, c = Provider n \/ exists b k i, c = Guarded (Provider n) b k i.
End Facts.

(** ** Theorems *)

(** C36: the budget bounds the whole tree. However the turns of the root's
    sub-agents, their sub-agents and so on interleave, the tool calls their guarded
    clients let through add up to at most what the shared budget had left. *)
Theorem tree_stays_within_budget `{PyRuntime} {W Request} provider_chat bud (l : list (Client * Request)) (h : Heap W) :
  within (budgets h bud) -> Forall (fun x => charges bud x.1) l ->
  let '(admitted, h') := turns provider_chat l h in
  (admitted <= sb_max (budgets h bud) - sb_used (budgets h bud))%Z /\
  sb_max (budgets h' bud) = sb_max (budgets h bud) /\ within (budgets h' bud).
Proof.
  intros Hw HF. pose proof (turns_spent provider_chat bud l h HF) as (H1 & H2 & H3).
  destruct (turns provider_chat l h) as [n h']. simpl in *. specialize (H3 Hw). unfold within in *.
  split; [lia|]. by split.
Qed.

(** guards never stack along delegation. A sub-agent spawned from an agent
    whose client has at most one guard has a client with exactly one, shares every
    inherited part and gets the same tools; each of its turns charges the shared
    budget once per call and advances no breaker but its own. *)
Theorem spawned_turns_charged_once `{PyRuntime} {W Request I} provider_chat provider_model (parent : Delegate Client I) spec bud
    max_repeats id minted brk (h h1 : Heap W) agent :
  flat (d_llm parent) ->
  spawn_subagent provider_model parent spec bud max_repeats None None id minted brk h = (Ok agent, h1) ->
  flat (d_llm agent) /\ d_inherited agent = d_inherited parent /\ length (d_tools agent) = length (d_tools parent) /\
  d_system_prompt agent = Some (s_system_prompt spec) /\
  forall (q : Request) (h2 : Heap W) r (h3 : Heap W), chat provider_chat (d_llm agent) q h2 = (Ok r, h3) ->
    sb_used (budgets h3 bud) = (sb_used (budgets h2 bud) + zlen (tool_calls r))%Z /\
    forall k, k <> brk -> breakers h3 k = breakers h2 k.
Proof.
  intros [n Hn] Hs. unfold spawn_subagent, base_client in Hs.
  assert (unguarded (d_llm parent) = Provider n) as Hu by (by destruct Hn as [-> | (b & k & i & ->)]). rewrite Hu in Hs.
  assert (exists kk, make_repetition_breaker max_repeats = Ok kk /\
    agent = MkDelegate id (Guarded (Provider n) bud brk id) (map (clone_tool bud id minted) (d_tools parent))
              (Some (s_system_prompt spec)) 0 (d_inherited parent)) as (kk & _ & ->).
  { destruct (s_model spec) as [m|]; [case_decide; [|done]|];
      (destruct (make_repetition_breaker max_repeats) as [kk|]; [|done]); injection Hs as <- <-; by eexists. }
  simpl. split; [exists n; right; by exists bud, brk, id|]. split; [done|]. split; [by rewrite length_map|]. split; [done|].
  intros q h2 r h3. destruct (provider_chat n q (outside h2)) as [[x|e] w]; [|done].
  destruct (charge _ _ _ _ _) as [[[]|e] h4] eqn:Ec; [|done]. intros [= <- <-].
  apply charge_spent in Ec as (_ & Hused & _ & Hk & _). split; [by apply Hused|]. intros k Hne. by apply Hk.
Qed.

(** ** Witnesses *)

#[local] Instance subagent_runtime : PyRuntime := decoding_runtime [].

(** A provider that always asks for one listing. *)
Definition listing (n : nat) (q : unit) (w : unit) : result LLMResponse * unit :=
  (Ok {| r_content := []; tool_calls := [{| tc_id := u "c"; tc_name := u "ls"; tc_arguments := [] |}];
         stop_reason := None; usage := []; reasoning_text := None |}, w).

Definition fresh_heap : Heap unit :=
  MkHeap (fun _ => {| sb_max := 10; sb_used := 0; sb_per_agent := [] |})
         (fun _ => {| rb_max := 5; _last_key := None; _count := 0 |}) tt.

(** An agent that runs under the guard [0] with breaker [0], as every sub-agent does. *)
Definition nested_parent : Delegate Client unit :=
  MkDelegate (u "parent") (Guarded (Provider 0) 0 0 (u "parent")) [OtherTool (u "ls")] None 0 tt.

Definition worker : SubagentSpec :=
  {| s_name := u "worker"; s_system_prompt := u "work"; s_description := []; s_model := None |}.

(** a pool started by an agent that is itself guarded stacks the guards: the
    serializing wrapper hides the parent's guard, so one call of a worker is
    charged to the tree budget twice and advances the parent's circuit breaker. *)
Theorem pool_stacks_guards :
  let override := pool_override 3 (d_llm nested_parent) None in
  match spawn_subagent (fun _ => None) nested_parent worker 0 5 None override (u "child") (u "minted") 1 fresh_heap with
  | (Ok agent, h1) =>
    let '(r, h2) := chat listing (d_llm agent) tt h1 in
    rmap (fun x => zlen (tool_calls x)) r = Ok 1%Z /\ sb_used (budgets h2 0%nat) = 2%Z /\ _count (breakers h2 0%nat) = 1%Z
  | _ => False
  end.
Proof. vm_compute. done. Qed.

Lemma tree_stays_within_budget_witness :
  let c := Guarded (Provider 0) 0 0 (u "a") in
  let '(admitted, h') := turns listing [(c, tt); (Guarded (Provider 1) 0 1 (u "b"), tt); (c, tt)] fresh_heap in
  (admitted <= 10 - 0)%Z /\ sb_max (budgets h' 0%nat) = 10%Z /\ within (budgets h' 0%nat).
Proof.
  apply (tree_stays_within_budget listing 0 [(Guarded (Provider 0) 0 0 (u "a"), tt); (Guarded (Provider 1) 0 1 (u "b"), tt);
    (Guarded (Provider 0) 0 0 (u "a"), tt)] fresh_heap).
  - vm_compute. congruence.
  - repeat constructor; by do 3 eexists.
Defined.

Lemma spawned_turns_charged_once_witness :
  exists agent h1, spawn_subagent (fun _ => None) nested_parent worker 0 5 None None (u "child") (u "minted") 1 fresh_heap = (Ok agent, h1) /\
  flat (d_llm agent) /\ d_inherited agent = tt /\ length (d_tools agent) = 1%nat /\ d_system_prompt agent = Some (u "work") /\
  forall (q : unit) (h2 : Heap unit) r (h3 : Heap unit), chat listing (d_llm agent) q h2 = (Ok r, h3) ->
    sb_used (budgets h3 0%nat) = (sb_used (budgets h2 0%nat) + zlen (tool_calls r))%Z /\
    forall k, k <> 1%nat -> breakers h3 k = breakers h2 k.
Proof.
  do 2 eexists. split; [reflexivity|].
  apply (spawned_turns_charged_once listing (fun _ => None) nested_parent worker 0 5 (u "child") (u "minted") 1 fresh_heap
    (set_breaker_at 1 {| rb_max := 5; _last_key := None; _count := 0 |} fresh_heap)).
  - exists 0%nat. right. by exists 0%nat, 0%nat, (u "parent").
  - reflexivity.
Defined.

(** The locks of a sub-agent's file tool are not owned under the id of its audit
    entries, which [FileTool.bind] says it binds. *)
Example file_locks_have_another_owner :
  let parent := MkDelegate (u "parent") (Provider 0) [FileTool (u "edit") None] None 0 tt in
  match spawn_subagent (fun _ => None) parent worker 0 5 None None (u "child") (u "minted") 1 fresh_heap with
  | (Ok agent, _) => d_id agent = u "child" /\ d_tools agent = [FileTool (u "edit") (Some (u "minted"))]
  | _ => False
  end.
Proof. by vm_compute. Qed.
