(* ===== verification/Protocol.v ===== *)
(** * JSON-RPC messages (kinetic_sdk/mcp/protocol.py)

    The three message shapes of MCP, their encoding as one line of JSON and the
    strict decoder, and the generator of request ids. *)

From stdpp Require Import base strings list pretty.
From Stdlib Require Import ZArith Lia.
From Stdlib Require Ascii String.
From S2P Require Import Prelude Json PyText.

Definition JSONRPC_VERSION : pystr := u "2.0".

Definition protocol_error (msg : pystr) : pyexn := PyExn (u "MCPProtocolError") msg.

(** The fields of the dataclasses, as the decoder fills them; [jsonrpc] is
    always the version. An absent [params] is [JNull]. *)
Inductive JsonRpcMessage :=
| JsonRpcRequest (id : json) (method : pystr) (params : json)
| JsonRpcNotification (method : pystr) (params : json)
| JsonRpcResponse (id : json) (rpc_result : json) (rpc_error : option jdict).

(** [JsonRpcResponse.__post_init__]. *)
Definition make_response (id rpc_result : json) (rpc_error : option jdict) : result JsonRpcMessage :=
  match rpc_result, rpc_error with
  | JNull, _ | _, None => Ok (JsonRpcResponse id rpc_result rpc_error)
  | _, Some _ => Err (protocol_error (u "JsonRpcResponse cannot carry both 'result' and 'error'"))
  end.

Definition make_error (id : json) (code : Z) (message : pystr) (data : json) : result JsonRpcMessage :=
  make_response id JNull (Some ([(u "code", JInt code); (u "message", JStr message)]
    ++ match data with JNull => [] | _ => [(u "data", data)] end)).

Definition optional_params (params : json) : jdict := match params with JNull => [] | _ => [(u "params", params)] end.

Definition to_dict (m : JsonRpcMessage) : jdict :=
  match m with
  | JsonRpcRequest id method params =>
    [(u "jsonrpc", JStr JSONRPC_VERSION); (u "id", id); (u "method", JStr method)] ++ optional_params params
  | JsonRpcNotification method params =>
    [(u "jsonrpc", JStr JSONRPC_VERSION); (u "method", JStr method)] ++ optional_params params
  | JsonRpcResponse id result err =>
    [(u "jsonrpc", JStr JSONRPC_VERSION); (u "id", id)]
    ++ match err with Some e => [(u "error", JObj e)] | None => [(u "result", result)] end
  end.

Definition type_name (j : json) : pystr :=
  match j with
  | JNull => u "NoneType" | JBool _ => u "bool" | JInt _ => u "int" | JFloat _ => u "float" | JStr _ => u "str"
  | JList _ => u "list" | JObj _ => u "dict"
  end.

Section Wire.
Context `{PyRuntime}.
(** The text of a decoding error. *)
Variable decode_error : pystr -> pystr.

Definition encode (m : JsonRpcMessage) : pystr := json_dumps dumps_utf8 (JObj (to_dict m)) ++ [10%N].

Definition _require (cond : bool) (detail : pystr) : result unit :=
  if cond then Ok tt else Err (protocol_error (u "Malformed JSON-RPC message: " ++ detail)).

Definition valid_id (v : json) : bool := match v with JNull | JInt _ | JStr _ => true | _ => false end.

Definition _validate_id (v : json) : result unit :=
  _require (valid_id v) (u "'id' must be an int, str or null, got " ++ type_name v).

(** [isinstance(x, int)], which a [bool] passes. *)
Definition is_int (x : option json) : bool := match x with Some (JInt _) | Some (JBool _) => true | _ => false end.

Definition decode_response (obj : jdict) : result JsonRpcMessage :=
  _ <-! _require (dict_has (u "id") obj) (u "neither 'method' nor 'id' present - not request, response or notification") ;;
  let id := default JNull (dict_get (u "id") obj) in
  _ <-! _validate_id id ;;
  _ <-! _require (xorb (dict_has (u "result") obj) (dict_has (u "error") obj))
      (u "a response must carry exactly one of 'result' or 'error'") ;;
  match dict_get (u "error") obj with
  | Some (JObj e) =>
    _ <-! _require (is_int (dict_get (u "code") e) && is_str (dict_get (u "message") e))
        (u "'error' must contain int 'code' and str 'message'") ;;
    make_response id JNull (Some e)
  | Some _ => rbind (_require false (u "'error' must be an object")) (fun _ => make_response id JNull None)
  | None => make_response id (default JNull (dict_get (u "result") obj)) None
  end.

(** [decode] of one line of text. *)
Definition decode (line : pystr) : result JsonRpcMessage :=
  let stripped := strip line in
  if bool_decide (stripped = []) then Err (protocol_error (u "Empty line is not a JSON-RPC message"))
  else match json_loads stripped with
  | None => Err (protocol_error (u "Invalid JSON: " ++ decode_error stripped))
  | Some (JObj obj) =>
    let version := default JNull (dict_get (u "jsonrpc") obj) in
    _ <-! _require (py_eq version (JStr JSONRPC_VERSION))
        (u "'jsonrpc' must be " ++ py_repr (JStr JSONRPC_VERSION) ++ u ", got " ++ py_repr version) ;;
    match dict_get (u "method") obj with
    | Some m =>
      let method := match m with JStr s => s | _ => [] end in
      _ <-! _require (negb (bool_decide (method = []))) (u "'method' must be a non-empty string") ;;
      let params := default JNull (dict_get (u "params") obj) in
      match dict_get (u "id") obj with
      | Some id => _ <-! _validate_id id ;; Ok (JsonRpcRequest id method params)
      | None => Ok (JsonRpcNotification method params)
      end
    | None => decode_response obj
    end
  | Some obj => Err (protocol_error (u "Malformed JSON-RPC message: top-level value must be an object, got " ++ type_name obj))
  end.

(** The decoder raises nothing but its own error. *)
Definition decode_raises (r : result JsonRpcMessage) : Prop := forall e, r = Err e -> exn_type e = u "MCPProtocolError".

Lemma require_raises cond detail k : (cond = true -> decode_raises k) -> decode_raises (rbind (_require cond detail) (fun _ => k)).
Proof. intros Hk e. destruct cond; cbn [_require rbind]; [by apply Hk|]. by intros [= <-]. Qed.

Lemma decode_response_raises obj : decode_raises (decode_response obj).
Proof.
  unfold decode_response. apply require_raises. intros _. apply require_raises. intros _. apply require_raises. intros _.
  destruct (dict_get (u "error") obj) as [j|].
  - destruct j; try (intros ? [= <-]; done). apply require_raises. intros _ ? [=].
  - intros e. unfold make_response. by destruct (default JNull _).
Qed.

Lemma decode_raises_protocol_error line : decode_raises (decode line).
Proof.
  unfold decode. cbv zeta. destruct (bool_decide (strip line = [])); [by intros e [= <-]|].
  destruct (json_loads (strip line)) as [j|]; [|by intros e [= <-]]. destruct j; try by intros e [= <-].
  apply require_raises. intros _. destruct (dict_get (u "method") d); [|apply decode_response_raises].
  apply require_raises. intros _. destruct (dict_get (u "id") d); [|by intros e [=]].
  apply require_raises. intros _ e [=].
Qed.
End Wire.

(** [RequestIdGenerator.next]: the id, and the generator afterwards. *)
Definition next_request_id (g : Z) : Z * Z := (g, (g + 1)%Z).

(** ** Messages on one line *)

(** What the decoder accepts: the messages a peer can build. *)
Definition message_ok (m : JsonRpcMessage) : Prop :=
  match m with
  | JsonRpcRequest id method _ => valid_id id = true /\ method <> []
  | JsonRpcNotification method _ => method <> []
  | JsonRpcResponse id result None => valid_id id = true
  | JsonRpcResponse id result (Some e) => valid_id id = true /\ result = JNull /\
      is_int (dict_get (u "code") e) = true /\ is_str (dict_get (u "message") e) = true
  end.

Lemma hex_digit_printable n : (32 <= hex_digit n)%N.
Proof. unfold hex_digit. destruct (N.ltb_spec n 10); lia. Qed.

Definition printable (s : pystr) : Prop := Forall (fun c => 32 <= c)%N s.

Lemma escape_printable a c : printable (json_escape_char a c).
Proof.
  assert (forall n, printable (hex4 n)) as Hh.
  { intros n. unfold hex4, printable. repeat constructor; apply hex_digit_printable. }
  assert (forall s, forallb (fun c => 32 <=? c)%N s = true -> printable s) as Hs.
  { intros s Hs. unfold printable. induction s as [|x s IH]; [constructor|]. simpl in Hs. apply andb_prop in Hs as [Hx Hs].
    constructor; [by apply N.leb_le|by apply IH]. }
  unfold json_escape_char.
  destruct (c =? 34)%N; [apply Hs; vm_compute; reflexivity|]. destruct (c =? 92)%N; [apply Hs; vm_compute; reflexivity|].
  destruct (c =? 10)%N; [apply Hs; vm_compute; reflexivity|]. destruct (c =? 13)%N; [apply Hs; vm_compute; reflexivity|].
  destruct (c =? 9)%N; [apply Hs; vm_compute; reflexivity|]. destruct (c =? 12)%N; [apply Hs; vm_compute; reflexivity|].
  destruct (c =? 8)%N; [apply Hs; vm_compute; reflexivity|].
  assert (printable (u "\u")) as Hu by (apply Hs; vm_compute; reflexivity).
  destruct (N.ltb_spec c 32) as [Hc|Hc]; cbn [orb].
  - destruct (c <? 65536)%N; cbv zeta; repeat (apply Forall_app_2; [done|]); try apply Hh.
    apply Forall_app_2; [apply Hh|]. apply Forall_app_2; [done|apply Hh].
  - destruct (a && (126 <? c))%N; [|by repeat constructor].
    destruct (c <? 65536)%N; cbv zeta; repeat (apply Forall_app_2; [done|]); try apply Hh.
    apply Forall_app_2; [apply Hh|]. apply Forall_app_2; [done|apply Hh].
Qed.

(** A text of printable ASCII characters. *)
Fixpoint ascii_text (s : String.string) : bool :=
  match s with
  | String.EmptyString => true
  | String.String a s' => (32 <=? Ascii.N_of_ascii a)%N && (Ascii.N_of_ascii a <? 127)%N && ascii_text s'
  end.

Lemma u_printable s : ascii_text s = true -> printable (u s).
Proof.
  unfold u, printable. induction s as [|a s IH]; [constructor|]. cbn [ascii_text string_bytes utf8_decode].
  intros Ha. apply andb_prop in Ha as [Ha Hs]. apply andb_prop in Ha as [Hl Hu]. apply N.leb_le in Hl. apply N.ltb_lt in Hu.
  destruct (N.ltb_spec (Ascii.N_of_ascii a) 128); [|lia]. constructor; [done|by apply IH].
Qed.

Lemma pretty_go_ascii n s : ascii_text s = true -> ascii_text (pretty_N_go n s) = true.
Proof.
  revert s. induction (N.lt_wf_0 n) as [n _ IH]; intros s Hs.
  assert (n = 0 \/ 0 < n)%N as [->|Hn] by lia; [by rewrite pretty_N_go_0|].
  rewrite pretty_N_go_step by done. apply IH; [by apply N.div_lt|]. cbn [ascii_text]. rewrite Hs, andb_true_r.
  unfold pretty_N_char. by repeat case_match.
Qed.

Lemma dec_printable z : printable (dec z).
Proof.
  apply u_printable. assert (forall n : N, ascii_text (pretty n) = true) as Hn.
  { intros n. unfold pretty, pretty_N. case_decide; [done|]. by apply pretty_go_ascii. }
  destruct z; [done|apply Hn|]. unfold pretty, pretty_Z. cbn [String.append ascii_text]. apply Hn.
Qed.

Lemma string_printable a s : printable (json_string a s).
Proof.
  unfold json_string. apply Forall_app_2; [by repeat constructor|]. apply Forall_app_2; [|by repeat constructor].
  apply Forall_concat, Forall_map. apply Forall_true. intros c. apply escape_printable.
Qed.

Lemma join_printable sep ps : printable sep -> Forall printable ps -> printable (join sep ps).
Proof.
  intros Hs Hp. induction Hp as [|p ps H1 Hps IH]; [constructor|]. cbn [join]. destruct ps as [|p' ps]; [done|].
  apply Forall_app_2; [done|]. by apply Forall_app_2.
Qed.

(** The runtime renders floats without control characters. *)
Definition floats_printable `{PyRuntime} : Prop := forall f, printable (float_repr f).

Lemma dumps_printable `{PyRuntime} j : floats_printable -> printable (json_dumps dumps_utf8 j).
Proof.
  intros Hf. assert (forall s, ascii_text s = true -> printable (u s)) as Hu by apply u_printable.
  induction j as [|b|z|f|s|l IH|d IH] using json_ind.
  - by apply Hu.
  - destruct b; by apply Hu.
  - apply dec_printable.
  - cbn [json_dumps]. unfold float_json. destruct f as [|[]| |]; try apply Hf; by apply Hu.
  - apply string_printable.
  - cbn [json_dumps]. apply Forall_app_2; [by apply Hu|]. apply Forall_app_2; [|by apply Hu].
    apply join_printable; [by apply Hu|]. apply Forall_map. exact IH.
  - cbn [json_dumps dumps_utf8 sort_keys item_sep key_sep ensure_ascii]. apply Forall_app_2; [by apply Hu|].
    apply Forall_app_2; [|by apply Hu]. apply join_printable; [by apply Hu|]. rewrite map_map. apply Forall_map.
    eapply Forall_impl; [exact IH|]. intros kv Hkv. apply Forall_app_2; [apply string_printable|].
    apply Forall_app_2; [by apply Hu|exact Hkv].
Qed.

(** Text without line feeds is one line. *)
Lemma split_line s rest : Forall (fun c => c <> 10)%N s -> split_on 10 (s ++ 10%N :: rest) = s :: split_on 10 rest.
Proof.
  induction 1 as [|c s Hc _ IH]; simpl.
  - destruct (split_on 10 rest) eqn:E; [|done]. destruct rest; simpl in E; [done|]. repeat case_match; done.
  - rewrite IH. destruct (N.eqb_spec c 10); [done|]. done.
Qed.

Section RoundTrip.
Context `{PyRuntime}.
Variable decode_error : pystr -> pystr.
Hypothesis printable_floats : floats_printable.

Lemma strip_object d : strip (json_dumps dumps_utf8 (JObj d) ++ [10%N]) = json_dumps dumps_utf8 (JObj d).
Proof.
  cbn [json_dumps]. generalize (join (item_sep dumps_utf8)
    (map (fun kv => json_string (ensure_ascii dumps_utf8) kv.1 ++ key_sep dumps_utf8 ++ kv.2)
       (if sort_keys dumps_utf8 then sort_items (map (fun kv => (kv.1, json_dumps dumps_utf8 kv.2)) d)
        else map (fun kv => (kv.1, json_dumps dumps_utf8 kv.2)) d))). intros body.
  change (u "{") with [123%N]. change (u "}") with [125%N].
  unfold strip, lstrip_with, rstrip_with. cbn [app drop_while]. change (is_space 123) with false. cbn iota.
  change (123%N :: (body ++ [125%N]) ++ [10%N]) with ((123%N :: body ++ [125%N]) ++ [10%N]).
  rewrite rev_app_distr. cbn [rev app drop_while]. change (is_space 10) with true. cbn iota.
  rewrite rev_app_distr. cbn [rev app drop_while]. change (is_space 125) with false. cbn iota.
  cbn [rev]. rewrite rev_app_distr, rev_involutive. done.
Qed.

(** [json.loads] reads back the object that was written. *)
Definition loads_back (m : JsonRpcMessage) : Prop :=
  json_loads (json_dumps dumps_utf8 (JObj (to_dict m))) = Some (JObj (to_dict m)).

Lemma require_true (b : bool) detail : b = true -> _require b detail = Ok tt.
Proof. by intros ->. Qed.

Lemma decode_of_dict m : loads_back m -> decode decode_error (encode m) =
  match dict_get (u "method") (to_dict m) with
  | Some j =>
    let method := match j with JStr s => s | _ => [] end in
    _ <-! _require (negb (bool_decide (method = []))) (u "'method' must be a non-empty string") ;;
    let params := default JNull (dict_get (u "params") (to_dict m)) in
    match dict_get (u "id") (to_dict m) with
    | Some id => _ <-! _validate_id id ;; Ok (JsonRpcRequest id method params)
    | None => Ok (JsonRpcNotification method params)
    end
  | None => decode_response (to_dict m)
  end.
Proof.
  intros Hl. unfold decode, encode. rewrite strip_object, Hl.
  rewrite bool_decide_false by (cbn [json_dumps]; discriminate).
  assert (default JNull (dict_get (u "jsonrpc") (to_dict m)) = JStr JSONRPC_VERSION) as -> by (destruct m as [| |? ? []]; reflexivity).
  rewrite require_true by reflexivity. reflexivity.
Qed.

Lemma decode_encode m : message_ok m -> loads_back m -> decode decode_error (encode m) = Ok m.
Proof.
  intros Hm Hl. rewrite (decode_of_dict m Hl). destruct m as [id method params|method params|id result [e|]]; cbn [to_dict].
  - destruct Hm as [Hid Hmethod].
    assert (forall l, dict_get (u "method") ([(u "jsonrpc", JStr JSONRPC_VERSION); (u "id", id); (u "method", JStr method)] ++ l) = Some (JStr method)) as -> by reflexivity.
    assert (forall l, dict_get (u "id") ([(u "jsonrpc", JStr JSONRPC_VERSION); (u "id", id); (u "method", JStr method)] ++ l) = Some id) as -> by reflexivity.
    cbv zeta. rewrite require_true by (by rewrite bool_decide_false). cbn [rbind]. unfold _validate_id. rewrite require_true by done.
    by destruct params.
  - cbn [message_ok] in Hm.
    assert (forall l, dict_get (u "method") ([(u "jsonrpc", JStr JSONRPC_VERSION); (u "method", JStr method)] ++ l) = Some (JStr method)) as -> by reflexivity.
    cbv zeta. rewrite require_true by (by rewrite bool_decide_false). by destruct params.
  - destruct Hm as (Hid & -> & Hcode & Hmsg).
    change (dict_get (u "method") _) with (@None json). cbn iota. unfold decode_response, _validate_id.
    rewrite (require_true (dict_has _ _)) by reflexivity. rewrite (require_true (valid_id _)) by done.
    rewrite (require_true (xorb _ _)) by reflexivity. cbn [rbind].
    change (dict_get (u "error") _) with (Some (JObj e)). cbn iota.
    rewrite require_true by (by rewrite Hcode, Hmsg). reflexivity.
  - cbn [message_ok] in Hm. change (dict_get (u "method") _) with (@None json). cbn iota.
    unfold decode_response, _validate_id.
    rewrite (require_true (dict_has _ _)) by reflexivity. rewrite (require_true (valid_id _)) by done.
    rewrite (require_true (xorb _ _)) by reflexivity. cbn [rbind].
    change (dict_get (u "error") _) with (@None json). by destruct result.
Qed.
End RoundTrip.

(** ** A stream of messages *)

(** What [readline] yields from a stream: the lines with their line feed. *)
Definition wire_lines (text : pystr) : list pystr := map (fun l => l ++ [10%N]) (removelast (split_on 10 text)).

Lemma printable_line s : printable s -> Forall (fun c => c <> 10)%N s.
Proof. intros Hs. eapply Forall_impl; [exact Hs|]. intros c Hc ->. lia. Qed.

Lemma wire_lines_cons s rest : printable s -> wire_lines ((s ++ [10%N]) ++ rest) = (s ++ [10%N]) :: wire_lines rest.
Proof.
  intros Hs. unfold wire_lines. rewrite <- app_assoc. cbn [app]. rewrite split_line by (by apply printable_line).
  destruct (split_on 10 rest) eqn:E; [|done]. destruct rest; simpl in E; [done|]. repeat case_match; done.
Qed.

Lemma stream_decodes `{PyRuntime} (decode_error : pystr -> pystr) (ms : list JsonRpcMessage) :
  floats_printable -> Forall message_ok ms -> Forall loads_back ms ->
  wire_lines (concat (map encode ms)) = map encode ms /\ map (decode decode_error) (map encode ms) = map Ok ms.
Proof.
  intros Hf Hok Hl. induction ms as [|m ms IH]; [done|]. inv Hok. inv Hl. destruct IH as [IHl IHd]; [done..|].
  cbn [map concat]. unfold encode at 1. rewrite wire_lines_cons by (by apply dumps_printable). rewrite IHl, IHd.
  split; [done|]. f_equal. by apply decode_encode.
Qed.

(** messages written one after another to a stream are read back as the
    same messages in the same order: every message occupies exactly one line
    (line feeds inside its strings are escaped), and the strict decoder accepts
    what the encoder wrote. *)
Theorem wire_roundtrip `{PyRuntime} (decode_error : pystr -> pystr) (ms : list JsonRpcMessage) :
  floats_printable -> Forall message_ok ms -> Forall loads_back ms ->
  map (decode decode_error) (wire_lines (concat (map encode ms))) = map Ok ms.
Proof. intros Hf Hok Hl. destruct (stream_decodes decode_error ms) as [-> Hd]; done. Qed.

Definition sample_wire : list JsonRpcMessage :=
  [JsonRpcRequest (JInt 1) (u "tools/call") (JObj [(u "name", JStr (10%N :: u "x"))]);
   JsonRpcNotification (u "notifications/initialized") JNull;
   JsonRpcResponse (JInt 1) (JList []) None;
   JsonRpcResponse JNull JNull (Some [(u "code", JInt (-32700)); (u "message", JStr (u "bad"))])].

Definition sample_wire_runtime : PyRuntime :=
  decoding_runtime (map (fun m => (@json_dumps (decoding_runtime []) dumps_utf8 (JObj (to_dict m)), JObj (to_dict m))) sample_wire).

Lemma wire_roundtrip_witness :
  map (@decode sample_wire_runtime (fun _ => [])) (wire_lines (concat (map (@encode sample_wire_runtime) sample_wire)))
  = map Ok sample_wire.
Proof.
  apply (@wire_roundtrip sample_wire_runtime).
  - intros f. constructor.
  - repeat constructor; discriminate.
  - repeat constructor; vm_compute; reflexivity.
Defined.
