(* ===== verification/McpServer.v ===== *)
(** * The MCP server and its stdio transport
      (kinetic_sdk/mcp/server.py, kinetic_sdk/mcp/transport.py)

    The handshake, the method handlers with the permission policy and the audit
    log on the path of every [tools/call], the serving loop, and the line
    transport over the process's own streams. *)

From stdpp Require Import base strings list.
From Stdlib Require Import ZArith Lia.
From S2P Require Import Prelude Json Types Redact Policy PyText Protocol.

Definition PARSE_ERROR : Z := -32700.
Definition METHOD_NOT_FOUND : Z := -32601.
Definition INVALID_PARAMS : Z := -32602.
Definition SERVER_NOT_INITIALIZED : Z := -32002.
Definition MCP_PROTOCOL_VERSION : pystr := u "2025-03-26".

Definition transport_error (msg : pystr) : pyexn := PyExn (u "MCPTransportError") msg.
Definition mcp_timeout_error (msg : pystr) : pyexn := PyExn (u "MCPTimeoutError") msg.

(** [except MCPTransportError], which also catches its subclass. *)
Definition is_transport_error (e : pyexn) : bool :=
  bool_decide (exn_type e = u "MCPTransportError") || bool_decide (exn_type e = u "MCPTimeoutError").

(** What the server needs of its surroundings: tools that run, a clock and fresh ids. *)
Class ToolWorld (W : Type) := {
  tool_execute : Tool -> jdict -> W -> result ToolResult * W;
  uuid_hex : W -> pystr * W;
  utc_now : W -> pystr * W;
}.

Inductive ServerState := AWAITING_INITIALIZE | AWAITING_INITIALIZED_NOTIFICATION | READY.

#[export] Instance server_state_eq_dec : EqDecision ServerState.
Proof. solve_decision. Defined.

Record MCPServer := {
  _tools : list (pystr * Tool);
  _server_info : jdict;
  audit_entries : list jdict;
  _state : ServerState;
  client_protocol_version : option pystr;
  client_info : option jdict;
}.

Definition make_server `{PyRuntime} (tools : list Tool) (server_name server_version : pystr) : result MCPServer :=
  registered <-! foldl (fun acc tool => seen <-! acc ;;
      if dict_has (t_name tool) seen
      then Err (value_error (u "Duplicate tool name exposed to MCP server: " ++ py_repr (JStr (t_name tool))))
      else Ok (dict_set (t_name tool) tool seen)) (Ok []) tools ;;
  Ok {| _tools := registered; _server_info := [(u "name", JStr server_name); (u "version", JStr server_version)];
        audit_entries := []; _state := AWAITING_INITIALIZE; client_protocol_version := None; client_info := None |}.

Definition with_state (st : ServerState) (s : MCPServer) : MCPServer :=
  {| _tools := _tools s; _server_info := _server_info s; audit_entries := audit_entries s; _state := st;
     client_protocol_version := client_protocol_version s; client_info := client_info s |}.

Definition set_entries (es : list jdict) (s : MCPServer) : MCPServer :=
  {| _tools := _tools s; _server_info := _server_info s; audit_entries := es; _state := _state s;
     client_protocol_version := client_protocol_version s; client_info := client_info s |}.

Section Server.
Context `{PyRuntime, SecretPatterns, PermissionPolicy} {W : Type} `{ToolWorld W}.

(** One entry of the audit log; [mk] takes its id and timestamp. *)
Definition audit (mk : pystr -> pystr -> jdict) (s : MCPServer) (w : W) : MCPServer * W :=
  let (now, w1) := utc_now w in
  let (id, w2) := uuid_hex w1 in
  (set_entries (_record (audit_entries s) (mk id now)) s, w2).

Definition _handle_notification (method : pystr) (s : MCPServer) : MCPServer :=
  if bool_decide (method = u "notifications/initialized") && bool_decide (_state s = AWAITING_INITIALIZED_NOTIFICATION)
  then with_state READY s else s.

Definition _require_ready (id : json) (s : MCPServer) : option (result JsonRpcMessage) :=
  if bool_decide (_state s = READY) then None
  else Some (make_error id SERVER_NOT_INITIALIZED
    (u "Server not initialized: complete the initialize + notifications/initialized handshake first") JNull).

Definition as_params (params : json) : jdict := match params with JObj d => d | _ => [] end.

Definition _on_initialize (id params : json) (s : MCPServer) : result JsonRpcMessage * MCPServer :=
  match dict_get (u "protocolVersion") (as_params params) with
  | Some (JStr version) =>
    (make_response id (JObj [(u "protocolVersion", JStr MCP_PROTOCOL_VERSION);
        (u "capabilities", JObj [(u "tools", JObj [(u "listChanged", JBool false)])]);
        (u "serverInfo", JObj (_server_info s))]) None,
     {| _tools := _tools s; _server_info := _server_info s; audit_entries := audit_entries s;
        _state := AWAITING_INITIALIZED_NOTIFICATION; client_protocol_version := Some version;
        client_info := match dict_get (u "clientInfo") (as_params params) with Some (JObj d) => Some d | _ => None end |})
  | _ => (make_error id INVALID_PARAMS (u "initialize params miss 'protocolVersion'") JNull, s)
  end.

Definition _on_ping (id : json) : result JsonRpcMessage := make_response id (JObj []) None.

Definition tool_entry (tool : Tool) : json :=
  JObj [(u "name", JStr (t_name tool)); (u "description", JStr (t_description tool)); (u "inputSchema", t_parameters tool)].

Definition _on_tools_list (id : json) (s : MCPServer) : result JsonRpcMessage :=
  match _require_ready id s with
  | Some not_ready => not_ready
  | None => make_response id (JObj [(u "tools", JList (map (fun kv => tool_entry kv.2) (_tools s)))]) None
  end.

Definition text_result (text : pystr) (is_err : bool) : json :=
  JObj [(u "content", JList [JObj [(u "type", JStr (u "text")); (u "text", JStr text)]]); (u "isError", JBool is_err)].

Definition _tool_error_result (id : json) (message : pystr) : result JsonRpcMessage :=
  make_response id (text_result message true) None.

Definition _result_text (r : ToolResult) : pystr :=
  if is_error r then default [] (error r)
  else match output r with JNull => [] | JStr s => s | v => json_dumps dumps_utf8 v end.

(** [ToolResult(output=redact_value(...), error=redact_value(...), metadata=...)]. *)
Definition redact_result (r : ToolResult) : ToolResult :=
  {| output := redact_value (output r); error := option_map redact_secrets (error r); tr_metadata := tr_metadata r;
     failure_category := None; duration_seconds := None; artifacts := [] |}.

(** The outcome of [tool.execute], an exception turned into an error. *)
Definition as_result (r : result ToolResult) : ToolResult :=
  match r with Ok r => r | Err e => error_result (exn_type e ++ u ": " ++ exn_msg e) end.

Definition opt_json (e : option pystr) : json := match e with Some s => JStr s | None => JNull end.

(** The call itself, once it has been let through. *)
Definition perform_call (id : json) (tool : Tool) (name : pystr) (arguments : jdict) (s : MCPServer) (w : W)
    : result JsonRpcMessage * MCPServer * W :=
  let (raw, w1) := tool_execute tool arguments w in
  let r := redact_result (as_result raw) in
  let (s2, w2) := audit (fun i now => log_tool_result i now name (is_error r) (output r) (opt_json (error r))) s w1 in
  (make_response id (text_result (_result_text r) (is_error r)) None, s2, w2).

Definition deny_call (id : json) (name : pystr) (arguments : jdict) (why : pystr) (s : MCPServer) (w : W)
    : result JsonRpcMessage * MCPServer * W :=
  let (s2, w2) := audit (fun i now => log_permission_denied i now name arguments why) s w in
  (_tool_error_result id why, s2, w2).

Definition gated_call (id : json) (tool : Tool) (name : pystr) (arguments : jdict) (s : MCPServer) (w : W)
    : result JsonRpcMessage * MCPServer * W :=
  match check name arguments with
  | Err e => (Err e, s, w)
  | Ok decision =>
    let (s1, w1) := audit (fun i now => log_tool_call i now name arguments (allowed decision) (reason decision)
                                          (requires_confirmation decision)) s w in
    if negb (allowed decision) then deny_call id name arguments (u "Permission denied: " ++ reason decision) s1 w1
    else if requires_confirmation decision
    then deny_call id name arguments
           (u "requires manual confirmation, not yet supported in automated mode (" ++ reason decision ++ u ")") s1 w1
    else perform_call id tool name arguments s1 w1
  end.

Definition _on_tools_call (id params : json) (s : MCPServer) (w : W) : result JsonRpcMessage * MCPServer * W :=
  match _require_ready id s with
  | Some not_ready => (not_ready, s, w)
  | None =>
    match dict_get (u "name") (as_params params), dict_get (u "arguments") (as_params params) with
    | Some (JStr name), Some (JObj arguments) =>
      match dict_get name (_tools s) with
      | None => (make_error id INVALID_PARAMS (u "Unknown tool: " ++ py_repr (JStr name)) JNull, s, w)
      | Some tool => gated_call id tool name arguments s w
      end
    | _, _ => (make_error id INVALID_PARAMS
                 (u "tools/call params must contain str 'name' and object 'arguments'") JNull, s, w)
    end
  end.

Definition handle_request (id : json) (method : pystr) (params : json) (s : MCPServer) (w : W)
    : result JsonRpcMessage * MCPServer * W :=
  if bool_decide (method = u "initialize") then let (r, s') := _on_initialize id params s in (r, s', w)
  else if bool_decide (method = u "ping") then (_on_ping id, s, w)
  else if bool_decide (method = u "tools/list") then (_on_tools_list id s, s, w)
  else if bool_decide (method = u "tools/call") then _on_tools_call id params s w
  else (make_error id METHOD_NOT_FOUND (u "Method not found: " ++ py_repr (JStr method)) JNull, s, w).

Definition handle_message (m : JsonRpcMessage) (s : MCPServer) (w : W) : result (option JsonRpcMessage) * MCPServer * W :=
  match m with
  | JsonRpcNotification method _ => (Ok None, _handle_notification method s, w)
  | JsonRpcResponse _ _ _ => (Ok None, s, w)
  | JsonRpcRequest id method params =>
    let '(r, s', w') := handle_request id method params s w in (rmap Some r, s', w')
  end.
End Server.

(** ** Transports *)

Class Transport (T : Type) := {
  send : JsonRpcMessage -> T -> result unit * T;
  receive : option pyfloat -> T -> result JsonRpcMessage * T;
}.

(** [StdioTransport]: what its reader thread will put on the queue - lines, and
    for a receiver that waits with a deadline the moments a deadline passes
    first ([None]) - then the end of the stream; what was written; and whether
    the pipe still takes writes. *)
Record StdioTransport := { arrivals : list (option pystr); written : pystr; writable : bool; closed : bool }.

Section Stdio.
Context `{PyRuntime}.
Variable decode_error : pystr -> pystr.
(** The texts of the errors, which name the state of the process. *)
Variables death_detail write_detail late_detail : pystr.

Definition stdio_send (m : JsonRpcMessage) (t : StdioTransport) : result unit * StdioTransport :=
  if closed t then (Err (transport_error (u "send() on a closed StdioTransport")), t)
  else if writable t
  then (Ok tt, {| arrivals := arrivals t; written := written t ++ encode m; writable := true; closed := false |})
  else (Err (transport_error write_detail), t).

Fixpoint next_item (timeout : bool) (items : list (option pystr)) : option (option pystr) * list (option pystr) :=
  match items with
  | [] => (None, [])
  | Some line :: rest => (Some (Some line), rest)
  | None :: rest => if timeout then (Some None, rest) else next_item timeout rest
  end.

Definition stdio_receive (timeout : option pyfloat) (t : StdioTransport) : result JsonRpcMessage * StdioTransport :=
  let (item, rest) := next_item (match timeout with Some _ => true | None => false end) (arrivals t) in
  (match item with
   | None => Err (transport_error death_detail)
   | Some None => Err (mcp_timeout_error late_detail)
   | Some (Some line) => decode decode_error line
   end, {| arrivals := rest; written := written t; writable := writable t; closed := closed t |}).

Definition StdioTransport_instance : Transport StdioTransport := {| send := stdio_send; receive := stdio_receive |}.
End Stdio.

(** ** Serving *)

Section Serve.
Context `{PyRuntime} `{SecretPatterns} `{PermissionPolicy} {W : Type} `{ToolWorld W} {T : Type} `{Transport T}.

(** [serve_forever] of at most [fuel] messages; [None] is a loop still running. *)
Fixpoint serve_forever (fuel : nat) (s : MCPServer) (w : W) (t : T) : option (result unit * MCPServer * W * T) :=
  match fuel with
  | O => None
  | S fuel =>
    let (got, t1) := receive None t in
    match got with
    | Err e =>
      if is_transport_error e then Some (Ok tt, s, w, t1)
      else if bool_decide (exn_type e = u "MCPProtocolError") then
        match make_error JNull PARSE_ERROR (exn_msg e) JNull with
        | Err e' => Some (Err e', s, w, t1)
        | Ok reply =>
          let (sent, t2) := send reply t1 in
          match sent with
          | Ok _ => serve_forever fuel s w t2
          | Err e' => Some (if is_transport_error e' then Ok tt else Err e', s, w, t2)
          end
        end
      else Some (Err e, s, w, t1)
    | Ok m =>
      let '(response, s2, w2) := handle_message m s w in
      match response with
      | Err e => Some (Err e, s2, w2, t1)
      | Ok None => serve_forever fuel s2 w2 t1
      | Ok (Some reply) =>
        let (sent, t2) := send reply t1 in
        match sent with
        | Ok _ => serve_forever fuel s2 w2 t2
        | Err e' => Some (if is_transport_error e' then Ok tt else Err e', s2, w2, t2)
        end
      end
    end
  end.
End Serve.

(** ** The specification of a session *)

(** The handshake automaton. *)
Definition step_state (st : ServerState) (m : JsonRpcMessage) : ServerState :=
  match m with
  | JsonRpcRequest _ method params =>
    if bool_decide (method = u "initialize") && is_str (dict_get (u "protocolVersion") (as_params params))
    then AWAITING_INITIALIZED_NOTIFICATION else st
  | JsonRpcNotification method _ =>
    if bool_decide (method = u "notifications/initialized") && bool_decide (st = AWAITING_INITIALIZED_NOTIFICATION)
    then READY else st
  | JsonRpcResponse _ _ _ => st
  end.

(** A well-formed call of a served tool. *)
Definition called (tools : list (pystr * Tool)) (m : JsonRpcMessage) : option (pystr * jdict) :=
  match m with
  | JsonRpcRequest _ method params =>
    if bool_decide (method = u "tools/call") then
      match dict_get (u "name") (as_params params), dict_get (u "arguments") (as_params params) with
      | Some (JStr name), Some (JObj arguments) => if dict_has name tools then Some (name, arguments) else None
      | _, _ => None
      end
    else None
  | _ => None
  end.

(** What the policy lets through without a confirmation. *)
Definition permitted `{PermissionPolicy} (name : pystr) (arguments : jdict) : bool :=
  match check name arguments with Ok d => allowed d && negb (requires_confirmation d) | Err _ => false end.

Section Spec.
Context `{PermissionPolicy}.

(** The calls a session executes, and the events its audit log names. *)
Fixpoint session_calls (tools : list (pystr * Tool)) (st : ServerState) (ms : list JsonRpcMessage) : list (pystr * jdict) :=
  match ms with
  | [] => []
  | m :: ms =>
    match called tools m with
    | Some (name, arguments) => if bool_decide (st = READY) && permitted name arguments then [(name, arguments)] else []
    | None => []
    end ++ session_calls tools (step_state st m) ms
  end.

Fixpoint session_trail (tools : list (pystr * Tool)) (st : ServerState) (ms : list JsonRpcMessage) : list (pystr * pystr) :=
  match ms with
  | [] => []
  | m :: ms =>
    match called tools m with
    | Some (name, arguments) =>
      if bool_decide (st = READY)
      then [(u "tool_call", name);
            (if permitted name arguments then u "tool_result" else u "permission_denied", name)] else []
    | None => []
    end ++ session_trail tools (step_state st m) ms
  end.
End Spec.

Definition text_of (j : option json) : pystr := match j with Some (JStr s) => s | _ => [] end.

Definition trail (s : MCPServer) : list (pystr * pystr) :=
  map (fun e => (text_of (dict_get (u "event") e), text_of (dict_get (u "tool_name") e))) (audit_entries s).

(** The answer a message gets: a request one response with its id, others none. *)
Definition answers (m : JsonRpcMessage) (r : option JsonRpcMessage) : Prop :=
  match m with
  | JsonRpcRequest id _ _ => exists value err, r = Some (JsonRpcResponse id value err)
  | _ => r = None
  end.

(** An observable world: the calls that were executed in it. *)
Class ObservedWorld (W : Type) `{ToolWorld W} := {
  executed : W -> list (pystr * jdict);
  executed_execute : forall tool arguments w,
    executed (tool_execute tool arguments w).2 = executed w ++ [(t_name tool, arguments)];
  executed_uuid : forall w, executed (uuid_hex w).2 = executed w;
  executed_now : forall w, executed (utc_now w).2 = executed w;
}.

Section Session.
Context `{PyRuntime, SecretPatterns, PermissionPolicy} {W : Type} `{TW : ToolWorld W} {OW : ObservedWorld W}.
Hypothesis policy_total : forall name arguments, is_ok (check name arguments) = true.

Definition well_named (s : MCPServer) : Prop := Forall (fun kv => t_name kv.2 = kv.1) (_tools s).

(** How one handled message changes the server and the world. *)
Record handled (m : JsonRpcMessage) (s : MCPServer) (w : W) (r : result (option JsonRpcMessage)) (s' : MCPServer) (w' : W) : Prop := {
  h_tools : _tools s' = _tools s;
  h_state : _state s' = step_state (_state s) m;
  h_executed : executed w' = executed w ++ session_calls (_tools s) (_state s) [m];
  h_trail : trail s' = trail s ++ session_trail (_tools s) (_state s) [m];
  h_answer : exists o, r = Ok o /\ answers m o;
}.

Lemma audit_executed mk s (w : W) : executed (audit mk s w).2 = executed w.
Proof.
  unfold audit. pose proof (executed_now w). destruct (utc_now w) as [now w1]. pose proof (executed_uuid w1).
  destruct (uuid_hex w1) as [id w2]. simpl in *. congruence.
Qed.

Lemma audit_server event name mk s (w : W) :
  (forall id now, exists fields, mk id now = [(u "id", JStr id); (u "timestamp", JStr now); (u "event", JStr event); (u "tool_name", JStr name)] ++ fields) ->
  let s' := (audit mk s w).1 in
  _tools s' = _tools s /\ _state s' = _state s /\ trail s' = trail s ++ [(event, name)].
Proof.
  intros Hmk. unfold audit. destruct (utc_now w) as [now w1]. destruct (uuid_hex w1) as [id w2]. cbn [fst].
  split; [done|]. split; [done|]. unfold trail, set_entries, _record. cbn [audit_entries]. rewrite map_app. f_equal.
  destruct (Hmk id now) as [fields ->]. reflexivity.
Qed.

Lemma gated_call_handled id tool name arguments s w : t_name tool = name ->
  let '(r, s', w') := gated_call id tool name arguments s w in
  _tools s' = _tools s /\ _state s' = _state s /\
  executed w' = executed w ++ (if permitted name arguments then [(name, arguments)] else []) /\
  trail s' = trail s ++ [(u "tool_call", name); (if permitted name arguments then u "tool_result" else u "permission_denied", name)] /\
  exists value, r = Ok (JsonRpcResponse id value None).
Proof using policy_total.
  intros Hname. unfold gated_call, permitted. specialize (policy_total name arguments).
  destruct (check name arguments) as [d|e]; [|done].
  set (mk := fun i now => log_tool_call i now name arguments (allowed d) (reason d) (requires_confirmation d)).
  pose proof (audit_executed mk s w) as He.
  pose proof (audit_server (u "tool_call") name mk s w) as Hs.
  destruct Hs as (Ht & Hst & Htr). { intros i now. by eexists. }
  destruct (audit mk s w) as [s1 w1]. cbn [fst snd] in *.
  assert (forall why, let '(r, s', w') := deny_call id name arguments why s1 w1 in
    _tools s' = _tools s /\ _state s' = _state s /\ executed w' = executed w ++ [] /\
    trail s' = trail s ++ [(u "tool_call", name); (u "permission_denied", name)] /\
    exists value, r = Ok (JsonRpcResponse id value None)) as Hdeny.
  { intros why. unfold deny_call.
    pose proof (audit_executed (fun i now => log_permission_denied i now name arguments why) s1 w1) as He2.
    destruct (audit_server (u "permission_denied") name (fun i now => log_permission_denied i now name arguments why) s1 w1)
      as (Ht2 & Hst2 & Htr2). { intros i now. by eexists. }
    destruct (audit _ s1 w1) as [s2 w2]. cbn [fst snd] in *. rewrite app_nil_r.
    split_and!; try congruence; [by rewrite Htr2, Htr, <- app_assoc|by eexists]. }
  destruct (allowed d); cbn [negb andb]; [|apply Hdeny].
  destruct (requires_confirmation d); cbn [negb]; [apply Hdeny|]. clear Hdeny. unfold perform_call.
  pose proof (executed_execute tool arguments w1) as Hx. destruct (tool_execute tool arguments w1) as [raw w2].
  cbn [snd] in Hx. set (r := redact_result (as_result raw)).
  set (mk2 := fun i now => log_tool_result i now name (is_error r) (output r) (opt_json (error r))).
  pose proof (audit_executed mk2 s1 w2) as He2.
  destruct (audit_server (u "tool_result") name mk2 s1 w2) as (Ht2 & Hst2 & Htr2). { intros i now. by eexists. }
  destruct (audit mk2 s1 w2) as [s2 w3]. cbn [fst snd] in *.
  split_and!; try congruence; [by rewrite Htr2, Htr, <- app_assoc|by eexists].
Qed.

(** Handlers that call no tool. *)
Lemma handled_quiet m s (w : W) o s' : called (_tools s) m = None \/ _state s <> READY ->
  _tools s' = _tools s -> audit_entries s' = audit_entries s -> _state s' = step_state (_state s) m -> answers m o ->
  handled m s w (Ok o) s' w.
Proof.
  intros Hq Ht He Hst Ha. unfold session_calls, session_trail.
  assert (session_calls (_tools s) (_state s) [m] = [] /\ session_trail (_tools s) (_state s) [m] = []) as [Hc Htr].
  { cbn [session_calls session_trail]. destruct Hq as [->|Hn]; [done|]. rewrite (bool_decide_false _ Hn).
    by destruct (called _ m) as [[? ?]|]. }
  split; [done|done|by rewrite Hc, app_nil_r|by rewrite Htr, app_nil_r; unfold trail; rewrite He|by eexists].
Qed.

Lemma answers_request id method params (r : result JsonRpcMessage) :
  (exists value err, r = Ok (JsonRpcResponse id value err)) ->
  exists o, rmap Some r = Ok o /\ answers (JsonRpcRequest id method params) o.
Proof. intros (value & err & ->). eexists. split; [done|]. by do 2 eexists. Qed.

Lemma not_called id method params tools : method <> u "tools/call" -> called tools (JsonRpcRequest id method params) = None.
Proof. intros Hm. cbn [called]. by rewrite (bool_decide_false _ Hm). Qed.

Lemma same_state id method params st : method <> u "initialize" -> step_state st (JsonRpcRequest id method params) = st.
Proof. intros Hm. cbn [step_state]. by rewrite (bool_decide_false _ Hm). Qed.

Lemma initialize_handled id params s (w : W) : let (r, s') := _on_initialize id params s in
  handled (JsonRpcRequest id (u "initialize") params) s w (rmap Some r) s' w.
Proof.
  assert (Hc : called (_tools s) (JsonRpcRequest id (u "initialize") params) = None) by (by apply not_called).
  unfold _on_initialize. destruct (dict_get (u "protocolVersion") (as_params params)) as [j|] eqn:E.
  - destruct j; try (apply handled_quiet; [by left|done|done|cbn [step_state]; rewrite E; by rewrite andb_false_r|by do 2 eexists]).
    apply handled_quiet; [by left|done|done|cbn [step_state]; rewrite E; reflexivity|by do 2 eexists].
  - apply handled_quiet; [by left|done|done|cbn [step_state]; rewrite E; by rewrite andb_false_r|by do 2 eexists].
Qed.

Lemma require_ready_spec id s : match _require_ready id s with
  | None => _state s = READY
  | Some r => _state s <> READY /\ exists err, r = Ok (JsonRpcResponse id JNull (Some err))
  end.
Proof. unfold _require_ready. case_bool_decide; [done|]. split; [done|by eexists]. Qed.

Lemma tools_call_handled id params s (w : W) : well_named s -> let '(r, s', w') := _on_tools_call id params s w in
  handled (JsonRpcRequest id (u "tools/call") params) s w (rmap Some r) s' w'.
Proof using policy_total.
  intros Hn. assert (forall st, step_state st (JsonRpcRequest id (u "tools/call") params) = st) as Hst by (intros; by apply same_state).
  assert (Hquiet : forall err, called (_tools s) (JsonRpcRequest id (u "tools/call") params) = None \/ _state s <> READY ->
    handled (JsonRpcRequest id (u "tools/call") params) s w (rmap Some (Ok (JsonRpcResponse id JNull err))) s w).
  { intros err Hq. apply handled_quiet; [done..|by rewrite Hst|by do 2 eexists]. }
  unfold _on_tools_call. pose proof (require_ready_spec id s) as Hr.
  destruct (_require_ready id s) as [r|]; [destruct Hr as [Hr [err ->]]; apply Hquiet; by right|].
  assert (Hcalled : called (_tools s) (JsonRpcRequest id (u "tools/call") params) =
    match dict_get (u "name") (as_params params), dict_get (u "arguments") (as_params params) with
    | Some (JStr name), Some (JObj arguments) => if dict_has name (_tools s) then Some (name, arguments) else None
    | _, _ => None
    end) by reflexivity.
  destruct (dict_get (u "name") (as_params params)) as [[| | | |name| |]|]; try (apply Hquiet; by left).
  destruct (dict_get (u "arguments") (as_params params)) as [[| | | | | |arguments]|]; try (apply Hquiet; by left).
  unfold dict_has in Hcalled. destruct (dict_get name (_tools s)) as [tool|] eqn:Et; [|apply Hquiet; by left].
  assert (t_name tool = name) as Hname by (by apply dict_get_elem in Et; eapply Forall_forall in Et; [exact Et|]).
  pose proof (gated_call_handled id tool name arguments s w Hname) as Hg.
  destruct (gated_call id tool name arguments s w) as [[r s'] w']. destruct Hg as (Ht & Hs & He & Htr & value & ->).
  split; [done|by rewrite Hst| | |eexists; split; [done|by do 2 eexists]].
  - rewrite He. cbn [session_calls]. rewrite Hcalled, Hr, app_nil_r. reflexivity.
  - rewrite Htr. cbn [session_trail]. rewrite Hcalled, Hr, app_nil_r. reflexivity.
Qed.

Lemma handle_message_handled m s (w : W) : well_named s ->
  let '(r, s', w') := handle_message m s w in handled m s w r s' w'.
Proof using policy_total.
  intros Hn. destruct m as [id method params|method params|id value err]; cbn [handle_message].
  - unfold handle_request. case_bool_decide as Hm; [subst method|].
    { pose proof (initialize_handled id params s w) as Hi. by destruct (_on_initialize id params s). }
    case_bool_decide as Hp; [subst method; apply handled_quiet; [by left|done..|by do 2 eexists]|].
    case_bool_decide as Hl.
    { subst method. unfold _on_tools_list. pose proof (require_ready_spec id s) as Hr.
      destruct (_require_ready id s) as [r|]; [destruct Hr as [Hr [err ->]]|];
        (apply handled_quiet; [by left|done..|by do 2 eexists]). }
    case_bool_decide as Hc; [subst method|].
    { pose proof (tools_call_handled id params s w Hn) as Ht. by destruct (_on_tools_call id params s w) as [[? ?] ?]. }
    apply handled_quiet; [left; by apply not_called|done|done|by rewrite same_state|by do 2 eexists].
  - unfold _handle_notification. cbn [step_state].
    destruct (bool_decide (method = u "notifications/initialized") && bool_decide (_state s = AWAITING_INITIALIZED_NOTIFICATION)) eqn:E;
      apply handled_quiet; try done; try (by left); cbn [step_state]; by rewrite E.
  - apply handled_quiet; try done. by left.
Qed.

(** Handling one input after another; an exception of a handler ends it. *)
Fixpoint run_all {X} (f : X -> MCPServer -> W -> result (option JsonRpcMessage) * MCPServer * W) (xs : list X)
    (s : MCPServer) (w : W) : result (list (option JsonRpcMessage)) * MCPServer * W :=
  match xs with
  | [] => (Ok [], s, w)
  | x :: xs =>
    let '(r, s1, w1) := f x s w in
    match r with
    | Err e => (Err e, s1, w1)
    | Ok o => let '(rs, s2, w2) := run_all f xs s1 w1 in (rmap (cons o) rs, s2, w2)
    end
  end.

Lemma handle_all_session ms s (w : W) : well_named s ->
  exists os s' w', run_all handle_message ms s w = (Ok os, s', w') /\ Forall2 answers ms os /\
    _state s' = foldl step_state (_state s) ms /\
    executed w' = executed w ++ session_calls (_tools s) (_state s) ms /\
    trail s' = trail s ++ session_trail (_tools s) (_state s) ms.
Proof using policy_total OW.
  revert s w. induction ms as [|m ms IH]; intros s w Hn.
  - exists [], s, w. split_and!; try done; by rewrite app_nil_r.
  - cbn [run_all]. pose proof (handle_message_handled m s w Hn) as Hm.
    destruct (handle_message m s w) as [[r s1] w1]. destruct Hm as [Ht Hst He Htr (o & -> & Ha)].
    destruct (IH s1 w1) as (os & s2 & w2 & -> & Has & Hst2 & He2 & Htr2). { unfold well_named. by rewrite Ht. }
    exists (o :: os), s2, w2. split; [done|]. split; [by constructor|].
    cbn [foldl session_calls session_trail] in *. rewrite app_nil_r in He, Htr.
    rewrite Ht, Hst in He2, Htr2. rewrite He2, He, Htr2, Htr, Hst2, Hst, <- !app_assoc. done.
Qed.

(** ** The serving loop *)

Section Loop.
Variable decode_error : pystr -> pystr.
Variables death_detail write_detail late_detail : pystr.
#[local] Instance stdio : Transport StdioTransport := StdioTransport_instance decode_error death_detail write_detail late_detail.

(** What the loop makes of one line: the handler's answer, or a parse error. *)
Definition answer_line (line : pystr) (s : MCPServer) (w : W) : result (option JsonRpcMessage) * MCPServer * W :=
  match decode decode_error line with
  | Ok m => handle_message m s w
  | Err e => (rmap Some (make_error JNull PARSE_ERROR (exn_msg e) JNull), s, w)
  end.

Lemma answer_line_ok line s (w : W) : well_named s ->
  let '(r, s', w') := answer_line line s w in _tools s' = _tools s /\ exists o, r = Ok o.
Proof using policy_total OW.
  intros Hn. unfold answer_line. destruct (decode decode_error line) as [m|e]; [|split; [done|by eexists]].
  pose proof (handle_message_handled m s w Hn) as Hm. destruct (handle_message m s w) as [[r s1] w1].
  destruct Hm as [Ht _ _ _ (o & -> & _)]. split; [done|by eexists].
Qed.

Definition opened (lines : list pystr) (out : pystr) : StdioTransport :=
  {| arrivals := map Some lines; written := out; writable := true; closed := false |}.

Lemma serve_lines fuel lines out s (w : W) : well_named s -> length lines < fuel ->
  exists os s' w', run_all answer_line lines s w = (Ok os, s', w') /\
    serve_forever fuel s w (opened lines out) = Some (Ok tt, s', w', opened [] (out ++ concat (map encode (omap id os)))).
Proof using policy_total OW.
  revert fuel out s w. induction lines as [|line lines IH]; intros [|fuel] out s w Hn Hf; cbn [length] in Hf; try lia.
  - exists [], s, w. split; [done|]. cbn. by rewrite app_nil_r.
  - cbn [run_all serve_forever]. pose proof (answer_line_ok line s w Hn) as Hl.
    change (receive None (opened (line :: lines) out)) with (decode decode_error line, opened lines out).
    cbv iota. unfold answer_line in *. destruct (decode decode_error line) as [m|e] eqn:E.
    + destruct (handle_message m s w) as [[r s1] w1]. destruct Hl as (Ht & o & ->).
      assert (well_named s1) as Hn1 by (unfold well_named; by rewrite Ht). destruct o as [reply|].
      * change (send reply (opened lines out)) with (@Ok unit tt, opened lines (out ++ encode reply)). cbv iota.
        destruct (IH fuel (out ++ encode reply) s1 w1 Hn1) as (os & s2 & w2 & Hr & Hs); [lia|].
        unfold answer_line in Hr. rewrite Hr, Hs. exists (Some reply :: os), s2, w2. split; [done|]. cbn. by rewrite <- app_assoc.
      * destruct (IH fuel out s1 w1 Hn1) as (os & s2 & w2 & Hr & Hs); [lia|].
        unfold answer_line in Hr. rewrite Hr, Hs. by exists (None :: os), s2, w2.
    + pose proof (decode_raises_protocol_error decode_error line e E) as Hk.
      assert (is_transport_error e = false) as -> by (unfold is_transport_error; by rewrite Hk).
      rewrite Hk. rewrite bool_decide_true by done.
      change (make_error JNull PARSE_ERROR (exn_msg e) JNull) with
        (Ok (JsonRpcResponse JNull JNull (Some [(u "code", JInt PARSE_ERROR); (u "message", JStr (exn_msg e))]))). cbv iota.
      set (reply := JsonRpcResponse _ _ _).
      change (send reply (opened lines out)) with (@Ok unit tt, opened lines (out ++ encode reply)). cbv iota.
      destruct (IH fuel (out ++ encode reply) s w Hn) as (os & s2 & w2 & Hr & Hs); [lia|].
      unfold answer_line in Hr. rewrite Hr, Hs. exists (Some reply :: os), s2, w2. split; [done|]. cbn. by rewrite <- app_assoc.
Qed.

Lemma answer_encoded ms s (w : W) : map (decode decode_error) (map encode ms) = map Ok ms ->
  run_all answer_line (map encode ms) s w = run_all handle_message ms s w.
Proof.
  revert s w. induction ms as [|m ms IH]; intros s w; [done|]. cbn [map]. intros [= Hd Hds]. cbn [run_all].
  unfold answer_line at 1. rewrite Hd. destruct (handle_message m s w) as [[[o|] s1] w1]; [by rewrite (IH s1 w1 Hds)|done].
Qed.
End Loop.
End Session.

(** ** A fresh server *)

Definition registered_ok (reg : list (pystr * Tool)) : Prop := Forall (fun kv => t_name kv.2 = kv.1) reg.

Lemma registered_set name tool reg : t_name tool = name -> registered_ok reg -> registered_ok (dict_set name tool reg).
Proof.
  unfold registered_ok. intros Hn. induction reg as [|[k v] reg IH]; intros Hr; cbn [dict_set].
  - by repeat constructor.
  - inv Hr. case_decide; constructor; try done. by apply IH.
Qed.

Lemma registration_err `{PyRuntime} tools e :
  foldl (fun acc tool => seen <-! acc ;; if dict_has (t_name tool) seen
      then Err (value_error (u "Duplicate tool name exposed to MCP server: " ++ py_repr (JStr (t_name tool))))
      else Ok (dict_set (t_name tool) tool seen)) (Err e) tools = Err e.
Proof. by induction tools. Qed.

Lemma registration_ok `{PyRuntime} tools reg0 reg : registered_ok reg0 ->
  foldl (fun acc tool => seen <-! acc ;; if dict_has (t_name tool) seen
      then Err (value_error (u "Duplicate tool name exposed to MCP server: " ++ py_repr (JStr (t_name tool))))
      else Ok (dict_set (t_name tool) tool seen)) (Ok reg0) tools = Ok reg -> registered_ok reg.
Proof.
  revert reg0. induction tools as [|t tools IH]; intros reg0 H0; cbn [foldl rbind]; [by intros [= <-]|].
  destruct (dict_has (t_name t) reg0); [by rewrite registration_err|]. apply IH. by apply registered_set.
Qed.

Lemma registration_order `{PyRuntime} tools reg0 reg :
  foldl (fun acc tool => seen <-! acc ;; if dict_has (t_name tool) seen
      then Err (value_error (u "Duplicate tool name exposed to MCP server: " ++ py_repr (JStr (t_name tool))))
      else Ok (dict_set (t_name tool) tool seen)) (Ok reg0) tools = Ok reg -> reg = reg0 ++ map (fun t => (t_name t, t)) tools.
Proof.
  revert reg0. induction tools as [|t tools IH]; intros reg0; cbn [foldl rbind map]; [intros [= <-]; by rewrite app_nil_r|].
  destruct (dict_has (t_name t) reg0) eqn:E; [by rewrite registration_err|]. intros Hr. rewrite (IH _ Hr), (cons_middle (_, t)), app_assoc.
  f_equal. apply dict_set_absent. unfold dict_has in E. by destruct (dict_get (t_name t) reg0).
Qed.

Lemma make_server_tools `{PyRuntime} tools name version s : make_server tools name version = Ok s ->
  _tools s = map (fun t => (t_name t, t)) tools.
Proof.
  unfold make_server. destruct (foldl _ (Ok []) tools) as [reg|] eqn:E; [|done]. cbn [rbind]. intros [= <-].
  exact (registration_order _ _ _ E).
Qed.

Lemma make_server_fresh `{PyRuntime} tools name version s : make_server tools name version = Ok s ->
  well_named s /\ _state s = AWAITING_INITIALIZE /\ trail s = [].
Proof.
  unfold make_server. destruct (foldl _ (Ok []) tools) as [reg|] eqn:E; [|done]. cbn [rbind]. intros [= <-].
  split; [|done]. eapply registration_ok; [|exact E]. constructor.
Qed.

Definition initializes (m : JsonRpcMessage) : Prop := exists id params version,
  m = JsonRpcRequest id (u "initialize") params /\ dict_get (u "protocolVersion") (as_params params) = Some (JStr version).

Definition confirms (m : JsonRpcMessage) : Prop := exists params, m = JsonRpcNotification (u "notifications/initialized") params.

(** The server is ready only after both steps of the handshake, in order. *)
Lemma ready_means_handshake ms :
  (foldl step_state AWAITING_INITIALIZE ms = AWAITING_INITIALIZED_NOTIFICATION -> exists a i b, ms = a ++ i :: b /\ initializes i) /\
  (foldl step_state AWAITING_INITIALIZE ms = READY -> exists a i b n c, ms = a ++ i :: b ++ n :: c /\ initializes i /\ confirms n).
Proof.
  induction ms as [|m ms [IHa IHr]] using rev_ind; [split; done|]. rewrite foldl_app. cbn [foldl].
  set (st := foldl step_state AWAITING_INITIALIZE ms) in *.
  assert (Hkeep : (st = AWAITING_INITIALIZED_NOTIFICATION -> exists a i b, ms ++ [m] = a ++ i :: b /\ initializes i) /\
    (st = READY -> exists a i b n c, ms ++ [m] = a ++ i :: b ++ n :: c /\ initializes i /\ confirms n)).
  { split; intros E.
    - destruct (IHa E) as (a & i & b & -> & Hi). exists a, i, (b ++ [m]). split; [|done]. by rewrite <- app_assoc.
    - destruct (IHr E) as (a & i & b & n & c & -> & Hi & Hc). exists a, i, b, n, (c ++ [m]). split; [|done].
      rewrite <- !app_assoc. simpl. by rewrite <- app_assoc. }
  destruct m as [id method params|method params|id value err]; cbn [step_state]; [| |exact Hkeep].
  - destruct (bool_decide (method = u "initialize") && is_str _) eqn:E; [|exact Hkeep].
    apply andb_prop in E as [Em Ev]. apply bool_decide_eq_true in Em as ->. split; [|done]. intros _.
    exists ms, (JsonRpcRequest id (u "initialize") params), []. split; [done|].
    destruct (dict_get (u "protocolVersion") (as_params params)) as [[]|] eqn:Ev'; try done. by do 3 eexists.
  - destruct (bool_decide (method = u "notifications/initialized") && bool_decide (st = AWAITING_INITIALIZED_NOTIFICATION)) eqn:E; [|exact Hkeep].
    apply andb_prop in E as [Em Es]. apply bool_decide_eq_true in Em as ->. apply bool_decide_eq_true in Es. split; [done|]. intros _.
    destruct (IHa Es) as (a & i & b & -> & Hi). exists a, i, b, (JsonRpcNotification (u "notifications/initialized") params), [].
    split; [by rewrite <- app_assoc|]. split; [done|by eexists].
Qed.

(** Every call of a session was made by a message that found the server ready, and was permitted. *)
Lemma session_call_origin `{PermissionPolicy} tools st ms c : c ∈ session_calls tools st ms ->
  exists pre m post, ms = pre ++ m :: post /\ called tools m = Some c /\ foldl step_state st pre = READY /\
    permitted c.1 c.2 = true.
Proof.
  revert st. induction ms as [|m ms IH]; intros st; cbn [session_calls]; [by intros ?%elem_of_nil|].
  rewrite elem_of_app. intros [Hc|Hc].
  - destruct (called tools m) as [[name arguments]|] eqn:E; [|by apply elem_of_nil in Hc].
    destruct (bool_decide (st = READY) && permitted name arguments) eqn:Eb; [|by apply elem_of_nil in Hc].
    apply list_elem_of_singleton in Hc as ->. apply andb_prop in Eb as [Es Ep]. apply bool_decide_eq_true in Es.
    by exists [], m, ms.
  - destruct (IH _ Hc) as (pre & m' & post & -> & H1 & H2 & H3). by exists (m :: pre), m', post.
Qed.

(** ** Theorems *)

Section Theorems.
Context `{PyRuntime, SecretPatterns, PermissionPolicy} {W : Type} `{TW : ToolWorld W} {OW : ObservedWorld W}.
Variables decode_error : pystr -> pystr.
Variables death_detail write_detail late_detail : pystr.
#[local] Instance stdio_pipe : Transport StdioTransport := StdioTransport_instance decode_error death_detail write_detail late_detail.

(** C22: a whole session over stdio refines the handshake automaton. Whatever
    messages a peer writes, the loop returns cleanly at the end of the stream,
    writes for every request exactly one response with the request's id (and
    nothing for notifications and responses), executes exactly the tool calls
    that arrive after the handshake, name a served tool and pass the policy
    without needing a confirmation, in order, and logs each well-formed call
    with its outcome. *)
Theorem server_session tools name version s w ms :
  (forall n a, is_ok (check n a) = true) -> floats_printable -> Forall message_ok ms -> Forall loads_back ms ->
  make_server tools name version = Ok s ->
  exists os s' w',
    serve_forever (S (length ms)) s w (opened (wire_lines (concat (map encode ms))) []) =
      Some (Ok tt, s', w', opened [] (concat (map encode (omap id os)))) /\
    Forall2 answers ms os /\
    executed w' = executed w ++ session_calls (_tools s) AWAITING_INITIALIZE ms /\
    trail s' = session_trail (_tools s) AWAITING_INITIALIZE ms.
Proof.
  intros Hp Hf Hok Hl Hs. destruct (make_server_fresh _ _ _ _ Hs) as (Hn & Hst & Htr).
  destruct (stream_decodes decode_error ms Hf Hok Hl) as [-> Hd].
  destruct (serve_lines Hp decode_error death_detail write_detail late_detail (S (length ms)) (map encode ms) [] s w Hn)
    as (os & s' & w' & Hr & Hserve); [rewrite length_map; lia|].
  rewrite (answer_encoded decode_error ms s w Hd) in Hr.
  destruct (handle_all_session Hp ms s w Hn) as (os' & s2 & w2 & Hr2 & Ha & _ & He & Ht).
  rewrite Hr in Hr2. injection Hr2 as <- <- <-. exists os, s', w'. rewrite Htr, Hst in *. done.
Qed.

(** a tool runs for an external client only on a path through the
    handshake and the policy: every call executed while a fresh server handles
    any messages was asked for by one of them, after an [initialize] request
    with a protocol version and, later, the [notifications/initialized]
    notification, and the policy allows it without a confirmation. *)
Theorem served_calls_guarded tools name version s w ms os s' w' c :
  (forall n a, is_ok (check n a) = true) ->
  make_server tools name version = Ok s -> run_all handle_message ms s w = (Ok os, s', w') ->
  c ∈ drop (length (executed w)) (executed w') ->
  permitted c.1 c.2 = true /\
  exists a i b n d m e, ms = (a ++ i :: b ++ n :: d) ++ m :: e /\ initializes i /\ confirms n /\ called (_tools s) m = Some c.
Proof.
  intros Hp Hs Hr Hc. destruct (make_server_fresh _ _ _ _ Hs) as (Hn & Hst & _).
  destruct (handle_all_session Hp ms s w Hn) as (os' & s2 & w2 & Hr2 & _ & _ & He & _).
  rewrite Hr in Hr2. injection Hr2 as <- <- <-. rewrite He, drop_app_length, Hst in Hc.
  destruct (session_call_origin _ _ _ _ Hc) as (pre & m & post & -> & Hm & Hready & Hperm). split; [done|].
  destruct (proj2 (ready_means_handshake pre) Hready) as (a & i & b & n & d & -> & Hi & Hn'). by exists a, i, b, n, d, m, post.
Qed.

(** the loop survives any input: whatever the lines are, with one more
    step than lines it has returned normally, having answered each line in
    order - a malformed one with a parse error, whose id is null. *)
Theorem serve_survives_any_input tools name version s w lines :
  (forall n a, is_ok (check n a) = true) -> make_server tools name version = Ok s ->
  exists os s' w', run_all (answer_line decode_error) lines s w = (Ok os, s', w') /\ length os = length lines /\
    serve_forever (S (length lines)) s w (opened lines []) =
      Some (Ok tt, s', w', opened [] (concat (map encode (omap id os)))).
Proof using OW.
  intros Hp Hs. destruct (make_server_fresh _ _ _ _ Hs) as (Hn & _ & _).
  destruct (serve_lines Hp decode_error death_detail write_detail late_detail (S (length lines)) lines [] s w Hn)
    as (os & s' & w' & Hr & Hserve); [lia|].
  exists os, s', w'. split; [done|]. split; [|done]. clear -Hr. revert s w os Hr.
  induction lines as [|line lines IH]; intros s w os; cbn [run_all]; [by intros [= <- _ _]|].
  destruct (answer_line decode_error line s w) as [[[o|e] s1] w1]; [|done].
  destruct (run_all (answer_line decode_error) lines s1 w1) as [[[os'|e'] s2] w2] eqn:E; [|done].
  intros [= <- -> ->]. cbn [length]. f_equal. by eapply IH.
Qed.
End Theorems.

(** *** A concrete session *)

#[export] Instance echo_world : ToolWorld (list (pystr * jdict)) := {|
  tool_execute := fun tool arguments w => (Ok (output_result (JObj arguments)), w ++ [(t_name tool, arguments)]);
  uuid_hex := fun w => (u "00", w); utc_now := fun w => (u "2025-01-01", w) |}.

#[export] Instance echo_observed : ObservedWorld (list (pystr * jdict)).
Proof. exists (fun w => w); done. Defined.

Definition sample_tool (name : pystr) : Tool := {|
  t_name := name; t_description := []; t_parameters := JObj []; risk_level := None; execution_policy := None;
  accepts_idempotency_key := false |}.

Definition sample_call (id : Z) (name : pystr) : JsonRpcMessage :=
  JsonRpcRequest (JInt id) (u "tools/call") (JObj [(u "name", JStr name); (u "arguments", JObj [(u "q", JInt 1)])]).

(** A call too early, the handshake, a permitted call and a denied one. *)
Definition sample_session : list JsonRpcMessage :=
  [sample_call 1 (u "git"); JsonRpcRequest (JInt 2) (u "initialize") (JObj [(u "protocolVersion", JStr (u "1"))]);
   JsonRpcNotification (u "notifications/initialized") JNull; sample_call 3 (u "git"); sample_call 4 (u "rm")].

Definition session_runtime : PyRuntime :=
  decoding_runtime (map (fun m => (@json_dumps (decoding_runtime []) dumps_utf8 (JObj (to_dict m)), JObj (to_dict m))) sample_session).

#[local] Instance sample_secrets : SecretPatterns := {| rx_sub := fun _ s => s |}.

Definition git_only : PermissionPolicy := @AllowListPolicy session_runtime [u "git"] [].

Definition sample_server : MCPServer := {|
  _tools := [(u "git", sample_tool (u "git")); (u "rm", sample_tool (u "rm"))];
  _server_info := [(u "name", JStr (u "k")); (u "version", JStr (u "1"))];
  audit_entries := []; _state := AWAITING_INITIALIZE; client_protocol_version := None; client_info := None |}.

Lemma server_session_witness :
  @session_calls git_only (_tools sample_server) AWAITING_INITIALIZE sample_session = [(u "git", [(u "q", JInt 1)])] /\
  @session_trail git_only (_tools sample_server) AWAITING_INITIALIZE sample_session =
    [(u "tool_call", u "git"); (u "tool_result", u "git"); (u "tool_call", u "rm"); (u "permission_denied", u "rm")] /\
  exists os s' w',
    @serve_forever session_runtime _ git_only _ echo_world _ (stdio_pipe (H := session_runtime) (fun _ => []) [] [] []) 6 sample_server []
      (opened (wire_lines (concat (map (@encode session_runtime) sample_session))) []) =
      Some (Ok tt, s', w', opened [] (concat (map (@encode session_runtime) (omap id os)))) /\
    Forall2 answers sample_session os /\
    executed w' = @session_calls git_only (_tools sample_server) AWAITING_INITIALIZE sample_session /\
    trail s' = @session_trail git_only (_tools sample_server) AWAITING_INITIALIZE sample_session.
Proof.
  split; [vm_compute; reflexivity|]. split; [vm_compute; reflexivity|].
  apply (@server_session session_runtime _ git_only _ echo_world echo_observed (fun _ => []) [] [] []
    [sample_tool (u "git"); sample_tool (u "rm")] (u "k") (u "1") sample_server [] sample_session).
  - intros n a. reflexivity.
  - intros f. constructor.
  - repeat constructor; discriminate.
  - repeat constructor; vm_compute; reflexivity.
  - vm_compute. reflexivity.
Defined.

Lemma served_calls_guarded_witness :
  @permitted git_only (u "git") [(u "q", JInt 1)] = true /\
  exists a i b n d m e, sample_session = (a ++ i :: b ++ n :: d) ++ m :: e /\ initializes i /\ confirms n /\
    called (_tools sample_server) m = Some (u "git", [(u "q", JInt 1)]).
Proof.
  destruct (run_all (@handle_message session_runtime _ git_only _ echo_world) sample_session sample_server [])
    as [[r s'] w'] eqn:E.
  assert (exists os, r = Ok os) as [os ->] by (vm_compute in E; injection E as <- <- <-; by eexists).
  apply (@served_calls_guarded session_runtime _ git_only _ _ _
    [sample_tool (u "git"); sample_tool (u "rm")] (u "k") (u "1") sample_server [] sample_session os s' w'
    (u "git", [(u "q", JInt 1)])).
  - intros n a. reflexivity.
  - vm_compute. reflexivity.
  - exact E.
  - vm_compute in E. injection E as <- <- <-. vm_compute. left.
Defined.

Lemma serve_survives_any_input_witness : exists os s' w',
  run_all (@answer_line session_runtime _ git_only _ echo_world (fun _ => [])) [u "{"; []] sample_server [] = (Ok os, s', w') /\
  length os = 2%nat /\
  @serve_forever session_runtime _ git_only _ echo_world _ (stdio_pipe (H := session_runtime) (fun _ => []) [] [] []) 3 sample_server []
    (opened [u "{"; []] []) = Some (Ok tt, s', w', opened [] (concat (map (@encode session_runtime) (omap id os)))).
Proof.
  apply (@serve_survives_any_input session_runtime _ git_only _ echo_world echo_observed (fun _ => []) [] [] []
    [sample_tool (u "git"); sample_tool (u "rm")] (u "k") (u "1") sample_server [] [u "{"; []]).
  - intros n a. reflexivity.
  - vm_compute. reflexivity.
Defined.
