(* ===== verification/McpClient.v ===== *)
(** * The MCP client and the tool adapter
      (kinetic_sdk/mcp/client.py, kinetic_sdk/mcp/adapter.py)

    Requests matched to responses by id under a deadline, the handshake as the
    client runs it, and the adapter that turns a remote tool into a local one. *)

From stdpp Require Import base strings list.
From Stdlib Require Import ZArith Lia SpecFloat.
From S2P Require Import Prelude Json Types Redact Policy PyText Protocol McpServer.

Definition client_error (msg : pystr) : pyexn := PyExn (u "MCPClientError") msg.
Definition handshake_error (msg : pystr) : pyexn := PyExn (u "MCPHandshakeError") msg.

(** [except MCPClientError], with its subclasses. *)
Definition is_client_error (e : pyexn) : bool :=
  elem_b (exn_type e) [u "MCPClientError"; u "MCPHandshakeError"; u "MCPServerError"].

(** What the client uses besides the transport: a monotonic clock, and the
    callback for notifications (which does nothing when there is none). *)
Class ClientEnv (T : Type) := {
  monotonic : T -> pyfloat * T;
  on_notification : JsonRpcMessage -> T -> result unit * T;
}.

Record MCPClient (T : Type) := MkClient {
  transport : T;
  init_timeout : pyfloat;
  request_timeout : pyfloat;
  own_info : jdict;
  ids : Z;
  initialized : bool;
  protocol_version : option pystr;
  server_info : option jdict;
}.
Arguments MkClient {T}.
Arguments transport {T}.
Arguments init_timeout {T}.
Arguments request_timeout {T}.
Arguments own_info {T}.
Arguments ids {T}.
Arguments initialized {T}.
Arguments protocol_version {T}.
Arguments server_info {T}.

Definition make_client {T} (t : T) (init request : pyfloat) (name version : pystr) : MCPClient T :=
  MkClient t init request [(u "name", JStr name); (u "version", JStr version)] 1 false None None.

Section Client.
Context `{PyRuntime} {T : Type} `{Transport T} `{ClientEnv T}.

(** The client with another transport state and next id. *)
Definition stepped (c : MCPClient T) (t : T) (next : Z) : MCPClient T :=
  MkClient t (init_timeout c) (request_timeout c) (own_info c) next (initialized c) (protocol_version c) (server_info c).

Definition server_error (err : jdict) : result json :=
  match dict_get (u "code") err, dict_get (u "message") err with
  | Some code, Some message =>
    Err (PyExn (u "MCPServerError") (u "MCP server error " ++ py_str code ++ u ": " ++ py_str message))
  | None, _ => Err (PyExn (u "KeyError") (py_repr (JStr (u "code"))))
  | _, None => Err (PyExn (u "KeyError") (py_repr (JStr (u "message"))))
  end.

(** The loop of [_request]; [None] is a wait still going on. *)
Fixpoint await_response (fuel : nat) (request_id : Z) (method : pystr) (timeout deadline : pyfloat) (t : T)
    : option (result json * T) :=
  match fuel with
  | O => None
  | S fuel =>
    let (now, t1) := monotonic t in
    let remaining := fl_sub deadline now in
    if fl_le remaining (S754_zero false) then
      Some (Err (mcp_timeout_error (u "MCP server did not answer " ++ py_repr (JStr method) ++ u " (id=" ++ dec request_id ++
                 u ") within " ++ float_repr timeout ++ u "s")), t1)
    else
      let (got, t2) := receive (Some remaining) t1 in
      match got with
      | Err e => Some (Err e, t2)
      | Ok (JsonRpcNotification _ _ as msg) =>
        let (done, t3) := on_notification msg t2 in
        match done with
        | Err e => Some (Err e, t3)
        | Ok _ => await_response fuel request_id method timeout deadline t3
        end
      | Ok (JsonRpcRequest _ _ _) => await_response fuel request_id method timeout deadline t2
      | Ok (JsonRpcResponse id value err) =>
        if negb (py_eq id (JInt request_id)) then
          Some (Err (client_error (u "Response id mismatch for " ++ py_repr (JStr method) ++ u ": got id=" ++ py_repr id ++
                     u ", expected id=" ++ dec request_id ++
                     u " " ++ [8212%N] ++ u " the server is not pairing responses to requests correctly.")), t2)
        else match err with
             | Some err => Some (server_error err, t2)
             | None => Some (Ok value, t2)
             end
      end
  end.

Definition _request (fuel : nat) (method : pystr) (params : jdict) (timeout : pyfloat) (c : MCPClient T)
    : option (result json * MCPClient T) :=
  let (request_id, next) := next_request_id (ids c) in
  let (sent, t1) := send (JsonRpcRequest (JInt request_id) method (JObj params)) (transport c) in
  match sent with
  | Err e => Some (Err e, stepped c t1 next)
  | Ok _ =>
    let (now, t2) := monotonic t1 in
    match await_response fuel request_id method timeout (fl_add now timeout) t2 with
    | None => None
    | Some (r, t3) => Some (r, stepped c t3 next)
    end
  end.

Definition initialize (fuel : nat) (timeout : option pyfloat) (c : MCPClient T) : option (result jdict * MCPClient T) :=
  match initialized c, server_info c with
  | true, Some info => Some (Ok info, c)
  | true, None => Some (Err (PyExn (u "AssertionError") []), c)
  | false, _ =>
    match _request fuel (u "initialize")
            [(u "protocolVersion", JStr MCP_PROTOCOL_VERSION); (u "capabilities", JObj []);
             (u "clientInfo", JObj (own_info c))] (default (init_timeout c) timeout) c with
    | None => None
    | Some (Err e, c1) => Some (Err e, c1)
    | Some (Ok answer, c1) =>
      match answer, jget (u "protocolVersion") answer with
      | JObj info, Some (JStr version) =>
        let (sent, t2) := send (JsonRpcNotification (u "notifications/initialized") JNull) (transport c1) in
        let c2 done := MkClient t2 (init_timeout c1) (request_timeout c1) (own_info c1) (ids c1) done (Some version) (Some info) in
        Some (match sent with Err e => (Err e, c2 false) | Ok _ => (Ok info, c2 true) end)
      | _, _ => Some (Err (handshake_error (u "Server's initialize response misses a string 'protocolVersion': " ++
                                            py_repr answer)), c1)
      end
    end
  end.

Definition _require_initialized (operation : pystr) (c : MCPClient T) : result unit :=
  if initialized c then Ok tt
  else Err (client_error (u "Cannot call " ++ operation ++ u "() before initialize() completed " ++ [8212%N] ++
              u " the MCP handshake (initialize + notifications/initialized) must run first.")).

(** [timeout or self._request_timeout]. *)
Definition timeout_or (timeout : option pyfloat) (c : MCPClient T) : pyfloat :=
  match timeout with None | Some (S754_zero _) => request_timeout c | Some t => t end.

Definition list_tools (fuel : nat) (timeout : option pyfloat) (c : MCPClient T) : option (result (list json) * MCPClient T) :=
  match _require_initialized (u "list_tools") c with
  | Err e => Some (Err e, c)
  | Ok _ =>
    match _request fuel (u "tools/list") [] (timeout_or timeout c) c with
    | None => None
    | Some (r, c1) =>
      Some (result_ <-! r ;;
            match jget (u "tools") result_ with
            | Some (JList l) => Ok l
            | _ => Err (client_error (u "Malformed tools/list response: expected a 'tools' list, got " ++ py_repr result_))
            end, c1)
    end
  end.

Definition call_tool (fuel : nat) (name : pystr) (arguments : jdict) (timeout : option pyfloat) (c : MCPClient T)
    : option (result json * MCPClient T) :=
  match _require_initialized (u "call_tool") c with
  | Err e => Some (Err e, c)
  | Ok _ => _request fuel (u "tools/call") [(u "name", JStr name); (u "arguments", JObj arguments)] (timeout_or timeout c) c
  end.
End Client.

(** ** The adapter *)

Record MCPToolAdapter := {
  _tool_name : pystr;
  _server_name : pystr;
  a_timeout : option pyfloat;
  a_tool : Tool;
}.

Section Adapter.
Context `{PyRuntime, SecretPatterns} {T : Type} `{Transport T} `{ClientEnv T}.

Definition make_adapter (tool_name server_name description : pystr) (input_schema : json) (timeout : option pyfloat)
    : result MCPToolAdapter :=
  if bool_decide (tool_name = []) then Err (value_error (u "tool_name must be non-empty"))
  else if bool_decide (server_name = []) then Err (value_error (u "server_name must be non-empty"))
  else Ok {| _tool_name := tool_name; _server_name := server_name; a_timeout := timeout; a_tool := {|
    t_name := server_name ++ u "." ++ tool_name;
    t_description := if bool_decide (description = [])
      then u "MCP tool " ++ py_repr (JStr tool_name) ++ u " from server " ++ py_repr (JStr server_name) else description;
    t_parameters := if truthy input_schema then input_schema
      else JObj [(u "type", JStr (u "object")); (u "properties", JObj [])];
    risk_level := None; execution_policy := None; accepts_idempotency_key := false |} |}.

(** An entry of a [tools/list] answer, an object whose [description] is a string if it is there. *)
Definition from_mcp_schema (server_name : pystr) (schema : jdict) (timeout : option pyfloat) : result MCPToolAdapter :=
  match dict_get (u "name") schema with
  | Some (JStr ((_ :: _) as name)) =>
    make_adapter name server_name (match dict_get (u "description") schema with Some (JStr d) => d | _ => [] end)
      (default JNull (dict_get (u "inputSchema") schema)) timeout
  | _ => Err (value_error (u "MCP tool schema misses a string 'name': " ++ py_repr (JObj schema)))
  end.

Definition _extract_output (content : option json) : json :=
  match content with
  | Some (JList (([JObj block]) as blocks)) =>
    if bool_decide (dict_get (u "type") block = Some (JStr (u "text")))
    then default (JStr []) (dict_get (u "text") block) else JList blocks
  | Some (JList ((_ :: _) as blocks)) => JList blocks
  | _ => JStr []
  end.

Definition _as_text (v : json) : pystr := match v with JStr s => s | _ => json_dumps dumps_utf8 v end.

Definition or_text (s fallback : pystr) : pystr := match s with [] => fallback | _ => s end.

(** [ToolResult(output=..., error=..., metadata=metadata)]. *)
Definition adapter_result (a : MCPToolAdapter) (v : json) (err : option pystr) : ToolResult :=
  {| output := v; error := err;
     tr_metadata := [(u "mcp_server", JStr (_server_name a)); (u "mcp_tool", JStr (_tool_name a))];
     failure_category := None; duration_seconds := None; artifacts := [] |}.

Definition remote_result (a : MCPToolAdapter) (answer : json) : ToolResult :=
  match answer with
  | JObj d =>
    let out := redact_value (_extract_output (dict_get (u "content") d)) in
    if opt_truthy (dict_get (u "isError") d)
    then adapter_result a JNull (Some (or_text (_as_text out) (u "MCP server reported a tool error")))
    else adapter_result a out None
  | _ => adapter_result a JNull (Some (u "MCP tool " ++ py_repr (JStr (t_name (a_tool a))) ++
           u " returned a malformed result: " ++ py_repr answer))
  end.

Definition adapter_execute (fuel : nat) (a : MCPToolAdapter) (params : jdict) (c : MCPClient T)
    : option (result ToolResult * MCPClient T) :=
  match call_tool fuel (_tool_name a) params (a_timeout a) c with
  | None => None
  | Some (Err e, c1) =>
    Some (if is_client_error e || is_transport_error e
          then Ok (adapter_result a JNull (Some (u "MCP tool " ++ py_repr (JStr (t_name (a_tool a))) ++
                     u " call failed: " ++ exn_msg e)))
          else Err e, c1)
  | Some (Ok answer, c1) => Some (Ok (remote_result a answer), c1)
  end.

(** [MCPServerRegistry.get_tools_as_kinetic_tools], of a connected client. *)
Definition get_tools (fuel : nat) (server_name : pystr) (c : MCPClient T) : option (result (list MCPToolAdapter) * MCPClient T) :=
  match list_tools fuel None c with
  | None => None
  | Some (r, c1) =>
    Some (schemas <-! r ;;
          foldr (fun schema rest =>
            a <-! match schema with
                  | JObj d => from_mcp_schema server_name d None
                  | _ => Err (PyExn (u "AttributeError") (u "'" ++ type_name schema ++ u "' object has no attribute 'get'"))
                  end ;;
            rmap (cons a) rest)
            (Ok []) schemas, c1)
  end.
End Adapter.

(** ** A client and a server joined by a queue *)

(** The server's side of the wire: the server, its world, and the responses
    the client has not read yet. The clock stands still. *)
Record Loopback (W : Type) := MkLoop { lo_server : MCPServer; lo_world : W; lo_queue : list JsonRpcMessage }.
Arguments MkLoop {W}.
Arguments lo_server {W}.
Arguments lo_world {W}.
Arguments lo_queue {W}.

Section Loopback.
Context `{PyRuntime, SecretPatterns, PermissionPolicy} {W : Type} `{TW : ToolWorld W}.
Variable start : pyfloat.

Definition loop_send (m : JsonRpcMessage) (t : Loopback W) : result unit * Loopback W :=
  let '(r, s, w) := handle_message m (lo_server t) (lo_world t) in
  match r with
  | Ok reply => (Ok tt, MkLoop s w (lo_queue t ++ match reply with Some m => [m] | None => [] end))
  | Err e => (Err (transport_error (exn_msg e)), MkLoop s w (lo_queue t))
  end.

Definition loop_receive (timeout : option pyfloat) (t : Loopback W) : result JsonRpcMessage * Loopback W :=
  match lo_queue t with
  | [] => (Err (mcp_timeout_error []), t)
  | m :: q => (Ok m, MkLoop (lo_server t) (lo_world t) q)
  end.

#[local] Instance loopback_transport : Transport (Loopback W) := {| send := loop_send; receive := loop_receive |}.

#[local] Instance loopback_env : ClientEnv (Loopback W) :=
  {| monotonic := fun t => (start, t); on_notification := fun _ t => (Ok tt, t) |}.

(** The deadline is still ahead when the clock has not moved. *)
Definition in_time (timeout : pyfloat) : Prop := fl_le (fl_sub (fl_add start timeout) start) (S754_zero false) = false.

Lemma json_id_eq k n : py_eq (JInt k) (JInt n) = (k =? n)%Z.
Proof. reflexivity. Qed.

(** A request over an empty queue gets its own answer. *)
Lemma request_head fuel method params timeout (c : MCPClient (Loopback W)) s w value err :
  in_time timeout -> handle_message (JsonRpcRequest (JInt (ids c)) method (JObj params)) (lo_server (transport c)) (lo_world (transport c)) =
    (Ok (Some (JsonRpcResponse (JInt (ids c)) value err)), s, w) ->
  lo_queue (transport c) = [] ->
  _request (S fuel) method params timeout c =
    Some (match err with Some e => server_error e | None => Ok value end, stepped c (MkLoop s w []) (ids c + 1)).
Proof.
  intros Ht Hm Hq. unfold _request, next_request_id. cbn [send loopback_transport]. unfold loop_send. rewrite Hm, Hq.
  cbn [app monotonic loopback_env await_response]. rewrite Ht.
  cbn [receive loopback_transport]. unfold loop_receive. cbn [lo_queue]. rewrite json_id_eq, Z.eqb_refl. cbn [negb].
  by destruct err.
Qed.

(** A response left over from an earlier request fails the next one. *)
Lemma request_stale fuel method params timeout (c : MCPClient (Loopback W)) s w reply old value err q :
  in_time timeout -> handle_message (JsonRpcRequest (JInt (ids c)) method (JObj params)) (lo_server (transport c)) (lo_world (transport c)) =
    (Ok (Some reply), s, w) ->
  lo_queue (transport c) = JsonRpcResponse (JInt old) value err :: q -> old <> ids c ->
  exists e, exn_type e = u "MCPClientError" /\
    _request (S fuel) method params timeout c = Some (Err e, stepped c (MkLoop s w (q ++ [reply])) (ids c + 1)).
Proof.
  intros Ht Hm Hq Hne. unfold _request, next_request_id. cbn [send loopback_transport]. unfold loop_send. rewrite Hm, Hq. cbn [app].
  cbn [monotonic loopback_env await_response]. rewrite Ht.
  cbn [receive loopback_transport]. unfold loop_receive. cbn [lo_queue]. rewrite json_id_eq, (proj2 (Z.eqb_neq _ _) Hne). cbn [negb].
  eexists. split; [|reflexivity]. reflexivity.
Qed.

(** Many calls in a row; each result is kept. *)
Fixpoint calls (fuel : nat) (requests : list (pystr * jdict)) (c : MCPClient (Loopback W)) : option (list (result json) * MCPClient (Loopback W)) :=
  match requests with
  | [] => Some ([], c)
  | (name, arguments) :: rest =>
    match call_tool fuel name arguments None c with
    | None => None
    | Some (r, c1) => match calls fuel rest c1 with None => None | Some (rs, c2) => Some (r :: rs, c2) end
    end
  end.

Hypothesis policy_total : forall name arguments, is_ok (check name arguments) = true.

(** What [call_tool] sends is answered with a response of the same id. *)
Lemma tools_call_answered id name arguments s (w : W) : exists value err s' w',
  handle_message (JsonRpcRequest id (u "tools/call") (JObj [(u "name", JStr name); (u "arguments", JObj arguments)])) s w =
    (Ok (Some (JsonRpcResponse id value err)), s', w').
Proof using policy_total.
  cbn [handle_message]. unfold handle_request. do 3 rewrite bool_decide_false by discriminate. rewrite bool_decide_true by done.
  unfold _on_tools_call. pose proof (require_ready_spec id s) as Hr. destruct (_require_ready id s); [destruct Hr as [_ [e ->]]; by do 4 eexists|].
  change (dict_get (u "name") _) with (Some (JStr name)). change (dict_get (u "arguments") _) with (Some (JObj arguments)). cbn iota.
  destruct (dict_get name (_tools s)) as [tool|]; [|by do 4 eexists].
  unfold gated_call. specialize (policy_total name arguments). destruct (check name arguments) as [d|]; [|done].
  destruct (audit _ s w) as [s1 w1]. unfold deny_call, perform_call.
  destruct (negb (allowed d)); [destruct (audit _ s1 w1); by do 4 eexists|].
  destruct (requires_confirmation d); [destruct (audit _ s1 w1); by do 4 eexists|].
  destruct (tool_execute tool arguments w1) as [raw w2]. destruct (audit _ s1 w2). by do 4 eexists.
Qed.

Definition stale (c : MCPClient (Loopback W)) : Prop :=
  exists old value err, lo_queue (transport c) = [JsonRpcResponse (JInt old) value err] /\ (old < ids c)%Z.

Lemma stale_calls fuel requests (c : MCPClient (Loopback W)) :
  initialized c = true -> in_time (request_timeout c) -> stale c ->
  exists rs c', calls (S fuel) requests c = Some (rs, c') /\
    Forall (fun r => exists e, r = Err e /\ exn_type e = u "MCPClientError") rs.
Proof using policy_total.
  revert c. induction requests as [|[name arguments] requests IH]; intros c Hi Ht Hs; [exists [], c; split; [done|constructor]|].
  destruct Hs as (old & value & err & Hq & Hlt).
  destruct (tools_call_answered (JInt (ids c)) name arguments (lo_server (transport c)) (lo_world (transport c))) as (v & e & s' & w' & Hm).
  destruct (request_stale fuel (u "tools/call") _ (request_timeout c) c s' w' _ old value err [] Ht Hm Hq) as (ex & Hex & Hr); [lia|].
  cbn [calls]. unfold call_tool, _require_initialized. rewrite Hi. cbn [timeout_or]. rewrite Hr.
  destruct (IH (stepped c (MkLoop s' w' ([] ++ [JsonRpcResponse (JInt (ids c)) v e])) (ids c + 1)%Z)) as (rs & c' & Hc & Hrs); [done|done| |].
  { exists (ids c), v, e. split; [done|]. cbn [stepped ids]. lia. }
  rewrite Hc. eexists _, _. split; [reflexivity|]. constructor; [by exists ex|done].
Qed.

(** The result of the remote tool, as the adapter reports it. *)
Definition flattened (a : MCPToolAdapter) (r : ToolResult) : ToolResult :=
  let r := redact_result r in
  if is_error r
  then adapter_result a JNull (Some (or_text (redact_secrets (default [] (error r))) (u "MCP server reported a tool error")))
  else adapter_result a (JStr (redact_secrets (_result_text r))) None.

Lemma flattened_text a r : remote_result a (text_result (_result_text (redact_result r)) (is_error (redact_result r))) = flattened a r.
Proof.
  unfold remote_result, text_result, flattened. set (r' := redact_result r).
  change (dict_get (u "content") _) with (Some (JList [JObj [(u "type", JStr (u "text")); (u "text", JStr (_result_text r'))]])).
  change (dict_get (u "isError") _) with (Some (JBool (is_error r'))).
  unfold _extract_output. cbn beta iota. rewrite bool_decide_true by reflexivity.
  change (dict_get (u "text") _) with (Some (JStr (_result_text r'))). cbn [default redact_value opt_truthy truthy].
  unfold _result_text. destruct (is_error r'); reflexivity.
Qed.
End Loopback.

(** ** Theorems *)

Section Theorems.
Context `{PyRuntime, SecretPatterns, PermissionPolicy} {W : Type} `{TW : ToolWorld W} {OW : ObservedWorld W}.
Variable start : pyfloat.
#[local] Instance queue_transport : Transport (Loopback W) := loopback_transport.
#[local] Instance queue_env : ClientEnv (Loopback W) := loopback_env start.

Definition joined (s : MCPServer) (w : W) (init request : pyfloat) (name version : pystr) : MCPClient (Loopback W) :=
  make_client (MkLoop s w []) init request name version.

(** Why a call is refused. *)
Definition refusal (d : PermissionDecision) : pystr :=
  if allowed d then u "requires manual confirmation, not yet supported in automated mode (" ++ reason d ++ u ")"
  else u "Permission denied: " ++ reason d.

(** The call, its decision logged, in the world it finds. *)
Definition logged (name : pystr) (arguments : jdict) (d : PermissionDecision) (s : MCPServer) (w : W) : W :=
  (audit (fun i now => log_tool_call i now name arguments (allowed d) (reason d) (requires_confirmation d)) s w).2.

Lemma make_result id value : make_response id value None = Ok (JsonRpcResponse id value None).
Proof. by destruct value. Qed.

Lemma gated_call_text id tool name arguments s (w : W) d : check name arguments = Ok d ->
  (gated_call id tool name arguments s w).1.1 =
  make_response id (if allowed d && negb (requires_confirmation d)
    then let r := redact_result (as_result (tool_execute tool arguments (logged name arguments d s w)).1) in
         text_result (_result_text r) (is_error r)
    else text_result (refusal d) true) None.
Proof.
  intros Hd. unfold gated_call, logged, refusal. rewrite Hd. destruct (audit _ s w) as [s1 w1]. cbn [snd].
  unfold deny_call, perform_call. destruct (allowed d); cbn [negb andb]; [|by destruct (audit _ s1 w1)].
  destruct (requires_confirmation d); cbn [negb]; [by destruct (audit _ s1 w1)|].
  destruct (tool_execute tool arguments w1) as [raw w2]. cbn [fst]. by destruct (audit _ s1 w2).
Qed.

(** C28: a tool behind MCP behaves as the tool itself under the server's
    policy. Executing its adapter over a ready connection runs the tool on the
    given arguments exactly if the policy allows it without a confirmation, and
    returns its redacted result as text; otherwise it returns an error that
    states the policy's reason. The connection is left ready, with no response
    unread. *)
Theorem remote_call_is_local_call fuel a tool arguments (c : MCPClient (Loopback W)) s w d :
  (forall n x, is_ok (check n x) = true) -> well_named s ->
  transport c = MkLoop s w [] -> initialized c = true -> _state s = READY ->
  in_time start (timeout_or (a_timeout a) c) ->
  dict_get (_tool_name a) (_tools s) = Some tool -> check (_tool_name a) arguments = Ok d ->
  let granted := allowed d && negb (requires_confirmation d) in
  exists s' w', adapter_execute (S fuel) a arguments c =
      Some (Ok (if granted then flattened a (as_result (tool_execute tool arguments (logged (_tool_name a) arguments d s w)).1)
                else adapter_result a JNull (Some (or_text (redact_secrets (refusal d)) (u "MCP server reported a tool error")))),
            stepped c (MkLoop s' w' []) (ids c + 1)) /\
    _state s' = READY /\ _tools s' = _tools s /\
    executed w' = executed w ++ (if granted then [(_tool_name a, arguments)] else []).
Proof.
  intros Hp Hn Ht Hi Hs Hin Htool Hd granted.
  assert (t_name tool = _tool_name a) as Hname by (by apply dict_get_elem in Htool; eapply Forall_forall in Htool; [exact Htool|]).
  pose proof (gated_call_handled Hp (JInt (ids c)) tool (_tool_name a) arguments s w Hname) as Hg.
  pose proof (gated_call_text (JInt (ids c)) tool (_tool_name a) arguments s w d Hd) as Htext.
  assert (permitted (_tool_name a) arguments = granted) as Hperm by (unfold permitted; by rewrite Hd).
  assert (Hm : handle_message (JsonRpcRequest (JInt (ids c)) (u "tools/call") (JObj [(u "name", JStr (_tool_name a)); (u "arguments", JObj arguments)])) s w =
    (let '(r, s', w') := gated_call (JInt (ids c)) tool (_tool_name a) arguments s w in (rmap Some r, s', w'))).
  { cbn [handle_message]. unfold handle_request. do 3 rewrite bool_decide_false by discriminate. rewrite bool_decide_true by done.
    unfold _on_tools_call. pose proof (require_ready_spec (JInt (ids c)) s) as Hr. destruct (_require_ready _ s); [by destruct Hr|].
    change (dict_get (u "name") _) with (Some (JStr (_tool_name a))). change (dict_get (u "arguments") _) with (Some (JObj arguments)).
    cbn iota. by rewrite Htool. }
  destruct (gated_call (JInt (ids c)) tool (_tool_name a) arguments s w) as [[r s'] w'].
  destruct Hg as (Hts & Hst & He & _ & value & ->). cbn [fst] in Htext. exists s', w'. rewrite Hperm in He.
  split; [|by rewrite Hst]. unfold adapter_execute, call_tool, _require_initialized. rewrite Hi. unfold queue_transport, queue_env.
  rewrite (request_head start fuel _ _ _ c s' w' value None Hin); [|by rewrite Ht|by rewrite Ht].
  f_equal. f_equal. f_equal. rewrite make_result in Htext. injection Htext as ->. fold granted. destruct granted; [apply flattened_text|].
  unfold remote_result, text_result.
  change (dict_get (u "content") _) with (Some (JList [JObj [(u "type", JStr (u "text")); (u "text", JStr (refusal d))]])).
  change (dict_get (u "isError") _) with (Some (JBool true)).
  unfold _extract_output. cbn beta iota. rewrite bool_decide_true by reflexivity. reflexivity.
Qed.

(** a late answer poisons a connection for good. Once a response of an
    earlier request is still unread (its request timed out on the client), every
    later call over that connection fails with an id mismatch, each leaving its
    own response behind for the next one. *)
Theorem late_answer_poisons_client fuel requests (c : MCPClient (Loopback W)) old value err :
  (forall n x, is_ok (check n x) = true) -> initialized c = true -> in_time start (request_timeout c) ->
  lo_queue (transport c) = [JsonRpcResponse (JInt old) value err] -> (old < ids c)%Z ->
  exists rs c', calls start (S fuel) requests c = Some (rs, c') /\ length rs = length requests /\
    Forall (fun r => exists e, r = Err e /\ exn_type e = u "MCPClientError") rs.
Proof.
  intros Hp Hi Hin Hq Hlt. destruct (stale_calls start Hp fuel requests c Hi Hin) as (rs & c' & Hc & Hrs); [by exists old, value, err|].
  exists rs, c'. split; [done|]. split; [|done]. clear -Hc. revert c rs Hc.
  induction requests as [|[name arguments] requests IH]; intros c rs; cbn [calls]; [by intros [= <- _]|].
  destruct (call_tool (S fuel) name arguments None c) as [[r c1]|]; [|done].
  destruct (calls start (S fuel) requests c1) as [[rs' c2]|] eqn:E; [|done]. intros [= <- <-]. cbn [length]. f_equal. by eapply IH.
Qed.

Lemma schemas_adapters server_name ts : server_name <> [] -> Forall (fun t => t_name t <> []) ts ->
  exists adapters,
    foldr (fun schema rest =>
            a <-! match schema with
                  | JObj d => from_mcp_schema server_name d None
                  | _ => Err (PyExn (u "AttributeError") (u "'" ++ type_name schema ++ u "' object has no attribute 'get'"))
                  end ;;
            rmap (cons a) rest) (Ok []) (map tool_entry ts) = Ok adapters /\
    map _tool_name adapters = map t_name ts /\
    map (fun a => t_name (a_tool a)) adapters = map (fun t => server_name ++ u "." ++ t_name t) ts.
Proof.
  intros Hs Hts. induction Hts as [|t ts Ht _ (adapters & IH & Hn & Hp)]; [by exists []|]. cbn [map foldr]. rewrite IH.
  unfold tool_entry at 1. cbn [rbind]. unfold from_mcp_schema.
  change (dict_get (u "name") _) with (Some (JStr (t_name t))). cbn iota.
  destruct (t_name t) as [|x name] eqn:En; [done|]. unfold make_adapter.
  rewrite (bool_decide_false (_ :: _ = [])) by done. rewrite (bool_decide_false (server_name = [])) by done. cbn [rbind rmap].
  eexists. split; [reflexivity|]. cbn [map _tool_name a_tool t_name]. rewrite Hn, Hp. done.
Qed.

Definition initialize_result (s : MCPServer) : jdict :=
  [(u "protocolVersion", JStr MCP_PROTOCOL_VERSION);
   (u "capabilities", JObj [(u "tools", JObj [(u "listChanged", JBool false)])]); (u "serverInfo", JObj (_server_info s))].

Lemma initialize_answered id version rest s (w : W) : exists s1,
  handle_message (JsonRpcRequest id (u "initialize") (JObj ((u "protocolVersion", JStr version) :: rest))) s w =
    (Ok (Some (JsonRpcResponse id (JObj (initialize_result s)) None)), s1, w) /\
  _state s1 = AWAITING_INITIALIZED_NOTIFICATION /\ _tools s1 = _tools s.
Proof. by eexists. Qed.

Lemma notification_handled s (w : W) : _state s = AWAITING_INITIALIZED_NOTIFICATION ->
  handle_message (JsonRpcNotification (u "notifications/initialized") JNull) s w = (Ok None, with_state READY s, w).
Proof. intros Hs. cbn [handle_message]. unfold _handle_notification. by rewrite Hs. Qed.

Lemma list_answered id s (w : W) : _state s = READY ->
  handle_message (JsonRpcRequest id (u "tools/list") (JObj [])) s w =
    (Ok (Some (JsonRpcResponse id (JObj [(u "tools", JList (map (fun kv => tool_entry kv.2) (_tools s)))]) None)), s, w).
Proof.
  intros Hs. cbn [handle_message]. unfold handle_request. do 2 rewrite bool_decide_false by discriminate. rewrite bool_decide_true by done.
  unfold _on_tools_list, _require_ready. by rewrite Hs.
Qed.

(** connecting works. A client that initialises against a fresh server and
    lists its tools becomes ready, leaves the server ready and the connection
    clean, and gets one adapter per served tool, in order, each named by the
    server and the tool. *)
Theorem connecting_lists_the_tools fuel tools server_name name version sname sversion init request s (w : W) :
  make_server tools sname sversion = Ok s -> server_name <> [] -> Forall (fun t => t_name t <> []) tools ->
  in_time start init -> in_time start request ->
  exists info c1 adapters c2 s2,
    initialize (S fuel) None (joined s w init request name version) = Some (Ok info, c1) /\
    get_tools (S fuel) server_name c1 = Some (Ok adapters, c2) /\
    initialized c2 = true /\ transport c2 = MkLoop s2 w [] /\ _state s2 = READY /\ _tools s2 = _tools s /\
    map _tool_name adapters = map t_name tools /\
    map (fun a => t_name (a_tool a)) adapters = map (fun t => server_name ++ u "." ++ t_name t) tools.
Proof.
  intros Hs Hsn Hts Hi Hr. pose proof (make_server_tools _ _ _ _ Hs) as Hreg.
  destruct (schemas_adapters server_name tools Hsn Hts) as (adapters & Ha & Hn & Hp).
  destruct (initialize_answered (JInt 1) MCP_PROTOCOL_VERSION
    [(u "capabilities", JObj []); (u "clientInfo", JObj [(u "name", JStr name); (u "version", JStr version)])] s w) as (s1 & Hm & Hst & Hto).
  set (c := joined s w init request name version). unfold initialize. change (initialized c) with false. cbn iota.
  change (own_info c) with [(u "name", JStr name); (u "version", JStr version)]. change (default (init_timeout c) None) with init.
  unfold queue_transport, queue_env. rewrite (request_head start fuel _ _ _ c s1 w _ None Hi Hm) by reflexivity.
  cbn iota. change (jget (u "protocolVersion") (JObj (initialize_result s))) with (Some (JStr MCP_PROTOCOL_VERSION)). cbn iota zeta.
  cbn [send loopback_transport]. unfold loop_send. cbn [stepped transport lo_server lo_world lo_queue].
  rewrite notification_handled by done. cbn [app].
  set (c2 := MkClient _ _ _ _ _ true _ _).
  do 2 eexists. exists adapters. do 2 eexists. split; [reflexivity|].
  unfold get_tools, list_tools, _require_initialized. cbn [initialized c2].
  change (timeout_or None c2) with request.
  rewrite (request_head start fuel _ _ _ c2 _ w _ None Hr (list_answered (JInt (ids c2)) (with_state READY s1) w eq_refl)) by reflexivity.
  assert (map (fun kv => tool_entry kv.2) (_tools (with_state READY s1)) = map tool_entry tools) as ->.
  { cbn [with_state _tools]. by rewrite Hto, Hreg, map_map. }
  cbn [rbind].
  change (jget (u "tools") (JObj [(u "tools", JList (map tool_entry tools))])) with (Some (JList (map tool_entry tools))). cbn iota.
  cbn [rbind]. rewrite Ha. split; [reflexivity|]. done.
Qed.
End Theorems.

(** Where the adapter falls short of its own description. *)

(** A line that is not JSON-RPC ends the call with an exception, not a result. *)
Lemma malformed_line_escapes `{PyRuntime, SecretPatterns} {T} `{Transport T} `{ClientEnv T} fuel a params (c : MCPClient T) msg t0 t1 t2 t3 now now' :
  initialized c = true ->
  send (JsonRpcRequest (JInt (ids c)) (u "tools/call") (JObj [(u "name", JStr (_tool_name a)); (u "arguments", JObj params)])) (transport c) = (Ok tt, t0) ->
  monotonic t0 = (now, t1) -> monotonic t1 = (now', t2) ->
  fl_le (fl_sub (fl_add now (timeout_or (a_timeout a) c)) now') (S754_zero false) = false ->
  receive (Some (fl_sub (fl_add now (timeout_or (a_timeout a) c)) now')) t2 = (Err (protocol_error msg), t3) ->
  adapter_execute (S fuel) a params c = Some (Err (protocol_error msg), stepped c t3 (ids c + 1)).
Proof.
  intros Hi Hs H1' H2' Hle Hr. unfold adapter_execute, call_tool, _require_initialized, _request, next_request_id. rewrite Hi, Hs, H1'.
  cbn [await_response]. rewrite H2', Hle, Hr. reflexivity.
Qed.

(** The prefix does not keep the tools of two servers apart. *)
Lemma adapter_names_collide `{PyRuntime} :
  rmap (fun a => t_name (a_tool a)) (make_adapter (u "b.c") (u "a") [] JNull None) =
  rmap (fun a => t_name (a_tool a)) (make_adapter (u "c") (u "a.b") [] JNull None).
Proof. vm_compute. reflexivity. Qed.

(** ** Concrete connections *)

#[local] Instance plain_secrets : SecretPatterns := {| rx_sub := fun _ s => s |}.

Definition ready_server : MCPServer := with_state READY sample_server.
Definition zero : pyfloat := S754_zero false.

Definition ready_client (q : list JsonRpcMessage) : MCPClient (Loopback (list (pystr * jdict))) :=
  MkClient (MkLoop ready_server [] q) (fl_of_Z 10) (fl_of_Z 30) [] 5 true None None.

Definition adapter_of (name : pystr) : MCPToolAdapter := {|
  _tool_name := name; _server_name := u "unity"; a_timeout := None; a_tool := sample_tool (u "unity." ++ name) |}.

Definition query : jdict := [(u "q", JInt 1)].

Definition granted_decision : PermissionDecision := {| allowed := true; reason := u "tool in allow-list"; requires_confirmation := false |}.

Lemma remote_call_is_local_call_witness : exists s' w',
  @adapter_execute session_runtime _ _ (@queue_transport session_runtime _ git_only _ echo_world) (queue_env zero) 1 (adapter_of (u "git")) query (ready_client []) =
    Some (Ok (@flattened session_runtime _ (adapter_of (u "git")) (output_result (JObj query))), stepped (ready_client []) (MkLoop s' w' []) 6) /\
  _state s' = READY /\ _tools s' = _tools ready_server /\ executed w' = [(u "git", query)].
Proof.
  apply (@remote_call_is_local_call session_runtime _ git_only _ echo_world echo_observed zero 0 (adapter_of (u "git")) (sample_tool (u "git")) query
    (ready_client []) ready_server [] granted_decision).
  - intros n a. reflexivity.
  - repeat constructor.
  - reflexivity.
  - reflexivity.
  - reflexivity.
  - vm_compute. reflexivity.
  - vm_compute. reflexivity.
  - vm_compute. reflexivity.
Defined.

Lemma late_answer_poisons_client_witness : exists rs c',
  @calls session_runtime _ git_only _ echo_world zero 1 [(u "git", query); (u "git", query); (u "git", [])]
    (ready_client [JsonRpcResponse (JInt 4) JNull None]) = Some (rs, c') /\ length rs = 3%nat /\
  Forall (fun r => exists e, r = Err e /\ exn_type e = u "MCPClientError") rs.
Proof.
  apply (@late_answer_poisons_client session_runtime _ git_only _ echo_world zero 0 [(u "git", query); (u "git", query); (u "git", [])]
    (ready_client [JsonRpcResponse (JInt 4) JNull None]) 4 JNull None).
  - intros n a. reflexivity.
  - reflexivity.
  - vm_compute. reflexivity.
  - reflexivity.
  - cbn. lia.
Defined.

Lemma connecting_lists_the_tools_witness : exists info c1 adapters c2 s2,
  @initialize session_runtime _ (@queue_transport session_runtime _ git_only _ echo_world) (queue_env zero) 1 None
    (joined sample_server [] (fl_of_Z 10) (fl_of_Z 30) (u "k") (u "1")) = Some (Ok info, c1) /\
  @get_tools session_runtime _ (@queue_transport session_runtime _ git_only _ echo_world) (queue_env zero) 1 (u "unity") c1 = Some (Ok adapters, c2) /\
  initialized c2 = true /\ transport c2 = MkLoop s2 [] [] /\ _state s2 = READY /\ _tools s2 = _tools sample_server /\
  map _tool_name adapters = [u "git"; u "rm"] /\
  map (fun a => t_name (a_tool a)) adapters = [u "unity" ++ u "." ++ u "git"; u "unity" ++ u "." ++ u "rm"].
Proof.
  apply (@connecting_lists_the_tools session_runtime _ git_only _ echo_world zero 0 [sample_tool (u "git"); sample_tool (u "rm")]
    (u "unity") (u "k") (u "1") (u "k") (u "1") (fl_of_Z 10) (fl_of_Z 30) sample_server []).
  - vm_compute. reflexivity.
  - discriminate.
  - repeat constructor; discriminate.
  - vm_compute. reflexivity.
  - vm_compute. reflexivity.
Defined.
