(* ===== verification/Todo.v ===== *)
(** * The todo scratchpad (kinetic_sdk/todo/models.py, store.py, tool.py)

    Items and lists with their dictionary form, the two stores behind one
    interface, and the tools that write and read the plan. *)

From stdpp Require Import base strings list.
From Stdlib Require Import ZArith Lia.
From S2P Require Import Prelude Json Types PyText.

Definition PENDING : pystr := u "pending".
Definition IN_PROGRESS : pystr := u "in_progress".
Definition COMPLETED : pystr := u "completed".
Definition TODO_STATUSES : list pystr := [PENDING; IN_PROGRESS; COMPLETED].
Definition sorted_statuses : pystr := u "['completed', 'in_progress', 'pending']".

Record TodoItem := { item_id : pystr; item_content : pystr; item_status : pystr }.

#[export] Instance todo_item_eq_dec : EqDecision TodoItem.
Proof. solve_decision. Defined.

Definition blank (s : pystr) : bool := bool_decide (strip s = []).

(** [TodoItem(...)] with its [__post_init__]. *)
Definition make_item (id content status : pystr) : result TodoItem :=
  if blank id then Err (value_error (u "todo item id must be a non-empty string"))
  else if blank content then Err (value_error (u "todo item content must be a non-empty string"))
  else if negb (elem_b status TODO_STATUSES) then Err (value_error (u "todo item status must be one of " ++ sorted_statuses))
  else Ok {| item_id := id; item_content := content; item_status := status |}.

Definition item_to_dict (i : TodoItem) : json :=
  JObj [(u "id", JStr (item_id i)); (u "content", JStr (item_content i)); (u "status", JStr (item_status i))].

(** [isinstance(v, str) and v.strip()]. *)
Definition text_of_value (v : option json) : option pystr :=
  match v with Some (JStr s) => if blank s then None else Some s | _ => None end.

Definition item_from_dict (data : json) : result TodoItem :=
  match data with
  | JObj d =>
    match text_of_value (dict_get (u "id") d) with
    | None => Err (value_error (u "todo item id must be a non-empty string"))
    | Some id =>
      match text_of_value (dict_get (u "content") d) with
      | None => Err (value_error (u "todo item content must be a non-empty string"))
      | Some content =>
        match dict_get (u "status") d with
        | Some (JStr status) =>
          if elem_b status TODO_STATUSES then make_item id content status
          else Err (value_error (u "todo item status must be one of " ++ sorted_statuses))
        | _ => Err (value_error (u "todo item status must be one of " ++ sorted_statuses))
        end
      end
    end
  | _ => Err (value_error (u "todo item must be a dict"))
  end.

Definition list_to_dict (items : list TodoItem) : json := JObj [(u "items", JList (map item_to_dict items))].

(** [[TodoItem.from_dict(item) for item in items if isinstance(item, dict)]]. *)
Fixpoint parse_items (items : list json) : result (list TodoItem) :=
  match items with
  | [] => Ok []
  | JObj d :: rest => i <-! item_from_dict (JObj d) ;; rmap (cons i) (parse_items rest)
  | _ :: rest => parse_items rest
  end.

Definition list_from_dict (data : json) : result (list TodoItem) :=
  match data with
  | JObj d =>
    match dict_get (u "items") d with
    | Some (JList items) =>
      parsed <-! parse_items items ;;
      if (length parsed =? length items)%nat then Ok parsed else Err (value_error (u "each todo item must be a dict"))
    | _ => Err (value_error (u "todo list items must be a list"))
    end
  | _ => Err (value_error (u "todo list must be a dict"))
  end.

(** ** Stores *)

Class TodoStore (S : Type) := {
  todo_save : list TodoItem -> S -> result unit * S;
  todo_load : S -> result (option (list TodoItem));
  todo_delete : S -> result unit * S;
}.

(** What a store promises: a save that succeeds is read back, one that fails
    changes nothing, and nothing is read after a deletion. [storable] are the
    lists it can hold and give back. *)
Class LawfulTodoStore (S : Type) `{TodoStore S} := {
  storable : list TodoItem -> S -> Prop;
  save_load : forall items s s', storable items s -> todo_save items s = (Ok tt, s') -> todo_load s' = Ok (Some items);
  save_failed : forall items s s' e, todo_save items s = (Err e, s') -> s' = s;
  delete_load : forall s s', todo_delete s = (Ok tt, s') -> todo_load s' = Ok None;
}.

(** [InMemoryTodoStore]: both directions copy through the dictionary form. *)
Definition memory_todo_save (items : list TodoItem) (s : option (list TodoItem)) : result unit * option (list TodoItem) :=
  match list_from_dict (list_to_dict items) with Ok copy => (Ok tt, Some copy) | Err e => (Err e, s) end.

Definition memory_todo_load (s : option (list TodoItem)) : result (option (list TodoItem)) :=
  match s with None => Ok None | Some items => rmap Some (list_from_dict (list_to_dict items)) end.

Definition InMemoryTodoStore : TodoStore (option (list TodoItem)) := {|
  todo_save := memory_todo_save; todo_load := memory_todo_load; todo_delete := fun _ => (Ok tt, None) |}.
#[export] Existing Instance InMemoryTodoStore.

Definition TODO_SCHEMA_VERSION : Z := 1.

Definition todo_store_error (msg : pystr) : pyexn := PyExn (u "TodoStoreError") msg.

(** The file: its text, and what the operating system answers to the next
    write, read or removal ([None]: it works). *)
Record TodoFile := { tf_text : option pystr; tf_write : option pyexn; tf_read : option pyexn; tf_unlink : option pyexn }.

Section JsonFile.
Context `{PyRuntime}.
Variable path : pystr.
Variable decode_error : pystr -> pystr.

Definition cannot_load_todos (why : pystr) : pyexn :=
  todo_store_error (u "Cannot load todos from " ++ path ++ u ": " ++ why).

Definition todo_payload (items : list TodoItem) : json :=
  JObj [(u "schema_version", JInt TODO_SCHEMA_VERSION); (u "todos", list_to_dict items)].

(** The file changes only by the final rename; a failed attempt removes its temporary. *)
Definition replace_file (text : pystr) (f : TodoFile) : result unit * TodoFile :=
  match tf_write f with
  | Some e => (Err e, f)
  | None => (Ok tt, {| tf_text := Some text; tf_write := None; tf_read := tf_read f; tf_unlink := tf_unlink f |})
  end.

Definition file_todo_save (items : list TodoItem) (f : TodoFile) : result unit * TodoFile :=
  replace_file (json_dumps dumps_utf8 (todo_payload items)) f.

Definition todos_of_payload (payload : json) : result (option (list TodoItem)) :=
  match payload with
  | JObj d =>
    match dict_get (u "todos") d with
    | None => Err (cannot_load_todos (u "not a todo file"))
    | Some todos =>
      let version := default JNull (dict_get (u "schema_version") d) in
      if negb (py_eq version (JInt TODO_SCHEMA_VERSION))
      then Err (cannot_load_todos (u "schema version " ++ py_repr version ++ u " is not supported (expected " ++
                                   dec TODO_SCHEMA_VERSION ++ u ")"))
      else match todos with
           | JObj _ => match list_from_dict todos with
                       | Ok items => Ok (Some items)
                       | Err e => Err (cannot_load_todos (exn_msg e))
                       end
           | _ => Err (cannot_load_todos (u "todos must be a dict"))
           end
    end
  | _ => Err (cannot_load_todos (u "not a todo file"))
  end.

Definition file_todo_load (f : TodoFile) : result (option (list TodoItem)) :=
  match tf_text f with
  | None => Ok None
  | Some text =>
    match tf_read f with
    | Some e => Err (cannot_load_todos (exn_msg e))
    | None =>
      match json_loads text with
      | None => Err (cannot_load_todos (decode_error text))
      | Some payload => todos_of_payload payload
      end
    end
  end.

(** A missing file is no error. *)
Definition file_todo_delete (f : TodoFile) : result unit * TodoFile :=
  match tf_text f, tf_unlink f with
  | None, _ => (Ok tt, f)
  | Some _, Some e => (Err e, f)
  | Some _, None => (Ok tt, {| tf_text := None; tf_write := tf_write f; tf_read := tf_read f; tf_unlink := None |})
  end.
End JsonFile.

Definition JsonFileTodoStore `{PyRuntime} (path : pystr) (decode_error : pystr -> pystr) : TodoStore TodoFile := {|
  todo_save := file_todo_save; todo_load := file_todo_load path decode_error; todo_delete := file_todo_delete |}.

(** ** Tools *)

Definition status_marker (status : pystr) : pystr :=
  if bool_decide (status = COMPLETED) then u "[x]" else if bool_decide (status = IN_PROGRESS) then u "[~]" else u "[ ]".

Definition _render (items : list TodoItem) : pystr :=
  join [10%N] (map (fun i => status_marker (item_status i) ++ u " " ++ item_id i ++ u ". " ++ item_content i) items).

Definition at_position (position : Z) (what : pystr) : pystr := u "todo at position " ++ dec position ++ what.

(** One entry of the input: an error for the model, or an item. *)
Definition parse_todo (position : Z) (raw : json) : result (pystr + TodoItem) :=
  match raw with
  | JObj d =>
    match text_of_value (dict_get (u "content") d) with
    | None => Ok (inl (at_position position (u " content must be a non-empty string")))
    | Some content =>
      match as_str (dict_get (u "status") d) with
      | Some status =>
        if negb (elem_b status TODO_STATUSES) then Ok (inl (at_position position (u " status must be one of " ++ sorted_statuses)))
        else match text_of_value (Some (default (JStr (dec position)) (dict_get (u "id") d))) with
             | None => Ok (inl (at_position position (u " id must be a non-empty string")))
             | Some id => rmap inr (make_item id content status)
             end
      | None => Ok (inl (at_position position (u " status must be one of " ++ sorted_statuses)))
      end
    end
  | _ => Ok (inl (at_position position (u " must be an object")))
  end.

Fixpoint parse_todos (position : Z) (todos : list json) : result (pystr + list TodoItem) :=
  match todos with
  | [] => Ok (inr [])
  | raw :: rest =>
    first <-! parse_todo position raw ;;
    match first with
    | inl e => Ok (inl e)
    | inr i => rmap (fun r => match r with inl e => inl e | inr l => inr (i :: l) end) (parse_todos (position + 1) rest)
    end
  end.

Definition all_status (status : pystr) (items : list TodoItem) : bool :=
  forallb (fun i => bool_decide (item_status i = status)) items.

Definition in_progress_count (items : list TodoItem) : nat :=
  length (filter (fun i => item_status i = IN_PROGRESS) items).

(** The checks of the whole list: unique ids, and one item in progress in a started plan. *)
Definition plan_error (items : list TodoItem) : option pystr :=
  if negb (length (from_keys (map item_id items)) =? length items)%nat then Some (u "todo ids must be unique")
  else if negb (bool_decide (items = [])) && negb (all_status COMPLETED items) && negb (all_status PENDING items) &&
          negb (in_progress_count items =? 1)%nat
  then Some (u "exactly one todo must be in_progress unless the list is empty, all completed, or all pending")
  else None.

Section Tools.
Context {S : Type} `{TodoStore S}.

Definition todo_write (todos : json) (s : S) : result ToolResult * S :=
  match todos with
  | JList raw =>
    match parse_todos 1 raw with
    | Err e => (Err e, s)
    | Ok (inl e) => (Ok (error_result e), s)
    | Ok (inr items) =>
      match plan_error items with
      | Some e => (Ok (error_result e), s)
      | None =>
        let (saved, s') := todo_save items s in
        match saved with
        | Err e => (Ok (error_result (u "could not save todos: " ++ exn_msg e)), s')
        | Ok _ => (Ok (output_result (JStr (_render items))), s')
        end
      end
    end
  | _ => (Ok (error_result (u "todos must be a list")), s)
  end.

Definition todo_read (s : S) : ToolResult :=
  match todo_load s with
  | Err e => error_result (u "could not load todos: " ++ exn_msg e)
  | Ok None | Ok (Some []) => output_result (JStr (u "No todos yet."))
  | Ok (Some items) => output_result (JStr (_render items))
  end.
End Tools.

(** ** Lemmas *)

(** The items a constructor accepts. *)
Definition item_ok (i : TodoItem) : Prop :=
  blank (item_id i) = false /\ blank (item_content i) = false /\ item_status i ∈ TODO_STATUSES.

Lemma make_item_ok i : item_ok i -> make_item (item_id i) (item_content i) (item_status i) = Ok i.
Proof.
  intros (Hi & Hc & Hs). unfold make_item. rewrite Hi, Hc. unfold elem_b. rewrite bool_decide_true by done. by destruct i.
Qed.

Lemma make_item_inv id content status i : make_item id content status = Ok i ->
  i = {| item_id := id; item_content := content; item_status := status |} /\ item_ok i.
Proof.
  unfold make_item. destruct (blank id) eqn:Ei; [done|]. destruct (blank content) eqn:Ec; [done|].
  destruct (elem_b status TODO_STATUSES) eqn:Es; [|done]. intros [= <-]. split; [done|].
  split; [done|]. split; [done|]. by apply bool_decide_eq_true in Es.
Qed.

Lemma item_roundtrip i : item_ok i -> item_from_dict (item_to_dict i) = Ok i.
Proof.
  intros Hok. pose proof Hok as (Hi & Hc & Hs). unfold item_from_dict, item_to_dict.
  change (dict_get (u "id") _) with (Some (JStr (item_id i))). change (dict_get (u "content") _) with (Some (JStr (item_content i))).
  change (dict_get (u "status") _) with (Some (JStr (item_status i))). cbn [text_of_value]. rewrite Hi, Hc.
  unfold elem_b. rewrite bool_decide_true by done. by apply make_item_ok.
Qed.

Lemma list_roundtrip items : Forall item_ok items -> list_from_dict (list_to_dict items) = Ok items.
Proof.
  intros Hok. unfold list_from_dict, list_to_dict. change (dict_get (u "items") _) with (Some (JList (map item_to_dict items))). cbn iota.
  assert (parse_items (map item_to_dict items) = Ok items) as ->.
  { induction Hok as [|i items Hi _ IH]; [done|]. cbn [map]. pose proof (item_roundtrip i Hi) as Hr.
    unfold item_to_dict in *. cbn [parse_items]. by rewrite Hr, IH. }
  cbn [rbind]. by rewrite length_map, Nat.eqb_refl.
Qed.

#[export] Instance InMemory_lawful : LawfulTodoStore (option (list TodoItem)).
Proof.
  exists (fun items _ => Forall item_ok items).
  - intros items s s' Hok. cbn [todo_save InMemoryTodoStore]. unfold memory_todo_save. rewrite list_roundtrip by done. intros [= <-].
    cbn [todo_load InMemoryTodoStore]. unfold memory_todo_load. cbn iota. by rewrite list_roundtrip.
  - intros items s s' e. cbn [todo_save InMemoryTodoStore]. unfold memory_todo_save. destruct (list_from_dict _); by intros [= _ <-].
  - by intros s s' [= <-].
Defined.

Lemma replace_file_ok text f f' : replace_file text f = (Ok tt, f') -> tf_text f' = Some text /\ tf_read f' = tf_read f.
Proof. unfold replace_file. destruct (tf_write f); [done|]. by intros [= <-]. Qed.

(** A readable file holds the lists of valid items whose text the runtime decodes back. *)
#[export] Instance JsonFile_lawful `{PyRuntime} path decode_error :
  @LawfulTodoStore TodoFile (JsonFileTodoStore path decode_error).
Proof.
  exists (fun items f => Forall item_ok items /\ tf_read f = None /\
    json_loads (json_dumps dumps_utf8 (todo_payload items)) = Some (todo_payload items)); cbn [todo_save todo_load todo_delete JsonFileTodoStore].
  - intros items f f' (Hok & Hr & Hl) [Ht Hr']%replace_file_ok.
    unfold file_todo_load. rewrite Ht, Hr', Hr, Hl. unfold todos_of_payload, todo_payload.
    change (dict_get (u "todos") _) with (Some (list_to_dict items)). cbn iota zeta.
    change (dict_get (u "schema_version") _) with (Some (JInt TODO_SCHEMA_VERSION)). cbn [default].
    change (py_eq _ _) with true. cbn [negb]. unfold list_to_dict at 1. by rewrite list_roundtrip.
  - intros items f f' e. unfold file_todo_save, replace_file. destruct (tf_write f); by intros [= _ <-].
  - intros f f'. unfold file_todo_delete. destruct (tf_text f) eqn:E; [|intros [= <-]; unfold file_todo_load; by rewrite E].
    destruct (tf_unlink f); [done|]. by intros [= <-].
Defined.

(** ** The plan *)

(** A plan as the tool promises to keep it. *)
Definition plan_ok (items : list TodoItem) : Prop :=
  NoDup (map item_id items) /\
  (items = [] \/ Forall (fun i => item_status i = COMPLETED) items \/ Forall (fun i => item_status i = PENDING) items \/
   in_progress_count items = 1).

Lemma all_status_spec st items : all_status st items = true <-> Forall (fun i => item_status i = st) items.
Proof.
  unfold all_status. rewrite forallb_forall, List.Forall_forall.
  split; intros Hf i Hi; specialize (Hf i Hi); by apply bool_decide_eq_true in Hf || apply bool_decide_eq_true.
Qed.

Lemma from_keys_full (l : list pystr) : length (from_keys l) = length l <-> NoDup l.
Proof.
  split; intros Hl.
  - assert (from_keys l ⊆+ l) as Hs by (apply NoDup_submseteq; [apply from_keys_NoDup|]; intros x; apply elem_of_from_keys).
    rewrite <- (submseteq_length_Permutation _ _ Hs) by lia. apply from_keys_NoDup.
  - apply Permutation_length, NoDup_Permutation; [apply from_keys_NoDup|done|]. intros x. apply elem_of_from_keys.
Qed.

Lemma plan_error_spec items : plan_error items = None <-> plan_ok items.
Proof.
  unfold plan_error, plan_ok. rewrite <- from_keys_full, <- !all_status_spec, length_map.
  destruct (Nat.eqb_spec (length (from_keys (map item_id items))) (length items)); cbn [negb]; [|by split; [|intros []]].
  case_bool_decide; cbn [negb andb]; [naive_solver|].
  destruct (all_status COMPLETED items), (all_status PENDING items), (Nat.eqb_spec (in_progress_count items) 1);
    cbn [negb andb]; naive_solver.
Qed.

Lemma text_of_value_some v s : text_of_value v = Some s -> blank s = false.
Proof. destruct v as [[]|]; cbn; try done. destruct (blank s0) eqn:E; [done|]. by intros [= <-]. Qed.

(** Reading an entry never raises, and what it accepts is a valid item. *)
Lemma parse_todo_ok position raw : match parse_todo position raw with Ok (inr i) => item_ok i | Ok (inl e) => e <> [] | Err _ => False end.
Proof.
  destruct raw; try done. cbn [parse_todo]. destruct (text_of_value (dict_get (u "content") d)) as [content|] eqn:Ec; [|done].
  destruct (as_str (dict_get (u "status") d)) as [status|]; [|done]. destruct (elem_b status TODO_STATUSES) eqn:Es; cbn [negb]; [|done].
  apply text_of_value_some in Ec.
  destruct (text_of_value (Some (default (JStr (dec position)) (dict_get (u "id") d)))) as [id|] eqn:Ei; [|done]. apply text_of_value_some in Ei. apply bool_decide_eq_true in Es.
  pose proof (make_item_ok {| item_id := id; item_content := content; item_status := status |}) as Hm. cbn in Hm. by rewrite Hm.
Qed.

Lemma parse_todos_ok position todos :
  match parse_todos position todos with Ok (inr items) => Forall item_ok items | Ok (inl e) => e <> [] | Err _ => False end.
Proof.
  revert position. induction todos as [|raw todos IH]; intros position; [constructor|]. cbn [parse_todos].
  pose proof (parse_todo_ok position raw) as Hp. destruct (parse_todo position raw) as [[e|i]|]; [done| |done]. cbn [rbind].
  specialize (IH (position + 1)%Z). destruct (parse_todos (position + 1) todos) as [[e|items]|]; [done| |done]. by constructor.
Qed.

Lemma parse_todos_dict position items : Forall item_ok items -> parse_todos position (map item_to_dict items) = Ok (inr items).
Proof.
  intros Hok. revert position. induction Hok as [|i items Hi _ IH]; intros position; [done|]. cbn [map parse_todos].
  assert (parse_todo position (item_to_dict i) = Ok (inr i)) as ->; [|cbn [rbind]; by rewrite IH].
  pose proof Hi as (Hid & Hc & Hs). unfold parse_todo, item_to_dict.
  change (dict_get (u "content") _) with (Some (JStr (item_content i))). change (dict_get (u "status") _) with (Some (JStr (item_status i))).
  change (dict_get (u "id") _) with (Some (JStr (item_id i))). cbn [text_of_value as_str default from_option id]. rewrite Hid, Hc.
  unfold elem_b. rewrite bool_decide_true by done. cbn [negb]. by rewrite make_item_ok.
Qed.

Definition rendered (items : list TodoItem) : ToolResult :=
  output_result (JStr (match items with [] => u "No todos yet." | _ => _render items end)).

Lemma error_result_is_error e : e <> [] -> is_error (error_result e) = true.
Proof. by destruct e. Qed.

Lemma plan_error_nonempty items e : plan_error items = Some e -> e <> [].
Proof. unfold plan_error. repeat case_match; try done; by intros [= <-]. Qed.

(** ** Theorems *)

Section Theorems.
Context {S : Type} `{LS : LawfulTodoStore S}.

(** the stored plan is always a plan. Whatever the model sends, [todo_write]
    returns a result; either it reports an error and the store holds what it
    held, or it has stored a list of valid items with unique ids in which, once
    work has started, exactly one item is in progress, and a read shows it. *)
Theorem todo_write_keeps_plan todos (s : S) :
  (forall items, Forall item_ok items -> storable items s) ->
  exists r s', todo_write todos s = (Ok r, s') /\
    ((is_error r = true /\ s' = s) \/
     exists items, r = output_result (JStr (_render items)) /\ Forall item_ok items /\ plan_ok items /\
       todo_load s' = Ok (Some items) /\ todo_read s' = rendered items).
Proof.
  intros Hst. unfold todo_write. destruct todos as [| | | | |raw|]; try (do 2 eexists; split; [reflexivity|]; by left).
  pose proof (parse_todos_ok 1 raw) as Hp. destruct (parse_todos 1 raw) as [[e|items]|]; [| |done].
  { do 2 eexists. split; [reflexivity|]. left. split; [by apply error_result_is_error|done]. }
  destruct (plan_error items) as [e|] eqn:E.
  { do 2 eexists. split; [reflexivity|]. left. split; [apply error_result_is_error; by eapply plan_error_nonempty|done]. }
  destruct (todo_save items s) as [[[]|e] s'] eqn:Es.
  - do 2 eexists. split; [reflexivity|]. right. exists items. pose proof (save_load _ _ _ (Hst _ Hp) Es) as Hl.
    split; [done|]. split; [done|]. split; [by apply plan_error_spec|]. split; [done|]. unfold todo_read. rewrite Hl. by destruct items.
  - do 2 eexists. split; [reflexivity|]. left. split; [by apply error_result_is_error|]. by eapply save_failed.
Qed.

(** a plan survives the round through the tools: the items of a valid plan,
    sent in their dictionary form, are stored and read back, unless the store
    fails, which is reported. *)
Theorem todo_plan_roundtrip items (s : S) : Forall item_ok items -> plan_ok items -> storable items s ->
  let (r, s') := todo_write (JList (map item_to_dict items)) s in
  match (todo_save items s).1 with
  | Ok _ => r = Ok (output_result (JStr (_render items))) /\ todo_load s' = Ok (Some items) /\ todo_read s' = rendered items
  | Err e => r = Ok (error_result (u "could not save todos: " ++ exn_msg e)) /\ s' = s
  end.
Proof.
  intros Hok Hp Hst. unfold todo_write. rewrite parse_todos_dict by done. apply plan_error_spec in Hp. rewrite Hp.
  destruct (todo_save items s) as [[[]|e] s'] eqn:Es; cbn [fst].
  - pose proof (save_load _ _ _ Hst Es) as Hl. split; [done|]. split; [done|]. unfold todo_read. rewrite Hl. by destruct items.
  - split; [done|]. by eapply save_failed.
Qed.
End Theorems.

Definition sample_plan : list TodoItem :=
  [{| item_id := u "1"; item_content := u "Inspect"; item_status := COMPLETED |};
   {| item_id := u "2"; item_content := u "Fix"; item_status := IN_PROGRESS |}].

Lemma todo_write_keeps_plan_witness : exists r s',
  todo_write (JList [JObj [(u "content", JStr (u "Fix")); (u "status", JStr PENDING)]]) None = (Ok r, s') /\
  ((is_error r = true /\ s' = None) \/
   exists items, r = output_result (JStr (_render items)) /\ Forall item_ok items /\ plan_ok items /\
     todo_load s' = Ok (Some items) /\ todo_read s' = rendered items).
Proof. apply (todo_write_keeps_plan (S := option (list TodoItem))). intros items Hi. exact Hi. Defined.

Lemma sample_plan_ok : Forall item_ok sample_plan /\ plan_ok sample_plan.
Proof. split; [|apply plan_error_spec; vm_compute; reflexivity]. by repeat constructor. Qed.

Lemma todo_plan_roundtrip_witness :
  let (r, s') := todo_write (JList (map item_to_dict sample_plan)) None in
  r = Ok (output_result (JStr (_render sample_plan))) /\ todo_load s' = Ok (Some sample_plan) /\ todo_read s' = rendered sample_plan.
Proof.
  pose proof sample_plan_ok as [Hok Hp].
  exact (todo_plan_roundtrip (S := option (list TodoItem)) sample_plan None Hok Hp Hok).
Defined.
