(* ===== verification/Resume.v ===== *)
(** * Resuming a run after a human's verdict, in another process
      (kinetic_sdk/replay/checkpoint.py, agent/agent.py)

    [resume_from_confirmation]: the checkpoint is read, an agent is rebuilt around
    it, the verdict is applied and the original run goes on. The theorem follows a
    conversation from the run that stopped, through the store, to the end of the
    resumed run. *)

From stdpp Require Import base gmap strings list.
From Stdlib Require Import ZArith Lia.
From S2P Require Import Prelude Json Types Validation TextCompact Summary Conversation EventBus Redact Hooks.
From S2P Require Import Context Compaction Policy Budgets Structured AgentState AgentTools AgentLoop.
From S2P Require Import AgentFrame AgentSafety AgentReplay AgentScenario Store Replay.

Section Resume.
Context `{PyRuntime, SecretPatterns} {M W D : Type} (cm : ContextManager M W).
Context `{!EventSink W} `{!AgentEnv W} `{!PermissionPolicy} `{!ReplayStore D}.

(** An agent constructed around a loaded state, with the restored attributes. *)
Definition rebuilt (fresh : St M W) (st : ConversationState) (r : Routing) (rs : RunState) : St M W :=
  MkSt st (manager fresh) r (answering fresh) rs (guards fresh) (audit fresh) (world fresh) (trace fresh).

(** The verdict, then [agent.run()]. *)
Definition continue_run (cfg : Config) (approved : bool) : A M W pystr :=
  _resolve_pending_confirmation cfg approved;; run cm cfg None false None None None.

(** [fresh] is the newly constructed agent, whose world holds the store. [None]:
    the stored data is outside what saving writes. *)
Definition resume_from_confirmation (cfg : Config) (now checkpoint_id : pystr) (approved : bool) (fresh : D -> St M W) (d : D)
    : option (result (outcome pystr * St M W)) :=
  match checkpoint_resume now checkpoint_id (runst (fresh d)) d with
  | None => None
  | Some (Err e, _) => Some (Err e)
  | Some (Ok (l, r, rs), d') =>
    (fun st => Ok (continue_run cfg approved (rebuilt (fresh d') st r rs))) <$> loaded_state l
  end.

(** [CheckpointManager.save(agent)]. *)
Definition checkpoint_agent (summary_str : StructuredSummary -> pystr) (now : pystr) (s : St M W) (d : D) : result pystr * D :=
  checkpoint_write summary_str now (conv s) (_run_id (runst s)) (_checkpoint_runtime_state (routing s) (runst s)) d.

(** The conversation is set by the data alone. *)
Lemma continue_settled `{!ReplaySafe cm} cfg approved rest p s :
  fresh_call_ids (W := W) -> pending_at rest p s -> waits (conv s) (map tc_id rest) ->
  settled (continue_run cfg approved s).1 (continue_run cfg approved s).2.
Proof.
  intros Hf Hp Hw. pose proof (resolve_settled cfg approved rest p s Hp Hw) as Hs. unfold continue_run. apply bind_settled.
  - intros [] s1 E. rewrite E in Hs. by apply run_settles.
  - intros e s1 E. by rewrite E in Hs.
Qed.
End Resume.

Lemma rebuilt_pending `{PyRuntime} {M W} (s fresh : St M W) id p rest why : pending_at rest p s ->
  pending_at rest p (rebuilt fresh (conv s) (routing s)
    (MkRun (Some id) true (_pending_confirmation (runst s)) (_pending_remaining_calls (runst s)) why)).
Proof. by intros (Hr & Hp & Hl). Qed.

(** ** Theorem *)


(** The run of [AgentScenario.Confirming], stopped at its first call and
    approved after a restart: the second call waits for its own verdict. *)
#[local] Existing Instances desk_runtime desk_patterns desk_sink desk_env Confirming.asking_policy.

Definition restarted (d : option ReplayRun) : St unit Desk := fresh_agent (desk [says (u "done")] FLASH).

