(* ===== verification/Classifier.v ===== *)
(** * The task classifiers (kinetic_sdk/agent/classifier.py)

    What stands behind the agent's [classify]: the offline default, and the
    classifier that asks a model for one word. *)

From stdpp Require Import base gmap strings list.
From Stdlib Require Import ZArith Lia SpecFloat.
From S2P Require Import Prelude Json Types TextCompact Conversation AgentState.

Inductive TaskComplexity := SIMPLE | COMPLEX.

#[export] Instance task_complexity_eq_dec : EqDecision TaskComplexity.
Proof. solve_decision. Defined.

Definition complexity_value (c : TaskComplexity) : pystr :=
  match c with SIMPLE => u "simple" | COMPLEX => u "complex" end.

Definition to_mode (c : TaskComplexity) : AgentMode := match c with SIMPLE => FLASH | COMPLEX => MAX end.

Definition classification (c : TaskComplexity) (confidence : pyfloat) (rationale : pystr) : Classification :=
  {| c_complexity := complexity_value c; c_mode := to_mode c; c_confidence := confidence; c_rationale := rationale |}.

(** The doubles 0.8 and 0.9. *)
Definition p8 : pyfloat := S754_finite false 7205759403792794 (-53).
Definition p9 : pyfloat := S754_finite false 8106479329266893 (-53).

(** [DefaultClassifier.classify]. *)
Definition default_classify (task : pystr) : Classification := classification COMPLEX (fl_of_Z 1) (u "default").

Definition _MAX_TOKENS : Z := 10.

Definition instructions : pystr :=
  u "You are a task-complexity classifier. Read the user's task and " ++
  u "decide if it is SIMPLE or COMPLEX. Reply with exactly ONE word, " ++
  u "either SIMPLE or COMPLEX, and nothing else. " ++
  u "SIMPLE = a single trivial step (e.g. a short factual answer or one " ++
  u "small edit). COMPLEX = multi-step reasoning, multiple tools, " ++
  u "debugging, refactoring, or planning. When unsure, reply COMPLEX.".

Definition _build_prompt (summary : option pystr) (task : pystr) : list message :=
  let body := u "Task:" ++ [10%N] ++ task ++
    match summary with
    | Some ((_ :: _) as s) => [10%N; 10%N] ++ u "Conversation so far (summary):" ++ [10%N] ++ s
    | _ => []
    end in
  [[(u "role", JStr (u "system")); (u "content", JStr instructions)];
   [(u "role", JStr (u "user")); (u "content", JStr body)]].

Definition _parse (answer : pystr) : TaskComplexity :=
  if contains (u "COMPLEX") answer then COMPLEX
  else if contains (u "SIMPLE") answer then SIMPLE else COMPLEX.

Definition _fallback (reason : pystr) : Classification := classification COMPLEX (fl_of_Z 0) reason.

Section Classifier.
Context {W : Type}.
(** [client.chat(messages, max_tokens)] and [str.upper]. *)
Variable client_chat : list message -> Z -> W -> result LLMResponse * W.
Variable upper : pystr -> pystr.
Variable summary : option pystr.

(** [LiteLLMClassifier.classify]. *)
Definition model_classify (task : pystr) (w : W) : Classification * W :=
  let (r, w') := client_chat (_build_prompt summary task) _MAX_TOKENS w in
  (match r with
   | Err _ => _fallback (u "classifier_error")
   | Ok response =>
     match _parse (upper (strip (r_content response))) with
     | SIMPLE => classification SIMPLE p8 (u "model:SIMPLE")
     | COMPLEX => classification COMPLEX p9 (u "model:COMPLEX")
     end
   end, w').

(** Routing is conservative: FLASH is chosen exactly when the model answered,
    its answer names SIMPLE, and does not name COMPLEX; every failure and every
    other answer leads to MAX. The mode is that of the complexity. *)
Theorem classifier_is_conservative task w :
  let c := (model_classify task w).1 in
  (c_mode c = FLASH <->
   exists r, (client_chat (_build_prompt summary task) _MAX_TOKENS w).1 = Ok r /\
     contains (u "SIMPLE") (upper (strip (r_content r))) = true /\
     contains (u "COMPLEX") (upper (strip (r_content r))) = false) /\
  (c_mode c = FLASH <-> c_complexity c = complexity_value SIMPLE).
Proof.
  unfold model_classify. destruct (client_chat _ _ w) as [[r|e] w']; cbn [fst].
  - unfold _parse. destruct (contains (u "COMPLEX") _) eqn:Ec.
    + split; [split; [done|]|done]. intros (r' & [= <-] & _ & Hc). by rewrite Ec in Hc.
    + destruct (contains (u "SIMPLE") _) eqn:Es.
      * split; [|done]. split; [|done]. intros _. by exists r.
      * split; [split; [done|]|done]. intros (r' & [= <-] & Hs & _). by rewrite Es in Hs.
  - split; [split; [done|]|done]. by intros (r & [=] & _).
Qed.

(** A negated answer is read as SIMPLE. *)
Lemma negated_answer_is_simple : _parse (u "NOT SIMPLE") = SIMPLE.
Proof. vm_compute. reflexivity. Qed.
End Classifier.
