(* ===== verification/Skills.v ===== *)
(** * Skills (kinetic_sdk/skills/skill.py, loader.py, registry.py, activation.py)

    The flat frontmatter format, skills and their validation, discovery in a
    directory, the registry with its vetting rule, and the selection of the skills
    a request concerns. The file system is an interface. *)

From stdpp Require Import base strings list sets.
From Stdlib Require Import ZArith Lia.
From S2P Require Import Prelude Json PyText Types EventBus Redact Hooks.

Definition skill_parse_error (msg : pystr) : pyexn := PyExn (u "SkillParseError") msg.
Definition skill_vet_error (msg : pystr) : pyexn := PyExn (u "SkillVetError") msg.

Definition SKILL_FILE_NAME : pystr := u "SKILL.md".
Definition MAX_NAME_LENGTH : Z := 64.
Definition MAX_DESCRIPTION_LENGTH : Z := 1024.

Definition is_alnum (c : N) : bool := ((97 <=? c) && (c <=? 122) || (48 <=? c) && (c <=? 57))%N.

(** Lowercase alphanumeric words joined by single hyphens. *)
Definition slug (s : pystr) : bool := forallb (fun w => negb (bool_decide (w = [])) && forallb is_alnum w) (split_on 45 s).

(** [SKILL_NAME_PATTERN.match(s)]: the pattern's [$] also matches before a final line feed. *)
Definition name_matches (s : pystr) : bool :=
  slug s || match rev s with c :: r => (c =? 10)%N && slug (rev r) | [] => false end.

(** [\w]: the letters, digits and underscores of Unicode; what is relied on is ASCII. *)
Class UnicodeWord := {
  word_char : N -> bool;
  word_ascii : forall c, (c < 128)%N ->
    word_char c = (((48 <=? c) && (c <=? 57) || (65 <=? c) && (c <=? 90) || (97 <=? c) && (c <=? 122) || (c =? 95))%N);
}.

Definition key_start (c : N) : bool := ((65 <=? c) && (c <=? 90) || (97 <=? c) && (c <=? 122) || (c =? 95))%N.

Section Frontmatter.
Context `{PyRuntime, UnicodeWord}.

Definition key_char (c : N) : bool := word_char c || (c =? 45)%N.

Fixpoint take_while (p : N -> bool) (s : pystr) : pystr :=
  match s with c :: s' => if p c then c :: take_while p s' else [] | [] => [] end.

(** [_FRONTMATTER_KEY_RE.match(line)] of a line without line feeds: its two groups. *)
Definition match_entry (line : pystr) : option (pystr * pystr) :=
  match line with
  | c :: rest =>
    if key_start c then
      let key := take_while key_char rest in
      match lstrip_with is_space (drop_while key_char rest) with
      | 58%N :: value => Some (c :: key, lstrip_with is_space value)
      | _ => None
      end
    else None
  | [] => None
  end.

(** Matching quotes around a value are dropped. *)
Definition unquote (v : pystr) : pystr :=
  match v with
  | c :: (_ :: _) as r => if bool_decide (last r = Some c) && ((c =? 39) || (c =? 34))%N then removelast r else v
  | _ => v
  end.

(** The lines after the opening fence: the mapping, and the lines after the
    closing fence if there is one. *)
Fixpoint frontmatter_lines (path : pystr) (lines : list pystr) (fm : list (pystr * pystr))
    : result (list (pystr * pystr) * option (list pystr)) :=
  match lines with
  | [] => Ok (fm, None)
  | line :: rest =>
    if bool_decide (strip line = u "---") then Ok (fm, Some rest)
    else if bool_decide (strip line = []) then frontmatter_lines path rest fm
    else match match_entry line with
         | None => Err (skill_parse_error (path ++ u ": unsupported frontmatter line " ++ py_repr (JStr line) ++
                          u " (only flat 'key: value' entries are supported)"))
         | Some (key, value) => frontmatter_lines path rest (dict_set key (unquote (strip value)) fm)
         end
  end.

Definition _split_frontmatter (text path : pystr) : result (list (pystr * pystr) * pystr) :=
  let missing := Err (skill_parse_error (path ++ u ": missing required frontmatter block (file must start with a '---' line)")) in
  match splitlines text with
  | [] => missing
  | first :: rest =>
    if negb (bool_decide (strip first = u "---")) then missing
    else match frontmatter_lines path rest [] with
         | Err e => Err e
         | Ok (_, None) => Err (skill_parse_error (path ++ u ": frontmatter block is never closed ('---' missing)"))
         | Ok (fm, Some body) => Ok (fm, join [10%N] body)
         end
  end.
End Frontmatter.

(** ** Skills *)

Record Skill := {
  sk_name : pystr;
  sk_description : pystr;
  sk_source : pystr;
  sk_root_path : pystr;
  sk_version : option pystr;
  sk_type : pystr;
  sk_triggers : list pystr;
}.

(** What the loaders read of the file system. *)
Class SkillFiles (W : Type) := {
  realpath : pystr -> W -> pystr;
  is_file : pystr -> W -> bool;
  is_dir : pystr -> W -> bool;
  list_dir : pystr -> W -> result (list pystr);
  read_text : pystr -> W -> result pystr;
}.

(** [os.path.join(directory, name)] of a relative name, and [os.path.basename]. *)
Definition path_join (directory name : pystr) : pystr :=
  if ends_with [47%N] directory then directory ++ name else directory ++ u "/" ++ name.
Definition basename (path : pystr) : pystr := default [] (last (split_on 47 path)).

Definition nonblank (s : pystr) : bool := negb (bool_decide (strip s = [])).

Definition truncate_description (description source : pystr) : pystr :=
  if (zlen description <=? MAX_DESCRIPTION_LENGTH)%Z then description
  else let notice := u "...[truncated, see full text at " ++ source ++ u "]" in
       slice_to (MAX_DESCRIPTION_LENGTH - zlen notice) description ++ notice.

(** [s.split(",")], stripped, the empty parts dropped. *)
Definition comma_parts (s : pystr) : list pystr := filter (fun p => p <> []) (map strip (split_on 44 s)).

Section Skills.
Context `{PyRuntime, UnicodeWord} {W : Type} `{SkillFiles W}.

(** [Skill(...)] with its [__post_init__]. *)
Definition make_skill (name description source root_path : pystr) (version : option pystr) (type : pystr) (triggers : list pystr)
    (w : W) : result Skill :=
  if (MAX_NAME_LENGTH <? zlen name)%Z || negb (name_matches name)
  then Err (skill_parse_error (u "invalid skill name " ++ py_repr (JStr name) ++ u ": must match '^[a-z0-9]+(-[a-z0-9]+)*$' and be <= 64 chars"))
  else if negb (nonblank description)
  then Err (skill_parse_error (u "skill " ++ py_repr (JStr name) ++ u ": description must be non-empty"))
  else if negb (elem_b type [u "repo"; u "knowledge"])
  then Err (skill_parse_error (u "skill " ++ py_repr (JStr name) ++ u ": type must be 'repo' or 'knowledge'"))
  else Ok {| sk_name := name; sk_description := truncate_description description source; sk_source := source;
             sk_root_path := realpath root_path w; sk_version := version; sk_type := type; sk_triggers := triggers |}.

Definition fm_get (key dflt : pystr) (fm : list (pystr * pystr)) : pystr := default dflt (dict_get key fm).

Definition nonempty_or_none (s : option pystr) : option pystr := match s with Some (_ :: _) => s | _ => None end.

(** [Skill.from_directory]. *)
Definition skill_from_directory (directory source : pystr) (w : W) : result Skill :=
  let directory := realpath directory w in
  let skill_md := path_join directory SKILL_FILE_NAME in
  if negb (is_file skill_md w) then Err (skill_parse_error (directory ++ u ": missing required " ++ SKILL_FILE_NAME))
  else
    text <-! read_text skill_md w ;;
    parsed <-! _split_frontmatter text skill_md ;;
    let fm := parsed.1 in
    let name := fm_get (u "name") [] fm in
    let dirname := basename directory in
    if negb (bool_decide (name = dirname))
    then Err (skill_parse_error (skill_md ++ u ": frontmatter name " ++ py_repr (JStr name) ++
               u " does not match directory name " ++ py_repr (JStr dirname)))
    else make_skill name (fm_get (u "description") [] fm) source directory (nonempty_or_none (dict_get (u "version") fm))
           (fm_get (u "type") (u "repo") fm) (comma_parts (fm_get (u "triggers") [] fm)) w.

Definition read_main (s : Skill) (w : W) : result pystr :=
  let path := path_join (sk_root_path s) SKILL_FILE_NAME in
  if negb (is_file path w)
  then Err (skill_parse_error (u "skill " ++ py_repr (JStr (sk_name s)) ++ u ": " ++ SKILL_FILE_NAME ++ u " is not readable at " ++
             py_repr (JStr path) ++ u " (the skill directory may have been removed " ++ [8212%N] ++ u " e.g. its ZipSkillLoader was closed)"))
  else text <-! read_text path w ;; rmap (fun p => strip p.2) (_split_frontmatter text path).

(** The loop of [FileSystemSkillLoader.discover]. *)
Fixpoint discover_entries (root source : pystr) (entries : list pystr) (seen : list pystr) (w : W) : result (list Skill) :=
  match entries with
  | [] => Ok []
  | entry :: rest =>
    let folder := path_join root entry in
    if negb (is_dir folder w) || negb (is_file (path_join folder SKILL_FILE_NAME) w) then discover_entries root source rest seen w
    else let real := realpath folder w in
    if elem_b real seen then discover_entries root source rest seen w
    else match skill_from_directory folder source w with
         | Ok s => rmap (cons s) (discover_entries root source rest (real :: seen) w)
         | Err e => if bool_decide (exn_type e = u "SkillParseError") then discover_entries root source rest seen w else Err e
         end
  end.

Definition discover (root source : pystr) (w : W) : result (list Skill) :=
  entries <-! list_dir root w ;; discover_entries root source (sorted_strs entries) [] w.
End Skills.

(** ** The registry *)

Record VetResult := { vet_clean : bool; vet_categories : list pystr }.

(** [self._skills]: accepted skills by name. *)
Abbreviation Registry := (list (pystr * Skill)).

Section Registry.
Context `{PyRuntime}.

Definition registry_add (skill : Skill) (vet : option VetResult) (r : Registry) : result unit * Registry :=
  let refused why := (Err (skill_vet_error (u "skill " ++ py_repr (JStr (sk_name skill)) ++ u " (source=" ++
                           py_repr (JStr (sk_source skill)) ++ why)), r) in
  let accepted := (Ok tt, if dict_has (sk_name skill) r then r else dict_set (sk_name skill) skill r) in
  if bool_decide (sk_source skill = u "local") then accepted
  else match vet with
       | None => refused (u ") cannot be accepted without a VetResult " ++ [8212%N] ++ u " non-local skills must be vetted first")
       | Some v =>
         if vet_clean v then accepted
         else refused (u ") failed vetting (flags: " ++ py_repr (JList (map JStr (sorted_strs (from_keys (vet_categories v))))) ++
                       u ") and cannot be accepted")
       end.

Fixpoint add_many (skills : list Skill) (vet : option VetResult) (r : Registry) : result unit * Registry :=
  match skills with
  | [] => (Ok tt, r)
  | s :: rest => match registry_add s vet r with
                 | (Ok _, r') => add_many rest vet r'
                 | (Err e, r') => (Err e, r')
                 end
  end.

(** [load_from], of the result of the loader's [discover]. *)
Definition load_from (discovered : result (list Skill)) (vet : option VetResult) (r : Registry) : result (list Skill) * Registry :=
  match discovered with
  | Err e => (Err e, r)
  | Ok skills => let (res, r') := add_many skills vet r in (rmap (fun _ => skills) res, r')
  end.

Definition list_skills (r : Registry) : list Skill := map snd r.

Definition registry_get (name : pystr) (r : Registry) : result Skill :=
  match dict_get name r with
  | Some s => Ok s
  | None => Err (PyExn (u "SkillNotFoundError") (u "no skill named " ++ py_repr (JStr name) ++ u " is registered"))
  end.
End Registry.

Definition registry_load `{PyRuntime, UnicodeWord} {W} `{SkillFiles W} (name : pystr) (r : Registry) (w : W) : result pystr :=
  s <-! registry_get name r ;; read_main s w.

(** [sorted(skills, key=lambda s: s.name)], which is stable. *)
Definition by_name (skills : list Skill) : list Skill := map snd (sort_items (map (fun s => (sk_name s, s)) skills)).

Definition catalog (skills : list Skill) : pystr :=
  join [10%N] (map (fun s => u "- " ++ sk_name s ++ u ": " ++ sk_description s) (by_name skills)).

Definition to_prompt_catalog (r : Registry) : pystr := catalog (map snd r).

(** ** Activation *)

Definition triggered (message : pystr) (s : Skill) : bool :=
  bool_decide (sk_type s = u "repo") ||
  bool_decide (sk_type s = u "knowledge") && existsb (fun t => contains (lower t) message) (sk_triggers s).

Definition select_active_skills (skills : list Skill) (latest_user_message : pystr) : list Skill :=
  List.filter (triggered (lower latest_user_message)) skills.

(** [SkillActivationHook.__call__]. *)
Definition activation_hook (skills : list Skill) (context : HookContext) : option HookResult :=
  if negb (bool_decide (hc_point context = BEFORE_LLM_CALL)) then None
  else match select_active_skills skills (default [] (hc_user_message context)) with
       | [] => None
       | active => Some {| should_continue := true;
                           modified_context := Some [(u "system_prompt", JStr (catalog active))] |}
       end.

(** ** Frontmatter *)

(** A key and a value that print as one plain line. *)
Definition key_rest (d : N) : bool := ((48 <=? d) && (d <=? 57) || key_start d || (d =? 45))%N.

Definition entry_ok (kv : pystr * pystr) : Prop :=
  match kv.1 with c :: k => key_start c = true /\ Forall (fun d => key_rest d = true) k | [] => False end /\
  strip kv.2 = kv.2 /\ unquote kv.2 = kv.2 /\ no_breaks kv.2.

Definition entry_line (kv : pystr * pystr) : pystr := kv.1 ++ u ": " ++ kv.2.

Lemma strip_fixed v : strip v = v -> lstrip_with is_space v = v.
Proof.
  unfold strip, rstrip_with, lstrip_with. intros Hv. destruct (drop_while_suffix is_space v) as [k Hk].
  destruct (drop_while_suffix is_space (rev (drop_while is_space v))) as [k' Hk'].
  apply (f_equal length) in Hv as Hlen. rewrite length_rev in Hlen. apply (f_equal length) in Hk'.
  rewrite length_app, length_rev in Hk'. apply (f_equal length) in Hk as Hk2. rewrite length_app in Hk2.
  destruct k; [done|]. cbn in Hk2. lia.
Qed.

Ltac ascii := repeat first [rewrite orb_true_iff in * | rewrite andb_true_iff in * | rewrite N.leb_le in * | rewrite N.eqb_eq in *]; lia.

Section Facts.
Context `{PyRuntime, UnicodeWord}.

Lemma key_char_rest d : key_rest d = true -> key_char d = true.
Proof.
  unfold key_rest, key_start, key_char. intros Hd. destruct (d =? 45)%N eqn:E; [by rewrite orb_true_r|].
  rewrite orb_false_r in Hd |- *. rewrite word_ascii; ascii.
Qed.

Lemma take_while_app p k c s : Forall (fun d => p d = true) k -> p c = false ->
  take_while p (k ++ c :: s) = k /\ drop_while p (k ++ c :: s) = c :: s.
Proof.
  intros Hk Hc. induction Hk as [|d' k Hd _ [IHt IHd]]; cbn; [by rewrite Hc|]. by rewrite Hd, IHt, IHd.
Qed.

Lemma match_entry_line kv : entry_ok kv -> match_entry (entry_line kv) = Some (kv.1, kv.2).
Proof.
  intros (Hk & Hs & _ & _). destruct kv as [[|c k] v]; [done|]. destruct Hk as [Hc Hk]. cbn [fst snd] in *.
  unfold entry_line. cbn [fst snd app match_entry]. rewrite Hc. change (u ": ") with [58%N; 32%N]. cbn [app].
  destruct (take_while_app key_char k 58%N (32%N :: v)) as [-> ->].
  - eapply Forall_impl; [exact Hk|]. apply key_char_rest.
  - unfold key_char. by rewrite word_ascii.
  - cbn [lstrip_with]. change (lstrip_with is_space (58%N :: 32%N :: v)) with (58%N :: 32%N :: v). cbn iota.
    change (lstrip_with is_space (32%N :: v)) with (lstrip_with is_space v). by rewrite strip_fixed.
Qed.

Lemma strip_head c s : is_space c = false -> exists t, strip (c :: s) = c :: t.
Proof.
  intros Hc. unfold strip, lstrip_with, rstrip_with. cbn [drop_while]. rewrite Hc. cbn [rev].
  assert (forall l, exists t, drop_while is_space (l ++ [c]) = t ++ [c]) as Hl.
  { intros l. induction l as [|d l IH]; cbn; [rewrite Hc; by exists []|]. destruct (is_space d); [done|]. by exists (d :: l). }
  destruct (Hl (rev s)) as [t ->]. exists (rev t). by rewrite rev_app_distr.
Qed.

Lemma entry_line_plain kv : entry_ok kv -> strip (entry_line kv) <> u "---" /\ strip (entry_line kv) <> [] /\ no_breaks (entry_line kv).
Proof.
  intros (Hk & Hs & _ & Hb). destruct kv as [[|c k] v]; [done|]. destruct Hk as [Hc Hk]. cbn [fst snd] in *.
  unfold entry_line. cbn [fst snd app].
  assert (is_space c = false /\ c <> 45%N /\ is_line_break c = false) as (Hsp & Hd & Hlb).
  { unfold key_start in Hc. split; [|split]; [|ascii|]; apply not_true_iff_false; intros Hx; unfold is_space, is_line_break in Hx; ascii. }
  destruct (strip_head c (k ++ u ": " ++ v) Hsp) as [t ->]. split; [|split].
  - change (u "---") with [45%N; 45%N; 45%N]. by intros [= Hx _].
  - done.
  - constructor; [done|]. apply Forall_app_2; [|apply Forall_app_2; [by repeat constructor|done]].
    eapply Forall_impl; [exact Hk|]. intros d Hd'. apply not_true_iff_false. intros Hx. unfold key_rest, key_start in Hd'.
    unfold is_line_break in Hx. ascii.
Qed.

Lemma frontmatter_entries path entries fm rest : Forall entry_ok entries -> NoDup (map fst (fm ++ entries)) ->
  frontmatter_lines path (map entry_line entries ++ u "---" :: rest) fm = Ok (fm ++ entries, Some rest).
Proof.
  intros Hok. revert fm. induction Hok as [|kv entries Hkv _ IH]; intros fm Hd.
  - cbn [map app frontmatter_lines]. rewrite bool_decide_true by reflexivity. by rewrite app_nil_r.
  - cbn [map app frontmatter_lines]. destruct (entry_line_plain kv Hkv) as (H1 & H2 & _).
    rewrite (bool_decide_false _ H1), (bool_decide_false _ H2), match_entry_line by done. cbn beta iota.
    destruct Hkv as (_ & Hs & Hu & _). rewrite Hs, Hu.
    rewrite dict_set_absent; [|].
    + destruct kv as [k v]. cbn [fst snd]. rewrite IH; rewrite <- app_assoc; done.
    + destruct (dict_get kv.1 fm) eqn:E; [|done]. exfalso.
      assert (kv.1 ∈ map fst fm) as Hin by (by apply dict_get_key; rewrite E).
      rewrite map_app in Hd. apply NoDup_app in Hd as (_ & Hx & _). apply (Hx _ Hin). cbn [map]. by apply list_elem_of_here.
Qed.

(** the frontmatter format is read as it is written: a file of one plain
    [key: value] line per entry between two fences, followed by a body, parses
    to exactly the entries in order and the body's lines. *)
Theorem frontmatter_roundtrip path entries body :
  Forall entry_ok entries -> NoDup (map fst entries) -> Forall no_breaks body ->
  _split_frontmatter (unlines (u "---" :: map entry_line entries ++ u "---" :: body)) path = Ok (entries, join [10%N] body).
Proof.
  intros Hok Hd Hb. unfold _split_frontmatter. cbv zeta. rewrite splitlines_unlines.
  - rewrite (bool_decide_true (strip (u "---") = u "---")) by reflexivity. cbn [negb].
    rewrite frontmatter_entries by done. done.
  - assert (no_breaks (u "---")) as Hf by (by repeat constructor). constructor; [done|]. apply Forall_app_2; [|by constructor].
    apply Forall_map. eapply Forall_impl; [exact Hok|]. intros kv Hkv. by apply entry_line_plain.
Qed.
End Facts.

(** ** What a loaded skill is *)

(** The name rule: slugs, and slugs followed by one line feed, which the pattern's [$] lets through. *)
Lemma trailing_newline_accepted : name_matches (u "git" ++ [10%N]) = true /\ slug (u "git" ++ [10%N]) = false.
Proof. vm_compute. done. Qed.

Lemma truncated_bound description source : (zlen source <= 900)%Z -> (zlen (truncate_description description source) <= MAX_DESCRIPTION_LENGTH)%Z.
Proof.
  intros Hs. unfold truncate_description. destruct (Z.leb_spec (zlen description) MAX_DESCRIPTION_LENGTH) as [|Hl]; [done|].
  set (notice := u "...[truncated, see full text at " ++ source ++ u "]"). assert (zlen notice = zlen source + 33)%Z as Hn.
  { subst notice. rewrite !zlen_app. change (zlen (u "...[truncated, see full text at ")) with 32%Z.
    change (zlen (u "]")) with 1%Z. lia. }
  rewrite zlen_app. unfold MAX_DESCRIPTION_LENGTH in *. rewrite zlen_slice_to by lia. lia.
Qed.

(** What [from_directory] guarantees of a skill. *)
Record skill_ok (s : Skill) : Prop := {
  ok_name : name_matches (sk_name s) = true;
  ok_name_length : (zlen (sk_name s) <= MAX_NAME_LENGTH)%Z;
  ok_description : (zlen (sk_description s) <= MAX_DESCRIPTION_LENGTH)%Z;
  ok_type : sk_type s = u "repo" \/ sk_type s = u "knowledge";
  ok_triggers : [] ∉ sk_triggers s;
}.

Section Loading.
Context `{PyRuntime, UnicodeWord} {W : Type} `{SkillFiles W}.

Lemma skill_from_directory_ok directory source w s : (zlen source <= 900)%Z ->
  skill_from_directory directory source w = Ok s ->
  skill_ok s /\ sk_source s = source /\ sk_name s = basename (realpath directory w).
Proof.
  intros Hs. unfold skill_from_directory. cbv zeta. destruct (negb (is_file _ w)); [done|].
  destruct (read_text _ w) as [text|]; [|done]. cbn [rbind]. destruct (_split_frontmatter text _) as [[fm body]|]; [|done]. cbn [rbind fst].
  set (name := fm_get (u "name") [] fm). destruct (bool_decide (name = _)) eqn:En; cbn [negb]; [|done].
  apply bool_decide_eq_true in En. unfold make_skill.
  destruct ((MAX_NAME_LENGTH <? zlen name)%Z || negb (name_matches name)) eqn:E1; [done|].
  apply orb_false_iff in E1 as [E1 E2]. apply negb_false_iff in E2. apply Z.ltb_ge in E1.
  destruct (negb (nonblank _)); [done|]. destruct (negb (elem_b _ _)) eqn:E3; [done|]. apply negb_false_iff in E3.
  apply bool_decide_eq_true in E3. intros [= <-]. split; [split|split]; try done; cbn.
  - by apply truncated_bound.
  - set_unfold in E3. naive_solver.
  - unfold comma_parts. rewrite list_elem_of_filter. naive_solver.
Qed.

(** The entries discovery returns: every skill is well formed, was given the
    loader's source, and carries the name of its directory; no two come from the
    same real path. *)
Lemma discover_entries_ok root source entries seen w skills : (zlen source <= 900)%Z ->
  discover_entries root source entries seen w = Ok skills ->
  exists folders, Forall2 (fun f s => skill_from_directory f source w = Ok s /\ f ∈ map (path_join root) entries) folders skills /\
    NoDup (map (fun f => realpath f w) folders) /\ Forall (fun f => realpath f w ∉ seen) folders.
Proof.
  intros Hs. revert seen skills. induction entries as [|entry entries IH]; intros seen skills; cbn [discover_entries map].
  - intros [= <-]. exists []. split; [done|]. split; constructor.
  - assert (forall r, discover_entries root source entries r w = Ok skills ->
      (forall x, x ∈ seen -> x ∈ r) -> exists folders, Forall2 (fun f s => skill_from_directory f source w = Ok s /\
        f ∈ path_join root entry :: map (path_join root) entries) folders skills /\
        NoDup (map (fun f => realpath f w) folders) /\ Forall (fun f => realpath f w ∉ seen) folders) as Hskip.
    { intros r Hr Hsub. destruct (IH _ _ Hr) as (fs & Hf & Hd & Hn). exists fs. split; [|split; [done|]].
      - eapply Forall2_impl; [exact Hf|]. intros f s [? ?]. split; [done|]. by apply list_elem_of_further.
      - eapply Forall_impl; [exact Hn|]. intros f Hx Hin. by apply Hx, Hsub. }
    cbv zeta. destruct (negb (is_dir _ w) || negb (is_file _ w)); [intros Hr; by eapply Hskip|].
    destruct (elem_b _ seen) eqn:Ee; [intros Hr; by eapply Hskip|]. apply bool_decide_eq_false in Ee.
    destruct (skill_from_directory (path_join root entry) source w) as [s|e] eqn:Es.
    + destruct (discover_entries root source entries _ w) as [rest|] eqn:Er; [|done]. cbn [rmap]. intros [= <-].
      destruct (IH _ _ Er) as (fs & Hf & Hd & Hn). exists (path_join root entry :: fs). split; [|split].
      * constructor; [split; [done|by apply list_elem_of_here]|]. eapply Forall2_impl; [exact Hf|]. intros f s' [? ?].
        split; [done|]. by apply list_elem_of_further.
      * cbn [map]. constructor; [|done]. intros Hin. apply list_elem_of_fmap in Hin as (f & Heq & Hin).
        eapply Forall_forall in Hn; [|exact Hin]. apply Hn. rewrite <- Heq. by apply list_elem_of_here.
      * constructor; [done|]. eapply Forall_impl; [exact Hn|]. intros f Hx Hin. apply Hx. by apply list_elem_of_further.
    + destruct (bool_decide _); [|done]. intros Hr. by eapply Hskip.
Qed.

(** A file that is not UTF-8 ends the whole scan: only parse errors are skipped. *)
Lemma undecodable_skill_stops_discovery root source entry entries seen w msg :
  is_dir (path_join root entry) w = true -> is_file (path_join (path_join root entry) SKILL_FILE_NAME) w = true ->
  realpath (path_join root entry) w = path_join root entry -> path_join root entry ∉ seen ->
  read_text (path_join (path_join root entry) SKILL_FILE_NAME) w = Err (PyExn (u "UnicodeDecodeError") msg) ->
  discover_entries root source (entry :: entries) seen w = Err (PyExn (u "UnicodeDecodeError") msg).
Proof.
  intros Hd Hf Hr Hs He. cbn [discover_entries]. cbv zeta. rewrite Hd, Hf, Hr. cbn [negb orb].
  unfold elem_b. rewrite bool_decide_false by done. unfold skill_from_directory. cbv zeta. by rewrite Hr, Hf, He.
Qed.
End Loading.

(** ** What the registry holds *)

(** The additions the vetting rule lets through. *)
Definition acceptable (op : Skill * option VetResult) : bool :=
  bool_decide (sk_source op.1 = u "local") || match op.2 with Some v => vet_clean v | None => false end.

Definition add_all `{PyRuntime} (ops : list (Skill * option VetResult)) (r : Registry) : Registry :=
  foldl (fun r op => (registry_add op.1 op.2 r).2) r ops.

Definition first_accepted (name : pystr) (ops : list (Skill * option VetResult)) : option Skill :=
  head (map fst (filter (fun op => acceptable op = true /\ sk_name op.1 = name) ops)).

Lemma registry_add_get `{PyRuntime} op r n : dict_get n (registry_add op.1 op.2 r).2 =
  match dict_get n r with
  | Some s => Some s
  | None => if bool_decide (acceptable op = true /\ sk_name op.1 = n) then Some op.1 else None
  end.
Proof.
  assert (forall r', r' = (if dict_has (sk_name op.1) r then r else dict_set (sk_name op.1) op.1 r) ->
    dict_get n r' = match dict_get n r with Some s => Some s | None => if decide (sk_name op.1 = n) then Some op.1 else None end) as Hacc.
  { intros r' ->. unfold dict_has. destruct (dict_get (sk_name op.1) r) eqn:E.
    - destruct (decide (sk_name op.1 = n)) as [<-|]; [by rewrite E|]. by destruct (dict_get n r).
    - rewrite dict_get_set. destruct (decide (n = sk_name op.1)) as [->|Hne]; [by rewrite E, decide_True|].
      rewrite (decide_False (P := sk_name op.1 = n)) by congruence. by destruct (dict_get n r). }
  unfold registry_add, acceptable. cbv zeta. destruct (bool_decide (sk_source op.1 = u "local")) eqn:El; cbn [orb].
  - rewrite Hacc by done. destruct (dict_get n r); [done|]. destruct (decide (sk_name op.1 = n)).
    + by rewrite bool_decide_true.
    + by rewrite bool_decide_false by naive_solver.
  - destruct op.2 as [v|]; [destruct (vet_clean v)|].
    + cbn [snd]. rewrite Hacc by done. destruct (dict_get n r); [done|]. destruct (decide (sk_name op.1 = n)).
      * by rewrite bool_decide_true.
      * by rewrite bool_decide_false by naive_solver.
    + cbn [snd]. destruct (dict_get n r); [done|]. by rewrite bool_decide_false by naive_solver.
    + cbn [snd]. destruct (dict_get n r); [done|]. by rewrite bool_decide_false by naive_solver.
Qed.

Lemma add_all_get `{PyRuntime} ops r n : dict_get n (add_all ops r) =
  match dict_get n r with Some s => Some s | None => first_accepted n ops end.
Proof.
  unfold first_accepted. revert r. induction ops as [|op ops IH]; intros r; cbn [add_all foldl]; [by destruct (dict_get n r)|].
  change (foldl _ _ ops) with (add_all ops (registry_add op.1 op.2 r).2). rewrite IH, registry_add_get.
  destruct (dict_get n r); [done|]. case_bool_decide as Hb; [by rewrite filter_cons_True|by rewrite filter_cons_False].
Qed.

(** the registry holds exactly what its rule admits. After any sequence of
    additions, successful or refused, a name stands for the first skill of that
    name that was local or came with a clean vetting result, and for nothing
    otherwise: no unvetted external skill is ever held, and none is replaced. *)
Theorem registry_holds_first_vetted `{PyRuntime} ops name :
  dict_get name (add_all ops []) = first_accepted name ops /\
  (forall s, dict_get name (add_all ops []) = Some s ->
     sk_source s = u "local" \/ exists v, (s, Some v) ∈ ops /\ vet_clean v = true).
Proof.
  rewrite add_all_get. cbn [dict_get]. split; [done|]. intros s Hs. unfold first_accepted in Hs.
  apply head_Some_elem_of, list_elem_of_fmap in Hs as ([s' v] & -> & Hin). apply list_elem_of_filter in Hin as [[Ha _] Hin].
  unfold acceptable in Ha. cbn [fst snd] in *. apply orb_prop in Ha as [Hl|Hv].
  - left. by apply bool_decide_eq_true in Hl.
  - right. destruct v as [v|]; [|done]. by exists v.
Qed.

(** ** Witness *)

#[local] Instance ascii_words : UnicodeWord := {
  word_char c := ((48 <=? c) && (c <=? 57) || (65 <=? c) && (c <=? 90) || (97 <=? c) && (c <=? 122) || (c =? 95))%N;
  word_ascii _ _ := eq_refl }.

Lemma frontmatter_roundtrip_witness :
  @_split_frontmatter (decoding_runtime []) ascii_words
    (unlines [u "---"; u "name: git"; u "triggers: commit, push"; u "---"; u "# Git"; []; u "Use it."]) (u "SKILL.md") =
  Ok ([(u "name", u "git"); (u "triggers", u "commit, push")], join [10%N] [u "# Git"; []; u "Use it."]).
Proof.
  apply (@frontmatter_roundtrip (decoding_runtime []) ascii_words (u "SKILL.md")
    [(u "name", u "git"); (u "triggers", u "commit, push")] [u "# Git"; []; u "Use it."]).
  - repeat constructor.
  - repeat constructor; set_solver.
  - repeat constructor.
Defined.
