(* ===== verification/Plugins.v ===== *)
(** * Plugins (kinetic_sdk/plugin/manifest.py, discovery.py, registry.py)

    Manifests and their validation, discovery without importing anything, and the
    registry that merges the tools of all plugins. Scanning and importing one
    plugin is an interface ([PluginLoader]). *)

From stdpp Require Import base strings list sets.
From Stdlib Require Import ZArith Lia SpecFloat.
From S2P Require Import Prelude Json PyText Types EventBus Redact Hooks Skills.

Definition manifest_error (msg : pystr) : pyexn := PyExn (u "PluginManifestError") msg.
Definition load_error (msg : pystr) : pyexn := PyExn (u "PluginLoadError") msg.

Definition PLUGIN_FILE_NAME : pystr := u "PLUGIN.md".
Definition KNOWN_CAPABILITIES : list pystr := map u ["tool"; "hook"; "mcp"; "skill"; "agent"; "command"]%string.

Record PluginManifest := {
  pm_name : pystr;
  pm_version : option pystr;
  pm_entry_point : pystr;
  pm_source : pystr;
  declared_capabilities : list pystr;
  pm_directory : option pystr;
  isolation : pystr;
  network : option pystr;
  memory_limit : pystr;
  cpu_limit : pyfloat;
  pids_limit : Z;
}.

Section Manifests.
Context `{PyRuntime, UnicodeWord, Numerals} {W : Type} `{SkillFiles W}.

Definition identifier (s : pystr) : bool := match s with c :: r => key_start c && forallb word_char r | [] => false end.

(** An identifier that may be followed by a line feed, as the pattern's [$] allows. *)
Definition final_identifier (s : pystr) : bool :=
  identifier s || match rev s with c :: r => (c =? 10)%N && identifier (rev r) | [] => false end.

(** [_ENTRY_POINT_RE.match(s)]. *)
Definition entry_point_matches (s : pystr) : bool :=
  match split_on 58 s with
  | [module; factory] => forallb identifier (split_on 46 module) && final_identifier factory
  | _ => false
  end.

Definition names_repr (l : list pystr) : pystr := py_repr (JList (map JStr (sorted_strs l))).

Definition plugin_error (name why : pystr) : pyexn := manifest_error (u "plugin " ++ py_repr (JStr name) ++ u ": " ++ why).

(** The checks of [__post_init__], in order; the result's directory is canonical. *)
Definition make_manifest (m : PluginManifest) (w : W) : result PluginManifest :=
  let name := pm_name m in
  let fail why := Err (plugin_error name why) in
  if (MAX_NAME_LENGTH <? zlen name)%Z || negb (name_matches name)
  then Err (manifest_error (u "invalid plugin name " ++ py_repr (JStr name) ++ u ": must match '^[a-z0-9]+(-[a-z0-9]+)*$' and be <= 64 chars"))
  else if match pm_version m with Some v => negb (nonblank v) | None => false end
  then fail (u "version must be a non-empty string or None")
  else if negb (entry_point_matches (pm_entry_point m))
  then fail (u "invalid entry_point " ++ py_repr (JStr (pm_entry_point m)) ++ u " (expected 'module.submodule:factory_function')")
  else if negb (elem_b (pm_source m) [u "entry_point"; u "directory"])
  then fail (u "invalid source " ++ py_repr (JStr (pm_source m)) ++ u " (expected 'entry_point' or 'directory')")
  else if negb (elem_b (isolation m) [u "in-process"; u "docker"])
  then fail (u "isolation must be 'in-process' or 'docker'")
  else if bool_decide (isolation m = u "docker") && negb (bool_decide (pm_source m = u "directory"))
  then fail (u "docker isolation requires a directory plugin")
  else if negb (nonblank (memory_limit m)) || fl_le (cpu_limit m) (S754_zero false) || (pids_limit m <=? 0)%Z
  then fail (u "docker resource limits must be positive")
  else if bool_decide (declared_capabilities m = []) then fail (u "declared_capabilities must be non-empty")
  else
    let unknown := filter (fun c => c ∉ KNOWN_CAPABILITIES) (declared_capabilities m) in
    if negb (bool_decide (unknown = []))
    then fail (u "unknown capabilities " ++ names_repr unknown ++ u " (known: " ++ names_repr KNOWN_CAPABILITIES ++ u ")")
    else
      let with_directory d := Ok {| pm_name := name; pm_version := pm_version m; pm_entry_point := pm_entry_point m;
        pm_source := pm_source m; declared_capabilities := declared_capabilities m; pm_directory := d; isolation := isolation m;
        network := network m; memory_limit := memory_limit m; cpu_limit := cpu_limit m; pids_limit := pids_limit m |} in
      if bool_decide (pm_source m = u "directory") then
        match nonempty_or_none (pm_directory m) with
        | None => fail (u "source 'directory' requires a directory path")
        | Some d => with_directory (Some (realpath d w))
        end
      else match pm_directory m with
           | Some _ => fail (u "directory must be None for entry-point plugins")
           | None => with_directory None
           end.

Definition module_spec (m : PluginManifest) : pystr := default [] (head (split_on 58 (pm_entry_point m))).
Definition factory_name (m : PluginManifest) : pystr := join [58%N] (tail (split_on 58 (pm_entry_point m))).

(** [PluginManifest.from_directory]. *)
Definition manifest_from_directory (directory : pystr) (w : W) : result PluginManifest :=
  let directory := realpath directory w in
  let plugin_md := path_join directory PLUGIN_FILE_NAME in
  if negb (is_file plugin_md w) then Err (manifest_error (directory ++ u ": missing required " ++ PLUGIN_FILE_NAME))
  else
    text <-! read_text plugin_md w ;;
    match _split_frontmatter text plugin_md with
    | Err e => Err (manifest_error (exn_msg e))
    | Ok (fm, _) =>
      let name := fm_get (u "name") [] fm in
      let dirname := basename directory in
      if negb (bool_decide (name = dirname))
      then Err (manifest_error (plugin_md ++ u ": frontmatter name " ++ py_repr (JStr name) ++
                 u " does not match directory name " ++ py_repr (JStr dirname)))
      else
        let entry_point := fm_get (u "entry_point") [] fm in
        if bool_decide (entry_point = []) then Err (manifest_error (plugin_md ++ u ": missing required 'entry_point' key"))
        else
          let net := fm_get (u "network") (u "none") fm in
          cpu <-! parse_float (fm_get (u "cpu_limit") (u "1.0") fm) ;;
          pids <-! parse_int (fm_get (u "pids_limit") (u "128") fm) ;;
          make_manifest {| pm_name := name; pm_version := nonempty_or_none (dict_get (u "version") fm); pm_entry_point := entry_point;
            pm_source := u "directory"; declared_capabilities := from_keys (comma_parts (fm_get (u "capabilities") (u "tool") fm));
            pm_directory := Some directory; isolation := fm_get (u "isolation") (u "in-process") fm;
            network := if bool_decide (net = u "host") then None else Some net;
            memory_limit := fm_get (u "memory_limit") (u "512m") fm; cpu_limit := cpu; pids_limit := pids |} w
    end.

Definition from_entry_point (name value : pystr) (version : option pystr) (w : W) : result PluginManifest :=
  make_manifest {| pm_name := name; pm_version := version; pm_entry_point := value; pm_source := u "entry_point";
    declared_capabilities := [u "tool"]; pm_directory := None; isolation := u "in-process"; network := Some (u "none");
    memory_limit := u "512m"; cpu_limit := fl_of_Z 1; pids_limit := 128 |} w.

(** ** Discovery *)

Fixpoint discover_entry_point_plugins (eps : list (pystr * pystr * option pystr)) (w : W) : result (list PluginManifest) :=
  match eps with
  | [] => Ok []
  | (name, value, version) :: rest =>
    m <-! from_entry_point name value version w ;; rmap (cons m) (discover_entry_point_plugins rest w)
  end.

Fixpoint manifests_of (directory : pystr) (entries : list pystr) (w : W) : result (list PluginManifest) :=
  match entries with
  | [] => Ok []
  | entry :: rest =>
    let subdir := path_join directory entry in
    if negb (is_dir subdir w) || negb (is_file (path_join subdir PLUGIN_FILE_NAME) w) then manifests_of directory rest w
    else match manifest_from_directory subdir w with
         | Ok m => rmap (cons m) (manifests_of directory rest w)
         | Err e => if bool_decide (exn_type e = u "PluginManifestError") then manifests_of directory rest w else Err e
         end
  end.

Definition discover_directory_plugins (directory : pystr) (w : W) : result (list PluginManifest) :=
  let directory := realpath directory w in
  if negb (is_dir directory w) then Ok []
  else entries <-! list_dir directory w ;; manifests_of directory (sorted_strs entries) w.

(** The check for names claimed twice; [seen] maps a name to its source. *)
Fixpoint check_claims (manifests : list PluginManifest) (seen : list (pystr * pystr)) : result unit :=
  match manifests with
  | [] => Ok tt
  | m :: rest =>
    match dict_get (pm_name m) seen with
    | Some previous =>
      Err (manifest_error (u "plugin name " ++ py_repr (JStr (pm_name m)) ++ u " is claimed by both " ++ py_repr (JStr previous) ++
             u " and " ++ py_repr (JStr (pm_source m)) ++ u " discovery " ++ [8212%N] ++
             u " rename one of them; refusing to pick a winner silently"))
    | None => check_claims rest (dict_set (pm_name m) (pm_source m) seen)
    end
  end.

Definition discover_plugins (directory : option pystr) (eps : list (pystr * pystr * option pystr)) (w : W) : result (list PluginManifest) :=
  installed <-! discover_entry_point_plugins eps w ;;
  local <-! match directory with Some d => discover_directory_plugins d w | None => Ok [] end ;;
  rmap (fun _ => installed ++ local) (check_claims (installed ++ local) []).
End Manifests.

(** ** The registry *)

(** Scanning and importing a plugin: its tools, or an exception. *)
Class PluginLoader (W : Type) := { load_plugin : PluginManifest -> W -> result (list Tool) * W }.

Record PluginRegistry := {
  pr_directory : option pystr;
  pr_entry_points : list (pystr * pystr * option pystr);
  reserved_names : list pystr;
}.

Section Registry.
Context `{PyRuntime, UnicodeWord, Numerals} {W : Type} `{SkillFiles W, PluginLoader W}.

(** Merging the tools of one plugin into those already loaded. *)
Fixpoint merge_tools (reserved : list pystr) (plugin : pystr) (loaded : list Tool) (owners : list (pystr * pystr)) (tools : list Tool)
    : result (list (pystr * pystr) * list Tool) :=
  match loaded with
  | [] => Ok (owners, tools)
  | t :: rest =>
    match dict_get (t_name t) owners with
    | Some owner =>
      Err (load_error (u "tool name " ++ py_repr (JStr (t_name t)) ++ u " is claimed by both plugin " ++ py_repr (JStr owner) ++
             u " and plugin " ++ py_repr (JStr plugin) ++ u " " ++ [8212%N] ++
             u " collisions are rejected, not renamed (see plugin/registry.py docstring)"))
    | None =>
      if elem_b (t_name t) reserved
      then Err (load_error (u "plugin " ++ py_repr (JStr plugin) ++ u " declares tool " ++ py_repr (JStr (t_name t)) ++
             u " which is reserved by an internal/MCP tool " ++ [8212%N] ++ u " plugin tools may not shadow existing tools"))
      else merge_tools reserved plugin rest (dict_set (t_name t) plugin owners) (tools ++ [t])
    end
  end.

Fixpoint load_manifests (strict : bool) (reserved : list pystr) (ms : list PluginManifest) (owners : list (pystr * pystr))
    (tools : list Tool) (w : W) : result (list Tool) * W :=
  match ms with
  | [] => (Ok tools, w)
  | m :: rest =>
    let (r, w1) := load_plugin m w in
    match r with
    | Err e => if strict then (Err e, w1) else load_manifests strict reserved rest owners tools w1
    | Ok loaded =>
      match merge_tools reserved (pm_name m) loaded owners tools with
      | Err e => (Err e, w1)
      | Ok (owners', tools') => load_manifests strict reserved rest owners' tools' w1
      end
    end
  end.

Definition load_all (on_error : pystr) (p : PluginRegistry) (w : W) : result (list Tool) * W :=
  if negb (elem_b on_error [u "raise"; u "skip"])
  then (Err (value_error (u "on_error must be 'raise' or 'skip', got " ++ py_repr (JStr on_error))), w)
  else match discover_plugins (pr_directory p) (pr_entry_points p) w with
       | Err e => (Err e, w)
       | Ok ms => load_manifests (bool_decide (on_error = u "raise")) (reserved_names p) ms [] [] w
       end.
End Registry.

(** ** What is loaded *)

Section Loading.
Context `{PyRuntime, UnicodeWord, Numerals} {W : Type} `{SkillFiles W, PluginLoader W}.

Lemma check_claims_ok ms seen : check_claims ms seen = Ok tt ->
  NoDup (map pm_name ms) /\ (forall m, m ∈ ms -> dict_get (pm_name m) seen = None).
Proof.
  revert seen. induction ms as [|m ms IH]; intros seen; cbn [check_claims map].
  - split; [constructor|]. set_solver.
  - destruct (dict_get (pm_name m) seen) eqn:E; [done|]. intros Hc. destruct (IH _ Hc) as [Hd Hn].
    split.
    + constructor; [|done]. intros Hin. apply list_elem_of_fmap in Hin as (m' & He & Hin).
      specialize (Hn _ Hin). by rewrite <- He, dict_get_set_eq in Hn.
    + intros m' Hin. apply elem_of_cons in Hin as [->|Hin]; [done|]. specialize (Hn _ Hin).
      rewrite dict_get_set in Hn. by case_decide.
Qed.

(** Discovery never yields two plugins of one name, across both sources. *)
Lemma discovered_names_unique directory eps w ms : discover_plugins directory eps w = Ok ms -> NoDup (map pm_name ms).
Proof.
  unfold discover_plugins. destruct (discover_entry_point_plugins eps w) as [a|]; [|done]. cbn [rbind].
  destruct (match directory with Some d => _ | None => _ end) as [b|]; [|done]. cbn [rbind].
  destruct (check_claims (a ++ b) []) as [[]|] eqn:E; [|done]. cbn [rmap]. intros [= <-]. by eapply check_claims_ok.
Qed.

(** What merging maintains: one owner per tool, tools named once, none reserved. *)
Definition sole_owners (reserved : list pystr) (owners : list (pystr * pystr)) (tools : list Tool) : Prop :=
  map fst owners = map t_name tools /\ NoDup (map t_name tools) /\ Forall (fun t => t_name t ∉ reserved) tools.

Lemma merge_tools_ok reserved plugin loaded owners tools owners' tools' : sole_owners reserved owners tools ->
  merge_tools reserved plugin loaded owners tools = Ok (owners', tools') ->
  sole_owners reserved owners' tools' /\ tools' = tools ++ loaded.
Proof.
  revert owners tools. induction loaded as [|t loaded IH]; intros owners tools Hm; cbn [merge_tools].
  - intros [= <- <-]. by rewrite app_nil_r.
  - destruct (dict_get (t_name t) owners) eqn:E; [done|]. destruct (elem_b (t_name t) reserved) eqn:Er; [done|].
    apply bool_decide_eq_false in Er. intros Hr. apply IH in Hr as [Hr ->]; [by rewrite <- app_assoc in Hr |- *|].
    destruct Hm as (Hk & Hd & Hn). rewrite dict_set_absent by done. split; [|split].
    + by rewrite !map_app, Hk.
    + rewrite map_app. apply NoDup_app. split; [done|]. split; [|apply NoDup_singleton].
      intros n Hin Hs. cbn [map] in Hs. apply list_elem_of_singleton in Hs. subst n. rewrite <- Hk in Hin.
      apply dict_get_key in Hin as [? Hin]. congruence.
    + apply Forall_app. split; [done|]. by constructor.
Qed.

(** A tool of a plugin among [ms], loaded in some state the pass went through. *)
Definition provided (ms : list PluginManifest) (t : Tool) : Prop :=
  exists m w w' loaded, m ∈ ms /\ load_plugin m w = (Ok loaded, w') /\ t ∈ loaded.

Lemma load_manifests_ok strict reserved ms all owners tools w result w' : ms ⊆ all -> sole_owners reserved owners tools ->
  Forall (provided all) tools -> load_manifests strict reserved ms owners tools w = (Ok result, w') ->
  NoDup (map t_name result) /\ Forall (fun t => t_name t ∉ reserved) result /\ Forall (provided all) result /\ tools `prefix_of` result.
Proof.
  revert owners tools w. induction ms as [|m ms IH]; intros owners tools w Hs Hm Hp; cbn [load_manifests].
  - intros [= <- _]. destruct Hm as (_ & ? & ?). done.
  - assert (m ∈ all /\ ms ⊆ all) as [Hin Hs'] by set_solver. destruct (load_plugin m w) as [[loaded|e] w1] eqn:El.
    + destruct (merge_tools reserved (pm_name m) loaded owners tools) as [[o' t']|] eqn:Em; [|done].
      apply merge_tools_ok in Em as [Em ->]; [|done]. intros Hr. apply IH in Hr as (? & ? & ? & Hpre); [|done|done|].
      * split; [done|]. split; [done|]. split; [done|]. by eapply prefix_app_l.
      * apply Forall_app. split; [done|]. apply Forall_forall. intros t Ht. by exists m, w, w1, loaded.
    + destruct strict; [done|]. by apply IH.
Qed.

(** plugins cannot shadow. When [load_all] returns, no two of the tools it
    hands to the agent share a name, none bears a name reserved for an internal
    or MCP tool, and each was loaded from a plugin that discovery found, whose
    name no other discovered plugin has. *)
Theorem loaded_tools_do_not_shadow on_error p w tools w' :
  load_all on_error p w = (Ok tools, w') ->
  NoDup (map t_name tools) /\ Forall (fun t => t_name t ∉ reserved_names p) tools /\
  exists ms, discover_plugins (pr_directory p) (pr_entry_points p) w = Ok ms /\ NoDup (map pm_name ms) /\ Forall (provided ms) tools.
Proof.
  unfold load_all. destruct (negb _); [done|]. destruct (discover_plugins _ _ _) as [ms|] eqn:Ed; [|done].
  intros Hl. apply (load_manifests_ok _ _ _ ms) in Hl as (Hd & Hr & Hp & _); [|done| |constructor].
  - split; [done|]. split; [done|]. exists ms. split; [done|]. split; [by eapply discovered_names_unique|done].
  - split; [done|]. split; constructor.
Qed.

(** In "skip" mode one plugin that does not load never prevents the others: the
    pass goes on as if it had not been discovered. *)
Lemma failed_plugin_is_skipped reserved m ms owners tools w e w1 : load_plugin m w = (Err e, w1) ->
  load_manifests false reserved (m :: ms) owners tools w = load_manifests false reserved ms owners tools w1.
Proof. intros He. cbn [load_manifests]. by rewrite He. Qed.
End Loading.

(** ** Errors that are not [PluginManifestError] *)

Section Escapes.
Context `{PyRuntime, UnicodeWord, Numerals} {W : Type} `{SkillFiles W}.

(** Every exception but [PluginManifestError] ends the whole scan. *)
Lemma other_error_stops_discovery directory entry entries w e :
  is_dir (path_join directory entry) w = true -> is_file (path_join (path_join directory entry) PLUGIN_FILE_NAME) w = true ->
  manifest_from_directory (path_join directory entry) w = Err e -> exn_type e <> u "PluginManifestError" ->
  manifests_of directory (entry :: entries) w = Err e.
Proof.
  intros Hd Hf He Ht. cbn [manifests_of]. cbv zeta. rewrite Hd, Hf, He. cbn [negb orb]. by rewrite bool_decide_false.
Qed.

(** Such as the [ValueError] of a limit that is not a number. *)
Lemma bad_number_is_value_error directory w text fm body e :
  realpath directory w = directory -> is_file (path_join directory PLUGIN_FILE_NAME) w = true ->
  read_text (path_join directory PLUGIN_FILE_NAME) w = Ok text ->
  _split_frontmatter text (path_join directory PLUGIN_FILE_NAME) = Ok (fm, body) ->
  fm_get (u "name") [] fm = basename directory -> fm_get (u "entry_point") [] fm <> [] ->
  parse_float (fm_get (u "cpu_limit") (u "1.0") fm) = Err e ->
  manifest_from_directory directory w = Err e.
Proof.
  intros Hp Hf Hr Hs Hn He Hc. unfold manifest_from_directory. cbv zeta. rewrite Hp, Hf, Hr. cbn [negb rbind]. rewrite Hs, Hn.
  rewrite bool_decide_true by done. cbn [negb]. rewrite bool_decide_false by done. by rewrite Hc.
Qed.

(** A manifest the constructor accepts: every field satisfies its rule. *)
Lemma make_manifest_ok m w m' : make_manifest m w = Ok m' ->
  name_matches (pm_name m') = true /\ (zlen (pm_name m') <= MAX_NAME_LENGTH)%Z /\ entry_point_matches (pm_entry_point m') = true /\
  pm_source m' ∈ [u "entry_point"; u "directory"] /\ isolation m' ∈ [u "in-process"; u "docker"] /\
  (isolation m' = u "docker" -> pm_source m' = u "directory") /\ (0 < pids_limit m')%Z /\
  declared_capabilities m' <> [] /\ Forall (.∈ KNOWN_CAPABILITIES) (declared_capabilities m') /\
  (pm_source m' = u "directory" <-> is_Some (pm_directory m')).
Proof.
  unfold make_manifest. cbv zeta.
  destruct ((MAX_NAME_LENGTH <? zlen (pm_name m))%Z || negb (name_matches (pm_name m))) eqn:E1; [done|].
  apply orb_false_iff in E1 as [E1 E2]. apply negb_false_iff in E2. apply Z.ltb_ge in E1.
  destruct (match pm_version m with Some _ => _ | None => _ end); [done|].
  destruct (negb (entry_point_matches _)) eqn:E3; [done|]. apply negb_false_iff in E3.
  destruct (negb (elem_b (pm_source m) _)) eqn:E4; [done|]. apply negb_false_iff, bool_decide_eq_true in E4.
  destruct (negb (elem_b (isolation m) _)) eqn:E5; [done|]. apply negb_false_iff, bool_decide_eq_true in E5.
  destruct (bool_decide (isolation m = u "docker") && negb (bool_decide (pm_source m = u "directory"))) eqn:E6; [done|].
  assert (isolation m = u "docker" -> pm_source m = u "directory") as E6'.
  { intros Hi. rewrite (bool_decide_true _ Hi) in E6. by apply negb_false_iff, bool_decide_eq_true in E6. }
  destruct (_ || (pids_limit m <=? 0)%Z) eqn:E7; [done|]. apply orb_false_iff in E7 as [_ E7]. apply Z.leb_gt in E7.
  destruct (bool_decide (declared_capabilities m = [])) eqn:E8; [done|]. apply bool_decide_eq_false in E8. destruct (negb (bool_decide (filter _ _ = []))) eqn:E9; [done|].
  apply negb_false_iff, bool_decide_eq_true in E9.
  assert (Forall (.∈ KNOWN_CAPABILITIES) (declared_capabilities m)) as E9'.
  { apply Forall_forall. intros c Hc. destruct (decide (c ∈ KNOWN_CAPABILITIES)) as [|Hn]; [done|]. exfalso.
    assert (c ∈ filter (fun c => c ∉ KNOWN_CAPABILITIES) (declared_capabilities m)) as Hx by (by apply list_elem_of_filter).
    rewrite E9 in Hx. by apply not_elem_of_nil in Hx. }
  destruct (decide (pm_source m = u "directory")) as [Es|Es].
  - rewrite (bool_decide_true _ Es). destruct (nonempty_or_none (pm_directory m)); [|done]. intros [= <-]. cbn. repeat split; naive_solver.
  - rewrite (bool_decide_false _ Es). destruct (pm_directory m); [done|]. intros [= <-]. cbn. repeat split; try done.
Qed.

(** A limit that is not a number passes for positive. *)
Lemma nan_cpu_limit_accepted : fl_le S754_nan (S754_zero false) = false.
Proof. done. Qed.
End Escapes.

(** ** Witness *)

#[local] Instance plain_runtime : PyRuntime := decoding_runtime [].

(** Numbers written in the two forms the manifests of the witness use. *)
#[local] Instance two_numerals : Numerals := {
  parse_float s := if bool_decide (s = u "1.0") then Ok (fl_of_Z 1) else Err (value_error (u "could not convert string to float"));
  parse_int s := if bool_decide (s = u "128") then Ok 128%Z else Err (value_error (u "invalid literal for int()")) }.

(** One plugin directory; the file system is its text. *)
#[local] Instance one_plugin_files : SkillFiles pystr := {
  realpath p _ := p;
  is_file p _ := bool_decide (p = u "/p/greet/PLUGIN.md");
  is_dir p _ := elem_b p [u "/p"; u "/p/greet"];
  list_dir _ _ := Ok [u "greet"];
  read_text _ w := Ok w }.

Definition named_tool (name : pystr) : Tool := {| t_name := name; t_description := []; t_parameters := JObj [];
  risk_level := None; execution_policy := None; accepts_idempotency_key := false |}.

(** A plugin's factory returns one tool named after it; the plugin [broken] does not import. *)
#[local] Instance one_tool_loader : PluginLoader pystr := {
  load_plugin m w := (if bool_decide (pm_name m = u "broken") then Err (load_error (u "no module"))
                      else Ok [named_tool (pm_name m)], w) }.

Definition greet_text : pystr := unlines [u "---"; u "name: greet"; u "entry_point: greet.main:tools"; u "---"].

Definition greet_registry : PluginRegistry := {| pr_directory := Some (u "/p");
  pr_entry_points := [(u "broken", u "broken:make", None); (u "clock", u "clock.tools:make", Some (u "2.1"))];
  reserved_names := [u "todo"] |}.

Lemma loaded_tools_do_not_shadow_witness :
  load_all (W := pystr) (H0 := ascii_words) (u "skip") greet_registry greet_text = (Ok [named_tool (u "clock"); named_tool (u "greet")], greet_text) /\
  NoDup (map t_name [named_tool (u "clock"); named_tool (u "greet")]).
Proof.
  assert (load_all (W := pystr) (H0 := ascii_words) (u "skip") greet_registry greet_text =
    (Ok [named_tool (u "clock"); named_tool (u "greet")], greet_text)) as Hl by (vm_compute; reflexivity).
  split; [exact Hl|]. exact (proj1 (@loaded_tools_do_not_shadow _ ascii_words _ _ _ _ _ _ _ _ _ Hl)).
Defined.

(** Two sources claiming one name stop discovery, whatever the order. *)
Example claimed_twice : exists e, load_all (W := pystr) (H0 := ascii_words) (u "skip")
  {| pr_directory := Some (u "/p"); pr_entry_points := [(u "greet", u "other:make", None)]; reserved_names := [] |} greet_text =
  (Err e, greet_text) /\ exn_type e = u "PluginManifestError".
Proof. eexists. split; vm_compute; reflexivity. Qed.

(** One limit that is not a number, and no plugin of the directory is found. *)
Example bad_limit_hides_every_plugin : exists e, manifests_of (H0 := ascii_words) (u "/p") [u "greet"; u "other"]
  (unlines [u "---"; u "name: greet"; u "entry_point: greet.main:tools"; u "cpu_limit: half"; u "---"]) = Err e /\ exn_type e = u "ValueError".
Proof. eexists. split; vm_compute; reflexivity. Qed.
