(* ===== verification/Utf8.v ===== *)
(** * UTF-8 as Python's [str.encode] and the strict [bytes.decode] do it

    Bytes are numbers below 256. Unlike [utf8_decode] of the prelude, which reads
    literals, [decode_utf8] refuses what is not well formed: overlong forms,
    surrogates, and code points past U+10FFFF. *)

From stdpp Require Import base gmap strings list.
From Stdlib Require Import ZArith Lia ZifyN ZifyNat ZifyBool.
From S2P Require Import Prelude.

Abbreviation bytes := (list N).

#[local] Open Scope N_scope.

(** A code point that is not a surrogate. *)
Definition scalar (c : N) : bool := (c <? 55296) || (57344 <=? c) && (c <? 1114112).

Definition encode_char (c : N) : bytes :=
  if c <? 128 then [c]
  else if c <? 2048 then [192 + c / 64; 128 + c mod 64]
  else if c <? 65536 then [224 + c / 4096; 128 + c / 64 mod 64; 128 + c mod 64]
  else [240 + c / 262144; 128 + c / 4096 mod 64; 128 + c / 64 mod 64; 128 + c mod 64].

(** [text.encode("utf-8")]: a lone surrogate raises. *)
Definition encode_utf8 (s : pystr) : result bytes :=
  if forallb scalar s then Ok (concat (map encode_char s))
  else Err (PyExn (u "UnicodeEncodeError") (u "surrogates not allowed")).

Definition continuation (b : N) : bool := (128 <=? b) && (b <? 192).

(** [data.decode("utf-8")]; [None] is [UnicodeDecodeError]. *)
Fixpoint decode_utf8 (bs : bytes) : option pystr :=
  match bs with
  | [] => Some []
  | b0 :: r0 =>
    if b0 <? 128 then cons b0 <$> decode_utf8 r0
    else if b0 <? 194 then None
    else if b0 <? 224 then
      match r0 with
      | b1 :: r1 => if continuation b1 then cons ((b0 - 192) * 64 + (b1 - 128)) <$> decode_utf8 r1 else None
      | _ => None
      end
    else if b0 <? 240 then
      match r0 with
      | b1 :: b2 :: r2 =>
        let c := (b0 - 224) * 4096 + (b1 - 128) * 64 + (b2 - 128) in
        if continuation b1 && continuation b2 && (2048 <=? c) && scalar c then cons c <$> decode_utf8 r2 else None
      | _ => None
      end
    else if b0 <? 245 then
      match r0 with
      | b1 :: b2 :: b3 :: r3 =>
        let c := (b0 - 240) * 262144 + (b1 - 128) * 4096 + (b2 - 128) * 64 + (b3 - 128) in
        if continuation b1 && continuation b2 && continuation b3 && (65536 <=? c) && scalar c
        then cons c <$> decode_utf8 r3 else None
      | _ => None
      end
    else None
  end.

(** ** Round trip *)

Ltac Zify.zify_post_hook ::= Z.to_euclidean_division_equations.

Lemma decode_char c rest : scalar c = true -> decode_utf8 (encode_char c ++ rest) = cons c <$> decode_utf8 rest.
Proof.
  intros Hc. assert (c < 1114112 /\ (c < 55296 \/ 57344 <= c)) as Hr.
  { unfold scalar in Hc. apply orb_true_iff in Hc as [Hc|Hc]; bool_hyps; lia. }
  unfold encode_char. destruct (N.ltb_spec c 128); [simpl; by destruct (N.ltb_spec c 128); [|lia]|].
  destruct (N.ltb_spec c 2048); [|destruct (N.ltb_spec c 65536)]; cbn [app decode_utf8]; unfold continuation.
  - replace (192 + c / 64 <? 128) with false by lia. replace (192 + c / 64 <? 194) with false by lia.
    replace (192 + c / 64 <? 224) with true by lia.
    replace ((128 <=? 128 + c mod 64) && (128 + c mod 64 <? 192)) with true by lia.
    by replace ((192 + c / 64 - 192) * 64 + (128 + c mod 64 - 128)) with c by lia.
  - replace (224 + c / 4096 <? 128) with false by lia. replace (224 + c / 4096 <? 194) with false by lia.
    replace (224 + c / 4096 <? 224) with false by lia. replace (224 + c / 4096 <? 240) with true by lia.
    replace ((224 + c / 4096 - 224) * 4096 + (128 + c / 64 mod 64 - 128) * 64 + (128 + c mod 64 - 128)) with c by lia.
    rewrite Hc. replace ((128 <=? 128 + c / 64 mod 64) && (128 + c / 64 mod 64 <? 192)) with true by lia.
    replace ((128 <=? 128 + c mod 64) && (128 + c mod 64 <? 192)) with true by lia.
    by replace (2048 <=? c) with true by lia.
  - replace (240 + c / 262144 <? 128) with false by lia. replace (240 + c / 262144 <? 194) with false by lia.
    replace (240 + c / 262144 <? 224) with false by lia. replace (240 + c / 262144 <? 240) with false by lia.
    replace (240 + c / 262144 <? 245) with true by lia.
    replace ((240 + c / 262144 - 240) * 262144 + (128 + c / 4096 mod 64 - 128) * 4096 + (128 + c / 64 mod 64 - 128) * 64
      + (128 + c mod 64 - 128)) with c by lia.
    rewrite Hc. replace ((128 <=? 128 + c / 4096 mod 64) && (128 + c / 4096 mod 64 <? 192)) with true by lia.
    replace ((128 <=? 128 + c / 64 mod 64) && (128 + c / 64 mod 64 <? 192)) with true by lia.
    replace ((128 <=? 128 + c mod 64) && (128 + c mod 64 <? 192)) with true by lia.
    by replace (65536 <=? c) with true by lia.
Qed.

Lemma utf8_decode_encode s bs : encode_utf8 s = Ok bs -> decode_utf8 bs = Some s.
Proof.
  unfold encode_utf8. destruct (forallb scalar s) eqn:Hs; [|done]. intros [= <-].
  induction s as [|c s IH]; [done|]. cbn [forallb] in Hs. bool_hyps. cbn [map concat].
  by rewrite decode_char, IH.
Qed.

(** Every byte of an encoding is a byte. *)
Lemma encode_bytes s bs : encode_utf8 s = Ok bs -> Forall (fun b => b < 256) bs.
Proof.
  unfold encode_utf8. destruct (forallb scalar s) eqn:Hs; [|done]. intros [= <-].
  induction s as [|c s IH]; [constructor|]. cbn [forallb] in Hs. bool_hyps. cbn [map concat]. apply Forall_app. split; [|by apply IH].
  assert (c < 1114112) by (unfold scalar in *; apply orb_true_iff in H as [H|H]; bool_hyps; lia).
  unfold encode_char. repeat case_match; repeat constructor; bool_hyps; try lia.
Qed.

Example utf8_samples : encode_utf8 (u "aé") = Ok [97; 195; 169] /\ decode_utf8 [192; 128] = None /\
  decode_utf8 [237; 160; 128] = None /\ encode_utf8 [55296] = Err (PyExn (u "UnicodeEncodeError") (u "surrogates not allowed")).
Proof. vm_compute. done. Qed.
