(* ===== verification/Workspace.v ===== *)
(** * Workspaces: the interface and the local one (kinetic_sdk/workspace/base.py, manager.py)

    Every backend is a [WorkspaceBase]; [contract] is what the tools may rely on
    whichever backend they talk to. The local workspace over a file system
    ([Files]) implements it and never touches a file outside its root. *)

From stdpp Require Import base gmap strings list.
From Stdlib Require Import ZArith Lia SpecFloat.
From S2P Require Import Prelude Json Policy Utf8.

(** ** workspace/base.py *)

Record CommandResult := {
  cr_output : pystr;
  cr_exit_code : Z;
  cr_duration_seconds : pyfloat;
  cr_timed_out : bool;
  cr_truncated : bool;
  cr_error : option pystr;
  cr_metadata : jdict;
}.

Definition workspace_error (msg : pystr) : pyexn := PyExn (u "WorkspaceError") msg.

(** The abstract methods. A timeout is a number of seconds, as the caller has it. *)
Class WorkspaceBase (Ws W : Type) := {
  ws_root_path : Ws -> pystr;
  ws_resolve_path : Ws -> pystr -> W -> result pystr;
  ws_run_command : Ws -> pystr -> option json -> option pystr -> W -> result CommandResult * W;
  ws_read_text : Ws -> pystr -> W -> result pystr * W;
  ws_write_text : Ws -> pystr -> pystr -> W -> result unit * W;
  ws_delete_file : Ws -> pystr -> W -> result unit * W;
  ws_list_files : Ws -> option pystr -> W -> result (list pystr) * W;
  ws_list_directory : Ws -> pystr -> W -> result (list pystr) * W;
}.

(** [WorkspaceBase.resolve], which only the local workspace overrides. *)
Definition no_local_paths {W} (relative_path : pystr) (w : W) : result pystr :=
  Err (workspace_error (u "workspace does not support local path resolution required by this operation")).

(** ** [os.path] *)

Definition os_path_join (a b : pystr) : pystr :=
  if isabs b then b
  else if bool_decide (a = []) || ends_with [slash] a then a ++ b
  else a ++ [slash] ++ b.

Definition path_comps (path : pystr) : list pystr := filter (fun c => c <> [] /\ c <> dot) (split_on slash path).

(** The order of lists of strings. *)
Fixpoint comps_le (a b : list pystr) : bool :=
  match a, b with
  | [], _ => true
  | _ :: _, [] => false
  | x :: a', y :: b' => if bool_decide (x = y) then comps_le a' b' else str_le x y
  end.

(** The loop over [min(split_paths)]; the maximum is never the shorter prefix. *)
Fixpoint common_comps (s1 s2 : list pystr) : list pystr :=
  match s1, s2 with
  | c :: s1', d :: s2' => if bool_decide (c = d) then c :: common_comps s1' s2' else []
  | _, _ => []
  end.

(** [posixpath.commonpath([p, q])]. *)
Definition commonpath (p q : pystr) : result pystr :=
  if negb (Bool.eqb (isabs p) (isabs q)) then Err (value_error (u "Can't mix absolute and relative paths"))
  else
    let '(a, b) := (path_comps p, path_comps q) in
    let '(s1, s2) := if comps_le a b then (a, b) else (b, a) in
    Ok ((if isabs p then [slash] else []) ++ join [slash] (common_comps s1 s2)).

(** [posixpath.relpath(path, start)] of absolute paths. *)
Definition relpath (path start : pystr) : pystr :=
  let '(start_list, path_list) := (norm_comps start, norm_comps path) in
  let i := length (common_comps start_list path_list) in
  match replicate (length start_list - i) dotdot ++ drop i path_list with
  | [] => dot
  | rel_list => join [slash] rel_list
  end.

(** [Path(path).as_posix()] of a relative path. *)
Definition as_posix (path : pystr) : pystr :=
  match path_comps path with [] => dot | cs => join [slash] cs end.

(** [Path(path).parent] of an absolute path. *)
Definition parent_path (path : pystr) : pystr := slash :: join [slash] (removelast (path_comps path)).

(** ** The file system *)

(** What the local workspace uses of it. [f_create] opens for writing, which
    creates or empties the file; [f_put] writes to it and closes it. *)
Class Files (W : Type) := {
  f_realpath : pystr -> W -> result pystr;
  f_is_dir : pystr -> W -> bool;
  f_read : pystr -> W -> result bytes;
  f_create : pystr -> W -> result unit * W;
  f_put : pystr -> bytes -> W -> result unit * W;
  f_makedirs : pystr -> W -> result unit * W;
  f_unlink : pystr -> W -> result unit * W;
  (** the names in a directory, and which of them are directories *)
  f_entries : pystr -> W -> result (list (pystr * bool));
  (** [os.walk]: the directories, each with the names of its files *)
  f_walk : pystr -> W -> list (pystr * list pystr);
}.

(** [fnmatch.fnmatch(name, pattern)]. *)
Class Globs := { fnmatch : pystr -> pystr -> bool }.

Definition path_traversal_error (msg : pystr) : pyexn := PyExn (u "PathTraversalError") msg.
Definition unicode_error : pyexn := PyExn (u "UnicodeDecodeError") (u "invalid utf-8").

(** [f"path {relative_path!r} resolves outside the workspace root {root!r}"]. *)
Definition outside_root `{PyRuntime} (relative_path root : pystr) : pyexn :=
  path_traversal_error (u "path " ++ py_repr (JStr relative_path) ++ u " resolves outside the workspace root " ++ py_repr (JStr root)).

(** Whether [commonpath([root, candidate]) == root]; incomparable paths are outside. *)
Definition is_inside (root candidate : pystr) : bool :=
  match commonpath root candidate with Ok common => bool_decide (common = root) | Err _ => false end.

(** ** workspace/manager.py *)

Section Local.
Context `{PyRuntime} `{Globs} {W : Type} `{Files W}.

(** [LocalWorkspace(root_path)]; the value is [_root]. *)
Definition LocalWorkspace (root_path : pystr) (w : W) : result pystr :=
  root <-! f_realpath root_path w ;;
  if f_is_dir root w then Ok root
  else Err (value_error (u "workspace root is not an existing directory: " ++ py_repr (JStr root_path))).

Definition local_resolve (root relative_path : pystr) (w : W) : result pystr :=
  candidate <-! f_realpath (os_path_join root relative_path) w ;;
  if is_inside root candidate then Ok candidate else Err (outside_root relative_path root).

Definition walked_files (root : pystr) (pattern : option pystr) (entry : pystr * list pystr) : list pystr :=
  let names := map (fun filename => as_posix (relpath (os_path_join entry.1 filename) root)) entry.2 in
  match pattern with None => names | Some p => filter (fun posix => fnmatch posix p = true) names end.

Definition local_list_files (root : pystr) (pattern : option pystr) (w : W) : result (list pystr) :=
  Ok (sorted_strs (concat (map (walked_files root pattern) (f_walk root w)))).

Definition local_list_directory (root relative_path : pystr) (w : W) : result (list pystr) :=
  directory <-! local_resolve root relative_path w ;;
  if f_is_dir directory w then
    entries <-! f_entries directory w ;;
    Ok (sorted_strs (map (fun e : pystr * bool => if e.2 then e.1 ++ [slash] else e.1) entries))
  else Err (PyExn (u "NotADirectoryError") relative_path).

Definition local_run_command (command : pystr) (w : W) : result CommandResult :=
  Err (workspace_error (u "LocalWorkspace does not execute shell commands because it is not a sandbox; " ++
    u "use DockerWorkspace, KubernetesWorkspace, or RemoteAPIWorkspace")).

Definition local_read_text (root relative_path : pystr) (w : W) : result pystr :=
  path <-! local_resolve root relative_path w ;;
  data <-! f_read path w ;;
  match decode_utf8 data with Some text => Ok text | None => Err unicode_error end.

(** The file is open, and so empty, when the text is encoded. *)
Definition local_write_text (root relative_path content : pystr) (w : W) : result unit * W :=
  match local_resolve root relative_path w with
  | Err e => (Err e, w)
  | Ok target =>
    match f_makedirs (parent_path target) w with
    | (Err e, w1) => (Err e, w1)
    | (Ok _, w1) =>
      match f_create target w1 with
      | (Err e, w2) => (Err e, w2)
      | (Ok _, w2) =>
        match encode_utf8 content with
        | Err e => (Err e, w2)
        | Ok data => f_put target data w2
        end
      end
    end
  end.

Definition local_delete_file (root relative_path : pystr) (w : W) : result unit * W :=
  match local_resolve root relative_path w with
  | Err e => (Err e, w)
  | Ok target =>
    if f_is_dir target w then (Err (PyExn (u "IsADirectoryError") relative_path), w) else f_unlink target w
  end.

#[export] Instance local_workspace : WorkspaceBase pystr W := {|
  ws_root_path := fun root => root;
  ws_resolve_path := local_resolve;
  ws_run_command := fun _ command _ _ w => (local_run_command command w, w);
  ws_read_text := fun root p w => (local_read_text root p w, w);
  ws_write_text := local_write_text;
  ws_delete_file := local_delete_file;
  ws_list_files := fun root pattern w => (local_list_files root pattern w, w);
  ws_list_directory := fun root p w => (local_list_directory root p w, w);
|}.
End Local.

(** ** What a workspace promises

    The files of a workspace are a map from locations to texts. [location] says
    which one a path names, [None] when the backend refuses it; [as_read c] is what
    a file written with a [carried] text [c] holds. An operation that raises may have changed the
    location its path names, and no other. When the backend is [available] a file
    that is there can be read. *)

Record contract {Ws W} `{WorkspaceBase Ws W} (ws : Ws) (named : pystr -> Prop) (location : pystr -> W -> option pystr)
    (text_at : pystr -> W -> option pystr) (carried : pystr -> Prop) (as_read : pystr -> pystr) (available : W -> Prop) : Prop := {
  c_read p w r w' : named p -> ws_read_text ws p w = (r, w') ->
    (forall l, text_at l w' = text_at l w) /\
    (forall text, r = Ok text -> exists l, location p w = Some l /\ text_at l w = Some text);
  c_read_available p w l text : named p -> available w -> location p w = Some l -> text_at l w = Some text ->
    (ws_read_text ws p w).1 = Ok text;
  c_write p c w r w' : named p -> ws_write_text ws p c w = (r, w') ->
    (forall l, location p w <> Some l -> text_at l w' = text_at l w) /\
    (r = Ok tt -> carried c -> exists l, location p w = Some l /\ text_at l w' = Some (as_read c));
  c_delete p w r w' : named p -> ws_delete_file ws p w = (r, w') ->
    (forall l, location p w <> Some l -> text_at l w' = text_at l w) /\
    (r = Ok tt -> exists l, location p w = Some l /\ text_at l w' = None);
  c_location p q c w : named p -> named q ->
    location q (ws_read_text ws p w).2 = location q w /\ location q (ws_write_text ws p c w).2 = location q w /\
    location q (ws_delete_file ws p w).2 = location q w;
}.

(** ** Paths *)

Definition rooted (cs : list pystr) : pystr := slash :: join [slash] cs.

(** What [realpath] gives: the names from the root, without dots. *)
Definition plain_name (c : pystr) : Prop := segment c /\ c <> dotdot.
Definition real_path (p : pystr) : Prop := exists cs, Forall plain_name cs /\ p = rooted cs.

Lemma plain_segments cs : Forall plain_name cs -> Forall segment cs.
Proof. intros HF. eapply Forall_impl; [exact HF|]. by intros c []. Qed.

Lemma filter_segments cs : Forall segment cs -> filter (fun c => c <> [] /\ c <> dot) cs = cs.
Proof. induction 1 as [|c cs (_ & H1 & H2) _ IH]; [done|]. by rewrite filter_cons_True, IH by done. Qed.

Lemma path_comps_rooted cs : Forall segment cs -> path_comps (rooted cs) = cs.
Proof.
  intros HF. unfold path_comps, rooted. change (slash :: join [slash] cs) with ([] ++ slash :: join [slash] cs).
  rewrite split_on_app. simpl. rewrite filter_cons_False by tauto. destruct cs as [|c cs]; [done|].
  rewrite split_join; [by apply filter_segments| |done]. eapply Forall_impl; [exact HF|]. by intros x [].
Qed.

Lemma rooted_inj a b : Forall segment a -> Forall segment b -> rooted a = rooted b -> a = b.
Proof. intros Ha Hb E. apply (f_equal path_comps) in E. by rewrite !path_comps_rooted in E. Qed.

Lemma common_comm a b : common_comps a b = common_comps b a.
Proof.
  revert b; induction a as [|x a IH]; intros [|y b]; simpl; try done.
  destruct (decide (x = y)) as [->|Hne]; [by rewrite !bool_decide_eq_true_2, IH|].
  rewrite !bool_decide_eq_false_2; congruence.
Qed.

Lemma common_left a b : common_comps a b `prefix_of` a.
Proof.
  revert b; induction a as [|x a IH]; intros [|y b]; simpl; try apply prefix_nil.
  destruct (bool_decide (x = y)); [apply prefix_cons, IH|apply prefix_nil].
Qed.

Lemma common_is_prefix a b : common_comps a b = a <-> a `prefix_of` b.
Proof.
  split.
  - intros <-. rewrite common_comm. apply common_left.
  - intros [k ->]. induction a as [|x a IH]; simpl; [by destruct k|]. by rewrite bool_decide_eq_true_2, IH.
Qed.

(** [commonpath] of absolute paths is their longest common prefix, in either order. *)
Lemma commonpath_absolute p q : isabs p = true -> isabs q = true ->
  commonpath p q = Ok (rooted (common_comps (path_comps p) (path_comps q))).
Proof.
  intros Hp Hq. unfold commonpath. rewrite Hp, Hq. simpl. destruct (comps_le _ _); [done|]. by rewrite common_comm.
Qed.

Lemma path_comps_segments p : Forall segment (path_comps p).
Proof.
  apply Forall_forall. intros c ([H1 H2] & Hc)%list_elem_of_filter. split; [|done]. by apply split_on_elem in Hc.
Qed.

Lemma isabs_rooted cs : isabs (rooted cs) = true.
Proof. unfold isabs, rooted. cbn [starts_with]. by rewrite bool_decide_eq_true_2. Qed.

(** The containment test, for a root in normal form. *)
Lemma is_inside_spec cs candidate : Forall segment cs ->
  is_inside (rooted cs) candidate = true <-> isabs candidate = true /\ cs `prefix_of` path_comps candidate.
Proof.
  intros Hs. unfold is_inside. destruct (isabs candidate) eqn:Ec.
  - rewrite commonpath_absolute, bool_decide_eq_true by (done || apply isabs_rooted).
    rewrite path_comps_rooted by done. rewrite <- common_is_prefix. split.
    + intros E%rooted_inj; [done| |done]. destruct (common_left cs (path_comps candidate)) as [k Hk].
      rewrite Hk in Hs. by apply Forall_app in Hs as [? _].
    + by intros [_ ->].
  - unfold commonpath. rewrite isabs_rooted, Ec. simpl. split; [done|]. by intros [].
Qed.

(** ** The local workspace implements the contract *)

Definition contents {W} `{Files W} (p : pystr) (w : W) : option bytes :=
  match f_read p w with Ok data => Some data | Err _ => None end.

(** A file system in which the operations on a real path create and remove files
    and directories, never links, and two real paths are two files (no hard links). *)
Class LawfulFiles (W : Type) `{Files W} := {
  realpath_real p w r : f_realpath p w = Ok r -> real_path r;
  realpath_created p q w : real_path p -> f_realpath q (f_create p w).2 = f_realpath q w;
  realpath_put p data q w : real_path p -> f_realpath q (f_put p data w).2 = f_realpath q w;
  realpath_made p q w : f_realpath q (f_makedirs p w).2 = f_realpath q w;
  realpath_unlinked p q w : real_path p -> f_realpath q (f_unlink p w).2 = f_realpath q w;
  contents_created p q w : real_path p -> p <> q -> contents q (f_create p w).2 = contents q w;
  contents_put p data q w : real_path p -> p <> q -> contents q (f_put p data w).2 = contents q w;
  contents_made p q w : contents q (f_makedirs p w).2 = contents q w;
  contents_unlinked p q w : real_path p -> p <> q -> contents q (f_unlink p w).2 = contents q w;
  written p data w w1 w2 : f_create p w = (Ok tt, w1) -> f_put p data w1 = (Ok tt, w2) -> contents p w2 = Some data;
  unlinked p w w' : f_unlink p w = (Ok tt, w') -> contents p w' = None;
}.

Definition local_location `{PyRuntime} {W} `{Files W} (root p : pystr) (w : W) : option pystr :=
  match local_resolve root p w with Ok r => Some r | Err _ => None end.

Definition file_text {W} `{Files W} (l : pystr) (w : W) : option pystr := contents l w ≫= decode_utf8.

Section LocalFacts.
Context `{PyRuntime} `{Globs} {W : Type} `{Files W} `{!LawfulFiles W}.
Implicit Types w : W.

Lemma resolved_real root p w r : local_resolve root p w = Ok r -> real_path r /\ is_inside root r = true.
Proof using LawfulFiles0.
  unfold local_resolve. destruct (f_realpath _ w) as [c|] eqn:E; [|done]. cbn [rbind].
  destruct (is_inside root c) eqn:Ei; [|done]. intros [= <-]. split; [by eapply realpath_real|done].
Qed.

Lemma write_effects root p content w r w' : local_write_text root p content w = (r, w') ->
  (forall q, f_realpath q w' = f_realpath q w) /\
  (forall q, local_location root p w <> Some q -> contents q w' = contents q w) /\
  (r = Ok tt -> exists l data, local_location root p w = Some l /\ encode_utf8 content = Ok data /\ contents l w' = Some data).
Proof using LawfulFiles0.
  unfold local_write_text, local_location. destruct (local_resolve root p w) as [t|] eqn:Er; [|by intros [= <- <-]].
  pose proof (resolved_real _ _ _ _ Er) as [Ht _].
  pose proof (fun q => realpath_made (parent_path t) q w) as R1. pose proof (fun q => contents_made (parent_path t) q w) as C1.
  destruct (f_makedirs _ w) as [[[]|e1] w1]; simpl in *; [|intros [= <- <-]; split_and!; [done|intros q _; apply C1|done]].
  pose proof (fun q => realpath_created t q w1 Ht) as R2. pose proof (fun q => contents_created t q w1 Ht) as C2.
  destruct (f_create t w1) as [[[]|e2] w2] eqn:E2; simpl in *.
  2: { intros [= <- <-]. split_and!; [intros q; by rewrite R2|intros q Hq; rewrite C2; [apply C1|congruence]|done]. }
  destruct (encode_utf8 content) as [data|e3].
  2: { intros [= <- <-]. split_and!; [intros q; by rewrite R2|intros q Hq; rewrite C2; [apply C1|congruence]|done]. }
  intros E. pose proof (fun q => realpath_put t data q w2 Ht) as R3. pose proof (fun q => contents_put t data q w2 Ht) as C3.
  rewrite E in R3, C3. simpl in *. split_and!.
  - intros q. by rewrite R3, R2.
  - intros q Hq. rewrite C3, C2; [apply C1|congruence..].
  - intros ->. exists t, data. split_and!; [done..|]. by eapply written.
Qed.

Lemma delete_effects root p w r w' : local_delete_file root p w = (r, w') ->
  (forall q, f_realpath q w' = f_realpath q w) /\
  (forall q, local_location root p w <> Some q -> contents q w' = contents q w) /\
  (r = Ok tt -> exists l, local_location root p w = Some l /\ contents l w' = None).
Proof using LawfulFiles0.
  unfold local_delete_file, local_location. destruct (local_resolve root p w) as [t|] eqn:Er; [|by intros [= <- <-]].
  pose proof (resolved_real _ _ _ _ Er) as [Ht _]. destruct (f_is_dir t w); [by intros [= <- <-]|]. intros E.
  pose proof (fun q => realpath_unlinked t q w Ht) as R. pose proof (fun q => contents_unlinked t q w Ht) as C.
  rewrite E in R, C. simpl in *. split_and!; [done|intros q Hq; apply C; congruence|]. intros ->. exists t. split; [done|].
  by eapply unlinked.
Qed.

Lemma location_stable root q w w' : (forall p, f_realpath p w' = f_realpath p w) -> local_location root q w' = local_location root q w.
Proof using Type. intros Hr. unfold local_location, local_resolve. by rewrite Hr. Qed.
Lemma local_implements root : contract (W := W) root (fun _ => True) (local_location root) file_text (fun _ => True) id (fun _ => True).
Proof using LawfulFiles0.
  constructor; cbn [ws_read_text ws_write_text ws_delete_file local_workspace fst snd].
  - intros p w r w' _ [= <- <-]. split; [done|]. intros text. unfold local_read_text, local_location, file_text, contents.
    destruct (local_resolve root p w) as [l|]; [|done]. cbn [rbind]. destruct (f_read l w) as [data|] eqn:Ed; [|done]. cbn [rbind].
    destruct (decode_utf8 data) as [t|] eqn:Et; [|done]. intros [= <-]. exists l. by rewrite Ed.
  - intros p w l text _ _. unfold local_read_text, local_location, file_text, contents.
    destruct (local_resolve root p w) as [l'|]; [|done]. intros [= ->]. cbn [rbind].
    destruct (f_read l w) as [data|]; [|done]. cbn. by intros ->.
  - intros p c w r w' _ (_ & Ho & Hw)%write_effects. split; [intros l Hl; unfold file_text; by rewrite Ho|].
    intros Hr _. destruct (Hw Hr) as (l & data & Hl & Hd & Hc). exists l. split; [done|]. unfold file_text. rewrite Hc. simpl.
    by apply utf8_decode_encode.
  - intros p w r w' _ (_ & Ho & Hd)%delete_effects. split; [intros l Hl; unfold file_text; by rewrite Ho|].
    intros Hr. destruct (Hd Hr) as (l & Hl & Hc). exists l. split; [done|]. unfold file_text. by rewrite Hc.
  - intros p q c w _ _. split; [done|]. split; apply location_stable.
    + destruct (local_write_text root p c w) as [r w'] eqn:E. by apply write_effects in E as [? _].
    + destruct (local_delete_file root p w) as [r w'] eqn:E. by apply delete_effects in E as [? _].
Qed.
End LocalFacts.


Inductive file_op := WriteOp (path content : pystr) | DeleteOp (path : pystr).

Definition run_file_op `{WorkspaceBase Ws W} (ws : Ws) (w : W) (op : file_op) : W :=
  match op with WriteOp p c => (ws_write_text ws p c w).2 | DeleteOp p => (ws_delete_file ws p w).2 end.


(** ** Listing *)

Lemma norm_step_name rooted_path rc c : plain_name c -> norm_step rooted_path rc c = c :: rc.
Proof.
  intros [(_ & Hn & Hd) Hdd]. unfold norm_step. rewrite !bool_decide_eq_false_2 by done.
  by rewrite bool_decide_eq_true_2.
Qed.

Lemma norm_fold_names r rc cs : Forall plain_name cs -> foldl (norm_step r) rc cs = rev cs ++ rc.
Proof.
  intros HF. revert rc; induction HF as [|c cs Hc _ IH]; intros rc; [done|]. cbn [foldl]. rewrite norm_step_name by done.
  rewrite IH. simpl. by rewrite <- app_assoc.
Qed.

Lemma split_rooted cs : Forall plain_name cs -> cs <> [] -> split_on slash (rooted cs) = [] :: cs.
Proof.
  intros HF Hne. unfold rooted. change (slash :: join [slash] cs) with ([] ++ slash :: join [slash] cs).
  rewrite split_on_app. simpl. rewrite split_join; [done| |done].
  eapply Forall_impl; [exact HF|]. by intros c [[]].
Qed.

Lemma norm_comps_rooted cs : Forall plain_name cs -> norm_comps (rooted cs) = cs.
Proof.
  intros HF. unfold norm_comps. rewrite isabs_rooted. destruct (decide (cs = [])) as [->|Hne]; [by vm_compute|].
  rewrite split_rooted by done. cbn [foldl]. unfold norm_step at 2. rewrite bool_decide_eq_true_2 by done. simpl.
  rewrite norm_fold_names by done. by rewrite app_nil_r, rev_involutive.
Qed.

Lemma rooted_no_end cs : Forall segment cs -> cs <> [] -> ends_with [slash] (rooted cs) = false.
Proof.
  intros Hcs Hne. apply not_true_iff_false. unfold ends_with, rooted. rewrite starts_with_prefix. intros [k Hk].
  simpl rev in Hk. apply (f_equal (@rev _)) in Hk. rewrite rev_app_distr, rev_involutive in Hk. simpl in Hk.
  assert (Forall slash_free cs) as Hf by by (eapply Forall_impl; [exact Hcs|]; intros ? []).
  destruct (rev k) as [|x k'] eqn:Ek; simpl in Hk.
  - injection Hk as Hk. assert (split_on slash (join [slash] cs) = [[]]) as Hs by by rewrite Hk.
    rewrite split_join in Hs by done. subst cs. by inversion Hcs as [|? ? (_ & ? & _)].
  - injection Hk as _ Hk. assert (split_on slash (join [slash] cs) = split_on slash k' ++ [[]]) as Hs by by rewrite Hk, split_on_app.
    rewrite split_join in Hs by done. rewrite Hs in Hcs. apply Forall_app in Hcs as [_ Hcs]. by inversion Hcs as [|? ? (_ & ? & _)].
Qed.

Lemma rooted_app cs ks : Forall segment cs -> Forall segment ks -> ks <> [] -> os_path_join (rooted cs) (join [slash] ks) = rooted (cs ++ ks).
Proof.
  intros Hcs Hks Hk. unfold os_path_join. rewrite join_first by done. rewrite bool_decide_eq_false_2 by done. simpl.
  destruct (decide (cs = [])) as [->|Hne]; [done|]. rewrite rooted_no_end by done. unfold rooted. by rewrite join_app.
Qed.

(** The name under which a walked file is listed leads from the root to that file. *)
Theorem listed_name_leads_back root k name : Forall plain_name (root ++ k) -> plain_name name ->
  let listed := as_posix (relpath (os_path_join (rooted (root ++ k)) name) (rooted root)) in
  listed = join [slash] (k ++ [name]) /\ os_path_join (rooted root) listed = rooted (root ++ k ++ [name]).
Proof.
  intros HF Hn. pose proof HF as [Hr Hk]%Forall_app.
  assert (Forall plain_name (k ++ [name])) as Hkn by (apply Forall_app; split; [done|by constructor]).
  pose proof (plain_segments _ Hkn) as Hs. assert (k ++ [name] <> []) as Hne by by destruct k.
  assert (as_posix (join [slash] (k ++ [name])) = join [slash] (k ++ [name])) as Ha.
  { unfold as_posix, path_comps. rewrite split_join; [|by eapply Forall_impl; [exact Hs|]; intros ? []|done].
    rewrite filter_segments by done. by destruct k. }
  assert (os_path_join (rooted (root ++ k)) name = rooted (root ++ k ++ [name])) as E.
  { rewrite app_assoc. apply (rooted_app _ [name]); [by apply plain_segments| |done]. constructor; [by destruct Hn|done]. }
  cbv zeta. rewrite E. unfold relpath. rewrite !norm_comps_rooted by (try done; by apply Forall_app).
  rewrite (proj2 (common_is_prefix root (root ++ _))) by by apply prefix_app_r.
  rewrite Nat.sub_diag, drop_app_length. simpl replicate. cbn [app]. clear E.
  destruct (k ++ [name]) as [|c cs] eqn:Ec; [done|]. rewrite Ha. split; [done|]. by rewrite rooted_app by (try done; by apply plain_segments).
Qed.

(** ** A small disk

    Files by their real path, and one link inside the workspace to a directory
    outside it. *)

Module Disk.
Definition Disk := list (pystr * bytes).
Definition link_from : list pystr := [u "ws"; u "out"].
Definition link_to : list pystr := [u "etc"].

(** Following a path; the list is held in reverse. *)
Definition follow (dir : list pystr) (comp : pystr) : list pystr :=
  let d := walk_step dir comp in if bool_decide (rev d = link_from) then rev link_to else d.
Definition realpath (p : pystr) : pystr := rooted (rev (foldl follow [] (split_on slash p))).

Definition below (p : pystr) (d : Disk) : list pystr :=
  map (drop (length p + 1)) (filter (fun f => starts_with (p ++ [slash]) f = true) (map fst d)).

#[export] Instance files : Files Disk := {|
  f_realpath p _ := Ok (realpath p);
  f_is_dir p d := negb (bool_decide (below p d = []));
  f_read p d := match dict_get p d with Some data => Ok data | None => Err (PyExn (u "FileNotFoundError") p) end;
  f_create p d := (Ok tt, dict_set p [] d);
  f_put p data d := (Ok tt, dict_set p data d);
  f_makedirs _ d := (Ok tt, d);
  f_unlink p d := if dict_has p d then (Ok tt, dict_pop p d) else (Err (PyExn (u "FileNotFoundError") p), d);
  f_entries p d := Ok (from_keys (map (fun f => match split_on slash f with [n] => (n, false) | n :: _ => (n, true) | [] => (f, false) end)
    (below p d)));
  f_walk p d := map (fun f => (parent_path f, [default [] (last (path_comps f))]))
    (filter (fun f => starts_with (p ++ [slash]) f = true) (map fst d));
|}.

Lemma follow_plain dir c : slash_free c -> Forall plain_name dir -> Forall plain_name (follow dir c).
Proof.
  intros Hc HF. unfold follow. destruct (bool_decide _); [apply (bool_decide_unpack _); vm_compute; exact I|].
  unfold walk_step. destruct (decide (c = [])) as [->|H1]; [done|]. destruct (decide (c = dot)) as [->|H2]; [done|].
  rewrite (bool_decide_eq_false_2 (c = [])), (bool_decide_eq_false_2 (c = dot)) by done. simpl.
  destruct (decide (c = dotdot)) as [->|H3]; [by destruct HF|]. rewrite bool_decide_eq_false_2 by done. by constructor.
Qed.

Lemma realpath_is_real p : real_path (realpath p).
Proof.
  eexists. split; [|done]. apply Forall_rev. assert (Forall slash_free (split_on slash p)) as HF.
  { apply Forall_forall. intros c Hc. by apply split_on_elem in Hc. }
  generalize (@Forall_nil_2 _ plain_name). generalize (@nil pystr). induction HF as [|c cs Hc _ IH]; intros dir Hd; [done|].
  cbn [foldl]. by apply IH, follow_plain.
Qed.

Lemma contents_get p (d : Disk) : contents p d = dict_get p d.
Proof. unfold contents. simpl. by destruct (dict_get p d). Qed.

#[export] Instance lawful : LawfulFiles Disk.
Proof.
  constructor; try done.
  - intros p w r [= <-]. apply realpath_is_real.
  - intros p q w _ Hne. rewrite !contents_get. simpl. by rewrite dict_get_set_ne.
  - intros p data q w _ Hne. rewrite !contents_get. simpl. by rewrite dict_get_set_ne.
  - intros p q w _ Hne. rewrite !contents_get. simpl. case_match; [|done]. simpl. rewrite dict_get_pop, decide_False by done. done.
  - intros p data w w1 w2 _ [= <-]. by rewrite contents_get, dict_get_set_eq.
  - intros p w w'. rewrite contents_get. simpl. case_match; [|done]. intros [= <-]. rewrite dict_get_pop. by rewrite decide_True.
Defined.

#[export] Instance no_globs : Globs := {| fnmatch name pattern := bool_decide (name = pattern) |}.
#[export] Instance runtime : PyRuntime := decoding_runtime [].

Definition root : pystr := rooted [u "ws"].
Definition some_files : Disk := [(u "/ws/a.txt", [104; 105]%N); (u "/ws/sub/b.txt", [13; 10]%N); (u "/etc/passwd", [120]%N)].

(** Through dots, an absolute path and a link. *)
Example escapes_refused :
  let refused p := match local_resolve root p some_files with Ok _ => false | Err e => bool_decide (exn_type e = u "PathTraversalError") end in
  map refused (map u ["../etc/passwd"; "sub/../../etc"; "/etc/passwd"; "out/passwd"; "/ws/a.txt"; "sub/../a.txt"; ""; "..ws"; "../wsx"])
  = [true; true; true; true; false; false; false; false; true].
Proof. vm_compute. reflexivity. Qed.

(** a text that cannot be encoded is refused after the file was emptied. *)
Example failed_write_empties_file :
  let '(r, d) := local_write_text root (u "a.txt") [55296]%N some_files in
  is_ok r = false /\ local_read_text root (u "a.txt") d = Ok [].
Proof. vm_compute. done. Qed.

Example listing :
  local_list_files root None some_files = Ok [u "a.txt"; u "sub/b.txt"] /\
  local_list_directory root (u ".") some_files = Ok [u "a.txt"; u "sub/"].
Proof. vm_compute. done. Qed.


End Disk.
