(* ===== verification/Shell.v ===== *)
(** * Quoting for the shell

    [shlex.quote], with which the container workspaces build their commands, and
    the reading of a command line by the shell, as far as POSIX (2.2, 2.3) defines
    it for words, quotes and operators; what needs expansion is outside it. *)

From stdpp Require Import base gmap strings list.
From Stdlib Require Import ZArith Lia.
From S2P Require Import Prelude PyText.

#[local] Open Scope N_scope.

(** Not matched by [[^\w@%+=:,./-]], with [re.ASCII]. *)
Definition safe_char (c : N) : bool :=
  (48 <=? c) && (c <=? 57) || (65 <=? c) && (c <=? 90) || (97 <=? c) && (c <=? 122) || (c =? 95)
  || elem_b c (u "@%+=:,./-").

Definition squote : N := 39.
Definition dquote : N := 34.

Definition quote (s : pystr) : pystr :=
  match s with
  | [] => [squote; squote]
  | _ => if forallb safe_char s then s
         else [squote] ++ py_replace_all [squote] [squote; dquote; squote; dquote; squote] s ++ [squote]
  end.

(** ** Reading a command line *)

Inductive token := Word (s : pystr) | Operator (s : pystr).

#[export] Instance token_eq_dec : EqDecision token.
Proof. solve_decision. Defined.

Inductive quoting := Unquoted | Single | Double.

(** Characters that start an expansion, a comment or an escape where they stand. *)
Definition expands (c : N) : bool := elem_b c (u "$`\*?[#~{}!").
Definition operator (c : N) : bool := elem_b c (u "&|;<>()").
Definition blank (c : N) : bool := (c =? 32) || (c =? 9).

Definition end_word (cur : option pystr) (rest : list token) : list token :=
  match cur with Some w => Word w :: rest | None => rest end.

Definition add_char (cur : option pystr) (c : N) : option pystr := Some (default [] cur ++ [c]).

(** [cur] is the word being read, if one has begun; [None] is a line that is
    outside the subset or ends inside quotes. *)
Fixpoint read_line (q : quoting) (cur : option pystr) (s : pystr) : option (list token) :=
  match s with
  | [] => match q with Unquoted => Some (end_word cur []) | _ => None end
  | c :: s' =>
    match q with
    | Single => if c =? squote then read_line Unquoted cur s' else read_line Single (add_char cur c) s'
    | Double =>
      if c =? dquote then read_line Unquoted cur s'
      else if elem_b c (u "$`\") then None
      else read_line Double (add_char cur c) s'
    | Unquoted =>
      if c =? squote then read_line Single (Some (default [] cur)) s'
      else if c =? dquote then read_line Double (Some (default [] cur)) s'
      else if blank c then end_word cur <$> read_line Unquoted None s'
      else if (c =? 10) || operator c then
        match s' with
        | d :: s'' =>
          if (c =? 38) && (d =? 38) then (fun l => end_word cur (Operator [c; d] :: l)) <$> read_line Unquoted None s''
          else (fun l => end_word cur (Operator [c] :: l)) <$> read_line Unquoted None s'
        | [] => Some (end_word cur [Operator [c]])
        end
      else if expands c then None
      else read_line Unquoted (add_char cur c) s'
    end
  end.

Definition shell_read (line : pystr) : option (list token) := read_line Unquoted None line.

(** ** Quoted text is read as one word *)

Lemma safe_plain c : safe_char c = true ->
  (c =? squote) = false /\ (c =? dquote) = false /\ blank c = false /\ (c =? 10) || operator c = false /\ expands c = false.
Proof.
  intros Hs. assert (c < 128) as Hlt.
  { unfold safe_char in Hs. rewrite !orb_true_iff in Hs. destruct Hs as [[[[Hs|Hs]|Hs]|Hs]|Hs];
      [apply andb_true_iff in Hs as [_ Hs%N.leb_le]; lia..|apply N.eqb_eq in Hs; lia|].
    unfold elem_b in Hs. apply bool_decide_eq_true_1 in Hs. vm_compute in Hs.
    repeat (apply elem_of_cons in Hs as [->|Hs]; [done|]). by apply not_elem_of_nil in Hs. }
  assert (forallb (fun n => let c := N.of_nat n in negb (safe_char c) || (negb (c =? squote) && negb (c =? dquote) && negb (blank c)
    && negb ((c =? 10) || operator c) && negb (expands c))) (seq 0 128) = true) as Hall by (vm_compute; reflexivity).
  rewrite forallb_forall in Hall. specialize (Hall (N.to_nat c)). cbv zeta in Hall. rewrite N2Nat.id, Hs in Hall.
  assert (In (N.to_nat c) (seq 0 128)) as Hin by (apply in_seq; lia). specialize (Hall Hin).
  simpl negb in Hall. cbn [orb] in Hall. rewrite !andb_true_iff, !negb_true_iff in Hall. tauto.
Qed.

Lemma read_safe s cur rest : forallb safe_char s = true -> s <> [] ->
  read_line Unquoted cur (s ++ rest) = read_line Unquoted (Some (default [] cur ++ s)) rest.
Proof.
  revert cur; induction s as [|c s IH]; intros cur Hs Hne; [done|]. cbn [forallb] in Hs. apply andb_true_iff in Hs as [Hc Hs].
  destruct (safe_plain c Hc) as (H1 & H2 & H3 & H4 & H5). cbn [app read_line]. rewrite H1, H2, H3, H4, H5.
  destruct s as [|d s]; [done|]. rewrite IH by done. unfold add_char. simpl. by rewrite <- app_assoc.
Qed.

Definition requoted (s : pystr) : pystr :=
  concat (map (fun c => if c =? squote then [squote; dquote; squote; dquote; squote] else [c]) s).

Lemma replace_quotes s : py_replace_all [squote] [squote; dquote; squote; dquote; squote] s = requoted s.
Proof.
  unfold py_replace_all, py_replace, py_count, requoted. induction s as [|c s IH]; [done|].
  cbn [count_from replace_from starts_with map concat length Nat.sub]. rewrite andb_true_r.
  destruct (N.eqb_spec c squote) as [->|Hc].
  - rewrite bool_decide_eq_true_2 by done. by rewrite IH.
  - rewrite bool_decide_eq_false_2 by congruence. rewrite <- IH.
    destruct (count_from 0 [squote] s); [by rewrite replace_none|done].
Qed.

Lemma read_requoted s w rest :
  read_line Single (Some w) (requoted s ++ [squote] ++ rest) = read_line Unquoted (Some (w ++ s)) rest.
Proof.
  revert w; induction s as [|c s IH]; intros w; [simpl; by rewrite app_nil_r|]. unfold requoted. cbn [map concat].
  destruct (N.eqb_spec c squote) as [->|Hc].
  - rewrite <- app_assoc. cbn. fold (requoted s). unfold add_char. cbn. rewrite IH. by rewrite <- app_assoc.
  - cbn [app read_line]. destruct (N.eqb_spec c squote); [done|]. fold (requoted s). unfold add_char. cbn [default].
    rewrite IH. by rewrite <- app_assoc.
Qed.

(** Wherever a quoted text stands, the shell appends exactly that text to the word
    it is reading, and goes on behind it. *)
Lemma read_quote s cur rest : read_line Unquoted cur (quote s ++ rest) = read_line Unquoted (Some (default [] cur ++ s)) rest.
Proof.
  unfold quote. destruct s as [|c s]; [cbn; by rewrite app_nil_r|]. destruct (forallb safe_char (c :: s)) eqn:E; [by apply read_safe|].
  rewrite replace_quotes, <- !app_assoc. cbn [app read_line]. rewrite N.eqb_refl. apply (read_requoted (c :: s)).
Qed.

Lemma read_quote_end s cur : read_line Unquoted cur (quote s) = Some [Word (default [] cur ++ s)].
Proof. rewrite <- (app_nil_r (quote s)), read_quote. done. Qed.

Example quote_examples : map quote [u "a.txt"; u "it's"; []; u "$(rm -rf /)"; u "b c"] =
  [u "a.txt"; [39] ++ u "it" ++ [39; 34; 39; 34; 39] ++ u "s" ++ [39]; [39; 39]; u "'$(rm -rf /)'"; u "'b c'"].
Proof. vm_compute. reflexivity. Qed.

Example read_examples :
  shell_read (u "mkdir -p 'a b' && cat > " ++ quote (u "it's")) =
    Some [Word (u "mkdir"); Word (u "-p"); Word (u "a b"); Operator (u "&&"); Word (u "cat"); Operator (u ">"); Word (u "it's")] /\
  shell_read (u "cat $HOME") = None /\ shell_read (u "rm 'x") = None.
Proof. vm_compute. done. Qed.
