(* ===== verification/Containers.v ===== *)
(** * Containers (kinetic_sdk/terminal/docker.py, workspace/docker_workspace.py, k8s_workspace.py)

    The argument vectors that move a command into a container, and the two
    workspaces that read and write files by running commands there. Processes are
    an interface; what the commands do in a container is stated by [unix_files], on
    command lines as the shell reads them (Shell.v). *)

From stdpp Require Import base gmap strings list.
From Stdlib Require Import ZArith Lia SpecFloat.
From S2P Require Import Prelude Json PyText Policy Patch Utf8 Workspace Shell.

(** ** Processes *)

Inductive process_outcome :=
| Completed (stdout stderr : bytes) (returncode : Z)
| Expired
| Raised (e : pyexn).

(** [run_process] is [subprocess.run] with a timeout in seconds; the rest is
    [Popen], with an environment of its own if one is given: [communicate] gives [None] when the timeout expires, [wait_output] is
    the call without one. *)
Class Processes (W : Type) := {
  run_process : list pystr -> option bytes -> json -> W -> process_outcome * W;
  spawn : list pystr -> option (list (pystr * pystr)) -> W -> result nat * W;
  communicate : nat -> option json -> W -> option bytes * W;
  killpg : nat -> W -> result unit * W;
  wait_output : nat -> W -> bytes * W;
  returncode : nat -> W -> option Z;
  clock : W -> pyfloat * W;
  round3 : pyfloat -> pyfloat;
  is_a : pyexn -> pystr -> bool;
  (** [bytes.decode(errors="replace")] of bytes that are not UTF-8 *)
  replace_invalid : bytes -> pystr;
}.

(** [.replace("\r\n", "\n").replace("\r", "\n")], which text mode applies to output. *)
Fixpoint universal_newlines (s : pystr) : pystr :=
  match s with
  | [] => []
  | c :: s' =>
    if (c =? 13)%N then
      match s' with
      | d :: s'' => if (d =? 10)%N then 10%N :: universal_newlines s'' else 10%N :: universal_newlines s'
      | [] => [10%N]
      end
    else c :: universal_newlines s'
  end.

Definition text_output {W} `{Processes W} (data : bytes) : pystr :=
  universal_newlines (match decode_utf8 data with Some text => text | None => replace_invalid data end).

(** [text.encode(errors="replace")]. *)
Definition scrub (c : N) : N := if scalar c then c else 63%N.
Definition encode_replace (text : pystr) : bytes := concat (map (fun c => encode_char (scrub c)) text).

(** [v <= 0] of a number. *)
Definition nonpositive (v : json) : result bool :=
  match v with
  | JInt z => Ok (z <=? 0)%Z
  | JBool b => Ok (negb b)
  | JFloat f => Ok (fl_le f (S754_zero false))
  | _ => Err (PyExn (u "TypeError") (u "'<=' not supported"))
  end.

(** ** terminal/docker.py *)

Definition sandbox_wrapper_error (msg : pystr) : pyexn := PyExn (u "SandboxWrapperError") msg.

Definition ascii_alnum (c : N) : bool :=
  ((48 <=? c) && (c <=? 57) || (65 <=? c) && (c <=? 90) || (97 <=? c) && (c <=? 122))%N.
Definition word_ascii (c : N) : bool := ascii_alnum c || (c =? 95)%N.
Definition name_char (c : N) : bool := word_ascii c || (c =? 46)%N || (c =? 45)%N.

(** [_SAFE.match]: the expression ends in [$], which also stands before a final line feed. *)
Definition safe_name (s : pystr) : bool :=
  let s := match last s with Some 10%N => removelast s | _ => s end in
  match s with c :: s' => word_ascii c && forallb name_char s' | [] => false end.

(** [_SAFE_USER.fullmatch]. *)
Definition safe_user (s : pystr) : bool :=
  match split_on 58 s with
  | [a] => negb (bool_decide (a = [])) && forallb name_char a
  | [a; b] => negb (bool_decide (a = [])) && negb (bool_decide (b = [])) && forallb name_char a && forallb name_char b
  | _ => false
  end.

(** [_MEMORY_LIMIT.fullmatch]; ignoring case, the Kelvin sign is a k. *)
Definition memory_unit (c : N) : bool := elem_b c (u "bkmgBKMG") || (c =? 8490)%N.
Definition memory_limit_ok `{UnicodeDigits} (s : pystr) : bool :=
  match number s with Some (_, []) => true | Some (_, [c]) => memory_unit c | _ => false end.

(** [_ENV_NAME.fullmatch]. *)
Definition env_name (s : pystr) : bool :=
  match s with c :: s' => word_ascii c && negb ((48 <=? c) && (c <=? 57))%N && forallb word_ascii s' | [] => false end.

Definition _UNSAFE_MOUNT_SOURCES : list pystr :=
  map u ["/"; "/proc"; "/sys"; "/dev"; "/etc"; "/var/run/docker.sock"; "/run/docker.sock"].

Definition unsafe_source (normalised_source : pystr) : bool :=
  elem_b normalised_source _UNSAFE_MOUNT_SOURCES ||
  existsb (fun directory => starts_with (directory ++ [slash]) normalised_source) (map u ["/proc"; "/sys"; "/dev"; "/etc"]).

Section Wrappers.
Context `{PyRuntime} `{UnicodeDigits}.
(** [os.path.realpath(os.path.abspath(source))] on the host. *)
Variable real_source : pystr -> result pystr.

Definition _validate_volume (volume : pystr) (allow_unsafe_mounts : bool) : result unit :=
  if negb (elem_b 58%N volume)
  then Err (sandbox_wrapper_error (u "volume spec needs 'src:dst', got " ++ py_repr (JStr volume)))
  else match default [] (head (split_on 58 volume)) with
  | [] => Err (sandbox_wrapper_error (u "volume spec needs a source path, got " ++ py_repr (JStr volume)))
  | source =>
    normalised_source <-! real_source source ;;
    if negb allow_unsafe_mounts && unsafe_source normalised_source
    then Err (sandbox_wrapper_error (u "unsafe mount source: " ++ py_repr (JStr source))) else Ok tt
  end.

Definition option_arg (flag : pystr) (value : option pystr) : list pystr :=
  match value with Some v => [flag; v] | None => [] end.

Definition docker_exec_wrapper (container : pystr) (workdir user : option pystr) : result (list pystr) :=
  if negb (safe_name container)
  then Err (sandbox_wrapper_error (u "invalid container name: " ++ py_repr (JStr container)))
  else Ok ([u "docker"; u "exec"] ++ option_arg (u "-w") workdir ++ option_arg (u "-u") user ++ [u "-i"; container]).

Record RunOptions := {
  o_workdir : option pystr;
  o_volumes : list pystr;
  o_env : list (pystr * pystr);
  o_network : option pystr;
  o_read_only : bool;
  o_tmpfs : option (list pystr);
  o_drop_all_capabilities : bool;
  o_no_new_privileges : bool;
  o_memory_limit : option pystr;
  o_cpu_limit : option json;
  o_pids_limit : option json;
  o_user : option pystr;
  o_allow_unsafe_mounts : bool;
}.

Definition refuse (b : bool) (msg : pystr) : result unit := if b then Err (sandbox_wrapper_error msg) else Ok tt.

Definition when_given {T} (v : option T) (bad : T -> bool) : bool := match v with Some x => bad x | None => false end.

Definition bad_cpu (v : json) : bool :=
  match v with JInt z => (z <=? 0)%Z | JFloat f => fl_le f (S754_zero false) | _ => true end.
Definition bad_pids (v : json) : bool := match v with JInt z => (z <? 1)%Z | _ => true end.

(** The loop over [env], then the flags; the volumes are checked where they are added. *)
Fixpoint tmpfs_args (mounts : list pystr) : result (list pystr) :=
  match mounts with
  | [] => Ok []
  | mount :: mounts' =>
    _ <-! refuse (bool_decide (mount = [])) (u "invalid tmpfs mount: " ++ py_repr (JStr mount)) ;;
    rest <-! tmpfs_args mounts' ;; Ok ([u "--tmpfs"; mount] ++ rest)
  end.

Fixpoint volume_args (volumes : list pystr) (allow_unsafe_mounts : bool) : result (list pystr) :=
  match volumes with
  | [] => Ok []
  | vol :: volumes' =>
    _ <-! _validate_volume vol allow_unsafe_mounts ;;
    rest <-! volume_args volumes' allow_unsafe_mounts ;; Ok ([u "-v"; vol] ++ rest)
  end.

Definition effective_tmpfs (o : RunOptions) : list pystr :=
  match o_tmpfs o with None => if o_read_only o then [u "/tmp"] else [] | Some l => l end.

Definition bad_image (image : pystr) : bool :=
  bool_decide (image = []) || starts_with (u "-") image || existsb is_space image.

Definition given_repr (v : option pystr) : pystr := py_repr (opt_str v).

Definition check_options (image : pystr) (o : RunOptions) : result unit :=
  _ <-! refuse (bad_image image) (u "docker_run_wrapper needs a non-empty image") ;;
  _ <-! refuse (when_given (o_workdir o) (fun d => negb (isabs d))) (u "workdir must be an absolute path, got " ++ given_repr (o_workdir o)) ;;
  _ <-! refuse (when_given (o_user o) (fun x => negb (safe_user x))) (u "invalid user: " ++ given_repr (o_user o)) ;;
  _ <-! refuse (when_given (o_memory_limit o) (fun x => negb (memory_limit_ok x))) (u "invalid memory limit: " ++ given_repr (o_memory_limit o)) ;;
  _ <-! refuse (when_given (o_cpu_limit o) bad_cpu) (u "cpu_limit must be greater than zero, got " ++ py_repr (default JNull (o_cpu_limit o))) ;;
  _ <-! refuse (when_given (o_pids_limit o) bad_pids) (u "pids_limit must be at least one, got " ++ py_repr (default JNull (o_pids_limit o))) ;;
  match List.find (fun kv => negb (env_name kv.1)) (o_env o) with
  | Some (key, _) => Err (sandbox_wrapper_error (u "invalid environment variable name: " ++ py_repr (JStr key)))
  | None => Ok tt
  end.

Definition docker_run_wrapper (image : pystr) (o : RunOptions) : result (list pystr) :=
  _ <-! check_options image o ;;
  tmpfs <-! tmpfs_args (effective_tmpfs o) ;;
  volumes <-! volume_args (o_volumes o) (o_allow_unsafe_mounts o) ;;
  Ok ([u "docker"; u "run"; u "--rm"; u "-i"] ++ option_arg (u "--network") (o_network o)
      ++ (if o_read_only o then [u "--read-only"] else []) ++ tmpfs
      ++ (if o_drop_all_capabilities o then [u "--cap-drop=ALL"] else [])
      ++ (if o_no_new_privileges o then [u "--security-opt=no-new-privileges:true"] else [])
      ++ option_arg (u "--memory") (o_memory_limit o) ++ option_arg (u "--cpus") (py_str <$> o_cpu_limit o)
      ++ option_arg (u "--pids-limit") (py_str <$> o_pids_limit o) ++ option_arg (u "--user") (o_user o)
      ++ volumes ++ concat (map (fun kv => [u "-e"; kv.1]) (o_env o)) ++ option_arg (u "-w") (o_workdir o) ++ [image]).
End Wrappers.

Section WrapperFacts.
Context `{PyRuntime} `{UnicodeDigits} (real_source : pystr -> result pystr).

Lemma refuse_ok b msg : refuse b msg = Ok tt -> b = false.
Proof using Type. by destruct b. Qed.

Lemma volume_args_checked volumes allow args vol : volume_args real_source volumes allow = Ok args -> vol ∈ volumes ->
  _validate_volume real_source vol allow = Ok tt.
Proof using Type.
  revert args; induction volumes as [|v vs IH]; intros args; [by intros _ Hv%not_elem_of_nil|]. cbn [volume_args].
  destruct (_validate_volume real_source v allow) as [[]|] eqn:E; [|done]. cbn [rbind].
  destruct (volume_args real_source vs allow) as [rest|] eqn:Er; [|done]. intros _ [->|Hv]%elem_of_cons; [done|]. by eapply IH.
Qed.

(** Without the option for unsafe mounts, a container that is started has no
    sensitive source mounted, its image is an argument and not a flag, and the
    restrictions asked for are on the command line. *)
Theorem run_wrapper_is_restricted image o argv : docker_run_wrapper real_source image o = Ok argv ->
  starts_with (u "-") image = false /\ last argv = Some image /\
  (o_drop_all_capabilities o = true -> u "--cap-drop=ALL" ∈ argv) /\
  (o_no_new_privileges o = true -> u "--security-opt=no-new-privileges:true" ∈ argv) /\
  (o_read_only o = true -> u "--read-only" ∈ argv) /\
  (o_allow_unsafe_mounts o = false -> forall vol, vol ∈ o_volumes o ->
    exists source real, head (split_on 58 vol) = Some source /\ real_source source = Ok real /\ unsafe_source real = false).
Proof using Type.
  unfold docker_run_wrapper. destruct (check_options image o) as [[]|] eqn:Ec; [|done]. cbn [rbind].
  destruct (tmpfs_args _) as [tmpfs|]; [|done]. cbn [rbind]. destruct (volume_args _ _ _) as [vols|] eqn:Ev; [|done]. cbn [rbind]. intros [= <-].
  unfold check_options in Ec. destruct (refuse (bad_image image) _) as [[]|] eqn:Ei; [|done]. apply refuse_ok in Ei. clear Ec.
  unfold bad_image in Ei. rewrite !orb_false_iff in Ei. split_and!; [tauto| |intros ->; set_solver..|].
  - by repeat first [rewrite last_app | rewrite last_cons].
  - intros Ha vol Hv. pose proof (volume_args_checked _ _ _ vol Ev Hv) as Hc. rewrite Ha in Hc. unfold _validate_volume in Hc.
    destruct (elem_b 58%N vol); [|done]. cbn [negb] in Hc. destruct (head (split_on 58 vol)) as [[|x source]|] eqn:Eh; cbn in Hc; [done| |done].
    destruct (real_source (x :: source)) as [real|] eqn:Er; [|done]. cbn in Hc. exists (x :: source), real.
    by destruct (unsafe_source real).
Qed.
End WrapperFacts.

(** ** workspace/docker_workspace.py *)

(** [d_exec]: the mode is "exec". *)
Record DockerWorkspace := { d_exec : bool; d_workdir : pystr; d_wrapper : list pystr }.

(** How the run of a child process ends: [Popen] or [killpg] raises, or its output
    is there, and whether it timed out. *)
Inductive process_end := NotStarted (e : pyexn) | NotKilled (e : pyexn) | Ended (proc : nat) (output : bytes) (timed_out : bool).

Section Docker.
Context `{PyRuntime} `{UnicodeDigits} `{Globs} {W : Type} `{Processes W}.

Definition docker_options (workdir : pystr) (volumes : list pystr) (env : list (pystr * pystr)) (network : option pystr)
    (tmpfs : option (list pystr)) (allow_unsafe_mounts : bool) : RunOptions := {|
  o_workdir := Some workdir; o_volumes := volumes; o_env := env; o_network := network; o_read_only := true; o_tmpfs := tmpfs;
  o_drop_all_capabilities := true; o_no_new_privileges := true; o_memory_limit := None; o_cpu_limit := None;
  o_pids_limit := None; o_user := None; o_allow_unsafe_mounts := allow_unsafe_mounts |}.

Definition nonempty (s : option pystr) : option pystr := match s with Some (_ :: _) => s | _ => None end.

Definition new_docker (real_source : pystr -> result pystr) (mode : pystr) (container image : option pystr) (workdir : pystr)
    (user : option pystr) (volumes : list pystr) (env : list (pystr * pystr)) (network : option pystr)
    (tmpfs : option (list pystr)) (allow_unsafe_mounts : bool) : result DockerWorkspace :=
  if bool_decide (mode = u "exec") then
    match nonempty container with
    | None => Err (value_error (u "mode='exec' requires a container name"))
    | Some c => wrapper <-! docker_exec_wrapper c (Some workdir) user ;; Ok {| d_exec := true; d_workdir := workdir; d_wrapper := wrapper |}
    end
  else if bool_decide (mode = u "run") then
    match nonempty image with
    | None => Err (value_error (u "mode='run' requires an image name"))
    | Some i =>
      wrapper <-! docker_run_wrapper real_source i (docker_options workdir volumes env network tmpfs allow_unsafe_mounts) ;;
      Ok {| d_exec := false; d_workdir := workdir; d_wrapper := wrapper |}
    end
  else Err (value_error (u "mode must be 'exec' or 'run', got " ++ py_repr (JStr mode))).

Definition in_directory (cwd : option pystr) (command : pystr) : pystr :=
  match cwd with Some d => u "cd " ++ quote d ++ u " && " ++ command | None => command end.

(** [Popen], [communicate] and the kill after a timeout. *)
Definition run_to_end (argv : list pystr) (env : option (list (pystr * pystr))) (timeout : option json) (w : W) : process_end * W :=
  match spawn argv env w with
  | (Err e, w1) => (NotStarted e, w1)
  | (Ok proc, w1) =>
    match communicate proc timeout w1 with
    | (Some output, w2) => (Ended proc output false, w2)
    | (None, w2) =>
      match killpg proc w2 with
      | (Err e, w3) =>
        if existsb (is_a e) [u "ProcessLookupError"; u "PermissionError"]
        then let '(output, w4) := wait_output proc w3 in (Ended proc output true, w4)
        else (NotKilled e, w3)
      | (Ok _, w3) => let '(output, w4) := wait_output proc w3 in (Ended proc output true, w4)
      end
    end
  end.

Definition timed_out_message (timeout : option json) : pystr :=
  u "command timed out after " ++ match timeout with Some t => py_str t | None => u "None" end ++ u "s".

Definition not_started (e : pyexn) : CommandResult := {|
  cr_output := []; cr_exit_code := -1; cr_duration_seconds := S754_zero false; cr_timed_out := false; cr_truncated := false;
  cr_error := Some (u "failed to start docker: " ++ exn_msg e); cr_metadata := [] |}.

Definition docker_run_command (d : DockerWorkspace) (command : pystr) (timeout : option json) (cwd : option pystr) (w : W)
    : result CommandResult * W :=
  let '(started, w0) := clock w in
  match run_to_end (d_wrapper d ++ [u "bash"; u "-c"; in_directory cwd command]) None timeout w0 with
  | (NotStarted e, w1) => (if is_a e (u "OSError") then Ok (not_started e) else Err e, w1)
  | (NotKilled e, w1) => (Err e, w1)
  | (Ended proc output timed_out, w1) =>
    let '(now, w2) := clock w1 in
    (Ok {| cr_output := text_output output; cr_exit_code := default (-1)%Z (returncode proc w1);
           cr_duration_seconds := round3 (fl_sub now started); cr_timed_out := timed_out; cr_truncated := false;
           cr_error := if timed_out then Some (timed_out_message timeout) else None; cr_metadata := [] |}, w2)
  end.

(** [f"{self._workdir.rstrip('/')}/{relative_path.lstrip('/')}"]. *)
Definition docker_absolute (d : DockerWorkspace) (relative_path : pystr) : pystr :=
  rstrip_with (N.eqb slash) (d_workdir d) ++ [slash] ++ lstrip_with (N.eqb slash) relative_path.

(** [absolute.rsplit("/", 1)[0] or "/"]. *)
Definition parent_of (absolute : pystr) : pystr :=
  match join [slash] (removelast (split_on slash absolute)) with [] => [slash] | p => p end.

Definition no_container (operation : pystr) : pyexn :=
  workspace_error (operation ++ u " is not supported without a persistent container " ++
    u "(mode='run' starts a fresh container per command); use mode='exec'").

(** [run_command], a failure of which raises [WorkspaceError(failed(output))]. *)
Definition checked (d : DockerWorkspace) (command : pystr) (failed : pystr -> pystr) (w : W) : result pystr * W :=
  match docker_run_command d command None None w with
  | (Err e, w') => (Err e, w')
  | (Ok r, w') => (if (cr_exit_code r =? 0)%Z then Ok (cr_output r) else Err (workspace_error (failed (cr_output r))), w')
  end.

Definition docker_read_text (d : DockerWorkspace) (relative_path : pystr) (w : W) : result pystr * W :=
  if negb (d_exec d) then (Err (no_container (u "read_text")), w)
  else checked d (u "cat " ++ quote (docker_absolute d relative_path))
         (fun out => u "failed to read " ++ py_repr (JStr relative_path) ++ u " from container: " ++ out) w.

Definition docker_write_text (d : DockerWorkspace) (relative_path content : pystr) (w : W) : result unit * W :=
  if negb (d_exec d) then (Err (no_container (u "write_text")), w)
  else
    let absolute := docker_absolute d relative_path in
    match checked d (u "mkdir -p " ++ quote (parent_of absolute)) (fun out => u "failed to create parent dir: " ++ out) w with
    | (Err e, w1) => (Err e, w1)
    | (Ok _, w1) =>
      let '(r, w2) := checked d (u "printf '%s' " ++ quote content ++ u " > " ++ quote absolute)
                        (fun out => u "failed to write " ++ py_repr (JStr relative_path) ++ u ": " ++ out) w1 in
      (rmap (fun _ => tt) r, w2)
    end.

Definition docker_delete_file (d : DockerWorkspace) (relative_path : pystr) (w : W) : result unit * W :=
  if negb (d_exec d) then (Err (workspace_error (u "delete_file is not supported without a persistent container")), w)
  else
    let '(r, w') := checked d (u "rm -- " ++ quote (docker_absolute d relative_path))
                      (fun out => u "failed to delete " ++ py_repr (JStr relative_path) ++ u ": " ++ out) w in
    (rmap (fun _ => tt) r, w').

(** The files of [find . -type f], and the entries of [find -printf "%f%y\n"]. *)
Definition found_files (pattern : option pystr) (output : pystr) : list pystr :=
  let files := map (drop 2) (filter (fun line => starts_with (u "./") line = true) (splitlines output)) in
  sorted_strs (match pattern with None => files | Some p => filter (fun f => fnmatch f p = true) files end).

Definition found_entries (output : pystr) : list pystr :=
  sorted_strs (map (fun line => if ends_with (u "d") line then removelast line ++ [slash] else removelast line) (splitlines output)).

Definition docker_list_files (d : DockerWorkspace) (pattern : option pystr) (w : W) : result (list pystr) * W :=
  let '(r, w') := checked d (u "cd " ++ quote (d_workdir d) ++ u " && find . -type f") (fun out => u "failed to list files: " ++ out) w in
  (rmap (found_files pattern) r, w').

(** [lstrip('./')] strips every leading dot and slash. *)
Definition listed_directory (d : DockerWorkspace) (relative_path : pystr) : pystr :=
  rstrip_with (N.eqb slash) (d_workdir d) ++ [slash] ++ lstrip_with (fun c => (c =? 46) || (c =? 47))%N relative_path.

Definition docker_list_directory (d : DockerWorkspace) (relative_path : pystr) (w : W) : result (list pystr) * W :=
  let '(r, w') := checked d (u "find " ++ quote (listed_directory d relative_path) ++ u " -mindepth 1 -maxdepth 1 -printf '%f%y\n'")
                    (fun out => u "failed to list directory: " ++ out) w in
  (rmap found_entries r, w').

#[export] Instance docker_workspace : WorkspaceBase DockerWorkspace W := {|
  ws_root_path := d_workdir;
  ws_resolve_path := fun _ => no_local_paths;
  ws_run_command := docker_run_command;
  ws_read_text := docker_read_text;
  ws_write_text := docker_write_text;
  ws_delete_file := docker_delete_file;
  ws_list_files := docker_list_files;
  ws_list_directory := docker_list_directory;
|}.
End Docker.

(** ** workspace/k8s_workspace.py *)

Record KubernetesWorkspace := {
  k_pod_name : pystr;
  k_namespace : option pystr;
  k_container : option pystr;
  k_workdir : pystr;
  k_timeout : json;
}.

Section Kubernetes.
Context `{PyRuntime} `{Globs} {W : Type} `{Processes W}.

Definition new_kubernetes (pod_name : pystr) (namespace container : option pystr) (workdir : pystr) (timeout : json)
    : result KubernetesWorkspace :=
  if bool_decide (pod_name = []) || bool_decide (strip pod_name = [])
  then Err (value_error (u "pod_name must be a non-empty string"))
  else
    bad <-! nonpositive timeout ;;
    if (bad : bool) then Err (value_error (u "timeout must be positive"))
    else if negb (isabs workdir) then Err (value_error (u "workdir must be an absolute POSIX path"))
    else Ok {| k_pod_name := pod_name; k_namespace := namespace; k_container := container; k_workdir := normpath workdir;
               k_timeout := timeout |}.

Definition _exec_argv (k : KubernetesWorkspace) (command : list pystr) : list pystr :=
  [u "kubectl"] ++ option_arg (u "-n") (nonempty (k_namespace k)) ++ [u "exec"; k_pod_name k]
  ++ option_arg (u "-c") (nonempty (k_container k)) ++ [u "--"] ++ command.

(** The completed process: standard output and error as text, and its code. *)
Definition _run_kubectl (k : KubernetesWorkspace) (argv : list pystr) (input_text : option pystr) (timeout : option json) (w : W)
    : result (pystr * pystr * Z) * W :=
  let effective_timeout := default (k_timeout k) timeout in
  match run_process argv (encode_replace <$> input_text) effective_timeout w with
  | (Completed out err rc, w') => (Ok (text_output out, text_output err, rc), w')
  | (Expired, w') => (Err (workspace_error (u "kubectl command timed out after " ++ py_str effective_timeout ++ u "s")), w')
  | (Raised e, w') => (Err (if is_a e (u "OSError") then workspace_error (u "failed to start kubectl: " ++ exn_msg e) else e), w')
  end.

Definition _absolute_path (k : KubernetesWorkspace) (relative_path : pystr) : result pystr :=
  let candidate := normpath (if isabs relative_path then relative_path else os_path_join (k_workdir k) relative_path) in
  if is_inside (k_workdir k) candidate then Ok candidate else Err (outside_root relative_path (k_workdir k)).

Definition k8s_run_command (k : KubernetesWorkspace) (command : pystr) (timeout : option json) (cwd : option pystr) (w : W)
    : result CommandResult * W :=
  match match cwd with None => Ok None | Some d => rmap Some (_absolute_path k d) end with
  | Err e => (Err e, w)
  | Ok directory =>
    let '(started, w0) := clock w in
    match match timeout with Some t => nonpositive t | None => Ok false end with
    | Err e => (Err e, w0)
    | Ok true => (Err (value_error (u "timeout must be positive")), w0)
    | Ok false =>
      match _run_kubectl k (_exec_argv k [u "bash"; u "-c"; in_directory directory command]) None timeout w0 with
      | (Err e, w1) => (Err e, w1)
      | (Ok (out, err, rc), w1) =>
        let '(now, w2) := clock w1 in
        (Ok {| cr_output := out ++ err; cr_exit_code := rc; cr_duration_seconds := round3 (fl_sub now started);
               cr_timed_out := false; cr_truncated := false; cr_error := None; cr_metadata := [] |}, w2)
      end
    end
  end.

(** [_run_kubectl] of a command, a failure of which raises [WorkspaceError(failed(output))]. *)
Definition executed (k : KubernetesWorkspace) (command : list pystr) (input_text : option pystr) (failed : pystr -> pystr) (w : W)
    : result pystr * W :=
  match _run_kubectl k (_exec_argv k command) input_text None w with
  | (Err e, w') => (Err e, w')
  | (Ok (out, err, rc), w') => (if (rc =? 0)%Z then Ok out else Err (workspace_error (failed (out ++ err))), w')
  end.

Definition k8s_read_text (k : KubernetesWorkspace) (relative_path : pystr) (w : W) : result pystr * W :=
  match _absolute_path k relative_path with
  | Err e => (Err e, w)
  | Ok absolute =>
    executed k [u "cat"; absolute] None (fun out => u "failed to read " ++ py_repr (JStr relative_path) ++ u " from pod: " ++ out) w
  end.

Definition k8s_write_text (k : KubernetesWorkspace) (relative_path content : pystr) (w : W) : result unit * W :=
  match _absolute_path k relative_path with
  | Err e => (Err e, w)
  | Ok absolute =>
    let '(r, w') := executed k [u "sh"; u "-c"; u "mkdir -p " ++ quote (parent_of absolute) ++ u " && cat > " ++ quote absolute]
                      (Some content) (fun out => u "failed to write " ++ py_repr (JStr relative_path) ++ u ": " ++ out) w in
    (rmap (fun _ => tt) r, w')
  end.

Definition k8s_delete_file (k : KubernetesWorkspace) (relative_path : pystr) (w : W) : result unit * W :=
  match _absolute_path k relative_path with
  | Err e => (Err e, w)
  | Ok absolute =>
    let '(r, w') := executed k [u "rm"; u "--"; absolute] None
                      (fun out => u "failed to delete " ++ py_repr (JStr relative_path) ++ u ": " ++ out) w in
    (rmap (fun _ => tt) r, w')
  end.

Definition k8s_list_files (k : KubernetesWorkspace) (pattern : option pystr) (w : W) : result (list pystr) * W :=
  let '(r, w') := executed k [u "sh"; u "-c"; u "cd " ++ quote (k_workdir k) ++ u " && find . -type f"] None
                    (fun out => u "failed to list files: " ++ out) w in
  (rmap (found_files pattern) r, w').

Definition k8s_list_directory (k : KubernetesWorkspace) (relative_path : pystr) (w : W) : result (list pystr) * W :=
  match _absolute_path k relative_path with
  | Err e => (Err e, w)
  | Ok directory =>
    let '(r, w') := executed k [u "find"; directory; u "-mindepth"; u "1"; u "-maxdepth"; u "1"; u "-printf"; u "%f%y\n"] None
                      (fun out => u "failed to list directory: " ++ out) w in
    (rmap found_entries r, w')
  end.

#[export] Instance kubernetes_workspace : WorkspaceBase KubernetesWorkspace W := {|
  ws_root_path := k_workdir;
  ws_resolve_path := fun _ => no_local_paths;
  ws_run_command := k8s_run_command;
  ws_read_text := k8s_read_text;
  ws_write_text := k8s_write_text;
  ws_delete_file := k8s_delete_file;
  ws_list_files := k8s_list_files;
  ws_list_directory := k8s_list_directory;
|}.
End Kubernetes.

(** ** Paths in a pod *)

(** The normalized forms of an absolute path; POSIX keeps two leading slashes. *)
Definition denotes (p : pystr) (cs : list pystr) : Prop := p = rooted cs \/ p = slash :: rooted cs.

Lemma norm_comps_plain p : isabs p = true -> Forall plain_name (norm_comps p).
Proof.
  intros Hp. destruct (norm_comps_shape p) as (n & names & E & Hd & Hn). rewrite Hn in E by done. simpl in E.
  pose proof (norm_comps_segments p) as HF. rewrite E in *. apply Forall_forall. intros c Hc. split.
  - by eapply Forall_forall in HF.
  - by intros ->.
Qed.

Lemma normpath_denotes p : isabs p = true -> denotes (normpath p) (norm_comps p).
Proof.
  intros Hp. unfold normpath. destruct p as [|x p]; [done|]. rewrite Hp. unfold denotes, rooted.
  destruct (starts_with [slash; slash] (x :: p) && _); cbn [app]; [by right|by left].
Qed.

Lemma denotes_abs p cs : denotes p cs -> isabs p = true.
Proof. intros [->| ->]; [apply isabs_rooted|]. unfold isabs. cbn [starts_with]. by rewrite bool_decide_eq_true_2. Qed.

Lemma denotes_comps p cs : denotes p cs -> Forall segment cs -> path_comps p = cs.
Proof.
  intros [->| ->] Hs; [by apply path_comps_rooted|]. unfold path_comps.
  change (slash :: rooted cs) with ([] ++ slash :: rooted cs). rewrite split_on_app. simpl. rewrite filter_cons_False by tauto.
  by apply path_comps_rooted.
Qed.

(** For an absolute path the segments are where walking it from the root leads. *)
Lemma norm_comps_resolve p : isabs p = true -> norm_comps p = resolve [] p.
Proof.
  intros Hp. pose proof (norm_comps_plain p Hp) as HF. rewrite resolve_norm, Hp. rewrite walk_names; [by rewrite app_nil_r, rev_involutive|..].
  - by apply plain_segments.
  - intros Hin. by eapply Forall_forall in HF as [_ ?].
Qed.

Lemma resolve_join cs p : Forall plain_name cs -> resolve [] (if isabs p then p else os_path_join (rooted cs) p) = resolve cs p.
Proof.
  intros Hcs. pose proof (plain_segments _ Hcs) as Hs. destruct (isabs p) eqn:Ep; [unfold resolve; by rewrite Ep|].
  unfold os_path_join. rewrite Ep, bool_decide_eq_false_2 by done. simpl orb.
  assert (dotdot ∉ cs) as Hd by (intros Hin; by eapply Forall_forall in Hcs as [_ ?]).
  destruct (decide (cs = [])) as [->|Hne].
  - change (ends_with [slash] (rooted [])) with true. cbn iota. change (rooted [] ++ p) with (slash :: p).
    unfold resolve. rewrite Ep. replace (isabs (slash :: p)) with true by (unfold isabs; cbn [starts_with]; by rewrite bool_decide_eq_true_2).
    change (slash :: p) with ([] ++ slash :: p). rewrite split_on_app. cbn [split_on app foldl]. done.
  - rewrite rooted_no_end by done. unfold resolve. rewrite Ep.
    replace (isabs (rooted cs ++ [slash] ++ p)) with true by (unfold isabs, rooted; cbn [app starts_with]; by rewrite bool_decide_eq_true_2).
    change (rooted cs ++ [slash] ++ p) with (rooted cs ++ slash :: p). rewrite split_on_app, split_rooted by done.
    rewrite foldl_app. cbn [foldl]. replace (walk_step [] []) with (@nil pystr) by done.
    rewrite (walk_names [] cs), app_nil_r by done. done.
Qed.

Section PodPaths.
Context `{PyRuntime}.

Lemma absolute_path_spec k cs p : k_workdir k = rooted cs -> Forall plain_name cs ->
  exists a, denotes a (resolve cs p) /\ Forall plain_name (resolve cs p) /\
    _absolute_path k p = if decide (cs `prefix_of` resolve cs p) then Ok a else Err (outside_root p (k_workdir k)).
Proof using Type.
  intros Hk Hcs. unfold _absolute_path. rewrite Hk. set (q := if isabs p then p else os_path_join (rooted cs) p).
  assert (isabs q = true) as Hq.
  { unfold q. destruct (isabs p) eqn:Ep; [done|]. unfold os_path_join. rewrite Ep.
    destruct (_ || _); unfold rooted, isabs; cbn [app starts_with]; by rewrite bool_decide_eq_true_2. }
  pose proof (normpath_denotes q Hq) as Hd. pose proof (norm_comps_plain q Hq) as HF.
  pose proof (resolve_join cs p Hcs) as Hj. fold q in Hj. rewrite (norm_comps_resolve q Hq), Hj in Hd, HF. exists (normpath q). split_and!; [done..|].
  pose proof (is_inside_spec cs (normpath q) (plain_segments _ Hcs)) as Hi.
  rewrite (denotes_comps _ _ Hd (plain_segments _ HF)) in Hi. pose proof (denotes_abs _ _ Hd) as Ha.
  destruct (is_inside (rooted cs) (normpath q)); case_decide; try done; exfalso; naive_solver.
Qed.
End PodPaths.

Lemma pod_paths_spec `{PyRuntime} k cs p : k_workdir k = rooted cs -> Forall plain_name cs ->
  (is_ok (_absolute_path k p) = true <-> cs `prefix_of` resolve cs p) /\
  forall a, _absolute_path k p = Ok a -> denotes a (resolve cs p) /\ Forall plain_name (resolve cs p).
Proof.
  intros Hk Hcs. destruct (absolute_path_spec k cs p Hk Hcs) as (a & Hd & HF & ->).
  case_decide; (split; [split; done|]); [by intros a' [= <-]|done].
Qed.

(** containment in a pod is exact. With a working directory in normal form, a
    path is accepted exactly when walking its segments from that directory (from
    the root if it is absolute) ends inside it, and the path given to [kubectl] is
    the normal form of where it ends: no dots are left. *)
Theorem pod_paths_contained `{PyRuntime} k cs p : k_workdir k = rooted cs -> Forall plain_name cs ->
  (is_ok (_absolute_path k p) = true <-> cs `prefix_of` resolve cs p) /\
  forall a, _absolute_path k p = Ok a -> denotes a (resolve cs p) /\ Forall plain_name (resolve cs p).
Proof. apply pod_paths_spec. Qed.

(** ** What the commands do

    A container whose working tree has no links. [runs toks input w out w'] says
    that a command, which the shell reads as [toks], was run on [input] and left
    [w'], and gives its output and code if it completed. *)

Record unix_files {W} (file_at : pystr -> W -> option bytes) (up : W -> Prop)
    (runs : list token -> option bytes -> W -> option (bytes * Z) -> W -> Prop) : Prop := {
  u_cat p cs input w o w' : denotes p cs -> Forall plain_name cs -> runs [Word (u "cat"); Word p] input w o w' ->
    (forall l, file_at l w' = file_at l w) /\
    (forall out, o = Some (out, 0%Z) -> file_at (rooted cs) w = Some out) /\
    (forall data, up w -> file_at (rooted cs) w = Some data -> o = Some (data, 0%Z));
  u_mkdir d input w o w' : runs [Word (u "mkdir"); Word (u "-p"); Word d] input w o w' -> forall l, file_at l w' = file_at l w;
  u_mkdir_cat d p cs input w o w' : denotes p cs -> Forall plain_name cs ->
    runs [Word (u "mkdir"); Word (u "-p"); Word d; Operator (u "&&"); Word (u "cat"); Operator (u ">"); Word p] (Some input) w o w' ->
    (forall l, l <> rooted cs -> file_at l w' = file_at l w) /\
    (forall out, o = Some (out, 0%Z) -> file_at (rooted cs) w' = Some input);
  u_printf text p cs input w o w' : denotes p cs -> Forall plain_name cs ->
    runs [Word (u "printf"); Word (u "%s"); Word text; Operator (u ">"); Word p] input w o w' ->
    (forall l, l <> rooted cs -> file_at l w' = file_at l w) /\
    (forall out data, o = Some (out, 0%Z) -> encode_utf8 text = Ok data -> file_at (rooted cs) w' = Some data);
  u_rm p cs input w o w' : denotes p cs -> Forall plain_name cs -> runs [Word (u "rm"); Word (u "--"); Word p] input w o w' ->
    (forall l, l <> rooted cs -> file_at l w' = file_at l w) /\
    (forall out, o = Some (out, 0%Z) -> file_at (rooted cs) w' = None);
}.

Lemma scalar_scrub c : scalar (scrub c) = true.
Proof. unfold scrub. by destruct (scalar c) eqn:E. Qed.

Lemma decode_encode_replace text : decode_utf8 (encode_replace text) = Some (map scrub text).
Proof.
  apply utf8_decode_encode. unfold encode_utf8, encode_replace.
  assert (forallb scalar (map scrub text) = true) as -> by (apply forallb_forall; intros c (x & <- & _)%in_map_iff; apply scalar_scrub).
  by rewrite map_map.
Qed.

Lemma newlines_plain s : 13%N ∉ s -> universal_newlines s = s.
Proof.
  induction s as [|c s IH]; intros Hn; [done|]. cbn [universal_newlines]. apply not_elem_of_cons in Hn as [Hc Hn].
  destruct (N.eqb_spec c 13) as [->|]; [done|]. by rewrite IH.
Qed.

(** The lines the workspaces build, as the shell reads them. *)
Ltac literals := repeat match goal with |- context [u ?s] => let x := eval vm_compute in (u s) in progress change (u s) with x end.
Ltac read_words := unfold shell_read; literals; rewrite <- ?app_assoc; cbn -[quote];
  repeat first [rewrite read_quote_end | rewrite read_quote; cbn -[quote]]; reflexivity.

Lemma cat_line p : shell_read (u "cat " ++ quote p) = Some [Word (u "cat"); Word p].
Proof. read_words. Qed.
Lemma rm_line p : shell_read (u "rm -- " ++ quote p) = Some [Word (u "rm"); Word (u "--"); Word p].
Proof. read_words. Qed.
Lemma mkdir_line d : shell_read (u "mkdir -p " ++ quote d) = Some [Word (u "mkdir"); Word (u "-p"); Word d].
Proof. read_words. Qed.
Lemma write_line d p : shell_read (u "mkdir -p " ++ quote d ++ u " && cat > " ++ quote p) =
  Some [Word (u "mkdir"); Word (u "-p"); Word d; Operator (u "&&"); Word (u "cat"); Operator (u ">"); Word p].
Proof. read_words. Qed.
Lemma printf_line text p : shell_read (u "printf '%s' " ++ quote text ++ u " > " ++ quote p) =
  Some [Word (u "printf"); Word (u "%s"); Word text; Operator (u ">"); Word p].
Proof. read_words. Qed.

(** ** The Kubernetes workspace implements the contract *)

(** Commands as [kubectl exec] is given them, directly or for a shell. *)
Definition k_argv (k : KubernetesWorkspace) (toks : list token) (argv : list pystr) : Prop :=
  (exists words, toks = map Word words /\ argv = _exec_argv k words) \/
  exists line, shell_read line = Some toks /\ argv = _exec_argv k [u "sh"; u "-c"; line].

Definition k_runs {W} `{Processes W} (k : KubernetesWorkspace) (toks : list token) (input : option bytes) (w : W)
    (o : option (bytes * Z)) (w' : W) : Prop :=
  exists argv timeout r, k_argv k toks argv /\ run_process argv input timeout w = (r, w') /\
    o = match r with Completed out _ rc => Some (out, rc) | _ => None end.

Definition pod_text {W} `{Processes W} (file_at : pystr -> W -> option bytes) (l : pystr) (w : W) : option pystr :=
  text_output <$> file_at l w.

Definition k_location `{PyRuntime} {W} (k : KubernetesWorkspace) (p : pystr) (_ : W) : option pystr :=
  match _absolute_path k p with Ok a => Some (rooted (path_comps a)) | Err _ => None end.

Section KubernetesFacts.
Context `{PyRuntime} `{Globs} {W : Type} `{Processes W}.
Context (k : KubernetesWorkspace) (cs : list pystr) (file_at : pystr -> W -> option bytes) (up : W -> Prop).
Hypothesis workdir_is : k_workdir k = rooted cs.
Hypothesis plain_workdir : Forall plain_name cs.

Lemma executed_runs toks command input failed w r w' : k_argv k toks (_exec_argv k command) ->
  executed k command input failed w = (r, w') ->
  exists o, k_runs k toks (encode_replace <$> input) w o w' /\
    (forall text, r = Ok text -> exists out, o = Some (out, 0%Z) /\ text = text_output out) /\
    (forall out, o = Some (out, 0%Z) -> r = Ok (text_output out)).
Proof using Type.
  intros Hargv. unfold executed, _run_kubectl. destruct (run_process _ _ _ w) as [oc w1] eqn:E.
  assert (forall o, o = match oc with Completed out _ rc => Some (out, rc) | _ => None end -> k_runs k toks (encode_replace <$> input) w o w1) as Hr
    by (intros o ->; by do 3 eexists).
  destruct oc as [out err rc| |e]; intros [= <- <-]; (eexists; split; [by apply Hr|]); (split; [|try done]); try done.
  - intros text. destruct (Z.eqb_spec rc 0) as [->|]; [|done]. intros [= <-]. by exists out.
  - intros out' [= -> ->]. done.
Qed.

Lemma absolute_denotes p a : _absolute_path k p = Ok a -> exists ds, denotes a ds /\ Forall plain_name ds /\ rooted (path_comps a) = rooted ds.
Proof using workdir_is plain_workdir.
  intros Ha. destruct (pod_paths_spec k cs p) as [_ Hd]; [done..|]. destruct (Hd a Ha) as [Hda HF]. exists (resolve cs p).
  split_and!; [done..|]. by rewrite (denotes_comps _ _ Hda (plain_segments _ HF)).
Qed.

Lemma text_at_stays (w w' : W) l : file_at l w' = file_at l w -> pod_text file_at l w' = pod_text file_at l w.
Proof using Type. unfold pod_text. by intros ->. Qed.
End KubernetesFacts.

Lemma written_text {W} `{Processes W} c : text_output (encode_replace c) = universal_newlines (map scrub c).
Proof. unfold text_output. by rewrite decode_encode_replace. Qed.

Lemma encoded_text {W} `{Processes W} c data : encode_utf8 c = Ok data -> text_output data = universal_newlines c.
Proof. intros E%utf8_decode_encode. unfold text_output. by rewrite E. Qed.


(** ** The Docker workspace implements the contract *)

(** A line run by [bash -c] in the container, without input, to its end or killed. *)
Definition d_runs {W} `{Processes W} (d : DockerWorkspace) (toks : list token) (input : option bytes) (w : W)
    (o : option (bytes * Z)) (w' : W) : Prop :=
  input = None /\ exists line timeout r, shell_read line = Some toks /\ run_to_end (d_wrapper d ++ [u "bash"; u "-c"; line]) None timeout w = (r, w') /\
    o = match r with Ended proc out _ => Some (out, default (-1)%Z (returncode proc w')) | _ => None end.

Definition d_location {W} (d : DockerWorkspace) (p : pystr) (_ : W) : option pystr := Some (rooted (path_comps (docker_absolute d p))).

(** A relative path without dots: nothing else is checked. *)
Definition plain_relative (p : pystr) : Prop := exists ks, Forall plain_name ks /\ ks <> [] /\ p = join [slash] ks.

Section DockerFacts.
Context `{PyRuntime} `{Globs} {W : Type} `{Processes W}.
Context (d : DockerWorkspace) (cs : list pystr) (file_at : pystr -> W -> option bytes) (up : W -> Prop).
Hypothesis exec_mode : d_exec d = true.
Hypothesis workdir_is : d_workdir d = rooted cs.
Hypothesis plain_workdir : Forall plain_name cs.
(** Reading the clock touches no file and stops no container. *)
Hypothesis clock_files : forall l w, file_at l (clock w).2 = file_at l w.
Hypothesis clock_up : forall w, up w -> up (clock w).2.

Lemma docker_absolute_plain p : plain_relative p ->
  exists ds, docker_absolute d p = rooted ds /\ Forall plain_name ds /\ rooted (path_comps (docker_absolute d p)) = rooted ds.
Proof using workdir_is plain_workdir.
  intros (ks & Hks & Hne & ->). exists (cs ++ ks). pose proof (plain_segments _ Hks) as Hs. pose proof (plain_segments _ plain_workdir) as Hc.
  assert (docker_absolute d (join [slash] ks) = rooted (cs ++ ks)) as E.
  { unfold docker_absolute. rewrite lstrip_join, workdir_is by done. destruct (decide (cs = [])) as [->|Hn]; [done|].
    assert (rstrip_with (N.eqb slash) (rooted cs) = rooted cs) as ->.
    { pose proof (rooted_no_end cs Hc Hn) as He. unfold ends_with in He. unfold rstrip_with.
      assert (drop_while (N.eqb slash) (rev (rooted cs)) = rev (rooted cs)) as ->; [|apply rev_involutive].
      change (rev [slash]) with [slash] in He. destruct (rev (rooted cs)) as [|x r]; [done|]. cbn [starts_with] in He.
      rewrite andb_true_r in He. apply bool_decide_eq_false_1 in He. cbn [drop_while]. by destruct (N.eqb_spec slash x). }
    unfold rooted. by rewrite join_app. }
  rewrite E. split_and!; [done|by apply Forall_app|]. rewrite path_comps_rooted; [done|]. by apply Forall_app.
Qed.

Lemma checked_runs toks line failed w r w' : shell_read line = Some toks -> checked d line failed w = (r, w') ->
  exists w1 o, d_runs d toks None (clock w).2 o w1 /\ (forall l, file_at l w' = file_at l w1) /\
    (forall text, r = Ok text -> exists out, o = Some (out, 0%Z) /\ text = text_output out) /\
    (forall out, o = Some (out, 0%Z) -> r = Ok (text_output out)).
Proof using clock_files.
  intros Hline. unfold checked, docker_run_command. destruct (clock w) as [started w0]. cbn [snd in_directory].
  destruct (run_to_end _ None None w0) as [rr w1] eqn:E. destruct rr as [e|e|proc out timed].
  - intros Er. exists w1, None. assert (w' = w1 /\ exists e', r = Err e') as [-> [e' ->]].
    { destruct (is_a e (u "OSError")); injection Er as <- <-; eauto. }
    split; [split; [done|]; by exists line, None, (NotStarted e)|]. done.
  - intros [= <- <-]. exists w1, None. split; [split; [done|]; by exists line, None, (NotKilled e)|]. done.
  - pose proof clock_files as Hcl. destruct (clock w1) as [now w2] eqn:Ec. intros [= <- <-].
    exists w1. eexists. split; [split; [done|]; by exists line, None, (Ended proc out timed)|]. split; [intros l; by rewrite <- (Hcl l w1), Ec|].
    cbn [cr_exit_code cr_output]. split.
    + intros text. destruct (Z.eqb_spec (default (-1)%Z (returncode proc w1)) 0) as [->|]; [|done]. intros [= <-]. by exists out.
    + by intros out' [= -> ->].
Qed.
End DockerFacts.

(** the Docker workspace is a map of texts, for relative paths without dots
    and texts that can be encoded; like the Kubernetes one it translates line
    ends. Nothing is stated for other paths, which the workspace does not refuse. *)
Theorem docker_workspace_implements `{PyRuntime} `{Globs} {W : Type} `{Processes W} d cs
    (file_at : pystr -> W -> option bytes) up :
  d_exec d = true -> d_workdir d = rooted cs -> Forall plain_name cs ->
  (forall l w, file_at l (clock w).2 = file_at l w) -> (forall w, up w -> up (clock w).2) ->
  unix_files file_at up (d_runs d) ->
  contract (W := W) d plain_relative (d_location d) (pod_text file_at)
    (fun c => is_ok (encode_utf8 c) = true) universal_newlines up.
Proof.
  intros Hx Hd Hcs Hcf Hcu U. constructor; cbn [ws_read_text ws_write_text ws_delete_file docker_workspace].
  - intros p w r w' Hp. destruct (docker_absolute_plain d cs Hd Hcs p Hp) as (ds & Ea & HF & El).
    unfold docker_read_text, d_location. rewrite Hx, El, Ea. cbn [negb]. intros E.
    eapply (checked_runs d file_at Hcf) in E as (w1 & o & Hrun & Hw & Hok & _); [|apply cat_line].
    destruct (u_cat _ _ _ U _ _ _ _ _ _ (or_introl eq_refl) HF Hrun) as (Hsame & Hout & _). split.
    + intros l. apply text_at_stays. by rewrite Hw, Hsame.
    + intros text Hr. destruct (Hok text Hr) as (out & Ho & ->). exists (rooted ds). split; [done|]. unfold pod_text.
      by rewrite <- (Hcf _ w), (Hout out Ho).
  - intros p w l text Hp Hup. destruct (docker_absolute_plain d cs Hd Hcs p Hp) as (ds & Ea & HF & El).
    unfold docker_read_text, d_location. rewrite Hx, El, Ea. cbn [negb]. intros [= <-]. unfold pod_text.
    destruct (file_at (rooted ds) w) as [data|] eqn:Ef; [|done]. intros [= <-].
    destruct (checked d _ _ w) as [r w'] eqn:E. eapply (checked_runs d file_at Hcf) in E as (w1 & o & Hrun & _ & _ & Hres); [|apply cat_line].
    destruct (u_cat _ _ _ U _ _ _ _ _ _ (or_introl eq_refl) HF Hrun) as (_ & _ & Hc). apply Hres, Hc; [by apply Hcu|by rewrite Hcf].
  - intros p c w r w' Hp. destruct (docker_absolute_plain d cs Hd Hcs p Hp) as (ds & Ea & HF & El).
    unfold docker_write_text, d_location. rewrite Hx, El, Ea. cbn [negb]. cbv zeta. destruct (checked d _ _ w) as [r1 w1] eqn:E1.
    eapply (checked_runs d file_at Hcf) in E1 as (v1 & o1 & Hrun1 & Hv1 & _ & _); [|apply mkdir_line].
    pose proof (u_mkdir _ _ _ U _ _ _ _ _ Hrun1) as Hm.
    destruct r1 as [t1|e1]; [|intros [= <- <-]; split; [|done]; intros l _; apply text_at_stays; by rewrite Hv1, Hm, Hcf].
    destruct (checked d _ _ w1) as [r2 w2] eqn:E2. intros [= <- <-].
    eapply (checked_runs d file_at Hcf) in E2 as (v2 & o2 & Hrun2 & Hv2 & Hok & _); [|apply printf_line].
    destruct (u_printf _ _ _ U _ _ _ _ _ _ _ (or_introl eq_refl) HF Hrun2) as (Hsame & Hw). split.
    + intros l Hl. apply text_at_stays. rewrite Hv2, Hsame, Hcf, Hv1, Hm, Hcf; congruence.
    + destruct r2 as [t2|]; [|done]. intros _ Hc. destruct (Hok t2 eq_refl) as (out & Ho & _).
      destruct (encode_utf8 c) as [data|] eqn:Ee; [|done]. exists (rooted ds). split; [done|]. unfold pod_text.
      rewrite Hv2, (Hw out data Ho eq_refl). simpl. by erewrite encoded_text.
  - intros p w r w' Hp. destruct (docker_absolute_plain d cs Hd Hcs p Hp) as (ds & Ea & HF & El).
    unfold docker_delete_file, d_location. rewrite Hx, El, Ea. cbn [negb]. destruct (checked d _ _ w) as [r1 w1] eqn:E. intros [= <- <-].
    eapply (checked_runs d file_at Hcf) in E as (v1 & o1 & Hrun & Hv1 & Hok & _); [|apply rm_line].
    destruct (u_rm _ _ _ U _ _ _ _ _ _ (or_introl eq_refl) HF Hrun) as (Hsame & Hw). split.
    + intros l Hl. apply text_at_stays. rewrite Hv1, Hsame, Hcf; congruence.
    + destruct r1 as [t|]; [|done]. intros _. destruct (Hok t eq_refl) as (out & Ho & _). exists (rooted ds). split; [done|].
      unfold pod_text. by rewrite Hv1, (Hw out Ho).
  - done.
Qed.

(** ** A pod *)

Module Pod.
(** Files by their real path, and the output and code of the last process. *)
Record Pod := MkPod { files : list (pystr * bytes); last_output : bytes; last_code : Z }.

Definition real (p : pystr) : pystr := rooted (resolve [] p).

(** The few commands the workspaces use. *)
Definition run_tokens (toks : list token) (input : bytes) (fs : list (pystr * bytes)) : bytes * Z * list (pystr * bytes) :=
  match toks with
  | [Word a; Word p] =>
    if bool_decide (a = u "cat") then match dict_get (real p) fs with Some data => (data, 0%Z, fs) | None => ([], 1%Z, fs) end
    else ([], 127%Z, fs)
  | [Word a; Word b; Word p] =>
    if bool_decide (a = u "rm" /\ b = u "--") then if dict_has (real p) fs then ([], 0%Z, dict_pop (real p) fs) else ([], 1%Z, fs)
    else if bool_decide (a = u "mkdir") then ([], 0%Z, fs) else ([], 127%Z, fs)
  | [Word a; Word b; Word text; Operator _; Word p] =>
    if bool_decide (a = u "printf" /\ b = u "%s") then
      match encode_utf8 text with Ok data => ([], 0%Z, dict_set (real p) data fs) | Err _ => ([], 1%Z, fs) end
    else ([], 127%Z, fs)
  | [Word a; Word b; Word _; Operator _; Word c; Operator _; Word p] =>
    if bool_decide (a = u "mkdir" /\ c = u "cat") then ([], 0%Z, dict_set (real p) input fs) else ([], 127%Z, fs)
  | _ => ([], 127%Z, fs)
  end.

Fixpoint behind (argv : list pystr) : list pystr :=
  match argv with [] => [] | a :: argv' => if bool_decide (a = u "--") then argv' else behind argv' end.

(** A shell line, or the words behind the dashes of [kubectl exec]. *)
Definition meant (argv : list pystr) : list token :=
  match rev argv with
  | line :: flag :: _ => if bool_decide (flag = u "-c") then default [] (shell_read line) else map Word (behind argv)
  | _ => []
  end.

Definition run_argv (argv : list pystr) (input : bytes) (w : Pod) : Pod :=
  let '(out, rc, fs) := run_tokens (meant argv) input (files w) in MkPod fs out rc.

#[export] Instance processes : Processes Pod := {|
  run_process argv input _ w := let w' := run_argv argv (default [] input) w in (Completed (last_output w') [] (last_code w'), w');
  spawn argv _ w := (Ok 0, run_argv argv [] w);
  communicate _ _ w := (Some (last_output w), w);
  killpg _ w := (Ok tt, w);
  wait_output _ w := (last_output w, w);
  returncode _ w := Some (last_code w);
  clock w := (S754_zero false, w);
  round3 f := f;
  is_a e c := bool_decide (exn_type e = c);
  replace_invalid _ := [];
|}.

#[export] Instance no_globs : Globs := {| fnmatch name pattern := bool_decide (name = pattern) |}.
#[export] Instance runtime : PyRuntime := decoding_runtime [].

Definition file_at (l : pystr) (w : Pod) : option bytes := dict_get l (files w).

Definition k : KubernetesWorkspace := {|
  k_pod_name := u "pod"; k_namespace := None; k_container := None; k_workdir := rooted [u "workspace"]; k_timeout := JInt 30 |}.
Definition d : DockerWorkspace := {|
  d_exec := true; d_workdir := rooted [u "workspace"]; d_wrapper := [u "docker"; u "exec"; u "-i"; u "box"] |}.

Lemma real_denotes p cs : denotes p cs -> Forall plain_name cs -> real p = rooted cs.
Proof.
  intros Hd HF. unfold real. rewrite <- (norm_comps_resolve p (denotes_abs _ _ Hd)). f_equal.
  destruct Hd as [->| ->]; [by apply norm_comps_rooted|]. unfold norm_comps.
  rewrite (denotes_abs (slash :: rooted cs) cs) by by right. change (slash :: rooted cs) with ([] ++ slash :: rooted cs).
  rewrite split_on_app, foldl_app. cbn [split_on foldl]. replace (norm_step true [] []) with (@nil pystr) by done.
  pose proof (norm_comps_rooted cs HF) as Hn. unfold norm_comps in Hn. by rewrite isabs_rooted in Hn.
Qed.

Lemma meant_line pre line toks : shell_read line = Some toks -> meant (pre ++ [u "-c"; line]) = toks.
Proof. intros Hl. unfold meant. rewrite rev_app_distr. simpl. by rewrite Hl. Qed.

(** [words] is run, and its last but one is not a shell's flag. *)
Definition direct (words : list pystr) : Prop := match rev words with _ :: flag :: _ => flag <> u "-c" | _ => False end.

Lemma meant_words words : direct words -> meant (_exec_argv k words) = map Word words.
Proof.
  unfold direct, meant. change (_exec_argv k words) with ([u "kubectl"; u "exec"; u "pod"; u "--"] ++ words). rewrite rev_app_distr.
  destruct (rev words) as [|line [|flag r]]; [done..|]. intros Hf. cbn [app]. by rewrite bool_decide_eq_false_2.
Qed.

(** What [kubectl exec] and [docker exec] leave in the pod. *)
Lemma k_runs_run toks input w o w' : (forall words, toks = map Word words -> direct words) -> k_runs k toks input w o w' ->
  exists out rc fs, run_tokens toks (default [] input) (files w) = (out, rc, fs) /\ o = Some (out, rc) /\ files w' = fs.
Proof.
  intros Hdir (argv & t & r & Hargv & [= <- <-] & ->). assert (meant argv = toks) as Hm.
  { destruct Hargv as [(words & -> & ->)|(line & Hl & ->)]; [by apply meant_words, Hdir|].
    by apply (meant_line [u "kubectl"; u "exec"; u "pod"; u "--"; u "sh"]). }
  unfold run_argv. rewrite Hm. destruct (run_tokens toks _ _) as [[out rc] fs]. by do 3 eexists.
Qed.

Lemma d_runs_run toks input w o w' : d_runs d toks input w o w' ->
  input = None /\ exists out rc fs, run_tokens toks [] (files w) = (out, rc, fs) /\ o = Some (out, rc) /\ files w' = fs.
Proof.
  intros (Hi & line & t & r & Hl & E & ->).
  assert (meant (d_wrapper d ++ [u "bash"; u "-c"; line]) = toks) as Hm
    by by apply (meant_line [u "docker"; u "exec"; u "-i"; u "box"; u "bash"]).
  remember (d_wrapper d ++ _) as argv. injection E as <- <-. unfold run_argv. rewrite Hm.
  destruct (run_tokens toks [] _) as [[out rc] fs]. split; [done|]. by do 3 eexists.
Qed.

(** Any way of running commands that agrees with [run_tokens]. *)
Lemma unix_pod (runs : list token -> option bytes -> Pod -> option (bytes * Z) -> Pod -> Prop) :
  (forall toks input w o w', (forall words, toks = map Word words -> direct words) -> runs toks input w o w' ->
    exists i out rc fs, (forall data, input = Some data -> i = data) /\
      run_tokens toks i (files w) = (out, rc, fs) /\ o = Some (out, rc) /\ files w' = fs) ->
  unix_files file_at (fun _ => True) runs.
Proof.
  intros Hruns. constructor; unfold file_at.
  - intros p cs input w o w' Hd HF (i & out & rc & fs & _ & E & -> & Hf)%Hruns; [|intros [|a [|b [|]]]; try done; by intros [= <- <-]].
    cbn in E. rewrite Hf, (real_denotes p cs Hd HF) in *. destruct (dict_get (rooted cs) (files w)) as [data|] eqn:Eg; injection E as <- <- <-.
    + split_and!; [done|by intros ? [= <-]|by intros ? _ [= <-]].
    + split_and!; done.
  - intros q input w o w' (i & out & rc & fs & _ & E & -> & Hf)%Hruns l; [|intros [|a [|b [|c [|]]]]; try done; by intros [= <- <- <-]].
    cbn in E. rewrite Hf. by injection E as <- <- <-.
  - intros q p cs input w o w' Hd HF (i & out & rc & fs & Hi & E & -> & Hf)%Hruns.
    2: { intros [|a1 [|a2 [|a3 [|a4 l]]]]; done. }
    cbn in E. rewrite Hf, (real_denotes p cs Hd HF) in *. injection E as <- <- <-. split.
    + intros l Hl. by rewrite dict_get_set_ne.
    + intros out _. rewrite dict_get_set_eq. by rewrite (Hi input).
  - intros text p cs input w o w' Hd HF (i & out & rc & fs & _ & E & -> & Hf)%Hruns.
    2: { intros [|a1 [|a2 [|a3 [|a4 l]]]]; done. }
    cbn in E. rewrite Hf, (real_denotes p cs Hd HF) in *. destruct (encode_utf8 text) as [data|]; injection E as <- <- <-; (split; [|try done]).
    + intros l Hl. by rewrite dict_get_set_ne.
    + intros ? ? _ [= <-]. by rewrite dict_get_set_eq.
    + done.
  - intros p cs input w o w' Hd HF (i & out & rc & fs & _ & E & -> & Hf)%Hruns; [|intros [|a [|b [|c [|]]]]; try done; by intros [= <- <- <-]].
    cbn in E. rewrite Hf, (real_denotes p cs Hd HF) in *. destruct (dict_has (rooted cs) (files w)); injection E as <- <- <-; (split; [|try done]).
    + intros l Hl. by rewrite dict_get_pop, decide_False.
    + intros ? _. by rewrite dict_get_pop, decide_True.
    + done.
Qed.

Lemma pod_unix : unix_files file_at (fun _ => True) (k_runs k).
Proof.
  apply unix_pod. intros toks input w o w' Hd (out & rc & fs & E & Ho & Hf)%k_runs_run; [|done].
  exists (default [] input), out, rc, fs. split; [by intros data ->|done].
Qed.

Lemma box_unix : unix_files file_at (fun _ => True) (d_runs d).
Proof.
  apply unix_pod. intros toks input w o w' _ (-> & out & rc & fs & E & Ho & Hf)%d_runs_run. by exists [], out, rc, fs.
Qed.

Lemma plain_root : Forall plain_name [u "workspace"].
Proof. apply (bool_decide_unpack _). vm_compute. exact I. Qed.

Definition some_files : Pod := MkPod [(u "/workspace/a.txt", u "hi"); (u "/etc/passwd", u "root")] [] 0.

Lemma pod_paths_contained_witness :
  is_ok (_absolute_path k (u "sub/../a.txt")) = true /\ is_ok (_absolute_path k (u "../etc")) = false /\
  [u "workspace"] `prefix_of` resolve [u "workspace"] (u "sub/../a.txt").
Proof.
  split; [vm_compute; reflexivity|]. split; [vm_compute; reflexivity|].
  apply (pod_paths_contained k [u "workspace"] (u "sub/../a.txt") eq_refl plain_root). vm_compute. reflexivity.
Defined.


Lemma docker_workspace_implements_witness :
  contract (W := Pod) d plain_relative (d_location d) (pod_text file_at)
    (fun c => is_ok (encode_utf8 c) = true) universal_newlines (fun _ => True).
Proof.
  apply (docker_workspace_implements d [u "workspace"] file_at (fun _ => True)); [reflexivity|reflexivity|exact plain_root|done|done|exact box_unix].
Defined.

(** Every path is refused when the working directory starts with two slashes,
    which normalizing keeps and the comparison does not. *)
Example double_slash_root_refuses_all :
  match new_kubernetes (u "pod") None None (u "//workspace") (JInt 30) with
  | Ok k => map (fun p => is_ok (_absolute_path k p)) [u "a.txt"; u "."; u "//workspace/a.txt"]
  | Err _ => []
  end = [false; false; false].
Proof. vm_compute. reflexivity. Qed.

(** a text with CR LF line ends is read back with LF line ends, in a pod as in a
    container: an edit of such a file rewrites every line. *)
Example crlf_is_lost :
  let text := u "one" ++ [13; 10]%N ++ u "two" ++ [13; 10]%N in
  let lf := u "one" ++ [10]%N ++ u "two" ++ [10]%N in
  let '(r, w) := ws_write_text k (u "f") text some_files in
  r = Ok tt /\ (ws_read_text k (u "f") w).1 = Ok lf /\ file_at (u "/workspace/f") w = Some text /\ (ws_read_text d (u "f") w).1 = Ok lf.
Proof. vm_compute. done. Qed.

(** the Docker workspace reads, writes and deletes outside its working directory. *)
Example docker_paths_escape :
  (ws_read_text d (u "../etc/passwd") some_files).1 = Ok (u "root") /\
  file_at (u "/etc/passwd") (ws_write_text d (u "../etc/passwd") (u "x") some_files).2 = Some (u "x") /\
  file_at (u "/etc/passwd") (ws_delete_file d (u "../etc/passwd") some_files).2 = None /\
  _absolute_path k (u "../etc/passwd") = Err (outside_root (u "../etc/passwd") (k_workdir k)).
Proof. vm_compute. done. Qed.

(** dot directories cannot be listed in a Docker workspace: their dot is stripped. *)
Example docker_lists_another_directory : listed_directory d (u ".github") = u "/workspace/github" /\ listed_directory d (u "..") = u "/workspace/".
Proof. vm_compute. done. Qed.

(** the socket of the Docker daemon may not be mounted, but its directory may. *)
Example socket_directory_mounted :
  let plain source := Ok source in
  is_ok (_validate_volume plain (u "/run/docker.sock:/s") false) = false /\ is_ok (_validate_volume plain (u "/run:/host") false) = true /\
  is_ok (_validate_volume plain (u "/etc/ssl:/ssl") false) = false.
Proof. vm_compute. done. Qed.
End Pod.
