(* ===== verification/Terminal.v ===== *)
(** * The terminal tool (kinetic_sdk/terminal/tool.py)

    [TerminalTool.execute], through a workspace (any [WorkspaceBase]) or through a
    process on the host, with the cut of long output. *)

From stdpp Require Import base gmap strings list.
From Stdlib Require Import ZArith Lia SpecFloat.
From S2P Require Import Prelude Json Types Patch Budgets Workspace Containers.

Section Terminal.
Context `{PyRuntime} `{Numerals} {Ws W : Type} `{!WorkspaceBase Ws W} `{!Processes W}.

Record TerminalTool := {
  t_workspace : option Ws;
  t_timeout : pyfloat;
  t_max_timeout : pyfloat;
  t_max_output_chars : Z;
  t_env : option (list (pystr * pystr));
  t_command_wrapper : list pystr;
}.

Definition fl_positive (f : pyfloat) : bool := negb (fl_le f (S754_zero false)).

Definition new_terminal (workspace : option Ws) (timeout max_timeout : pyfloat) (max_output_chars : Z)
    (env : option (list (pystr * pystr))) (command_wrapper : option (list pystr)) : result TerminalTool :=
  if negb (fl_positive timeout) || negb (fl_positive max_timeout) then Err (value_error (u "timeout values must be positive"))
  else if fl_lt max_timeout timeout then Err (value_error (u "timeout must not exceed max_timeout"))
  else if (max_output_chars <? 200)%Z then Err (value_error (u "max_output_chars must be >= 200"))
  else Ok {| t_workspace := workspace; t_timeout := timeout; t_max_timeout := max_timeout;
             t_max_output_chars := max_output_chars; t_env := env; t_command_wrapper := default [] command_wrapper |}.

(** [float(v)]. *)
Definition float_of (v : json) : result pyfloat :=
  match v with
  | JStr s => parse_float s
  | _ => match as_float (Some v) with
         | Some r => r
         | None => Err (PyExn (u "TypeError") (u "float() argument must be a string or a real number"))
         end
  end.

(** [self.timeout if timeout is None else min(float(timeout), self.max_timeout)]. *)
Definition effective_timeout (t : TerminalTool) (timeout : option json) : result pyfloat :=
  match timeout with
  | None => Ok (t_timeout t)
  | Some v => f <-! float_of v ;; Ok (if fl_lt (t_max_timeout t) f then t_max_timeout t else f)
  end.

Definition cut_marker (omitted : Z) : pystr :=
  [10%N] ++ u "[... " ++ dec omitted ++ u " ký tự ở giữa đã được cắt bớt ...]" ++ [10%N].

Definition _truncate (t : TerminalTool) (text : pystr) : pystr * bool :=
  let m := t_max_output_chars t in
  if (zlen text <=? m)%Z then (text, false)
  else
    let head := (m * 2 / 3)%Z in
    let tail := (m - head)%Z in
    (slice_to head text ++ cut_marker (zlen text - head - tail) ++ slice_last tail text, true).

Definition ran (out : pystr) (err : option pystr) (metadata : jdict) : ToolResult := {|
  output := JStr out; error := err; tr_metadata := metadata; failure_category := None; duration_seconds := None; artifacts := [] |}.

(** [{..., **result.metadata}]. *)
Definition merged (base extra : jdict) : jdict := foldl (fun d kv => dict_set kv.1 kv.2 d) base extra.

Definition timed_out_after (f : pyfloat) : pystr := u "command timed out after " ++ py_str (JFloat f) ++ u "s".
Definition exited_with (code : Z) : pystr := u "command exited with code " ++ dec code.

(** The outcome of a command that the workspace ran. *)
Definition workspace_result (t : TerminalTool) (f : pyfloat) (r : CommandResult) : ToolResult :=
  let '(out, truncated_here) := _truncate t (cr_output r) in
  let metadata := merged [(u "exit_code", JInt (cr_exit_code r)); (u "duration_seconds", JFloat (cr_duration_seconds r));
                          (u "timed_out", JBool (cr_timed_out r)); (u "truncated", JBool (cr_truncated r || truncated_here))]
                         (cr_metadata r) in
  match cr_error r with
  | Some e => ran out (Some e) metadata
  | None =>
    if cr_timed_out r then ran out (Some (timed_out_after f)) metadata
    else if negb (cr_exit_code r =? 0)%Z then ran out (Some (exited_with (cr_exit_code r))) metadata
    else ran out None metadata
  end.

(** The outcome of a process on the host: [code] is its return code, which may be absent. *)
Definition host_result (t : TerminalTool) (f : pyfloat) (out : pystr) (timed_out : bool) (code : option Z) (duration : pyfloat) : ToolResult :=
  let '(out, truncated) := _truncate t out in
  let metadata := [(u "exit_code", match code with Some c => JInt c | None => JNull end); (u "duration_seconds", JFloat (round3 duration));
                   (u "timed_out", JBool timed_out); (u "truncated", JBool truncated)] in
  if timed_out then ran out (Some (timed_out_after f ++ u " (process group killed)")) metadata
  else match code with
       | Some 0%Z => ran out None metadata
       | Some c => ran out (Some (exited_with c)) metadata
       | None => ran out (Some (u "command exited with code None")) metadata
       end.

Definition execute (t : TerminalTool) (command : json) (timeout : option json) (w : W) : result ToolResult * W :=
  match command with
  | JStr c =>
    if bool_decide (strip c = []) then (Ok (error_result (u "command must be a non-empty string")), w)
    else
      match effective_timeout t timeout with
      | Err e => (Err e, w)
      | Ok f =>
        if fl_le f (S754_zero false) then (Ok (error_result (u "timeout must be positive")), w)
        else
          match t_workspace t with
          | Some ws =>
            match ws_run_command ws c (Some (JFloat f)) None w with
            | (Err e, w') =>
              (if is_a e (u "WorkspaceError") then Ok (error_result (u "workspace command failed: " ++ exn_msg e)) else Err e, w')
            | (Ok r, w') => (Ok (workspace_result t f r), w')
            end
          | None =>
            let '(started, w0) := clock w in
            match run_to_end (t_command_wrapper t ++ [u "bash"; u "-c"; c]) (t_env t) (Some (JFloat f)) w0 with
            | (NotStarted e, w1) =>
              (if is_a e (u "OSError") then Ok (error_result (u "failed to start shell: " ++ exn_msg e)) else Err e, w1)
            | (NotKilled e, w1) => (Err e, w1)
            | (Ended proc out timed_out, w1) =>
              let '(now, w2) := clock w1 in
              (Ok (host_result t f (text_output out) timed_out (returncode proc w1) (fl_sub now started)), w2)
            end
          end
      end
  | _ => (Ok (error_result (u "command must be a non-empty string")), w)
  end.
End Terminal.
Arguments TerminalTool : clear implicits.

(** ** Theorems *)

Section TerminalFacts.
Context `{PyRuntime} `{Numerals} {Ws W : Type} `{!WorkspaceBase Ws W} `{!Processes W}.

(** Whatever the model asks for, a command never gets more than [max_timeout]; a
    timeout that is not a number is not above it either. *)
Lemma timeout_is_capped workspace timeout max_timeout chars env wrapper (t : TerminalTool Ws) asked f :
  new_terminal workspace timeout max_timeout chars env wrapper = Ok t -> effective_timeout t asked = Ok f ->
  fl_lt max_timeout f = false.
Proof using Type.
  unfold new_terminal. destruct (_ || _); [done|]. destruct (fl_lt max_timeout timeout) eqn:El; [done|]. destruct (_ <? _)%Z; [done|].
  intros [= <-]. unfold effective_timeout. cbn [t_timeout t_max_timeout]. destruct asked as [v|]; [|by intros [= <-]].
  destruct (float_of v) as [x|]; [|done]. cbn [rbind]. intros [= <-]. destruct (fl_lt max_timeout x) eqn:E; [|done].
  unfold fl_lt, SFltb. destruct max_timeout as [|[]| |s m e]; simpl; try done; by destruct s; rewrite ?Z.compare_refl, ?Pos.compare_refl.
Qed.

(** Long output keeps its two ends, which together have the configured length,
    and says how much is missing; short output is not touched. *)
Lemma truncate_spec (t : TerminalTool Ws) text : (200 <= t_max_output_chars t)%Z ->
  (zlen text <= t_max_output_chars t)%Z /\ _truncate t text = (text, false) \/
  exists a cut b, text = a ++ cut ++ b /\ (0 < zlen cut)%Z /\ (zlen a + zlen b = t_max_output_chars t)%Z /\
    _truncate t text = (a ++ cut_marker (zlen cut) ++ b, true).
Proof using Type.
  intros Hm. unfold _truncate. destruct (Z.leb_spec (zlen text) (t_max_output_chars t)) as [Hl|Hl]; [by left|right].
  set (m := t_max_output_chars t) in *. set (h := (m * 2 / 3)%Z).
  assert (0 < h < m)%Z as Hh by (unfold h; split; [apply Z.div_str_pos; lia|apply Z.div_lt_upper_bound; lia]).
  exists (slice_to h text), (take (Z.to_nat (zlen text - m)) (drop (Z.to_nat h) text)), (slice_last (m - h) text).
  assert (slice_to h text = take (Z.to_nat h) text) as E1 by (unfold slice_to, ztake; by destruct (Z.ltb_spec h 0); [lia|]).
  assert (slice_last (m - h) text = drop (Z.to_nat (zlen text - m)) (drop (Z.to_nat h) text)) as E2.
  { destruct (slice_last_suffix (m - h) text) as [r Hr]. pose proof (zlen_slice_last (m - h) text ltac:(lia)) as Hz.
    rewrite drop_drop. replace (Z.to_nat h + Z.to_nat (zlen text - m)) with (length r).
    - by rewrite Hr at 2; rewrite drop_app_length.
    - apply (f_equal zlen) in Hr. rewrite zlen_app in Hr. unfold zlen in *. lia. }
  assert (zlen (take (Z.to_nat (zlen text - m)) (drop (Z.to_nat h) text)) = zlen text - m)%Z as E3.
  { unfold zlen. rewrite length_take, length_drop. unfold zlen in *. lia. }
  split_and!.
  - by rewrite E1, E2, take_drop, take_drop.
  - lia.
  - rewrite zlen_slice_to, zlen_slice_last by lia. lia.
  - do 3 f_equal. f_equal. lia.
Qed.

(** A command the workspace ran to its end without a complaint. *)
Definition clean (r : CommandResult) : Prop := cr_error r = None /\ cr_timed_out r = false /\ cr_exit_code r = 0%Z.

Lemma workspace_result_clean (t : TerminalTool Ws) f r :
  error (workspace_result t f r) = None <-> clean r.
Proof using Type.
  unfold workspace_result, clean. destruct (_truncate t (cr_output r)) as [out cut]. destruct (cr_error r); [by split; [|intros []]|].
  destruct (cr_timed_out r); [by split; [|intros (_ & ? & _)]|]. destruct (Z.eqb_spec (cr_exit_code r) 0); simpl; [done|].
  by split; [|intros (_ & _ & ?)].
Qed.

Lemma workspace_result_output (t : TerminalTool Ws) f r : output (workspace_result t f r) = JStr (_truncate t (cr_output r)).1.
Proof using Type.
  unfold workspace_result. destruct (_truncate t (cr_output r)) as [out cut]. destruct (cr_error r), (cr_timed_out r), (negb (cr_exit_code r =? 0)%Z); done.
Qed.
End TerminalFacts.

(** the terminal reports a success exactly when the command succeeded. Through
    a workspace, the result has no error if and only if the command was accepted,
    the workspace ran it, within the cap, and it ended by itself with code 0; the
    output is then the command's, cut in the middle if it is too long. *)
Theorem terminal_success_is_exit_zero `{PyRuntime} `{Numerals} {Ws W : Type} `{!WorkspaceBase Ws W} `{!Processes W}
    (t : TerminalTool Ws) ws c asked (w w' : W) r :
  t_workspace t = Some ws -> execute t (JStr c) asked w = (Ok r, w') ->
  error r = None <->
  exists f result, strip c <> [] /\ effective_timeout t asked = Ok f /\ fl_positive f = true /\
    ws_run_command ws c (Some (JFloat f)) None w = (Ok result, w') /\ clean result /\ output r = JStr (_truncate t (cr_output result)).1.
Proof.
  intros Hws. unfold execute, fl_positive. case_bool_decide as Hc; [intros [= <- <-]; split; [done|intros (? & ? & ? & _); done]|].
  destruct (effective_timeout t asked) as [f|e]; [|done].
  destruct (fl_le f (S754_zero false)) eqn:Ef; [intros [= <- <-]; split; [done|intros (f' & ? & _ & [= <-] & Hp & _); by rewrite Ef in Hp]|].
  rewrite Hws. destruct (ws_run_command ws c _ None w) as [[res|e] w1] eqn:Er.
  - intros [= <- <-]. rewrite workspace_result_clean. split.
    + intros Hcl. exists f, res. split_and!; [done|done|by rewrite Ef|done|done|apply workspace_result_output].
    + intros (f' & res' & _ & [= <-] & _ & Hr & Hcl & _). rewrite Er in Hr. by injection Hr as <-.
  - destruct (is_a e (u "WorkspaceError")); [|done]. intros [= <- <-]. split; [done|].
    intros (f' & res' & _ & [= <-] & _ & Hr & _). by rewrite Er in Hr.
Qed.

(** ** Scenarios *)

Module TerminalInPod.
Import Pod.

#[export] Instance numerals : Numerals := {| parse_float _ := Err (value_error []); parse_int _ := Err (value_error []) |}.

Definition tool : TerminalTool DockerWorkspace := {|
  t_workspace := Some d; t_timeout := fl_of_Z 120; t_max_timeout := fl_of_Z 600; t_max_output_chars := 200; t_env := None;
  t_command_wrapper := [] |}.

Definition shown : result ToolResult * Pod := execute tool (JStr (u "cat /workspace/a.txt")) None some_files.
Definition shown_result : ToolResult := match shown.1 with Ok r => r | Err _ => error_result [] end.

Lemma terminal_success_is_exit_zero_witness :
  shown.1 = Ok shown_result /\ output shown_result = JStr (u "hi") /\ exists f result,
    ws_run_command d (u "cat /workspace/a.txt") (Some (JFloat f)) None some_files = (Ok result, shown.2) /\ clean result.
Proof.
  split; [vm_compute; reflexivity|]. split; [vm_compute; reflexivity|].
  assert (execute tool (JStr (u "cat /workspace/a.txt")) None some_files = (Ok shown_result, shown.2)) as E by (vm_compute; reflexivity).
  assert (error shown_result = None) as Hn by (vm_compute; reflexivity).
  apply (terminal_success_is_exit_zero tool d (u "cat /workspace/a.txt") None some_files shown.2 shown_result (eq_refl : t_workspace tool = Some d) E) in Hn
    as (f & result & _ & _ & _ & Hr & Hc & _).
  exists f, result. split; [exact Hr|exact Hc].
Defined.

Example failure_reported :
  match execute tool (JStr (u "cat /workspace/nothing")) None some_files with
  | (Ok r, _) => error r = Some (u "command exited with code 1")
  | _ => False
  end.
Proof. vm_compute. reflexivity. Qed.

(** a timeout that is not a number, which [json.loads] reads from [NaN], passes
    both checks. *)
Example nan_timeout_passes : effective_timeout tool (Some (JFloat S754_nan)) = Ok S754_nan /\ fl_positive S754_nan = true.
Proof. vm_compute. done. Qed.
End TerminalInPod.
