(* ===== verification/WebSocket.v ===== *)
(** * WebSocket frames of the agent server (kinetic_sdk/server/app.py, third part)

    [_ws_receive] and [_ws_send] against frames as RFC 6455 lays them out. *)

From stdpp Require Import base gmap strings list.
From Stdlib Require Import ZArith Lia ZifyN ZifyNat ZifyBool.
From S2P Require Import Prelude Utf8.

#[local] Open Scope N_scope.

(** ** [struct.pack] and [struct.unpack], big endian *)

Fixpoint be_bytes (k : nat) (n : N) : bytes :=
  match k with O => [] | S k' => n / 256 ^ N.of_nat k' mod 256 :: be_bytes k' n end.

Definition be_value (bs : bytes) : N := foldl (fun acc b => acc * 256 + b) 0 bs.

Definition nlen {A} (l : list A) : N := N.of_nat (length l).

Definition struct_error : pyexn := PyExn (u "error") (u "unpack requires a buffer").

(** [struct.unpack(fmt, self.rfile.read(k))[0]] and what is left to read. *)
Definition unpack (k : nat) (input : bytes) : result (N * bytes) :=
  if (length (take k input) =? k)%nat then Ok (be_value (take k input), drop k input) else Err struct_error.

(** ** Receiving *)

(** [bytes(byte ^ mask[i % 4] for i, byte in enumerate(data))]; a short mask raises. *)
Fixpoint unmask_from (i : nat) (mask data : bytes) : result bytes :=
  match data with
  | [] => Ok []
  | b :: data' =>
    match mask !! (i mod 4)%nat with
    | Some m => rest <-! unmask_from (S i) mask data' ;; Ok (N.lxor b m :: rest)
    | None => Err (PyExn (u "IndexError") (u "index out of range"))
    end
  end.

Definition unicode_decode_error : pyexn := PyExn (u "UnicodeDecodeError") [].

(** The text of the next frame, if it is a complete text frame, and what is left. *)
Definition _ws_receive (input : bytes) : result (option pystr * bytes) :=
  match input with
  | h0 :: h1 :: input =>
    if N.land h0 15 =? 8 then Ok (None, input)
    else if negb (N.land h0 15 =? 1) then Ok (None, input)
    else
      let short := N.land h1 127 in
      counted <-! (if short =? 126 then unpack 2 input
                   else if short =? 127 then unpack 8 input else Ok (short, input)) ;;
      let len := counted.1 in
      let input := counted.2 in
      let masked := N.testbit h1 7 in
      let mask := if masked then take 4 input else [] in
      let input := if masked then drop 4 input else input in
      let data := take (N.to_nat len) input in
      let input := drop (N.to_nat len) input in
      if negb (nlen data =? len) then Ok (None, input)
      else
        data <-! (if masked then unmask_from 0 mask data else Ok data) ;;
        match decode_utf8 data with
        | Some text => Ok (Some text, input)
        | None => Err unicode_decode_error
        end
  | _ => Ok (None, [])
  end.

(** ** Sending *)

(** [struct.pack] refuses a number that does not fit. *)
Definition pack (k : nat) (n : N) : result bytes :=
  if n <? 256 ^ N.of_nat k then Ok (be_bytes k n) else Err (PyExn (u "error") (u "argument out of range")).

Definition frame_header (mask_bit len : N) : result bytes :=
  if len <? 126 then Ok [129; mask_bit + len]
  else if len <=? 65535 then ext <-! pack 2 len ;; Ok ([129; mask_bit + 126] ++ ext)
  else ext <-! pack 8 len ;; Ok ([129; mask_bit + 127] ++ ext).

(** The bytes [_ws_send] gives to [sendall]. *)
Definition _ws_send (text : pystr) : result bytes :=
  data <-! encode_utf8 text ;; header <-! frame_header 0 (nlen data) ;; Ok (header ++ data).

(** ** A client's frames

    A client masks what it sends with four bytes of its choice (RFC 6455, 5.3). *)

Fixpoint mask_from (i : nat) (mask : nat -> N) (data : bytes) : bytes :=
  match data with [] => [] | b :: data' => N.lxor b (mask (i mod 4)%nat) :: mask_from (S i) mask data' end.

Definition mask_bytes (mask : nat -> N) : bytes := map mask (seq 0 4).

Definition client_frame (mask : nat -> N) (text : pystr) : result bytes :=
  data <-! encode_utf8 text ;; header <-! frame_header 128 (nlen data) ;;
  Ok (header ++ mask_bytes mask ++ mask_from 0 mask data).

(** ** Lemmas *)

Lemma be_bytes_value k n acc : foldl (fun acc b => acc * 256 + b) acc (be_bytes k n) = acc * 256 ^ N.of_nat k + n mod 256 ^ N.of_nat k.
Proof.
  revert acc; induction k as [|k IH]; intros acc; [simpl; rewrite N.mod_1_r; lia|]. cbn [be_bytes foldl]. rewrite IH.
  rewrite Nat2N.inj_succ, N.pow_succ_r', (N.mul_comm 256), N.Div0.mod_mul_r. lia.
Qed.

Lemma length_be_bytes k n : length (be_bytes k n) = k.
Proof. induction k as [|k IH]; [done|]. simpl. by rewrite IH. Qed.

Lemma unpack_pack k n bs rest : pack k n = Ok bs -> unpack k (bs ++ rest) = Ok (n, rest).
Proof.
  unfold pack, unpack. destruct (N.ltb_spec n (256 ^ N.of_nat k)) as [Hn|]; [|done]. intros [= <-].
  rewrite take_app_length', drop_app_length' by (symmetry; apply length_be_bytes). rewrite length_be_bytes, Nat.eqb_refl.
  unfold be_value. rewrite be_bytes_value, N.mod_small by done. done.
Qed.

Lemma unmask_mask i mask data : unmask_from i (mask_bytes mask) (mask_from i mask data) = Ok data.
Proof.
  revert i; induction data as [|b data IH]; intros i; [done|]. cbn [mask_from unmask_from].
  assert (mask_bytes mask !! (i mod 4)%nat = Some (mask (i mod 4)%nat)) as ->.
  { assert ((i mod 4 < 4)%nat) as Hlt by (by apply Nat.mod_upper_bound). generalize dependent (i mod 4)%nat. intros j Hj.
    do 4 (destruct j as [|j]; [done|]). lia. }
  rewrite IH. cbn [rbind]. by rewrite N.lxor_assoc, N.lxor_nilpotent, N.lxor_0_r.
Qed.

Lemma length_mask_from i mask data : length (mask_from i mask data) = length data.
Proof. revert i; induction data as [|b data IH]; intros i; [done|]. simpl. by rewrite IH. Qed.

(** Reading a header: the mask bit, the length and the rest. *)
Lemma receive_header bit len header rest : (bit = 0 \/ bit = 128) -> frame_header bit len = Ok header ->
  _ws_receive (header ++ rest) =
    (let masked := bit =? 128 in
     let mask := if masked then take 4 rest else [] in
     let input := if masked then drop 4 rest else rest in
     let data := take (N.to_nat len) input in
     let input := drop (N.to_nat len) input in
     if negb (nlen data =? len) then Ok (None, input)
     else
       data <-! (if masked then unmask_from 0 mask data else Ok data) ;;
       match decode_utf8 data with Some text => Ok (Some text, input) | None => Err unicode_decode_error end).
Proof.
  intros Hbit.
  assert (forall n, n < 128 -> N.land (bit + n) 127 = n /\ N.testbit (bit + n) 7 = (bit =? 128)) as Hn.
  { intros n Hn. change 127 with (N.ones 7). rewrite N.land_ones, N.testbit_eqb. change (2 ^ 7) with 128.
    destruct Hbit as [-> | ->]; split; [apply N.mod_small| |rewrite N.add_mod, N.mod_same, N.add_0_l, N.Div0.mod_mod by done; apply N.mod_small|];
      try done; [by rewrite N.div_small|].
    replace ((128 + n) / 128) with 1 by (apply (N.div_unique _ _ _ n); lia). done. }
  assert (forall x h tail, N.land (bit + x) 127 = h -> N.testbit (bit + x) 7 = (bit =? 128) ->
    _ws_receive (129 :: (bit + x) :: tail) =
      (counted <-! (if h =? 126 then unpack 2 tail else if h =? 127 then unpack 8 tail else Ok (h, tail)) ;;
       let len := counted.1 in
       let input := counted.2 in
       let masked := bit =? 128 in
       let mask := if masked then take 4 input else [] in
       let input := if masked then drop 4 input else input in
       let data := take (N.to_nat len) input in
       let input := drop (N.to_nat len) input in
       if negb (nlen data =? len) then Ok (None, input)
       else
         data <-! (if masked then unmask_from 0 mask data else Ok data) ;;
         match decode_utf8 data with Some text => Ok (Some text, input) | None => Err unicode_decode_error end)) as Hrun.
  { intros x h tail <- Ht. cbn [_ws_receive]. change (N.land 129 15) with 1. by rewrite Ht. }
  unfold frame_header. destruct (N.ltb_spec len 126) as [Hl|Hl]; [|destruct (N.leb_spec len 65535)].
  - intros [= <-]. destruct (Hn len ltac:(lia)) as [H1 H2]. cbn [app]. rewrite (Hrun len len) by done.
    replace (len =? 126) with false by lia. by replace (len =? 127) with false by lia.
  - destruct (pack 2 len) as [ext|] eqn:E; [|done]. intros [= <-]. destruct (Hn 126 ltac:(lia)) as [H1 H2]. cbn [app].
    rewrite (Hrun 126 126) by done. cbn [N.eqb Pos.eqb]. by rewrite (unpack_pack _ _ _ _ E).
  - destruct (pack 8 len) as [ext|] eqn:E; [|done]. intros [= <-]. destruct (Hn 127 ltac:(lia)) as [H1 H2]. cbn [app].
    rewrite (Hrun 127 127) by done. cbn [N.eqb Pos.eqb]. by rewrite (unpack_pack _ _ _ _ E).
Qed.

(** C37: frames carry texts unchanged. Whatever the text and its length, and for
    every mask, the server reads from a client's frame exactly the text the client
    sent, and a peer that reads as the server does reads from the server's frame
    the text the server sent; both leave the rest of the stream unread. *)
Theorem frames_carry_texts mask text frame sent rest :
  client_frame mask text = Ok frame -> _ws_send text = Ok sent ->
  _ws_receive (frame ++ rest) = Ok (Some text, rest) /\ _ws_receive (sent ++ rest) = Ok (Some text, rest).
Proof.
  unfold client_frame, _ws_send. destruct (encode_utf8 text) as [data|] eqn:Ed; [|done]. cbn [rbind].
  destruct (frame_header 128 (nlen data)) as [h1|] eqn:E1; [|done]. destruct (frame_header 0 (nlen data)) as [h2|] eqn:E2; [|done].
  pose proof (unmask_mask 0 mask data) as Hu. assert (4 = length (mask_bytes mask))%nat as H4 by done.
  cbn [rbind]. generalize dependent (mask_bytes mask). intros mb Hu H4 [= <-] [= <-]. rewrite <- !app_assoc.
  rewrite (receive_header 128 _ _ _ (or_intror eq_refl) E1), (receive_header 0 _ _ _ (or_introl eq_refl) E2).
  pose proof (utf8_decode_encode _ _ Ed) as Hd. unfold nlen in *. rewrite Nat2N.id. cbn [N.eqb Pos.eqb]. cbv zeta iota. split.
  - rewrite take_app_length', drop_app_length' by done. rewrite take_app_length', drop_app_length' by (symmetry; apply length_mask_from).
    rewrite length_mask_from, N.eqb_refl, Hu. cbn [negb rbind]. by rewrite Hd.
  - rewrite take_app_length', drop_app_length' by done. rewrite N.eqb_refl. cbn [negb rbind]. by rewrite Hd.
Qed.

Lemma frames_carry_texts_witness : exists frame sent,
  client_frame (fun i => N.of_nat i + 7) (u "{}") = Ok frame /\ _ws_send (u "{}") = Ok sent /\ frame <> sent /\
  _ws_receive (frame ++ [1]) = Ok (Some (u "{}"), [1]) /\ _ws_receive (sent ++ [1]) = Ok (Some (u "{}"), [1]).
Proof.
  do 2 eexists. split; [vm_compute; reflexivity|]. split; [vm_compute; reflexivity|]. split; [discriminate|].
  apply (frames_carry_texts (fun i => N.of_nat i + 7)); vm_compute; reflexivity.
Defined.

(** A fragment is taken for the whole message: the bit that says more follows is not read. *)
Example fragment_taken_whole : _ws_receive [1; 1; 123; 128; 1; 125] = Ok (Some (u "{"), [128; 1; 125]).
Proof. vm_compute. reflexivity. Qed.
