(* ===== verification/Server.v ===== *)
(** * The agent server: admission, sessions and run records
      (kinetic_sdk/server/app.py, first part)

    [AgentServer] runs one handler thread per request over shared state that one
    lock, [_lock], guards. The operations under the lock are functions on [Server];
    [sys_step] interleaves the threads that perform them: every critical section
    is one step, and the lock is held across steps only where the code holds it
    across a call it does not control, which is a run of a session's agent. *)

From stdpp Require Import base gmap strings list.
From Stdlib Require Import ZArith Lia SpecFloat.
From S2P Require Import Prelude Json.

(** ** Configuration and state *)

Record ServerConfig := {
  sc_token : option pystr;
  sc_session_ttl : option pyfloat;
  sc_max_requests_per_minute : option Z;
  sc_max_runs : Z;
  sc_max_concurrent_requests : Z;
}.

(** The checks of [__init__], in its order. *)
Definition check_config (cfg : ServerConfig) : result unit :=
  if match sc_session_ttl cfg with Some t => fl_le t (S754_zero false) | None => false end
  then Err (value_error (u "session_ttl must be positive or None"))
  else if match sc_max_requests_per_minute cfg with Some n => (n <=? 0)%Z | None => false end
  then Err (value_error (u "max_requests_per_minute must be positive or None"))
  else if (sc_max_runs cfg <=? 0)%Z then Err (value_error (u "max_runs must be positive"))
  else if (sc_max_concurrent_requests cfg <=? 0)%Z
  then Err (value_error (u "max_concurrent_requests must be positive"))
  else Ok tt.

(** [_runs] maps a run to its record object, which its handler shares; the
    objects are in [sv_records]. Likewise [_sessions] and [sv_agents]. *)
Record Server (Ag : Type) := MkServer {
  sv_runs : list (pystr * nat);
  sv_records : list jdict;
  sv_run_order : list pystr;
  sv_sessions : list (pystr * nat);
  sv_agents : list Ag;
  sv_activity : list (pystr * pyfloat);
  sv_in_flight : Z;
  sv_slots : Z;
  sv_stopping : bool;
  sv_request_times : list (pystr * list pyfloat);
}.
Arguments MkServer {Ag}.
Arguments sv_runs {Ag}.
Arguments sv_records {Ag}.
Arguments sv_run_order {Ag}.
Arguments sv_sessions {Ag}.
Arguments sv_agents {Ag}.
Arguments sv_activity {Ag}.
Arguments sv_in_flight {Ag}.
Arguments sv_slots {Ag}.
Arguments sv_stopping {Ag}.
Arguments sv_request_times {Ag}.

Section Operations.
Context {Ag : Type} (cfg : ServerConfig).
Implicit Types sv : Server Ag.

Definition new_server : Server Ag :=
  MkServer [] [] [] [] [] [] 0 (sc_max_concurrent_requests cfg) false [].

Definition with_runs runs records order sv : Server Ag :=
  MkServer runs records order (sv_sessions sv) (sv_agents sv) (sv_activity sv) (sv_in_flight sv) (sv_slots sv)
    (sv_stopping sv) (sv_request_times sv).
Definition with_sessions sessions agents activity sv : Server Ag :=
  MkServer (sv_runs sv) (sv_records sv) (sv_run_order sv) sessions agents activity (sv_in_flight sv) (sv_slots sv)
    (sv_stopping sv) (sv_request_times sv).
Definition with_load in_flight slots stopping sv : Server Ag :=
  MkServer (sv_runs sv) (sv_records sv) (sv_run_order sv) (sv_sessions sv) (sv_agents sv) (sv_activity sv)
    in_flight slots stopping (sv_request_times sv).
Definition with_times times sv : Server Ag :=
  MkServer (sv_runs sv) (sv_records sv) (sv_run_order sv) (sv_sessions sv) (sv_agents sv) (sv_activity sv)
    (sv_in_flight sv) (sv_slots sv) (sv_stopping sv) times.

(** ** Admission *)

(** The reason of a refusal, or [None]. *)
Definition _begin_request sv : option pystr * Server Ag :=
  if sv_stopping sv then (Some (u "server is shutting down"), sv)
  else if (sv_slots sv <=? 0)%Z then (Some (u "server is at concurrent request capacity"), sv)
  else (None, with_load (sv_in_flight sv + 1) (sv_slots sv - 1) (sv_stopping sv) sv).

Definition _finish_request sv : Server Ag :=
  with_load (sv_in_flight sv - 1) (sv_slots sv + 1) (sv_stopping sv) sv.

Definition start_stopping sv : Server Ag := with_load (sv_in_flight sv) (sv_slots sv) true sv.

Definition minute : pyfloat := fl_of_Z 60.

Fixpoint drop_old (cutoff : pyfloat) (times : list pyfloat) : list pyfloat :=
  match times with
  | t :: ts => if fl_le t cutoff then drop_old cutoff ts else times
  | [] => []
  end.

(** The seconds to wait, or [None] when the request is allowed. *)
Definition _allow_request (limit : Z) (client_ip : pystr) (now : pyfloat) sv : option Z * Server Ag :=
  let times := drop_old (fl_sub now minute) (default [] (dict_get client_ip (sv_request_times sv))) in
  if (limit <=? zlen times)%Z then
    let oldest := match times with t :: _ => t | [] => now end in
    (Some (Z.max 1 (trunc_float (fl_sub minute (fl_sub now oldest)) + 1)),
     with_times (dict_set client_ip times (sv_request_times sv)) sv)
  else (None, with_times (dict_set client_ip (times ++ [now]) (sv_request_times sv)) sv).

(** ** Sessions *)

Definition expire_session (cutoff : pyfloat) sv (entry : pystr * pyfloat) : Server Ag :=
  if fl_lt entry.2 cutoff
  then with_sessions (dict_pop entry.1 (sv_sessions sv)) (sv_agents sv) (dict_pop entry.1 (sv_activity sv)) sv
  else sv.

Definition _purge_expired_sessions (now : pyfloat) sv : Server Ag :=
  match sc_session_ttl cfg with
  | None => sv
  | Some ttl => foldl (expire_session (fl_sub now ttl)) sv (sv_activity sv)
  end.

Definition _health_snapshot (now : pyfloat) sv : (Z * Z) * Server Ag :=
  let sv := _purge_expired_sessions now sv in ((zlen (sv_sessions sv), sv_in_flight sv), sv).

(** A new agent object. *)
Definition new_agent (ag : Ag) sv : nat * Server Ag :=
  (length (sv_agents sv), with_sessions (sv_sessions sv) (sv_agents sv ++ [ag]) (sv_activity sv) sv).

Definition keep_session (session_id : pystr) (agent : nat) sv : Server Ag :=
  with_sessions (dict_set session_id agent (sv_sessions sv)) (sv_agents sv) (sv_activity sv) sv.

Definition touch_session (session_id : pystr) (now : pyfloat) sv : Server Ag :=
  with_sessions (sv_sessions sv) (sv_agents sv) (dict_set session_id now (sv_activity sv)) sv.

Definition set_agent (agent : nat) (ag : Ag) sv : Server Ag :=
  with_sessions (sv_sessions sv) (<[agent := ag]> (sv_agents sv)) (sv_activity sv) sv.

(** [_make_agent] for a session, after the purge: the cached agent or [built]. *)
Definition session_agent (session_id : pystr) (built : Ag) (now : pyfloat) sv : nat * Server Ag :=
  match dict_get session_id (sv_sessions sv) with
  | Some agent => (agent, touch_session session_id now sv)
  | None =>
    let '(agent, sv) := new_agent built sv in
    (agent, touch_session session_id now (keep_session session_id agent sv))
  end.

(** ** Run records *)

Definition running_record (run_id : pystr) : jdict :=
  [(u "run_id", JStr run_id); (u "status", JStr (u "running")); (u "final", JStr [])].

(** [while len(self._run_order) >= self._max_runs]. *)
Fixpoint evict (order : list pystr) (runs : list (pystr * nat)) : list pystr * list (pystr * nat) :=
  match order with
  | oldest :: order' => if (sc_max_runs cfg <=? zlen order)%Z then evict order' (dict_pop oldest runs) else (order, runs)
  | [] => (order, runs)
  end.

(** The record object of a new run. *)
Definition register_run (run_id : pystr) sv : nat * Server Ag :=
  let '(order, runs) := evict (sv_run_order sv) (sv_runs sv) in
  let record := length (sv_records sv) in
  (record, with_runs (dict_set run_id record runs) (sv_records sv ++ [running_record run_id]) (order ++ [run_id]) sv).

(** [record.update(...)], outside the lock. *)
Definition update_record (record : nat) (fields : jdict) sv : Server Ag :=
  with_runs (sv_runs sv)
    (alter (fun r => foldl (fun r kv => dict_set kv.1 kv.2 r) r fields) record (sv_records sv)) (sv_run_order sv) sv.

(** [self._runs[run_id] = record]. *)
Definition store_record (run_id : pystr) (record : nat) sv : Server Ag :=
  with_runs (dict_set run_id record (sv_runs sv)) (sv_records sv) (sv_run_order sv) sv.

Definition find_run (run_id : pystr) sv : option jdict :=
  record ← dict_get run_id (sv_runs sv); sv_records sv !! record.

Definition completed_fields (final : pystr) (structured : json) (usage : jdict) : jdict :=
  [(u "status", JStr (u "completed")); (u "final", JStr final); (u "structured_output", structured); (u "usage", JObj usage)].

Definition failed_fields (error : pystr) : jdict := [(u "status", JStr (u "error")); (u "error", JStr error)].
End Operations.

(** ** Threads *)

(** What a request asks for, as far as the shared state is concerned. *)
Inductive job :=
| RunJob (session : option pystr)
| StreamJob (session : option pystr)
| HealthJob
| LookupJob (run_id : pystr).

Inductive pc :=
| Arriving (client_ip : pystr) (j : job)
| Refused (why : pystr)
| Accepted (client_ip : pystr) (j : job)
| Operating (j : job)
| Registered (session : option pystr) (run_id : pystr) (record : nat)
| HasAgent (session : option pystr) (run_id : pystr) (record agent : nat)
| Running (session : option pystr) (run_id : pystr) (record agent : nat)
| Ended (run_id : pystr) (record : nat) (fields : jdict)
| Storing (run_id : pystr) (record : nat)
| Streaming (session : option pystr) (agent : nat)
| Leaving
| Gone
| Stopping
| Draining
| Stopped (drained : bool).

(** Between [_begin_request] and [_finish_request]. *)
Definition active (p : pc) : bool :=
  match p with
  | Accepted _ _ | Operating _ | Registered _ _ _ | HasAgent _ _ _ _ | Running _ _ _ _ | Ended _ _ _ | Storing _ _
  | Streaming _ _ | Leaving => true
  | _ => false
  end.

(** [sy_lock] is the thread that holds [_lock] during a run; every other critical
    section is one step, taken while the lock is free. *)
Record sys (Ag : Type) := MkSys { sy_server : Server Ag; sy_lock : option nat; sy_threads : list pc }.
Arguments MkSys {Ag}.
Arguments sy_server {Ag}.
Arguments sy_lock {Ag}.
Arguments sy_threads {Ag}.

Section Threads.
Context {Ag : Type} (cfg : ServerConfig).
Implicit Types sv : Server Ag.

(** One step of thread [t]: [moves t (sv, lock) p (sv', lock') p']. Clock readings,
    identifiers, built agents and the results of runs are arbitrary; a factory
    builds a new object. *)
Inductive moves (t : nat) : Server Ag * option nat -> pc -> Server Ag * option nat -> pc -> Prop :=
| m_accept sv sv' ip j : _begin_request sv = (None, sv') ->
    moves t (sv, None) (Arriving ip j) (sv', None) (Accepted ip j)
| m_refuse sv sv' ip j why : _begin_request sv = (Some why, sv') ->
    moves t (sv, None) (Arriving ip j) (sv', None) (Refused why)
| m_unlimited sv l ip j : sc_max_requests_per_minute cfg = None ->
    moves t (sv, l) (Accepted ip j) (sv, l) (Operating j)
| m_allowed sv sv' ip j limit now : sc_max_requests_per_minute cfg = Some limit ->
    _allow_request limit ip now sv = (None, sv') ->
    moves t (sv, None) (Accepted ip j) (sv', None) (Operating j)
| m_limited sv sv' ip j limit now retry_after : sc_max_requests_per_minute cfg = Some limit ->
    _allow_request limit ip now sv = (Some retry_after, sv') ->
    moves t (sv, None) (Accepted ip j) (sv', None) Leaving
| m_health sv now :
    moves t (sv, None) (Operating HealthJob) ((_health_snapshot cfg now sv).2, None) Leaving
| m_lookup sv run_id :
    moves t (sv, None) (Operating (LookupJob run_id)) (sv, None) Leaving
| m_register sv sv' session run_id record : register_run cfg run_id sv = (record, sv') ->
    moves t (sv, None) (Operating (RunJob session)) (sv', None) (Registered session run_id record)
| m_private sv sv' l run_id record agent ag : new_agent ag sv = (agent, sv') ->
    moves t (sv, l) (Registered None run_id record) (sv', l) (HasAgent None run_id record agent)
| m_private_fails sv l run_id record error :
    moves t (sv, l) (Registered None run_id record) (sv, l) (Ended run_id record (failed_fields error))
| m_session sv sv' session_id run_id record agent ag now1 now2 :
    session_agent session_id ag now2 (_purge_expired_sessions cfg now1 sv) = (agent, sv') ->
    moves t (sv, None) (Registered (Some session_id) run_id record) (sv', None) (HasAgent (Some session_id) run_id record agent)
| m_session_fails sv session_id run_id record now error :
    dict_get session_id (sv_sessions (_purge_expired_sessions cfg now sv)) = None ->
    moves t (sv, None) (Registered (Some session_id) run_id record)
      (_purge_expired_sessions cfg now sv, None) (Ended run_id record (failed_fields error))
| m_run_private sv l run_id record agent :
    moves t (sv, l) (HasAgent None run_id record agent) (sv, l) (Running None run_id record agent)
| m_run_session sv session_id run_id record agent :
    moves t (sv, None) (HasAgent (Some session_id) run_id record agent)
      (sv, Some t) (Running (Some session_id) run_id record agent)
| m_private_returns sv l run_id record agent ag fields :
    moves t (sv, l) (Running None run_id record agent) (set_agent agent ag sv, l) (Ended run_id record fields)
| m_session_returns sv session_id run_id record agent ag now final structured usage :
    moves t (sv, Some t) (Running (Some session_id) run_id record agent)
      (touch_session session_id now (set_agent agent ag sv), None) (Ended run_id record (completed_fields final structured usage))
| m_session_raises sv session_id run_id record agent ag error :
    moves t (sv, Some t) (Running (Some session_id) run_id record agent)
      (set_agent agent ag sv, None) (Ended run_id record (failed_fields error))
| m_update sv l run_id record fields :
    moves t (sv, l) (Ended run_id record fields) (update_record record fields sv, l) (Storing run_id record)
| m_store sv run_id record :
    moves t (sv, None) (Storing run_id record) (store_record run_id record sv, None) Leaving
| m_stream_private sv sv' l agent ag : new_agent ag sv = (agent, sv') ->
    moves t (sv, l) (Operating (StreamJob None)) (sv', l) (Streaming None agent)
| m_stream_session sv sv' session_id agent ag now1 now2 :
    session_agent session_id ag now2 (_purge_expired_sessions cfg now1 sv) = (agent, sv') ->
    moves t (sv, None) (Operating (StreamJob (Some session_id))) (sv', None) (Streaming (Some session_id) agent)
| m_stream_rejected sv l session :
    moves t (sv, l) (Operating (StreamJob session)) (sv, l) Leaving
| m_stream_ends sv l session agent ag :
    moves t (sv, l) (Streaming session agent) (set_agent agent ag sv, l) Leaving
| m_finish sv :
    moves t (sv, None) Leaving (_finish_request sv, None) Gone
| m_stop sv :
    moves t (sv, None) Stopping (start_stopping sv, None) Draining
| m_drained sv : sv_in_flight sv = 0%Z ->
    moves t (sv, None) Draining (sv, None) (Stopped true)
| m_gives_up sv : sv_in_flight sv <> 0%Z ->
    moves t (sv, None) Draining (sv, None) (Stopped false).

Inductive sys_step : sys Ag -> sys Ag -> Prop :=
| one_thread t sv l ths p sv' l' p' :
    ths !! t = Some p -> moves t (sv, l) p (sv', l') p' ->
    sys_step (MkSys sv l ths) (MkSys sv' l' (<[t := p']> ths)).

(** A thread that has not begun. *)
Definition fresh_thread (p : pc) : Prop := match p with Arriving _ _ | Stopping => True | _ => False end.

Inductive reachable : sys Ag -> Prop :=
| r_start ths : Forall fresh_thread ths -> reachable (MkSys (new_server cfg) None ths)
| r_step s s' : reachable s -> sys_step s s' -> reachable s'.

(** A property of the threads' view of the shared state, kept by every step. *)
Lemma reachable_ind_inv (P : sys Ag -> Prop) :
  (forall ths, Forall fresh_thread ths -> P (MkSys (new_server cfg) None ths)) ->
  (forall t sv l ths p sv' l' p', reachable (MkSys sv l ths) -> P (MkSys sv l ths) -> ths !! t = Some p ->
     moves t (sv, l) p (sv', l') p' -> P (MkSys sv' l' (<[t := p']> ths))) ->
  forall s, reachable s -> P s.
Proof.
  intros H0 Hs s Hr. induction Hr as [ths Hf|s s' Hr IH Hstep]; [by apply H0|].
  destruct Hstep as [t sv l ths p sv' l' p' Ht Hm]. by eapply Hs.
Qed.

(** *** Admission *)

Definition active_count (ths : list pc) : nat := length (filter (fun p => active p = true) ths).

Lemma active_insert ths t p p' : ths !! t = Some p ->
  active_count (<[t := p']> ths) + Nat.b2n (active p) = active_count ths + Nat.b2n (active p').
Proof.
  unfold active_count. revert t; induction ths as [|q ths IH]; intros [|t]; simpl; try done.
  - intros [= ->]. rewrite !filter_cons. repeat case_decide; destruct (active p), (active p'); simpl in *; try done; lia.
  - intros Ht. specialize (IH t Ht). rewrite !filter_cons. case_decide; simpl; lia.
Qed.

(** No operation but the first and the last of a request, and [stop], touches the load. *)
Definition same_load sv sv' : Prop :=
  sv_in_flight sv' = sv_in_flight sv /\ sv_slots sv' = sv_slots sv /\ sv_stopping sv' = sv_stopping sv.

#[local] Instance same_load_po : PreOrder same_load.
Proof. split; [done|]. unfold same_load. intros ? ? ?. intuition congruence. Qed.

Lemma purge_load now sv : same_load sv (_purge_expired_sessions cfg now sv).
Proof.
  unfold _purge_expired_sessions. destruct (sc_session_ttl cfg) as [ttl|]; [|done].
  generalize (sv_activity sv), (fl_sub now ttl). intros l cutoff. revert sv; induction l as [|e l IH]; intros sv; [done|].
  simpl. etrans; [|apply IH]. unfold expire_session. by case_match.
Qed.

Lemma session_load id ag now sv a sv' : session_agent id ag now sv = (a, sv') -> same_load sv sv'.
Proof. unfold session_agent. case_match; simpl; by intros [= <- <-]. Qed.

Lemma register_load id sv r sv' : register_run cfg id sv = (r, sv') -> same_load sv sv'.
Proof. unfold register_run. case_match. by intros [= <- <-]. Qed.

Lemma allow_load n ip now sv o sv' : _allow_request n ip now sv = (o, sv') -> same_load sv sv'.
Proof. unfold _allow_request. case_match; by intros [= <- <-]. Qed.

(** The load of the server is the number of its active threads, within its capacity. *)
Definition load_inv (s : sys Ag) : Prop :=
  let sv := sy_server s in
  sv_in_flight sv = Z.of_nat (active_count (sy_threads s)) /\
  (sv_in_flight sv + sv_slots sv)%Z = sc_max_concurrent_requests cfg /\ (0 <= sv_slots sv)%Z.

Lemma load_reachable s : (0 <= sc_max_concurrent_requests cfg)%Z -> reachable s -> load_inv s.
Proof.
  intros Hmax. apply reachable_ind_inv; clear s.
  - intros ths Hf. unfold load_inv; simpl. replace (active_count ths) with 0; [split; [done|lia]|].
    unfold active_count. induction Hf as [|p ths Hp _ IH]; [done|]. rewrite filter_cons. by destruct p.
  - intros t sv l ths p sv' l' p' _ (Hin & Hsum & Hpos) Ht Hm. simpl in *.
    pose proof (active_insert ths t p p' Ht) as Hc.
    assert (same_load sv sv' -> Nat.b2n (active p) = Nat.b2n (active p') -> load_inv (MkSys sv' l' (<[t:=p']> ths))) as Hsame.
    { intros (H1 & H2 & _) Ha. unfold load_inv; simpl. lia. }
    inversion Hm; subst; simpl in *;
      try (apply Hsame; [first [done | by eapply allow_load | apply purge_load | by eapply register_load
        | by eapply session_load | etrans; [apply purge_load|by eapply session_load] | by (unfold new_agent in *; simplify_eq)]|done]).
    + unfold _begin_request in *. repeat case_match; simplify_eq. unfold load_inv; simpl. bool_hyps. lia.
    + unfold _begin_request in *. apply Hsame; [|done]. repeat case_match; by simplify_eq.
    + unfold load_inv; simpl. lia.
    + unfold load_inv; simpl. lia.
Qed.

(** *** Shutdown *)

Definition stop_inv (s : sys Ag) : Prop :=
  (forall d, Draining ∈ sy_threads s \/ Stopped d ∈ sy_threads s -> sv_stopping (sy_server s) = true) /\
  (Stopped true ∈ sy_threads s -> active_count (sy_threads s) = 0).

Lemma elem_insert (ths : list pc) t p' q : q ∈ <[t := p']> ths -> q = p' \/ q ∈ ths.
Proof.
  intros [i Hi]%list_elem_of_lookup. destruct (decide (t = i)) as [->|Hne].
  - apply list_lookup_insert_Some in Hi as [(_ & -> & _)|[? _]]; [by left|done].
  - rewrite list_lookup_insert_ne in Hi by done. right. by eapply list_elem_of_lookup_2.
Qed.

(** Only [stop] sets the flag, and nothing clears it. *)
Lemma moves_stopping t sv l p sv' l' p' : moves t (sv, l) p (sv', l') p' ->
  sv_stopping sv' = sv_stopping sv || match p with Stopping => true | _ => false end.
Proof.
  intros Hm. assert (same_load sv sv' -> sv_stopping sv' = sv_stopping sv || false) as Hs by (rewrite orb_false_r; by intros (_ & _ & ?)).
  inversion Hm; subst; simpl; rewrite ?orb_false_r, ?orb_true_r; try done; rewrite orb_false_r in Hs;
    try (apply Hs; first [by eapply allow_load | apply purge_load | by eapply register_load
        | by eapply session_load | etrans; [apply purge_load|by eapply session_load] | by (unfold new_agent in *; simplify_eq)]).
  - unfold _begin_request in *. repeat case_match; by simplify_eq.
  - unfold _begin_request in *. repeat case_match; by simplify_eq.
Qed.

Lemma stop_reachable s : (0 <= sc_max_concurrent_requests cfg)%Z -> reachable s -> stop_inv s.
Proof.
  intros Hmax. apply reachable_ind_inv; clear s.
  - intros ths Hf. split; simpl.
    + intros d [Hd|Hd]; rewrite Forall_forall in Hf; by apply Hf in Hd.
    + intros Hd. rewrite Forall_forall in Hf. by apply Hf in Hd.
  - intros t sv l ths p sv' l' p' Hr [Hstop Hidle] Ht Hm. simpl in *.
    pose proof (load_reachable _ Hmax Hr) as (Hin & _). simpl in Hin.
    pose proof (moves_stopping _ _ _ _ _ _ _ Hm) as Hst. pose proof (active_insert ths t p p' Ht) as Hc. split; simpl.
    + assert (sv_stopping sv = true -> sv_stopping sv' = true) as Hmono by (rewrite Hst; by intros ->).
      assert (forall d, p = Draining \/ p = Stopped d -> sv_stopping sv = true) as Hp.
      { intros d Hp. apply (Hstop d). destruct Hp as [->| ->]; [left|right]; by eapply list_elem_of_lookup_2. }
      intros d [Hd|Hd]; apply elem_insert in Hd as [<-|Hd]; try (apply Hmono, (Hstop d); auto; fail);
        inversion Hm; subst; simpl in *; try done; apply Hmono; by eapply (Hp true), or_introl.
    + intros [<-|Hd]%elem_insert.
      * inversion Hm; subst; simpl in *. lia.
      * specialize (Hidle Hd). assert (active p' = true -> active p = true) as Ha; [|destruct (active p), (active p'); simpl in *; try done; lia].
        assert (sv_stopping sv = true) as Hs by (apply (Hstop true); auto).
        inversion Hm; subst; simpl in *; try done. unfold _begin_request in *. by rewrite Hs in *.
Qed.

(** *** Agents *)

(** The agent a thread refers to, and whether no session does. *)
Definition held (p : pc) : option (bool * nat) :=
  match p with
  | HasAgent None _ _ a | Running None _ _ a | Streaming None a => Some (true, a)
  | HasAgent (Some _) _ _ a | Running (Some _) _ _ a | Streaming (Some _) a => Some (false, a)
  | _ => None
  end.

(** The agent a thread is running. *)
Definition executing (p : pc) : option nat :=
  match p with Running _ _ _ a | Streaming _ a => Some a | _ => None end.

Definition is_session_stream (p : pc) : bool := match p with Streaming (Some _) _ => true | _ => false end.

Definition agents_inv (s : sys Ag) : Prop :=
  let sv := sy_server s in
  (forall k a, (k, a) ∈ sv_sessions sv -> a < length (sv_agents sv)) /\
  (forall i p b a, sy_threads s !! i = Some p -> held p = Some (b, a) -> a < length (sv_agents sv) /\
     (b = true -> (forall k, (k, a) ∉ sv_sessions sv) /\
        forall j q b', j <> i -> sy_threads s !! j = Some q -> held q <> Some (b', a))) /\
  (forall i id r o a, sy_threads s !! i = Some (Running (Some id) r o a) -> sy_lock s = Some i).

(** What a step does to the agents: it may build one, and put it in a session. *)
Definition agents_grow sv sv' : Prop :=
  length (sv_agents sv) <= length (sv_agents sv') /\
  forall k a, (k, a) ∈ sv_sessions sv' -> (k, a) ∈ sv_sessions sv \/ length (sv_agents sv) <= a < length (sv_agents sv').

(** What the thread that takes it then refers to. *)
Definition takes sv sv' (p p' : pc) : Prop :=
  held p' = None \/ held p' = held p \/
  (held p' = Some (true, length (sv_agents sv)) /\ length (sv_agents sv) < length (sv_agents sv') /\ sv_sessions sv' = sv_sessions sv) \/
  (exists a, held p' = Some (false, a) /\ ((exists k, (k, a) ∈ sv_sessions sv) \/ length (sv_agents sv) <= a < length (sv_agents sv'))).

Lemma purge_agents now sv :
  sv_agents (_purge_expired_sessions cfg now sv) = sv_agents sv /\
  forall e, e ∈ sv_sessions (_purge_expired_sessions cfg now sv) -> e ∈ sv_sessions sv.
Proof.
  unfold _purge_expired_sessions. destruct (sc_session_ttl cfg) as [ttl|]; [|done].
  generalize (sv_activity sv), (fl_sub now ttl). intros l cutoff. revert sv; induction l as [|e l IH]; intros sv; [done|].
  simpl. destruct (IH (expire_session cutoff sv e)) as [-> Hs]. unfold expire_session in *. case_match; simpl in *; [|done].
  split; [done|]. intros x Hx. by apply Hs, list_elem_of_filter in Hx as [_ ?].
Qed.

Lemma session_agents id ag now sv a sv' : session_agent id ag now sv = (a, sv') ->
  agents_grow sv sv' /\ ((exists k, (k, a) ∈ sv_sessions sv) \/ length (sv_agents sv) <= a < length (sv_agents sv')).
Proof.
  unfold session_agent, agents_grow. case_match eqn:E; simpl; intros [= <- <-]; simpl.
  - split; [by split; [|auto]|]. left. exists id. by apply dict_get_elem.
  - rewrite length_app. simpl. split; [|lia]. split; [lia|]. rewrite dict_set_absent by done. intros k a.
    rewrite elem_of_app, list_elem_of_singleton. intros [?|[= -> ->]]; [by left|]. right. split; [done|]. apply Nat.lt_add_pos_r, Nat.lt_0_1.
Qed.

Lemma moves_agents t sv l p sv' l' p' : moves t (sv, l) p (sv', l') p' -> agents_grow sv sv' /\ takes sv sv' p p'.
Proof.
  assert (forall sv0, sv_agents sv0 = sv_agents sv -> sv_sessions sv0 = sv_sessions sv -> agents_grow sv sv0) as Hsame.
  { intros sv0 Ha Hs. unfold agents_grow. rewrite Ha, Hs. auto. }
  assert (forall a ag, agents_grow sv (set_agent a ag sv)) as Hset.
  { intros a ag. split; simpl; [by rewrite length_insert|auto]. }
  assert (forall now, agents_grow sv (_purge_expired_sessions cfg now sv)) as Hpurge.
  { intros now. destruct (purge_agents now sv) as [Ha Hs]. unfold agents_grow. rewrite Ha. split; [done|]. eauto. }
  assert (forall ag a sv0, new_agent ag sv = (a, sv0) -> agents_grow sv sv0 /\ a = length (sv_agents sv) /\
    length (sv_agents sv) < length (sv_agents sv0) /\ sv_sessions sv0 = sv_sessions sv) as Hnew.
  { intros ag a sv0 [= <- <-]. unfold agents_grow; simpl. rewrite length_app. simpl. split; [split; [lia|auto]|]. split; [done|]. split; [lia|done]. }
  assert (forall id ag now1 now2 a sv0, session_agent id ag now2 (_purge_expired_sessions cfg now1 sv) = (a, sv0) ->
    agents_grow sv sv0 /\ ((exists k, (k, a) ∈ sv_sessions sv) \/ length (sv_agents sv) <= a < length (sv_agents sv0))) as Hses.
  { intros id ag now1 now2 a sv0 Hs. apply session_agents in Hs as [[Hl Hk] Ha]. destruct (purge_agents now1 sv) as [He Hp].
    rewrite He in *. split; [split; [done|]|].
    - intros k x Hx. destruct (Hk k x Hx); [left|right]; auto.
    - destruct Ha as [[k Hx]|?]; [left; eauto|by right]. }
  unfold takes. intros Hm. inversion Hm; subst; simpl in *;
    try (split; [first [done | apply Hset | apply Hpurge | by apply Hsame]|by auto]).
  - unfold _begin_request in *. repeat case_match; simplify_eq; split; auto.
  - unfold _begin_request in *. repeat case_match; simplify_eq; split; auto.
  - unfold _allow_request in *. repeat case_match; simplify_eq; split; auto.
  - unfold _allow_request in *. repeat case_match; simplify_eq; split; auto.
  - unfold register_run in *. repeat case_match; simplify_eq; split; auto.
  - destruct (Hnew _ _ _ H5) as (Hg & -> & ? & ?). split; [done|]. eauto 6.
  - destruct (Hses _ _ _ _ _ _ H5) as [Hg Ha]. split; [done|]. eauto 6.
  - destruct (Hnew _ _ _ H5) as (Hg & -> & ? & ?). split; [done|]. eauto 6.
  - destruct (Hses _ _ _ _ _ _ H5) as [Hg Ha]. split; [done|]. eauto 6.
Qed.

Lemma agents_reachable s : reachable s -> agents_inv s.
Proof.
  apply reachable_ind_inv; clear s.
  - intros ths Hf. rewrite Forall_forall in Hf. assert (forall i p, ths !! i = Some p -> fresh_thread p) as Hq.
    { intros i p Hi. by apply Hf, list_elem_of_lookup_2 with i. }
    split; [by intros k a Hk%not_elem_of_nil|]. split; simpl; intros i; [intros p b a Hi Hh|intros id r o a Hi]; apply Hq in Hi; [by destruct p|done].
  - intros t sv l ths p sv' l' p' _ (Hss & Hh & Hl) Ht Hm. simpl in *.
    destruct (moves_agents _ _ _ _ _ _ _ Hm) as [[Hlen Hs] Htk]. split; [|split]; simpl.
    + intros k a [Hk|]%Hs; [|lia]. specialize (Hss k a Hk). lia.
    + assert (forall a b, held p' = Some (b, a) -> a < length (sv_agents sv')) as Hb.
      { intros a b Ha. destruct Htk as [E|[E|[(E & ? & _)|(x & E & Hx)]]]; rewrite Ha in E; [done| |by simplify_eq|].
        - symmetry in E. apply (Hh t p b a Ht) in E as [? _]. lia.
        - simplify_eq. destruct Hx as [[k Hk]|?]; [apply Hss in Hk|]; lia. }
      assert (forall i q a, i <> t -> ths !! i = Some q -> held q = Some (true, a) ->
        (forall k, (k, a) ∉ sv_sessions sv') /\ forall b', held p' <> Some (b', a)) as Hother.
      { intros i q a Hne Hi Hq. destruct (Hh i q true a Hi Hq) as [Ha Hpriv]. destruct (Hpriv eq_refl) as [Hns Hnh]. split.
        - intros k [Hk|]%Hs; [by apply (Hns k)|lia].
        - intros b' E. destruct Htk as [E2|[E2|[(E2 & ? & _)|(x & E2 & Hx)]]]; rewrite E in E2; [done| |simplify_eq; lia|].
          + symmetry in E2. by apply (Hnh t p b').
          + simplify_eq. destruct Hx as [[k Hk]|?]; [by apply (Hns k)|lia]. }
      intros i q b a Hi Hq. destruct (decide (i = t)) as [->|Hne].
      * rewrite list_lookup_insert_eq in Hi by (by eapply lookup_lt_Some). simplify_eq. split; [by eapply Hb|]. intros ->.
        destruct Htk as [E|[E|[(E & Hgt & Hse)|(x & E & Hx)]]]; rewrite Hq in E; [done| | |done].
        -- symmetry in E. destruct (Hh t p true a Ht E) as [Ha Hpriv]. destruct (Hpriv eq_refl) as [Hns Hnh]. split.
           ++ intros k [Hk|]%Hs; [by apply (Hns k)|lia].
           ++ intros j q' b' Hj Hjq. rewrite list_lookup_insert_ne in Hjq by done. by apply Hnh with j.
        -- simplify_eq. split; [intros k Hk; rewrite Hse in Hk; apply Hss in Hk; lia|].
           intros j q' b' Hj Hjq E'. rewrite list_lookup_insert_ne in Hjq by done. apply (Hh j q' b' _ Hjq) in E' as [? _]. lia.
      * rewrite list_lookup_insert_ne in Hi by done. destruct (Hh i q b a Hi Hq) as [Ha Hpriv]. split; [lia|]. intros ->.
        destruct (Hother i q a Hne Hi Hq) as [Hns Hnp]. split; [done|]. intros j q' b' Hj Hjq.
        destruct (decide (j = t)) as [->|Hjt].
        -- rewrite list_lookup_insert_eq in Hjq by (by eapply lookup_lt_Some). simplify_eq. apply Hnp.
        -- rewrite list_lookup_insert_ne in Hjq by done. by apply (proj2 (Hpriv eq_refl)) with j.
    + intros i id r o a Hi. destruct (decide (i = t)) as [->|Hne].
      * rewrite list_lookup_insert_eq in Hi by (by eapply lookup_lt_Some). simplify_eq. by inversion Hm; subst.
      * rewrite list_lookup_insert_ne in Hi by done. apply Hl in Hi as ->. inversion Hm; subst; done.
Qed.
End Threads.

(** ** Theorems about the threads *)

Lemma config_ok cfg : check_config cfg = Ok tt ->
  (0 < sc_max_concurrent_requests cfg)%Z /\ (0 < sc_max_runs cfg)%Z /\
  forall n, sc_max_requests_per_minute cfg = Some n -> (0 < n)%Z.
Proof.
  unfold check_config. destruct (match sc_session_ttl cfg with Some _ => _ | None => _ end); [done|].
  destruct (sc_max_requests_per_minute cfg) as [n|]; [destruct (Z.leb_spec n 0); [done|]|];
    destruct (Z.leb_spec (sc_max_runs cfg) 0), (Z.leb_spec (sc_max_concurrent_requests cfg) 0); try done; intros _;
    (split; [lia|]); (split; [lia|]); intros ? [= <-]; lia.
Qed.

(** C23: admission is bounded. In every interleaving of request threads and of
    shutdowns, the number of requests in flight is exactly the number of threads
    between their admission and their end, and never exceeds the configured
    capacity; slots and requests in flight always add up to it. *)
Theorem admission_is_bounded {Ag} cfg (s : sys Ag) : check_config cfg = Ok tt -> reachable cfg s ->
  sv_in_flight (sy_server s) = Z.of_nat (active_count (sy_threads s)) /\
  (sv_in_flight (sy_server s) + sv_slots (sy_server s) = sc_max_concurrent_requests cfg)%Z /\
  (0 <= sv_in_flight (sy_server s) <= sc_max_concurrent_requests cfg)%Z.
Proof.
  intros (Hc & _)%config_ok Hr.
  destruct (load_reachable cfg s ltac:(lia) Hr) as (Hi & Hsum & Hpos). rewrite Hsum. lia.
Qed.

(** a drained server is idle. When [stop] returns because nothing was in
    flight, no request is being handled, now or in any later state: requests that
    arrive are refused. *)
Theorem drained_server_is_idle {Ag} cfg (s : sys Ag) : check_config cfg = Ok tt -> reachable cfg s ->
  Stopped true ∈ sy_threads s ->
  sv_stopping (sy_server s) = true /\ sv_in_flight (sy_server s) = 0%Z /\ forall p, p ∈ sy_threads s -> active p = false.
Proof.
  intros (Hc & _)%config_ok Hr Hin.
  destruct (stop_reachable cfg s ltac:(lia) Hr) as [Hs Hi]. destruct (load_reachable cfg s ltac:(lia) Hr) as (Hl & _).
  specialize (Hi Hin). rewrite Hl, Hi. split; [by apply (Hs true); right|]. split; [done|]. intros p Hp.
  apply not_true_iff_false. intros Ha. unfold active_count in Hi. apply nil_length_inv in Hi.
  assert (p ∈ filter (fun p => active p = true) (sy_threads s)) as Hq by by apply list_elem_of_filter. rewrite Hi in Hq. by apply not_elem_of_nil in Hq.
Qed.

(** C19: runs do not share an agent. Two threads that run the same agent object at
    the same time are not both HTTP runs, whether of one session or not: at least
    one of them is a WebSocket run of a session, which does not take the lock. *)
Theorem runs_do_not_share_agents {Ag} cfg (s : sys Ag) i j p q a : reachable cfg s -> i <> j ->
  sy_threads s !! i = Some p -> sy_threads s !! j = Some q -> executing p = Some a -> executing q = Some a ->
  is_session_stream p || is_session_stream q = true.
Proof.
  intros Hr Hne Hi Hj Hp Hq. destruct (agents_reachable cfg s Hr) as (_ & Hh & Hl).
  destruct (is_session_stream p) eqn:Ep, (is_session_stream q) eqn:Eq; try done. exfalso.
  assert (forall x b, executing x = Some a -> is_session_stream x = false -> held x = Some (b, a) ->
    b = true \/ exists id r o, x = Running (Some id) r o a) as Hx.
  { intros x b. destruct x as [| | | | | |[id|] r o c| | |[id|] c| | | | |]; simpl; try done; intros [= <-] ? [= <-]; eauto. }
  assert (forall x, executing x = Some a -> exists b, held x = Some (b, a)) as Hb.
  { intros x. destruct x as [| | | | | |[id|] r o c| | |[id|] c| | | | |]; simpl; try done; intros [= <-]; eauto. }
  destruct (Hb p Hp) as [b1 E1], (Hb q Hq) as [b2 E2].
  destruct (Hx p b1 Hp Ep E1) as [->|(id1 & r1 & o1 & ->)].
  - by apply (proj2 (proj2 (Hh i p true a Hi E1) eq_refl) j q b2 (not_eq_sym Hne) Hj).
  - destruct (Hx q b2 Hq Eq E2) as [->|(id2 & r2 & o2 & ->)].
    + by apply (proj2 (proj2 (Hh j q true a Hj E2) eq_refl) i _ b1 Hne Hi).
    + apply Hl in Hi, Hj. congruence.
Qed.

(** While a session's agent runs, the lock keeps every other request, a health
    check included, from being admitted, refused or finished, and a shutdown from
    starting or timing out. *)
Lemma session_run_blocks_requests {Ag} cfg t j (sv sv' : Server Ag) l p p' : j <> t ->
  moves cfg j (sv, Some t) p (sv', l) p' ->
  l = Some t /\ same_load sv sv' /\
  match p with Arriving _ _ | Leaving | Stopping | Draining | Operating HealthJob | Operating (LookupJob _) => False | _ => True end.
Proof. intros Hne Hm. inversion Hm; subst; try done. by (unfold new_agent in *; simplify_eq). by (unfold new_agent in *; simplify_eq). Qed.

(** ** The rate limit *)

Section Limit.
Context {Ag : Type} (limit : Z).
Implicit Types sv : Server Ag.

(** The requests of a sequence that are allowed; each is its address and the clock. *)
Definition limit_step (acc : Server Ag * list (pystr * pyfloat)) (c : pystr * pyfloat) : Server Ag * list (pystr * pyfloat) :=
  let '(o, sv') := _allow_request limit c.1 c.2 acc.1 in
  (sv', match o with None => acc.2 ++ [c] | Some _ => acc.2 end).

Definition allowed_requests sv (calls : list (pystr * pyfloat)) : list (pystr * pyfloat) := (foldl limit_step (sv, []) calls).2.

(** Younger than a minute at [now], by the limiter's own arithmetic. *)
Definition in_window (ip : pystr) (now : pyfloat) (c : pystr * pyfloat) : Prop :=
  c.1 = ip /\ fl_le c.2 (fl_sub now minute) = false.

#[export] Instance in_window_dec ip now c : Decision (in_window ip now c) := _.

Lemma drop_old_split cutoff times : exists old, times = old ++ drop_old cutoff times /\ Forall (fun t => fl_le t cutoff = true) old.
Proof.
  induction times as [|t ts (old & Heq & Hf)]; simpl; [by exists []|]. destruct (fl_le t cutoff) eqn:E; [|by exists []].
  exists (t :: old). split; [by simpl; f_equal|by constructor].
Qed.

Definition times_of (ip : pystr) sv : list pyfloat := default [] (dict_get ip (sv_request_times sv)).
Definition of_client (ip : pystr) (l : list (pystr * pyfloat)) : list pyfloat := map snd (filter (fun c => c.1 = ip) l).

(** What the deques hold of the allowed requests; the others were old at some request. *)
Definition limiter_inv (calls : list (pystr * pyfloat)) (acc : Server Ag * list (pystr * pyfloat)) : Prop :=
  forall ip, (zlen (times_of ip acc.1) <= limit)%Z /\
    exists old, of_client ip acc.2 = old ++ times_of ip acc.1 /\
      Forall (fun t => exists c, c ∈ calls /\ fl_le t (fl_sub c.2 minute) = true) old.

Lemma limiter_holds calls sv : (0 <= limit)%Z -> sv_request_times sv = [] -> limiter_inv calls (foldl limit_step (sv, []) calls).
Proof.
  intros Hlim H0. induction calls as [|c calls IH] using rev_ind.
  { intros ip. unfold times_of; simpl. rewrite H0; simpl. split; [done|]. by exists []. }
  rewrite foldl_app. cbn [foldl]. destruct (foldl limit_step (sv, []) calls) as [sv1 adm]. destruct c as [cip now].
  assert (forall ip, ip <> cip -> forall times, of_client ip (adm ++ [(cip, now)]) = of_client ip adm /\
    times_of ip (with_times (dict_set cip times (sv_request_times sv1)) sv1) = times_of ip sv1) as Hothers.
  { intros ip Hne times. unfold of_client, times_of; simpl. rewrite filter_app, filter_cons_False, filter_nil, app_nil_r by (simpl; congruence).
    by rewrite dict_get_set_ne. }
  assert (forall times, times_of cip (with_times (dict_set cip times (sv_request_times sv1)) sv1) = times) as Hown.
  { intros times. unfold times_of; simpl. by rewrite dict_get_set_eq. }
  assert (forall old : list pyfloat, Forall (fun t => exists c, c ∈ calls /\ fl_le t (fl_sub c.2 minute) = true) old ->
    Forall (fun t => exists c, c ∈ calls ++ [(cip, now)] /\ fl_le t (fl_sub c.2 minute) = true) old) as Hweak.
  { intros old Hf. eapply Forall_impl; [exact Hf|]. intros t (c & Hc & Ht). exists c. split; [|done]. apply elem_of_app. by left. }
  assert (forall o, Forall (fun t => fl_le t (fl_sub now minute) = true) o ->
    Forall (fun t => exists c, c ∈ calls ++ [(cip, now)] /\ fl_le t (fl_sub c.2 minute) = true) o) as Hnew.
  { intros o Hf. eapply Forall_impl; [exact Hf|]. intros t Ht. exists (cip, now). split; [|done]. apply elem_of_app. right. by apply list_elem_of_singleton. }
  unfold limit_step, _allow_request. cbn [fst snd]. fold (times_of cip sv1).
  destruct (drop_old_split (fl_sub now minute) (times_of cip sv1)) as (o & Heq & Ho).
  destruct (IH cip) as (Hlen & old & Hof & Hold). cbn [fst snd] in *.
  assert (zlen (times_of cip sv1) = (zlen o + zlen (drop_old (fl_sub now minute) (times_of cip sv1)))%Z) as Hz by by rewrite Heq at 1; rewrite zlen_app.
  pose proof (zlen_nonneg o). destruct (Z.leb_spec limit (zlen (drop_old (fl_sub now minute) (times_of cip sv1)))) as [Hle|Hlt];
    intros ip; cbn [fst snd]; (destruct (decide (ip = cip)) as [->|Hne];
      [rewrite Hown|destruct (IH ip) as (? & oi & Hoi & ?); destruct (Hothers ip Hne (drop_old (fl_sub now minute) (times_of cip sv1))) as [Ho1 Ho2];
        pose proof (proj2 (Hothers ip Hne (drop_old (fl_sub now minute) (times_of cip sv1) ++ [now]))) as Ho3; rewrite ?Ho1, ?Ho2, ?Ho3; eauto 8]).
  - split; [lia|]. exists (old ++ o). split; [by rewrite Hof, Heq at 1; rewrite app_assoc|]. apply Forall_app; auto.
  - split; [rewrite zlen_app; unfold zlen at 2; simpl; lia|]. exists (old ++ o). split; [|by apply Forall_app; auto].
    unfold of_client in *. rewrite filter_app, filter_cons_True, filter_nil, map_app, Hof by done. simpl.
    by rewrite Heq at 1; rewrite !app_assoc.
Qed.

Lemma window_count ip now l :
  zlen (filter (in_window ip now) l) = zlen (filter (fun t => fl_le t (fl_sub now minute) = false) (of_client ip l)).
Proof.
  unfold of_client, zlen. f_equal. induction l as [|[i t] l IH]; [done|].
  destruct (decide (i = ip)) as [Hi|Hi]; [|by rewrite !filter_cons_False by (unfold in_window; simpl; tauto)].
  rewrite (filter_cons_True (fun c => c.1 = ip)) by done. cbn [map snd].
  destruct (decide (fl_le t (fl_sub now minute) = false)) as [Ht|Ht].
  - rewrite !filter_cons_True by (unfold in_window; simpl; tauto). simpl. by rewrite IH.
  - rewrite !filter_cons_False by (unfold in_window; simpl; tauto). done.
Qed.
End Limit.

(** the rate limit holds in every window. Of the requests of one address, at
    most [max_requests_per_minute] are allowed in any minute that ends at one of
    them, whatever other addresses send, if the clock does not go back. *)
Theorem rate_limit_holds {Ag} cfg limit (calls : list (pystr * pyfloat)) ip now :
  check_config cfg = Ok tt -> sc_max_requests_per_minute cfg = Some limit ->
  (forall c, c ∈ calls ++ [(ip, now)] -> fl_le (fl_sub c.2 minute) (fl_sub now minute) = true) ->
  (zlen (filter (in_window ip now) (allowed_requests limit (new_server (Ag := Ag) cfg) (calls ++ [(ip, now)]))) <= limit)%Z.
Proof.
  intros (_ & _ & Hc)%config_ok Hl Hclock. specialize (Hc limit Hl).
  destruct (limiter_holds (Ag := Ag) limit (calls ++ [(ip, now)]) (new_server cfg) ltac:(lia) eq_refl ip) as (Hlen & old & Hof & Hold).
  unfold allowed_requests. etrans; [|exact Hlen]. set (acc := foldl _ _ _) in *.
  rewrite window_count.
  rewrite Hof, filter_app. replace (filter _ old) with (@nil pyfloat).
  - simpl. unfold zlen. pose proof (length_filter (fun t => fl_le t (fl_sub now minute) = false) (times_of ip acc.1)). lia.
  - clear Hof. symmetry. induction Hold as [|t old' (c & Hin & Ht) _ IHo]; [done|]. rewrite filter_cons_False; [exact IHo|].
    by rewrite (fl_le_trans _ _ _ Ht (Hclock c Hin)).
Qed.

(** ** Scenarios *)

Lemma advance {Ag} cfg t (sv : Server Ag) l ths p sv' l' p' :
  moves cfg t (sv, l) p (sv', l') p' -> ths !! t = Some p -> reachable cfg (MkSys sv l ths) ->
  reachable cfg (MkSys sv' l' (<[t := p']> ths)).
Proof. intros Hm Ht Hr. eapply r_step; [exact Hr|]. by apply one_thread with p. Qed.

Definition small_server : ServerConfig := {|
  sc_token := None; sc_session_ttl := None; sc_max_requests_per_minute := Some 2%Z; sc_max_runs := 1;
  sc_max_concurrent_requests := 2 |}.

Tactic Notation "go" ident(H) constr(t) uconstr(rule) :=
  eapply (advance _ t) in H; [|eapply rule; try reflexivity|reflexivity]; cbn in H.
Ltac start ths H :=
  assert (reachable (Ag := unit) small_server (MkSys (new_server small_server) None ths)) as H
    by (apply r_start; repeat constructor); cbn in H.

(** Two one-shot runs that overlap on a server that keeps one record: the first
    is evicted while it runs and stored again when it ends, under a key that no
    eviction will find. *)
Example run_records_leak : exists s : sys unit, reachable small_server s /\ sy_threads s = [Gone; Gone] /\
  sv_run_order (sy_server s) = [u "b"] /\ map fst (sv_runs (sy_server s)) = [u "b"; u "a"].
Proof.
  start [Arriving (u "x") (RunJob None); Arriving (u "y") (RunJob None)] H.
  go H 0 m_accept. go H 0 (m_allowed small_server 0 _ _ (u "x") (RunJob None) 2 (fl_of_Z 100)).
  go H 0 (m_register small_server 0 _ _ None (u "a")).
  go H 1 m_accept. go H 1 (m_allowed small_server 1 _ _ (u "y") (RunJob None) 2 (fl_of_Z 100)).
  go H 1 (m_register small_server 1 _ _ None (u "b")).
  go H 0 (m_private_fails small_server 0 _ None (u "a") 0 []). go H 0 m_update. go H 0 m_store. go H 0 m_finish.
  go H 1 (m_private_fails small_server 1 _ None (u "b") 1 []). go H 1 m_update. go H 1 m_store. go H 1 m_finish.
  eexists. split; [exact H|]. vm_compute. done.
Qed.

(** A WebSocket run of a session takes no lock: it runs the agent that an HTTP run
    of the session is running. *)
Definition overlapping : list pc := [Running (Some (u "s")) (u "a") 0 0; Streaming (Some (u "s")) 0].

Example stream_overlaps_session_run : exists (sv : Server unit) l, reachable small_server (MkSys sv l overlapping) /\
  map executing overlapping = [Some 0; Some 0].
Proof.
  start [Arriving (u "x") (RunJob (Some (u "s"))); Arriving (u "y") (StreamJob (Some (u "s")))] H.
  go H 0 m_accept. go H 0 (m_allowed small_server 0 _ _ (u "x") (RunJob (Some (u "s"))) 2 (fl_of_Z 100)).
  go H 0 (m_register small_server 0 _ _ (Some (u "s")) (u "a")).
  go H 0 (m_session small_server 0 _ _ (u "s") (u "a") 0 0 tt (fl_of_Z 100) (fl_of_Z 100)).
  go H 1 m_accept. go H 1 (m_allowed small_server 1 _ _ (u "y") (StreamJob (Some (u "s"))) 2 (fl_of_Z 100)).
  go H 1 (m_stream_session small_server 1 _ _ (u "s") 0 tt (fl_of_Z 100) (fl_of_Z 100)).
  go H 0 m_run_session. do 2 eexists. split; [exact H|]. reflexivity.
Qed.

Lemma admission_is_bounded_witness : exists s : sys unit, reachable small_server s /\ active_count (sy_threads s) = 2 /\
  sv_in_flight (sy_server s) = Z.of_nat (active_count (sy_threads s)) /\
  (sv_in_flight (sy_server s) + sv_slots (sy_server s) = sc_max_concurrent_requests small_server)%Z /\
  (0 <= sv_in_flight (sy_server s) <= sc_max_concurrent_requests small_server)%Z.
Proof.
  start [Arriving (u "x") HealthJob; Arriving (u "y") HealthJob] H. go H 0 m_accept. go H 1 m_accept.
  eexists. split; [exact H|]. split; [reflexivity|]. exact (admission_is_bounded small_server _ eq_refl H).
Defined.

Lemma drained_server_is_idle_witness : exists s : sys unit, reachable small_server s /\ Stopped true ∈ sy_threads s /\
  sv_stopping (sy_server s) = true /\ sv_in_flight (sy_server s) = 0%Z /\ forall p, p ∈ sy_threads s -> active p = false.
Proof.
  start [Stopping; Arriving (u "y") HealthJob] H. go H 0 m_stop. go H 0 m_drained. go H 1 (m_refuse small_server 1).
  eexists. split; [exact H|]. assert (Stopped true ∈ [Stopped true; Refused (u "server is shutting down")]) as Hin by left.
  split; [exact Hin|]. exact (drained_server_is_idle small_server _ eq_refl H Hin).
Defined.

Lemma runs_do_not_share_agents_witness : exists (sv : Server unit) l, reachable small_server (MkSys sv l overlapping) /\
  existsb is_session_stream overlapping = true.
Proof.
  destruct stream_overlaps_session_run as (sv & l & Hr & _). exists sv, l. split; [exact Hr|].
  assert (existsb is_session_stream overlapping =
    is_session_stream (Running (Some (u "s")) (u "a") 0 0) || is_session_stream (Streaming (Some (u "s")) 0)) as -> by reflexivity.
  apply (runs_do_not_share_agents small_server (MkSys sv l overlapping) 0 1 _ _ 0 Hr); [lia|reflexivity..].
Defined.

Lemma rate_limit_holds_witness :
  length (allowed_requests 2 (new_server (Ag := unit) small_server)
    ([(u "x", fl_of_Z 100); (u "x", fl_of_Z 110); (u "y", fl_of_Z 115)] ++ [(u "x", fl_of_Z 120)])) = 3%nat /\
  (zlen (filter (in_window (u "x") (fl_of_Z 120)) (allowed_requests 2 (new_server (Ag := unit) small_server)
    ([(u "x", fl_of_Z 100); (u "x", fl_of_Z 110); (u "y", fl_of_Z 115)] ++ [(u "x", fl_of_Z 120)]))) <= 2)%Z.
Proof.
  split; [vm_compute; reflexivity|]. apply (rate_limit_holds small_server 2); [reflexivity|reflexivity|].
  intros c Hc. cbn [app] in Hc. repeat (apply elem_of_cons in Hc as [->|Hc]; [vm_compute; reflexivity|]). by apply not_elem_of_nil in Hc.
Defined.
