(* ===== verification/ServerHttp.v ===== *)
(** * The agent server: requests (kinetic_sdk/server/app.py, second part)

    The handlers of [AgentServer._make_handler] as functions of one request over
    the server's state (Server.v) and the world, in a state and error monad that
    also records the replies sent. A request is handled here by itself; how the
    handlers' critical sections interleave is the subject of Server.v. *)

From stdpp Require Import base gmap strings list.
From Stdlib Require Import ZArith Lia SpecFloat.
From S2P Require Import Prelude Json EventBus Utf8 Workspace WebSocket Server.

(** ** Requests and replies *)

Inductive method := GET | POST.

Record Request := {
  rq_method : method;
  rq_path : pystr;
  rq_headers : list (pystr * pystr);
  rq_client : pystr;
  (** what the client sends after the headers, to the end of its stream *)
  rq_input : bytes;
}.

Inductive reply :=
| Reply (status : Z) (payload : json) (headers : list (pystr * pystr))
| SwitchingProtocols (accept : pystr).

(** [self.headers.get(name)]; header names ignore case. *)
Definition header (name : pystr) (rq : Request) : option pystr :=
  snd <$> List.find (fun h => bool_decide (lower h.1 = lower name)) (rq_headers rq).

Definition MAX_BODY_BYTES : Z := 1048576.

(** ** Interfaces *)

(** What the server uses of an agent. [agent_run sub] runs it with [sub]
    subscribed to every event of its bus; [None] is a run that never returns. *)
Class ServedAgent (Ag W : Type) := {
  agent_run : (Event -> W -> W) -> pystr -> bool -> option json -> Ag -> W -> option (result pystr) * Ag * W;
  agent_structured_output : Ag -> json;
  agent_usage : Ag -> jdict;
}.

(** The application's factories (of agents and workspaces), clock, identifiers,
    the connection's socket, and the exception hierarchy. *)
Class ServerEnv (Ag Ws W : Type) := {
  (** [inspect.signature(agent_factory).bind(session_id)] succeeds *)
  factory_binds : bool;
  agent_factory : option pystr -> W -> result Ag * W;
  legacy_factory : W -> result Ag * W;
  workspace_factory : option (pystr -> W -> result Ws * W);
  uuid4_hex : W -> pystr * W;
  monotonic : W -> pyfloat * W;
  socket_send : bytes -> W -> W;
  (** [base64.b64encode(hashlib.sha1(data).digest()).decode("ascii")] *)
  base64_sha1 : bytes -> pystr;
  isinstance : pyexn -> pystr -> bool;
}.

(** ** The monad *)

Record Http (Ag W : Type) := MkHttp { h_server : Server Ag; h_world : W; h_replies : list reply }.
Arguments MkHttp {Ag W}.
Arguments h_server {Ag W}.
Arguments h_world {Ag W}.
Arguments h_replies {Ag W}.

Inductive hout (T : Type) := HRet (x : T) | HRaise (e : pyexn) | HNever.
Arguments HRet {T}.
Arguments HRaise {T}.
Arguments HNever {T}.

Definition Handler (Ag W T : Type) : Type := Http Ag W -> hout T * Http Ag W.

#[export] Instance h_ret Ag W : MRet (Handler Ag W) := fun T x s => (HRet x, s).
#[export] Instance h_bind Ag W : MBind (Handler Ag W) := fun T U f m s =>
  match m s with
  | (HRet x, s') => f x s'
  | (HRaise e, s') => (HRaise e, s')
  | (HNever, s') => (HNever, s')
  end.

Section Monad.
Context {Ag W : Type}.

Definition h_get {T} (f : Http Ag W -> T) : Handler Ag W T := fun s => (HRet (f s), s).
Definition h_raise {T} (e : pyexn) : Handler Ag W T := fun s => (HRaise e, s).
Definition h_lift {T} (r : result T) : Handler Ag W T := match r with Ok x => mret x | Err e => h_raise e end.
(** A step of the world, and one of the shared state. *)
Definition outer {T} (f : W -> T * W) : Handler Ag W T := fun s =>
  let '(x, w) := f (h_world s) in (HRet x, MkHttp (h_server s) w (h_replies s)).
Definition shared {T} (f : Server Ag -> T * Server Ag) : Handler Ag W T := fun s =>
  let '(x, sv) := f (h_server s) in (HRet x, MkHttp sv (h_world s) (h_replies s)).
Definition shared_ (f : Server Ag -> Server Ag) : Handler Ag W unit := shared (fun sv => (tt, f sv)).
Definition say (r : reply) : Handler Ag W unit := fun s => (HRet tt, MkHttp (h_server s) (h_world s) (h_replies s ++ [r])).
(** [try: m except Exception as exc: h(exc)], and [try: m finally: f]. *)
Definition h_catch {T} (m : Handler Ag W T) (h : pyexn -> Handler Ag W T) : Handler Ag W T := fun s =>
  match m s with (HRaise e, s') => h e s' | o => o end.
Definition h_finally {T} (m : Handler Ag W T) (f : Handler Ag W unit) : Handler Ag W T := fun s =>
  match m s with
  | (HRet x, s') => (f ≫= fun _ => mret x) s'
  | (HRaise e, s') => (f ≫= fun _ => h_raise e) s'
  | o => o
  end.

(** [json.dumps(payload, ensure_ascii=False, default=str).encode("utf-8")]. *)
Definition reply_body `{PyRuntime} (payload : json) : result bytes := encode_utf8 (json_dumps dumps_utf8 payload).

Definition _send_json `{PyRuntime} (status : Z) (payload : jdict) : Handler Ag W unit :=
  match reply_body (JObj payload) with
  | Ok _ => say (Reply status (JObj payload) [])
  | Err e => h_raise e
  end.
Definition send_error `{PyRuntime} (status : Z) (message : pystr) : Handler Ag W unit := _send_json status [(u "error", JStr message)].
End Monad.

Section Handlers.
Context `{PyRuntime} `{Numerals} {Ag Ws W : Type} `{!ServedAgent Ag W} `{!ServerEnv Ag Ws W} `{!WorkspaceBase Ws W} (cfg : ServerConfig).

Abbreviation HM := (Handler Ag W).

(** ** Runs *)

Definition _call_factory (session_id : option pystr) : HM Ag :=
  r ← outer (if factory_binds then agent_factory session_id else legacy_factory); h_lift r.

(** The purge reads the clock only when sessions expire. *)
Definition purge_sessions : HM unit :=
  match sc_session_ttl cfg with
  | None => mret tt
  | Some _ => now ← outer monotonic; shared_ (_purge_expired_sessions cfg now)
  end.

Definition _make_agent (session_id : option pystr) : HM nat :=
  match session_id with
  | None => ag ← _call_factory None; shared (new_agent ag)
  | Some id =>
    purge_sessions;;
    cached ← h_get (fun s => dict_get id (sv_sessions (h_server s)));
    agent ← match cached with
            | Some agent => mret agent
            | None => ag ← _call_factory (Some id); agent ← shared (new_agent ag); shared_ (keep_session id agent);; mret agent
            end;
    now ← outer monotonic;
    shared_ (touch_session id now);;
    mret agent
  end.

(** [agent.run(...)] on an agent object. *)
Definition run_agent_object (sub : Event -> W -> W) (agent : nat) (message : pystr) (stream : bool)
    (output_schema : option json) : HM pystr := fun s =>
  match sv_agents (h_server s) !! agent with
  | None => (HNever, s)
  | Some ag =>
    let '(o, ag', w) := agent_run sub message stream output_schema ag (h_world s) in
    let s' := MkHttp (set_agent agent ag' (h_server s)) w (h_replies s) in
    match o with Some (Ok text) => (HRet text, s') | Some (Err e) => (HRaise e, s') | None => (HNever, s') end
  end.

Definition nobody (_ : Event) (w : W) : W := w.

(** The body of the [try] of [_run_agent]. *)
Definition run_and_record (record : nat) (message : pystr) (stream : bool) (output_schema : option json)
    (session_id : option pystr) : HM unit :=
  agent ← _make_agent session_id;
  final ← run_agent_object nobody agent message stream output_schema;
  match session_id with
  | None => mret tt
  | Some id => now ← outer monotonic; shared_ (touch_session id now)
  end;;
  ag ← h_get (fun s => sv_agents (h_server s) !! agent);
  match ag with
  | Some ag => shared_ (update_record record (completed_fields final (agent_structured_output (W := W) ag) (agent_usage (W := W) ag)))
  | None => mret tt
  end.

(** Returns the record object. *)
Definition _run_agent (message : pystr) (stream : bool) (output_schema : option json) (session_id : option pystr) : HM jdict :=
  run_id ← outer uuid4_hex;
  record ← shared (register_run cfg run_id);
  h_catch (run_and_record record message stream output_schema session_id)
    (fun e => shared_ (update_record record (failed_fields (describe e))));;
  shared_ (store_record run_id record);;
  h_get (fun s => default [] (sv_records (h_server s) !! record)).

(** ** Reading a request *)

Definition _authed (rq : Request) : bool :=
  match sc_token cfg with
  | None => true
  | Some token => bool_decide (header (u "Authorization") rq = Some (u "Bearer " ++ token))
  end.

(** [int(self.headers.get("Content-Length") or 0)]; an error is a [ValueError]. *)
Definition content_length (rq : Request) : result Z :=
  match header (u "Content-Length") rq with Some ((_ :: _) as text) => parse_int text | _ => Ok 0%Z end.

(** [self.rfile.read(length) if length else b"{}"]: a negative length reads to the end of the stream. *)
Definition read_raw (length : Z) (rq : Request) : bytes :=
  if (length =? 0)%Z then [123; 125]%N
  else if (length <? 0)%Z then rq_input rq
  else ztake length (rq_input rq).

(** [None] as the code has it; [Some []] is the empty dictionary it returns after replying. *)
Definition _read_body (rq : Request) : HM (option jdict) :=
  match content_length rq with
  | Err _ => mret None
  | Ok length =>
    if (MAX_BODY_BYTES <? length)%Z then send_error 413 (u "request body too large");; mret (Some [])
    else
      match text ← decode_utf8 (read_raw length rq); json_loads text with
      | None => send_error 400 (u "body must be JSON");; mret (Some [])
      | Some (JObj data) => mret (Some data)
      | Some _ => send_error 400 (u "body must be a JSON object");; mret (Some [])
      end
  end.

(** ** The workspace endpoints *)

Definition _workspace (body : jdict) : HM (option Ws) :=
  match workspace_factory with
  | None => send_error 404 (u "workspace API is not configured");; mret None
  | Some make =>
    match default (JStr (u "default")) (dict_get (u "workspace_id") body) with
    | JStr ((_ :: _) as id) =>
      r ← outer (make id);
      match r with
      | Ok ws => mret (Some ws)
      | Err e =>
        if existsb (isinstance e) [u "ValueError"; u "WorkspaceError"]
        then send_error 404 (u "workspace not found: " ++ exn_msg e);; mret None
        else h_raise e
      end
    | _ => send_error 400 (u "'workspace_id' must be a non-empty string");; mret None
    end
  end.

(** [isinstance(timeout, (int, float)) and timeout > 0]; nan passes, as [nan <= 0] is false. *)
Definition positive_number (v : json) : bool :=
  match v with
  | JInt z => (0 <? z)%Z
  | JBool b => b
  | JFloat f => negb (fl_le f (S754_zero false))
  | _ => false
  end.

Definition nonempty_str (v : option json) : option pystr := match v with Some (JStr ((_ :: _) as s)) => Some s | _ => None end.

(** A value that is absent or [null]. *)
Definition given (k : pystr) (body : jdict) : option json :=
  match dict_get k body with Some JNull => None | v => v end.

Definition command_reply (r : CommandResult) : jdict :=
  [(u "output", JStr (cr_output r)); (u "exit_code", JInt (cr_exit_code r));
   (u "duration_seconds", JFloat (cr_duration_seconds r)); (u "timed_out", JBool (cr_timed_out r));
   (u "truncated", JBool (cr_truncated r)); (u "error", opt_str (cr_error r)); (u "metadata", JObj (cr_metadata r))].

Definition ok_reply : jdict := [(u "ok", JBool true)].

Definition bad_path : HM unit := send_error 400 (u "'path' must be a non-empty string").

(** The body of the [try] of [_workspace_post]. *)
Definition workspace_operation (ws : Ws) (path : pystr) (body : jdict) : HM unit :=
  if bool_decide (path = u "/workspace/run") then
    match dict_get (u "command") body with
    | Some (JStr command) =>
      if bool_decide (strip command = []) then send_error 400 (u "'command' must be a non-empty string")
      else if match given (u "timeout") body with Some t => negb (positive_number t) | None => false end
      then send_error 400 (u "'timeout' must be a positive number")
      else
        match given (u "cwd") body with
        | Some (JStr cwd) => r ← outer (ws_run_command ws command (given (u "timeout") body) (Some cwd)); r ← h_lift r;
                             _send_json 200 (command_reply r)
        | None => r ← outer (ws_run_command ws command (given (u "timeout") body) None); r ← h_lift r;
                  _send_json 200 (command_reply r)
        | Some _ => send_error 400 (u "'cwd' must be a string or null")
        end
    | _ => send_error 400 (u "'command' must be a non-empty string")
    end
  else if bool_decide (path = u "/workspace/read") then
    match nonempty_str (dict_get (u "path") body) with
    | Some p => r ← outer (ws_read_text ws p); text ← h_lift r; _send_json 200 [(u "content", JStr text)]
    | None => bad_path
    end
  else if bool_decide (path = u "/workspace/write") then
    match nonempty_str (dict_get (u "path") body), dict_get (u "content") body with
    | Some p, Some (JStr content) => r ← outer (ws_write_text ws p content); h_lift r;; _send_json 200 ok_reply
    | _, _ => send_error 400 (u "'path' and 'content' must be strings")
    end
  else if bool_decide (path = u "/workspace/delete") then
    match nonempty_str (dict_get (u "path") body) with
    | Some p => r ← outer (ws_delete_file ws p); h_lift r;; _send_json 200 ok_reply
    | None => bad_path
    end
  else if bool_decide (path = u "/workspace/list") then
    match given (u "pattern") body with
    | Some (JStr pattern) => r ← outer (ws_list_files ws (Some pattern)); files ← h_lift r; _send_json 200 [(u "files", strs files)]
    | None => r ← outer (ws_list_files ws None); files ← h_lift r; _send_json 200 [(u "files", strs files)]
    | Some _ => send_error 400 (u "'pattern' must be a string or null")
    end
  else
    match default (JStr (u ".")) (dict_get (u "path") body) with
    | JStr p => r ← outer (ws_list_directory ws p); entries ← h_lift r; _send_json 200 [(u "entries", strs entries)]
    | _ => send_error 400 (u "'path' must be a string")
    end.

Definition _workspace_post (path : pystr) (body : jdict) : HM unit :=
  workspace ← _workspace body;
  match workspace with
  | None => mret tt
  | Some ws =>
    h_catch (workspace_operation ws path body) (fun e =>
      if isinstance e (u "FileNotFoundError") then send_error 404 (exn_msg e)
      else if existsb (isinstance e) [u "OSError"; u "ValueError"; u "WorkspaceError"] then send_error 400 (exn_msg e)
      else h_raise e)
  end.
(** ** Routes *)

Definition WORKSPACE_PATHS : list pystr :=
  map u ["/workspace/run"; "/workspace/read"; "/workspace/write"; "/workspace/delete"; "/workspace/list";
         "/workspace/list-directory"]%string.

(** [path.rsplit("/", 1)[-1]]. *)
Definition last_segment (path : pystr) : pystr := default [] (last (split_on 47 path)).

Definition record_status (record : jdict) : Z :=
  if bool_decide (dict_get (u "status") record = Some (JStr (u "completed"))) then 200 else 500.

Definition post_run (body : jdict) : HM unit :=
  match dict_get (u "message") body with
  | Some (JStr message) =>
    if bool_decide (strip message = []) then send_error 400 (u "'message' must be a non-empty string")
    else
      let run session_id schema :=
        record ← _run_agent message (opt_truthy (dict_get (u "stream") body)) schema session_id;
        _send_json (record_status record) record in
      match given (u "session_id") body, given (u "output_schema") body with
      | Some (JStr ((_ :: _) as id)), Some (JObj schema) => run (Some id) (Some (JObj schema))
      | Some (JStr ((_ :: _) as id)), None => run (Some id) None
      | None, Some (JObj schema) => run None (Some (JObj schema))
      | None, None => run None None
      | Some (JStr (_ :: _)), Some _ | None, Some _ => send_error 400 (u "'output_schema' must be an object")
      | Some _, _ => send_error 400 (u "'session_id' must be a non-empty string or null")
      end
  | _ => send_error 400 (u "'message' must be a non-empty string")
  end.

(** The content of the last user message that has text. *)
Definition user_text (item : json) : option pystr :=
  match jget (u "role") item, jget (u "content") item with
  | Some (JStr role), Some (JStr text) => if bool_decide (role = u "user") then Some text else None
  | _, _ => None
  end.

(** [record[key]]. *)
Definition item_of (key : pystr) (d : jdict) : HM json :=
  match dict_get key d with Some v => mret v | None => h_raise (key_error key) end.

Definition _openai_completion (body : jdict) : HM unit :=
  if bool_decide (dict_get (u "stream") body = Some (JBool true))
  then send_error 400 (u "streaming not yet supported on this endpoint")
  else
    match nonempty_str (dict_get (u "model") body), dict_get (u "messages") body with
    | None, _ => send_error 400 (u "'model' must be a non-empty string")
    | Some model, Some (JList messages) =>
      match head (omap user_text (rev messages)) with
      | Some message =>
        if bool_decide (strip message = []) then send_error 400 (u "'messages' must contain a non-empty user message")
        else
          record ← _run_agent message false None (Some model);
          if (record_status record =? 500)%Z then _send_json 500 record
          else
            usage ← item_of (u "usage") record;
            run_id ← item_of (u "run_id") record;
            final ← item_of (u "final") record;
            input ← item_of (u "input_tokens") (match usage with JObj d => d | _ => [] end);
            output ← item_of (u "output_tokens") (match usage with JObj d => d | _ => [] end);
            match input, output with
            | JInt i, JInt o =>
              _send_json 200
                [(u "id", JStr (u "chatcmpl-" ++ py_str run_id)); (u "object", JStr (u "chat.completion"));
                 (u "model", JStr model);
                 (u "choices", JList [JObj [(u "index", JInt 0);
                    (u "message", JObj [(u "role", JStr (u "assistant")); (u "content", final)]);
                    (u "finish_reason", JStr (u "stop"))]]);
                 (u "usage", JObj [(u "prompt_tokens", JInt i); (u "completion_tokens", JInt o); (u "total_tokens", JInt (i + o))])]
            | _, _ => h_raise (PyExn (u "TypeError") (u "unsupported operand type(s) for +"))
            end
      | None => send_error 400 (u "'messages' must contain a non-empty user message")
      end
    | Some _, _ => send_error 400 (u "'messages' must be an array")
    end.

(** ** WebSocket runs *)

Definition websocket_guid : pystr := u "258EAFA5-E914-47DA-95CA-C5AB0DC85B11".

(** [self._ws_send(json.dumps(v))]; errors of the socket are swallowed. *)
Definition ws_reply (v : json) : HM unit :=
  data ← h_lift (_ws_send (json_dumps dumps_default v)); outer (fun w => (tt, socket_send data w)).

(** The subscriber [publish]; the bus isolates what it raises. *)
Definition publish_frame (e : Event) (w : W) : W :=
  match _ws_send (json_dumps dumps_default (JObj [(u "type", JStr (e_type e)); (u "payload", JObj (e_payload e))])) with
  | Ok data => socket_send data w
  | Err _ => w
  end.

(** The message and session of the first frame. [None]: the request is not valid.
    Subscripting a value that is not a dictionary raises what the code does not catch. *)
Definition stream_request (payload : pystr) : result (option (pystr * option pystr)) :=
  match json_loads payload with
  | None => Ok None
  | Some (JObj d) =>
    match dict_get (u "message") d, given (u "session_id") d with
    | Some (JStr message), Some (JStr id) => Ok (if bool_decide (strip message = []) then None else Some (message, Some id))
    | Some (JStr message), None => Ok (if bool_decide (strip message = []) then None else Some (message, None))
    | _, _ => Ok None
    end
  | Some _ => Err (PyExn (u "TypeError") (u "indices must be integers or slices, not str"))
  end.

Definition _websocket_run (rq : Request) : HM unit :=
  match nonempty_str (JStr <$> header (u "Sec-WebSocket-Key") rq),
        bool_decide (lower (default [] (header (u "Upgrade") rq)) = u "websocket") with
  | Some key, true =>
    if forallb (fun c => (c <? 128)%N) key then
      say (SwitchingProtocols (base64_sha1 (key ++ websocket_guid)));;
      received ← h_lift (_ws_receive (rq_input rq));
      match received.1 with
      | None => mret tt
      | Some payload =>
        request ← h_lift (stream_request payload);
        match request with
        | None => ws_reply (JObj [(u "error", JStr (u "expected JSON with non-empty 'message'"))])
        | Some (message, session_id) =>
          agent ← _make_agent session_id;
          final ← run_agent_object publish_frame agent message false None;
          ws_reply (JObj [(u "type", JStr (u "run.completed")); (u "final", JStr final)])
        end
      end
    else h_raise (PyExn (u "UnicodeEncodeError") (u "ordinal not in range(128)"))
  | _, _ => send_error 400 (u "websocket upgrade required")
  end.

(** ** Requests *)

Definition _do_get (rq : Request) : HM unit :=
  if bool_decide (rq_path rq = u "/health") then
    purge_sessions;;
    sv ← h_get h_server;
    _send_json 200 [(u "status", JStr (u "ok")); (u "active_sessions", JInt (zlen (sv_sessions sv)));
                    (u "in_flight_requests", JInt (sv_in_flight sv))]
  else if negb (_authed rq) then send_error 401 (u "unauthorized")
  else if bool_decide (rq_path rq = u "/runs/stream") then _websocket_run rq
  else if starts_with (u "/runs/") (rq_path rq) then
    record ← h_get (fun s => find_run (last_segment (rq_path rq)) (h_server s));
    match record with
    | None => send_error 404 (u "run not found")
    | Some record => _send_json 200 record
    end
  else send_error 404 (u "not found").

Definition _do_post (rq : Request) : HM unit :=
  if negb (_authed rq) then send_error 401 (u "unauthorized")
  else if negb (elem_b (rq_path rq) ([u "/runs"; u "/v1/chat/completions"] ++ WORKSPACE_PATHS))
  then send_error 404 (u "not found")
  else
    body ← _read_body rq;
    match body with
    | None | Some [] => mret tt
    | Some body =>
      if elem_b (rq_path rq) WORKSPACE_PATHS then _workspace_post (rq_path rq) body
      else if bool_decide (rq_path rq = u "/v1/chat/completions") then _openai_completion body
      else post_run body
    end.

Definition _handle_request (rq : Request) (operation : HM unit) : HM unit :=
  refused ← shared _begin_request;
  match refused with
  | Some why => send_error 503 why
  | None =>
    h_finally
      (match sc_max_requests_per_minute cfg with
       | None => operation
       | Some limit =>
         now ← outer monotonic;
         limited ← shared (_allow_request limit (rq_client rq) now);
         match limited with
         | Some retry_after =>
           say (Reply 429 (JObj [(u "error", JStr (u "rate_limited"))]) [(u "Retry-After", dec retry_after)])
         | None => operation
         end
       end)
      (shared_ _finish_request)
  end.

Definition handle (rq : Request) : HM unit :=
  _handle_request rq (match rq_method rq with GET => _do_get rq | POST => _do_post rq end).
End Handlers.

(** ** Replies *)

Section Replies.
Context `{PyRuntime} `{Numerals} {Ag Ws W : Type} `{!ServedAgent Ag W} `{!ServerEnv Ag Ws W} `{!WorkspaceBase Ws W} (cfg : ServerConfig).

Abbreviation HM := (Handler Ag W).

(** [m] sends so many replies, for each way it may end. *)
Definition tells {T} (Q : hout T -> nat -> Prop) (m : HM T) : Prop := forall s,
  exists rs, h_replies (m s).2 = h_replies s ++ rs /\ Q (m s).1 (length rs).

Abbreviation quiet := (tells (fun _ n => n = 0)).
(** One reply, sent last: an exception is raised before it. *)
Definition last_reply {T} (o : hout T) (n : nat) : Prop := match o with HRet _ => n = 1 | _ => n = 0 end.
Abbreviation replies_last := (tells last_reply).

Lemma tells_impl {T} (Q Q' : hout T -> nat -> Prop) m : tells Q m -> (forall o n, Q o n -> Q' o n) -> tells Q' m.
Proof using Type. intros Hm HQ s. destruct (Hm s) as (rs & Hr & Hq). exists rs. auto. Qed.

Lemma tells_bind {T U} (Q : hout T -> nat -> Prop) (Q' : hout U -> nat -> Prop) m f :
  tells Q m -> (forall x n, Q (HRet x) n -> tells (fun o k => Q' o (n + k)) (f x)) ->
  (forall e n, Q (HRaise e) n -> Q' (HRaise e) n) -> (forall n, Q HNever n -> Q' HNever n) -> tells Q' (m ≫= f).
Proof using Type.
  intros Hm Hf He Hn s. destruct (Hm s) as (rs & Hr & Hq). unfold mbind, h_bind. destruct (m s) as [[x|e|] s1]; simpl in *.
  - destruct (Hf x _ Hq s1) as (rs' & Hr' & Hq'). exists (rs ++ rs'). rewrite Hr', Hr, app_assoc, length_app. auto.
  - exists rs. auto.
  - exists rs. auto.
Qed.

(** A quiet first part. *)
Lemma quiet_then {T U} (Q : hout U -> nat -> Prop) (m : HM T) f :
  quiet m -> (forall x, tells Q (f x)) -> (forall e, Q (HRaise e) 0) -> Q HNever 0 -> tells Q (m ≫= f).
Proof using Type.
  intros Hm Hf He Hn. eapply tells_bind; [exact Hm|..].
  - intros x n ->. apply Hf.
  - by intros e n ->.
  - by intros n ->.
Qed.

Lemma quiet_ret {T} (x : T) : quiet (mret x).
Proof using Type. intros s. exists []. by rewrite app_nil_r. Qed.
Lemma quiet_raise {T} e : quiet (h_raise (T := T) e).
Proof using Type. intros s. exists []. by rewrite app_nil_r. Qed.
Lemma quiet_lift {T} (r : result T) : quiet (h_lift r).
Proof using Type. destruct r; [apply quiet_ret|apply quiet_raise]. Qed.
Lemma quiet_get {T} (f : Http Ag W -> T) : quiet (h_get f).
Proof using Type. intros s. exists []. by rewrite app_nil_r. Qed.
Lemma quiet_world {T} (f : W -> T * W) : quiet (outer f).
Proof using Type. intros s. unfold outer. destruct (f (h_world s)). exists []. by rewrite app_nil_r. Qed.
Lemma quiet_shared {T} (f : Server Ag -> T * Server Ag) : quiet (shared f).
Proof using Type. intros s. unfold shared. destruct (f (h_server s)). exists []. by rewrite app_nil_r. Qed.
Lemma quiet_bind {T U} (m : HM T) (f : T -> HM U) : quiet m -> (forall x, quiet (f x)) -> quiet (m ≫= f).
Proof using Type. intros Hm Hf. by apply quiet_then. Qed.
Lemma quiet_catch {T} (m : HM T) h : quiet m -> (forall e, quiet (h e)) -> quiet (h_catch m h).
Proof using Type.
  intros Hm Hh s. destruct (Hm s) as (rs & Hr & Hq). unfold h_catch. destruct (m s) as [[x|e|] s1]; simpl in *; eauto.
  apply nil_length_inv in Hq as ->. rewrite app_nil_r in Hr. rewrite <- Hr. apply Hh.
Qed.
Lemma quiet_run sub a msg st sc : quiet (run_agent_object sub a msg st sc).
Proof using Type.
  intros s. unfold run_agent_object. case_match; [|exists []; by rewrite app_nil_r].
  destruct (agent_run _ _ _ _ _ _) as [[[[?|?]|] ?] ?]; exists []; by rewrite app_nil_r.
Qed.
Lemma last_say r : replies_last (say r).
Proof using Type. intros s. by exists [r]. Qed.
Lemma last_json st p : replies_last (_send_json st p).
Proof using Type. unfold _send_json. destruct (reply_body _); [apply last_say|]. intros s. exists []. by rewrite app_nil_r. Qed.
Lemma last_error st m : replies_last (send_error st m).
Proof using Type. apply last_json. Qed.
Lemma last_raise {T} e : replies_last (h_raise (T := T) e).
Proof using Type. intros s. exists []. by rewrite app_nil_r. Qed.
Lemma last_catch {T} (m : HM T) h : replies_last m -> (forall e, replies_last (h e)) -> replies_last (h_catch m h).
Proof using Type.
  intros Hm Hh s. destruct (Hm s) as (rs & Hr & Hq). unfold h_catch. destruct (m s) as [[x|e|] s1]; simpl in *; eauto.
  apply nil_length_inv in Hq as ->. rewrite app_nil_r in Hr. rewrite <- Hr. apply Hh.
Qed.

Create HintDb replies discriminated.
Hint Constants Opaque : replies.
Hint Resolve quiet_ret quiet_raise quiet_lift quiet_get quiet_world quiet_shared quiet_run : replies.
Hint Resolve last_say last_json last_error last_raise : replies.

Ltac quiet_step :=
  lazymatch goal with
  | |- quiet (mbind _ _) => apply quiet_bind
  | |- quiet (h_catch _ _) => apply quiet_catch
  | |- quiet (match ?x with _ => _ end) => destruct x
  end.
Ltac quiet_tac := repeat first [progress intros | solve [eauto 2 with replies] | quiet_step].

Lemma quiet_purge : quiet (purge_sessions cfg).
Proof using Type. unfold purge_sessions, shared_. quiet_tac. Qed.
Lemma quiet_make id : quiet (_make_agent cfg id).
Proof using Type. pose proof quiet_purge. unfold _make_agent, _call_factory, shared_. quiet_tac. Qed.
Hint Resolve quiet_purge quiet_make : replies.
Lemma quiet_run_agent msg st sc id : quiet (_run_agent cfg msg st sc id).
Proof using Type. unfold _run_agent, run_and_record, shared_. quiet_tac. Qed.
Hint Resolve quiet_run_agent : replies.
Lemma quiet_item k d : quiet (item_of k d).
Proof using Type. unfold item_of. quiet_tac. Qed.
Lemma quiet_ws_reply v : quiet (ws_reply v).
Proof using Type. unfold ws_reply. quiet_tac. Qed.
Hint Resolve quiet_item quiet_ws_reply : replies.

Ltac last_step :=
  lazymatch goal with
  | |- replies_last (mbind _ _) => apply quiet_then; [|intros ?|by intros|reflexivity]
  | |- replies_last (h_catch _ _) => apply last_catch; [|intros ?]
  | |- replies_last (let '(_, _) := ?x in _) => destruct x
  | |- replies_last (match ?x with _ => _ end) => destruct x
  end.
Ltac last_tac := repeat first [solve [eauto 2 with replies] | last_step].

Lemma last_operation ws p body : replies_last (workspace_operation ws p body).
Proof using Type. unfold workspace_operation, bad_path. last_tac. Qed.
Lemma last_post_run body : replies_last (post_run cfg body).
Proof using Type. unfold post_run. last_tac. Qed.
Lemma last_openai body : replies_last (_openai_completion cfg body).
Proof using Type. unfold _openai_completion. last_tac. Qed.
Hint Resolve last_operation last_post_run last_openai : replies.

(** One reply, also before an exception. *)
Definition one_reply {T} (o : hout T) (n : nat) : Prop := n <= 1 /\ match o with HRet _ => n = 1 | _ => True end.
Abbreviation replies_once := (tells one_reply).

Lemma last_once {T} (m : HM T) : replies_last m -> replies_once m.
Proof using Type. intros Hm. eapply tells_impl; [exact Hm|]. intros [] n; unfold last_reply, one_reply; lia. Qed.

(** A reply sent for want of a result, or a result and no reply. *)
Definition reply_or {T} (o : hout (option T)) (n : nat) : Prop :=
  match o with HRet None => n = 1 | _ => n = 0 end.

Lemma error_or {T} st m : tells reply_or (send_error st m;; mret (@None T)).
Proof using Type.
  eapply tells_bind; [apply last_error|..]; cbn [last_reply reply_or]; [|done..].
  intros ? n -> s. exists []. by rewrite app_nil_r.
Qed.

Lemma workspace_or body : tells reply_or (_workspace (W := W) body).
Proof using Type.
  unfold _workspace. destruct workspace_factory as [make|]; [|apply error_or].
  destruct (default _ _) as [| | | |[|c id]| |]; try apply error_or.
  apply quiet_then; [apply quiet_world| |done|done]. intros [ws|e].
  - intros s. exists []. by rewrite app_nil_r.
  - destruct (existsb _ _); [apply error_or|]. intros s. exists []. by rewrite app_nil_r.
Qed.

Lemma last_workspace path body : replies_last (_workspace_post (W := W) path body).
Proof using Type.
  unfold _workspace_post. eapply tells_bind; [apply workspace_or|..]; cbn [reply_or last_reply]; [|done..].
  intros [ws|] n ->; [|intros s; exists []; by rewrite app_nil_r].
  apply (last_catch _ _ (last_operation ws path body)). intros e. last_tac.
Qed.
Hint Resolve last_workspace : replies.

(** A body that yields no reply: its length does not parse, or it is an empty object. *)
Definition silent (rq : Request) : bool :=
  match content_length rq with
  | Err _ => true
  | Ok length => (length <=? MAX_BODY_BYTES)%Z &&
      bool_decide ((text ← decode_utf8 (read_raw length rq); json_loads text) = Some (JObj []))
  end.

Lemma read_body_says rq : tells (fun (o : hout (option jdict)) n =>
    match o with
    | HRet None => n = 0 /\ silent rq = true
    | HRet (Some []) => n = 1 \/ n = 0 /\ silent rq = true
    | _ => n = 0
    end) (_read_body (Ag := Ag) (W := W) rq).
Proof using Type.
  assert (forall (Q : hout (option jdict) -> nat -> Prop) st m, Q (HRet (Some [])) 1 -> (forall e, Q (HRaise e) 0) -> tells Q (send_error (Ag := Ag) (W := W) st m;; mret (Some []))) as He.
  { intros Q st m HQ He. unfold send_error, _send_json. destruct (reply_body _); intros s; [by eexists [_]|].
    exists []. rewrite app_nil_r. split; [done|apply He]. }
  unfold _read_body, silent. destruct (content_length rq) as [len|]; [|intros s; exists []; by rewrite app_nil_r].
  destruct (Z.ltb_spec MAX_BODY_BYTES len) as [|Hle]; [apply He; [by left|by intros]|]. destruct (Z.leb_spec len MAX_BODY_BYTES); [|lia].
  destruct (mbind _ _) as [[]|] eqn:E; try (apply He; [by left|by intros]).
  intros s. exists []. rewrite app_nil_r. split; [done|]. simpl. destruct d; [|done]. right. split; [done|]. by rewrite bool_decide_true.
Qed.

Lemma get_once rq : replies_once (_do_get cfg rq).
Proof using Type.
  unfold _do_get. destruct (bool_decide (rq_path rq = u "/health")); [apply last_once; last_tac|].
  destruct (negb _); [apply last_once; last_tac|].
  destruct (bool_decide (rq_path rq = u "/runs/stream")); [|apply last_once; last_tac]. unfold _websocket_run.
  destruct (nonempty_str _); [|apply last_once; last_tac].
  destruct (bool_decide (lower (default [] (header (u "Upgrade") rq)) = u "websocket")); [|apply last_once; last_tac].
  destruct (forallb _ _); [|apply last_once, last_raise].
  eapply tells_bind; [apply last_say|..]; cbn [last_reply]; unfold one_reply; [|intros e n ->; split; [lia|done]..|intros n ->; split; [lia|done]].
  intros _ n ->. eapply (tells_impl (fun _ n => n = 0)); [|intros o n ->; by destruct o].
  quiet_tac.
Qed.

(** What a POST is answered. *)
Lemma post_once rq : tells (fun o n => n <= 1 /\ match o with HRet _ => n = 1 \/ n = 0 /\ silent rq = true | _ => True end)
  (_do_post cfg rq).
Proof using Type.
  assert (forall m : HM unit, replies_last m ->
    tells (fun o n => n <= 1 /\ match o with HRet _ => n = 1 \/ n = 0 /\ silent rq = true | _ => True end) m) as Hl.
  { intros m Hm. eapply tells_impl; [exact Hm|]. intros [] n; unfold last_reply; intros ->; auto. }
  unfold _do_post. destruct (negb _); [apply Hl; last_tac|]. destruct (negb _); [apply Hl; last_tac|].
  eapply tells_bind; [apply read_body_says|..]; cbv beta iota; [|by intros e n ->; auto|by intros n ->; auto].
  intros [[|kv d]|] n Hn.
  - intros s. exists []. rewrite app_nil_r. split; [done|]. cbn [length mret h_ret fst]. destruct Hn as [->|[-> ?]]; auto.
  - subst n. apply Hl. last_tac.
  - intros s. exists []. rewrite app_nil_r. split; [done|]. cbn [length mret h_ret fst]. destruct Hn as [-> ?]. auto.
Qed.

Lemma handle_says rq : tells (fun o n => n <= 1 /\
    match o with HRet _ => n = 1 \/ n = 0 /\ rq_method rq = POST /\ silent rq = true | _ => True end) (handle cfg rq).
Proof using Type.
  set (Q := fun (o : hout unit) (n : nat) => n <= 1 /\ match o with HRet _ => n = 1 \/ n = 0 /\ rq_method rq = POST /\ silent rq = true | _ => True end).
  assert (forall m : HM unit, replies_last m -> tells Q m) as Hl.
  { intros m Hm. eapply tells_impl; [exact Hm|]. unfold Q. intros [] n; unfold last_reply; intros ->; auto. }
  assert (forall (m : HM unit) f, quiet f -> tells Q m -> tells Q (h_finally m f)) as Hfin.
  { intros m f Hf Hm s. destruct (Hm s) as (rs & Hr & Hq). unfold h_finally, mbind, h_bind, h_raise, mret, h_ret. destruct (m s) as [[x|e|] s1]; simpl in *; [..|by eauto];
      destruct (Hf s1) as (rs1 & Hr1 & Hn1); apply nil_length_inv in Hn1 as ->; rewrite app_nil_r in Hr1;
      destruct (f s1) as [[y|e'|] s2]; simpl in *; exists rs; (split; [congruence|]); unfold Q in *; tauto. }
  assert (forall e, Q (HRaise e) 0) as HQ by (split; auto). assert (Q HNever 0) as HN by (split; auto).
  unfold handle, _handle_request. apply quiet_then; [apply quiet_shared| |exact HQ|exact HN]. intros [why|]; [apply Hl; last_tac|].
  apply Hfin; [apply quiet_shared|].
  assert (tells Q (match rq_method rq with GET => _do_get cfg rq | POST => _do_post cfg rq end)) as Hop.
  { unfold Q. destruct (rq_method rq).
    - eapply tells_impl; [apply get_once|]. intros [] n [? ?]; auto.
    - eapply tells_impl; [apply post_once|]. intros [] n [? ?]; tauto. }
  destruct (sc_max_requests_per_minute cfg) as [limit|]; [|done].
  apply quiet_then; [apply quiet_world| |exact HQ|exact HN]. intros now.
  apply quiet_then; [apply quiet_shared| |exact HQ|exact HN]. intros [wait|]; [apply Hl; last_tac|done].
Qed.
End Replies.

(** ** Theorems *)

Section Theorems.
Context `{PyRuntime} `{Numerals} {Ag Ws W : Type} `{!ServedAgent Ag W} `{!ServerEnv Ag Ws W} `{!WorkspaceBase Ws W} (cfg : ServerConfig).
Implicit Types s : Http Ag W.

(** Everything but the admission counters and the rate limiter's times. *)
Definition same_data (sv sv' : Server Ag) : Prop :=
  sv_runs sv' = sv_runs sv /\ sv_records sv' = sv_records sv /\ sv_run_order sv' = sv_run_order sv /\
  sv_sessions sv' = sv_sessions sv /\ sv_agents sv' = sv_agents sv /\ sv_activity sv' = sv_activity sv.

Lemma begin_data sv : same_data sv (_begin_request sv).2.
Proof. unfold _begin_request. by repeat case_match. Qed.
Lemma allow_data limit ip now sv : same_data sv (_allow_request limit ip now sv).2.
Proof. unfold _allow_request. by case_match. Qed.
Lemma same_data_trans sv1 sv2 sv3 : same_data sv1 sv2 -> same_data sv2 sv3 -> same_data sv1 sv3.
Proof. unfold same_data. intuition congruence. Qed.

(** One refusal, for want of authorization, of capacity or of patience. *)
Definition refused_reply (r : reply) : Prop :=
  exists status message headers, r = Reply status (JObj [(u "error", JStr message)]) headers /\ status ∈ [401; 429; 503]%Z.

Lemma error_said st m : is_ok (reply_body (JObj [(u "error", JStr m)])) = true ->
  send_error (Ag := Ag) (W := W) st m = say (Reply st (JObj [(u "error", JStr m)]) []).
Proof using Type. unfold send_error, _send_json. by destruct (reply_body _). Qed.

Lemma begin_reason (sv : Server Ag) why : (_begin_request sv).1 = Some why ->
  why = u "server is shutting down" \/ why = u "server is at concurrent request capacity".
Proof using Type.
  unfold _begin_request. destruct (sv_stopping sv); [intros E; simpl in E; injection E as <-; left; reflexivity|].
  destruct (sv_slots sv <=? 0)%Z; intros E; simpl in E; [injection E as <-; right; reflexivity|discriminate E].
Qed.

Lemma begin_said (sv : Server Ag) why : (_begin_request sv).1 = Some why ->
  is_ok (reply_body (JObj [(u "error", JStr why)])) = true.
Proof using Type. intros [-> | ->]%begin_reason; vm_compute; reflexivity. Qed.

Lemma unauthorized_handled rq token s :
  sc_token cfg = Some token -> header (u "Authorization") rq <> Some (u "Bearer " ++ token) ->
  ~ (rq_method rq = GET /\ rq_path rq = u "/health") ->
  exists s', handle cfg rq s = (HRet tt, s') /\
  (h_world s' = h_world s \/ h_world s' = (monotonic (h_world s)).2) /\ same_data (h_server s) (h_server s') /\
  exists r, h_replies s' = h_replies s ++ [r] /\ refused_reply r.
Proof.
  intros Ht Hh Hp.
  assert ((match rq_method rq with GET => _do_get cfg rq | POST => _do_post cfg rq end) = say (Reply 401 (JObj [(u "error", JStr (u "unauthorized"))]) [])) as Hop.
  { assert (_authed cfg rq = false) as Ha by (unfold _authed; rewrite Ht; by apply bool_decide_eq_false).
    rewrite <- (error_said 401 (u "unauthorized")) by (vm_compute; reflexivity).
    unfold _do_get, _do_post. rewrite Ha. destruct (rq_method rq); [|done]. rewrite bool_decide_false; [done|]. naive_solver. }
  assert (forall st m hs, st ∈ [401; 429; 503]%Z -> refused_reply (Reply st (JObj [(u "error", JStr m)]) hs)) as Hr.
  { intros st m hs Hin. by exists st, m, hs. }
  unfold handle, _handle_request, shared. rewrite Hop. unfold mbind at 1, h_bind.
  pose proof (begin_data (h_server s)) as Hb. pose proof (begin_said (h_server s)) as Hs.
  destruct (_begin_request (h_server s)) as [[why|] sv1]; simpl in *.
  { rewrite error_said by by apply Hs. eexists. split; [reflexivity|]. split; [by left|]. split; [done|]. eexists. split; [reflexivity|]. apply Hr. set_solver. }
  unfold h_finally, mbind, h_bind, shared_, shared, outer. destruct (sc_max_requests_per_minute cfg) as [limit|]; simpl.
  - destruct (monotonic (h_world s)) as [now w] eqn:Em; simpl. pose proof (allow_data limit (rq_client rq) now sv1) as Hal.
    destruct (_allow_request limit (rq_client rq) now sv1) as [[wait|] sv2]; simpl in *;
      (eexists; split; [reflexivity|]; split; [by right|]; split; [by eapply same_data_trans|]; eexists; split; [reflexivity|apply Hr; set_solver]).
  - eexists. split; [reflexivity|]. split; [by left|]. split; [done|]. eexists. split; [reflexivity|]. apply Hr. set_solver.
Qed.

(** The body a handler reads is capped when its declared length is not negative. *)
Lemma body_is_capped rq length : content_length rq = Ok length -> (0 <= length <= MAX_BODY_BYTES)%Z ->
  (zlen (read_raw length rq) <= MAX_BODY_BYTES)%Z.
Proof.
  intros _ Hl. unfold read_raw. destruct (Z.eqb_spec length 0); [done|]. destruct (Z.ltb_spec length 0); [lia|].
  rewrite zlen_ztake by lia. lia.
Qed.
End Theorems.

(** C24: a request without the token reaches nothing. If a token is configured, a
    request that does not present it, other than the health check, is answered
    with one refusal (401, or 429 and 503 before it), and no run, record, session
    or agent changes: neither an agent nor a factory nor a workspace is called, the
    world changes by one reading of the clock at most. *)
Theorem unauthorized_request_changes_nothing `{PyRuntime} `{Numerals} {Ag Ws W : Type} `{!ServedAgent Ag W}
    `{!ServerEnv Ag Ws W} `{!WorkspaceBase Ws W} cfg rq token (s : Http Ag W) :
  sc_token cfg = Some token -> header (u "Authorization") rq <> Some (u "Bearer " ++ token) ->
  ~ (rq_method rq = GET /\ rq_path rq = u "/health") ->
  exists s', handle cfg rq s = (HRet tt, s') /\
  (h_world s' = h_world s \/ h_world s' = (monotonic (h_world s)).2) /\ same_data (h_server s) (h_server s') /\
  exists r, h_replies s' = h_replies s ++ [r] /\ refused_reply r.
Proof. apply unauthorized_handled. Qed.

(** C25: a request is answered once. However a handler ends, it has sent at most
    one reply; a handler that returns has sent exactly one, except to a POST whose
    body is an empty object or whose length does not parse: that one is not
    answered at all. *)
Theorem request_answered_once `{PyRuntime} `{Numerals} {Ag Ws W : Type} `{!ServedAgent Ag W}
    `{!ServerEnv Ag Ws W} `{!WorkspaceBase Ws W} cfg rq (s : Http Ag W) :
  let '(o, s') := handle cfg rq s in
  exists rs, h_replies s' = h_replies s ++ rs /\ length rs <= 1 /\
    match o with HRet _ => length rs = 1 \/ length rs = 0 /\ rq_method rq = POST /\ silent rq = true | _ => True end.
Proof.
  destruct (handle_says cfg rq s) as (rs & Hr & Hq). destruct (handle cfg rq s) as [o s']. by exists rs.
Qed.

(** ** Scenarios *)

Module EchoServer.
(** A server whose agent answers with the message, without clocks or workspaces. *)
#[export] Instance echo_agent : ServedAgent nat unit := {|
  agent_run := fun _ message _ _ n w => (Some (Ok message), S n, w);
  agent_structured_output := fun _ => JNull;
  agent_usage := fun n => [(u "calls", JInt (Z.of_nat n))];
|}.

#[export] Instance desk_workspace : WorkspaceBase unit unit := {|
  ws_root_path := fun _ => []; ws_resolve_path := fun _ => no_local_paths;
  ws_run_command := fun _ _ _ _ w => (Err (value_error []), w); ws_read_text := fun _ _ w => (Ok (u "text"), w);
  ws_write_text := fun _ _ _ w => (Ok tt, w); ws_delete_file := fun _ _ w => (Ok tt, w);
  ws_list_files := fun _ _ w => (Ok [u "a.py"], w); ws_list_directory := fun _ _ w => (Ok [], w);
|}.

#[export] Instance desk_env : ServerEnv nat unit unit := {|
  factory_binds := true; agent_factory := fun _ w => (Ok 0, w); legacy_factory := fun w => (Ok 0, w);
  workspace_factory := Some (fun _ w => (Ok tt, w));
  uuid4_hex := fun w => (u "id", w); monotonic := fun w => (fl_of_Z 1, w); socket_send := fun _ w => w;
  base64_sha1 := fun b => b; isinstance := fun e c => bool_decide (exn_type e = c);
|}.

#[export] Instance desk_numerals : Numerals := {|
  parse_float := fun _ => Err (value_error []);
  parse_int := fun s => if bool_decide (s = u "-1") then Ok (-1)%Z else if bool_decide (s = u "2") then Ok 2%Z else
    if bool_decide (s = u "30") then Ok 30%Z else Err (value_error []) |}.

#[export] Instance desk_runtime : PyRuntime :=
  decoding_runtime [(u "{}", JObj []); (u "{message}", JObj [(u "message", JStr (u "hi")); (u "session_id", JStr (u "s"))])].

Definition config : ServerConfig := {|
  sc_token := Some (u "secret"); sc_session_ttl := None; sc_max_requests_per_minute := None; sc_max_runs := 10;
  sc_max_concurrent_requests := 4 |}.

Definition start : Http nat unit := MkHttp (new_server config) tt [].

Definition post (path length body : pystr) : Request := {|
  rq_method := POST; rq_path := path; rq_client := u "x"; rq_input := body;
  rq_headers := [(u "authorization", u "Bearer secret"); (u "Content-Length", length)] |}.

Definition run_request : Request := post (u "/runs") (u "30") (u "{message}").

(** Two runs of one session run one agent. *)
Example session_keeps_its_agent :
  let s2 := (handle config run_request (handle config run_request start).2).2 in
  sv_agents (h_server s2) = [2] /\ length (h_replies s2) = 2 /\ sv_in_flight (h_server s2) = 0%Z.
Proof. vm_compute. done. Qed.

(** A listing with all its defaults is not answered: the handler returns and nothing was sent. *)
Example empty_body_unanswered : handle config (post (u "/workspace/list") (u "2") (u "{}")) start = (HRet tt, start).
Proof. vm_compute. done. Qed.

(** A negative length lifts the cap on the body. *)
Example negative_length_reads_all :
  content_length (post (u "/runs") (u "-1") (u "{}")) = Ok (-1)%Z /\
  forall body, read_raw (-1) (post (u "/runs") (u "-1") body) = body.
Proof. split; [vm_compute; done|done]. Qed.

(** A frame whose payload is JSON but no object ends the handler with an error it does not catch. *)
Example array_frame_raises :
  stream_request (H := decoding_runtime [(u "[]", JList [])]) (u "[]") =
  Err (PyExn (u "TypeError") (u "indices must be integers or slices, not str")).
Proof. vm_compute. done. Qed.
Lemma unauthorized_request_changes_nothing_witness :
  exists s', handle config {| rq_method := POST; rq_path := u "/runs"; rq_headers := []; rq_client := u "x"; rq_input := [] |} start
    = (HRet tt, s') /\
  (h_world s' = h_world start \/ h_world s' = (monotonic (h_world start)).2) /\
  same_data (h_server start) (h_server s') /\
  exists r, h_replies s' = h_replies start ++ [r] /\ refused_reply r.
Proof.
  apply (unauthorized_request_changes_nothing config _ (u "secret")).
  - reflexivity.
  - discriminate.
  - intros [Hm _]. discriminate.
Defined.
End EchoServer.
