(* ===== verification/ServerAgent.v ===== *)
(** * The agent server over the agent

    [ServedAgent] is what the server uses of an agent; [kinetic_agent] discharges it
    with the run loop of AgentLoop.v. What the server promises of the agents of its
    sessions is stated against an interface, [AgentPromise]: a property that the
    factory establishes and that every completed run keeps. *)

From stdpp Require Import base gmap strings list.
From Stdlib Require Import ZArith Lia SpecFloat.
From S2P Require Import Prelude Json Types Conversation EventBus Redact Hooks Compaction Policy Budgets.
From S2P Require Import AgentState AgentTools AgentLoop AgentReplay AgentScenario Utf8 Workspace WebSocket Server ServerHttp.

(** ** Promises *)

Class AgentPromise {Ag Ws W : Type} `{!ServedAgent Ag W} `{!ServerEnv Ag Ws W} (P : Ag -> Prop) := {
  factory_promise : forall id (w : W) ag w', agent_factory id w = (Ok ag, w') -> P ag;
  legacy_promise : forall (w : W) ag w', legacy_factory w = (Ok ag, w') -> P ag;
  run_promise : forall sub message stream schema ag (w : W) text ag' w',
    agent_run sub message stream schema ag w = (Some (Ok text), ag', w') -> P ag -> P ag';
}.

Section Promise.
Context `{PyRuntime} `{Numerals} {Ag Ws W : Type} `{!ServedAgent Ag W} `{!ServerEnv Ag Ws W} `{!WorkspaceBase Ws W} (cfg : ServerConfig).
Context (P : Ag -> Prop) `{!AgentPromise P}.
Implicit Types s : Http Ag W.

Abbreviation HM := (Handler Ag W).

Definition all_good s : Prop := Forall P (sv_agents (h_server s)).

(** [m], when it returns, leaves every agent as promised. *)
Definition keeps_good {T} (m : HM T) : Prop := forall s x s', all_good s -> m s = (HRet x, s') -> all_good s'.

(** [m] touches no agent, however it ends. *)
Definition same_agents {T} (m : HM T) : Prop := forall s, sv_agents (h_server (m s).2) = sv_agents (h_server s).

Lemma still_good {T} (m : HM T) : same_agents m -> keeps_good m.
Proof using Type. intros Hm s x s' Hs E. specialize (Hm s). rewrite E in Hm. simpl in Hm. unfold all_good. by rewrite Hm. Qed.

Lemma good_bind {T U} (m : HM T) (f : T -> HM U) : keeps_good m -> (forall x, keeps_good (f x)) -> keeps_good (m ≫= f).
Proof using Type.
  intros Hm Hf s x s' Hs. unfold mbind, h_bind. destruct (m s) as [[y|e|] s1] eqn:E; [|done|done].
  intros E2. by apply (Hf y s1 x s'); [apply (Hm s y s1)|].
Qed.

Lemma still_ret {T} (x : T) : same_agents (mret x).
Proof using Type. done. Qed.
Lemma still_raise {T} e : same_agents (h_raise (T := T) e).
Proof using Type. done. Qed.
Lemma still_lift {T} (r : result T) : same_agents (h_lift r).
Proof using Type. by destruct r. Qed.
Lemma still_get {T} (f : Http Ag W -> T) : same_agents (h_get f).
Proof using Type. done. Qed.
Lemma still_world {T} (f : W -> T * W) : same_agents (outer f).
Proof using Type. intros s. unfold outer. by destruct (f (h_world s)). Qed.
Lemma still_say r : same_agents (say r).
Proof using Type. done. Qed.
Lemma still_shared {T} (f : Server Ag -> T * Server Ag) : (forall sv, sv_agents (f sv).2 = sv_agents sv) -> same_agents (shared f).
Proof using Type. intros Hf s. unfold shared. specialize (Hf (h_server s)). by destruct (f (h_server s)). Qed.
Lemma still_bind {T U} (m : HM T) (f : T -> HM U) : same_agents m -> (forall x, same_agents (f x)) -> same_agents (m ≫= f).
Proof using Type.
  intros Hm Hf s. unfold mbind, h_bind. specialize (Hm s). destruct (m s) as [[y|e|] s1]; simpl in *; [|done|done].
  rewrite <- Hm. apply Hf.
Qed.
Lemma still_catch {T} (m : HM T) h : same_agents m -> (forall e, same_agents (h e)) -> same_agents (h_catch m h).
Proof using Type.
  intros Hm Hh s. unfold h_catch. specialize (Hm s). destruct (m s) as [[y|e|] s1]; simpl in *; [done| |done].
  rewrite <- Hm. apply Hh.
Qed.

Lemma purge_keeps_agents now (sv : Server Ag) : sv_agents (_purge_expired_sessions cfg now sv) = sv_agents sv.
Proof using Type. apply purge_agents. Qed.

Create HintDb good discriminated.
Hint Constants Opaque : good.
Hint Resolve still_ret still_raise still_lift still_get still_world still_say : good.

Ltac still_step :=
  lazymatch goal with
  | |- same_agents (mbind _ _) => apply still_bind
  | |- same_agents (h_catch _ _) => apply still_catch
  | |- same_agents (shared _) => apply still_shared; intros ?
  | |- same_agents (let '(_, _) := ?x in _) => destruct x
  | |- same_agents (match ?x with _ => _ end) => destruct x
  end.
Ltac still_tac := repeat first [progress intros | solve [eauto 2 with good] | still_step | done].

Lemma still_purge : same_agents (purge_sessions cfg).
Proof using Type.
  unfold purge_sessions, shared_. destruct (sc_session_ttl cfg); [|apply still_ret].
  apply still_bind; [apply still_world|]. intros now. apply still_shared. intros sv. apply purge_keeps_agents.
Qed.
Lemma still_json st p : same_agents (_send_json (Ag := Ag) (W := W) st p).
Proof using Type. unfold _send_json. by destruct (reply_body _). Qed.
Lemma still_error st m : same_agents (send_error (Ag := Ag) (W := W) st m).
Proof using Type. apply still_json. Qed.
Hint Resolve still_purge still_json still_error : good.
Lemma still_workspace path body : same_agents (_workspace_post path body).
Proof using Type. unfold _workspace_post, _workspace, workspace_operation, bad_path. still_tac. Qed.
Lemma still_read_body rq : same_agents (_read_body rq).
Proof using Type. unfold _read_body. still_tac. Qed.
Lemma still_item k d : same_agents (item_of (Ag := Ag) (W := W) k d).
Proof using Type. unfold item_of. still_tac. Qed.
Lemma still_ws_reply v : same_agents (ws_reply v).
Proof using Type. unfold ws_reply. still_tac. Qed.
Hint Resolve still_workspace still_read_body still_item still_ws_reply : good.

Lemma good_build session_id : forall s ag s', all_good s -> _call_factory session_id s = (HRet ag, s') -> all_good s' /\ P ag.
Proof using AgentPromise0.
  intros s ag s' Hs. unfold _call_factory, mbind, h_bind, outer.
  destruct factory_binds;
    [destruct (agent_factory session_id (h_world s)) as [[a|e] w] eqn:E|destruct (legacy_factory (h_world s)) as [[a|e] w] eqn:E];
    intros [= <- <-]; (split; [done|]); [by eapply factory_promise|by eapply legacy_promise].
Qed.

Lemma good_new session_id {T} (k : nat -> HM T) : (forall a, keeps_good (k a)) ->
  keeps_good (_call_factory session_id ≫= fun ag => shared (new_agent ag) ≫= k).
Proof using AgentPromise0.
  intros Hk s x s' Hs. unfold mbind at 1, h_bind. destruct (_call_factory session_id s) as [[ag|e|] s1] eqn:E; [|done|done].
  destruct (good_build _ _ _ _ Hs E) as [H1 Hag]. intros E2. eapply Hk; [|exact E2].
  unfold all_good in *. simpl. apply Forall_app. split; [done|by constructor].
Qed.

Lemma good_make session_id : keeps_good (_make_agent cfg session_id).
Proof using AgentPromise0.
  unfold _make_agent. destruct session_id as [id|].
  - apply good_bind; [apply still_good, still_purge|]. intros _. apply good_bind; [apply still_good, still_get|]. intros cached.
    apply good_bind.
    + destruct cached as [a|]; [apply still_good, still_ret|]. apply good_new. intros a. apply still_good. unfold shared_. still_tac.
    + intros a. apply still_good. unfold shared_. still_tac.
  - intros s x s' Hs E. eapply (good_new None (fun a => mret a)); [|exact Hs|].
    + intros a. apply still_good, still_ret.
    + revert E. unfold mbind, h_bind. destruct (_call_factory None s) as [[ag|e|] s1]; [|done|done]. unfold shared.
      by destruct (new_agent ag (h_server s1)).
Qed.

Lemma good_run sub a msg st sc : keeps_good (run_agent_object sub a msg st sc).
Proof using AgentPromise0.
  intros s x s' Hs. unfold run_agent_object. destruct (sv_agents (h_server s) !! a) as [ag|] eqn:E; [|done].
  destruct (agent_run sub msg st sc ag (h_world s)) as [[o ag'] w] eqn:Er. destruct o as [[text|e]|]; [|done|done].
  intros [= <- <-]. unfold all_good in *; simpl. apply Forall_insert; [done|]. eapply run_promise; [exact Er|].
  by eapply Forall_lookup_1.
Qed.

Lemma good_record r msg st sc id : keeps_good (run_and_record cfg r msg st sc id).
Proof using AgentPromise0.
  unfold run_and_record. apply good_bind; [apply good_make|]. intros a. apply good_bind; [apply good_run|]. intros final.
  apply good_bind; [|intros _; apply still_good; unfold shared_; still_tac]. apply still_good. unfold shared_. still_tac.
Qed.
(** A run that is recorded as completed left every agent as promised. *)
Lemma good_or_failed msg st sc id s record s' : all_good s -> _run_agent cfg msg st sc id s = (HRet record, s') ->
  all_good s' \/ record_status record = 500%Z.
Proof using AgentPromise0.
  intros Hs. unfold _run_agent. unfold mbind at 1, h_bind at 1, outer.
  destruct (uuid4_hex (h_world s)) as [run_id w]. unfold mbind at 1, h_bind at 1, shared at 1. cbn [h_server h_world h_replies].
  destruct (register_run cfg run_id (h_server s)) as [r sv1] eqn:Er.
  assert (sv_agents sv1 = sv_agents (h_server s)) as Ha.
  { unfold register_run in Er. destruct (evict _ _ _). by injection Er as _ <-. }
  unfold mbind at 1, h_bind at 1, h_catch.
  destruct (run_and_record cfg r msg st sc id (MkHttp sv1 w (h_replies s))) as [[[]|e|] s1] eqn:E.
  - intros [= <- <-]. left. assert (all_good s1) as H1; [|exact H1]. eapply good_record; [|exact E]. unfold all_good. simpl. by rewrite Ha.
  - intros [= <- <-]. right. unfold record_status. simpl. rewrite list_lookup_alter_eq.
    destruct (sv_records (h_server s1) !! r) as [d|]; [|done]. simpl. rewrite dict_get_set_ne by done. rewrite dict_get_set_eq. done.
  - done.
Qed.

(** An answer that says that a run failed. *)
Definition says_failed s s' : Prop := exists record, h_replies s' = h_replies s ++ [Reply 500 (JObj record) []].

Definition good_or_says {T} (m : HM T) : Prop := forall s x s', all_good s -> m s = (HRet x, s') -> all_good s' \/ says_failed s s'.

Lemma good_says {T} (m : HM T) : keeps_good m -> good_or_says m.
Proof using Type. intros Hm s x s' Hs E. left. by apply (Hm s x s'). Qed.

(** What follows a run, when it answers 500 for a failed one. *)
Lemma run_then_says {T} msg st sc id (k : jdict -> HM T) :
  (forall record, keeps_good (k record)) ->
  (forall record s x s', record_status record = 500%Z -> k record s = (HRet x, s') -> says_failed s s') ->
  good_or_says (_run_agent cfg msg st sc id ≫= k).
Proof using AgentPromise0.
  intros Hk Hf s x s' Hs. unfold mbind, h_bind. destruct (_run_agent cfg msg st sc id s) as [[record|e|] s1] eqn:E; [|done|done].
  intros E2. destruct (good_or_failed _ _ _ _ _ _ _ Hs E) as [Hg|H5]; [left; by eapply Hk|right].
  destruct (Hf record s1 x s' H5 E2) as [d Hd]. exists d. rewrite Hd. f_equal.
  destruct (quiet_run_agent cfg msg st sc id s) as (rs & Hr & Hn). rewrite E in Hr. simpl in Hr. apply nil_length_inv in Hn as ->.
  by rewrite Hr, app_nil_r.
Qed.

Lemma sent_failed record s x s' : _send_json (Ag := Ag) (W := W) 500 record s = (HRet x, s') -> says_failed s s'.
Proof using Type. unfold _send_json. destruct (reply_body _); intros E; [|discriminate E]. injection E as _ <-. by exists record. Qed.

Lemma says_post_run body : good_or_says (post_run cfg body).
Proof using AgentPromise0.
  unfold post_run. destruct (dict_get _ body) as [[]|]; try (apply good_says, still_good, still_error).
  destruct (bool_decide (strip s = [])); [apply good_says, still_good, still_error|].
  assert (forall id sc, good_or_says (record ← _run_agent cfg s (opt_truthy (dict_get (u "stream") body)) sc id;
    _send_json (record_status record) record)) as Hrun.
  { intros id sc. apply run_then_says; [intros r; apply still_good, still_json|]. intros record s0 x s' ->. apply sent_failed. }
  destruct (given (u "session_id") body) as [[| | | |[|]| |]|], (given (u "output_schema") body) as [[]|];
    solve [apply Hrun | apply good_says, still_good, still_error].
Qed.

Lemma says_openai body : good_or_says (_openai_completion cfg body).
Proof using AgentPromise0.
  unfold _openai_completion. destruct (bool_decide (dict_get (u "stream") body = Some (JBool true))); [apply good_says, still_good, still_error|].
  destruct (nonempty_str _) as [model|], (dict_get (u "messages") body) as [[]|]; try (apply good_says, still_good, still_error).
  destruct (head _) as [message|]; [|apply good_says, still_good, still_error].
  destruct (bool_decide (strip message = [])); [apply good_says, still_good, still_error|].
  apply run_then_says.
  - intros record. apply still_good. still_tac.
  - intros record s x s' ->. apply sent_failed.
Qed.

Lemma good_websocket rq : keeps_good (_websocket_run cfg rq).
Proof using AgentPromise0.
  unfold _websocket_run. destruct (nonempty_str _) as [key|]; [|apply still_good, still_error].
  destruct (bool_decide (lower (default [] (header (u "Upgrade") rq)) = u "websocket")); [|apply still_good, still_error].
  destruct (forallb _ _); [|apply still_good, still_raise]. apply good_bind; [apply still_good, still_say|]. intros _.
  apply good_bind; [apply still_good, still_lift|]. intros [[payload|] rest]; [|apply still_good, still_ret].
  apply good_bind; [apply still_good, still_lift|]. intros [[message id]|]; [|apply still_good, still_ws_reply].
  apply good_bind; [apply good_make|]. intros a. apply good_bind; [apply good_run|]. intros final. apply still_good, still_ws_reply.
Qed.

Lemma says_operation rq : good_or_says (match rq_method rq with GET => _do_get cfg rq | POST => _do_post cfg rq end).
Proof using AgentPromise0.
  destruct (rq_method rq).
  - apply good_says. unfold _do_get. destruct (bool_decide (rq_path rq = u "/health")); [apply still_good; still_tac|].
    destruct (negb _); [apply still_good; still_tac|].
    destruct (bool_decide (rq_path rq = u "/runs/stream")); [apply good_websocket|apply still_good; still_tac].
  - unfold _do_post. destruct (negb _); [apply good_says, still_good, still_error|].
    destruct (negb _); [apply good_says, still_good, still_error|].
    intros s x s' Hs. unfold mbind, h_bind. pose proof (still_read_body rq s) as Ha.
    destruct (read_body_says rq s) as (rs & Hr & Hn). destruct (_read_body rq s) as [[body|e|] s1]; [|done|done]. simpl in *.
    assert (all_good s1) as H1 by (unfold all_good; by rewrite Ha).
    destruct body as [[|kv d]|]; [intros [= <- <-]; by left| |intros [= <- <-]; by left].
    apply nil_length_inv in Hn as ->. rewrite app_nil_r in Hr.
    assert (forall m : HM unit, good_or_says m -> m s1 = (HRet x, s') -> all_good s' \/ says_failed s s') as Hgo.
    { intros m Hm E. unfold says_failed. rewrite <- Hr. by apply (Hm s1 x s'). }
    destruct (elem_b (rq_path rq) WORKSPACE_PATHS); [apply Hgo, good_says, still_good, still_workspace|].
    destruct (bool_decide (rq_path rq = u "/v1/chat/completions")); [apply Hgo, says_openai|apply Hgo, says_post_run].
Qed.

Lemma says_handle rq : good_or_says (handle cfg rq).
Proof using AgentPromise0.
  intros s x s' Hs. unfold handle, _handle_request, shared. unfold mbind at 1, h_bind at 1.
  pose proof (begin_data (h_server s)) as (_ & _ & _ & _ & Hb & _). destruct (_begin_request (h_server s)) as [[why|] sv1]; simpl in *.
  { intros E. left. assert (all_good (MkHttp sv1 (h_world s) (h_replies s))) as H1 by (unfold all_good; simpl; by rewrite Hb).
    by eapply (still_good _ (still_error 503 why)). }
  assert (forall (m : HM unit) s1, h_replies s1 = h_replies s -> all_good s1 -> good_or_says m ->
    h_finally m (shared_ _finish_request) s1 = (HRet x, s') -> all_good s' \/ says_failed s s') as Hfin.
  { intros m s1 Hr Hg Hm. unfold h_finally. destruct (m s1) as [[y|e|] s2] eqn:E; [|done|done]. unfold says_failed. rewrite <- Hr.
    destruct y. intros [= <- <-]. apply (Hm s1 tt s2 Hg E). }
  assert (all_good (MkHttp sv1 (h_world s) (h_replies s))) as H1 by (unfold all_good; simpl; by rewrite Hb).
  destruct (sc_max_requests_per_minute cfg) as [limit|]; [|by apply Hfin, says_operation].
  apply Hfin; [done|done|]. clear Hfin H1 Hs Hb s s' x. intros s x s' Hs. unfold mbind at 1, h_bind at 1, outer.
  destruct (monotonic (h_world s)) as [now w]. unfold mbind at 1, h_bind at 1. cbn [h_server h_world h_replies].
  pose proof (allow_data limit (rq_client rq) now (h_server s)) as (_ & _ & _ & _ & Hb & _).
  destruct (_allow_request limit (rq_client rq) now (h_server s)) as [[wait|] sv2]; simpl in Hb.
  - intros [= <- <-]. left. unfold all_good. simpl. by rewrite Hb.
  - intros E. apply (says_operation rq) in E; [|unfold all_good; simpl; by rewrite Hb]. exact E.
Qed.
End Promise.

(** ** The kinetic agent behind the server *)

Section Kinetic.
Context `{PyRuntime} `{SecretPatterns} {M W : Type} (cm : ContextManager M W) `{EventSink W} `{AgentEnv W} `{PermissionPolicy}.
Variable cfg : Config.
(** [round(cost, 6)]. *)
Variable round6 : pyfloat -> pyfloat.

(** [sub] subscribed to everything the agent's bus publishes. *)
Definition observed (sub : Event -> W -> W) : EventSink W := {| publish_to := fun e w => sub e (publish_to e w) |}.

(** The exception as the server's handler sees it. *)
Definition seen_exn (e : aexn) : pyexn := PyExn (exn_class e) (exn_text e).

Definition served_run (sub : Event -> W -> W) (message : pystr) (stream : bool) (output_schema : option json)
    (agent : St M W) (w : W) : option (result pystr) * St M W * W :=
  let '(o, s) := @run _ _ _ _ cm (observed sub) _ _ cfg (Some message) stream output_schema None None (set_world w agent) in
  (match o with
   | Ret text => Some (Ok text)
   | Raise e => Some (Err (seen_exn e))
   | Blocked | NoFuel => None
   end, s, world s).

(** [UsageSnapshot.to_dict]. *)
Definition usage_dict (s : UsageSnapshot) : jdict :=
  [(u "input_tokens", JInt (input_tokens s)); (u "output_tokens", JInt (output_tokens s));
   (u "cost_usd", JFloat (round6 (cost_usd s))); (u "calls", JInt (calls s))].

Definition kinetic_agent : ServedAgent (St M W) W := {|
  agent_run := served_run;
  agent_structured_output := fun s => default JNull (structured_output (answering s));
  agent_usage := fun s => usage_dict (usage_totals (guards s)) |}.

Definition replayable (agent : St M W) : Prop := waits (conv agent) [].

Lemma served_run_replayable `{!ReplaySafe cm} sub message stream schema agent w text agent' w' :
  fresh_call_ids (W := W) -> replayable agent ->
  served_run sub message stream schema agent w = (Some (Ok text), agent', w') -> replayable agent'.
Proof using Type.
  intros Hf Hw. unfold served_run.
  pose proof (run_settles cm (H1 := observed sub) cfg Hf (Some message) stream schema None None (set_world w agent) Hw) as Hs.
  destruct (run cm (H1 := observed sub) cfg (Some message) stream schema None None (set_world w agent)) as [o s]. simpl in Hs.
  destruct o; [|done|done|done]. by intros [= <- <- <-].
Qed.

Lemma kinetic_promise `{!ReplaySafe cm} {Ws} (env : ServerEnv (St M W) Ws W) : fresh_call_ids (W := W) ->
  (forall id w ag w', agent_factory id w = (Ok ag, w') -> replayable ag) ->
  (forall w ag w', legacy_factory w = (Ok ag, w') -> replayable ag) ->
  @AgentPromise (St M W) Ws W kinetic_agent env replayable.
Proof using Type.
  intros Hf Hb1 Hb2. split; [done|done|]. intros sub message stream schema ag w text ag' w' Hr Hw.
  by eapply served_run_replayable.
Qed.
End Kinetic.


(** ** Scenarios *)

Module KineticServer.
#[local] Existing Instance EchoServer.desk_runtime.
#[local] Existing Instance EchoServer.desk_numerals.
#[local] Existing Instance desk_patterns.
#[local] Existing Instance desk_sink.
#[local] Existing Instance desk_env.
#[local] Existing Instance desk_policy.

Definition no_workspace : WorkspaceBase unit Desk := {|
  ws_root_path := fun _ => []; ws_resolve_path := fun _ => no_local_paths;
  ws_run_command := fun _ _ _ _ w => (Err (value_error []), w); ws_read_text := fun _ _ w => (Ok [], w);
  ws_write_text := fun _ _ _ w => (Ok tt, w); ws_delete_file := fun _ _ w => (Ok tt, w);
  ws_list_files := fun _ _ w => (Ok [], w); ws_list_directory := fun _ _ w => (Ok [], w);
|}.

(** Every agent starts afresh, on the desk the requests share. *)
Definition application : ServerEnv (St unit Desk) unit Desk := {|
  factory_binds := true; agent_factory := fun _ d => (Ok (fresh_agent d), d); legacy_factory := fun d => (Ok (fresh_agent d), d);
  workspace_factory := None;
  uuid4_hex := fun w => (u "id", w); ServerHttp.monotonic := fun w => (zero, w); socket_send := fun _ w => w;
  base64_sha1 := fun b => b; isinstance := fun _ _ => false;
|}.
#[local] Existing Instance application.
#[local] Existing Instance no_workspace.

Definition id_round (f : pyfloat) : pyfloat := f.

Definition opening : Http (St unit Desk) Desk := MkHttp (new_server EchoServer.config) (desk two_calls FLASH) [].

Definition serve (cfg : Config) (policy : PermissionPolicy) (s : Http (St unit Desk) Desk) :=
  handle (ServedAgent0 := @kinetic_agent _ _ _ _ (noop_manager Desk) _ _ policy cfg id_round) EchoServer.config EchoServer.run_request s.


(** A run that stops for a confirmation ruins its session: the server has no
    endpoint for the verdict, and the next request of the session adds a user
    message to a history that waits for a result. *)
Example confirmation_ruins_session :
  let policy := Confirming.asking_policy in
  let cfg := Confirming.validating_config true in
  let s1 := (serve cfg policy opening).2 in
  let s2 := (serve cfg policy s1).2 in
  map (fun a => replay_scan [] (messages (conv a))) (sv_agents (h_server s1)) = [Some [u "a"; u "b"]] /\
  map (fun a => replay_scan [] (messages (conv a))) (sv_agents (h_server s2)) = [None].
Proof. vm_compute. done. Qed.
End KineticServer.
