(* ===== verification/RemoteWorkspace.v ===== *)
(** * The remote workspace (kinetic_sdk/workspace/remote.py), joined to the server

    [RemoteAPIWorkspace] over any HTTP client; then over the agent server of
    ServerHttp.v, where an operation of the remote workspace is the operation of the
    workspace the server keeps. *)

From stdpp Require Import base gmap strings list pretty.
From Stdlib Require Import ZArith Lia SpecFloat.
From S2P Require Import Prelude Json Utf8 Workspace WebSocket Server ServerHttp.

(** What [urlopen] does with a POST: a response of a 2xx status, or an error. *)
Inductive http_outcome :=
| Response (raw : bytes)
| HttpError (code : Z) (body : bytes)
| UrlError (reason : pystr)
| HttpRaised (e : pyexn).

Class HttpClient (W : Type) := {
  urlopen : pystr -> bytes -> list (pystr * pystr) -> json -> W -> http_outcome * W;
  (** [bytes.decode("utf-8", errors="replace")] of bytes that are not UTF-8 *)
  decode_lossy : bytes -> pystr;
  (** [repr] of bytes *)
  bytes_repr : bytes -> pystr;
}.

Record RemoteAPIWorkspace := {
  r_base_url : pystr;
  r_workspace_id : pystr;
  r_token : option pystr;
  r_http_timeout : json;
}.

Definition new_remote (base_url workspace_id : pystr) (token : option pystr) (timeout : json) : result RemoteAPIWorkspace :=
  match base_url with
  | [] => Err (value_error (u "base_url must be non-empty"))
  | _ => Ok {| r_base_url := rstrip_with (N.eqb 47) base_url; r_workspace_id := workspace_id; r_token := token; r_http_timeout := timeout |}
  end.

Definition file_not_found (msg : pystr) : pyexn := PyExn (u "FileNotFoundError") msg.

(** [obj.get(...)] of what is not an object. *)
Definition attribute_error : pyexn := PyExn (u "AttributeError") (u "object has no attribute 'get'").

(** The fields of the [CommandResult] the remote workspace builds: whatever the reply holds. *)
Record RemoteResult := {
  rr_output : json; rr_exit_code : json; rr_duration_seconds : json; rr_timed_out : json; rr_truncated : json;
  rr_error : json; rr_metadata : json;
}.

Section Remote.
Context `{PyRuntime} {W : Type} `{HttpClient W}.
Implicit Types r : RemoteAPIWorkspace.

Definition post_body r (payload : jdict) : json := JObj (foldl (fun d kv => dict_set kv.1 kv.2 d) [(u "workspace_id", JStr (r_workspace_id r))] payload).

Definition auth_headers r : list (pystr * pystr) :=
  (u "Content-Type", u "application/json") ::
  match r_token r with Some ((_ :: _) as token) => [(u "Authorization", u "Bearer " ++ token)] | _ => [] end.

(** [timeout or self._http_timeout]. *)
Definition http_timeout r (timeout : option json) : json :=
  match timeout with Some t => if truthy t then t else r_http_timeout r | None => r_http_timeout r end.

Definition _post r (path : pystr) (payload : jdict) (timeout : option json) (w : W) : result json * W :=
  match encode_utf8 (json_dumps dumps_default (post_body r payload)) with
  | Err e => (Err e, w)
  | Ok body =>
    match urlopen (r_base_url r ++ path) body (auth_headers r) (http_timeout r timeout) w with
    | (HttpError code data, w') =>
      let detail := match decode_utf8 data with Some text => text | None => decode_lossy data end in
      (Err (if (code =? 404)%Z then file_not_found detail
            else workspace_error (u "remote workspace error (" ++ dec code ++ u "): " ++ detail)), w')
    | (UrlError reason, w') => (Err (workspace_error (u "could not reach remote workspace: " ++ reason)), w')
    | (HttpRaised e, w') => (Err e, w')
    | (Response raw, w') =>
      (match decode_utf8 raw with
       | None => Err unicode_error
       | Some text =>
         match json_loads text with
         | Some data => Ok data
         | None => Err (workspace_error (u "remote workspace returned non-JSON response: " ++ bytes_repr raw))
         end
       end, w')
    end
  end.

Definition object (data : json) : result jdict := match data with JObj d => Ok d | _ => Err attribute_error end.

Definition get_or (k : pystr) (dflt : json) (d : jdict) : json := default dflt (dict_get k d).

(** [data = self._post(...)], then [f(data)]. *)
Definition posting {T} (posted : result json * W) (f : jdict -> result T) : result T * W :=
  (match posted.1 with Ok data => d <-! object data ;; f d | Err e => Err e end, posted.2).

(** [timeout + 5] of a number. *)
Definition plus_five (t : json) : json :=
  match t with JInt z => JInt (z + 5) | JFloat f => JFloat (fl_add f (fl_of_Z 5)) | JBool b => JInt (if b then 6 else 5) | v => v end.

Definition opt_json (o : option json) : json := default JNull o.

Definition result_fields (d : jdict) : RemoteResult := {|
  rr_output := get_or (u "output") (JStr []) d; rr_exit_code := get_or (u "exit_code") (JInt (-1)) d;
  rr_duration_seconds := get_or (u "duration_seconds") (JFloat (S754_zero false)) d; rr_timed_out := get_or (u "timed_out") (JBool false) d;
  rr_truncated := get_or (u "truncated") (JBool false) d; rr_error := get_or (u "error") JNull d; rr_metadata := get_or (u "metadata") (JObj []) d |}.

Definition remote_run_command r (command : pystr) (timeout : option json) (cwd : option pystr) (w : W) : result RemoteResult * W :=
  posting
    (_post r (u "/workspace/run") [(u "command", JStr command); (u "timeout", opt_json timeout); (u "cwd", opt_str cwd)]
       (match timeout with Some t => if truthy t then Some (plus_five t) else None | None => None end) w)
    (fun d => Ok (result_fields d)).

Definition failed_to (what relative_path : pystr) (d : jdict) : pyexn :=
  workspace_error (py_str (get_or (u "error") (JStr (u "failed to " ++ what ++ u " " ++ py_repr (JStr relative_path))) d)).

Definition content_of (relative_path : pystr) (d : jdict) : result json :=
  match dict_get (u "content") d with Some content => Ok content | None => Err (failed_to (u "read") relative_path d) end.

Definition remote_read_text r (relative_path : pystr) (w : W) : result json * W :=
  posting (_post r (u "/workspace/read") [(u "path", JStr relative_path)] None w)
    (content_of relative_path).

Definition acknowledged (what relative_path : pystr) (d : jdict) : result unit :=
  if truthy (get_or (u "ok") (JBool false) d) then Ok tt else Err (failed_to what relative_path d).

Definition remote_write_text r (relative_path content : pystr) (w : W) : result unit * W :=
  posting (_post r (u "/workspace/write") [(u "path", JStr relative_path); (u "content", JStr content)] None w)
    (acknowledged (u "write") relative_path).

Definition remote_delete_file r (relative_path : pystr) (w : W) : result unit * W :=
  posting (_post r (u "/workspace/delete") [(u "path", JStr relative_path)] None w) (acknowledged (u "delete") relative_path).

(** [list(v)]. *)
Definition list_of (v : json) : result (list json) :=
  match v with
  | JList l => Ok l
  | JStr s => Ok (map (fun c => JStr [c]) s)
  | JObj d => Ok (map (fun kv => JStr kv.1) d)
  | _ => Err (PyExn (u "TypeError") (u "object is not iterable"))
  end.

Definition remote_list_files r (pattern : option pystr) (w : W) : result (list json) * W :=
  posting (_post r (u "/workspace/list") [(u "pattern", opt_str pattern)] None w) (fun d => list_of (get_or (u "files") (JList []) d)).

Definition remote_list_directory r (relative_path : pystr) (w : W) : result (list json) * W :=
  posting (_post r (u "/workspace/list-directory") [(u "path", JStr relative_path)] None w) (fun d => list_of (get_or (u "entries") (JList []) d)).
End Remote.

(** ** Operations, here and there *)

Inductive remote_op :=
| RunOp (command : pystr) (timeout : option json) (cwd : option pystr)
| ReadOp (path : pystr)
| WriteOp (path content : pystr)
| DeleteOp (path : pystr)
| ListFilesOp (pattern : option pystr)
| ListDirectoryOp (path : pystr).

Inductive op_value := CommandValue (r : RemoteResult) | TextValue (text : json) | Done | ListValue (l : list json).

(** What the caller of the remote workspace gets. *)
Definition remote_perform `{PyRuntime} {W} `{HttpClient W} (r : RemoteAPIWorkspace) (op : remote_op) (w : W) : result op_value * W :=
  match op with
  | RunOp c t d => let '(x, w') := remote_run_command r c t d w in (rmap CommandValue x, w')
  | ReadOp p => let '(x, w') := remote_read_text r p w in (rmap TextValue x, w')
  | WriteOp p c => let '(x, w') := remote_write_text r p c w in (rmap (fun _ => Done) x, w')
  | DeleteOp p => let '(x, w') := remote_delete_file r p w in (rmap (fun _ => Done) x, w')
  | ListFilesOp p => let '(x, w') := remote_list_files r p w in (rmap ListValue x, w')
  | ListDirectoryOp p => let '(x, w') := remote_list_directory r p w in (rmap ListValue x, w')
  end.

(** The same call on a workspace at hand. *)
Definition as_remote (c : CommandResult) : RemoteResult := {|
  rr_output := JStr (cr_output c); rr_exit_code := JInt (cr_exit_code c); rr_duration_seconds := JFloat (cr_duration_seconds c);
  rr_timed_out := JBool (cr_timed_out c); rr_truncated := JBool (cr_truncated c); rr_error := opt_str (cr_error c);
  rr_metadata := JObj (cr_metadata c) |}.

Definition local_perform `{WorkspaceBase Ws W} (ws : Ws) (op : remote_op) (w : W) : result op_value * W :=
  match op with
  | RunOp c t d => let '(x, w') := ws_run_command ws c t d w in (rmap (fun v => CommandValue (as_remote v)) x, w')
  | ReadOp p => let '(x, w') := ws_read_text ws p w in (rmap (fun t => TextValue (JStr t)) x, w')
  | WriteOp p c => let '(x, w') := ws_write_text ws p c w in (rmap (fun _ => Done) x, w')
  | DeleteOp p => let '(x, w') := ws_delete_file ws p w in (rmap (fun _ => Done) x, w')
  | ListFilesOp p => let '(x, w') := ws_list_files ws p w in (rmap (fun l => ListValue (map JStr l)) x, w')
  | ListDirectoryOp p => let '(x, w') := ws_list_directory ws p w in (rmap (fun l => ListValue (map JStr l)) x, w')
  end.

(** The arguments the server's checks accept. *)
Definition op_valid (op : remote_op) : Prop :=
  match op with
  | RunOp c t _ => strip c <> [] /\ match t with Some v => v <> JNull /\ positive_number v = true | None => True end
  | ReadOp p | WriteOp p _ | DeleteOp p => p <> []
  | ListFilesOp _ | ListDirectoryOp _ => True
  end.

Definition op_path (op : remote_op) : pystr :=
  match op with
  | RunOp _ _ _ => u "/workspace/run" | ReadOp _ => u "/workspace/read" | WriteOp _ _ => u "/workspace/write"
  | DeleteOp _ => u "/workspace/delete" | ListFilesOp _ => u "/workspace/list" | ListDirectoryOp _ => u "/workspace/list-directory"
  end.

Definition op_payload (op : remote_op) : jdict :=
  match op with
  | RunOp c t d => [(u "command", JStr c); (u "timeout", opt_json t); (u "cwd", opt_str d)]
  | ReadOp p | DeleteOp p | ListDirectoryOp p => [(u "path", JStr p)]
  | WriteOp p c => [(u "path", JStr p); (u "content", JStr c)]
  | ListFilesOp p => [(u "pattern", opt_str p)]
  end.

(** The body of the server's answer. *)
Definition served `{WorkspaceBase Ws W} (ws : Ws) (op : remote_op) (w : W) : result jdict * W :=
  match op with
  | RunOp c t d => let '(x, w') := ws_run_command ws c t d w in (rmap command_reply x, w')
  | ReadOp p => let '(x, w') := ws_read_text ws p w in (rmap (fun t => [(u "content", JStr t)]) x, w')
  | WriteOp p c => let '(x, w') := ws_write_text ws p c w in (rmap (fun _ => ok_reply) x, w')
  | DeleteOp p => let '(x, w') := ws_delete_file ws p w in (rmap (fun _ => ok_reply) x, w')
  | ListFilesOp p => let '(x, w') := ws_list_files ws p w in (rmap (fun l => [(u "files", strs l)]) x, w')
  | ListDirectoryOp p => let '(x, w') := ws_list_directory ws p w in (rmap (fun l => [(u "entries", strs l)]) x, w')
  end.

(** ** The agent server as the other end *)

Section Loopback.
Context `{PyRuntime} `{Numerals} {Ag Ws W : Type} `{!ServedAgent Ag W} `{!ServerEnv Ag Ws W} `{!WorkspaceBase Ws W}.
Variables (cfg : ServerConfig) (base_url : pystr).

Definition posted_request (url : pystr) (body : bytes) (headers : list (pystr * pystr)) : Request := {|
  rq_method := POST; rq_path := drop (length base_url) url; rq_headers := headers ++ [(u "Content-Length", dec (zlen body))];
  rq_client := u "127.0.0.1"; rq_input := body |}.

(** The server answers on the connection, or closes it. *)
Definition answered (s1 : Http Ag W) : http_outcome :=
  match h_replies s1 with
  | Reply status payload _ :: _ =>
    match reply_body payload with
    | Ok raw => if ((200 <=? status) && (status <? 300))%Z then Response raw else HttpError status raw
    | Err _ => UrlError (u "closed")
    end
  | _ => UrlError (u "closed")
  end.

Definition loopback : HttpClient (Http Ag W) := {|
  urlopen url body headers _ s :=
    let s1 := (handle cfg (posted_request url body headers) (MkHttp (h_server s) (h_world s) [])).2 in
    (answered s1, MkHttp (h_server s1) (h_world s1) (h_replies s));
  decode_lossy _ := [];
  bytes_repr _ := [];
|}.
End Loopback.

Section Served.
Context `{PyRuntime} `{Numerals} {Ag Ws W : Type} `{!ServedAgent Ag W} `{!ServerEnv Ag Ws W} `{!WorkspaceBase Ws W}.
Context (cfg : ServerConfig) (r : RemoteAPIWorkspace).
Implicit Types s : Http Ag W.

Definition moved s (w : W) : Http Ag W := MkHttp (h_server s) w (h_replies s).

Definition op_fields (op : remote_op) : jdict :=
  foldl (fun d kv => dict_set kv.1 kv.2 d) [(u "workspace_id", JStr (r_workspace_id r))] (op_payload op).

Ltac choose_route := repeat match goal with |- context [bool_decide (u ?a = u ?b)] =>
  let v := eval vm_compute in (bool_decide (u a = u b)) in replace (bool_decide (u a = u b)) with v by (vm_compute; reflexivity); cbn iota end.
Ltac field k v := match goal with |- context [dict_get (u k) ?f] =>
  replace (dict_get (u k) f) with (@Some json v) by (vm_compute; reflexivity) end.

Lemma given_opt (t : option json) : t <> Some JNull -> match Some (opt_json t) with Some JNull => None | v => v end = t.
Proof using Type. destruct t as [[]|]; done. Qed.

(** What a valid operation does behind the handler's checks. *)
Lemma operation_served ws op s : op_valid op ->
  workspace_operation ws (op_path op) (op_fields op) s =
  match served ws op (h_world s) with
  | (Ok d, w1) => _send_json 200 d (moved s w1)
  | (Err e, w1) => (HRaise e, moved s w1)
  end.
Proof using Type.
  intros Hv. unfold workspace_operation. destruct op as [c t d|p|p c|p|pat|p]; cbn [op_path op_valid] in *; choose_route;
    unfold given, op_fields, served, h_lift, outer, mbind, h_bind.
  - destruct Hv as [Hc Ht]. field "command"%string (JStr c). rewrite bool_decide_eq_false_2 by done.
    field "timeout"%string (opt_json t). rewrite given_opt by (intros ->; tauto). field "cwd"%string (opt_str d).
    assert (match t with Some v => negb (positive_number v) | None => false end = false) as -> by (destruct t as [v|]; [|done]; by destruct Ht as [_ ->]).
    destruct d as [d|]; cbn [opt_str]; destruct (ws_run_command ws c t _ (h_world s)) as [[x|e] w1]; done.
  - field "path"%string (JStr p). destruct p as [|a p]; [done|]. cbn [nonempty_str]. destruct (ws_read_text ws _ (h_world s)) as [[x|e] w1]; done.
  - field "path"%string (JStr p). field "content"%string (JStr c). destruct p as [|a p]; [done|]. cbn [nonempty_str].
    destruct (ws_write_text ws _ c (h_world s)) as [[x|e] w1]; done.
  - field "path"%string (JStr p). destruct p as [|a p]; [done|]. cbn [nonempty_str]. destruct (ws_delete_file ws _ (h_world s)) as [[x|e] w1]; done.
  - field "pattern"%string (opt_str pat). destruct pat as [pat|]; cbn [opt_str]; destruct (ws_list_files ws _ (h_world s)) as [[x|e] w1]; done.
  - field "path"%string (JStr p). unfold default, from_option, id. destruct (ws_list_directory ws p (h_world s)) as [[x|e] w1]; done.
Qed.

(** Errors the server's handler turns into an answer, and what the client makes of it. *)
Definition handled (e : pyexn) : bool :=
  isinstance e (u "FileNotFoundError") || existsb (isinstance e) [u "OSError"; u "ValueError"; u "WorkspaceError"].
Definition error_payload (e : pyexn) : json := JObj [(u "error", JStr (exn_msg e))].
Definition seen_error (e : pyexn) : pyexn :=
  let detail := json_dumps dumps_utf8 (error_payload e) in
  if isinstance e (u "FileNotFoundError") then file_not_found detail
  else workspace_error (u "remote workspace error (" ++ dec 400 ++ u "): " ++ detail).

(** What is sent can be encoded, and is read back as it was; so is its length. *)
Definition request_crosses (op : remote_op) : Prop := exists raw,
  encode_utf8 (json_dumps dumps_default (JObj (op_fields op))) = Ok raw /\ (zlen raw <= MAX_BODY_BYTES)%Z /\
  parse_int (dec (zlen raw)) = Ok (zlen raw) /\
  json_loads (json_dumps dumps_default (JObj (op_fields op))) = Some (JObj (op_fields op)).
Definition reply_crosses (answer : result jdict) : Prop :=
  match answer with
  | Ok d => is_ok (reply_body (JObj d)) = true /\ json_loads (json_dumps dumps_utf8 (JObj d)) = Some (JObj d)
  | Err e => handled e = true /\ is_ok (reply_body (error_payload e)) = true
  end.

Definition reply_to (answer : result jdict) : reply :=
  match answer with
  | Ok d => Reply 200 (JObj d) []
  | Err e => Reply (if isinstance e (u "FileNotFoundError") then 404 else 400) (error_payload e) []
  end.

Lemma fields_id op : dict_get (u "workspace_id") (op_fields op) = Some (JStr (r_workspace_id r)).
Proof using Type. destruct op; vm_compute; reflexivity. Qed.

Lemma send_said st d s : is_ok (reply_body (JObj d)) = true -> _send_json st d s = say (Reply st (JObj d) []) s.
Proof using Type. unfold _send_json. by destruct (reply_body _). Qed.

Lemma workspace_post_served make op ws sv w w0 : workspace_factory = Some make -> r_workspace_id r <> [] ->
  make (r_workspace_id r) w = (Ok ws, w0) -> op_valid op -> reply_crosses (served ws op w0).1 ->
  _workspace_post (op_path op) (op_fields op) (MkHttp sv w []) =
    (HRet tt, MkHttp sv (served ws op w0).2 [reply_to (served ws op w0).1]).
Proof using Type.
  intros Hf Hid Hm Hv Hc. unfold _workspace_post, _workspace, mbind at 1, h_bind at 1. rewrite Hf, fields_id. cbn [default from_option id].
  unfold default, from_option, id. destruct (r_workspace_id r) as [|x l]; [done|]. unfold outer. unfold mbind at 1, h_bind at 1. cbn [h_world].
  rewrite Hm. cbn [mret h_ret]. unfold h_catch. rewrite operation_served by done. cbn [h_world].
  destruct (served ws op w0) as [[d|e] w1]; cbn [fst snd reply_crosses reply_to] in *.
  - destruct Hc as [Hc _]. by rewrite send_said.
  - destruct Hc as [Hh Hc]. unfold handled in Hh. unfold send_error.
    destruct (isinstance e (u "FileNotFoundError")); [by rewrite send_said|]. cbn [orb] in Hh. rewrite Hh. by rewrite send_said.
Qed.

(** A number is written with at least one digit. *)
Lemma pretty_go_ne n t : t <> String.EmptyString -> pretty_N_go n t <> String.EmptyString.
Proof using Type.
  revert t. induction (N.lt_wf_0 n) as [n _ IH]. intros t Ht. destruct (decide (0 < n)%N) as [Hn|Hn].
  - rewrite pretty_N_go_step by done. apply IH; [by apply N.div_lt|done].
  - by replace n with 0%N by lia.
Qed.

Lemma dec_ne z : dec z <> [].
Proof using Type.
  unfold dec. assert (forall n : N, pretty n <> String.EmptyString) as Hn.
  { intros n. unfold pretty, pretty_N. case_decide; [done|]. rewrite pretty_N_go_step by lia. by apply pretty_go_ne. }
  assert (pretty z <> String.EmptyString) as Hz by (destruct z; [done|apply Hn|done]).
  assert (forall t, t <> String.EmptyString -> u t <> []) as Hu; [|by apply Hu].
  intros [|a t]; [done|]. intros _. unfold u. cbn [string_bytes utf8_decode]. by repeat case_match.
Qed.

Definition op_request (base_url : pystr) (op : remote_op) (raw : bytes) : Request :=
  posted_request base_url (base_url ++ op_path op) raw (auth_headers r).

Section Request.
Variables (base_url : pystr) (op : remote_op) (raw : bytes).
Hypothesis encoded : encode_utf8 (json_dumps dumps_default (JObj (op_fields op))) = Ok raw.

Lemma request_path : rq_path (op_request base_url op raw) = op_path op.
Proof using Type. unfold op_request, posted_request. cbn [rq_path]. by rewrite drop_app_length. Qed.

Lemma raw_ne : raw <> [].
Proof using encoded.
  unfold encode_utf8 in encoded. destruct (forallb _ _); [|done]. injection encoded as <-. by destruct op.
Qed.

Lemma request_length : parse_int (dec (zlen raw)) = Ok (zlen raw) -> content_length (op_request base_url op raw) = Ok (zlen raw).
Proof using Type.
  intros Hn. unfold content_length, header, op_request, posted_request, auth_headers. cbn [rq_headers].
  pose proof (dec_ne (zlen raw)) as Hd. destruct (dec (zlen raw)) as [|c t] eqn:Ed; [done|].
  destruct (r_token r) as [[|x token]|]; cbn [app List.find fst];
    repeat match goal with |- context [bool_decide (lower (u ?a) = lower (u ?b))] =>
      let v := eval vm_compute in (bool_decide (lower (u a) = lower (u b))) in
      replace (bool_decide (lower (u a) = lower (u b))) with v by (vm_compute; reflexivity); cbn iota end; exact Hn.
Qed.

Lemma request_authed : (forall token, sc_token cfg = Some token -> token <> [] /\ r_token r = Some token) ->
  _authed cfg (op_request base_url op raw) = true.
Proof using Type.
  intros Ht. unfold _authed. destruct (sc_token cfg) as [token|]; [|done]. destruct (Ht token eq_refl) as [Hne Hr].
  apply bool_decide_eq_true. unfold header, op_request, posted_request, auth_headers. rewrite Hr. destruct token as [|x token]; [done|].
  cbn [rq_headers app List.find fst].
  repeat match goal with |- context [bool_decide (lower (u ?a) = lower (u ?b))] =>
    let v := eval vm_compute in (bool_decide (lower (u a) = lower (u b))) in
    replace (bool_decide (lower (u a) = lower (u b))) with v by (vm_compute; reflexivity); cbn iota end. done.
Qed.

Lemma request_read s : parse_int (dec (zlen raw)) = Ok (zlen raw) -> (zlen raw <= MAX_BODY_BYTES)%Z ->
  json_loads (json_dumps dumps_default (JObj (op_fields op))) = Some (JObj (op_fields op)) ->
  _read_body (op_request base_url op raw) s = (HRet (Some (op_fields op)), s).
Proof using encoded.
  intros Hn Hsz Hl. unfold _read_body. rewrite request_length by done. destruct (Z.ltb_spec MAX_BODY_BYTES (zlen raw)); [lia|].
  assert (read_raw (zlen raw) (op_request base_url op raw) = raw) as ->.
  { pose proof raw_ne as Hne. unfold read_raw. assert (0 < zlen raw)%Z by (destruct raw as [|b l]; [done|rewrite zlen_cons; pose proof (zlen_nonneg l); lia]).
    destruct (Z.eqb_spec (zlen raw) 0); [lia|]. destruct (Z.ltb_spec (zlen raw) 0); [lia|].
    unfold op_request, posted_request, ztake, zlen. cbn [rq_input]. rewrite Nat2Z.id. apply take_ge. lia. }
  apply utf8_decode_encode in encoded. rewrite encoded. cbn [mbind option_bind]. by rewrite Hl.
Qed.
End Request.

Lemma op_path_routed op : elem_b (op_path op) WORKSPACE_PATHS = true /\
  elem_b (op_path op) ([u "/runs"; u "/v1/chat/completions"] ++ WORKSPACE_PATHS) = true.
Proof using Type. destruct op; vm_compute; done. Qed.

(** The server admits requests, and has no limit of a rate. *)
Definition ready s : Prop := sv_stopping (h_server s) = false /\ (0 < sv_slots (h_server s))%Z /\ sc_max_requests_per_minute cfg = None.

Lemma load_restored (sv : Server Ag) : _finish_request (with_load (sv_in_flight sv + 1) (sv_slots sv - 1) (sv_stopping sv) sv) = sv.
Proof using Type. destruct sv. unfold _finish_request, with_load. simpl. f_equal; lia. Qed.

(** What the server does with the request of an operation. *)
Lemma request_handled base_url make op ws sv w w0 raw :
  sv_stopping sv = false -> (0 < sv_slots sv)%Z -> sc_max_requests_per_minute cfg = None ->
  (forall token, sc_token cfg = Some token -> token <> [] /\ r_token r = Some token) ->
  workspace_factory = Some make -> r_workspace_id r <> [] -> make (r_workspace_id r) w = (Ok ws, w0) -> op_valid op ->
  parse_int (dec (zlen raw)) = Ok (zlen raw) -> encode_utf8 (json_dumps dumps_default (JObj (op_fields op))) = Ok raw ->
  (zlen raw <= MAX_BODY_BYTES)%Z -> json_loads (json_dumps dumps_default (JObj (op_fields op))) = Some (JObj (op_fields op)) ->
  reply_crosses (served ws op w0).1 ->
  handle cfg (op_request base_url op raw) (MkHttp sv w []) =
    (HRet tt, MkHttp sv (served ws op w0).2 [reply_to (served ws op w0).1]).
Proof using Type.
  intros Hst Hsl Hlim Hauth Hf Hid Hm Hv Hn He Hsz Hl Hc. unfold handle, _handle_request. unfold mbind at 1, h_bind at 1, shared at 1.
  cbn [h_server h_world h_replies]. unfold _begin_request at 1. rewrite Hst. destruct (Z.leb_spec (sv_slots sv) 0); [lia|].
  rewrite Hlim. cbn [rq_method op_request posted_request]. unfold h_finally.
  assert (_do_post cfg (op_request base_url op raw) (MkHttp (with_load (sv_in_flight sv + 1) (sv_slots sv - 1) false sv) w []) =
    (HRet tt, MkHttp (with_load (sv_in_flight sv + 1) (sv_slots sv - 1) false sv) (served ws op w0).2 [reply_to (served ws op w0).1])) as Hpost.
  { unfold _do_post. rewrite request_authed, request_path by done. destruct (op_path_routed op) as [-> ->]. cbn [negb].
    unfold mbind at 1, h_bind at 1. rewrite request_read by done.
    assert (exists kv f, op_fields op = kv :: f) as (kv & f & E) by (destruct op; by do 2 eexists). rewrite E. rewrite <- E.
    by apply workspace_post_served with make. }
  change {| rq_method := POST; rq_path := _; rq_headers := _; rq_client := _; rq_input := _ |} with (op_request base_url op raw).
  rewrite Hpost. unfold shared_, shared, mbind, h_bind. cbn [h_server h_world h_replies mret h_ret].
  pose proof (load_restored sv) as Hr. rewrite Hst in Hr. by rewrite Hr.
Qed.

Lemma posted_served base_url make op ws s w0 timeout :
  r_base_url r = base_url -> ready s -> (forall token, sc_token cfg = Some token -> token <> [] /\ r_token r = Some token) ->
  workspace_factory = Some make -> r_workspace_id r <> [] -> make (r_workspace_id r) (h_world s) = (Ok ws, w0) -> op_valid op ->
  request_crosses op -> reply_crosses (served ws op w0).1 ->
  _post (H0 := loopback cfg base_url) r (op_path op) (op_payload op) timeout s =
    (match (served ws op w0).1 with Ok d => Ok (JObj d) | Err e => Err (seen_error e) end, moved s (served ws op w0).2).
Proof using Type.
  intros Hb (Hst & Hsl & Hlim) Hauth Hf Hid Hm Hv (raw & He & Hsz & Hn & Hl) Hc. unfold _post.
  change (post_body r (op_payload op)) with (JObj (op_fields op)). rewrite He, Hb. cbn [urlopen loopback].
  pose proof (request_handled base_url make op ws (h_server s) (h_world s) w0 raw Hst Hsl Hlim Hauth Hf Hid Hm Hv Hn He Hsz Hl Hc) as Hh.
  unfold op_request in Hh. rewrite Hh. cbn [snd h_server h_world h_replies]. unfold answered. cbn [h_replies].
  destruct (served ws op w0) as [[d|e] w1]; cbn [fst snd reply_to reply_crosses] in *.
  - destruct Hc as [Hb1 Hb2]. unfold reply_body in *. destruct (encode_utf8 (json_dumps dumps_utf8 (JObj d))) as [data|] eqn:Ed; [|done].
    change ((200 <=? 200)%Z && (200 <? 300)%Z) with true. cbn iota. apply utf8_decode_encode in Ed. by rewrite Ed, Hb2.
  - destruct Hc as [_ Hc]. unfold reply_body in *. unfold seen_error.
    destruct (encode_utf8 (json_dumps dumps_utf8 (error_payload e))) as [data|] eqn:Ed; [|done]. apply utf8_decode_encode in Ed.
    destruct (isinstance e (u "FileNotFoundError")); cbn; by rewrite Ed.
Qed.
End Served.

(** What the client makes of an answer to an operation. *)
Definition client_value `{PyRuntime} (op : remote_op) (d : jdict) : result op_value :=
  match op with
  | RunOp _ _ _ => Ok (CommandValue (result_fields d))
  | ReadOp p => rmap TextValue (content_of p d)
  | WriteOp p _ => rmap (fun _ => Done) (acknowledged (u "write") p d)
  | DeleteOp p => rmap (fun _ => Done) (acknowledged (u "delete") p d)
  | ListFilesOp _ => rmap ListValue (list_of (get_or (u "files") (JList []) d))
  | ListDirectoryOp _ => rmap ListValue (list_of (get_or (u "entries") (JList []) d))
  end.

Definition op_timeout (op : remote_op) : option json :=
  match op with RunOp _ t _ => match t with Some t => if truthy t then Some (plus_five t) else None | None => None end | _ => None end.

Lemma perform_posted `{PyRuntime} {W} `{HttpClient W} r op (w : W) :
  remote_perform r op w = posting (_post r (op_path op) (op_payload op) (op_timeout op) w) (client_value op).
Proof.
  unfold posting. destruct op; cbn [remote_perform op_path op_payload op_timeout client_value];
    unfold remote_run_command, remote_read_text, remote_write_text, remote_delete_file, remote_list_files, remote_list_directory, posting;
    destruct (_post _ _ _ _ w) as [[data|e] w']; cbn [fst snd rbind rmap]; try destruct (object data); reflexivity.
Qed.

Ltac read_reply := repeat match goal with |- context [dict_get (u ?k) ?f] =>
    let v := eval vm_compute in (dict_get (u k) f) in replace (dict_get (u k) f) with v by (vm_compute; reflexivity) end; reflexivity.

(** The client reads the value of the operation off the server's answer. *)
Lemma answer_value `{PyRuntime} `{WorkspaceBase Ws W} (ws : Ws) op (w : W) :
  (served ws op w).2 = (local_perform ws op w).2 /\
  match (served ws op w).1 with
  | Ok d => exists v, (local_perform ws op w).1 = Ok v /\ client_value op d = Ok v
  | Err e => (local_perform ws op w).1 = Err e
  end.
Proof.
  destruct op as [c t d|p|p c|p|pat|p]; cbn [served local_perform client_value].
  - destruct (ws_run_command ws c t d w) as [[x|e] w1]; (split; [done|]); [|done]. eexists. split; [done|].
    unfold as_remote, result_fields, get_or, command_reply. read_reply.
  - destruct (ws_read_text ws p w) as [[x|e] w1]; (split; [done|]); [|done]. eexists. split; [done|]. unfold content_of. read_reply.
  - destruct (ws_write_text ws p c w) as [[x|e] w1]; (split; [done|]); [|done]. eexists. split; [done|]. unfold acknowledged, get_or, ok_reply. read_reply.
  - destruct (ws_delete_file ws p w) as [[x|e] w1]; (split; [done|]); [|done]. eexists. split; [done|]. unfold acknowledged, get_or, ok_reply. read_reply.
  - destruct (ws_list_files ws pat w) as [[x|e] w1]; (split; [done|]); [|done]. eexists. split; [done|]. unfold get_or. read_reply.
  - destruct (ws_list_directory ws p w) as [[x|e] w1]; (split; [done|]); [|done]. eexists. split; [done|]. unfold get_or. read_reply.
Qed.

(** C8: a remote workspace is the served workspace. Over an agent server that is
    ready, an operation of [RemoteAPIWorkspace] has the effect of the same
    operation on the workspace the server's factory gives for its id, and no other
    effect on the server; its value is that operation's value, and an error the
    handler catches comes back as the error of its class. *)
Theorem remote_operation_is_served_operation `{PyRuntime} `{Numerals} {Ag Ws W : Type} `{!ServedAgent Ag W}
    `{!ServerEnv Ag Ws W} `{!WorkspaceBase Ws W} cfg r make op ws (s : Http Ag W) w0 :
  ready cfg s -> (forall token, sc_token cfg = Some token -> token <> [] /\ r_token r = Some token) ->
  workspace_factory = Some make -> r_workspace_id r <> [] -> make (r_workspace_id r) (h_world s) = (Ok ws, w0) -> op_valid op ->
  request_crosses r op -> reply_crosses (served ws op w0).1 ->
  remote_perform (H0 := loopback cfg (r_base_url r)) r op s =
    (match (local_perform ws op w0).1 with Ok v => Ok v | Err e => Err (seen_error e) end, moved s (local_perform ws op w0).2).
Proof.
  intros Hr Hauth Hf Hid Hm Hv Hq Hp. rewrite perform_posted.
  rewrite (posted_served cfg r _ make op ws s w0 _ eq_refl Hr Hauth Hf Hid Hm Hv Hq Hp). unfold posting. cbn [fst snd].
  destruct (answer_value ws op w0) as [-> Ha]. destruct (served ws op w0) as [[d|e] w1]; cbn [fst] in *; [|by rewrite Ha].
  destruct Ha as (v & -> & Hv'). cbn [object rbind]. by rewrite Hv'.
Qed.

(** ** A server over a small disk *)

Module RemoteDisk.
Import Disk.

#[export] Instance echo_agent : ServedAgent nat Disk := {|
  agent_run := fun _ message _ _ n w => (Some (Ok message), S n, w);
  agent_structured_output := fun _ => JNull;
  agent_usage := fun n => [(u "calls", JInt (Z.of_nat n))];
|}.

Definition make_workspace (id : pystr) (w : Disk) : result pystr * Disk :=
  if bool_decide (id = u "default") then (LocalWorkspace (u "/ws") w, w) else (Err (value_error (u "unknown workspace")), w).

#[export] Instance disk_server : ServerEnv nat pystr Disk := {|
  factory_binds := true; agent_factory := fun _ w => (Ok 0, w); legacy_factory := fun w => (Ok 0, w);
  workspace_factory := Some make_workspace;
  uuid4_hex := fun w => (u "id", w); monotonic := fun w => (fl_of_Z 1, w); socket_send := fun _ w => w;
  base64_sha1 := fun b => b; isinstance := fun e c => bool_decide (exn_type e = c);
|}.

#[export] Instance numerals : Numerals := {|
  parse_float := fun _ => Err (value_error []);
  parse_int := fun s => Ok (foldl (fun acc c => (acc * 10 + (Z.of_N c - 48))%Z) 0%Z s) |}.

Definition remote : RemoteAPIWorkspace := {|
  r_base_url := u "http://box"; r_workspace_id := u "default"; r_token := Some (u "secret"); r_http_timeout := JInt 30 |}.

(** A runtime that reads back the listed values. *)
Definition reading (values : list json) : PyRuntime :=
  decoding_runtime (concat (map (fun v => [(json_dumps dumps_default v, v); (json_dumps dumps_utf8 v, v)]) values)).

Definition read_b : remote_op := ReadOp (u "sub/b.txt").
#[local] Instance codec : PyRuntime := reading [JObj (op_fields remote read_b); JObj [(u "content", JStr [13; 10]%N)]].

Definition opening : Http nat Disk := MkHttp (new_server EchoServer.config) some_files [].

Lemma request_fits : request_crosses remote read_b.
Proof.
  eexists. split; [vm_compute; reflexivity|]. split; [vm_compute; discriminate|]. split; vm_compute; reflexivity.
Qed.

Lemma reply_fits : reply_crosses (served Disk.root read_b some_files).1.
Proof. vm_compute. split; reflexivity. Qed.

Lemma server_ready : ready EchoServer.config opening.
Proof. split; [reflexivity|]. split; [vm_compute; reflexivity|reflexivity]. Qed.

Lemma token_sent token : sc_token EchoServer.config = Some token -> token <> [] /\ r_token remote = Some token.
Proof. intros [= <-]. by split. Qed.

Lemma remote_operation_is_served_operation_witness :
  (local_perform Disk.root read_b some_files).1 = Ok (TextValue (JStr [13; 10]%N)) /\
  remote_perform (H0 := loopback EchoServer.config (r_base_url remote)) remote read_b opening =
    (match (local_perform Disk.root read_b some_files).1 with Ok v => Ok v | Err e => Err (seen_error e) end,
     moved opening (local_perform Disk.root read_b some_files).2).
Proof.
  split; [vm_compute; reflexivity|].
  assert (make_workspace (r_workspace_id remote) (h_world opening) = (Ok Disk.root, some_files)) as Hm by (vm_compute; reflexivity).
  assert (r_workspace_id remote <> []) as Hi by (vm_compute; discriminate).
  assert (op_valid read_b) as Hv by (vm_compute; discriminate).
  exact (remote_operation_is_served_operation EchoServer.config remote make_workspace read_b Disk.root opening some_files
    server_ready token_sent eq_refl Hi Hm Hv request_fits reply_fits).
Defined.

(** A workspace the server does not know is reported as a file that is not there. *)
Example unknown_workspace_is_file_not_found :
  let elsewhere := {| r_base_url := u "http://box"; r_workspace_id := u "x"; r_token := Some (u "secret"); r_http_timeout := JInt 30 |} in
  let op := WriteOp (u "a.txt") (u "b") in
  match (remote_perform (H := reading [JObj (op_fields elsewhere op)])
    (H0 := loopback (H := reading [JObj (op_fields elsewhere op)]) EchoServer.config (u "http://box")) elsewhere op opening).1 with
  | Err e => exn_type e = u "FileNotFoundError"
  | Ok _ => False
  end.
Proof. vm_compute. reflexivity. Qed.
End RemoteDisk.
