(* ===== verification/ToolWorkspaces.v ===== *)
(** * The patch tool over the workspace backends

    [ApplyPatchTool] (Patch.v) is written against an abstract workspace; here it
    runs on the backends of Workspace.v and Containers.v. *)

From stdpp Require Import base gmap strings list.
From Stdlib Require Import ZArith Lia.
From S2P Require Import Prelude Json PyText Types Patch Utf8 Workspace Shell Containers.

(** A backend as the workspace of a tool without a lock registry. *)
Definition patch_workspace {Ws W} `{!WorkspaceBase Ws W} (ws : Ws) : Workspace W := {|
  ws_resolve p w := rmap (fun _ => tt) (ws_resolve_path ws p w);
  ws_read p w := (ws_read_text ws p w).1;
  ws_write := ws_write_text ws;
  lk_acquire _ _ w := (Ok tt, w);
  lk_release _ _ w := (Ok tt, w);
|}.

(** On a backend without local paths every patch is refused: the boundary check
    that comes before the first read is the method those backends do not have. *)
Theorem patches_need_local_paths `{UnicodeDigits} {Ws W} `{!WorkspaceBase Ws W} (ws : Ws) isinstance patch undo (w : W) :
  ws_resolve_path ws = no_local_paths -> (forall msg, isinstance (workspace_error msg) (u "WorkspaceError") = true) ->
  exists r, execute (H0 := patch_workspace ws) isinstance false None patch undo w = Some (Ok r, undo, w) /\ error r <> None.
Proof.
  intros Hp Hi. unfold execute. destruct (parse_patch_total patch) as [parsed ->]. destruct parsed as [[|fp fps]|e].
  - by eexists.
  - cbn [dry_run]. unfold current_text. cbn [ws_resolve patch_workspace]. rewrite Hp. unfold no_local_paths. cbn [rmap rbind].
    destruct (isinstance _ (u "FileNotFoundError")); [by eexists|]. cbn [existsb]. rewrite Hi, orb_true_r. by eexists.
  - by eexists.
Qed.

(** The container backends are such. *)
Lemma containers_have_no_local_paths `{PyRuntime} `{Globs} {W} `{Processes W} (d : DockerWorkspace) (k : KubernetesWorkspace) :
  ws_resolve_path (W := W) d = no_local_paths /\ ws_resolve_path (W := W) k = no_local_paths.
Proof. done. Qed.

Module OnDisk.
#[local] Existing Instance Disk.files.
#[local] Existing Instance Disk.runtime.
#[local] Existing Instance Disk.no_globs.
#[local] Instance ascii_digits : UnicodeDigits := {| other_digit _ := None |}.

Definition two_files : Disk.Disk := [(u "/ws/a", u "1" ++ [10%N]); (u "/ws/b", u "1" ++ [10%N])].

Definition patch_both (second : pystr) : pystr :=
  print_patch [replace_line (u "a") 1 (u "1") (u "x"); replace_line (u "b") 1 (u "1") second].

Definition apply_patch (second : pystr) : option (result ToolResult * list (pystr * pystr) * Disk.Disk) :=
  execute (H0 := patch_workspace Disk.root) by_class false None (patch_both second) [] two_files.

Definition after (o : option (result ToolResult * list (pystr * pystr) * Disk.Disk)) : list (option bytes) :=
  match o with Some (_, _, d) => [dict_get (u "/ws/a") d; dict_get (u "/ws/b") d] | None => [] end.

Example patch_applied : after (apply_patch (u "y")) = [Some (u "x" ++ [10%N]); Some (u "y" ++ [10%N])].
Proof. vm_compute. reflexivity. Qed.

(** A patch that adds a line with a lone surrogate fails while its file is open:
    the files written before are rolled back and the failing one is left empty. *)
Example failed_patch_empties_file :
  after (apply_patch [55296%N]) = [Some (u "1" ++ [10%N]); Some []] /\
  exists r undo d, apply_patch [55296%N] = Some (Ok r, undo, d) /\
    error r = Some (u "apply_patch failed mid-write, rolled back: surrogates not allowed").
Proof. split; [vm_compute; reflexivity|]. do 3 eexists. split; vm_compute; reflexivity. Qed.
End OnDisk.
