(* ===== verification/ZipSkills.v ===== *)
(** * Skills from an archive (kinetic_sdk/skills/zip_loader.py, and [add_skill_from_zip] of skills/__init__.py)

    Extraction of an untrusted zip archive into a temporary directory, the loader's
    lifecycle, and the pipeline that vets, copies and registers what it holds. The
    archive's format is an interface: entries with a name, attributes, a declared
    size, and the bytes that reading one yields. *)

From stdpp Require Import base strings list sets.
From Stdlib Require Import ZArith Lia.
From S2P Require Import Prelude Json PyText Types Conversation Policy Patch EventBus Redact Hooks Skills Utf8 Workspace SkillVet.

(** ** Archives and temporary directories *)

(** [zi_header_offset] tells entries of one name apart. *)
Record ZipInfo := { zi_filename : pystr; zi_external_attr : Z; zi_file_size : Z; zi_header_offset : Z }.

(** [zip_infolist] is [ZipFile(path).infolist()]; [zip_open] opens an entry and
    gives the bytes that are read from it, and the exception that ends the reading early, if any. *)
Class Archives (W : Type) := {
  zip_infolist : pystr -> W -> result (list ZipInfo);
  zip_open : pystr -> ZipInfo -> W -> result (bytes * option pyexn);
  temporary_directory : W -> result pystr * W;
  cleanup : pystr -> W -> result unit * W;
  path_exists : pystr -> W -> bool;
  copytree : pystr -> pystr -> W -> result unit * W;
}.

Definition zip_skill_error (msg : pystr) : pyexn := PyExn (u "ZipSkillError") msg.

(** [stat.S_ISLNK((info.external_attr >> 16) & 0xFFFF)]. *)
Definition is_symlink (info : ZipInfo) : bool :=
  (Z.land (Z.land (Z.shiftr (zi_external_attr info) 16) 0xFFFF) 0xF000 =? 0xA000)%Z.

(** [os.path.splitext(name)[1]]: leading dots of the last component are no extension. *)
Definition extension (name : pystr) : pystr :=
  let backwards := rev (basename name) in
  match drop_while (fun c => negb (c =? 46)%N) backwards with
  | _ :: stem => if existsb (fun c => negb (c =? 46)%N) stem
                 then rev (take (length backwards - length stem) backwards) else []
  | [] => []
  end.

(** [os.path.dirname]. *)
Definition dirname (p : pystr) : pystr :=
  let head := rev (drop_while (fun c => negb (c =? slash)%N) (rev p)) in
  if forallb (N.eqb slash) head then head else rstrip_with (N.eqb slash) head.

Definition DEFAULT_ALLOWED_EXTENSIONS : list pystr := map u [".md"; ".txt"; ".json"; ".py"; ".sh"; ".yaml"; ".yml"].

(** ** ZipSkillLoader *)

Record ZipSkillLoader := {
  zl_zip_path : pystr;
  zl_max_total_size : Z;
  zl_max_entries : Z;
  zl_allowed_extensions : list pystr;
  zl_temp_dir : option pystr;
  zl_skills : option (list Skill);
  zl_closed : bool;
}.

Definition with_temp (t : option pystr) (l : ZipSkillLoader) : ZipSkillLoader := {|
  zl_zip_path := zl_zip_path l; zl_max_total_size := zl_max_total_size l; zl_max_entries := zl_max_entries l;
  zl_allowed_extensions := zl_allowed_extensions l; zl_temp_dir := t; zl_skills := zl_skills l; zl_closed := zl_closed l |}.
Definition with_skills (s : list Skill) (l : ZipSkillLoader) : ZipSkillLoader := {|
  zl_zip_path := zl_zip_path l; zl_max_total_size := zl_max_total_size l; zl_max_entries := zl_max_entries l;
  zl_allowed_extensions := zl_allowed_extensions l; zl_temp_dir := zl_temp_dir l; zl_skills := Some s; zl_closed := zl_closed l |}.
Definition now_closed (l : ZipSkillLoader) : ZipSkillLoader := {|
  zl_zip_path := zl_zip_path l; zl_max_total_size := zl_max_total_size l; zl_max_entries := zl_max_entries l;
  zl_allowed_extensions := zl_allowed_extensions l; zl_temp_dir := zl_temp_dir l; zl_skills := zl_skills l; zl_closed := true |}.

Section Loader.
Context `{PyRuntime, UnicodeWord} {W : Type} `{!Files W} `{!SkillFiles W} `{!Archives W}.

Definition new_zip_loader (zip_path : pystr) (max_total_size_bytes max_entries : Z) (allowed_extensions : option (list pystr)) (w : W)
    : result ZipSkillLoader :=
  path <-! f_realpath zip_path w ;;
  if is_file path w
  then Ok {| zl_zip_path := path; zl_max_total_size := max_total_size_bytes; zl_max_entries := max_entries;
             zl_allowed_extensions := default DEFAULT_ALLOWED_EXTENSIONS allowed_extensions;
             zl_temp_dir := None; zl_skills := None; zl_closed := false |}
  else Err (value_error (u "skill zip is not an existing file: " ++ py_repr (JStr zip_path))).

Definition in_archive (l : ZipSkillLoader) (msg : pystr) : pyexn := zip_skill_error (py_repr (JStr (zl_zip_path l)) ++ u ": " ++ msg).

Definition zip_slip (l : ZipSkillLoader) (name : pystr) : pyexn :=
  in_archive l (u "entry " ++ py_repr (JStr name) ++ u " resolves outside the extraction directory (zip-slip attempt)").

(** The copy of an entry to its destination: the number of bytes written. *)
Definition copy_entry (l : ZipSkillLoader) (info : ZipInfo) (dest : pystr) (w : W) : result Z * W :=
  match zip_open (zl_zip_path l) info w with
  | Err e => (Err e, w)
  | Ok (data, failed) =>
    match f_create dest w with
    | (Err e, w1) => (Err e, w1)
    | (Ok _, w1) =>
      match f_put dest data w1 with
      | (Err e, w2) => (Err e, w2)
      | (Ok _, w2) => (match failed with Some e => Err e | None => Ok (zlen data) end, w2)
      end
    end
  end.

Definition _extract_entry (l : ZipSkillLoader) (info : ZipInfo) (dest_root : pystr) (w : W) : result Z * W :=
  let name := zi_filename info in
  if is_symlink info then (Ok 0%Z, w)
  else
    match f_realpath (os_path_join dest_root name) w with
    | Err e => (Err e, w)
    | Ok dest =>
      if negb (is_inside dest_root dest) then (Err (zip_slip l name), w)
      else if ends_with [slash] name then
        let '(r, w') := f_makedirs dest w in (rmap (fun _ => 0%Z) r, w')
      else if negb (elem_b (lower (extension name)) (zl_allowed_extensions l)) then (Ok 0%Z, w)
      else
        match f_makedirs (dirname dest) w with
        | (Err e, w1) => (Err e, w1)
        | (Ok _, w1) => copy_entry l info dest w1
        end
    end.

Fixpoint extract_entries (l : ZipSkillLoader) (dest_root : pystr) (infos : list ZipInfo) (written_total : Z) (w : W) : result Z * W :=
  match infos with
  | [] => (Ok written_total, w)
  | info :: rest =>
    match _extract_entry l info dest_root w with
    | (Err e, w') => (Err e, w')
    | (Ok written, w') =>
      let written_total := (written_total + written)%Z in
      if (zl_max_total_size l <? written_total)%Z
      then (Err (in_archive l (u "actual uncompressed size exceeds the limit of " ++ dec (zl_max_total_size l) ++ u " bytes while extracting " ++
              py_repr (JStr (zi_filename info)) ++ u " (forged size header?)")), w')
      else extract_entries l dest_root rest written_total w'
    end
  end.

Definition declared_total (infos : list ZipInfo) : Z := foldr Z.add 0%Z (map zi_file_size infos).

Definition _extract_safely (l : ZipSkillLoader) (dest_root : pystr) (w : W) : result unit * W :=
  match zip_infolist (zl_zip_path l) w with
  | Err e => (Err (if bool_decide (exn_type e = u "BadZipFile")
                   then zip_skill_error (py_repr (JStr (zl_zip_path l)) ++ u " is not a valid zip: " ++ exn_msg e) else e), w)
  | Ok infos =>
    if (zl_max_entries l <? zlen infos)%Z
    then (Err (in_archive l (dec (zlen infos) ++ u " entries exceeds the limit of " ++ dec (zl_max_entries l) ++ u " (zip-bomb protection)")), w)
    else if (zl_max_total_size l <? declared_total infos)%Z
    then (Err (in_archive l (u "declared uncompressed size " ++ dec (declared_total infos) ++ u " bytes exceeds the limit of " ++
            dec (zl_max_total_size l) ++ u " (zip-bomb protection)")), w)
    else let '(r, w') := extract_entries l dest_root infos 0 w in (rmap (fun _ => tt) r, w')
  end.

Definition close (l : ZipSkillLoader) (w : W) : result unit * ZipSkillLoader * W :=
  match zl_temp_dir l with
  | None => (Ok tt, now_closed l, w)
  | Some t =>
    match cleanup t w with
    | (Err e, w') => (Err e, now_closed l, w')
    | (Ok _, w') => (Ok tt, with_temp None (now_closed l), w')
    end
  end.

(** [FileSystemSkillLoader(directory, source_label="zip").discover()]. *)
Definition discover_in (directory : pystr) (w : W) : result (list Skill) :=
  let root := Skills.realpath directory w in
  if is_dir root w then discover root (u "zip") w
  else Err (value_error (u "skill root is not an existing directory: " ++ py_repr (JStr directory))).

(** The [try] of [discover]: it leaves the temporary directory it made. *)
Definition extract_and_discover (l : ZipSkillLoader) (w : W) : result (list Skill) * ZipSkillLoader * W :=
  match temporary_directory w with
  | (Err e, w1) => (Err e, l, w1)
  | (Ok t, w1) =>
    let l := with_temp (Some t) l in
    match _extract_safely l t w1 with
    | (Err e, w2) => (Err e, l, w2)
    | (Ok _, w2) => match discover_in t w2 with Ok skills => (Ok skills, with_skills skills l, w2) | Err e => (Err e, l, w2) end
    end
  end.

(** [ZipSkillLoader.discover]. *)
Definition zip_discover (l : ZipSkillLoader) (w : W) : result (list Skill) * ZipSkillLoader * W :=
  if zl_closed l
  then (Err (PyExn (u "RuntimeError") (u "ZipSkillLoader for " ++ py_repr (JStr (zl_zip_path l)) ++ u " is closed; discover() can no longer extract")), l, w)
  else
    match zl_skills l with
    | Some skills => (Ok skills, l, w)
    | None =>
      match extract_and_discover l w with
      | (Ok skills, l', w') => (Ok skills, l', w')
      | (Err e, l', w') => match close l' w' with (Ok _, l2, w2) => (Err e, l2, w2) | (Err e2, l2, w2) => (Err e2, l2, w2) end
      end
    end.
End Loader.

(** ** add_skill_from_zip *)

Section Pipeline.
Context `{PyRuntime, UnicodeWord} `{SecretPatterns} `{Globs} `{VetPatterns} {W : Type}.
Context `{!Files W} `{!SkillFiles W} `{!FileSizes W} `{!Archives W}.
Variable chat : list message -> pystr -> Z -> W -> result LLMResponse * W.

(** One turn of the loop: [None] for a skill that failed vetting and is skipped. *)
Definition accept_skill (root : pystr) (llm_reviewer : option Z) (raise_on_critical : bool) (discovered : Skill) (r : Registry) (w : W)
    : result (option Skill) * Registry * W :=
  match vet_skill chat discovered llm_reviewer raise_on_critical w with
  | (Err e, w1) => (Err e, r, w1)
  | (Ok v, w1) =>
    if negb (vr_clean v) then (Ok None, r, w1)
    else
      match local_resolve root (sk_name discovered) w1 with
      | Err e => (Err e, r, w1)
      | Ok destination =>
        if path_exists destination w1
        then (Err (PyExn (u "FileExistsError") (u "cannot accept skill " ++ py_repr (JStr (sk_name discovered)) ++ u ": " ++
                py_repr (JStr destination) ++ u " already exists " ++ [8212%N] ++ u " remove the old copy first if you meant to update it")), r, w1)
        else
          match copytree (sk_root_path discovered) destination w1 with
          | (Err e, w2) => (Err e, r, w2)
          | (Ok _, w2) =>
            match skill_from_directory destination (sk_source discovered) w2 with
            | Err e => (Err e, r, w2)
            | Ok persistent =>
              match registry_add persistent (Some (registry_view v)) r with
              | (Err e, r') => (Err e, r', w2)
              | (Ok _, r') => (Ok (Some persistent), r', w2)
              end
            end
          end
      end
  end.

Fixpoint accept_skills (root : pystr) (llm_reviewer : option Z) (raise_on_critical : bool) (skills : list Skill) (r : Registry) (w : W)
    : result (list Skill) * Registry * W :=
  match skills with
  | [] => (Ok [], r, w)
  | s :: rest =>
    match accept_skill root llm_reviewer raise_on_critical s r w with
    | (Err e, r1, w1) => (Err e, r1, w1)
    | (Ok accepted, r1, w1) =>
      let '(res, r2, w2) := accept_skills root llm_reviewer raise_on_critical rest r1 w1 in
      (rmap (fun l => match accepted with Some a => a :: l | None => l end) res, r2, w2)
    end
  end.

(** The body of the [with] statement, and its end. *)
Definition with_loader (l : ZipSkillLoader) (root : pystr) (llm_reviewer : option Z) (raise_on_critical : bool) (r : Registry) (w : W)
    : result (list Skill) * Registry * W :=
  let '(res, r', l', w') :=
    match zip_discover l w with
    | (Err e, l1, w1) => (Err e, r, l1, w1)
    | (Ok skills, l1, w1) => let '(res, r', w2) := accept_skills root llm_reviewer raise_on_critical skills r w1 in (res, r', l1, w2)
    end in
  match close l' w' with
  | (Ok _, _, w2) => (res, r', w2)
  | (Err e, _, w2) => (Err e, r', w2)
  end.

Definition DEFAULT_TOTAL_SIZE : Z := 10 * 1024 * 1024.
Definition DEFAULT_ENTRIES : Z := 500.

Definition add_skill_from_zip (zip_path persist_dir : pystr) (llm_reviewer : option Z) (raise_on_critical : bool) (r : Registry) (w : W)
    : result (list Skill) * Registry * W :=
  match f_makedirs persist_dir w with
  | (Err e, w1) => (Err e, r, w1)
  | (Ok _, w1) =>
    match LocalWorkspace persist_dir w1 with
    | Err e => (Err e, r, w1)
    | Ok root =>
      match new_zip_loader zip_path DEFAULT_TOTAL_SIZE DEFAULT_ENTRIES None w1 with
      | Err e => (Err e, r, w1)
      | Ok l => with_loader l root llm_reviewer raise_on_critical r w1
      end
    end
  end.
End Pipeline.

(** ** Extraction is contained *)

(** Where the bytes of an entry go: nowhere if it is a link, a directory, a file
    whose extension is not allowed, or outside the root. *)
Definition entry_target {W} `{Files W} (l : ZipSkillLoader) (root : pystr) (w : W) (info : ZipInfo) : option pystr :=
  if is_symlink info || ends_with [slash] (zi_filename info) || negb (elem_b (lower (extension (zi_filename info))) (zl_allowed_extensions l))
  then None
  else match f_realpath (os_path_join root (zi_filename info)) w with
       | Ok dest => if is_inside root dest then Some dest else None
       | Err _ => None
       end.

Definition size_at {W} `{Files W} (q : pystr) (w : W) : Z := match contents q w with Some data => zlen data | None => 0 end.
Definition sizes_at {W} `{Files W} (qs : list pystr) (w : W) : Z := foldr Z.add 0%Z (map (fun q => size_at q w) qs).

Section ZipFacts.
Context `{PyRuntime, UnicodeWord} {W : Type} `{!Files W} `{!SkillFiles W} `{!Archives W} `{!LawfulFiles W}.
Implicit Types w : W.

Lemma size_nonneg q w : (0 <= size_at q w)%Z.
Proof using Type. unfold size_at, zlen. destruct (contents q w); lia. Qed.

(** One file grew by at most [n]. *)
Lemma sizes_grow qs dest n w w' : NoDup qs -> (0 <= n)%Z -> (forall q, q <> dest -> contents q w' = contents q w) ->
  (size_at dest w' <= size_at dest w + n)%Z -> (sizes_at qs w' <= sizes_at qs w + n)%Z.
Proof using Type.
  intros Hnd Hn Hframe Hd. assert (forall l, dest ∉ l -> sizes_at l w' = sizes_at l w) as Hsame.
  { intros l Hl. unfold sizes_at. f_equal. apply map_ext_in. intros q Hq. unfold size_at. rewrite Hframe; [done|].
    intros ->. by apply Hl, list_elem_of_In. }
  induction Hnd as [|q qs Hq Hnd IH]; [cbn; lia|]. unfold sizes_at in *. cbn [map foldr]. destruct (decide (q = dest)) as [->|Hne].
  - specialize (Hsame qs Hq). lia.
  - replace (size_at q w') with (size_at q w) by (unfold size_at; by rewrite Hframe). lia.
Qed.

Lemma copy_effects l info dest w r w' : real_path dest -> copy_entry l info dest w = (r, w') ->
  (forall q, f_realpath q w' = f_realpath q w) /\ (forall q, q <> dest -> contents q w' = contents q w) /\
  (forall n, r = Ok n -> (0 <= n)%Z /\ size_at dest w' = n).
Proof using LawfulFiles0.
  intros Hd. unfold copy_entry. destruct (zip_open _ info w) as [[data failed]|e]; [|by intros [= <- <-]].
  pose proof (fun q => realpath_created dest q w Hd) as R1. pose proof (fun q => contents_created dest q w Hd) as C1.
  destruct (f_create dest w) as [[[]|e1] w1] eqn:E1; simpl in *; [|intros [= <- <-]; split_and!; [done|intros q Hq; by apply C1|done]].
  pose proof (fun q => realpath_put dest data q w1 Hd) as R2. pose proof (fun q => contents_put dest data q w1 Hd) as C2.
  destruct (f_put dest data w1) as [[[]|e2] w2] eqn:E2; simpl in *; intros [= <- <-].
  all: split_and!; [intros q; by rewrite R2, R1|intros q Hq; rewrite C2 by done; by apply C1|].
  - destruct failed; [done|]. intros n [= <-]. unfold size_at. rewrite (written dest data w w1 w2 E1 E2). unfold zlen. lia.
  - done.
Qed.

(** An entry changes at most the file it goes to, which it may make [n] bytes long. *)
Lemma entry_effects l info root w r w' : _extract_entry l info root w = (r, w') ->
  (forall q, f_realpath q w' = f_realpath q w) /\
  (forall q, entry_target l root w info <> Some q -> contents q w' = contents q w) /\
  (forall n qs, r = Ok n -> NoDup qs -> (0 <= n)%Z /\ (sizes_at qs w' <= sizes_at qs w + n)%Z) /\
  (forall n, r = Ok n -> is_symlink info = false ->
     exists dest, f_realpath (os_path_join root (zi_filename info)) w = Ok dest /\ is_inside root dest = true).
Proof using LawfulFiles0.
  unfold _extract_entry, entry_target. destruct (is_symlink info) eqn:Es; [intros [= <- <-]; split_and!; [done..|intros n qs [= <-]; lia|done]|].
  destruct (f_realpath (os_path_join root (zi_filename info)) w) as [dest|e] eqn:Er; [|by intros [= <- <-]].
  destruct (is_inside root dest) eqn:Ei; [|by intros [= <- <-]]. cbn [negb orb]. pose proof (realpath_real _ _ _ Er) as Hreal.
  assert (exists d, Ok dest = Ok d /\ is_inside root d = true) as Hin by by exists dest.
  assert (forall n qs w1, (forall q, contents q w1 = contents q w) -> NoDup qs -> (0 <= n)%Z -> (sizes_at qs w1 <= sizes_at qs w + n)%Z) as Hquiet.
  { intros n qs w1 Hc Hnd Hn. apply (sizes_grow qs dest); [done..|]. unfold size_at. rewrite Hc. lia. }
  destruct (ends_with [slash] (zi_filename info)); cbn [orb].
  { pose proof (fun q => realpath_made dest q w) as R. pose proof (fun q => contents_made dest q w) as C.
    destruct (f_makedirs dest w) as [[[]|e] w1]; intros [= <- <-]; simpl in *; split_and!; try done.
    intros n qs [= <-] Hnd. split; [lia|]. by apply Hquiet. }
  destruct (negb (elem_b _ _)); cbn [orb]; [intros [= <- <-]; split_and!; try done|].
  { intros n qs [= <-] Hnd. lia. }
  pose proof (fun q => realpath_made (dirname dest) q w) as R. pose proof (fun q => contents_made (dirname dest) q w) as C.
  destruct (f_makedirs (dirname dest) w) as [[[]|e] w1]; simpl in *; [|intros [= <- <-]; split_and!; done].
  intros (Hp & Hc & Hs)%copy_effects; [|done]. split_and!.
  - intros q. by rewrite Hp.
  - intros q Hq. rewrite Hc; [done|congruence].
  - intros n qs Hr Hnd. destruct (Hs n Hr) as [Hn Hz]. split; [done|]. apply (sizes_grow qs dest); [done..|intros q Hq; by rewrite Hc|].
    pose proof (size_nonneg dest w). lia.
  - done.
Qed.

Lemma target_stable l root w w' info : (forall q, f_realpath q w' = f_realpath q w) -> entry_target l root w' info = entry_target l root w info.
Proof using Type. intros Hr. unfold entry_target. by rewrite Hr. Qed.

Lemma entries_effects l root infos t w r w' : extract_entries l root infos t w = (r, w') ->
  (forall q, f_realpath q w' = f_realpath q w) /\
  (forall q, (forall info, info ∈ infos -> entry_target l root w info <> Some q) -> contents q w' = contents q w) /\
  (forall total qs, r = Ok total -> NoDup qs -> (t <= zl_max_total_size l)%Z ->
     (total <= zl_max_total_size l)%Z /\ (sizes_at qs w' <= sizes_at qs w + (total - t))%Z) /\
  (forall total, r = Ok total -> Forall (fun info => is_symlink info = true \/
     exists dest, f_realpath (os_path_join root (zi_filename info)) w = Ok dest /\ is_inside root dest = true) infos).
Proof using LawfulFiles0.
  revert t w; induction infos as [|info infos IH]; intros t w.
  { intros [= <- <-]. split_and!; [done..|intros total qs [= <-]; lia|constructor]. }
  cbn [extract_entries]. destruct (_extract_entry l info root w) as [[n|e] w1] eqn:Ee; apply entry_effects in Ee as (Hp & Hc & Hs & Hi).
  2: { intros [= <- <-]. split_and!; [done| |done..]. intros q Hq. apply Hc, Hq. by left. }
  destruct (_ <? _)%Z eqn:El; [intros [= <- <-]; split_and!; [done| |done..]; intros q Hq; apply Hc, Hq; by left|].
  apply Z.ltb_ge in El. intros (Hp2 & Hc2 & Hs2 & Hi2)%IH. split_and!.
  - intros q. by rewrite Hp2.
  - intros q Hq. rewrite Hc2; [apply Hc, Hq; by left|]. intros i Hin. rewrite (target_stable l root w w1) by done. apply Hq. by right.
  - intros total qs Hr Hnd Ht. destruct (Hs n qs eq_refl Hnd) as [Hn Hz]. destruct (Hs2 total qs Hr Hnd El) as [? ?]. lia.
  - intros total Hr. constructor.
    + destruct (is_symlink info) eqn:Es; [by left|right]. by apply (Hi n eq_refl).
    + eapply Forall_impl; [by apply (Hi2 total)|]. intros i [?|(d & Hd & ?)]; [by left|right]. exists d. by rewrite <- Hp.
Qed.

Lemma target_inside l cs w info q : Forall plain_name cs -> entry_target l (rooted cs) w info = Some q ->
  is_symlink info = false /\ elem_b (lower (extension (zi_filename info))) (zl_allowed_extensions l) = true /\ cs `prefix_of` path_comps q.
Proof using LawfulFiles0.
  intros Hcs. unfold entry_target. destruct (is_symlink info); [done|]. destruct (ends_with _ _); [done|]. destruct (elem_b _ _); [|done].
  cbn [orb negb]. destruct (f_realpath _ w) as [dest|]; [|done]. destruct (is_inside _ dest) eqn:Ei; [|done]. intros [= <-].
  split_and!; [done..|]. by apply is_inside_spec in Ei as [_ ?]; [|by apply plain_segments].
Qed.
End ZipFacts.


(** ** What the pipeline lets in *)

(** The loader's cache and lifecycle: a second call reads nothing, a closed loader refuses. *)
Lemma discover_is_cached `{PyRuntime, UnicodeWord} {W} `{!Files W} `{!SkillFiles W} `{!Archives W} l (w : W) skills l' w' :
  zip_discover l w = (Ok skills, l', w') -> forall w2, zip_discover l' w2 = (Ok skills, l', w2).
Proof.
  unfold zip_discover. destruct (zl_closed l) eqn:Ec; [done|]. destruct (zl_skills l) eqn:Es; [intros [= <- <- <-] w2; by rewrite Ec, Es|].
  unfold extract_and_discover. destruct (temporary_directory w) as [[t|e] w1].
  - destruct (_extract_safely _ t w1) as [[[]|e] w2]; [destruct (discover_in t w2)|].
    1: intros [= <- <- <-] w3; cbn; by rewrite Ec.
    all: by destruct (close _ w2) as [[[[]|e2] l2] w3].
  - by destruct (close l w1) as [[[[]|e2] l2] w3].
Qed.

Lemma failed_discovery_closes `{PyRuntime, UnicodeWord} {W} `{!Files W} `{!SkillFiles W} `{!Archives W} l (w : W) e l' w' :
  zl_skills l = None -> zl_closed l = false -> zip_discover l w = (Err e, l', w') -> zl_closed l' = true.
Proof.
  unfold zip_discover. intros Hs ->. rewrite Hs. destruct (extract_and_discover l w) as [[[skills|e1] l1] w1]; [done|]. unfold close.
  destruct (zl_temp_dir l1) as [t|]; [|by intros [= <- <- <-]]. destruct (cleanup t w1) as [[[]|e2] w2]; by intros [= <- <- <-].
Qed.

Section Admission.
Context `{PyRuntime, UnicodeWord} `{SecretPatterns} `{Globs} `{VetPatterns} {W : Type}.
Context `{!Files W} `{!SkillFiles W} `{!FileSizes W} `{!Archives W}.
Variable chat : list message -> pystr -> Z -> W -> result LLMResponse * W.

(** [s] is the copy, at a fresh place of the persistent workspace, of a skill from
    the archive whose texts were found harmless. *)
Definition vetted_copy (root : pystr) (rv : option Z) (s : Skill) : Prop :=
  exists discovered w docs w1 dest w2,
    sk_source discovered = u "zip" /\ documents discovered w = Ok docs /\ texts_unsuspicious docs /\
    (forall m, rv = Some m -> ~ judged_critical chat discovered m w) /\
    local_resolve root (sk_name discovered) w1 = Ok dest /\ path_exists dest w1 = false /\
    copytree (sk_root_path discovered) dest w1 = (Ok tt, w2) /\ skill_from_directory dest (u "zip") w2 = Ok s.

Lemma made_source name description source root version type triggers (w : W) s :
  make_skill name description source root version type triggers w = Ok s -> sk_source s = source.
Proof using Type. unfold make_skill. do 3 (case_match; [done|]). by intros [= <-]. Qed.

Lemma from_directory_source directory source (w : W) s : skill_from_directory directory source w = Ok s -> sk_source s = source.
Proof using Type.
  unfold skill_from_directory. destruct (negb (is_file _ _)); [done|]. destruct (read_text _ _) as [text|]; [|done]. cbn [rbind].
  destruct (_split_frontmatter _ _) as [parsed|]; [|done]. cbn [rbind]. destruct (negb _); [done|]. apply made_source.
Qed.

Lemma discovered_source root entries seen (w : W) skills : discover_entries root (u "zip") entries seen w = Ok skills ->
  Forall (fun s => sk_source s = u "zip") skills.
Proof using Type.
  revert seen skills; induction entries as [|entry entries IH]; intros seen skills; [intros [= <-]; constructor|]. cbn [discover_entries].
  destruct (negb _ || _); [apply IH|]. destruct (elem_b _ _); [apply IH|].
  destruct (skill_from_directory _ _ w) as [s|e] eqn:E.
  - destruct (discover_entries _ _ entries _ w) as [rest|] eqn:Er; [|done]. intros [= <-].
    constructor; [by apply from_directory_source in E|by apply IH in Er].
  - case_bool_decide; [apply IH|done].
Qed.

Lemma zip_discover_source l (w : W) skills l' w' : zl_skills l = None -> zip_discover l w = (Ok skills, l', w') ->
  Forall (fun s => sk_source s = u "zip") skills.
Proof using Type.
  intros Hs. unfold zip_discover. rewrite Hs. destruct (zl_closed l); [done|]. unfold extract_and_discover.
  destruct (temporary_directory w) as [[t|e] w1]; [|by destruct (close l w1) as [[[[]|e2] l2] w3]].
  destruct (_extract_safely _ t w1) as [[[]|e] w2]; [|by destruct (close _ w2) as [[[[]|e2] l2] w3]].
  destruct (discover_in t w2) as [found|e] eqn:E; [|by destruct (close _ w2) as [[[[]|e2] l2] w3]]. intros [= <- <- <-].
  unfold discover_in in E. destruct (is_dir _ w2); [|done]. unfold discover in E. destruct (list_dir _ w2); [|done]. by apply discovered_source in E.
Qed.

(** What one registration does to the registry. *)
Lemma registry_grows s v (r : Registry) res r' : registry_add s v r = (res, r') ->
  forall name, dict_get name r' = dict_get name r \/ (dict_get name r = None /\ dict_get name r' = Some s).
Proof using Type.
  intros E name. assert (r' = r \/ (dict_get (sk_name s) r = None /\ r' = dict_set (sk_name s) s r)) as [->|[Hn ->]]; [|by left|].
  { revert E. unfold registry_add, dict_has. destruct (dict_get (sk_name s) r) eqn:Eg.
    all: repeat case_match; intros [= <- <-]; auto; try discriminate. }
  destruct (decide (name = sk_name s)) as [->|Hne]; [right; by rewrite dict_get_set_eq|left; by rewrite dict_get_set_ne].
Qed.

Definition grown (root : pystr) (rv : option Z) (r r' : Registry) : Prop :=
  forall name, dict_get name r' = dict_get name r \/
    (dict_get name r = None /\ exists s, dict_get name r' = Some s /\ vetted_copy root rv s).

Lemma grown_trans root rv r1 r2 r3 : grown root rv r1 r2 -> grown root rv r2 r3 -> grown root rv r1 r3.
Proof using Type.
  intros G1 G2 name. destruct (G2 name) as [E|[E (s & Hs & Hv)]].
  - destruct (G1 name) as [E1|[E1 (s & Hs & Hv)]]; [left; congruence|right; split; [done|]; exists s; split; [congruence|done]].
  - destruct (G1 name) as [E1|[E1 (s1 & Hs1 & _)]]; [right; split; [congruence|by exists s]|congruence].
Qed.

Lemma accept_skill_grows root rv raise discovered r (w : W) res r' w' : sk_source discovered = u "zip" ->
  accept_skill chat root rv raise discovered r w = (res, r', w') ->
  grown root rv r r' /\ forall s, res = Ok (Some s) -> vetted_copy root rv s.
Proof using Type.
  intros Hz. unfold accept_skill. assert (grown root rv r r) as Hrefl by by intros name; left.
  destruct (vet_skill chat discovered rv raise w) as [[v|e] w1] eqn:Ev; [|by intros [= <- <- <-]].
  apply vet_outcome in Ev as (_ & _ & docs & Hd & Hiff & _). destruct (vr_clean v) eqn:Ec; [|by intros [= <- <- <-]].
  destruct Hiff as [Hclean _]. destruct (Hclean eq_refl) as [Ht Hj]. cbn [negb].
  destruct (local_resolve root _ w1) as [dest|] eqn:Er; [|by intros [= <- <- <-]].
  destruct (path_exists dest w1) eqn:Ep; [by intros [= <- <- <-]|].
  destruct (copytree _ dest w1) as [[[]|e] w2] eqn:Et; [|by intros [= <- <- <-]].
  rewrite Hz. destruct (skill_from_directory dest _ w2) as [s|] eqn:Es; [|by intros [= <- <- <-]].
  assert (vetted_copy root rv s) as Hv by (exists discovered, w, docs, w1, dest, w2; by split_and!).
  destruct (registry_add s _ r) as [[[]|e] r1] eqn:Ea; intros [= <- <- <-]; (split; [|by intros ? [= <-] || done]).
  all: intros name; destruct (registry_grows _ _ _ _ _ Ea name) as [?|[??]]; [by left|right; split; [done|]; by exists s].
Qed.

Lemma accept_skills_grow root rv raise skills r (w : W) res r' w' : Forall (fun s => sk_source s = u "zip") skills ->
  accept_skills chat root rv raise skills r w = (res, r', w') ->
  grown root rv r r' /\ forall l, res = Ok l -> Forall (vetted_copy root rv) l.
Proof using Type.
  revert r w res r' w'; induction skills as [|d skills IH]; intros r w res r' w' Hz.
  { intros [= <- <- <-]. split; [by intros name; left|intros l [= <-]; constructor]. }
  apply Forall_cons in Hz as [Hd Hz]. cbn [accept_skills].
  destruct (accept_skill _ _ _ _ d r w) as [[[a|e] r1] w1] eqn:Ea; apply (accept_skill_grows _ _ _ _ _ _ _ _ _ Hd) in Ea as [G1 Ha].
  2: { intros [= <- <- <-]. by split. }
  destruct (accept_skills _ _ _ _ skills r1 w1) as [[res2 r2] w2] eqn:Es. apply (IH _ _ _ _ _ Hz) in Es as [G2 Hl]. intros [= <- <- <-].
  split; [by eapply grown_trans|]. intros l. destruct res2 as [l2|]; [|done]. intros [= <-]. destruct a as [a|]; [|by apply Hl].
  constructor; [by apply Ha|by apply Hl].
Qed.

Lemma pipeline_grows zip_path persist_dir rv raise r (w : W) res r' w' :
  add_skill_from_zip chat zip_path persist_dir rv raise r w = (res, r', w') ->
  (r' = r /\ is_ok res = false) \/
  exists root w1, LocalWorkspace persist_dir w1 = Ok root /\ grown root rv r r' /\ forall l, res = Ok l -> Forall (vetted_copy root rv) l.
Proof using Type.
  unfold add_skill_from_zip. destruct (f_makedirs persist_dir w) as [[[]|e] w1]; [|intros [= <- <- <-]; by left].
  destruct (LocalWorkspace persist_dir w1) as [root|] eqn:Eroot; [|intros [= <- <- <-]; by left].
  destruct (new_zip_loader zip_path _ _ _ w1) as [l|] eqn:El; [|intros [= <- <- <-]; by left]. intros E. right. exists root, w1.
  split; [done|]. revert E. assert (grown root rv r r) as Hrefl by by intros name; left.
  unfold with_loader. assert (zl_skills l = None) as Hs.
  { revert El. unfold new_zip_loader. destruct (f_realpath zip_path w1); [|done]. cbn [rbind]. case_match; [|done]. by intros [= <-]. }
  destruct (zip_discover l w1) as [[[skills|e] l1] w2] eqn:Ez.
  - apply zip_discover_source in Ez; [|done]. destruct (accept_skills _ _ _ _ skills r w2) as [[res1 r1] w3] eqn:Ea.
    apply accept_skills_grow in Ea as [G Hl]; [|done]. destruct (close l1 w3) as [[[[]|e2] l2] w4]; intros [= <- <- <-]; by split.
  - destruct (close l1 w2) as [[[[]|e2] l2] w4]; intros [= <- <- <-]; by split.
Qed.
End Admission.

(** C12: what an archive brings into the registry was vetted. Whatever the archive
    holds and however the pipeline ends, an entry of the registry is kept, and a
    new one is the copy, at a place of the persistent directory that was free, of a
    skill whose texts were found harmless; so is every skill that is returned. *)
Theorem archives_add_vetted_copies `{PyRuntime, UnicodeWord} `{SecretPatterns} `{Globs} `{VetPatterns} {W : Type}
    `{!Files W} `{!SkillFiles W} `{!FileSizes W} `{!Archives W} (chat : list message -> pystr -> Z -> W -> result LLMResponse * W)
    zip_path persist_dir rv raise r (w w' : W) res r' :
  add_skill_from_zip chat zip_path persist_dir rv raise r w = (res, r', w') ->
  (r' = r /\ is_ok res = false) \/
  exists root w1, LocalWorkspace persist_dir w1 = Ok root /\ grown chat root rv r r' /\
    forall l, res = Ok l -> Forall (vetted_copy chat root rv) l.
Proof. apply pipeline_grows. Qed.

(** ** An archive on a small disk *)

Module ZipDisk.
Import Disk SkillDisk.

Definition under (directory p : pystr) : bool := starts_with (directory ++ [slash]) p.

(** The archives, and the place of temporary directories. *)
Definition archives_of (archives : list (pystr * list (ZipInfo * bytes))) (temp : pystr) : Archives Disk := {|
  zip_infolist path _ := match dict_get path archives with Some l => Ok (map fst l) | None => Err (PyExn (u "BadZipFile") path) end;
  zip_open path info _ := match List.find (fun e => bool_decide (zi_filename e.1 = zi_filename info)) (default [] (dict_get path archives)) with
                          | Some (_, data) => Ok (data, None) | None => Err (PyExn (u "KeyError") path) end;
  temporary_directory d := (Ok temp, d);
  cleanup t d := (Ok tt, filter (fun f => under t f.1 = false) d);
  path_exists p d := dict_has p d || existsb (fun f => under p f.1) d;
  copytree src dst d := (Ok tt, d ++ map (fun f => (dst ++ drop (length src) f.1, f.2)) (filter (fun f => under src f.1 = true) d));
|}.

Definition entry (name : pystr) (data : bytes) : ZipInfo * bytes :=
  ({| zi_filename := name; zi_external_attr := 0; zi_file_size := zlen data; zi_header_offset := 0 |}, data).
Definition link_entry (name : pystr) (data : bytes) : ZipInfo * bytes :=
  ({| zi_filename := name; zi_external_attr := 0xA1FF0000; zi_file_size := zlen data; zi_header_offset := 0 |}, data).

Definition upload (entries : list (ZipInfo * bytes)) : Archives Disk := archives_of [(u "/up.zip", entries)] (u "/t").

Definition start : Disk := [(u "/up.zip", []); (u "/p/keep", []); (u "/etc/passwd", [120]%N)].

Definition demo_entries : list (ZipInfo * bytes) :=
  [entry (u "demo/") []; entry (u "demo/SKILL.md") (skill_md (u "Run the script.")); entry (u "demo/scripts/run.sh") (u "black .");
   link_entry (u "demo/assets/x.md") (u "/etc/passwd"); entry (u "demo/run.exe") [1]%N].

Definition add_demo (entries : list (ZipInfo * bytes)) (r : Registry) (d : Disk) : result (list Skill) * Registry * Disk :=
  add_skill_from_zip (Archives0 := upload entries) (says []) (u "/up.zip") (u "/p") None true r d.

Definition names (d : Disk) : list pystr := map fst d.

(** The link and the executable are left out, the temporary directory is removed. *)
Example upload_accepted :
  let '(res, r, d) := add_demo demo_entries [] start in
  rmap (map sk_root_path) res = Ok [u "/p/demo"] /\ map fst r = [u "demo"] /\
  names d = names start ++ map u ["/p/demo/SKILL.md"; "/p/demo/scripts/run.sh"].
Proof. vm_compute. done. Qed.

Example extensions : map extension (map u ["a/b.MD"; ".bashrc"; "a.b/c"; "x.tar.gz"; "..a"; "a."]) = map u [".MD"; ""; ""; ".gz"; ""; "."].
Proof. vm_compute. reflexivity. Qed.

Definition error_of (r : result (list Skill)) : pystr := match r with Ok _ => [] | Err e => exn_type e end.

(** Entries that point outside, and through the link of the disk. *)
Example zip_slip_refused :
  map (fun name => error_of (add_demo [entry (u name) (u "x")] [] start).1.1) ["../etc/passwd"; "/etc/passwd.md"; "demo/../../p/x.md"]
  = [u "ZipSkillError"; u "ZipSkillError"; u "ZipSkillError"].
Proof. vm_compute. reflexivity. Qed.

(** A skill whose name is taken is returned as accepted, and its copy is on disk,
    though the registry kept the first one. *)
Definition first_demo : Skill := {|
  sk_name := u "demo"; sk_description := u "The first."; sk_source := u "local"; sk_root_path := u "/l/demo";
  sk_version := None; sk_type := u "repo"; sk_triggers := [] |}.

Example ignored_skill_is_returned :
  let '(res, r, d) := add_demo demo_entries [(u "demo", first_demo)] start in
  rmap (map sk_root_path) res = Ok [u "/p/demo"] /\ r = [(u "demo", first_demo)] /\ dict_has (u "/p/demo/SKILL.md") d = true.
Proof. vm_compute. done. Qed.

(** The temporary directory is not resolved, the destinations are: behind a link
    ([/ws/out] leads to [/etc]) every archive counts as an attempt to escape. *)
Example linked_temporary_directory_refuses_all :
  error_of (add_skill_from_zip (Archives0 := archives_of [(u "/up.zip", demo_entries)] (u "/ws/out/t")) (says []) (u "/up.zip") (u "/p") None true [] start).1.1
  = u "ZipSkillError".
Proof. vm_compute. reflexivity. Qed.

Definition loader : ZipSkillLoader := {|
  zl_zip_path := u "/up.zip"; zl_max_total_size := 100; zl_max_entries := 5; zl_allowed_extensions := DEFAULT_ALLOWED_EXTENSIONS;
  zl_temp_dir := Some (u "/t"); zl_skills := None; zl_closed := false |}.


Lemma archives_add_vetted_copies_witness :
  let '(res, r', _) := add_demo demo_entries [] start in is_ok res = true /\
  exists root, grown (Archives0 := upload demo_entries) (says []) root None [] r' /\ forall l, res = Ok l -> Forall (vetted_copy (Archives0 := upload demo_entries) (says []) root None) l.
Proof.
  destruct (add_demo demo_entries [] start) as [[res r'] w'] eqn:E.
  assert (is_ok res = true) as Hok by (change res with (res, r', w').1.1; rewrite <- E; vm_compute; reflexivity). split; [exact Hok|].
  destruct (archives_add_vetted_copies (Archives0 := upload demo_entries) (says []) (u "/up.zip") (u "/p") None true [] start w' res r' E)
    as [[_ Hno]|(root & w1 & _ & Hg & Hl)]; [rewrite Hno in Hok; discriminate Hok|]. exists root. split; [exact Hg|exact Hl].
Defined.
End ZipDisk.
