(* ===== verification/Git.v ===== *)
(** * Secrets and the git tool (kinetic_sdk/secret/, kinetic_sdk/git/tool.py)

    Secrets, their providers and their registry; the git tool: how each action
    becomes a command line, and how its output is scrubbed. Running git is an
    interface. *)

From stdpp Require Import base strings list sets.
From Stdlib Require Import ZArith Lia SpecFloat.
From S2P Require Import Prelude Json PyText Types Budgets Redact.

(** ** secret/ *)

Record SecretValue := { reveal : pystr }.

Definition REDACTED_REPR : pystr := u "<SecretValue: [REDACTED]>".

(** [str] and [repr] of a secret, its equality and its hash. *)
Definition secret_repr (_ : SecretValue) : pystr := REDACTED_REPR.
Definition secret_eq (a b : SecretValue) : bool := bool_decide (reveal a = reveal b).
Definition secret_hash (_ : SecretValue) : result Z :=
  Err (PyExn (u "TypeError") (u "SecretValue is unhashable by design: a value-derived hash would " ++
    u "make short secrets brute-forceable from observed hashes, and " ++ u "secrets are looked up by key, never used as dict/set keys.")).

Inductive SecretProvider := EnvSecretProvider | DictSecretProvider (secrets : list (pystr * pystr)).

(** [os.environ] is the first argument. *)
Definition provider_get (environ : list (pystr * pystr)) (p : SecretProvider) (key : pystr) : option pystr :=
  match p with EnvSecretProvider => dict_get key environ | DictSecretProvider secrets => dict_get key secrets end.

Definition secret_registry (providers : option (list SecretProvider)) : list SecretProvider := default [EnvSecretProvider] providers.

Definition secret_not_found (key : pystr) : pyexn := PyExn (u "SecretNotFoundError")
  (u "Secret '" ++ key ++ u "' not found in any provider. " ++ u "Set the '" ++ key ++ u "' environment variable or inject it via a " ++
   u "DictSecretProvider before constructing the client.").

Fixpoint resolve_secret (environ : list (pystr * pystr)) (providers : list SecretProvider) (key : pystr) (required : bool)
    : result (option SecretValue) :=
  match providers with
  | [] => if required then Err (secret_not_found key) else Ok None
  | p :: rest =>
    match provider_get environ p key with
    | Some value => Ok (Some {| reveal := value |})
    | None => resolve_secret environ rest key required
    end
  end.

(** The first provider that has the key decides. *)
Lemma resolve_secret_first environ providers key required :
  resolve_secret environ providers key required =
  match omap (fun p => provider_get environ p key) providers with
  | value :: _ => Ok (Some {| reveal := value |})
  | [] => if required then Err (secret_not_found key) else Ok None
  end.
Proof. induction providers as [|p ps IH]; [done|]. simpl. by destruct (provider_get environ p key). Qed.

(** ** git/tool.py *)

(** [git_run] is the runner: the text of both streams and the return code.
    [call_message] is what Python says of a call whose keywords do not fit. *)
Class GitHost (W : Type) := {
  git_run : list pystr -> pystr -> pyfloat -> W -> result (pystr * pystr * Z) * W;
  environ : W -> list (pystr * pystr);
  call_message : pystr -> jdict -> pystr;
  format_g : pyfloat -> pystr;
}.

Record GitTool := {
  g_workdir : pystr;
  g_secrets : list SecretProvider;
  g_remote_token_key : pystr;
  g_timeout : pyfloat;
}.

Definition DEFAULT_REMOTE : pystr := u "origin".
Definition DEFAULT_TOKEN_KEY : pystr := u "GIT_TOKEN".
Definition DEFAULT_LOG_COUNT : Z := 20.
Definition MAX_LOG_COUNT : Z := 100.
Definition ACTIONS : list pystr := map u ["status"; "diff"; "add"; "commit"; "branch"; "checkout"; "push"; "pull"; "log"].

Definition new_git (getcwd : pystr) (workdir : option pystr) (secrets : option (list SecretProvider)) (remote_token_key : pystr)
    (timeout : pyfloat) : GitTool := {|
  g_workdir := default getcwd workdir; g_secrets := default (secret_registry None) secrets; g_remote_token_key := remote_token_key;
  g_timeout := timeout |}.

(** [int(v)]; a float is truncated. *)
Definition int_of `{Numerals} (v : json) : result Z :=
  match v with
  | JInt z => Ok z
  | JBool b => Ok (if b then 1 else 0)%Z
  | JStr s => parse_int s
  | JFloat (S754_zero _) => Ok 0%Z
  | JFloat (S754_finite s m e) =>
    let n := if (0 <=? e)%Z then (Zpos m * 2 ^ e)%Z else (Zpos m / 2 ^ (- e))%Z in Ok (if s then (- n)%Z else n)
  | JFloat (S754_infinity _) => Err (PyExn (u "OverflowError") (u "cannot convert float infinity to integer"))
  | JFloat S754_nan => Err (value_error (u "cannot convert float NaN to integer"))
  | _ => Err (PyExn (u "TypeError") (u "int() argument must be a string, a bytes-like object or a real number"))
  end.

(** [[str(p) for p in paths]]. *)
Definition path_args `{PyRuntime} (paths : json) : result (list pystr) :=
  match paths with
  | JList l => Ok (map py_str l)
  | JStr s => Ok (map (fun c => [c]) s)
  | JObj d => Ok (map fst d)
  | _ => Err (PyExn (u "TypeError") (u "object is not iterable"))
  end.

(** Keyword arguments: each names a parameter, and the required ones are there. *)
Definition fits (required optional : list pystr) (params : jdict) : bool :=
  forallb (fun kv => elem_b kv.1 (required ++ optional)) params && forallb (fun k => dict_has k params) required.

Definition argument (key : pystr) (dflt : json) (params : jdict) : json := default dflt (dict_get key params).

Definition metadata_updated (r : ToolResult) (extra : jdict) : ToolResult := {|
  output := output r; error := error r; tr_metadata := foldl (fun d kv => dict_set kv.1 kv.2 d) (tr_metadata r) extra;
  failure_category := failure_category r; duration_seconds := duration_seconds r; artifacts := artifacts r |}.

Section Git.
Context `{PyRuntime} `{SecretPatterns} `{Numerals} {W : Type} `{!GitHost W}.
Implicit Types (t : GitTool) (w : W).

Definition _scrub (text : pystr) (secrets : list pystr) : pystr :=
  redact_secrets (foldl (fun text secret => match secret with [] => text | _ => py_replace_all secret REDACTED text end) text secrets).

(** [a or b] of texts. *)
Definition or_text (a b : pystr) : pystr := match a with [] => b | _ => a end.

Definition git_failed (msg : pystr) (metadata : jdict) : ToolResult := {|
  output := JNull; error := Some msg; tr_metadata := metadata; failure_category := None; duration_seconds := None; artifacts := [] |}.
Definition git_printed (text : pystr) (metadata : jdict) : ToolResult := {|
  output := JStr text; error := None; tr_metadata := metadata; failure_category := None; duration_seconds := None; artifacts := [] |}.

Definition git_result (secrets full_argv : list pystr) (out err : pystr) (code : Z) : ToolResult :=
  let stdout := _scrub out secrets in
  let stderr := _scrub err secrets in
  let metadata := [(u "argv", strs (map (fun arg => _scrub arg secrets) full_argv))] in
  if negb (code =? 0)%Z
  then git_failed (or_text (strip stderr) (or_text (strip stdout) (u "git exited with code " ++ dec code))) metadata
  else git_printed (or_text (strip stdout) (u "(no output)")) metadata.

Definition _run_git t (argv secrets : list pystr) w : result ToolResult * W :=
  let full_argv := u "git" :: argv in
  match git_run full_argv (g_workdir t) (g_timeout t) w with
  | (Ok (out, err, code), w') => (Ok (git_result secrets full_argv out err code), w')
  | (Err e, w') =>
    (if bool_decide (exn_type e = u "FileNotFoundError") then Ok (error_result (u "git executable not found on PATH"))
     else if bool_decide (exn_type e = u "TimeoutExpired")
     then Ok (error_result (u "git command timed out after " ++ format_g (g_timeout t) ++ u "s"))
     else Err e, w')
  end.

Definition _check_ref (value : json) (field : pystr) : option pystr :=
  match value with
  | JStr ((_ :: _) as s) => if starts_with (u "-") s then Some (u "invalid " ++ field ++ u ": " ++ py_repr value) else None
  | _ => Some (u "invalid " ++ field ++ u ": " ++ py_repr value)
  end.

Definition _remote_auth t w : list pystr * list pystr :=
  match resolve_secret (environ w) (g_secrets t) (g_remote_token_key t) false with
  | Ok (Some token) => ([u "-c"; u "http.extraHeader=AUTHORIZATION: bearer " ++ reveal token], [reveal token])
  | _ => ([], [])
  end.

Definition said (msg : pystr) w : result ToolResult * W := (Ok (error_result msg), w).

Definition _action_status t (_ : jdict) w := _run_git t [u "status"; u "--short"; u "--branch"] [] w.

Definition _action_diff t (params : jdict) w :=
  _run_git t (u "diff" :: if truthy (argument (u "staged") (JBool false) params) then [u "--staged"] else []) [] w.

Definition _action_add t (params : jdict) w :=
  let paths := argument (u "paths") JNull params in
  if negb (truthy paths) then said (u "git add requires a non-empty 'paths' list") w
  else match path_args paths with
       | Err e => (Err e, w)
       | Ok args => _run_git t ([u "add"; u "--"] ++ args) [] w
       end.

Definition _action_commit t (params : jdict) w :=
  match argument (u "message") JNull params with
  | JStr message =>
    if bool_decide (strip message = []) then said (u "git commit requires a non-empty 'message'") w
    else _run_git t [u "commit"; u "-m"; message] [] w
  | _ => said (u "git commit requires a non-empty 'message'") w
  end.

(** A value that passed [_check_ref]. *)
Definition checked_ref (value : json) : pystr := match value with JStr s => s | _ => [] end.

Definition _action_branch t (params : jdict) w :=
  match argument (u "branch") JNull params with
  | JNull => _run_git t [u "branch"; u "--list"] [] w
  | branch => match _check_ref branch (u "branch") with
              | Some err => said err w
              | None => _run_git t [u "branch"; checked_ref branch] [] w
              end
  end.

Definition _action_checkout t (params : jdict) w :=
  let branch := argument (u "branch") JNull params in
  match _check_ref branch (u "branch") with
  | Some err => said err w
  | None => _run_git t ([u "checkout"] ++ (if truthy (argument (u "create") (JBool false) params) then [u "-b"] else []) ++ [checked_ref branch]) [] w
  end.

Definition _action_push t (params : jdict) w :=
  let branch := argument (u "branch") JNull params in
  let remote := argument (u "remote") (JStr DEFAULT_REMOTE) params in
  let force := truthy (argument (u "force") (JBool false) params) in
  match _check_ref remote (u "remote") with
  | Some err => said err w
  | None =>
    match _check_ref branch (u "branch") with
    | Some err => said err w
    | None =>
      let '(prefix, revealed) := _remote_auth t w in
      let '(r, w') := _run_git t (prefix ++ [u "push"; checked_ref remote; checked_ref branch] ++ if force then [u "--force"] else []) revealed w in
      (rmap (fun r => metadata_updated r [(u "action", JStr (u "push")); (u "remote", remote); (u "branch", branch); (u "force", JBool force)]) r, w')
    end
  end.

Definition _action_pull t (params : jdict) w :=
  let remote := argument (u "remote") (JStr DEFAULT_REMOTE) params in
  let branch := argument (u "branch") JNull params in
  match _check_ref remote (u "remote") with
  | Some err => said err w
  | None =>
    match match branch with JNull => None | _ => _check_ref branch (u "branch") end with
    | Some err => said err w
    | None =>
      let '(prefix, revealed) := _remote_auth t w in
      _run_git t (prefix ++ [u "pull"; checked_ref remote] ++ match branch with JNull => [] | _ => [checked_ref branch] end) revealed w
    end
  end.

Definition _action_log t (params : jdict) w :=
  let max_count := argument (u "max_count") (JInt DEFAULT_LOG_COUNT) params in
  match int_of max_count with
  | Ok n => _run_git t [u "log"; u "--oneline"; u "--max-count=" ++ dec (Z.max 1 (Z.min n MAX_LOG_COUNT))] [] w
  | Err e => if bool_decide (exn_type e = u "TypeError") || bool_decide (exn_type e = u "ValueError")
             then said (u "invalid max_count: " ++ py_repr max_count) w else (Err e, w)
  end.

(** The methods, with their required and optional parameters. *)
Definition handlers : list (pystr * (list pystr * list pystr * (GitTool -> jdict -> W -> result ToolResult * W))) := [
  (u "status", ([], [], _action_status)); (u "diff", ([], [u "staged"], _action_diff)); (u "add", ([u "paths"], [], _action_add));
  (u "commit", ([u "message"], [], _action_commit)); (u "branch", ([], [u "branch"], _action_branch));
  (u "checkout", ([u "branch"], [u "create"], _action_checkout)); (u "push", ([u "branch"], [u "remote"; u "force"], _action_push));
  (u "pull", ([], [u "remote"; u "branch"], _action_pull)); (u "log", ([], [u "max_count"], _action_log))].

Definition called (name : pystr) (h : list pystr * list pystr * (GitTool -> jdict -> W -> result ToolResult * W)) t (params : jdict) w
    : result ToolResult * W :=
  if fits h.1.1 h.1.2 params then h.2 t params w else (Err (PyExn (u "TypeError") (call_message name params)), w).

Definition execute t (action : json) (params : jdict) w : result ToolResult * W :=
  match match action with JStr name => dict_get name handlers | _ => None end with
  | None => said (u "Unknown git action " ++ py_repr action ++ u ". Supported: " ++ join (u ", ") ACTIONS) w
  | Some h =>
    match called (checked_ref action) h t params w with
    | (Err e, w') => (if bool_decide (exn_type e = u "TypeError")
                      then Ok (error_result (u "Invalid parameters for git action " ++ py_repr action ++ u ": " ++ exn_msg e)) else Err e, w')
    | ok => ok
    end
  end.
End Git.

(** ** The command lines *)

Definition safe_ref (s : pystr) : Prop := s <> [] /\ starts_with (u "-") s = false.

(** The commands the tool may run: what a model chooses is a reference that is no
    option, a message behind [-m], a path behind [--], or a bounded number. *)
Inductive git_command : list pystr -> Prop :=
| GitStatus : git_command [u "status"; u "--short"; u "--branch"]
| GitDiff staged : git_command (u "diff" :: if (staged : bool) then [u "--staged"] else [])
| GitAdd paths : git_command ([u "add"; u "--"] ++ paths)
| GitCommit message : strip message <> [] -> git_command [u "commit"; u "-m"; message]
| GitBranches : git_command [u "branch"; u "--list"]
| GitBranch name : safe_ref name -> git_command [u "branch"; name]
| GitCheckout create name : safe_ref name -> git_command ([u "checkout"] ++ (if (create : bool) then [u "-b"] else []) ++ [name])
| GitPush remote branch force : safe_ref remote -> safe_ref branch ->
    git_command ([u "push"; remote; branch] ++ if (force : bool) then [u "--force"] else [])
| GitPull remote : safe_ref remote -> git_command [u "pull"; remote]
| GitPullBranch remote branch : safe_ref remote -> safe_ref branch -> git_command [u "pull"; remote; branch]
| GitLog n : (1 <= n <= MAX_LOG_COUNT)%Z -> git_command [u "log"; u "--oneline"; u "--max-count=" ++ dec n].

Section GitFacts.
Context `{PyRuntime} `{SecretPatterns} `{Numerals} {W : Type} `{!GitHost W}.
Implicit Types (t : GitTool) (w : W).

Lemma check_ref_safe value field : _check_ref value field = None -> safe_ref (checked_ref value).
Proof using Type.
  unfold _check_ref, safe_ref. destruct value as [| | | |s| |]; try done. destruct s as [|c s]; [done|].
  destruct (starts_with (u "-") (c :: s)) eqn:E; [done|]. done.
Qed.

(** What a handler does: it refuses and runs nothing, or runs one command. *)
Definition one_command t w (outcome : result ToolResult * W) : Prop :=
  (outcome.2 = w /\ forall r, outcome.1 = Ok r -> error r <> None) \/
  exists prefix argv, (prefix = [] \/ prefix = (_remote_auth t w).1) /\ git_command argv /\
    outcome.2 = (git_run (u "git" :: prefix ++ argv) (g_workdir t) (g_timeout t) w).2.

Lemma run_world t argv secrets w : (_run_git t argv secrets w).2 = (git_run (u "git" :: argv) (g_workdir t) (g_timeout t) w).2.
Proof using Type. unfold _run_git. by destruct (git_run _ _ _ w) as [[[[out err] code]|e] w']. Qed.

Lemma refused_runs_nothing t w msg : one_command t w (said msg w).
Proof using Type. left. split; [done|]. by intros r [= <-]. Qed.

Lemma ran_one t w prefix argv secrets : prefix = [] \/ prefix = (_remote_auth t w).1 -> git_command argv ->
  one_command t w (_run_git t (prefix ++ argv) secrets w).
Proof using Type. intros Hp Ha. right. exists prefix, argv. by rewrite run_world. Qed.

Lemma handlers_run_one t name h params w : (name, h) ∈ handlers -> one_command t w (h.2 t params w).
Proof using Type.
  pose proof (fun argv => ran_one t w [] argv [] (or_introl eq_refl)) as Hran.
  intros Hin. unfold handlers in Hin. repeat (apply elem_of_cons in Hin as [[= -> ->]|Hin]); [..|by apply not_elem_of_nil in Hin]; cbn [snd].
  - apply (Hran _ GitStatus).
  - apply (Hran _ (GitDiff _)).
  - unfold _action_add. destruct (negb _); [apply refused_runs_nothing|]. destruct (path_args _) as [args|e]; [apply (Hran _ (GitAdd args))|]. left. by split.
  - unfold _action_commit. destruct (argument _ _ _) as [| | | |message| |]; try apply refused_runs_nothing. case_bool_decide as Hm; [apply refused_runs_nothing|].
    apply (Hran _ (GitCommit message Hm)).
  - unfold _action_branch. destruct (argument _ _ _) as [| | | |s| |] eqn:E; try apply refused_runs_nothing; [apply (Hran _ GitBranches)|].
    destruct (_check_ref _ _) eqn:Ec; [apply refused_runs_nothing|]. apply (Hran _ (GitBranch _ (check_ref_safe _ _ Ec))).
  - unfold _action_checkout. destruct (_check_ref _ _) eqn:Ec; [apply refused_runs_nothing|]. apply (Hran _ (GitCheckout _ _ (check_ref_safe _ _ Ec))).
  - unfold _action_push. destruct (_check_ref _ (u "remote")) eqn:Er; [apply refused_runs_nothing|]. destruct (_check_ref _ (u "branch")) eqn:Eb; [apply refused_runs_nothing|].
    destruct (_remote_auth t w) as [prefix revealed] eqn:Ea. set (argv := [u "push"; _; _] ++ _).
    destruct (_run_git t (prefix ++ argv) revealed w) as [r w'] eqn:E. right. exists prefix, argv. rewrite Ea.
    split; [by right|]. split; [by apply GitPush; eapply check_ref_safe|]. rewrite <- (run_world t _ revealed), E. done.
  - unfold _action_pull. destruct (_check_ref _ (u "remote")) eqn:Er; [apply refused_runs_nothing|]. apply check_ref_safe in Er.
    destruct (argument (u "branch") JNull params) as [| | | |s| |] eqn:Eb; try apply refused_runs_nothing.
    + destruct (_remote_auth t w) as [prefix revealed] eqn:Ea. apply ran_one; [right; by rewrite Ea|by apply GitPull].
    + destruct (_check_ref _ _) eqn:Ec; [apply refused_runs_nothing|]. apply check_ref_safe in Ec.
      destruct (_remote_auth t w) as [prefix revealed] eqn:Ea. apply ran_one; [right; by rewrite Ea|by apply GitPullBranch].
  - unfold _action_log. destruct (int_of _) as [n|e]; [|destruct (_ || _); [apply refused_runs_nothing|left; by split]].
    apply (Hran _), GitLog. unfold MAX_LOG_COUNT. lia.
Qed.

Lemma execute_runs_one t action params w : one_command t w (execute t action params w).
Proof using Type.
  unfold execute. destruct (match action with JStr name => _ | _ => None end) as [h|] eqn:Eh; [|apply refused_runs_nothing].
  assert (exists name, (name, h) ∈ handlers) as [name Hin].
  { destruct action as [| | | |name| |]; try done. exists name. by apply dict_get_elem. }
  assert (one_command t w (called (checked_ref action) h t params w)) as Hone.
  { unfold called. destruct (fits _ _ params); [by eapply handlers_run_one|left; by split]. }
  destruct (called _ h t params w) as [[r|e] w']; [done|]. destruct Hone as [[Hw _]|(prefix & argv & ?)]; [|right; by exists prefix, argv].
  left. split; [done|]. cbn [fst]. case_bool_decide; [by intros r [= <-]|done].
Qed.
End GitFacts.

(** C26: the tool runs at most one command, from a fixed list. Whatever action and
    parameters a model sends, git is either not run, and the result is an error, or
    run once with one of the command lines of [git_command]: no value the model
    chose is read as an option. *)
Theorem git_commands_are_curated `{PyRuntime} `{SecretPatterns} `{Numerals} {W : Type} `{!GitHost W} t action params (w : W) :
  one_command t w (execute t action params w).
Proof. apply execute_runs_one. Qed.

(** ** The credential *)

Lemma contains_app_r p (a b : pystr) : contains p (a ++ b) = false -> contains p b = false.
Proof.
  intros Hn. apply not_true_iff_false. intros (l & r & ->)%contains_spec. apply not_true_iff_false in Hn. apply Hn, contains_spec.
  exists (a ++ l), r. by rewrite <- app_assoc.
Qed.

Lemma contains_app_l p (a b : pystr) : contains p (a ++ b) = false -> contains p a = false.
Proof.
  intros Hn. apply not_true_iff_false. intros (l & r & ->)%contains_spec. apply not_true_iff_false in Hn. apply Hn, contains_spec.
  exists l, (r ++ b). by rewrite <- !app_assoc.
Qed.

(** An occurrence does not cross a character that the text searched for does not have. *)
Lemma contains_around p c (a b : pystr) : c ∉ p -> contains p a = false -> contains p b = false -> contains p (a ++ c :: b) = false.
Proof.
  intros Hc Ha Hb. apply not_true_iff_false. intros (l & r & E)%contains_spec. apply app_eq_app in E as (k & [[-> E]|[-> E]]).
  - apply app_eq_app in E as (k' & [[-> E]|[-> _]]).
    + destruct k' as [|x k'].
      * rewrite app_nil_r in *. apply not_true_iff_false in Ha. apply Ha, contains_spec. exists l, []. by rewrite app_nil_r.
      * injection E as <- _. apply Hc, elem_of_app. right. by left.
    + apply not_true_iff_false in Ha. apply Ha, contains_spec. by exists l, k'.
  - destruct k as [|x k].
    + destruct p as [|y p]; [by destruct a|]. injection E as <- _. by apply Hc; left.
    + injection E as <- ->. apply not_true_iff_false in Hb. apply Hb, contains_spec. by exists k, r.
Qed.

(** A credential without square brackets that is not a piece of the placeholder. *)
Definition plain_token (token : pystr) : Prop :=
  token <> [] /\ 91%N ∉ token /\ 93%N ∉ token /\ contains token (u "REDACTED") = false.

Lemma replaced_is_gone token s : plain_token token -> contains token (py_replace_all token REDACTED s) = false.
Proof.
  intros (Hne & Ho & Hc & Hr). unfold py_replace_all, py_replace, py_count. destruct token as [|x rest] eqn:Et; [done|]. rewrite <- Et in *.
  remember (count_from 0 token s) as n eqn:Hn. symmetry in Hn. revert s Hn; induction n as [|n IH]; intros s Hn.
  { rewrite replace_none. by apply count_zero. }
  destruct (count_first token REDACTED Hne s n Hn) as (l & r & -> & Hrn & Hfirst & Hrep). rewrite Hrep.
  assert (contains token l = false) as Hl.
  { apply not_true_iff_false. intros (l1 & l2 & ->)%contains_spec. specialize (Hfirst l1 (l2 ++ token ++ r)).
    rewrite <- !app_assoc in Hfirst. specialize (Hfirst eq_refl). rewrite !length_app in Hfirst. subst token. simpl in Hfirst. lia. }
  assert (contains token (u "REDACTED" ++ 93%N :: replace_from 0 n token REDACTED r) = false) as Hin by (apply contains_around; auto).
  change (REDACTED ++ replace_from 0 n token REDACTED r) with (91%N :: u "REDACTED" ++ 93%N :: replace_from 0 n token REDACTED r).
  by apply contains_around.
Qed.

Lemma strip_inside s : exists a b, s = a ++ strip s ++ b.
Proof.
  unfold strip, lstrip_with, rstrip_with. destruct (drop_while_suffix is_space s) as [a Ha].
  destruct (drop_while_suffix is_space (rev (drop_while is_space s))) as [b Hb]. exists a, (rev b).
  rewrite <- rev_app_distr, <- Hb, rev_involutive. exact Ha.
Qed.

Section ScrubFacts.
Context `{PyRuntime} `{SecretPatterns} `{Numerals} {W : Type} `{!GitHost W}.
Variable token : pystr.
Hypothesis plain : plain_token token.
(** The generic substitutions do not put the credential together. *)
Hypothesis rx_keeps : forall rx text, contains token text = false -> contains token (rx_sub rx text) = false.

Lemma scrub_gone text : contains token (_scrub text [token]) = false.
Proof using plain rx_keeps.
  unfold _scrub. cbn [foldl]. destruct token as [|c rest] eqn:Et; [by destruct plain|]. rewrite <- Et in *.
  pose proof (replaced_is_gone token text plain) as Hg. revert Hg. generalize (py_replace_all token REDACTED text). intros s Hs.
  unfold redact_secrets. destruct s as [|d s]; [done|]. revert Hs. generalize (d :: s). generalize redact_order.
  intros order. induction order as [|rx order IH]; intros s' Hs'; [done|]. cbn [foldl]. apply IH, rx_keeps, Hs'.
Qed.

Lemma strip_gone s : contains token s = false -> contains token (strip s) = false.
Proof using Type.
  intros Hs. destruct (strip_inside s) as (a & b & E). rewrite E in Hs. by eapply contains_app_l, contains_app_r.
Qed.

(** A message of the tool, scrubbed or fixed. *)
Definition harmless (text : pystr) : Prop :=
  contains token text = false \/ text = u "(no output)" \/ exists code, text = u "git exited with code " ++ dec code.

Lemma or_harmless a b : contains token a = false -> harmless b -> harmless (or_text a b).
Proof using Type. intros Ha Hb. unfold or_text. destruct a; [done|by left]. Qed.

Lemma git_result_harmless full_argv out err code : let r := git_result [token] full_argv out err code in
  (forall text, output r = JStr text \/ error r = Some text -> harmless text) /\
  exists args, tr_metadata r = [(u "argv", strs args)] /\ Forall (fun arg => contains token arg = false) args.
Proof using plain rx_keeps.
  assert (forall x, contains token (strip (_scrub x [token])) = false) as Hs by (intros x; apply strip_gone, scrub_gone).
  cbn zeta. unfold git_result. destruct (negb (code =? 0)%Z); cbn [output error tr_metadata git_failed git_printed]; (split; [|eexists; split; [done|]]).
  1: intros text [?|[= <-]]; [done|]; apply or_harmless; [apply Hs|]; apply or_harmless; [apply Hs|]; right; right; by exists code.
  2: intros text [[= <-]|?]; [|done]; apply or_harmless; [apply Hs|by right; left].
  all: apply Forall_map, Forall_forall; intros arg _; apply scrub_gone.
Qed.

Definition scrubbed (r : ToolResult) : Prop := forall args, dict_get (u "argv") (tr_metadata r) = Some (strs args) ->
  (forall text, output r = JStr text \/ error r = Some text -> harmless text) /\ Forall (fun arg => contains token arg = false) args.

Lemma unrecorded_scrubbed msg : scrubbed (error_result msg).
Proof using Type. by intros args. Qed.

Lemma strs_inj a b : strs a = strs b -> a = b.
Proof using Type. intros [= E]. revert b E; induction a as [|x a IH]; intros [|y b]; try done. intros [= -> E]. f_equal. by apply IH. Qed.

Lemma run_scrubbed t argv (w : W) r w' : _run_git t argv [token] w = (Ok r, w') -> scrubbed r.
Proof using plain rx_keeps.
  unfold _run_git. destruct (git_run _ _ _ w) as [[[[out err] code]|e] w2].
  - intros [= <- <-] args Hargs. destruct (git_result_harmless (u "git" :: argv) out err code) as [Ht (args' & Em & Hall)].
    split; [done|]. rewrite Em in Hargs. cbn [dict_get] in Hargs. rewrite decide_True in Hargs by done.
    injection Hargs as Hargs. apply (f_equal JList) in Hargs. by apply (strs_inj args' args) in Hargs as <-.
  - do 2 (case_bool_decide; [intros [= <- <-]; apply unrecorded_scrubbed|]). done.
Qed.

Lemma updated_scrubbed r extra : scrubbed r -> Forall (fun kv => kv.1 <> u "argv") extra -> scrubbed (metadata_updated r extra).
Proof using Type.
  intros Hr Hx args. unfold metadata_updated. cbn [output error tr_metadata]. intros Hargs. apply Hr.
  revert Hargs. generalize (tr_metadata r). induction Hx as [|kv extra Hk _ IH]; intros d; [done|]. cbn [foldl]. intros Hargs%IH.
  by rewrite dict_get_set_ne in Hargs.
Qed.

Lemma push_scrubbed t params (w : W) r w' prefix : _remote_auth t w = (prefix, [token]) -> _action_push t params w = (Ok r, w') -> scrubbed r.
Proof using plain rx_keeps.
  intros Ha. unfold _action_push, said. destruct (_check_ref _ (u "remote")); [intros [= <- <-]; apply unrecorded_scrubbed|].
  destruct (_check_ref _ (u "branch")); [intros [= <- <-]; apply unrecorded_scrubbed|]. rewrite Ha.
  destruct (_run_git t _ [token] w) as [[r0|e] w1] eqn:E; [|done]. intros [= <- <-]. apply updated_scrubbed; [by eapply run_scrubbed|].
  repeat constructor; vm_compute; discriminate.
Qed.

Lemma pull_scrubbed t params (w : W) r w' prefix : _remote_auth t w = (prefix, [token]) -> _action_pull t params w = (Ok r, w') -> scrubbed r.
Proof using plain rx_keeps.
  intros Ha. unfold _action_pull, said. destruct (_check_ref _ (u "remote")); [intros [= <- <-]; apply unrecorded_scrubbed|].
  destruct (match argument _ _ _ with JNull => _ | _ => _ end); [intros [= <- <-]; apply unrecorded_scrubbed|]. rewrite Ha. apply run_scrubbed.
Qed.
End ScrubFacts.

(** C27: the credential of a remote operation does not come back. When a push or a
    pull has run git with a token, neither the result's text nor its record of the
    command line contains the token, whatever git printed. *)
Theorem token_is_scrubbed `{PyRuntime} `{SecretPatterns} `{Numerals} {W : Type} `{!GitHost W} t name params (w w' : W) r token prefix args :
  plain_token token -> (forall rx text, contains token text = false -> contains token (rx_sub rx text) = false) ->
  _remote_auth t w = (prefix, [token]) -> name = u "push" \/ name = u "pull" ->
  execute t (JStr name) params w = (Ok r, w') -> dict_get (u "argv") (tr_metadata r) = Some (strs args) ->
  (forall text, output r = JStr text \/ error r = Some text -> harmless token text) /\
  Forall (fun arg => contains token arg = false) args.
Proof.
  intros Hp Hrx Ha Hname E. revert args. change (scrubbed token r).
  assert (forall msg, r = error_result msg -> scrubbed token r) as Herr by (intros msg ->; apply unrecorded_scrubbed).
  unfold execute in E. destruct Hname as [-> | ->].
  1: change (dict_get (u "push") handlers) with (Some ([u "branch"], [u "remote"; u "force"], _action_push)) in E.
  2: change (dict_get (u "pull") handlers) with (Some (@nil pystr, [u "remote"; u "branch"], _action_pull)) in E.
  all: cbn iota in E; destruct (called _ _ t params w) as [[r0|e] w0] eqn:Ec;
    [injection E as -> ->|case_bool_decide; [injection E as <- <-; by eapply Herr|done]].
  all: unfold called in Ec; cbn [fst snd] in Ec; destruct (fits _ _ params); [|done].
  - by eapply push_scrubbed.
  - by eapply pull_scrubbed.
Qed.

(** ** A git that prints its command line *)

Module EchoGit.
#[export] Instance host : GitHost (list (list pystr)) := {|
  git_run argv _ _ w := (Ok (join [32%N] argv, [], 0%Z), w ++ [argv]);
  environ _ := [(DEFAULT_TOKEN_KEY, u "tok-123")];
  call_message _ _ := u "unexpected keyword argument";
  format_g _ := u "60" |}.
#[export] Instance no_secrets : SecretPatterns := {| rx_sub _ text := text |}.
#[export] Instance runtime : PyRuntime := decoding_runtime [].
#[export] Instance numerals : Numerals := {| parse_float _ := Err (value_error []); parse_int _ := Err (value_error []) |}.

Definition tool : GitTool := new_git (u "/repo") None None DEFAULT_TOKEN_KEY (fl_of_Z 60).
Definition run_action (action : String.string) (params : jdict) := execute tool (JStr (u action)) params [].

(** What a run printed, and the command lines. *)
Definition seen (outcome : result ToolResult * list (list pystr)) : json * list (list pystr) :=
  (match outcome.1 with Ok r => match error r with Some e => JStr e | None => output r end | Err _ => JNull end, outcome.2).

Example actions :
  seen (run_action "diff" [(u "staged", JBool true)]) = (JStr (u "git diff --staged"), [map u ["git"; "diff"; "--staged"]]) /\
  seen (run_action "add" [(u "paths", strs [u "-f"])]) = (JStr (u "git add -- -f"), [map u ["git"; "add"; "--"; "-f"]]) /\
  seen (run_action "branch" [(u "branch", JStr (u "--force"))]) = (JStr (u "invalid branch: "), []) /\
  seen (run_action "log" [(u "max_count", JInt 5000)]) = (JStr (u "git log --oneline --max-count=100"), [map u ["git"; "log"; "--oneline"; "--max-count=100"]]) /\
  seen (run_action "commit" [(u "all", JBool true)]) = (JStr (u "Invalid parameters for git action : unexpected keyword argument"), []).
Proof. vm_compute. done. Qed.

(** A refspec is no option: a plus sign forces the push, a colon deletes the remote
    branch, although [force] is off, and so nothing asks for a confirmation. *)
Example push_forced_by_refspec :
  map (fun branch => (run_action "push" [(u "branch", JStr (u branch))]).2) ["+main"; ":main"]
  = [[map u ["git"; "-c"; "http.extraHeader=AUTHORIZATION: bearer tok-123"; "push"; "origin"; "+main"]];
     [map u ["git"; "-c"; "http.extraHeader=AUTHORIZATION: bearer tok-123"; "push"; "origin"; ":main"]]] /\
  match (run_action "push" [(u "branch", JStr (u "+main"))]).1 with
  | Ok r => dict_get (u "force") (tr_metadata r) = Some (JBool false) | Err _ => False end.
Proof. vm_compute. done. Qed.

(** A path passes for a branch: this checkout discards the changes of the work tree. *)
Example checkout_discards_changes : (run_action "checkout" [(u "branch", JStr (u "."))]).2 = [map u ["git"; "checkout"; "."]].
Proof. vm_compute. reflexivity. Qed.

Lemma token_is_scrubbed_witness :
  let '(res, _) := run_action "pull" [] in
  exists r, res = Ok r /\ output r = JStr (u "git -c http.extraHeader=AUTHORIZATION: bearer [REDACTED] pull origin") /\
    forall text, output r = JStr text -> harmless (u "tok-123") text.
Proof.
  destruct (run_action "pull" []) as [[r|e] w'] eqn:E; [|vm_compute in E; discriminate E].
  assert (run_action "pull" [] = (Ok r, w')) as E2 by exact E. vm_compute in E2. exists r. split; [reflexivity|].
  split; [injection E2 as <- _; vm_compute; reflexivity|]. intros text Ht.
  destruct (token_is_scrubbed tool (u "pull") [] [] w' r (u "tok-123") [u "-c"; u "http.extraHeader=AUTHORIZATION: bearer tok-123"]
    (map u ["git"; "-c"; "http.extraHeader=AUTHORIZATION: bearer [REDACTED]"; "pull"; "origin"])) as [Hh _].
  - split_and!; [vm_compute; discriminate| | |vm_compute; reflexivity]; apply (bool_decide_unpack _); vm_compute; exact I.
  - intros rx x Hx. exact Hx.
  - vm_compute. reflexivity.
  - right. reflexivity.
  - exact E.
  - injection E2 as <- _. vm_compute. reflexivity.
  - apply Hh. left. exact Ht.
Defined.
End EchoGit.
