(* ===== verification/McpRegistry.v ===== *)
(** * The registry of MCP servers (kinetic_sdk/mcp/registry.py)

    Named configurations, and the clients connected to them: objects that the
    registry caches by reference and that its users share. Opening and closing a
    transport are an interface. *)

From stdpp Require Import base strings list sets.
From Stdlib Require Import ZArith Lia SpecFloat.
From S2P Require Import Prelude Json Types Redact Policy PyText Protocol McpServer McpClient Budgets Git.

(** ** Configurations *)

Inductive ConfigValue := PlainValue (s : pystr) | SecretConfig (v : SecretValue).

Definition revealed (v : ConfigValue) : pystr := match v with PlainValue s => s | SecretConfig v => reveal v end.

Definition _reveal_map (mapping : option (list (pystr * ConfigValue))) : option (list (pystr * pystr)) :=
  match mapping with None => None | Some m => Some (map (fun kv => (kv.1, revealed kv.2)) m) end.

Record MCPServerConfig := {
  c_command : option pystr;
  c_args : list pystr;
  c_env : option (list (pystr * ConfigValue));
  c_url : option pystr;
  c_headers : option (list (pystr * ConfigValue));
  c_init_timeout : pyfloat;
  c_request_timeout : pyfloat;
}.

(** [MCPServerConfig(...)] with its [__post_init__]. *)
Definition make_config (c : MCPServerConfig) : result MCPServerConfig :=
  if bool_decide (is_Some (c_command c)) && bool_decide (is_Some (c_url c)) || negb (bool_decide (is_Some (c_command c)) || bool_decide (is_Some (c_url c)))
  then Err (value_error (u "MCPServerConfig needs exactly one transport flavour: 'command' (stdio) XOR 'url' (SSE)"))
  else Ok c.

Definition stdio_config (command : pystr) (args : option (list pystr)) (env : option (list (pystr * ConfigValue))) (init request : pyfloat)
    : result MCPServerConfig :=
  make_config {| c_command := Some command; c_args := default [] args; c_env := env; c_url := None; c_headers := None;
                 c_init_timeout := init; c_request_timeout := request |}.
Definition sse_config (url : pystr) (headers : option (list (pystr * ConfigValue))) (init request : pyfloat) : result MCPServerConfig :=
  make_config {| c_command := None; c_args := []; c_env := None; c_url := Some url; c_headers := headers;
                 c_init_timeout := init; c_request_timeout := request |}.

(** The constructors of the transports. *)
Inductive TransportSpec :=
| StdioSpec (command : pystr) (args : list pystr) (env : option (list (pystr * pystr)))
| SseSpec (url : pystr) (headers : option (list (pystr * pystr))) (connect_timeout read_timeout : pyfloat).

Definition _build_transport (c : MCPServerConfig) : TransportSpec :=
  match c_command c with
  | Some command => StdioSpec command (c_args c) (_reveal_map (c_env c))
  | None => SseSpec (default [] (c_url c)) (_reveal_map (c_headers c)) (c_init_timeout c) (c_request_timeout c)
  end.

(** Making and closing a transport. *)
Class Connections (T W : Type) := {
  open_transport : TransportSpec -> W -> result T * W;
  close_transport : T -> result unit * T;
}.

(** ** The registry *)

(** A client object; [cl_closed]: its [close] was called. *)
Record Cell (T : Type) := MkCell { cl_client : MCPClient T; cl_closed : bool }.
Arguments MkCell {T}.
Arguments cl_client {T}.
Arguments cl_closed {T}.

(** [rg_heap] holds every client ever made; the cache refers to them by position. *)
Record MCPServerRegistry (T : Type) := MkRegistry {
  rg_configs : list (pystr * MCPServerConfig);
  rg_clients : list (pystr * nat);
  rg_heap : list (Cell T);
}.
Arguments MkRegistry {T}.
Arguments rg_configs {T}.
Arguments rg_clients {T}.
Arguments rg_heap {T}.

Definition new_registry {T} : MCPServerRegistry T := MkRegistry [] [] [].

Section Registry.
Context `{PyRuntime} {T W : Type} `{Transport T} `{ClientEnv T} `{!Connections T W}.
Implicit Types (rg : MCPServerRegistry T) (w : W).

Definition register (name : pystr) (config : MCPServerConfig) rg : result unit * MCPServerRegistry T :=
  if bool_decide (name = []) then (Err (value_error (u "Server name must be non-empty")), rg)
  else if dict_has name (rg_configs rg)
  then (Err (value_error (u "MCP server " ++ py_repr (JStr name) ++ u " is already registered " ++ [8212%N] ++
          u " close() and re-register to replace it")), rg)
  else (Ok tt, MkRegistry (dict_set name config (rg_configs rg)) (rg_clients rg) (rg_heap rg)).

Definition registered_names rg : list pystr := sorted_strs (map fst (rg_configs rg)).
Definition is_connected (name : pystr) rg : bool := dict_has name (rg_clients rg).

Definition unknown_server (name : pystr) rg : pyexn :=
  PyExn (u "KeyError") (u "No MCP server named " ++ py_repr (JStr name) ++ u " registered (known: " ++
    match registered_names rg with [] => u "none" | names => py_repr (strs names) end ++ u ")").

(** The client at a place of the heap gets another state. *)
Definition put_cell (i : nat) (cell : Cell T) rg : MCPServerRegistry T := MkRegistry (rg_configs rg) (rg_clients rg) (<[i := cell]> (rg_heap rg)).

(** [client.close()]. *)
Definition close_client (i : nat) rg : result unit * MCPServerRegistry T :=
  match rg_heap rg !! i with
  | Some cell =>
    let c := cl_client cell in
    let '(r, t) := close_transport (transport c) in (r, put_cell i (MkCell (stepped c t (ids c)) true) rg)
  | None => (Ok tt, rg)
  end.

(** A handshake that fails closes the client; [fuel] bounds the wait for its answer. *)
Definition handshake (fuel : nat) (name : pystr) (c : MCPClient T) rg : option (result nat * MCPServerRegistry T) :=
  match initialize fuel None c with
  | None => None
  | Some (r, c') =>
    let i := length (rg_heap rg) in
    let rg1 := MkRegistry (rg_configs rg) (rg_clients rg) (rg_heap rg ++ [MkCell c' false]) in
    match r with
    | Ok _ => Some (Ok i, MkRegistry (rg_configs rg) (dict_set name i (rg_clients rg)) (rg_heap rg1))
    | Err e => match close_client i rg1 with (Ok _, rg2) => Some (Err e, rg2) | (Err e2, rg2) => Some (Err e2, rg2) end
    end
  end.

Definition connect (fuel : nat) (name : pystr) rg w : option (result nat * MCPServerRegistry T * W) :=
  match dict_get name (rg_clients rg) with
  | Some i => Some (Ok i, rg, w)
  | None =>
    match dict_get name (rg_configs rg) with
    | None => Some (Err (unknown_server name rg), rg, w)
    | Some config =>
      match open_transport (_build_transport config) w with
      | (Err e, w1) => Some (Err e, rg, w1)
      | (Ok t, w1) =>
        match handshake fuel name (make_client t (c_init_timeout config) (c_request_timeout config) (u "kinetic-agent-sdk") (u "0.1.0")) rg with
        | None => None
        | Some (r, rg') => Some (r, rg', w1)
        end
      end
    end
  end.

Definition close (name : pystr) rg : result unit * MCPServerRegistry T :=
  match dict_get name (rg_clients rg) with
  | None => (Ok tt, rg)
  | Some i => close_client i (MkRegistry (rg_configs rg) (dict_pop name (rg_clients rg)) (rg_heap rg))
  end.

Definition reconnect (fuel : nat) (name : pystr) rg w : option (result nat * MCPServerRegistry T * W) :=
  match close name rg with
  | (Err e, rg1) => Some (Err e, rg1, w)
  | (Ok _, rg1) => connect fuel name rg1 w
  end.

Fixpoint close_each (names : list pystr) rg : result unit * MCPServerRegistry T :=
  match names with
  | [] => (Ok tt, rg)
  | name :: rest => match close name rg with (Err e, rg1) => (Err e, rg1) | (Ok _, rg1) => close_each rest rg1 end
  end.

Definition close_all rg : result unit * MCPServerRegistry T := close_each (map fst (rg_clients rg)) rg.

Definition get_tools_as_kinetic_tools (fuel : nat) (name : pystr) rg w : option (result (list MCPToolAdapter) * MCPServerRegistry T * W) :=
  match connect fuel name rg w with
  | None => None
  | Some (Err e, rg1, w1) => Some (Err e, rg1, w1)
  | Some (Ok i, rg1, w1) =>
    match rg_heap rg1 !! i with
    | None => Some (Err (PyExn (u "KeyError") name), rg1, w1)
    | Some cell =>
      match get_tools fuel name (cl_client cell) with
      | None => None
      | Some (r, c') => Some (r, put_cell i (MkCell c' (cl_closed cell)) rg1, w1)
      end
    end
  end.
End Registry.

(** ** No connection is lost *)

(** Every cached name is configured and refers to an open client that completed
    its handshake, two names never share one, and a client that is not cached was closed. *)
Record registry_ok {T} (rg : MCPServerRegistry T) : Prop := {
  ok_configured name i : dict_get name (rg_clients rg) = Some i -> dict_has name (rg_configs rg) = true;
  ok_names : NoDup (map fst (rg_clients rg));
  ok_refs : NoDup (map snd (rg_clients rg));
  ok_live name i : (name, i) ∈ rg_clients rg ->
    exists cell, rg_heap rg !! i = Some cell /\ initialized (cl_client cell) = true /\ cl_closed cell = false;
  ok_no_leak i cell : rg_heap rg !! i = Some cell -> cl_closed cell = false -> i ∈ map snd (rg_clients rg);
}.

Lemma popped_elem name (x : pystr * nat) l : x ∈ dict_pop name l <-> x.1 <> name /\ x ∈ l.
Proof. unfold dict_pop. by rewrite list_elem_of_filter. Qed.

Lemma popped_map {A} (f : pystr * nat -> A) name l : NoDup (map f l) -> NoDup (map f (dict_pop name l)).
Proof.
  unfold dict_pop. induction l as [|x l IH]; [done|]. intros [Hx Hl]%NoDup_cons. rewrite filter_cons. destruct (decide _); [|by apply IH].
  cbn [map]. apply NoDup_cons. split; [|by apply IH]. intros (y & Hy & [_ Hin]%list_elem_of_filter)%list_elem_of_fmap.
  apply Hx, list_elem_of_fmap. by exists y.
Qed.

Section RegistryFacts.
Context `{PyRuntime} {T W : Type} `{Transport T} `{ClientEnv T} `{!Connections T W}.
Implicit Types (rg : MCPServerRegistry T) (w : W).

Lemma request_keeps fuel method params timeout (c c' : MCPClient T) r :
  _request fuel method params timeout c = Some (r, c') -> initialized c' = initialized c.
Proof using Type.
  unfold _request. destruct (next_request_id (ids c)) as [rid next]. destruct (send _ (transport c)) as [[[]|e] t1]; [|by intros [= <- <-]].
  destruct (monotonic t1) as [now t2]. destruct (await_response _ _ _ _ _ t2) as [[r' t3]|]; [|done]. by intros [= <- <-].
Qed.

Lemma get_tools_keeps fuel name (c c' : MCPClient T) r : get_tools fuel name c = Some (r, c') -> initialized c' = initialized c.
Proof using Type.
  unfold get_tools, list_tools. destruct (_require_initialized _ c); [|by intros [= <- <-]].
  destruct (_request fuel _ _ _ c) as [[r' c1]|] eqn:E; [|done]. intros [= <- <-]. by apply request_keeps in E.
Qed.

Lemma initialize_done fuel (c c' : MCPClient T) info : initialize fuel None c = Some (Ok info, c') -> initialized c' = true.
Proof using Type.
  unfold initialize. destruct (initialized c) eqn:E; [destruct (server_info c); by intros [= <- <-]|].
  destruct (_request fuel _ _ _ c) as [[[answer|e] c1]|]; [|done..]. destruct answer; try done. destruct (jget _ _) as [[]|]; try done.
  by destruct (send _ (transport c1)) as [[[]|e] t2]; intros [= <- <-].
Qed.

Lemma ok_new : registry_ok (T := T) new_registry.
Proof using Type. constructor; cbn; try constructor; try done. intros name i Hi. by apply not_elem_of_nil in Hi. Qed.

Lemma register_ok name config rg res rg' : register name config rg = (res, rg') -> registry_ok rg -> registry_ok rg'.
Proof using Type.
  unfold register. case_bool_decide; [by intros [= <- <-]|]. destruct (dict_has name _) eqn:E; [by intros [= <- <-]|]. intros [= <- <-] [].
  constructor; cbn [rg_configs rg_clients rg_heap]; try done. intros n i Hi. unfold dict_has. rewrite dict_get_set.
  destruct (decide (n = name)); [done|]. by apply ok_configured0 in Hi.
Qed.

(** A cell that keeps its handshake and its openness may change. *)
Lemma put_open i cell c' rg : rg_heap rg !! i = Some cell -> initialized c' = initialized (cl_client cell) ->
  registry_ok rg -> registry_ok (put_cell i (MkCell c' (cl_closed cell)) rg).
Proof using Type.
  intros Hi Hc []. constructor; cbn [rg_configs rg_clients rg_heap put_cell]; try done.
  - intros name j (cell' & Hj & Hin & Hcl)%ok_live0. destruct (decide (i = j)) as [<-|Hne].
    + rewrite Hi in Hj. injection Hj as <-. eexists. rewrite list_lookup_insert_eq by by eapply lookup_lt_Some. split; [done|]. cbn. by rewrite Hc.
    + exists cell'. by rewrite list_lookup_insert_ne.
  - intros j cell' Hj Hcl. destruct (decide (i = j)) as [<-|Hne]; [|rewrite list_lookup_insert_ne in Hj by done; by eapply ok_no_leak0].
    rewrite list_lookup_insert_eq in Hj by by eapply lookup_lt_Some. injection Hj as <-. by eapply ok_no_leak0.
Qed.

(** Closing a client that is no longer cached. *)
Lemma close_client_ok i rg res rg' : close_client i rg = (res, rg') -> i ∉ map snd (rg_clients rg) ->
  (forall j cell, j <> i -> rg_heap rg !! j = Some cell -> cl_closed cell = false -> j ∈ map snd (rg_clients rg)) ->
  (forall name j, dict_get name (rg_clients rg) = Some j -> dict_has name (rg_configs rg) = true) ->
  NoDup (map fst (rg_clients rg)) -> NoDup (map snd (rg_clients rg)) ->
  (forall name j, (name, j) ∈ rg_clients rg -> exists cell, rg_heap rg !! j = Some cell /\ initialized (cl_client cell) = true /\ cl_closed cell = false) ->
  registry_ok rg'.
Proof using Type.
  unfold close_client. intros E Hi Hleak Hconf Hn Hr Hlive. destruct (rg_heap rg !! i) as [cell|] eqn:Ei.
  2: { injection E as _ <-. constructor; try done. intros j cell Hj. apply Hleak; congruence. }
  destruct (close_transport _) as [r t]. injection E as _ <-. pose proof (lookup_lt_Some _ _ _ Ei) as Hlt.
  constructor; cbn [rg_configs rg_clients rg_heap put_cell]; try done.
  - intros name j Hin. assert (j <> i) by (intros ->; apply Hi, list_elem_of_fmap; by exists (name, i)). rewrite list_lookup_insert_ne by done. by eapply Hlive.
  - intros j cell' Hj Hcl. destruct (decide (i = j)) as [<-|Hne].
    + rewrite list_lookup_insert_eq in Hj by done. by injection Hj as <-.
    + rewrite list_lookup_insert_ne in Hj by done. by apply (Hleak j cell').
Qed.

Lemma close_ok name rg res rg' : close name rg = (res, rg') -> registry_ok rg -> registry_ok rg'.
Proof using Type.
  unfold close. destruct (dict_get name (rg_clients rg)) as [i|] eqn:Eg; [|by intros [= <- <-]]. intros E [].
  pose proof (dict_get_elem _ _ _ Eg) as Hin.
  assert (forall x : pystr * nat, x ∈ rg_clients rg -> x.1 = name -> x = (name, i)) as Hname.
  { intros [n j] Hx Hn. cbn in Hn. subst n. apply (dict_get_in _ _ _ ok_names0) in Hx. congruence. }
  assert (forall x : pystr * nat, x ∈ rg_clients rg -> x.2 = i -> x = (name, i)) as Href.
  { intros x Hx Hx2. destruct (list_elem_of_lookup_1 _ _ Hx) as [a Ha]. destruct (list_elem_of_lookup_1 _ _ Hin) as [b Hb].
    assert (a = b) as ->; [|congruence]. apply (NoDup_lookup _ _ _ i ok_refs0); rewrite list_lookup_fmap, ?Ha, ?Hb; cbn; by rewrite ?Hx2. }
  apply close_client_ok in E; cbn [rg_configs rg_clients rg_heap]; try done.
  - intros (x & Hx2 & [Hne Hx]%popped_elem)%list_elem_of_fmap. by rewrite (Href x Hx (eq_sym Hx2)) in Hne.
  - intros j cell Hne Hj Hcl. apply ok_no_leak0 in Hj as (x & -> & Hx)%list_elem_of_fmap; [|done]. apply list_elem_of_fmap. exists x.
    split; [done|]. apply popped_elem. split; [|done]. intros Hxn. by rewrite (Hname x Hx Hxn) in Hne.
  - intros n j. rewrite dict_get_pop. destruct (decide (n = name)); [done|]. apply ok_configured0.
  - by apply popped_map.
  - by apply popped_map.
  - intros n j [_ Hx]%popped_elem. by apply ok_live0 in Hx.
Qed.

Lemma close_each_ok names rg : registry_ok rg -> registry_ok (close_each names rg).2.
Proof using Type.
  revert rg; induction names as [|name names IH]; intros rg Hok; [done|]. cbn [close_each].
  destruct (close name rg) as [[[]|e] rg1] eqn:E; apply close_ok in E; try done. by apply IH.
Qed.

Lemma handshake_ok fuel name c rg res rg' : handshake fuel name c rg = Some (res, rg') ->
  dict_get name (rg_clients rg) = None -> dict_has name (rg_configs rg) = true -> registry_ok rg -> registry_ok rg'.
Proof using Type.
  unfold handshake. destruct (initialize fuel None c) as [[r c']|] eqn:Ei; [|done]. intros E Hn Hconf [].
  assert (forall j cell, rg_heap rg !! j = Some cell -> (rg_heap rg ++ [MkCell c' false]) !! j = Some cell) as Hold by (intros; by apply lookup_app_l_Some).
  assert (length (rg_heap rg) ∉ map snd (rg_clients rg)) as Hfresh.
  { intros ([n j] & Hj & Hin)%list_elem_of_fmap. apply ok_live0 in Hin as (cell & Hc & _). apply lookup_lt_Some in Hc. cbn in Hj. lia. }
  assert (forall j cell, j <> length (rg_heap rg) -> (rg_heap rg ++ [MkCell c' false]) !! j = Some cell -> cl_closed cell = false ->
    j ∈ map snd (rg_clients rg)) as Hleak.
  { intros j cell Hne Hj Hcl. apply lookup_app_Some in Hj as [Hj|[Hge Hj]]; [by eapply ok_no_leak0|].
    destruct (j - length (rg_heap rg)) eqn:Ej; [lia|done]. }
  assert (forall n j, (n, j) ∈ rg_clients rg -> exists cell, (rg_heap rg ++ [MkCell c' false]) !! j = Some cell /\
    initialized (cl_client cell) = true /\ cl_closed cell = false) as Hlive.
  { intros n j (cell & Hc & ?)%ok_live0. exists cell. split; [by apply Hold|done]. }
  destruct r as [info|e].
  - injection E as <- <-. apply initialize_done in Ei. constructor; cbn [rg_configs rg_clients rg_heap]; [|rewrite dict_set_absent by done..].
    + intros n j. rewrite dict_get_set. destruct (decide (n = name)) as [->|]; [done|]. apply ok_configured0.
    + rewrite map_app. apply NoDup_app. split_and!; [done| |repeat constructor; by intros ?%not_elem_of_nil].
      intros n Hin Hx. apply elem_of_cons in Hx as [->|Hx]; [|by apply not_elem_of_nil in Hx]. apply dict_get_key in Hin as [v Hv]. cbn in Hv. congruence.
    + rewrite map_app. apply NoDup_app. split_and!; [done| |repeat constructor; by intros ?%not_elem_of_nil].
      intros n Hin Hx. apply elem_of_cons in Hx as [->|Hx]; [done|by apply not_elem_of_nil in Hx].
    + intros n j [Hin|Hin]%elem_of_app; [by eapply Hlive|]. apply elem_of_cons in Hin as [[= -> ->]|Hx]; [|by apply not_elem_of_nil in Hx].
      exists (MkCell c' false). rewrite lookup_app_r, Nat.sub_diag by lia. done.
    + intros j cell Hj Hcl. rewrite map_app. apply elem_of_app. destruct (decide (j = length (rg_heap rg))) as [->|Hne]; [right; by left|left].
      by apply (Hleak j cell).
  - destruct (close_client _ _) as [rc rg2] eqn:Ec. apply close_client_ok in Ec; cbn [rg_configs rg_clients rg_heap]; try done.
    destruct rc; by injection E as <- <-.
Qed.

Lemma connect_ok fuel name rg w res rg' w' : connect fuel name rg w = Some (res, rg', w') -> registry_ok rg ->
  registry_ok rg' /\ forall i, res = Ok i -> exists cell, rg_heap rg' !! i = Some cell /\ (name, i) ∈ rg_clients rg'.
Proof using Type.
  unfold connect. destruct (dict_get name (rg_clients rg)) as [i|] eqn:Eg.
  { intros [= <- <- <-] Hok. split; [done|]. intros j [= <-]. apply dict_get_elem in Eg. destruct (ok_live rg Hok _ _ Eg) as (cell & ? & _). by exists cell. }
  destruct (dict_get name (rg_configs rg)) as [config|] eqn:Ec; [|by intros [= <- <- <-]].
  destruct (open_transport _ w) as [[t|e] w1]; [|by intros [= <- <- <-]].
  destruct (handshake _ _ _ rg) as [[r rg1]|] eqn:Eh; [|done]. intros [= <- <- <-] Hok. split.
  - eapply handshake_ok; [exact Eh|done| |done]. unfold dict_has. by rewrite Ec.
  - intros i ->. unfold handshake in Eh. destruct (initialize _ _ _) as [[[info|e] c']|]; [|by destruct (close_client _ _) as [[[]|e2] rg2]|done].
    injection Eh as <- <-. eexists. cbn [rg_heap rg_clients]. rewrite lookup_app_r, Nat.sub_diag by lia. split; [done|].
    rewrite dict_set_absent by done. apply elem_of_app; right. by left.
Qed.

Inductive registry_op :=
| RegisterOp (name : pystr) (config : MCPServerConfig) | ConnectOp (name : pystr) | ReconnectOp (name : pystr)
| CloseOp (name : pystr) | CloseAllOp | GetToolsOp (name : pystr).

(** One call of a method, whatever it returns or raises; [None]: it is still waiting. *)
Definition perform (fuel : nat) (op : registry_op) (s : MCPServerRegistry T * W) : option (MCPServerRegistry T * W) :=
  let '(rg, w) := s in
  match op with
  | RegisterOp name config => Some ((register name config rg).2, w)
  | ConnectOp name => match connect fuel name rg w with Some (_, rg', w') => Some (rg', w') | None => None end
  | ReconnectOp name => match reconnect fuel name rg w with Some (_, rg', w') => Some (rg', w') | None => None end
  | CloseOp name => Some ((close name rg).2, w)
  | CloseAllOp => Some ((close_all rg).2, w)
  | GetToolsOp name => match get_tools_as_kinetic_tools fuel name rg w with Some (_, rg', w') => Some (rg', w') | None => None end
  end.

Fixpoint perform_all (fuel : nat) (ops : list registry_op) (s : MCPServerRegistry T * W) : option (MCPServerRegistry T * W) :=
  match ops with
  | [] => Some s
  | op :: rest => match perform fuel op s with Some s' => perform_all fuel rest s' | None => None end
  end.

Lemma perform_ok fuel op rg w rg' w' : perform fuel op (rg, w) = Some (rg', w') -> registry_ok rg -> registry_ok rg'.
Proof using Type.
  destruct op as [name config|name|name|name| |name]; cbn [perform].
  - destruct (register name config rg) as [res rg1] eqn:E. intros [= <- <-]. by eapply register_ok.
  - destruct (connect fuel name rg w) as [[[res rg1] w1]|] eqn:E; [|done]. intros [= <- <-] Hok. by eapply connect_ok in E as [? _].
  - unfold reconnect. destruct (close name rg) as [[[]|e] rg1] eqn:Ec; [|intros [= <- <-]; by eapply close_ok].
    destruct (connect fuel name rg1 w) as [[[res rg2] w1]|] eqn:E; [|done]. intros [= <- <-] Hok. eapply connect_ok in E as [? _]; [done|]. by eapply close_ok.
  - destruct (close name rg) as [res rg1] eqn:E. intros [= <- <-]. by eapply close_ok.
  - intros [= <- <-]. apply close_each_ok.
  - unfold get_tools_as_kinetic_tools. destruct (connect fuel name rg w) as [[[[i|e] rg1] w1]|] eqn:E; [| |done].
    + destruct (rg_heap rg1 !! i) as [cell|] eqn:Ei; [|intros [= <- <-] Hok; by eapply connect_ok in E as [? _]].
      destruct (get_tools fuel name (cl_client cell)) as [[r c']|] eqn:Eg; [|done]. intros [= <- <-] Hok. apply get_tools_keeps in Eg.
      eapply put_open; [done..|]. by eapply connect_ok in E as [? _].
    + intros [= <- <-] Hok. by eapply connect_ok in E as [? _].
Qed.

Lemma perform_all_ok fuel ops s s' : perform_all fuel ops s = Some s' -> registry_ok s.1 -> registry_ok s'.1.
Proof using Type.
  revert s; induction ops as [|op ops IH]; intros [rg w]; [by intros [= <-]|]. cbn [perform_all].
  destruct (perform fuel op (rg, w)) as [[rg1 w1]|] eqn:E; [|done]. intros Ha Hok. apply (IH _ Ha). by eapply perform_ok.
Qed.

(** A name stays registered for ever: its message advises to close and register again, which cannot work. *)
Lemma names_stay fuel ops s s' name : perform_all fuel ops s = Some s' -> dict_has name (rg_configs s.1) = true -> dict_has name (rg_configs s'.1) = true.
Proof using Type.
  assert (forall i rg, rg_configs (close_client i rg).2 = rg_configs rg) as Hcc.
  { intros i rg. unfold close_client. destruct (rg_heap rg !! i); [|done]. by destruct (close_transport _). }
  assert (forall n rg, rg_configs (close n rg).2 = rg_configs rg) as Hc.
  { intros n rg. unfold close. destruct (dict_get n (rg_clients rg)); [by rewrite Hcc|done]. }
  assert (forall n rg w r rg' w', connect fuel n rg w = Some (r, rg', w') -> rg_configs rg' = rg_configs rg) as Hconn.
  { intros n rg w r rg' w'. unfold connect. destruct (dict_get n (rg_clients rg)); [by intros [= <- <- <-]|].
    destruct (dict_get n (rg_configs rg)); [|by intros [= <- <- <-]]. destruct (open_transport _ w) as [[t|e] w1]; [|by intros [= <- <- <-]].
    unfold handshake. destruct (initialize _ _ _) as [[[info|e] c']|]; [by intros [= <- <- <-]| |done].
    match goal with |- context [close_client ?i ?g] => specialize (Hcc i g); destruct (close_client i g) as [[[]|e2] rg2] end; by intros [= <- <- <-]. }
  revert s; induction ops as [|op ops IH]; intros [rg w]; [by intros [= <-]|]. cbn [perform_all].
  destruct (perform fuel op (rg, w)) as [[rg1 w1]|] eqn:E; [|done]. intros Ha Hin. apply (IH _ Ha). cbn [fst] in *.
  destruct op as [n config|n|n|n| |n]; cbn [perform] in E.
  - injection E as <- <-. unfold register. case_bool_decide; [done|]. destruct (dict_has n _) eqn:En; [done|]. cbn [snd rg_configs].
    unfold dict_has in *. rewrite dict_get_set. by destruct (decide _).
  - destruct (connect fuel n rg w) as [[[r rg2] w2]|] eqn:Ec; [|done]. injection E as <- <-. by rewrite (Hconn _ _ _ _ _ _ Ec).
  - unfold reconnect in E. specialize (Hc n rg). destruct (close n rg) as [[[]|e] rg0]; cbn [snd] in Hc; [|injection E as <- <-; by rewrite Hc].
    destruct (connect fuel n rg0 w) as [[[r rg2] w2]|] eqn:Ec; [|done]. injection E as <- <-. by rewrite (Hconn _ _ _ _ _ _ Ec), Hc.
  - injection E as <- <-. by rewrite Hc.
  - injection E as <- <-. unfold close_all. clear -Hin Hc. generalize (map fst (rg_clients rg)). intros names. revert rg Hin.
    induction names as [|n ns IHn]; intros rg0 Hin; [done|].
    cbn [close_each]. specialize (Hc n rg0). destruct (close n rg0) as [[[]|e] rg1]; cbn [snd] in *; [apply IHn|]; by rewrite Hc.
  - unfold get_tools_as_kinetic_tools in E. destruct (connect fuel n rg w) as [[[[i|e] rg2] w2]|] eqn:Ec; [| |done].
    + destruct (rg_heap rg2 !! i) as [cell|]; [destruct (get_tools _ _ _) as [[r c']|]; [|done]|]; injection E as <- <-; cbn; by rewrite (Hconn _ _ _ _ _ _ Ec).
    + injection E as <- <-. by rewrite (Hconn _ _ _ _ _ _ Ec).
Qed.
End RegistryFacts.

(** C29: the registry loses no connection. After any sequence of its operations,
    raising or not, every cached name is configured and refers to an open client that
    completed its handshake, no two names share a client, and every client that was
    ever made and is not cached has been closed. *)
Theorem registry_loses_no_connection `{PyRuntime} {T W : Type} `{Transport T} `{ClientEnv T} `{!Connections T W} fuel ops (w w' : W) rg :
  perform_all (T := T) fuel ops (new_registry, w) = Some (rg, w') -> registry_ok rg.
Proof. intros E. apply perform_all_ok in E; [done|]. apply ok_new. Qed.

(** What the error of [register] advises does not work. *)
Theorem close_does_not_unregister `{PyRuntime} {T W : Type} `{Transport T} `{ClientEnv T} `{!Connections T W} fuel ops (w w' : W) (rg rg' : MCPServerRegistry T) name config :
  dict_has name (rg_configs rg) = true -> perform_all fuel (CloseOp name :: ops) (rg, w) = Some (rg', w') ->
  is_ok (register name config rg').1 = false.
Proof.
  intros Hin E. pose proof (names_stay _ _ _ _ _ E Hin) as Hs. cbn [fst] in Hs. unfold register. case_bool_decide; [done|]. by rewrite Hs.
Qed.

(** ** Servers that answer the handshake *)

Module Answering.
(** A transport with its queue of answers; the world counts the transports made. *)
Definition T : Type := list JsonRpcMessage.
#[export] Instance queue : Transport T := {|
  send _ t := (Ok tt, t);
  receive _ t := match t with m :: t' => (Ok m, t') | [] => (Err (PyExn (u "MCPTransportError") []), t) end |}.
#[export] Instance clocks : ClientEnv T := {| monotonic t := (fl_of_Z 0, t); on_notification _ t := (Ok tt, t) |}.
#[export] Instance runtime : PyRuntime := decoding_runtime [].

Definition answer (version : json) : JsonRpcMessage := JsonRpcResponse (JInt 1) (JObj [(u "protocolVersion", version)]) None.

(** The second transport is answered without a version. *)
#[export] Instance opening : Connections T nat := {|
  open_transport _ n := (Ok [answer (if (n =? 1)%nat then JNull else JStr (u "2025-06-18"))], S n);
  close_transport t := (Ok tt, t) |}.

Definition config : MCPServerConfig := {|
  c_command := Some (u "unity-mcp"); c_args := []; c_env := Some [(u "KEY", SecretConfig {| reveal := u "k" |})]; c_url := None;
  c_headers := None; c_init_timeout := fl_of_Z 10; c_request_timeout := fl_of_Z 30 |}.

Definition ops : list registry_op := [RegisterOp (u "a") config; RegisterOp (u "b") config; ConnectOp (u "a"); ConnectOp (u "b"); ConnectOp (u "b");
  ReconnectOp (u "a"); RegisterOp (u "a") config].

(** The failed handshake of [b] and the old client of [a] are closed. *)
Example clients_after : match perform_all (T := T) 5 ops (new_registry, 0%nat) with
  | Some (rg, n) => rg_clients rg = [(u "b", 2%nat); (u "a", 3%nat)] /\ map cl_closed (rg_heap rg) = [true; true; false; false] /\ n = 4%nat
  | None => False end.
Proof. vm_compute. done. Qed.

Example secrets_revealed_late : _build_transport config = StdioSpec (u "unity-mcp") [] (Some [(u "KEY", u "k")]).
Proof. vm_compute. reflexivity. Qed.

Lemma registry_loses_no_connection_witness :
  match perform_all (T := T) 5 ops (new_registry, 0%nat) with Some (rg, _) => registry_ok rg | None => False end.
Proof.
  destruct (perform_all (T := T) 5 ops (new_registry, 0%nat)) as [[rg n]|] eqn:E; [|vm_compute in E; discriminate E].
  exact (registry_loses_no_connection 5 ops 0%nat n rg E).
Defined.
End Answering.
