(* ===== verification/AsyncClient.v ===== *)
(** * Requests, and the asynchronous model client (kinetic_sdk/llm/client.py, llm/async_client.py)

    How [LiteLLMClient] is configured and puts a request together, its two calls as a
    whole, and their asynchronous twins: the same code around awaits at which the event
    loop may deliver a cancellation. The provider is an interface; translation,
    parsing, streams and retries are those of Client.v. *)

From stdpp Require Import base gmap strings list.
From Stdlib Require Import ZArith Lia SpecFloat.
From S2P Require Import Prelude Json Types Conversation Budgets Client Git.

(** ** Configuration and requests *)

(** [lc_api_key] is wrapped, whichever way it was optional_entry. *)
Record LiteLLMClient := {
  lc_model : pystr;
  lc_api_key : option SecretValue;
  lc_api_base : option pystr;
  lc_max_tokens : Z;
  lc_timeout : option pyfloat;
  lc_retry : RetryConfig;
}.

Definition _wrap_secret (api_key : option (pystr + SecretValue)) : option SecretValue :=
  match api_key with None => None | Some (inl s) => Some {| reveal := s |} | Some (inr v) => Some v end.

Definition make_llm_client (model : pystr) (api_key : option (pystr + SecretValue)) (api_base : option pystr) (max_tokens : Z)
    (timeout : option pyfloat) (retry : RetryConfig) : result LiteLLMClient :=
  if match timeout with Some t => fl_le t (S754_zero false) | None => false end then Err (value_error (u "timeout must be positive"))
  else if (max_retries retry <? 0)%Z then Err (value_error (u "max_retries must be >= 0"))
  else if fl_le (retry_base_delay retry) (S754_zero false) || fl_le (retry_max_delay retry) (S754_zero false)
  then Err (value_error (u "retry delays must be positive"))
  else Ok {| lc_model := model; lc_api_key := _wrap_secret api_key; lc_api_base := api_base; lc_max_tokens := max_tokens;
             lc_timeout := timeout; lc_retry := retry |}.

(** [d.update(other)]. *)
Definition dict_update (d other : jdict) : jdict := foldl (fun d kv => dict_set kv.1 kv.2 d) d other.

Definition optional_entry {A} (key : pystr) (f : A -> json) (o : option A) : jdict := match o with Some x => [(key, f x)] | None => [] end.

Section Request.
Context `{PyRuntime}.

(** [_build_request]; [kwargs] are the extra keyword arguments of the call. *)
Definition _build_request (c : LiteLLMClient) (messages : list message) (tools : option (list jdict)) (system : option pystr) (kwargs : jdict)
    : result jdict :=
  translated <-! _translate_messages messages system ;;
  Ok (dict_update
    ([(u "model", JStr (lc_model c)); (u "messages", JList (map JObj translated));
      (u "max_tokens", default (JInt (lc_max_tokens c)) (dict_get (u "max_tokens") kwargs))]
     ++ optional_entry (u "tools") JList (_translate_tools tools) ++ optional_entry (u "api_key") (fun v => JStr (reveal v)) (lc_api_key c)
     ++ optional_entry (u "api_base") JStr (lc_api_base c) ++ optional_entry (u "timeout") JFloat (lc_timeout c))
    (dict_pop (u "max_tokens") kwargs)).

(** [request["stream"] = True]. *)
Definition streaming (request : jdict) : jdict := dict_set (u "stream") (JBool true) request.
End Request.

(** ** The synchronous client *)

(** What a stream yields: its chunks, and the error that breaks it off, if any. *)
Record RawStream := { rs_chunks : list Chunk; rs_broken : option LLMError }.

(** [completion] of a request, whole or as a stream; [completion_cost], [None] if it
    raised; the pause before a retry, with its jitter. *)
Class Provider (W : Type) := {
  completion : jdict -> W -> (RawResponse + LLMError) * W;
  completion_stream : jdict -> W -> (RawStream + LLMError) * W;
  completion_cost : RawResponse -> W -> option json;
  back_off : pyfloat -> W -> W;
}.

(** The events of a generator, and how it ended: the [done] event, or an exception. *)
Definition generated : Type := list pystr * result Response.

Section Sync.
Context `{PyRuntime} {W : Type} `{!Provider W}.

Definition llm_chat (c : LiteLLMClient) messages tools system kwargs (w : W) : option (result Response * W) :=
  match _build_request c messages tools system kwargs with
  | Err e => Some (Err e, w)
  | Ok request =>
    match _completion_with_retry (completion request) back_off (lc_retry c) w with
    | None => None
    | Some (inr e, w1) => Some (Err (le_exn e), w1)
    | Some (inl raw, w1) => Some (_attach_cost (completion_cost raw w1) (parse_llm_response raw), w1)
    end
  end.

(** Reading a stream: what it yields before it ends or breaks off. *)
Definition read_stream (s : RawStream) : generated :=
  let '(events, response) := chat_stream (rs_chunks s) in
  (events, match rs_broken s with Some e => Err (le_exn e) | None => Ok response end).

Definition llm_chat_stream (c : LiteLLMClient) messages tools system kwargs (w : W) : option (generated * W) :=
  match _build_request c messages tools system kwargs with
  | Err e => Some (([], Err e), w)
  | Ok request =>
    match _completion_with_retry (completion_stream (streaming request)) back_off (lc_retry c) w with
    | None => None
    | Some (inr e, w1) => Some (([], Err (le_exn e)), w1)
    | Some (inl stream, w1) => Some (read_stream stream, w1)
    end
  end.
End Sync.

(** ** The asynchronous client *)

(** What an await gives: a value, or the cancellation of the task. *)
Inductive awaited (A : Type) := Got (a : A) | Cancelled.
Arguments Got {A} a.
Arguments Cancelled {A}.

(** A stream read by awaits: it may also be cancelled after any chunk. *)
Inductive stream_finish := Exhausted | Broken (e : LLMError) | CancelledThere.

Class AsyncProvider (W : Type) := {
  acompletion : jdict -> W -> awaited (RawResponse + LLMError) * W;
  acompletion_stream : jdict -> W -> awaited ((list Chunk * stream_finish) + LLMError) * W;
  acompletion_cost : RawResponse -> W -> option json;
  (** [asyncio.sleep] of the delay with its jitter *)
  async_back_off : pyfloat -> W -> awaited unit * W;
}.

Section Async.
Context `{PyRuntime} {W : Type} `{!AsyncProvider W}.

Section Retry.
Context {R : Type}.
Variable call : W -> awaited (R + LLMError) * W.
Variable cfg : RetryConfig.

(** [except Exception] does not see a cancellation, which ends the loop. *)
Fixpoint acompletion_loop (fuel : nat) (attempt : Z) (w : W) : option (awaited (R + LLMError) * W) :=
  match fuel with
  | O => None
  | S fuel =>
    match call w with
    | (Cancelled, w1) => Some (Cancelled, w1)
    | (Got (inl r), w1) => Some (Got (inl r), w1)
    | (Got (inr e), w1) =>
      if (max_retries cfg <=? attempt)%Z || negb (_is_retryable e) then Some (Got (inr e), w1)
      else match async_back_off (delay cfg (attempt + 1)) w1 with
           | (Cancelled, w2) => Some (Cancelled, w2)
           | (Got _, w2) => acompletion_loop fuel (attempt + 1) w2
           end
    end
  end.

Definition _acompletion_with_retry (w : W) : option (awaited (R + LLMError) * W) :=
  acompletion_loop (S (Z.to_nat (max_retries cfg))) 0 w.
End Retry.

Definition async_llm_chat (c : LiteLLMClient) messages tools system kwargs (w : W) : option (awaited (result Response) * W) :=
  match _build_request c messages tools system kwargs with
  | Err e => Some (Got (Err e), w)
  | Ok request =>
    match _acompletion_with_retry (acompletion request) (lc_retry c) w with
    | None => None
    | Some (Cancelled, w1) => Some (Cancelled, w1)
    | Some (Got (inr e), w1) => Some (Got (Err (le_exn e)), w1)
    | Some (Got (inl raw), w1) => Some (Got (_attach_cost (acompletion_cost raw w1) (parse_llm_response raw)), w1)
    end
  end.

(** The events a consumer has received, and how the generator ended. *)
Definition async_read_stream (chunks : list Chunk) (how : stream_finish) : list pystr * awaited (result Response) :=
  let '(events, response) := chat_stream chunks in
  (events, match how with Exhausted => Got (Ok response) | Broken e => Got (Err (le_exn e)) | CancelledThere => Cancelled end).

Definition async_llm_chat_stream (c : LiteLLMClient) messages tools system kwargs (w : W)
    : option (list pystr * awaited (result Response) * W) :=
  match _build_request c messages tools system kwargs with
  | Err e => Some ([], Got (Err e), w)
  | Ok request =>
    match _acompletion_with_retry (acompletion_stream (streaming request)) (lc_retry c) w with
    | None => None
    | Some (Cancelled, w1) => Some ([], Cancelled, w1)
    | Some (Got (inr e), w1) => Some ([], Got (Err (le_exn e)), w1)
    | Some (Got (inl (chunks, how)), w1) => Some (async_read_stream chunks how, w1)
    end
  end.
End Async.

(** ** SyncToAsyncLLMClient *)

(** A synchronous client behind the asynchronous interface: its call runs in a thread,
    which a cancellation leaves running, [true] where it strikes. *)
Definition threaded {A W} (cancelled : bool) (call : W -> A * W) (w : W) : awaited A * W :=
  let '(a, w') := call w in (if cancelled then Cancelled else Got a, w').

(** The stream is collected first: an error leaves no event to replay. *)
Definition collected (g : generated) : generated := match g.2 with Ok _ => g | Err e => ([], Err e) end.

(** ** The twins agree *)

Section Equivalence.
Context `{PyRuntime} {W : Type} `{!Provider W} `{!AsyncProvider W}.

(** The two providers answer alike, and no cancellation strikes. *)
Record undisturbed : Prop := {
  un_chat request w : acompletion request w = (Got (completion request w).1, (completion request w).2);
  un_stream request w : acompletion_stream request w =
    (Got match (completion_stream request w).1 with
         | inl s => inl (rs_chunks s, match rs_broken s with Some e => Broken e | None => Exhausted end)
         | inr e => inr e end, (completion_stream request w).2);
  un_cost raw w : acompletion_cost raw w = completion_cost raw w;
  un_back_off d w : async_back_off d w = (Got tt, back_off d w);
}.

Lemma loops_agree {R R'} (f : R -> R') (call : W -> (R + LLMError) * W) (acall : W -> awaited (R' + LLMError) * W) cfg fuel attempt w : undisturbed ->
  (forall w, acall w = (Got match (call w).1 with inl r => inl (f r) | inr e => inr e end, (call w).2)) ->
  acompletion_loop acall cfg fuel attempt w =
  match completion_loop call back_off cfg fuel attempt w with
  | Some (inl r, w') => Some (Got (inl (f r)), w') | Some (inr e, w') => Some (Got (inr e), w') | None => None end.
Proof using Type.
  intros U Hcall. revert attempt w; induction fuel as [|fuel IH]; intros attempt w; [done|]. cbn [acompletion_loop completion_loop].
  rewrite Hcall. destruct (call w) as [[r|e] w1]; [done|]. cbn [fst snd]. destruct (_ || _); [done|]. rewrite (un_back_off U). apply IH.
Qed.
End Equivalence.

(** the asynchronous client is the synchronous one. When their providers answer
    alike and no cancellation strikes, for every request, retry and stream the two
    give the same response or error, the same events, and leave the same world. *)
Theorem async_client_is_client `{PyRuntime} {W} `{!Provider W} `{!AsyncProvider W} c messages tools system kwargs (w : W) : undisturbed ->
  async_llm_chat c messages tools system kwargs w =
    match llm_chat c messages tools system kwargs w with Some (r, w') => Some (Got r, w') | None => None end /\
  async_llm_chat_stream c messages tools system kwargs w =
    match llm_chat_stream c messages tools system kwargs w with Some ((events, r), w') => Some (events, Got r, w') | None => None end.
Proof.
  intros U. unfold async_llm_chat, llm_chat, async_llm_chat_stream, llm_chat_stream, _acompletion_with_retry, _completion_with_retry.
  destruct (_build_request c messages tools system kwargs) as [request|e]; [|done]. split.
  - rewrite (loops_agree id (completion request)) by
      (done || (intros w0; rewrite (un_chat U); by destruct (completion request w0) as [[]])).
    destruct (completion_loop _ _ _ _ _ w) as [[[raw|e] w1]|]; [|done..]. by rewrite (un_cost U).
  - rewrite (loops_agree (fun s => (rs_chunks s, match rs_broken s with Some e => Broken e | None => Exhausted end)) (completion_stream (streaming request))).
    + destruct (completion_loop _ _ _ _ _ w) as [[[s|e] w1]|]; [|done..]. unfold async_read_stream, read_stream.
      destruct (chat_stream (rs_chunks s)) as [events response]. by destruct (rs_broken s).
    + done.
    + intros w0. rewrite (un_stream U). done.
Qed.

(** A call returns within the retries it has, cancelled or not. *)
Lemma async_client_returns `{PyRuntime} {W} `{!AsyncProvider W} c messages tools system kwargs (w : W) : (0 <= max_retries (lc_retry c))%Z ->
  async_llm_chat c messages tools system kwargs w <> None /\ async_llm_chat_stream c messages tools system kwargs w <> None.
Proof.
  intros Hm. assert (forall R (call : W -> awaited (R + LLMError) * W) k attempt w0, (0 <= attempt)%Z ->
    (max_retries (lc_retry c) - attempt <= Z.of_nat k)%Z -> acompletion_loop call (lc_retry c) (S k) attempt w0 <> None) as Hloop.
  { intros R call. induction k as [|k IH]; intros attempt w0 Ha Hk; cbn [acompletion_loop];
      (destruct (call w0) as [[[r|e]|] w1]; [done| |done]); destruct (_ || _) eqn:E; [done| |done|].
    - apply orb_false_iff in E as [E _]. apply Z.leb_gt in E. lia.
    - destruct (async_back_off _ w1) as [[[]|] w2]; [|done]. apply IH; lia. }
  unfold async_llm_chat, async_llm_chat_stream, _acompletion_with_retry.
  destruct (_build_request c messages tools system kwargs) as [request|e]; [|done]. split.
  - specialize (Hloop _ (acompletion request) (Z.to_nat (max_retries (lc_retry c))) 0%Z w).
    destruct (acompletion_loop _ _ _ _ w) as [[[[raw|e]|] w1]|]; [done..|]. exfalso. apply Hloop; [lia|lia|done].
  - specialize (Hloop _ (acompletion_stream (streaming request)) (Z.to_nat (max_retries (lc_retry c))) 0%Z w).
    destruct (acompletion_loop _ _ _ _ w) as [[[[[chunks how]|e]|] w1]|]; [done..|]. exfalso. apply Hloop; [lia|lia|done].
Qed.

(** The usage of a stream that a provider reports in a last chunk of its own is
    dropped, since that chunk has no choice. *)
Lemma usage_chunk_is_dropped `{PyRuntime} s usage : add_chunk s {| k_choice := None; k_usage := Some usage |} = (None, s).
Proof. done. Qed.

(** ** A provider that fails once *)

Module FlakyProvider.
#[export] Instance runtime : PyRuntime := decoding_runtime [].

Definition busy : LLMError := {| le_exn := PyExn (u "RateLimitError") (u "busy"); status_code := Some 429%Z |}.
Definition hello : RawResponse := {| rr_choice := Some (Some {| rm_content := JStr (u "hello"); rm_calls := [] |}, JStr (u "stop")); rr_usage := None |}.
Definition pieces : RawStream := {| rs_chunks := [{| k_choice := Some (u "hel", [], JNull); k_usage := None |};
  {| k_choice := Some (u "lo", [], JNull); k_usage := None |}]; rs_broken := Some busy |}.

(** The world counts the calls and the pauses. *)
#[export] Instance provider : Provider nat := {|
  completion _ n := (if (n =? 0)%nat then inr busy else inl hello, S n);
  completion_stream _ n := (if (n =? 0)%nat then inr busy else inl pieces, S n);
  completion_cost _ _ := Some (JFloat (fl_of_Z 2));
  back_off _ n := S n |}.
#[export] Instance twin : AsyncProvider nat := {|
  acompletion request n := (Got (completion request n).1, (completion request n).2);
  acompletion_stream request n := (Got match (completion_stream request n).1 with
    | inl s => inl (rs_chunks s, match rs_broken s with Some e => Broken e | None => Exhausted end) | inr e => inr e end, (completion_stream request n).2);
  acompletion_cost := completion_cost;
  async_back_off d n := (Got tt, back_off d n) |}.

Definition client : LiteLLMClient := {|
  lc_model := u "m"; lc_api_key := Some {| reveal := u "sk" |}; lc_api_base := None; lc_max_tokens := 4096; lc_timeout := None;
  lc_retry := {| max_retries := 2; retry_base_delay := fl_of_Z 1; retry_max_delay := fl_of_Z 8 |} |}.

Definition ask : list message := [user_message (u "hi")].

Lemma async_client_is_client_witness :
  async_llm_chat client ask None None [] 0%nat =
    Some (Got (Ok {| resp_content := u "hello"; resp_calls := []; resp_stop := JStr (u "end_turn"); resp_usage := [(u "cost_usd", JFloat (fl_of_Z 2))] |}), 3%nat) /\
  async_llm_chat_stream client ask None None [] 0%nat = Some ([u "hel"; u "lo"], Got (Err (le_exn busy)), 3%nat).
Proof.
  destruct (async_client_is_client client ask None None [] 0%nat) as [-> ->].
  - constructor; intros; reflexivity.
  - split; vm_compute; reflexivity.
Defined.

(** Through a thread the texts before the error are lost. *)
Example thread_loses_texts : collected (read_stream pieces) = ([], Err (le_exn busy)) /\ (read_stream pieces).1 = [u "hel"; u "lo"].
Proof. vm_compute. done. Qed.

(** A keyword argument replaces what the client was configured with. *)
Example keywords_win : rmap (dict_get (u "model")) (_build_request client ask None None [(u "model", JStr (u "other")); (u "max_tokens", JInt 5)])
  = Ok (Some (JStr (u "other"))).
Proof. vm_compute. reflexivity. Qed.
End FlakyProvider.
