(* ===== verification/PluginScan.v ===== *)
(** * The plugin scanner (kinetic_sdk/plugin/scanner.py)

    Syntax trees of Python, the visitor that walks one and records findings, and
    the scan of a plugin's files. Parsing a text, and finding a module and the
    files of a directory, are interfaces. The visitor is compared with a
    definition of what a suspicious node is. *)

From stdpp Require Import base strings list sets.
From Stdlib Require Import ZArith Lia SpecFloat.
From S2P Require Import Prelude Json PyText Policy Types Skills Plugins SkillVet.

(** ** Syntax trees *)

Inductive constant := StrConstant (s : pystr) | OtherConstant.

(** The classes of [ast] that the visitor looks at, with their fields in the order
    of [_fields]; any other node is its children. Nodes without children for which
    the visitor has no method (contexts, operators, the aliases of an import) are
    left out of the lists of children. A keyword argument is the node [Keyword]; the
    level of a [from] import counts its leading dots. *)
Inductive node :=
| Name (id : pystr) (line : Z)
| Attribute (value : node) (attr : pystr) (line : Z)
| Constant (value : constant) (line : Z)
| Subscript (value slice : node) (line : Z)
| Starred (value : node) (line : Z)
| Tuple (elts : list node) (line : Z)
| ListNode (elts : list node) (line : Z)
| Keyword (value : node) (line : Z)
| Call (func : node) (args keywords : list node) (line : Z)
| Import (names : list (pystr * option pystr)) (line : Z)
| ImportFrom (module : option pystr) (names : list (pystr * option pystr)) (level line : Z)
| Assign (targets : list node) (value : node) (line : Z)
| AnnAssign (target annotation : node) (value : option node) (line : Z)
| AugAssign (target value : node) (line : Z)
| Delete (targets : list node) (line : Z)
| Other (children : list node) (line : Z).

(** [node.lineno]. *)
Definition lineno (n : node) : Z :=
  match n with
  | Name _ l | Attribute _ _ l | Constant _ l | Subscript _ _ l | Starred _ l | Tuple _ l | ListNode _ l | Keyword _ l | Call _ _ _ l
  | Import _ l | ImportFrom _ _ _ l | Assign _ _ l | AnnAssign _ _ _ l | AugAssign _ _ l | Delete _ l | Other _ l => l
  end.

(** [ast.iter_child_nodes]. *)
Definition children (n : node) : list node :=
  match n with
  | Name _ _ | Constant _ _ | Import _ _ | ImportFrom _ _ _ _ => []
  | Attribute v _ _ | Starred v _ | Keyword v _ => [v]
  | Subscript v s _ => [v; s]
  | Tuple l _ | ListNode l _ | Delete l _ | Other l _ => l
  | Call f args keywords _ => f :: args ++ keywords
  | Assign targets v _ => targets ++ [v]
  | AnnAssign t a v _ => t :: a :: match v with Some v => [v] | None => [] end
  | AugAssign t v _ => [t; v]
  end.

(** ** _PluginVisitor *)

Definition NETWORK_MODULES : list pystr := map u ["socket"; "urllib"; "http"; "requests"; "httpx"; "aiohttp"].
Definition _DYNAMIC_BUILTINS : list pystr := map u ["eval"; "exec"; "compile"].
Definition _SUBPROCESS_CALLS : list pystr := map u ["Popen"; "run"; "call"; "check_call"; "check_output"].
Definition _OS_SHELL_CALLS : list pystr := map u ["os.system"; "os.popen"].
Definition _SECURITY_NAMESPACE : pystr := u "kinetic_sdk.security".

Definition aliases : Type := list (pystr * pystr).

Record PluginVisitor := { pv_flags : list VetFlag; pv_location : pystr; pv_aliases : aliases }.

Definition with_alias (name path : pystr) (v : PluginVisitor) : PluginVisitor :=
  {| pv_flags := pv_flags v; pv_location := pv_location v; pv_aliases := dict_set name path (pv_aliases v) |}.

Definition _add (severity : Severity) (category message : pystr) (n : node) (v : PluginVisitor) : PluginVisitor := {|
  pv_flags := pv_flags v ++ [{| vf_severity := severity; vf_category := category; vf_message := message;
                                vf_location := pv_location v ++ u ":" ++ dec (lineno n) |}];
  pv_location := pv_location v; pv_aliases := pv_aliases v |}.

(** The loop of [_resolve]: the attributes passed on the way, and the name reached. *)
Fixpoint attribute_chain (n : node) (parts : list pystr) : option (list pystr) :=
  match n with
  | Attribute value attr _ => attribute_chain value (attr :: parts)
  | Name id _ => Some (id :: parts)
  | _ => None
  end.

Definition _resolve (env : aliases) (n : node) : option pystr :=
  match attribute_chain n [] with
  | Some (first :: rest) => Some (join (u ".") (default first (dict_get first env) :: rest))
  | _ => None
  end.

Definition in_security_namespace (path : pystr) : bool :=
  bool_decide (path = _SECURITY_NAMESPACE) || starts_with (_SECURITY_NAMESPACE ++ u ".") path.

Definition _is_security_namespace_write (env : aliases) (target : node) : bool :=
  match _resolve env target with Some path => in_security_namespace path | None => false end.

(** The part of a dotted path before its first dot. *)
Definition root_module (path : pystr) : pystr := default [] (head (split_on 46 path)).

Section Visitor.
Context `{PyRuntime}.

(** One alias of an [import]. *)
Definition import_alias (n : node) (v : PluginVisitor) (alias : pystr * option pystr) : PluginVisitor :=
  let '(name, asname) := alias in
  let root := root_module name in
  let v := if elem_b root NETWORK_MODULES
           then _add Warning (u "direct_network") (u "imports " ++ py_repr (JStr name) ++ u " " ++ [8212%N] ++
                  u " direct network access outside the managed mcp/ channel") n v
           else v in
  match asname with
  | Some ((_ :: _) as local) => with_alias local name v
  | _ => with_alias root root v
  end.

Definition visit_Import (names : list (pystr * option pystr)) (n : node) (v : PluginVisitor) : PluginVisitor := foldl (import_alias n) v names.

(** [alias.asname or alias.name]. *)
Definition local_name (alias : pystr * option pystr) : pystr := match alias.2 with Some ((_ :: _) as local) => local | _ => alias.1 end.

Definition visit_ImportFrom (module : option pystr) (names : list (pystr * option pystr)) (n : node) (v : PluginVisitor) : PluginVisitor :=
  let module := default [] module in
  let v := if elem_b (root_module module) NETWORK_MODULES
           then _add Warning (u "direct_network") (u "imports from " ++ py_repr (JStr module) ++ u " " ++ [8212%N] ++
                  u " direct network access outside the managed mcp/ channel") n v
           else v in
  if bool_decide (module = []) then v
  else foldl (fun v alias => with_alias (local_name alias) (module ++ u "." ++ alias.1) v) v names.

Definition visit_Attribute (n : node) (v : PluginVisitor) : PluginVisitor :=
  if bool_decide (_resolve (pv_aliases v) n = Some (u "os.environ"))
  then _add Critical (u "env_access") (u "accesses os.environ directly " ++ [8212%N] ++
         u " secrets must go through SecretRegistry like every other SDK module") n v
  else v.

Definition visit_Name (id : pystr) (n : node) (v : PluginVisitor) : PluginVisitor :=
  if bool_decide (dict_get id (pv_aliases v) = Some (u "os.environ"))
  then _add Critical (u "env_access") (u "uses os.environ (via from-import) " ++ [8212%N] ++
         u " secrets must go through SecretRegistry like every other SDK module") n v
  else v.

Fixpoint _outermost_attributes (n : node) : list node :=
  match n with
  | Attribute _ _ _ => [n]
  | Subscript value _ _ | Starred value _ => _outermost_attributes value
  | Tuple elts _ | ListNode elts _ => (fix each l := match l with [] => [] | x :: l' => _outermost_attributes x ++ each l' end) elts
  | _ => []
  end.

Definition tampering (verb : pystr) (n : node) (v : PluginVisitor) : PluginVisitor :=
  _add Critical (u "security_tamper") (verb ++ u " the kinetic_sdk.security namespace " ++ [8212%N] ++
    u " writing to the SDK's security module can disable permission checks for every later request") n v.

Definition _check_write_targets (targets : list node) (n : node) (verb : pystr) (v : PluginVisitor) : PluginVisitor :=
  foldl (fun v attribute => if _is_security_namespace_write (pv_aliases v) attribute then tampering verb n v else v) v
    (concat (map _outermost_attributes targets)).

Definition is_constant (n : node) : bool := match n with Constant _ _ => true | _ => false end.
Definition is_str_constant (n : node) : bool := match n with Constant (StrConstant _) _ => true | _ => false end.

(** [kw.value] of a keyword. *)
Definition keyword_value (n : node) : node := match n with Keyword value _ => value | _ => n end.

Definition visit_Call (func : node) (args keywords : list node) (n : node) (v : PluginVisitor) : PluginVisitor :=
  match _resolve (pv_aliases v) func with
  | None => v
  | Some resolved =>
    if elem_b resolved _DYNAMIC_BUILTINS then
      let inputs := args ++ map keyword_value keywords in
      if existsb (fun value => negb (is_constant value)) inputs || bool_decide (inputs = [])
      then _add Critical (u "code_execution") (u "calls " ++ resolved ++ u "() with non-literal input " ++ [8212%N] ++
             u " dynamic code execution evades static review") n v
      else v
    else if bool_decide (resolved = u "__import__") || bool_decide (resolved = u "importlib.import_module") then
      if match args with [] => true | first :: _ => negb (is_str_constant first) end
      then _add Critical (u "dynamic_import") (u "calls " ++ resolved ++ u "() with a non-constant module name " ++ [8212%N] ++
             u " dynamic imports evade static analysis") n v
      else v
    else if elem_b resolved _OS_SHELL_CALLS then
      _add Critical (u "process_spawn") (u "calls " ++ resolved ++ u "() directly " ++ [8212%N] ++
        u " subprocesses must go through a controlled SDK wrapper (e.g. GitTool), not raw shell calls") n v
    else if starts_with (u "subprocess.") resolved then
      if elem_b (default [] (last (split_on 46 resolved))) _SUBPROCESS_CALLS
      then _add Critical (u "process_spawn") (u "calls " ++ resolved ++ u "() directly " ++ [8212%N] ++
             u " subprocesses must go through a controlled SDK wrapper (e.g. GitTool), not raw subprocess") n v
      else v
    else if bool_decide (resolved = u "setattr") then
      if match args with first :: _ => _is_security_namespace_write (pv_aliases v) first | [] => false end
      then _add Critical (u "security_tamper") (u "setattr() targeting the kinetic_sdk.security namespace " ++ [8212%N] ++
             u " monkey-patching the SDK's security module can disable permission checks for every later request") n v
      else v
    else if bool_decide (resolved = u "getattr") then
      match args with
      | first :: Constant (StrConstant attr) _ :: _ =>
        if bool_decide (attr = u "environ") && bool_decide (_resolve (pv_aliases v) first = Some (u "os"))
        then _add Critical (u "env_access") (u "getattr(os, 'environ') " ++ [8212%N] ++
               u " secrets must go through SecretRegistry like every other SDK module") n v
        else v
      | _ => v
      end
    else if bool_decide (resolved = u "open") then
      match args with
      | first :: _ =>
        if negb (is_str_constant first)
        then _add Warning (u "dynamic_file_access") (u "open() with a non-literal path " ++ [8212%N] ++
               u " may read/write outside the workspace") n v
        else v
      | [] => v
      end
    else v
  end.

(** The method of a node's class, before it goes on to the children. *)
Definition visit_node (n : node) (v : PluginVisitor) : PluginVisitor :=
  match n with
  | Import names _ => visit_Import names n v
  | ImportFrom module names _ _ => visit_ImportFrom module names n v
  | Attribute _ _ _ => visit_Attribute n v
  | Name id _ => visit_Name id n v
  | Assign targets _ _ => _check_write_targets targets n (u "assigns into") v
  | AnnAssign target _ _ _ | AugAssign target _ _ => _check_write_targets [target] n (u "assigns into") v
  | Delete targets _ => _check_write_targets targets n (u "deletes") v
  | Call func args keywords _ => visit_Call func args keywords n v
  | _ => v
  end.

(** [visit], with [generic_visit]: the children of a node in the order of [children]. *)
Fixpoint visit (n : node) (v : PluginVisitor) : PluginVisitor :=
  let fix visit_all l v := match l with [] => v | x :: l' => visit_all l' (visit x v) end in
  let v := visit_node n v in
  match n with
  | Name _ _ | Constant _ _ | Import _ _ | ImportFrom _ _ _ _ => v
  | Attribute x _ _ | Starred x _ | Keyword x _ => visit x v
  | Subscript x s _ => visit s (visit x v)
  | Tuple l _ | ListNode l _ | Delete l _ | Other l _ => visit_all l v
  | Call f args keywords _ => visit_all keywords (visit_all args (visit f v))
  | Assign targets x _ => visit x (visit_all targets v)
  | AnnAssign t a x _ => let v := visit a (visit t v) in match x with Some x => visit x v | None => v end
  | AugAssign t x _ => visit x (visit t v)
  end.
End Visitor.

(** ** StaticPluginScanner *)

(** What [ast.parse] gives: a tree, a [SyntaxError] with its message and line, or another exception. *)
Inductive parsed := ParsedTree (tree : node) | BadSyntax (msg : pystr) (line : option Z) | ParseRaised (e : pyexn).

(** [find_spec] is [PathFinder.find_spec]: the module's file and where its submodules
    are searched; [rglob_py] is [sorted(root.rglob("*.py"))]; [is_os_error] is
    [isinstance(exc, OSError)]. *)
Record ModuleSpec := { origin : option pystr; submodule_search_locations : option (list pystr) }.

Class PluginSources (W : Type) := {
  parse : pystr -> parsed;
  find_spec : pystr -> option (list pystr) -> W -> option ModuleSpec;
  rglob_py : pystr -> W -> list pystr;
  is_os_error : pyexn -> bool;
}.

(** [ScanResult] *)
Record ScanResult := { clean : bool; flags : list VetFlag; files_scanned : list pystr }.

Section Scanner.
Context `{PyRuntime} {W : Type} `{!SkillFiles W} `{!PluginSources W}.
Implicit Types w : W.

Definition new_visitor (location : pystr) : PluginVisitor := {| pv_flags := []; pv_location := location; pv_aliases := [] |}.

Definition scan_source (source location : pystr) : result (list VetFlag) :=
  match parse source with
  | ParsedTree tree => Ok (pv_flags (visit tree (new_visitor location)))
  | BadSyntax msg line =>
    Ok [{| vf_severity := Critical; vf_category := u "unparseable"; vf_message := u "source cannot be parsed as Python (" ++ msg ++ u ")";
           vf_location := location ++ u ":" ++ dec (default 0%Z line) |}]
  | ParseRaised e => Err e
  end.

(** The levels after the first: [walked] is the package found in [spec]. *)
Fixpoint find_levels (walked : pystr) (spec : option ModuleSpec) (parts : list pystr) w : option ModuleSpec :=
  match parts with
  | [] => spec
  | part :: rest =>
    match spec with
    | Some {| submodule_search_locations := Some paths |} =>
      let walked := walked ++ u "." ++ part in find_levels walked (find_spec walked (Some paths) w) rest w
    | _ => None
    end
  end.

Definition _find_spec_no_import (dotted : pystr) w : option ModuleSpec :=
  match split_on 46 dotted with
  | first :: rest => find_levels first (find_spec first None w) rest w
  | [] => None
  end.

(** [Path(p).parent] of a path with a directory. *)
Definition source_parent (p : pystr) : pystr := match join (u "/") (removelast (split_on 47 p)) with [] => u "/" | q => q end.

Definition plugin_failed (m : PluginManifest) (why : pystr) : pyexn := load_error (u "plugin " ++ py_repr (JStr (pm_name m)) ++ u ": " ++ why).

(** [Path(manifest.directory or "")]. *)
Definition plugin_root (m : PluginManifest) : pystr := match pm_directory m with Some ((_ :: _) as d) => d | _ => u "." end.

Definition _locate_source_files (m : PluginManifest) w : result (list pystr) :=
  if bool_decide (pm_source m = u "directory") then
    match rglob_py (plugin_root m) w with
    | [] => Err (plugin_failed m (u "no Python files found under " ++ plugin_root m))
    | files => Ok files
    end
  else
    let missing := Err (plugin_failed m (u "cannot locate module " ++ py_repr (JStr (module_spec m)) ++ u " on sys.path without importing it")) in
    match _find_spec_no_import (module_spec m) w with
    | Some {| origin := Some file |} =>
      if negb (is_file file w) then missing
      else if bool_decide (basename file = u "__init__.py") then Ok (rglob_py (source_parent file) w)
      else Ok [file]
    | _ => missing
    end.

Definition scan_file (m : PluginManifest) (path : pystr) w : result (list VetFlag) :=
  match read_text path w with
  | Ok source => scan_source source path
  | Err e => Err (if is_os_error e then plugin_failed m (u "cannot read source file " ++ path ++ u ": " ++ exn_msg e) else e)
  end.

Definition scan_plugin (m : PluginManifest) w : result ScanResult :=
  files <-! _locate_source_files m w ;;
  found <-! rcollect (fun path => scan_file m path w) files ;;
  let flags := concat found in
  Ok {| clean := no_critical flags; flags := flags; files_scanned := files |}.
End Scanner.

(** ** What is suspicious *)

(** Every node of a tree, a node before its children, in the order of the visit. *)
Fixpoint preorder (n : node) : list node :=
  let fix all l := match l with [] => [] | x :: l' => preorder x ++ all l' end in
  n :: match n with
       | Name _ _ | Constant _ _ | Import _ _ | ImportFrom _ _ _ _ => []
       | Attribute x _ _ | Starred x _ | Keyword x _ => preorder x
       | Subscript x s _ => preorder x ++ preorder s
       | Tuple l _ | ListNode l _ | Delete l _ | Other l _ => all l
       | Call f args keywords _ => preorder f ++ all args ++ all keywords
       | Assign targets x _ => all targets ++ preorder x
       | AnnAssign t a x _ => preorder t ++ preorder a ++ match x with Some x => preorder x | None => [] end
       | AugAssign t x _ => preorder t ++ preorder x
       end.

(** What a node binds: the local name and the dotted path it stands for. *)
Definition bindings (n : node) : list (pystr * pystr) :=
  match n with
  | Import names _ => map (fun a => match a.2 with Some ((_ :: _) as local) => (local, a.1) | _ => (root_module a.1, root_module a.1) end) names
  | ImportFrom (Some ((_ :: _) as module)) names _ _ =>
    map (fun a => (local_name a, module ++ u "." ++ a.1)) names
  | _ => []
  end.

(** The names bound by the imports among some nodes; the last binding of a name counts. *)
Definition bind_all (env : aliases) (bound : list (pystr * pystr)) : aliases := foldl (fun env b => dict_set b.1 b.2 env) env bound.
Definition imported (before : list node) : aliases := bind_all [] (concat (map bindings before)).

(** A chain of attributes and the canonical path it denotes. *)
Inductive denotes (env : aliases) : node -> pystr -> Prop :=
| denotes_name id line : denotes env (Name id line) (default id (dict_get id env))
| denotes_attribute value attr line path : denotes env value path -> denotes env (Attribute value attr line) (path ++ u "." ++ attr).

(** The attributes a write target writes to. *)
Inductive writes_to : node -> node -> Prop :=
| writes_attribute value attr line : writes_to (Attribute value attr line) (Attribute value attr line)
| writes_subscript value slice line a : writes_to value a -> writes_to (Subscript value slice line) a
| writes_starred value line a : writes_to value a -> writes_to (Starred value line) a
| writes_tuple elts line x a : x ∈ elts -> writes_to x a -> writes_to (Tuple elts line) a
| writes_list elts line x a : x ∈ elts -> writes_to x a -> writes_to (ListNode elts line) a.

(** The targets of a statement that writes. *)
Definition write_targets (n : node) : list node :=
  match n with
  | Assign targets _ _ | Delete targets _ => targets
  | AnnAssign target _ _ _ | AugAssign target _ _ => [target]
  | _ => []
  end.

Definition in_security (path : pystr) : Prop := path = _SECURITY_NAMESPACE \/ exists rest, path = _SECURITY_NAMESPACE ++ u "." ++ rest.

(** A node that blocks a plugin, given what the imports before it bound. *)
Inductive dangerous (env : aliases) : node -> Prop :=
| reads_environ n : (match n with Attribute _ _ _ => True | _ => False end) -> denotes env n (u "os.environ") -> dangerous env n
| uses_environ id line : dict_get id env = Some (u "os.environ") -> dangerous env (Name id line)
| writes_security n target a path : target ∈ write_targets n -> writes_to target a -> denotes env a path -> in_security path -> dangerous env n
| executes_data f args keywords line path : denotes env f path -> path ∈ _DYNAMIC_BUILTINS ->
    args ++ map keyword_value keywords = [] \/ (exists x, x ∈ args ++ map keyword_value keywords /\ is_constant x = false) ->
    dangerous env (Call f args keywords line)
| imports_data f args keywords line path : denotes env f path -> path = u "__import__" \/ path = u "importlib.import_module" ->
    (forall s l rest, args <> Constant (StrConstant s) l :: rest) -> dangerous env (Call f args keywords line)
| runs_shell f args keywords line path : denotes env f path -> path ∈ _OS_SHELL_CALLS -> dangerous env (Call f args keywords line)
| runs_subprocess f args keywords line module name : denotes env f (module ++ u "." ++ name) ->
    module = u "subprocess" \/ (exists rest, module = u "subprocess." ++ rest) -> name ∈ _SUBPROCESS_CALLS ->
    dangerous env (Call f args keywords line)
| sets_security f target args keywords line path : denotes env f (u "setattr") -> denotes env target path -> in_security path ->
    dangerous env (Call f (target :: args) keywords line)
| gets_environ f module l args keywords line : denotes env f (u "getattr") -> denotes env module (u "os") ->
    dangerous env (Call f (module :: Constant (StrConstant (u "environ")) l :: args) keywords line).

(** ** The visit is a walk through the nodes *)

Lemma node_ind' (P : node -> Prop) : (forall n, Forall P (children n) -> P n) -> forall n, P n.
Proof.
  intros step. fix IH 1. assert (forall l, Forall P l -> forall x, P x -> Forall P (l ++ [x])) as Hsnoc.
  { intros l Hl x Hx. apply Forall_app. by repeat constructor. }
  intros n. apply step. destruct n as [| | | | |l ?|l ?| |f l k ?| | |l ? ?|? ? [?|] ?| |l ?|l ?]; simpl; try (repeat constructor; apply IH).
  1,2,5,6: induction l; constructor; [apply IH|assumption].
  - constructor; [apply IH|]. apply Forall_app. split; [induction l|induction k]; constructor; (apply IH || assumption).
  - apply Hsnoc; [induction l; constructor; [apply IH|assumption]|apply IH].
Qed.

Lemma preorder_children n : preorder n = n :: concat (map preorder (children n)).
Proof.
  assert (forall l, (fix all l := match l with [] => [] | x :: l' => preorder x ++ all l' end) l = concat (map preorder l)) as Hall.
  { induction l as [|x l IH]; simpl; [done|by rewrite IH]. }
  destruct n as [| | | | | | | | | | | |? ? [?|] ?| | |]; simpl; rewrite ?Hall, ?app_nil_r; try done; rewrite ?map_app, ?concat_app; simpl;
    by rewrite ?app_nil_r.
Qed.

Section Walk.
Context `{PyRuntime}.

Lemma visit_children n v : visit n v = foldl (fun v x => visit x v) (visit_node n v) (children n).
Proof using Type.
  assert (forall l v, (fix visit_all l v := match l with [] => v | x :: l' => visit_all l' (visit x v) end) l v = foldl (fun v x => visit x v) v l) as Hall.
  { induction l as [|x l IH]; intros v'; simpl; [done|by rewrite IH]. }
  destruct n as [| | | | | | | | | | | |? ? [?|] ?| | |]; simpl; rewrite ?Hall, ?foldl_app; done.
Qed.

(** The flags and aliases are those of one walk over the nodes in order. *)
Lemma visit_preorder n v : visit n v = foldl (fun v x => visit_node x v) v (preorder n).
Proof using Type.
  revert v. induction n as [n IH] using node_ind'. intros v. rewrite visit_children, preorder_children. simpl.
  generalize (visit_node n v) as v'. induction IH as [|x l Hx _ IHl]; intros v'; simpl; [done|]. by rewrite foldl_app, <- Hx, IHl.
Qed.

(** ** Paths and targets *)

Lemma attribute_chain_app n parts : attribute_chain n parts = match attribute_chain n [] with Some l => Some (l ++ parts) | None => None end.
Proof using Type.
  revert parts. induction n; intros parts; simpl; try done. rewrite (IHn (attr :: parts)), (IHn [attr]).
  destruct (attribute_chain n []); [|done]. by rewrite <- app_assoc.
Qed.

Lemma join_snoc sep l (y : pystr) : l <> [] -> join sep (l ++ [y]) = join sep l ++ sep ++ y.
Proof using Type.
  induction l as [|x [|z l] IH]; intros Hl; [done|done|]. cbn [app]. rewrite !join_cons2, <- !app_assoc. do 2 f_equal. by apply IH.
Qed.

Lemma attribute_chain_cons n l : attribute_chain n [] = Some l -> l <> [].
Proof using Type.
  destruct n; simpl; try done; [by intros [= <-]|]. rewrite attribute_chain_app. destruct (attribute_chain n []); [|done].
  intros [= <-]. by destruct l0.
Qed.

Lemma resolve_attribute env value attr line :
  _resolve env (Attribute value attr line) = match _resolve env value with Some path => Some (path ++ u "." ++ attr) | None => None end.
Proof using Type.
  unfold _resolve. cbn [attribute_chain]. rewrite attribute_chain_app. destruct (attribute_chain value []) as [[|first rest]|] eqn:E; [|cbn [app]|done].
  - by apply attribute_chain_cons in E.
  - by rewrite <- join_snoc.
Qed.

Lemma resolve_denotes env n path : _resolve env n = Some path <-> denotes env n path.
Proof using Type.
  split.
  - revert path. induction n; intros path; try done.
    + intros [= <-]. apply denotes_name.
    + rewrite resolve_attribute. destruct (_resolve env n) as [p|]; [|done]. intros [= <-]. apply denotes_attribute. by apply IHn.
  - induction 1 as [id line|value attr line p Hd IH]; [done|]. by rewrite resolve_attribute, IH.
Qed.

Lemma denotes_unique env n p q : denotes env n p -> denotes env n q -> p = q.
Proof using Type. rewrite <- !resolve_denotes. congruence. Qed.

Lemma outermost_writes n a : a ∈ _outermost_attributes n <-> writes_to n a.
Proof using Type.
  assert (forall l, (fix each l := match l with [] => [] | x :: l' => _outermost_attributes x ++ each l' end) l = concat (map _outermost_attributes l)) as Hall.
  { induction l as [|x l IH]; simpl; [done|by rewrite IH]. }
  assert (forall l, Forall (fun x => a ∈ _outermost_attributes x <-> writes_to x a) l ->
    a ∈ concat (map _outermost_attributes l) <-> exists x, x ∈ l /\ writes_to x a) as Hl.
  { intros l IH. rewrite list_elem_of_In, in_concat. setoid_rewrite in_map_iff. rewrite Forall_forall in IH. split.
    - intros (? & (x & <- & Hx) & Ha). apply list_elem_of_In in Hx, Ha. exists x. by rewrite <- IH.
    - intros (x & Hx & Hw). exists (_outermost_attributes x). rewrite <- !list_elem_of_In, IH by done. split; [|done]. exists x. by rewrite <- list_elem_of_In. }
  induction n as [n IH] using node_ind'. destruct n; simpl in *; try (split; [by intros ?%not_elem_of_nil|by intros Hw; inversion Hw]).
  - rewrite list_elem_of_singleton. split; [intros ->; constructor|]. by inversion 1.
  - inversion IH as [|? ? IH1 _]; subst. rewrite IH1. split; [by constructor|by inversion 1].
  - inversion IH as [|? ? IH1 _]; subst. rewrite IH1. split; [by constructor|by inversion 1].
  - rewrite Hall, Hl by done. split; [intros (x & ? & ?); by econstructor|]. inversion 1; eauto.
  - rewrite Hall, Hl by done. split; [intros (x & ? & ?); by econstructor|]. inversion 1; eauto.
Qed.

Lemma security_namespace path : in_security_namespace path = true <-> in_security path.
Proof using Type.
  unfold in_security_namespace, in_security. rewrite orb_true_iff, bool_decide_eq_true, starts_with_prefix. unfold prefix.
  split; (intros [?|[k Hk]]; [by left|right; exists k]); [by rewrite app_assoc|by rewrite <- app_assoc].
Qed.

Lemma security_write env target : _is_security_namespace_write env target = true <-> exists path, denotes env target path /\ in_security path.
Proof using Type.
  unfold _is_security_namespace_write. setoid_rewrite <- resolve_denotes. setoid_rewrite <- security_namespace.
  destruct (_resolve env target) as [p|]; split; [eauto|intros (? & [= ->] & ?); done|done|by intros (? & ? & _)].
Qed.
End Walk.

(** No node is dangerous with what the imports before it bound. *)
Definition harmless (tree : node) : Prop := forall before n after, preorder tree = before ++ n :: after -> ~ dangerous (imported before) n.

(** ** What one node reports *)

Section Reports.
Context `{PyRuntime}.

(** The visitor moved on without binding a name; what it added is critical exactly if [bad]. *)
Definition reports (v v' : PluginVisitor) (bad : Prop) : Prop :=
  pv_aliases v' = pv_aliases v /\ exists found, pv_flags v' = pv_flags v ++ found /\ (no_critical found = false <-> bad).

Lemma reports_nothing v (bad : Prop) : ~ bad -> reports v v bad.
Proof using Type. intros Hb. split; [done|]. exists []. rewrite app_nil_r. done. Qed.

Lemma reports_critical category message n v (bad : Prop) : bad -> reports v (_add Critical category message n v) bad.
Proof using Type. intros Hb. split; [done|]. by eexists. Qed.

Lemma reports_warning category message n v (bad : Prop) : ~ bad -> reports v (_add Warning category message n v) bad.
Proof using Type. intros Hb. split; [done|]. by eexists. Qed.

Lemma reports_if (b : bool) category message n v (bad : Prop) : (b = true <-> bad) ->
  reports v (if b then _add Critical category message n v else v) bad.
Proof using Type.
  intros Hb. destruct b; [apply reports_critical; by apply Hb|apply reports_nothing]. intros Hbad. by apply Hb in Hbad.
Qed.

Lemma reports_each {A} (f : PluginVisitor -> A -> PluginVisitor) (bad : aliases -> A -> Prop) l v :
  (forall v x, reports v (f v x) (bad (pv_aliases v) x)) -> reports v (foldl f v l) (Exists (bad (pv_aliases v)) l).
Proof using Type.
  intros Hf. revert v; induction l as [|x l IH]; intros v; cbn [foldl]; [apply reports_nothing; intros Hn; inversion Hn|].
  destruct (Hf v x) as (Ha & found & Hfound & Hbad), (IH (f v x)) as (Ha' & found' & Hfound' & Hbad'). rewrite Ha in *.
  split; [done|]. exists (found ++ found'). split; [by rewrite Hfound', Hfound, <- app_assoc|].
  rewrite no_critical_app, andb_false_iff, Exists_cons. by rewrite Hbad, Hbad'.
Qed.

Lemma writes_reported targets n verb v :
  reports v (_check_write_targets targets n verb v)
    (exists target a path, target ∈ targets /\ writes_to target a /\ denotes (pv_aliases v) a path /\ in_security path).
Proof using Type.
  destruct (reports_each (fun v attribute => if _is_security_namespace_write (pv_aliases v) attribute then tampering verb n v else v)
    (fun env a => exists path, denotes env a path /\ in_security path) (concat (map _outermost_attributes targets)) v) as (Ha & found & Hf & Hbad).
  { intros v' x. unfold tampering. apply reports_if, security_write. }
  split; [done|]. exists found. split; [done|]. rewrite Hbad, Exists_exists. setoid_rewrite list_elem_of_In. setoid_rewrite in_concat.
  setoid_rewrite in_map_iff. split.
  - intros (a & (? & (t & <- & Ht) & Hin) & path & Hd & Hs). exists t, a, path. rewrite <- outermost_writes, list_elem_of_In. done.
  - intros (t & a & path & Ht & Hw & Hd & Hs). exists a. split; [|eauto]. exists (_outermost_attributes t).
    rewrite <- list_elem_of_In, outermost_writes. eauto.
Qed.

(** ** Calls *)

Lemma last_component c s name : default [] (last (split_on c s)) = name <-> c ∉ name /\ (s = name \/ exists p, s = p ++ c :: name).
Proof using Type.
  split.
  - assert (exists w, last (split_on c s) = Some w) as [w Hw].
    { pose proof (split_on_ne c s). destruct (last (split_on c s)) eqn:E; [eauto|]. by apply last_None in E. }
    rewrite Hw. simpl. intros ->. split; [apply (split_on_elem c s), last_Some_elem_of, Hw|].
    revert name Hw. induction s as [|x s IH]; intros name Hw; simpl in Hw; [injection Hw as <-; by left|].
    destruct (split_on c s) as [|w ws] eqn:E; [by apply split_on_ne in E|]. destruct ws as [|w2 ws].
    + destruct (x =? c)%N eqn:Ex.
      * apply N.eqb_eq in Ex as ->. injection Hw as ->. destruct (IH name eq_refl) as [->|[p ->]]; right; [by exists []|by exists (c :: p)].
      * injection Hw as <-. destruct (IH w eq_refl) as [->|[p Hp]]; [by left|]. exfalso.
        rewrite Hp, split_on_app in E. destruct (split_on c p) as [|? l] eqn:Ep; [by apply split_on_ne in Ep|].
        injection E as _ E. destruct l; [|done]. by apply split_on_ne in E.
    + assert (last (w2 :: ws) = Some name) as Hl by (destruct (x =? c)%N; exact Hw).
      destruct (IH name Hl) as [->|[p ->]]; [|right; by exists (x :: p)]. exfalso.
      rewrite split_on_free in E; [done|]. apply (split_on_elem c name). rewrite E. right. by apply last_Some_elem_of.
  - intros [Hc [->|[p ->]]]; [by rewrite split_on_free|]. rewrite split_on_app, (split_on_free c name) by done. by rewrite last_snoc.
Qed.

Lemma subprocess_path path :
  starts_with (u "subprocess.") path && elem_b (default [] (last (split_on 46 path))) _SUBPROCESS_CALLS = true <->
  exists module name, path = module ++ u "." ++ name /\ (module = u "subprocess" \/ exists rest, module = u "subprocess." ++ rest) /\ name ∈ _SUBPROCESS_CALLS.
Proof using Type.
  rewrite andb_true_iff, starts_with_prefix. unfold elem_b. rewrite bool_decide_eq_true. split.
  - intros [[rest ->] Hin]. remember (default [] _) as name eqn:Hn in Hin. symmetry in Hn. apply last_component in Hn as [Hc [He|[p He]]].
    { exfalso. apply Hc. rewrite <- He. apply elem_of_app. left. apply (bool_decide_unpack _). by vm_compute. }
    rewrite He. exists p, name. split; [done|]. split; [|done]. apply app_eq_inv in He as [(k & Hk & He)|(k & Hk & He)]; [|right; by exists k].
    destruct k as [|x k]; [right; exists []; by rewrite Hk, !app_nil_r|]. injection He as <- ->. left.
    destruct k as [|y k] using rev_ind.
    + change (u "subprocess.") with (u "subprocess" ++ [46%N]) in Hk. by apply app_inj_tail in Hk as [<- _].
    + exfalso. apply Hc. change (u "subprocess.") with (u "subprocess" ++ [46%N]) in Hk. rewrite app_comm_cons, app_assoc in Hk.
      apply app_inj_tail in Hk as [_ <-]. rewrite !elem_of_app. left. right. by left.
  - intros (module & name & -> & Hm & Hin). assert (46%N ∉ name) as Hc.
    { assert (Forall (fun name => 46%N ∉ name) _SUBPROCESS_CALLS) as Hall by (apply (bool_decide_unpack _); by vm_compute).
      rewrite Forall_forall in Hall. by apply Hall. }
    rewrite (proj2 (last_component 46%N (module ++ u "." ++ name) name)) by (split; [done|right; by exists module]).
    split; [|done]. destruct Hm as [->|[rest ->]]; [by exists name|]. exists (rest ++ u "." ++ name). by rewrite <- !app_assoc.
Qed.

(** What makes a call of a path dangerous. *)
Definition call_danger (env : aliases) (path : pystr) (args keywords : list node) : Prop :=
  path ∈ _DYNAMIC_BUILTINS /\
    (args ++ map keyword_value keywords = [] \/ exists x, x ∈ args ++ map keyword_value keywords /\ is_constant x = false) \/
  (path = u "__import__" \/ path = u "importlib.import_module") /\ (forall s l rest, args <> Constant (StrConstant s) l :: rest) \/
  path ∈ _OS_SHELL_CALLS \/
  (starts_with (u "subprocess.") path && elem_b (default [] (last (split_on 46 path))) _SUBPROCESS_CALLS = true) \/
  path = u "setattr" /\ (exists target rest p, args = target :: rest /\ denotes env target p /\ in_security p) \/
  path = u "getattr" /\ (exists module l rest, args = module :: Constant (StrConstant (u "environ")) l :: rest /\ denotes env module (u "os")).

Lemma dangerous_call env f args keywords line :
  dangerous env (Call f args keywords line) <-> exists path, denotes env f path /\ call_danger env path args keywords.
Proof using Type.
  unfold call_danger. setoid_rewrite subprocess_path. split.
  - inversion 1 as [? Hn|?|? ? ? ? Ht|? ? ? ? path Hd|? ? ? ? path Hd|? ? ? ? path Hd|? ? ? ? module name Hd|? ? ? ? ? path Hd|? ? ? ? ? ? Hd]; subst.
    + done.
    + by apply not_elem_of_nil in Ht.
    + exists path. auto.
    + exists path. auto.
    + exists path. auto.
    + eexists. split; [done|]. right; right; right; left. by exists module, name.
    + eexists. split; [done|]. right; right; right; right; left. split; [done|]. by exists target, args0, path.
    + eexists. split; [done|]. right; right; right; right; right. split; [done|]. by exists module, l, args0.
  - intros (path & Hd & [[? ?]|[[? ?]|[?|[(module & name & -> & ? & ?)|[[-> (target & rest & p & -> & ? & ?)]|[-> (module & l & rest & -> & ?)]]]]]]).
    + by eapply executes_data.
    + by eapply imports_data.
    + by eapply runs_shell.
    + by eapply runs_subprocess.
    + by eapply sets_security.
    + by apply gets_environ.
Qed.

Lemma reports_iff v v' (bad bad' : Prop) : (bad <-> bad') -> reports v v' bad -> reports v v' bad'.
Proof using Type. intros Hb (Ha & found & Hf & Hbad). split; [done|]. exists found. by rewrite Hbad. Qed.

(** A hypothesis that says of a literal path what does not hold of it. *)
Ltac other_path :=
  match goal with
  | H : ?p ∈ ?l |- _ => exfalso; apply (bool_decide_pack _) in H; by vm_compute in H
  | H : ?a = true |- _ => by vm_compute in H
  | H : @eq (list N) _ _ |- _ => by vm_compute in H
  | H : _ \/ _ |- _ => destruct H; other_path
  end.

Lemma builtin_danger env path args keywords : path ∈ _DYNAMIC_BUILTINS ->
  existsb (fun x => negb (is_constant x)) (args ++ map keyword_value keywords) || bool_decide (args ++ map keyword_value keywords = []) = true <->
  call_danger env path args keywords.
Proof using Type.
  intros Hp. rewrite orb_true_iff, existsb_exists, bool_decide_eq_true. setoid_rewrite negb_true_iff. setoid_rewrite <- list_elem_of_In.
  transitivity (args ++ map keyword_value keywords = [] \/ exists x, x ∈ args ++ map keyword_value keywords /\ is_constant x = false); [tauto|].
  split; [by left|]. unfold call_danger. repeat (apply elem_of_cons in Hp as [->|Hp]); [..|by apply not_elem_of_nil in Hp];
    (intros [[_ ?]|[[? _]|[?|[?|[[? _]|[? _]]]]]]; [done|other_path..]).
Qed.

Lemma import_danger env path args keywords : path = u "__import__" \/ path = u "importlib.import_module" ->
  match args with [] => true | first :: _ => negb (is_str_constant first) end = true <-> call_danger env path args keywords.
Proof using Type.
  intros Hp. transitivity (forall s l rest, args <> Constant (StrConstant s) l :: rest).
  - split; [intros Ha s l rest ->; done|]. intros Ha. destruct args as [|[]]; try done. destruct value; [|done]. by destruct (Ha s line args).
  - split; [by right; left|]. unfold call_danger. destruct Hp as [->| ->];
      (intros [[? _]|[[_ ?]|[?|[?|[[? _]|[? _]]]]]]; [other_path|done|other_path..]).
Qed.

Lemma setattr_danger env args keywords :
  match args with first :: _ => _is_security_namespace_write env first | [] => false end = true <-> call_danger env (u "setattr") args keywords.
Proof using Type.
  transitivity (exists target rest p, args = target :: rest /\ denotes env target p /\ in_security p).
  - destruct args as [|first rest]; [split; [done|by intros (? & ? & ? & ? & _)]|]. rewrite security_write.
    split; [intros (p & ?); by exists first, rest, p|]. intros (? & ? & p & [= <- <-] & ?). by exists p.
  - unfold call_danger. split; [intros ?; do 4 right; by left|].
    intros [[? _]|[[? _]|[?|[?|[[_ ?]|[? _]]]]]]; [other_path..|done|other_path].
Qed.

Lemma getattr_danger env args keywords : call_danger env (u "getattr") args keywords <->
  exists module l rest, args = module :: Constant (StrConstant (u "environ")) l :: rest /\ denotes env module (u "os").
Proof using Type.
  unfold call_danger. split; [|intros ?; by do 5 right].
  intros [[? _]|[[? _]|[?|[?|[[? _]|[_ ?]]]]]]; [other_path..|done].
Qed.

Lemma call_reported f args keywords n v :
  reports v (visit_Call f args keywords n v) (exists path, denotes (pv_aliases v) f path /\ call_danger (pv_aliases v) path args keywords).
Proof using Type.
  unfold visit_Call. destruct (_resolve (pv_aliases v) f) as [path|] eqn:E.
  2: { apply reports_nothing. intros (path & Hd%resolve_denotes & _). congruence. }
  apply (reports_iff _ _ (call_danger (pv_aliases v) path args keywords)).
  { apply resolve_denotes in E. split; [by exists path|]. intros (p & Hd & Hc). by rewrite (denotes_unique _ _ _ _ E Hd). }
  clear E. unfold elem_b at 1. case_bool_decide as H1; [by apply reports_if, builtin_danger|].
  destruct (bool_decide (path = u "__import__") || _) eqn:H2.
  { rewrite orb_true_iff, !bool_decide_eq_true in H2. by apply reports_if, import_danger. }
  apply orb_false_iff in H2 as [H2%bool_decide_eq_false H2'%bool_decide_eq_false]. unfold elem_b at 1.
  case_bool_decide as H3; [apply reports_critical; do 2 right; by left|].
  destruct (starts_with (u "subprocess.") path) eqn:H4.
  { apply reports_if. unfold call_danger. rewrite H4. cbn [andb]. split; [intros ?; do 3 right; by left|].
    intros [[? _]|[[? _]|[?|[?|[[-> _]|[-> _]]]]]]; [done|tauto|done|done|other_path..]. }
  case_bool_decide as H5; [subst; by apply reports_if, setattr_danger|].
  assert (path <> u "getattr" -> ~ call_danger (pv_aliases v) path args keywords) as Hno.
  { unfold call_danger. rewrite H4. cbn [andb]. by intros H6 [[? _]|[[[?|?] _]|[?|[?|[[? _]|[? _]]]]]]. }
  case_bool_decide as H6.
  { subst path. apply (reports_iff _ _ _ _ (iff_sym (getattr_danger _ args keywords))).
    destruct args as [|first [|second rest]]; [apply reports_nothing; by intros (? & ? & ? & ? & _)..|].
    destruct second as [| |[attr|] ?| | | | | | | | | | | | |]; try (apply reports_nothing; by intros (? & ? & ? & ? & _)).
    apply reports_if. rewrite andb_true_iff, !bool_decide_eq_true, resolve_denotes. split; [intros [-> ?]; by eexists _, _, _|].
    intros (? & ? & ? & [= <- -> <- <-] & ?). done. }
  specialize (Hno H6). case_bool_decide; [|by apply reports_nothing]. destruct args as [|first rest]; [by apply reports_nothing|].
  destruct (negb _); [by apply reports_warning|by apply reports_nothing].
Qed.

(** ** Every node *)

Lemma import_reported names n v : pv_aliases (visit_Import names n v) =
    bind_all (pv_aliases v) (map (fun a => match a.2 with Some ((_ :: _) as local) => (local, a.1) | _ => (root_module a.1, root_module a.1) end) names) /\
  exists found, pv_flags (visit_Import names n v) = pv_flags v ++ found /\ no_critical found = true.
Proof using Type.
  unfold visit_Import. revert v; induction names as [|[name asname] names IH]; intros v; cbn [foldl map]; [split; [done|exists []; by rewrite app_nil_r]|].
  assert (exists found, pv_flags (import_alias n v (name, asname)) = pv_flags v ++ found /\ no_critical found = true) as (f1 & Hf1 & Hc1).
  { unfold import_alias. destruct (elem_b _ _), asname as [[|]|]; simpl; (by eexists) || (exists []; by rewrite app_nil_r). }
  destruct (IH (import_alias n v (name, asname))) as (Ha & f2 & Hf2 & Hc2). split.
  - rewrite Ha. unfold bind_all. cbn [foldl]. f_equal. unfold import_alias. by destruct (elem_b _ _), asname as [[|]|].
  - exists (f1 ++ f2). by rewrite Hf2, Hf1, <- app_assoc, no_critical_app, Hc1, Hc2.
Qed.

Lemma import_from_reported module names n v :
  pv_aliases (visit_ImportFrom module names n v) = bind_all (pv_aliases v)
    match module with Some ((_ :: _) as m) => map (fun a => (local_name a, m ++ u "." ++ a.1)) names
                    | _ => [] end /\
  exists found, pv_flags (visit_ImportFrom module names n v) = pv_flags v ++ found /\ no_critical found = true.
Proof using Type.
  assert (forall m v', let v2 := foldl (fun v alias => with_alias (local_name alias)
      (m ++ u "." ++ alias.1) v) v' names in pv_flags v2 = pv_flags v' /\ pv_aliases v2 = bind_all (pv_aliases v')
      (map (fun a => (local_name a, m ++ u "." ++ a.1)) names)) as Hfold.
  { intros m. cbn zeta. induction names as [|a names IH]; intros v'; [done|]. cbn [foldl map].
    destruct (IH (with_alias (local_name a) (m ++ u "." ++ a.1) v')) as [-> ->]. done. }
  unfold visit_ImportFrom. set (v1 := if elem_b _ _ then _ else v).
  assert (pv_aliases v1 = pv_aliases v /\ exists found, pv_flags v1 = pv_flags v ++ found /\ no_critical found = true) as [Ha (found & Hf & Hc)].
  { unfold v1. destruct (elem_b _ _); (split; [done|]); [by eexists|]. exists []. by rewrite app_nil_r. }
  clearbody v1. destruct module as [[|c m]|]; cbn [default bool_decide]; try (rewrite bool_decide_eq_true_2 by done; split; [done|by exists found]).
  rewrite bool_decide_eq_false_2 by done. destruct (Hfold (c :: m) v1) as [E1 E2]. split; [etrans; [exact E2|by rewrite Ha]|].
  exists found. split; [by etrans; [exact E1|]|done].
Qed.

Lemma node_reported n v : pv_aliases (visit_node n v) = bind_all (pv_aliases v) (bindings n) /\
  exists found, pv_flags (visit_node n v) = pv_flags v ++ found /\ (no_critical found = false <-> dangerous (pv_aliases v) n).
Proof using Type.
  assert (forall targets verb, write_targets n = targets -> (forall env, dangerous env n -> exists target a path,
    target ∈ targets /\ writes_to target a /\ denotes env a path /\ in_security path) ->
    reports v (_check_write_targets targets n verb v) (dangerous (pv_aliases v) n)) as Hwrites.
  { intros targets verb <- Hd. eapply reports_iff, writes_reported. split; [|apply Hd]. intros (t & a & p & ? & ? & ? & ?). by eapply writes_security. }
  assert (bindings n = [] -> forall v', reports v v' (dangerous (pv_aliases v) n) -> pv_aliases v' = bind_all (pv_aliases v) (bindings n) /\
    exists found, pv_flags v' = pv_flags v ++ found /\ (no_critical found = false <-> dangerous (pv_aliases v) n)) as Hreports by by intros ->.
  assert ((forall env, ~ dangerous env n) -> forall v', (exists found, pv_flags v' = pv_flags v ++ found /\ no_critical found = true) ->
    exists found, pv_flags v' = pv_flags v ++ found /\ (no_critical found = false <-> dangerous (pv_aliases v) n)) as Hsafe.
  { intros Hd v' (found & Hf & Hc). exists found. rewrite Hc. split; [done|]. split; [done|]. intros ?. by destruct (Hd (pv_aliases v)). }
  destruct n; cbn [visit_node]; try (apply Hreports; [done|]);
    try (apply reports_nothing; inversion 1; subst; try done; by apply not_elem_of_nil in H1).
  - apply reports_if. rewrite bool_decide_eq_true. split; [by constructor|]. inversion 1; subst; try done. by apply not_elem_of_nil in H1.
  - apply reports_if. rewrite bool_decide_eq_true, resolve_denotes. split; [by constructor|].
    inversion 1; subst; try done. by apply not_elem_of_nil in H1.
  - eapply reports_iff, call_reported. symmetry. apply dangerous_call.
  - destruct (import_reported names (Import names line) v) as [Ha Hf]. split; [done|]. apply Hsafe; [|done].
    intros env. inversion 1; subst; try done. by apply not_elem_of_nil in H1.
  - destruct (import_from_reported module names (ImportFrom module names level line) v) as [Ha Hf]. split.
    + rewrite Ha. cbn [bindings]. by destruct module as [[|]|].
    + apply Hsafe; [|done]. intros env. inversion 1; subst; try done. by apply not_elem_of_nil in H1.
  - apply Hwrites; [done|]. intros env. inversion 1; subst; try done. eauto 8.
  - apply Hwrites; [done|]. intros env. inversion 1; subst; try done. eauto 8.
  - apply Hwrites; [done|]. intros env. inversion 1; subst; try done. eauto 8.
  - apply Hwrites; [done|]. intros env. inversion 1; subst; try done. eauto 8.
Qed.

Lemma walk_reported l v : exists found, pv_flags (foldl (fun v x => visit_node x v) v l) = pv_flags v ++ found /\
  (no_critical found = true <->
   forall before n after, l = before ++ n :: after -> ~ dangerous (bind_all (pv_aliases v) (concat (map bindings before))) n).
Proof using Type.
  revert v; induction l as [|x l IH]; intros v; cbn [foldl].
  - exists []. rewrite app_nil_r. split; [done|]. split; [by intros _ [|? ?] ? ?|done].
  - destruct (node_reported x v) as (Ha & found & Hf & Hbad), (IH (visit_node x v)) as (found' & Hf' & Hbad').
    exists (found ++ found'). split; [by rewrite Hf', Hf, <- app_assoc|]. rewrite no_critical_app, andb_true_iff, Hbad', Ha. split.
    + intros [Hx Hl] [|y before] n after [= <- ->].
      * intros Hd. apply Hbad in Hd. by rewrite Hx in Hd.
      * cbn [map concat]. unfold bind_all. rewrite foldl_app. by apply (Hl before n after).
    + intros Hall. split.
      * destruct (no_critical found) eqn:E; [done|]. exfalso. by apply (Hall [] x l eq_refl), Hbad.
      * intros before n after ->. specialize (Hall (x :: before) n after eq_refl). cbn [map concat] in Hall.
        unfold bind_all in *. by rewrite foldl_app in Hall.
Qed.

(** The visitor finds something critical exactly where there is something dangerous. *)
Lemma visit_harmless tree location : no_critical (pv_flags (visit tree (new_visitor location))) = true <-> harmless tree.
Proof using Type.
  rewrite visit_preorder. destruct (walk_reported (preorder tree) (new_visitor location)) as (found & -> & Hbad). exact Hbad.
Qed.
End Reports.

Lemma scan_plugin_spec `{PyRuntime} {W : Type} `{!SkillFiles W} `{!PluginSources W} m (w : W) res : scan_plugin m w = Ok res ->
  _locate_source_files m w = Ok (files_scanned res) /\
  (clean res = true <-> forall path, path ∈ files_scanned res ->
     exists source tree, read_text path w = Ok source /\ parse source = ParsedTree tree /\ harmless tree).
Proof.
  unfold scan_plugin. destruct (_locate_source_files m w) as [files|e]; simpl; [|done].
  destruct (rcollect _ files) as [found|e] eqn:E; simpl; [|done]. intros [= <-]. simpl. split; [done|].
  apply rcollect_ok in E. rewrite no_critical_concat. induction E as [|path flags files found Hscan _ IH].
  { split; [by intros _ path ?%not_elem_of_nil|constructor]. }
  rewrite Forall_cons, IH. clear IH. setoid_rewrite elem_of_cons.
  assert (no_critical flags = true <-> exists source tree, read_text path w = Ok source /\ parse source = ParsedTree tree /\ harmless tree) as ->.
  { unfold scan_file, scan_source in Hscan. destruct (read_text path w) as [source|e]; [|done]. destruct (parse source) as [tree|msg line|e] eqn:Ep; [| |done].
    - injection Hscan as <-. rewrite visit_harmless. split; [by exists source, tree|]. intros (? & ? & [= <-] & Hp & ?). rewrite Ep in Hp. by injection Hp as <-.
    - injection Hscan as <-. split; [done|]. intros (? & ? & [= <-] & Hp & ?). congruence. }
  split; [intros [? ?] q [->|?]; auto|]. intros Hall. split; [|intros q Hq]; apply Hall; auto.
Qed.


(** ** A plugin on disk *)

Module ScannedPlugin.
#[export] Instance runtime : PyRuntime := decoding_runtime [].

Definition statement (children : list node) : node := Other children 1.
Definition os_environ : node := Attribute (Name (u "os") 2) (u "environ") 2.

(** [import json] and a function that returns a list. *)
Definition plain : node := statement [Import [(u "json", None)] 1; statement [Call (Name (u "list") 2) [] [] 2]].
(** [from subprocess import run as r], then [r(cmd)]. *)
Definition spawning : node := statement [ImportFrom (Some (u "subprocess")) [(u "run", Some (u "r"))] 0 1; Call (Name (u "r") 2) [Name (u "cmd") 2] [] 2].
(** A function that uses [environ], and below it [from os import environ]. *)
Definition late_import : node := statement [statement [Name (u "environ") 1]; ImportFrom (Some (u "os")) [(u "environ", None)] 0 2].
(** [import kinetic_sdk.security], then [for kinetic_sdk.security.policy in values: pass]. *)
Definition loop_target : node := statement [Import [(u "kinetic_sdk.security", None)] 1;
  statement [Attribute (Attribute (Name (u "kinetic_sdk") 2) (u "security") 2) (u "policy") 2; Name (u "values") 2]].
(** [from .os import environ], the plugin's own module, then [environ]. *)
Definition own_module : node := statement [ImportFrom (Some (u "os")) [(u "environ", None)] 1 1; Name (u "environ") 2].

Definition trees : list (pystr * node) :=
  [(u "plain", plain); (u "spawning", spawning); (u "late", late_import); (u "loop", loop_target); (u "own", own_module)].

(** The world is the text of the plugin's only file. *)
#[export] Instance files : SkillFiles pystr := {
  realpath p _ := p; is_file p _ := bool_decide (p = u "/p/demo/main.py"); is_dir _ _ := true; list_dir _ _ := Ok [];
  read_text p w := if bool_decide (p = u "/p/demo/main.py") then Ok w else Err (PyExn (u "FileNotFoundError") p) }.

#[export] Instance sources : PluginSources pystr := {
  parse text := match dict_get text trees with Some tree => ParsedTree tree | None => BadSyntax (u "invalid syntax") (Some 1%Z) end;
  find_spec _ _ _ := None; rglob_py _ _ := [u "/p/demo/main.py"]; is_os_error e := bool_decide (exn_type e = u "FileNotFoundError") }.

Definition manifest : PluginManifest := {| pm_name := u "demo"; pm_version := None; pm_entry_point := u "main:tools"; pm_source := u "directory";
  declared_capabilities := [u "tool"]; pm_directory := Some (u "/p/demo"); isolation := u "in-process"; network := Some (u "none");
  memory_limit := u "512m"; cpu_limit := S754_finite false 1 0; pids_limit := 128 |}.

Definition verdict_on (text : String.string) : option (bool * list pystr) :=
  match scan_plugin manifest (u text) with Ok res => Some (clean res, map vf_category (flags res)) | Err _ => None end.


Example verdicts : verdict_on "plain" = Some (true, []) /\ verdict_on "spawning" = Some (false, [u "process_spawn"]) /\
  verdict_on "" = Some (false, [u "unparseable"]).
Proof. by vm_compute. Qed.

(** A name is looked up among the imports above its use, although a function runs
    when the whole file has been executed. *)
Example late_import_evades : verdict_on "late" = Some (true, []).
Proof. by vm_compute. Qed.

(** The target of a loop is no write target. *)
Example loop_target_evades : verdict_on "loop" = Some (true, []).
Proof. by vm_compute. Qed.

(** The dots of an import are not looked at. *)
Example own_module_is_flagged : verdict_on "own" = Some (false, [u "env_access"]).
Proof. by vm_compute. Qed.
End ScannedPlugin.
