(* ===== verification/PluginLoad.v ===== *)
(** * Loading a plugin (kinetic_sdk/plugin/loader.py)

    The scan, the import of the plugin's modules, its factory, and the audit
    entries. The Python interpreter (modules, [sys.modules], running a file's code)
    is an interface whose operations may do anything to the world; the theorem says
    which files' code the loader runs. *)

From stdpp Require Import base strings list sets relations.
From Stdlib Require Import ZArith Lia SpecFloat.
From S2P Require Import Prelude Json PyText Policy Types Skills Plugins SkillVet PluginScan.

(** What a factory returns: a manifest, a list of tools and of objects that are no
    tools (by type name), or an object of another type. *)
Inductive produced := ProducedManifest (m : PluginManifest) | ProducedList (items : list (Tool + pystr)) | ProducedOther (type_name : pystr).

(** [M] is the type of modules. [has_spec] is a [spec_from_file_location] with a
    loader; [exec_module] runs the code of a file; [import_module] is
    [importlib.import_module]; [factory] is [getattr] of a callable. *)
Class Interpreter (M W : Type) := {
  has_spec : pystr -> pystr -> W -> bool;
  module_from_spec : pystr -> pystr -> option pystr -> W -> result M * W;
  sys_modules_set : pystr -> M -> W -> W;
  sys_modules_pop : pystr -> W -> W;
  set_attribute : M -> pystr -> M -> W -> result unit * W;
  exec_module : M -> pystr -> W -> result unit * W;
  import_module : pystr -> W -> result M * W;
  module_name : M -> W -> pystr;
  factory : M -> pystr -> W -> option (W -> result produced * W);
  (** [audit_logger.log_event] of a load, with the plugin's name and the fields *)
  log_load : pystr -> jdict -> W -> result unit * W;
}.

Definition vet_error (msg : pystr) : pyexn := PyExn (u "PluginVetError") msg.

#[local] Open Scope effect_scope.

Definition severity_text (s : Severity) : pystr := match s with Warning => u "warning" | Critical => u "critical" end.

Definition flag_to_dict (f : VetFlag) : json := JObj [(u "severity", JStr (severity_text (vf_severity f))); (u "category", JStr (vf_category f));
  (u "message", JStr (vf_message f)); (u "location", JStr (vf_location f))].

Definition scan_to_dict (s : ScanResult) : json :=
  JObj [(u "clean", JBool (clean s)); (u "files_scanned", strs (files_scanned s)); (u "flags", JList (map flag_to_dict (flags s)))].

(** [isinstance(tool, Tool)] of every item. *)
Definition the_tools (items : list (Tool + pystr)) : list Tool := omap (fun i => match i with inl t => Some t | inr _ => None end) items.

Section Loader.
Context `{PyRuntime, UnicodeWord, Numerals} {M W : Type} `{!SkillFiles W} `{!PluginSources W} `{!Interpreter M W}.
Implicit Types m : PluginManifest.

Definition _audit_load m (scan : option ScanResult) (outcome : pystr) (tools : option (list pystr)) (error : option pystr) : py_effect W unit :=
  log_load (pm_name m)
    ([(u "plugin", JStr (pm_name m)); (u "version", opt_str (pm_version m)); (u "source", JStr (pm_source m));
      (u "entry_point", JStr (pm_entry_point m)); (u "outcome", JStr outcome)]
     ++ match scan with Some s => [(u "scan", scan_to_dict s)] | None => [] end
     ++ match tools with Some l => [(u "tools", strs l)] | None => [] end
     ++ match error with Some e => [(u "error", JStr e)] | None => [] end).

Definition _call_factory m (module : M) (name : pystr) : py_effect W produced := fun w =>
  match factory module name w with
  | None => (Err (plugin_failed m (py_repr (JStr name) ++ u " is not a callable in module " ++ py_repr (JStr (module_name module w)))), w)
  | Some call => call w
  end.

(** ** Importing a module of a plugin's directory *)

Definition package_init (current part : pystr) : pystr := path_join (path_join current part) (u "__init__.py").
Definition module_file (current part : pystr) : pystr := path_join current (part ++ u ".py").

(** [f"kinetic_plugin_{name}"], with underscores for dashes. *)
Definition module_prefix m : pystr := u "kinetic_plugin_" ++ map (fun c => if (c =? 45)%N then 95%N else c) (pm_name m).

(** The file of a level, where its submodules are searched, and the next directory. *)
Definition locate_level m (current part : pystr) (is_last : bool) w : result (pystr * option pystr * pystr) :=
  if is_file (package_init current part) w then Ok (package_init current part, Some (path_join current part), path_join current part)
  else if is_file (module_file current part) w then
    if is_last then Ok (module_file current part, None, current)
    else Err (plugin_failed m (py_repr (JStr part) ++ u " in " ++ py_repr (JStr (module_spec m)) ++ u " is a module, not a package"))
  else Err (plugin_failed m (u "cannot locate module " ++ py_repr (JStr (module_spec m)) ++ u " under " ++ plugin_root m)).

(** A module that is in [sys.modules] is bound in its parent and runs. *)
Definition run_module (parent : option M) (part : pystr) (module : M) (file next : pystr) : py_effect W (M * pystr) :=
  _ <~ match parent with Some p => set_attribute p part module | None => eret tt end ;;
  _ <~ exec_module module file ;;
  eret (module, next).

(** The body of the loop; it says which names it inserted, also when it raises. *)
Definition import_level m (full_name current part : pystr) (is_last : bool) (parent : option M) w : result (M * pystr) * bool * W :=
  match locate_level m current part is_last w with
  | Err e => (Err e, false, w)
  | Ok (file, search, next) =>
    if negb (has_spec full_name file w)
    then (Err (plugin_failed m (u "cannot load spec for " ++ py_repr (JStr full_name) ++ u " (" ++ module_file current part ++ u ")")), false, w)
    else
      match module_from_spec full_name file search w with
      | (Err e, w1) => (Err e, false, w1)
      | (Ok module, w1) =>
        let '(r, w2) := run_module parent part module file next (sys_modules_set full_name module w1) in (r, true, w2)
      end
  end.

Fixpoint import_levels m (done parts : list pystr) (current : pystr) (parent : option M) (inserted : list pystr) w : result M * list pystr * W :=
  match parts with
  | [] => (match parent with Some p => Ok p | None => Err (PyExn (u "AssertionError") []) end, inserted, w)
  | part :: rest =>
    let full_name := module_prefix m ++ u "." ++ join (u ".") (done ++ [part]) in
    let '(r, put, w1) := import_level m full_name current part (bool_decide (rest = [])) parent w in
    let inserted := if (put : bool) then inserted ++ [full_name] else inserted in
    match r with
    | Err e => (Err e, inserted, w1)
    | Ok (module, next) => import_levels m (done ++ [part]) rest next (Some module) inserted w1
    end
  end.

Definition _import_directory_module m : py_effect W M := fun w =>
  match import_levels m [] (split_on 46 (module_spec m)) (plugin_root m) None [] w with
  | (Ok module, _, w1) => (Ok module, w1)
  | (Err e, inserted, w1) => (Err e, foldl (fun w name => sys_modules_pop name w) w1 inserted)
  end.

Definition _import_module m : py_effect W M :=
  if bool_decide (pm_source m = u "directory") then _import_directory_module m else import_module (module_spec m).

(** A manifest that a factory returned, under the name and source of the plugin. *)
Definition followed m (p : PluginManifest) : py_effect W PluginManifest := fun w =>
  if bool_decide (pm_source p = pm_source m) then (Ok p, w)
  else (make_manifest {| pm_name := pm_name m;
    pm_version := match pm_version p with Some ((_ :: _) as v) => Some v | _ => pm_version m end; pm_entry_point := pm_entry_point p;
    pm_source := pm_source m; declared_capabilities := declared_capabilities m; pm_directory := pm_directory m; isolation := u "in-process";
    network := Some (u "none"); memory_limit := u "512m"; cpu_limit := fl_of_Z 1; pids_limit := 128 |} w, w).

Definition not_a_list m (type_name : pystr) : pyexn :=
  plugin_failed m (u "factory " ++ py_repr (JStr (pm_entry_point m)) ++ u " returned " ++ type_name ++ u ", expected list[Tool]").

Definition _import_and_build m : py_effect W (list (Tool + pystr)) :=
  module <~ _import_module m ;;
  made <~ _call_factory m module (factory_name m) ;;
  made <~ match made with
          | ProducedManifest p =>
            p <~ followed m p ;;
            inner <~ _import_module p ;;
            _call_factory p inner (factory_name p)
          | _ => eret made
          end ;;
  match made with
  | ProducedList items => eret items
  | ProducedManifest _ => eraise (not_a_list m (u "PluginManifest"))
  | ProducedOther type_name => eraise (not_a_list m type_name)
  end.

Definition _validate_tools m (items : list (Tool + pystr)) : result (list Tool) :=
  match omap (fun i => match i with inl _ => None | inr t => Some t end) items with
  | [] => Ok (the_tools items)
  | t :: _ => Err (plugin_failed m (u "factory returned a non-Tool object (" ++ t ++ u "); every entry must be a kinetic_sdk.tool.base.Tool"))
  end.

Definition critical_categories (s : ScanResult) : pystr :=
  py_repr (strs (sorted_strs (from_keys (map vf_category (filter (fun f => is_critical f = true) (flags s)))))).

(** [PluginLoader.load], after the scan. *)
Definition load_scanned m (scan : ScanResult) : py_effect W (list Tool) :=
  if negb (clean scan) then
    _ <~ _audit_load m (Some scan) (u "rejected") None (Some (critical_categories scan)) ;;
    eraise (vet_error (u "plugin " ++ py_repr (JStr (pm_name m)) ++ u " failed static scanning: critical findings in categories " ++
      critical_categories scan ++ u " " ++ [8212%N] ++ u " the plugin was NOT imported. (A passing scan is a tripwire result, not a sandbox guarantee.)"))
  else fun w =>
    match _import_and_build m w with
    | (Err e, w1) =>
      if bool_decide (exn_type e = u "PluginLoadError")
      then (_ <~ _audit_load m (Some scan) (u "failed") None (Some (exn_msg e)) ;; eraise e) w1
      else (_ <~ _audit_load m (Some scan) (u "failed") None (Some (describe e)) ;;
            eraise (load_error (u "plugin " ++ py_repr (JStr (pm_name m)) ++ u " raised during import/factory execution: " ++ describe e))) w1
    | (Ok items, w1) =>
      match _validate_tools m items with
      | Err e => (Err e, w1)
      | Ok tools => (_ <~ _audit_load m (Some scan) (u "loaded") (Some (map t_name tools)) None ;; eret tools) w1
      end
    end.

Definition unsupported m : list pystr := filter (fun c => c <> u "tool") (declared_capabilities m).

Definition unsupported_text m : pystr := u "capabilities " ++ py_repr (strs (sorted_strs (unsupported m))) ++
  u " are declared but not supported by this SDK version (only 'tool' is implemented)".

Definition load m : py_effect W (list Tool) :=
  if negb (bool_decide (unsupported m = [])) then
    _ <~ _audit_load m None (u "failed") None (Some (unsupported_text m)) ;; eraise (plugin_failed m (unsupported_text m))
  else
    scan <~ (fun w => (scan_plugin m w, w)) ;; load_scanned m scan.
End Loader.

(** ** Which code runs *)

(** The part of a path below a directory. *)
Definition below (root p : pystr) : Prop := path_join root [] `prefix_of` p.

Lemma path_join_extends d n : exists k, path_join d n = path_join d [] ++ n /\ path_join d n = d ++ k.
Proof.
  unfold path_join. destruct (ends_with _ d).
  - exists n. by rewrite app_nil_r.
  - exists (u "/" ++ n). by rewrite app_nil_r, <- app_assoc.
Qed.

Lemma below_join root d n : d = root \/ below root d -> below root (path_join d n).
Proof.
  unfold below. destruct (path_join_extends d n) as (k & E & E'). intros [->|Hd]; [rewrite E|rewrite E'; by apply prefix_app_r].
  by apply prefix_app_r.
Qed.

Section Frame.
Context `{PyRuntime, UnicodeWord, Numerals} {M W : Type} `{!SkillFiles W} `{!PluginSources W} `{!Interpreter M W}.
Implicit Types m : PluginManifest.

Lemma raised_after {A B} (f : py_effect W A) e w : is_ok (ebind f (fun _ => eraise (A := B) e) w).1 = false.
Proof using Type. unfold ebind. by destruct (f w) as [[]]. Qed.

Lemma run_next (parent : option M) part (module : M) file next w module' next' :
  (run_module parent part module file next w).1 = Ok (module', next') -> next' = next.
Proof using Type.
  unfold run_module, ebind. destruct parent as [p|]; [destruct (set_attribute p part module w) as [[|] ?]; [|done]|];
    simpl; (destruct (exec_module _ _ _) as [[|] ?]; [|done]); by intros [= _ <-].
Qed.

(** A relation between worlds that the interpreter's bookkeeping keeps, that the
    factories keep, and that running an allowed file keeps. *)
Record kept (R : relation W) (allowed : pystr -> Prop) : Prop := {
  kept_preorder : PreOrder R;
  kept_log name fields w : R w (log_load name fields w).2;
  kept_new full_name file search w : R w (module_from_spec full_name file search w).2;
  kept_set full_name module w : R w (sys_modules_set full_name module w);
  kept_pop full_name w : R w (sys_modules_pop full_name w);
  kept_attribute parent name module w : R w (set_attribute parent name module w).2;
  kept_exec module file w : allowed file -> R w (exec_module module file w).2;
  kept_factory module name w call w' : factory module name w = Some call -> R w' (call w').2;
}.

(** An effect keeps the relation. *)
Definition keeps (R : relation W) {A} (f : py_effect W A) : Prop := forall w, R w (f w).2.

Section Kept.
Context (R : relation W) (allowed : pystr -> Prop) (K : kept R allowed).
#[local] Existing Instance kept_preorder.

Lemma effect_keeps_bind {A B} (f : py_effect W A) (k : A -> py_effect W B) : keeps R f -> (forall a, keeps R (k a)) -> keeps R (ebind f k).
Proof using K.
  pose proof (kept_preorder _ _ K). intros Hf Hk w. unfold ebind. specialize (Hf w). destruct (f w) as [[a|e] w1]; [|done]. etrans; [exact Hf|apply Hk].
Qed.

Lemma keeps_pure {A} (r : py_effect W A) : (forall w, (r w).2 = w) -> keeps R r.
Proof using K. pose proof (kept_preorder _ _ K). intros Hr w. by rewrite Hr. Qed.

Lemma keeps_audit m scan outcome tools error : keeps R (_audit_load m scan outcome tools error).
Proof using K. intros w. apply (kept_log _ _ K). Qed.

Lemma keeps_factory m module name : keeps R (_call_factory m module name).
Proof using K.
  pose proof (kept_preorder _ _ K). intros w. unfold _call_factory. destruct (factory module name w) as [call|] eqn:E; [|done]. by apply (kept_factory _ _ K _ _ _ _ _ E).
Qed.

Lemma level_keeps m full_name current part is_last parent w :
  (forall file search next, locate_level m current part is_last w = Ok (file, search, next) -> allowed file) ->
  R w (import_level m full_name current part is_last parent w).2.
Proof using K.
  pose proof (kept_preorder _ _ K) as HR. intros Ha. unfold import_level.
  destruct (locate_level m current part is_last w) as [[[file search] next]|e]; [|done]. specialize (Ha _ _ _ eq_refl).
  destruct (negb _); [done|]. pose proof (kept_new _ _ K full_name file search w) as Hn.
  destruct (module_from_spec full_name file search w) as [[module|e] w1]; [|done]. cbn [snd] in Hn.
  assert (keeps R (run_module parent part module file next)) as Hrun.
  { apply effect_keeps_bind; [destruct parent; [intros ?; apply (kept_attribute _ _ K)|by apply keeps_pure]|]. intros _.
    apply effect_keeps_bind; [intros ?; by apply (kept_exec _ _ K)|]. intros _. by apply keeps_pure. }
  specialize (Hrun (sys_modules_set full_name module w1)). destruct (run_module _ _ _ _ _ _) as [r w2].
  etrans; [exact Hn|]. etrans; [apply (kept_set _ _ K)|exact Hrun].
Qed.

Lemma pops_keep names w : R w (foldl (fun w name => sys_modules_pop name w) w names).
Proof using K.
  pose proof (kept_preorder _ _ K) as HR. revert w; induction names as [|name names IH]; intros w; simpl; [done|]. etrans; [apply (kept_pop _ _ K)|apply IH].
Qed.

Lemma rejected_keeps m scan outcome error e : keeps R (ebind (_audit_load m scan outcome None (Some error)) (fun _ => eraise (A := list Tool) e)).
Proof using K. apply effect_keeps_bind; [apply keeps_audit|]. intros _. by apply keeps_pure. Qed.

(** Where a level's file lies. *)
Lemma located_below m current part is_last w file search next : current = plugin_root m \/ below (plugin_root m) current ->
  locate_level m current part is_last w = Ok (file, search, next) ->
  below (plugin_root m) file /\ ends_with (u ".py") file = true /\ (next = plugin_root m \/ below (plugin_root m) next).
Proof using Type.
  intros Hc. unfold locate_level. destruct (is_file _ w).
  - intros [= <- <- <-]. unfold package_init. split; [|split; [|right; by apply below_join]].
    + apply below_join. right. by apply below_join.
    + unfold ends_with. destruct (path_join_extends (path_join current part) (u "__init__.py")) as (k & -> & _). by rewrite rev_app_distr.
  - destruct (is_file _ w); [|done]. destruct is_last; [|done]. intros [= <- <- <-]. unfold module_file. split; [by apply below_join|]. split; [|done].
    unfold ends_with. destruct (path_join_extends current (part ++ u ".py")) as (k & -> & _). by rewrite !rev_app_distr.
Qed.

Lemma levels_keep m done parts current parent inserted w :
  (forall file, below (plugin_root m) file -> ends_with (u ".py") file = true -> allowed file) ->
  current = plugin_root m \/ below (plugin_root m) current -> R w (import_levels m done parts current parent inserted w).2.
Proof using K.
  pose proof (kept_preorder _ _ K) as HR. intros Ha. revert done current parent inserted w.
  induction parts as [|part rest IH]; intros done current parent inserted w Hc; cbn [import_levels]; [by destruct parent|].
  set (full_name := _ ++ _). pose proof (level_keeps m full_name current part (bool_decide (rest = [])) parent w) as Hl.
  assert (forall module next, (import_level m full_name current part (bool_decide (rest = [])) parent w).1.1 = Ok (module, next) ->
    next = plugin_root m \/ below (plugin_root m) next) as Hn.
  { intros module next. unfold import_level. destruct (locate_level _ _ _ _ w) as [[[file search] nx]|e] eqn:El; [|done].
    destruct (negb _); [done|]. destruct (module_from_spec _ _ _ w) as [[md|e] w1]; [|done].
    pose proof (run_next parent part md file nx (sys_modules_set full_name md w1) module next) as Hr.
    destruct (run_module _ _ _ _ _ _) as [r w2]. cbn in *. intros ->. rewrite (Hr eq_refl). by apply (located_below _ _ _ _ _ _ _ _ Hc) in El as (_ & _ & ?). }
  destruct (import_level m full_name current part _ parent w) as [[r put] w1]. cbn [fst snd] in *.
  assert (R w w1) as Hw. { apply Hl. intros file search next El. apply (located_below _ _ _ _ _ _ _ _ Hc) in El as (? & ? & _). by apply Ha. }
  destruct r as [[module next]|e]; [|done]. etrans; [exact Hw|]. apply IH. by eapply Hn.
Qed.

Lemma directory_keeps m : (forall file, below (plugin_root m) file -> ends_with (u ".py") file = true -> allowed file) ->
  keeps R (_import_directory_module m).
Proof using K.
  pose proof (kept_preorder _ _ K) as HR. intros Ha w. unfold _import_directory_module.
  pose proof (levels_keep m [] (split_on 46 (module_spec m)) (plugin_root m) None [] w Ha (or_introl eq_refl)) as Hl.
  destruct (import_levels _ _ _ _ _ _ w) as [[[module|e] inserted] w1]; [done|]. cbn [snd] in *. etrans; [exact Hl|apply pops_keep].
Qed.

Lemma load_keeps m scan : pm_source m = u "directory" ->
  (forall module name call w p, factory module name w = Some call -> (call w).1 <> Ok (ProducedManifest p)) ->
  (clean scan = true -> forall file, below (plugin_root m) file -> ends_with (u ".py") file = true -> allowed file) ->
  keeps R (load_scanned m scan).
Proof using K.
  intros Hs Hno Ha. pose proof (kept_preorder _ _ K) as HR. unfold load_scanned. destruct (clean scan) eqn:Hc; cbn [negb].
  - assert (keeps R (_import_and_build m)) as Hb.
    { unfold _import_and_build. apply effect_keeps_bind.
      - unfold _import_module. rewrite bool_decide_eq_true_2 by done. by apply directory_keeps, Ha.
      - intros module w. unfold ebind at 1. pose proof (keeps_factory m module (factory_name m) w) as Hf. unfold _call_factory in *.
        destruct (factory module (factory_name m) w) as [call|] eqn:E; [|done]. pose proof (fun p => Hno _ _ _ _ p E) as Hn.
        destruct (call w) as [[[p|items|t]|e] w1]; [|exact Hf..]. by destruct (Hn p). }
    intros w. specialize (Hb w). destruct (_import_and_build m w) as [[items|e] w1]; cbn [snd] in Hb.
    + destruct (_validate_tools m items) as [tools|e]; [|done]. etrans; [exact Hb|].
      apply effect_keeps_bind; [apply keeps_audit|]. intros _. by apply keeps_pure.
    + case_bool_decide; (etrans; [exact Hb|apply rejected_keeps]).
  - apply rejected_keeps.
Qed.
End Kept.
End Frame.


(** The loader behind the registry of Plugins.v. *)
#[export] Instance scanning_loader `{PyRuntime, UnicodeWord, Numerals} {M W : Type} `{!SkillFiles W} `{!PluginSources W} `{!Interpreter M W} : PluginLoader W :=
  {| load_plugin := load (M := M) |}.

(** ** What the loader does not look at *)

Definition isolated (i : pystr) (m : PluginManifest) : PluginManifest := {|
  pm_name := pm_name m; pm_version := pm_version m; pm_entry_point := pm_entry_point m; pm_source := pm_source m;
  declared_capabilities := declared_capabilities m; pm_directory := pm_directory m; isolation := i; network := network m;
  memory_limit := memory_limit m; cpu_limit := cpu_limit m; pids_limit := pids_limit m |}.

Section Isolation.
Context `{PyRuntime, UnicodeWord, Numerals} {M W : Type} `{!SkillFiles W} `{!PluginSources W} `{!Interpreter M W}.

Lemma levels_isolated i m done parts current parent inserted (w : W) :
  import_levels (M := M) (isolated i m) done parts current parent inserted w = import_levels m done parts current parent inserted w.
Proof using Type.
  revert done current parent inserted w; induction parts as [|part rest IH]; intros done current parent inserted w; [done|]. cbn [import_levels].
  change (import_level (isolated i m)) with (import_level (M := M) (W := W) m). change (module_prefix (isolated i m)) with (module_prefix m).
  destruct (import_level m _ _ _ _ _ w) as [[[[module next]|e] put] w1]; [apply IH|done].
Qed.

Lemma build_isolated i m (w : W) : _import_and_build (M := M) (isolated i m) w = _import_and_build (M := M) m w.
Proof using Type.
  unfold _import_and_build, ebind at 1 3. assert (_import_module (M := M) (isolated i m) w = _import_module (M := M) m w) as ->.
  { unfold _import_module, _import_directory_module. cbn. destruct (bool_decide _); [|done]. by rewrite levels_isolated. }
  reflexivity.
Qed.
End Isolation.

(** A plugin that asks for a container is loaded into the host process like any other. *)
Theorem isolation_is_ignored `{PyRuntime, UnicodeWord, Numerals} {M W : Type} `{!SkillFiles W} `{!PluginSources W} `{!Interpreter M W} i m (w : W) :
  load (M := M) (isolated i m) w = load (M := M) m w.
Proof.
  unfold load. change (unsupported (isolated i m)) with (unsupported m). destruct (negb _); [reflexivity|].
  change (ebind (fun w => (scan_plugin (isolated i m) w, w)) ?k w) with (match scan_plugin m w with Ok a => k a w | Err e => (Err e, w) end).
  change (ebind (fun w => (scan_plugin m w, w)) ?k w) with (match scan_plugin m w with Ok a => k a w | Err e => (Err e, w) end).
  destruct (scan_plugin m w) as [scan|e]; [|done].
  unfold load_scanned. destruct (negb (clean scan)); [reflexivity|]. rewrite build_isolated. reflexivity.
Qed.

(** A load that fails in the scan leaves no audit entry, nor anything else. *)
Lemma failed_scan_is_unaudited `{PyRuntime, UnicodeWord, Numerals} {M W : Type} `{!SkillFiles W} `{!PluginSources W} `{!Interpreter M W} m (w : W) e :
  unsupported m = [] -> scan_plugin m w = Err e -> load (M := M) m w = (Err e, w).
Proof. intros Hu Hs. unfold load. rewrite Hu. change (negb _) with false. cbn iota. unfold ebind. by rewrite Hs. Qed.

(** ** Plugins on disk *)

Module LoadedPlugin.
Export ScannedPlugin.

#[export] Instance words : UnicodeWord := ascii_words.
#[export] Instance numerals : Numerals := { parse_float s := Err (value_error s); parse_int s := Err (value_error s) }.

(** Files and their texts, the files whose code ran, and the outcomes in the audit log. *)
Record Host := { texts : list (pystr * pystr); ran : list pystr; outcomes : list json }.

#[export] Instance host_files : SkillFiles Host := {
  realpath p _ := p; is_file p w := dict_has p (texts w); is_dir _ _ := true; list_dir _ _ := Ok [];
  read_text p w := match dict_get p (texts w) with Some t => Ok t | None => Err (PyExn (u "FileNotFoundError") p) end }.

(** One installed package [pkg], with a module [mod]. *)
#[export] Instance host_sources : PluginSources Host := {
  parse text := match dict_get text trees with Some tree => ParsedTree tree | None => BadSyntax (u "invalid syntax") (Some 1%Z) end;
  find_spec name _ _ :=
    if bool_decide (name = u "pkg") then Some {| origin := Some (u "/lib/pkg/__init__.py"); submodule_search_locations := Some [u "/lib/pkg"] |}
    else if bool_decide (name = u "pkg.mod") then Some {| origin := Some (u "/lib/pkg/mod.py"); submodule_search_locations := None |}
    else None;
  rglob_py root w := filter (fun p => starts_with (path_join root []) p && ends_with (u ".py") p = true) (map fst (texts w));
  is_os_error e := bool_decide (exn_type e = u "FileNotFoundError") }.

Definition tool (name : pystr) : Tool := {| t_name := name; t_description := []; t_parameters := JObj [];
  risk_level := None; execution_policy := None; accepts_idempotency_key := false |}.

(** A module is its file; its factory returns one tool, or what [answer] says. *)
Definition interpreter (answer : pystr -> produced) : Interpreter pystr Host := {|
  has_spec _ _ _ := true;
  module_from_spec _ file _ w := (Ok file, w);
  sys_modules_set _ _ w := w; sys_modules_pop _ w := w; set_attribute _ _ _ w := (Ok tt, w);
  exec_module _ file w := (Ok tt, {| texts := texts w; ran := ran w ++ [file]; outcomes := outcomes w |});
  import_module name w := (Ok name, {| texts := texts w; ran := ran w ++ [name]; outcomes := outcomes w |});
  module_name m _ := m;
  factory m _ _ := Some (fun w => (Ok (answer m), w));
  log_load _ fields w := (Ok tt, {| texts := texts w; ran := ran w; outcomes := outcomes w ++ [default JNull (dict_get (u "outcome") fields)] |});
|}.

Definition host (files : list (pystr * pystr)) : Host := {| texts := files; ran := []; outcomes := [] |}.

Definition one_tool (_ : pystr) : produced := ProducedList [inl (tool (u "greet"))].

#[export] Instance plain_interpreter : Interpreter pystr Host := interpreter one_tool.

Definition plain_host : Host := host [(u "/p/demo/main.py", u "plain"); (u "/p/demo/notes.txt", u "secret")].

(** Only allowed files are added to those that ran. *)
Definition ran_only (allowed : pystr -> Prop) (w w' : Host) : Prop := exists l, ran w' = ran w ++ l /\ Forall allowed l.

Lemma ran_only_kept allowed : kept (M := pystr) (ran_only allowed) allowed.
Proof.
  assert (forall w w', ran w' = ran w -> ran_only allowed w w') as Hsame by (intros w w' E; exists []; by rewrite E, app_nil_r).
  split; intros; try (by apply Hsame).
  - split; [intros w; by apply Hsame|]. intros a b c (l & El & Hl) (k & Ek & Hk). exists (l ++ k). by rewrite Ek, El, <- app_assoc, Forall_app.
  - exists [file]. by repeat constructor.
  - apply Hsame. by injection H as <-.
Qed.


(** A factory may return the manifest of another directory; that one is imported
    although its code was never scanned. *)
Definition elsewhere (_ : pystr) : produced := ProducedManifest {| pm_name := u "demo"; pm_version := None; pm_entry_point := u "payload:tools";
  pm_source := u "directory"; declared_capabilities := [u "tool"]; pm_directory := Some (u "/tmp"); isolation := u "in-process";
  network := Some (u "none"); memory_limit := u "512m"; cpu_limit := fl_of_Z 1; pids_limit := 128 |}.

Definition two_directories : Host := host [(u "/p/demo/main.py", u "plain"); (u "/tmp/payload.py", u "spawning")].

Example followed_manifest_is_unscanned :
  ran (load (M := pystr) (Interpreter0 := interpreter elsewhere) manifest two_directories).2 = [u "/p/demo/main.py"; u "/tmp/payload.py"] /\
  match scan_plugin manifest two_directories with Ok scan => files_scanned scan = [u "/p/demo/main.py"] | Err _ => False end.
Proof. by vm_compute. Qed.

(** Importing [pkg.mod] runs [pkg/__init__.py] first, but only the module's file is scanned. *)
Example package_init_is_unscanned :
  match scan_plugin {| pm_name := u "demo"; pm_version := None; pm_entry_point := u "pkg.mod:tools"; pm_source := u "entry_point";
      declared_capabilities := [u "tool"]; pm_directory := None; isolation := u "in-process"; network := Some (u "none");
      memory_limit := u "512m"; cpu_limit := fl_of_Z 1; pids_limit := 128 |}
    (host [(u "/lib/pkg/__init__.py", u "spawning"); (u "/lib/pkg/mod.py", u "plain")]) with
  | Ok scan => clean scan = true /\ files_scanned scan = [u "/lib/pkg/mod.py"] | Err _ => False end.
Proof. by vm_compute. Qed.

(** A rejected plugin is not run, and the audit log says so; one that returns
    something else than tools has run, and the audit log does not say so. *)
Example rejected_and_unaudited :
  let rejected := load (M := pystr) manifest (host [(u "/p/demo/main.py", u "spawning")]) in
  let wrong := load (M := pystr) (Interpreter0 := interpreter (fun _ => ProducedList [inr (u "str")])) manifest plain_host in
  ran rejected.2 = [] /\ outcomes rejected.2 = [JStr (u "rejected")] /\ is_ok rejected.1 = false /\
  ran wrong.2 = [u "/p/demo/main.py"] /\ outcomes wrong.2 = [] /\ is_ok wrong.1 = false.
Proof. by vm_compute. Qed.
End LoadedPlugin.
