(* ===== verification/AsyncSubagent.v ===== *)
(** * Sub-agent specifications and asynchronous delegation
      (kinetic_sdk/subagent/manifest.py, tool.py, async_delegation.py, async_tool.py)

    Specifications and the Markdown files they are read from, the registry of a
    delegation tool, and the asynchronous twin of Subagent.v: the same guard and the
    same heap of budgets and breakers, around awaits at which the task may be
    cancelled. *)

From stdpp Require Import base gmap strings list functions.
From Stdlib Require Import ZArith Lia.
From S2P Require Import Prelude Json Types Redact Budgets Git AsyncClient Skills Subagent.

(** ** subagent/manifest.py *)

Definition spec_error (msg : pystr) : pyexn := PyExn (u "SubagentSpecError") msg.

Section Specs.
Context `{PyRuntime, UnicodeWord} {W : Type} `{SkillFiles W}.

(** [SubagentSpec.__post_init__] *)
Definition make_spec (s : SubagentSpec) : result SubagentSpec :=
  if (MAX_NAME_LENGTH <? zlen (s_name s))%Z || negb (name_matches (s_name s))
  then Err (spec_error (u "Invalid sub-agent name " ++ py_repr (JStr (s_name s)) ++ u ": must match '^[a-z0-9]+(-[a-z0-9]+)*$' and be <= 64 chars"))
  else if negb (nonblank (s_system_prompt s))
  then Err (spec_error (u "Sub-agent " ++ py_repr (JStr (s_name s)) ++
         u " must declare a non-empty system_prompt (sub-agents never inherit the parent's system message)"))
  else Ok s.

(** Reading the file: [is_os_error] is [isinstance(exc, OSError)]. *)
Definition load_subagent_spec (is_os_error : pyexn -> bool) (path : pystr) (w : W) : result SubagentSpec :=
  match (text <-! read_text path w ;; _split_frontmatter text path) with
  | Err e => Err (if is_os_error e || bool_decide (exn_type e = u "SkillParseError") then spec_error (exn_msg e) else e)
  | Ok (fm, body) =>
    make_spec {| s_name := fm_get (u "name") [] fm; s_description := fm_get (u "description") [] fm;
                 s_model := nonempty_or_none (dict_get (u "model") fm); s_system_prompt := body |}
  end.
End Specs.

(** ** The registry of a delegation tool *)

Section Registry.
Context `{PyRuntime}.

(** The checks on a mapping's entries, in order; a value that is no specification is
    given by its type name. [tool] is the name of the tool's class. *)
Fixpoint make_registry (tool : pystr) (entries : list (pystr * (SubagentSpec + pystr))) : result (list (pystr * SubagentSpec)) :=
  match entries with
  | [] => Ok []
  | (key, inr type_name) :: _ =>
    Err (PyExn (u "TypeError") (tool ++ u " registry values must be SubagentSpec, got " ++ type_name ++ u " for " ++ py_repr (JStr key)))
  | (key, inl spec) :: rest =>
    if negb (bool_decide (key = s_name spec))
    then Err (value_error (u "Registry key " ++ py_repr (JStr key) ++ u " does not match spec name " ++ py_repr (JStr (s_name spec))))
    else rmap (cons (key, spec)) (make_registry tool rest)
  end.

(** [{spec.name: spec for spec in subagents}]. *)
Definition by_spec_name (specs : list SubagentSpec) : list (pystr * SubagentSpec) := foldl (fun d s => dict_set (s_name s) s d) [] specs.

Definition catalogue_line (s : SubagentSpec) : pystr :=
  u "- " ++ s_name s ++ u ": " ++ match s_description s with [] => u "(no description)" | d => d end.

Definition delegate_description (specs : list (pystr * SubagentSpec)) : pystr :=
  u "Delegate a self-contained task to a registered sub-agent. The sub-agent inherits your tools and permissions, starts from a " ++
  u "fresh context with its own system prompt, and returns only its final message " ++ [8212%N] ++
  u " everything it needs must fit in task_prompt. Available sub-agents:" ++ [10%N] ++
  join [10%N] (map (fun kv => catalogue_line kv.2) (sort_items specs)).

Definition delegate_parameters (specs : list (pystr * SubagentSpec)) : json := JObj [
  (u "type", JStr (u "object"));
  (u "properties", JObj [
     (u "subagent_name", JObj [(u "type", JStr (u "string")); (u "description", JStr (u "Name of the registered sub-agent to spawn."));
                               (u "enum", strs (map fst (sort_items specs)))]);
     (u "task_prompt", JObj [(u "type", JStr (u "string"));
        (u "description", JStr (u "Complete, self-contained instructions for the sub-agent (file paths, decisions, constraints " ++ [8212%N] ++
           u " the sub-agent sees nothing else from your context)."))])]);
  (u "required", strs [u "subagent_name"; u "task_prompt"])].

(** [DelegateTool.bind], as the owner's client becomes. *)
Definition bind_root (charge_root : bool) (llm : Client) (budget breaker : nat) : Client :=
  if charge_root then match llm with Guarded _ _ _ _ => llm | _ => Guarded llm budget breaker (u "root") end else llm.
End Registry.

(** ** subagent/async_delegation.py *)

(** A provider's asynchronous client, a guard, and a synchronous client behind
    [SyncToAsyncLLMClient]. *)
Inductive AsyncLLMClient :=
| AProvider (n : nat)
| AsyncGuarded (inner : AsyncLLMClient) (budget breaker : nat) (agent_id : pystr)
| FromSync (inner : Client).

(** What a stream yields: texts, and how it ends: the [done] event, an exception, or
    a cancellation at one of its awaits. *)
Definition streamed : Type := list pystr * awaited (result LLMResponse).

Section AsyncClients.
Context `{PyRuntime} {W Request : Type}.
Variable provider_chat : nat -> Request -> W -> result LLMResponse * W.
Variable provider_stream : nat -> Request -> W -> (list pystr * result LLMResponse) * W.
Variable provider_model : nat -> option pystr.
(** The provider's awaited [chat] and [chat_stream]; does a cancellation strike while a thread works? *)
Variable async_provider_chat : nat -> Request -> W -> awaited (result LLMResponse) * W.
Variable async_provider_stream : nat -> Request -> W -> streamed * W.
Variable async_provider_model : nat -> option pystr.
Variable strikes : W -> bool.

(** The synchronous [chat_stream]: a guard charges the calls of the [done] event
    before it passes it on; the pool's wrapper holds its lock for the whole stream. *)
Fixpoint client_stream (c : Client) (q : Request) (h : Heap W) : (list pystr * result LLMResponse) * Heap W :=
  match c with
  | Subagent.Provider n => let '(x, w) := provider_stream n q (outside h) in (x, MkHeap (budgets h) (breakers h) w)
  | Serialized inner => client_stream inner q h
  | Guarded inner budget breaker agent_id =>
    match client_stream inner q h with
    | ((texts, Ok response), h1) =>
      match charge budget breaker agent_id (tool_calls response) h1 with
      | (Ok _, h2) => ((texts, Ok response), h2)
      | (Err e, h2) => ((texts, Err e), h2)
      end
    | other => other
    end
  end.

Fixpoint async_chat (c : AsyncLLMClient) (q : Request) (h : Heap W) : awaited (result LLMResponse) * Heap W :=
  match c with
  | AProvider n => let '(x, w) := async_provider_chat n q (outside h) in (x, MkHeap (budgets h) (breakers h) w)
  | FromSync inner => threaded (strikes (outside h)) (chat provider_chat inner q) h
  | AsyncGuarded inner budget breaker agent_id =>
    match async_chat inner q h with
    | (Got (Ok response), h1) =>
      match charge budget breaker agent_id (tool_calls response) h1 with
      | (Ok _, h2) => (Got (Ok response), h2)
      | (Err e, h2) => (Got (Err e), h2)
      end
    | other => other
    end
  end.

Fixpoint async_chat_stream (c : AsyncLLMClient) (q : Request) (h : Heap W) : streamed * Heap W :=
  match c with
  | AProvider n => let '(x, w) := async_provider_stream n q (outside h) in (x, MkHeap (budgets h) (breakers h) w)
  | FromSync inner =>
    match threaded (strikes (outside h)) (client_stream inner q) h with
    | (Got (texts, Ok response), h1) => ((texts, Got (Ok response)), h1)
    | (Got (_, Err e), h1) => (([], Got (Err e)), h1)
    | (Cancelled, h1) => (([], Cancelled), h1)
    end
  | AsyncGuarded inner budget breaker agent_id =>
    match async_chat_stream inner q h with
    | ((texts, Got (Ok response)), h1) =>
      match charge budget breaker agent_id (tool_calls response) h1 with
      | (Ok _, h2) => ((texts, Got (Ok response)), h2)
      | (Err e, h2) => ((texts, Got (Err e)), h2)
      end
    | other => other
    end
  end.

Fixpoint async_model_of (c : AsyncLLMClient) : option pystr :=
  match c with
  | AProvider n => async_provider_model n
  | AsyncGuarded inner _ _ _ => Some (default (u "unknown") (async_model_of inner))
  | FromSync inner => model_of provider_model inner
  end.

Definition async_unguarded (c : AsyncLLMClient) : AsyncLLMClient := match c with AsyncGuarded inner _ _ _ => inner | _ => c end.

(** A factory may build either flavour of client. *)
Definition built (c : AsyncLLMClient + Client) : AsyncLLMClient := match c with inl c => c | inr c => FromSync c end.

Definition async_base_client (parent_llm : AsyncLLMClient) (spec : SubagentSpec) (factory : option (pystr -> result (AsyncLLMClient + Client)))
    : result AsyncLLMClient :=
  let base := async_unguarded parent_llm in
  match s_model spec with
  | None => Ok base
  | Some m =>
    if decide (async_model_of base = Some m) then Ok base
    else match factory with
         | None => Err (subagent_error (u "Sub-agent " ++ py_repr (JStr (s_name spec)) ++ u " requests model " ++ py_repr (JStr m)
             ++ u ", which differs from the parent's model; pass llm_factory to build a client for it"
             ++ u " (or leave spec.model=None to inherit)"))
         | Some f => rmap built (f m)
         end
  end.

(** [spawn_async_subagent]; file tools are bound to the id of the audit entries. *)
Definition spawn_async_subagent {I} (parent : Delegate AsyncLLMClient I) (spec : SubagentSpec) (budget : nat) (max_repeats : Z)
    (factory : option (pystr -> result (AsyncLLMClient + Client))) (agent_id : pystr) (breaker : nat) (h : Heap W)
    : result (Delegate AsyncLLMClient I) * Heap W :=
  match async_base_client (d_llm parent) spec factory with
  | Err e => (Err e, h)
  | Ok base =>
    match make_repetition_breaker max_repeats with
    | Err e => (Err e, h)
    | Ok k =>
      (Ok (MkDelegate agent_id (AsyncGuarded base budget breaker agent_id)
             (map (clone_tool budget agent_id agent_id) (d_tools parent)) (Some (s_system_prompt spec)) 0 (d_inherited parent)),
       set_breaker_at breaker k h)
    end
  end.

(** [run_async_subagent]: [run_agent] is [AsyncAgent.run]. A cancellation is no
    [Exception]: it leaves without a finish entry. *)
Definition run_async_subagent {I} (run_agent : Delegate AsyncLLMClient I -> pystr -> Heap W -> awaited (result pystr) * Heap W)
    (parent : Delegate AsyncLLMClient I) (spec : SubagentSpec) (task : pystr) (budget : nat) (max_repeats : Z)
    (factory : option (pystr -> result (AsyncLLMClient + Client))) (new_id : pystr) (breaker : nat) (h : Heap W)
    : awaited (result DelegationResult) * list audit_entry * Heap W :=
  match spawn_async_subagent parent spec budget max_repeats factory new_id breaker h with
  | (Err e, h1) => (Got (Err e), [], h1)
  | (Ok agent, h1) =>
    let spawned := SpawnEntry (d_id parent) new_id (s_name spec) (async_model_of (d_llm agent)) (sb_used (budgets h1 budget)) (sb_max (budgets h1 budget)) in
    match run_agent agent task h1 with
    | (Got (Ok message), h2) =>
      (Got (Ok {| final_message := message; agent_id := new_id |}), [spawned; FinishEntry new_id (s_name spec) (u "completed") message], h2)
    | (Got (Err e), h2) =>
      (Got (Err e), [spawned; FinishEntry new_id (s_name spec) (outcome_of e).1 (outcome_of e).2], h2)
    | (Cancelled, h2) => (Cancelled, [spawned], h2)
    end
  end.

(** [AsyncDelegateTool.execute_async] *)
Definition async_delegate_execute `{SecretPatterns} (bound : bool) (specs : list (pystr * SubagentSpec))
    (delegate : SubagentSpec -> awaited (result DelegationResult) * list audit_entry * Heap W) (name : pystr) (h : Heap W)
    : awaited ToolResult * list audit_entry * Heap W :=
  if negb bound
  then (Got (error_result (u "AsyncDelegateTool is not bound to an agent; call delegate_tool.bind(agent) after constructing the agent")), [], h)
  else match dict_get name specs with
  | None => (Got (error_result (u "Unknown sub-agent " ++ py_repr (JStr name) ++ u ". Registered: " ++ registered specs)), [], h)
  | Some spec =>
    match delegate spec with
    | (Got (Ok r), log, h') =>
      (Got (output_result (JObj [(u "subagent", JStr (s_name spec)); (u "agent_id", JStr (agent_id r));
                                 (u "final_message", JStr (redact_secrets (final_message r)))])), log, h')
    | (Got (Err e), log, h') => (Got (error_result (exn_type e ++ u ": " ++ exn_msg e)), log, h')
    | (Cancelled, log, h') => (Cancelled, log, h')
    end
  end.

(** [AsyncDelegateTool.bind] *)
Definition async_bind_root (charge_root : bool) (llm : AsyncLLMClient) (budget breaker : nat) : AsyncLLMClient :=
  if charge_root then match llm with AsyncGuarded _ _ _ _ => llm | _ => AsyncGuarded llm budget breaker (u "root") end else llm.
End AsyncClients.

(** ** The budget of a tree *)

Section Spending.
Context `{PyRuntime} {W Request : Type}.
Variable provider_chat : nat -> Request -> W -> result LLMResponse * W.
Variable provider_stream : nat -> Request -> W -> (list pystr * result LLMResponse) * W.
Variable async_provider_chat : nat -> Request -> W -> awaited (result LLMResponse) * W.
Variable async_provider_stream : nat -> Request -> W -> streamed * W.
Variable strikes : W -> bool.

Local Abbreviation achat := (async_chat provider_chat async_provider_chat strikes).
Local Abbreviation astream := (async_chat_stream provider_stream async_provider_stream strikes).

(** The calls a turn lets through. *)
Definition let_through (r : awaited (result LLMResponse)) : Z := match r with Got (Ok x) => zlen (tool_calls x) | _ => 0 end.

Lemma client_stream_spent c q (h h' : Heap W) r i : client_stream provider_stream c q h = (r, h') -> spent (budgets h i) (budgets h' i) 0.
Proof using Type.
  revert h h' r; induction c as [n|c IH bud brk agent|c IH]; intros h h' r; simpl; [|destruct (client_stream _ c q h) as [[texts [response|e]] h1] eqn:E|apply IH].
  - destruct (provider_stream _ _ _) as [x w]. intros [= <- <-]. apply spent_refl.
  - apply IH in E. destruct (charge bud brk agent (tool_calls response) h1) as [[[]|e] h2] eqn:Ec; apply (charge_spent_any _ _ _ _ _ _ _ i) in Ec;
      intros [= <- <-]; exact (spent_trans _ _ _ _ _ E Ec).
  - apply IH in E. by intros [= <- <-].
Qed.

(** What a guard makes of a turn it wraps. *)
Lemma guard_spent bud brk agent (h h1 h' : Heap W) (r r' : awaited (result LLMResponse)) :
  (forall i, spent (budgets h i) (budgets h1 i) 0) ->
  match r with
  | Got (Ok response) => match charge bud brk agent (tool_calls response) h1 with
                         | (Ok _, h2) => (Got (Ok response), h2) | (Err e, h2) => (Got (Err e), h2) end
  | other => (other, h1)
  end = (r', h') ->
  (forall i, spent (budgets h i) (budgets h' i) 0) /\ spent (budgets h bud) (budgets h' bud) (let_through r').
Proof using Type.
  intros Hh. destruct r as [[response|e]|]; [|by intros [= <- <-]..].
  destruct (charge bud brk agent (tool_calls response) h1) as [[[]|e] h2] eqn:Ec; pose proof (fun i => charge_spent_any _ _ _ _ _ _ _ i Ec) as Ha;
    apply charge_spent in Ec as (Hs & _); intros [= <- <-]; (split; [intros i; exact (spent_trans _ _ _ _ _ (Hh i) (Ha i))|]);
    exact (spent_trans _ _ _ _ _ (Hh bud) Hs).
Qed.

Lemma achat_spent c q (h h' : Heap W) r i : achat c q h = (r, h') -> spent (budgets h i) (budgets h' i) 0.
Proof using Type.
  revert h h' r i; induction c as [n|c IH bud brk agent|c]; intros h h' r i; simpl.
  - destruct (async_provider_chat _ _ _) as [x w]. intros [= <- <-]. apply spent_refl.
  - destruct (achat c q h) as [r1 h1] eqn:E. intros Hg. eapply (proj1 (guard_spent bud brk agent h h1 h' r1 r (fun i => IH _ _ _ i E) _)).
    Unshelve. by destruct r1 as [[]|].
  - unfold threaded. destruct (chat _ c q h) as [r1 h1] eqn:E. apply (chat_spent _ _ _ _ _ _ i) in E. by destruct (strikes _); intros [= <- <-].
Qed.

Lemma astream_spent c q (h h' : Heap W) r i : astream c q h = (r, h') -> spent (budgets h i) (budgets h' i) 0.
Proof using Type.
  revert h h' r i; induction c as [n|c IH bud brk agent|c]; intros h h' r i; simpl.
  - destruct (async_provider_stream _ _ _) as [x w]. intros [= <- <-]. apply spent_refl.
  - destruct (astream c q h) as [[texts r1] h1] eqn:E. intros Hg. eapply (proj1 (guard_spent bud brk agent h h1 h' r1 r.2 (fun i => IH _ _ _ i E) _)).
    Unshelve. destruct r1 as [[response|]|]; [|by injection Hg as <- <-..].
    destruct (charge bud brk agent (tool_calls response) h1) as [[] h2]; by injection Hg as <- <-.
  - unfold threaded. destruct (client_stream _ c q h) as [[texts r1] h1] eqn:E. apply (client_stream_spent _ _ _ _ _ i) in E.
    destruct (strikes _), r1; by intros [= <- <-].
Qed.

(** One turn, streamed or not, and the turns of a tree of agents in any order. *)
Definition turn (streaming : bool) (c : AsyncLLMClient) (q : Request) (h : Heap W) : awaited (result LLMResponse) * Heap W :=
  if streaming then let '(r, h') := astream c q h in (r.2, h') else achat c q h.

Fixpoint async_turns (l : list (bool * AsyncLLMClient * Request)) (h : Heap W) : Z * Heap W :=
  match l with
  | [] => (0%Z, h)
  | (streaming, c, q) :: l' => let '(r, h1) := turn streaming c q h in let '(n, h2) := async_turns l' h1 in ((let_through r + n)%Z, h2)
  end.

Definition async_charges (bud : nat) (c : AsyncLLMClient) : Prop := exists inner brk agent, c = AsyncGuarded inner bud brk agent.

Lemma turn_spent bud streaming c q (h h' : Heap W) r : async_charges bud c -> turn streaming c q h = (r, h') ->
  spent (budgets h bud) (budgets h' bud) (let_through r).
Proof using Type.
  intros (inner & brk & agent & ->). unfold turn. destruct streaming; simpl.
  - destruct (astream inner q h) as [[texts r1] h1] eqn:E. intros Hg.
    eapply (proj2 (guard_spent bud brk agent h h1 h' r1 r (fun i => astream_spent _ _ _ _ _ i E) _)). Unshelve.
    destruct r1 as [[response|]|]; [|by injection Hg as <- <-..].
    destruct (charge bud brk agent (tool_calls response) h1) as [[] h2]; by injection Hg as <- <-.
  - destruct (achat inner q h) as [r1 h1] eqn:E. intros Hg.
    eapply (proj2 (guard_spent bud brk agent h h1 h' r1 r (fun i => achat_spent _ _ _ _ _ i E) _)). Unshelve. by destruct r1 as [[]|].
Qed.
End Spending.

(** the budget bounds a tree of asynchronous agents. However the turns of its
    guarded clients interleave, streamed or not, over asynchronous or threaded
    providers, and wherever cancellations strike, the tool calls they let through
    add up to at most what the shared budget had left. *)
Theorem async_tree_stays_within_budget `{PyRuntime} {W Request} provider_chat provider_stream async_provider_chat async_provider_stream strikes
    bud (l : list (bool * AsyncLLMClient * Request)) (h : Heap W) :
  within (budgets h bud) -> Forall (fun x => async_charges bud x.1.2) l ->
  let '(admitted, h') := async_turns provider_chat provider_stream async_provider_chat async_provider_stream strikes l h in
  (admitted <= sb_max (budgets h bud) - sb_used (budgets h bud))%Z /\
  sb_max (budgets h' bud) = sb_max (budgets h bud) /\ within (budgets h' bud).
Proof.
  intros Hw HF. assert (let '(n, h') := async_turns provider_chat provider_stream async_provider_chat async_provider_stream strikes l h in
    spent (budgets h bud) (budgets h' bud) n) as Hs.
  { clear Hw. revert h; induction HF as [|[[streaming c] q] l Hc _ IH]; intros h; simpl; [apply spent_refl|]. cbn in Hc.
    destruct (turn _ _ _ _ _ streaming c q h) as [r h1] eqn:E. apply (turn_spent _ _ _ _ _ bud) in E; [|done]. specialize (IH h1).
    destruct (async_turns _ _ _ _ _ l h1) as [n h2]. exact (spent_trans _ _ _ _ _ E IH). }
  destruct (async_turns _ _ _ _ _ l h) as [n h']. destruct Hs as (H1 & H2 & H3). specialize (H3 Hw). unfold within in *. split; [lia|]. by split.
Qed.

(** A cancelled delegation leaves a spawn entry without a finish entry; any other
    that spawned leaves both, and the tool's result is never an exception. *)
Lemma delegation_is_audited `{PyRuntime} {W I} provider_model async_provider_model run_agent (parent : Delegate AsyncLLMClient I) spec task bud reps
    factory id brk (h : Heap W) r log h' :
  run_async_subagent provider_model async_provider_model run_agent parent spec task bud reps factory id brk h = (r, log, h') ->
  (log = [] /\ exists e, r = Got (Err e)) \/
  exists spawned, log = spawned :: match r with
    | Cancelled => []
    | Got (Ok x) => [FinishEntry id (s_name spec) (u "completed") (final_message x)]
    | Got (Err e) => [FinishEntry id (s_name spec) (outcome_of e).1 (outcome_of e).2]
    end.
Proof.
  unfold run_async_subagent. destruct (spawn_async_subagent _ _ _ _ _ _ _ _ _ h) as [[agent|e] h1]; [|intros [= <- <- <-]; left; eauto].
  right. destruct (run_agent agent task h1) as [[[message|e]|] h2]; injection H0 as <- <- <-; by eexists.
Qed.

(** ** A tree with a cancellation *)

Module Tree.
#[export] Instance runtime : PyRuntime := decoding_runtime [].

Definition one_call : LLMResponse := {| r_content := []; tool_calls := [{| tc_id := u "c"; tc_name := u "ls"; tc_arguments := [] |}];
  stop_reason := None; usage := []; reasoning_text := None |}.

(** Every provider asks for one listing; the provider [1] is cancelled, and so is whatever a thread does in the world [true]. *)
Definition provider (n : nat) (q : unit) (w : bool) : result LLMResponse * bool := (Ok one_call, w).
Definition provider_stream (n : nat) (q : unit) (w : bool) : (list pystr * result LLMResponse) * bool := (([u "a"], Ok one_call), w).
Definition awaited_provider (n : nat) (q : unit) (w : bool) : awaited (result LLMResponse) * bool :=
  (if bool_decide (n = 1) then Cancelled else Got (Ok one_call), w).
Definition awaited_stream (n : nat) (q : unit) (w : bool) : streamed * bool := (([u "a"], if bool_decide (n = 1) then Cancelled else Got (Ok one_call)), w).

Definition heap (cancelled : bool) : Heap bool :=
  MkHeap (fun _ => {| sb_max := 2; sb_used := 0; sb_per_agent := [] |}) (fun _ => {| rb_max := 5; _last_key := None; _count := 0 |}) cancelled.

Definition guarded (c : AsyncLLMClient) (breaker : nat) : AsyncLLMClient := AsyncGuarded c 0 breaker (u "a").

Definition family : list (bool * AsyncLLMClient * unit) :=
  [(false, guarded (AProvider 0) 0, tt); (true, guarded (AProvider 1) 1, tt); (true, guarded (FromSync (Provider 2)) 2, tt);
   (false, guarded (AProvider 3) 3, tt)].

Lemma async_tree_stays_within_budget_witness :
  let '(admitted, h') := async_turns provider provider_stream awaited_provider awaited_stream id family (heap false) in
  (admitted <= 2 - 0)%Z /\ sb_max (budgets h' 0) = 2%Z /\ within (budgets h' 0).
Proof.
  apply (async_tree_stays_within_budget provider provider_stream awaited_provider awaited_stream id 0 family (heap false)).
  - vm_compute. congruence.
  - repeat constructor; by do 3 eexists.
Defined.

(** The third call meets the budget's end; where the thread is cancelled its call is
    not charged although the provider answered. *)
Example admitted_calls : (async_turns provider provider_stream awaited_provider awaited_stream id family (heap false)).1 = 2%Z /\
  (turn provider provider_stream awaited_provider awaited_stream id false (guarded (FromSync (Provider 2)) 2) tt (heap true)).1 = Cancelled /\
  sb_used (budgets (turn provider provider_stream awaited_provider awaited_stream id false (guarded (FromSync (Provider 2)) 2) tt (heap true)).2 0) = 0%Z.
Proof. by vm_compute. Qed.

Definition parent : Delegate AsyncLLMClient unit := MkDelegate (u "root") (AProvider 0) [FileTool (u "edit") None; DelegateTool [] 7 None] None 0 tt.

(** The locks of the file tool are owned under the id of the audit entries; a
    cancelled run leaves only the first entry. *)
Example cancelled_delegation : match spawn_async_subagent (fun _ => None) (fun _ => None) parent worker 0 5 None (u "child") 1 (heap false) with
  | (Ok agent, _) => d_tools agent = [FileTool (u "edit") (Some (u "child")); DelegateTool [] 0 (Some (u "child"))] | _ => False end /\
  (run_async_subagent (fun _ => None) (fun _ => None) (fun _ _ h => (Cancelled, h)) parent worker (u "task") 0 5 None (u "child") 1 (heap false)).1.2 =
    [SpawnEntry (u "root") (u "child") (u "worker") (Some (u "unknown")) 0 2].
Proof. by vm_compute. Qed.
End Tree.
