(* ===== verification/Tracer.v ===== *)
(** * Traces (kinetic_sdk/observability/tracer.py)

    The tracer turns the events of a run into a tree of timed spans. Spans are
    objects on a heap that the tracer's dictionaries refer to; the theorems say
    that what it keeps of a run is always one tree that holds every span once, and
    that no span is left open when the run ends. *)

From stdpp Require Import base strings list sets.
From Stdlib Require Import ZArith Lia SpecFloat.
From S2P Require Import Prelude Json EventBus Redact.

#[local] Open Scope effect_scope.

Definition _TERMINAL_EVENTS : list pystr := map u ["agent.run_finished"; "agent.error"; "agent.cancelled"].

(** The double nearest to 1e-9. *)
Definition _EPSILON_SECONDS : pyfloat := S754_finite false 4835703278458517 (-82).

Record TraceSpan := {
  sp_span_id : pystr;
  sp_parent_span_id : option pystr;
  sp_kind : pystr;
  sp_name : pystr;
  sp_start_time : pyfloat;
  sp_end_time : option pyfloat;
  sp_attributes : json;
}.

(** The heap of span objects, and the tracer's dictionaries by run; a span object
    is referred to by its place on the heap. *)
Record Tracer := {
  heap : list TraceSpan;
  _spans : list (pystr * list nat);
  _by_id : list (pystr * list (pystr * nat));
  _open_stacks : list (pystr * list pystr);
  _run_spans : list (pystr * pystr);
  _turn_spans : list (pystr * pystr);
  _tool_spans : list (pystr * list (pystr * pystr));
  _retry_spans : list (pystr * list (pystr * pystr));
}.

Definition new_tracer : Tracer := {|
  heap := []; _spans := []; _by_id := []; _open_stacks := []; _run_spans := []; _turn_spans := []; _tool_spans := []; _retry_spans := [] |}.

(** [str(uuid.uuid4())] and [time.monotonic()]. *)
Class TraceHost (W : Type) := {
  span_uuid : W -> pystr * W;
  span_clock : W -> pyfloat * W;
}.

Definition set_heap f s : Tracer := {| heap := f (heap s); _spans := _spans s; _by_id := _by_id s; _open_stacks := _open_stacks s;
  _run_spans := _run_spans s; _turn_spans := _turn_spans s; _tool_spans := _tool_spans s; _retry_spans := _retry_spans s |}.
Definition set_stacks f s : Tracer := {| heap := heap s; _spans := _spans s; _by_id := _by_id s; _open_stacks := f (_open_stacks s);
  _run_spans := _run_spans s; _turn_spans := _turn_spans s; _tool_spans := _tool_spans s; _retry_spans := _retry_spans s |}.
Definition set_turns f s : Tracer := {| heap := heap s; _spans := _spans s; _by_id := _by_id s; _open_stacks := _open_stacks s;
  _run_spans := _run_spans s; _turn_spans := f (_turn_spans s); _tool_spans := _tool_spans s; _retry_spans := _retry_spans s |}.
Definition set_tools f s : Tracer := {| heap := heap s; _spans := _spans s; _by_id := _by_id s; _open_stacks := _open_stacks s;
  _run_spans := _run_spans s; _turn_spans := _turn_spans s; _tool_spans := f (_tool_spans s); _retry_spans := _retry_spans s |}.
Definition set_retries f s : Tracer := {| heap := heap s; _spans := _spans s; _by_id := _by_id s; _open_stacks := _open_stacks s;
  _run_spans := _run_spans s; _turn_spans := _turn_spans s; _tool_spans := _tool_spans s; _retry_spans := f (_retry_spans s) |}.

(** [isinstance(x, str)] of a field of the payload. *)
Definition str_field (k : pystr) (payload : jdict) : option pystr := match dict_get k payload with Some (JStr s) => Some s | _ => None end.

Section Tracing.
Context `{PyRuntime, SecretPatterns} {W : Type} `{!TraceHost W}.

(** What a method does to the tracer and to the world. *)
Abbreviation tracing A := (py_effect (Tracer * W) A).

Definition the_tracer : tracing Tracer := fun st => (Ok st.1, st).
Definition update (f : Tracer -> Tracer) : tracing unit := fun '(s, w) => (Ok tt, (f s, w)).
Definition new_id : tracing pystr := fun '(s, w) => let '(x, w) := span_uuid w in (Ok x, (s, w)).
Definition now : tracing pyfloat := fun '(s, w) => let '(x, w) := span_clock w in (Ok x, (s, w)).

(** [d[key]] *)
Definition dict_item {V} (key : pystr) (d : list (pystr * V)) : tracing V :=
  match dict_get key d with Some v => eret v | None => eraise (key_error key) end.

(** The object that [TraceSpan(...)] makes, and where it is. *)
Definition _new_span (parent_span_id : option pystr) (kind name : pystr) (payload : jdict) : tracing (TraceSpan * nat) :=
  id <~ new_id ;;
  start <~ now ;;
  s <~ the_tracer ;;
  let span := {| sp_span_id := id; sp_parent_span_id := parent_span_id; sp_kind := kind; sp_name := name; sp_start_time := start;
                 sp_end_time := None; sp_attributes := redact_value (JObj payload) |} in
  _ <~ update (set_heap (fun h => h ++ [span])) ;;
  eret (span, length (heap s)).

Definition _append (run_id parent_span_id kind name : pystr) (payload : jdict) : tracing TraceSpan :=
  new <~ _new_span (Some parent_span_id) kind name payload ;;
  let '(span, ref) := new in
  s <~ the_tracer ;;
  spans <~ dict_item run_id (_spans s) ;;
  by_id <~ dict_item run_id (_by_id s) ;;
  stack <~ dict_item run_id (_open_stacks s) ;;
  _ <~ update (fun s => {| heap := heap s; _spans := dict_set run_id (spans ++ [ref]) (_spans s);
         _by_id := dict_set run_id (dict_set (sp_span_id span) ref by_id) (_by_id s);
         _open_stacks := dict_set run_id (stack ++ [sp_span_id span]) (_open_stacks s);
         _run_spans := _run_spans s; _turn_spans := _turn_spans s; _tool_spans := _tool_spans s; _retry_spans := _retry_spans s |}) ;;
  eret span.

(** [max(time.monotonic(), span.start_time + _EPSILON_SECONDS)] *)
Definition end_after (start clock : pyfloat) : pyfloat :=
  let least := fl_add start _EPSILON_SECONDS in if fl_lt clock least then least else clock.

Definition ended (at_time : pyfloat) (sp : TraceSpan) : TraceSpan := {|
  sp_span_id := sp_span_id sp; sp_parent_span_id := sp_parent_span_id sp; sp_kind := sp_kind sp; sp_name := sp_name sp;
  sp_start_time := sp_start_time sp; sp_end_time := Some at_time; sp_attributes := sp_attributes sp |}.

(** The object a span id of a run names. *)
Definition span_ref (run_id span_id : pystr) (s : Tracer) : option nat := dict_get span_id (default [] (dict_get run_id (_by_id s))).

Definition stack_of (run_id : pystr) (s : Tracer) : list pystr := default [] (dict_get run_id (_open_stacks s)).

Definition unstack (run_id span_id : pystr) (s : Tracer) : Tracer :=
  match dict_get run_id (_open_stacks s) with
  | Some stack => if elem_b span_id stack then set_stacks (dict_set run_id (remove_first span_id stack)) s else s
  | None => s
  end.

Definition _close (run_id span_id : pystr) : tracing unit :=
  s <~ the_tracer ;;
  match span_ref run_id span_id s with
  | None => eret tt
  | Some ref =>
    match heap s !! ref with
    | Some span =>
      match sp_end_time span with
      | Some _ => eret tt
      | None =>
        clock <~ now ;;
        _ <~ update (set_heap (fun h => <[ref := ended (end_after (sp_start_time span) clock) span]> h)) ;;
        update (unstack run_id span_id)
      end
    | None => eret tt
    end
  end.

(** The loop over [reversed(stack)], which removes from the list it runs over: the
    iterator holds an index, and stops when the list has become shorter than it. *)
Fixpoint close_from (run_id : pystr) (k : nat) : tracing unit :=
  match k with
  | O => eret tt
  | S i =>
    s <~ the_tracer ;;
    match stack_of run_id s !! i with
    | Some span_id => _ <~ _close run_id span_id ;; close_from run_id i
    | None => eret tt
    end
  end.

Definition _finish_all (run_id : pystr) : tracing unit :=
  s <~ the_tracer ;;
  _ <~ close_from run_id (length (stack_of run_id s)) ;;
  _ <~ update (set_turns (dict_pop run_id)) ;;
  _ <~ update (set_tools (dict_pop run_id)) ;;
  update (set_retries (dict_pop run_id)).

(** [if x is not None: self._close(run_id, x)] *)
Definition close_if (run_id : pystr) (span_id : option pystr) : tracing unit :=
  match span_id with Some id => _close run_id id | None => eret tt end.

Definition _start_run (run_id : pystr) (payload : jdict) : tracing unit :=
  s <~ the_tracer ;;
  _ <~ (if dict_has run_id (_run_spans s) then _finish_all run_id else eret tt) ;;
  new <~ _new_span None (u "run") (u "kinetic.run") payload ;;
  let '(span, ref) := new in
  let id := sp_span_id span in
  update (fun s => {| heap := heap s; _spans := dict_set run_id [ref] (_spans s); _by_id := dict_set run_id [(id, ref)] (_by_id s);
    _open_stacks := dict_set run_id [id] (_open_stacks s); _run_spans := dict_set run_id id (_run_spans s); _turn_spans := _turn_spans s;
    _tool_spans := dict_set run_id [] (_tool_spans s); _retry_spans := dict_set run_id [] (_retry_spans s) |}).

Definition _start_turn (run_id : pystr) (payload : jdict) : tracing unit :=
  s <~ the_tracer ;;
  match dict_get run_id (_run_spans s) with
  | None => eret tt
  | Some root =>
    _ <~ update (set_turns (dict_pop run_id)) ;;
    _ <~ close_if run_id (dict_get run_id (_turn_spans s)) ;;
    span <~ _append run_id root (u "turn") (u "kinetic.turn") payload ;;
    update (set_turns (dict_set run_id (sp_span_id span)))
  end.

(** [self._turn_spans.get(run_id, self._run_spans[run_id])], of a run whose span is [root]. *)
Definition current_parent (run_id root : pystr) (s : Tracer) : pystr := default root (dict_get run_id (_turn_spans s)).

Definition _start_tool (run_id : pystr) (payload : jdict) : tracing unit :=
  s <~ the_tracer ;;
  match dict_get run_id (_run_spans s), str_field (u "id") payload with
  | Some root, Some ((_ :: _) as call_id) =>
    span <~ _append run_id (current_parent run_id root s) (u "tool_call") (u "kinetic.tool_call") payload ;;
    s <~ the_tracer ;;
    tools <~ dict_item run_id (_tool_spans s) ;;
    update (set_tools (dict_set run_id (dict_set call_id (sp_span_id span) tools)))
  | _, _ => eret tt
  end.

Definition _start_retry (run_id : pystr) (payload : jdict) : tracing unit :=
  s <~ the_tracer ;;
  match str_field (u "id") payload with
  | Some call_id =>
    match dict_get call_id (default [] (dict_get run_id (_tool_spans s))) with
    | None => eret tt
    | Some tool =>
      retries <~ dict_item run_id (_retry_spans s) ;;
      _ <~ close_if run_id (dict_get call_id retries) ;;
      span <~ _append run_id tool (u "retry") (u "kinetic.tool_retry") payload ;;
      update (set_retries (dict_set run_id (dict_set call_id (sp_span_id span) retries)))
    end
  | None => eret tt
  end.

(** [table.get(run_id, {}).pop(call_id, None)], which changes the table only where it has the run. *)
Definition pop_call (run_id call_id : pystr) (table : list (pystr * list (pystr * pystr))) : list (pystr * list (pystr * pystr)) :=
  match dict_get run_id table with Some calls => dict_set run_id (dict_pop call_id calls) table | None => table end.

Definition call_span (run_id call_id : pystr) (table : list (pystr * list (pystr * pystr))) : option pystr :=
  dict_get call_id (default [] (dict_get run_id table)).

Definition _finish_tool (run_id : pystr) (payload : jdict) : tracing unit :=
  match str_field (u "id") payload with
  | None => eret tt
  | Some call_id =>
    s <~ the_tracer ;;
    _ <~ update (set_retries (pop_call run_id call_id)) ;;
    _ <~ close_if run_id (call_span run_id call_id (_retry_spans s)) ;;
    _ <~ update (set_tools (pop_call run_id call_id)) ;;
    close_if run_id (call_span run_id call_id (_tool_spans s))
  end.

Definition _record_compaction (run_id : pystr) (payload : jdict) : tracing unit :=
  s <~ the_tracer ;;
  match dict_get run_id (_run_spans s) with
  | None => eret tt
  | Some root =>
    span <~ _append run_id (current_parent run_id root s) (u "compaction") (u "kinetic.compaction") payload ;;
    _close run_id (sp_span_id span)
  end.

Definition handle (e : Event) : tracing unit :=
  let payload := e_payload e in
  let typed := fun ty => bool_decide (e_type e = u ty) in
  match str_field (u "run_id") payload with
  | Some ((_ :: _) as run_id) =>
    if typed "agent.run_started" then _start_run run_id payload
    else if typed "agent.turn_started" then _start_turn run_id payload
    else if typed "agent.tool_call_started" then _start_tool run_id payload
    else if typed "agent.tool_retry" then _start_retry run_id payload
    else if typed "agent.tool_call_finished" then _finish_tool run_id payload
    else if typed "context.compacted" then _record_compaction run_id payload
    else if elem_b (e_type e) _TERMINAL_EVENTS then _finish_all run_id
    else eret tt
  | _ => eret tt
  end.

(** The tracer as a subscriber of the bus, which swallows what a handler raises. *)
Definition traced (st : Tracer * W) (e : Event) : Tracer * W := (handle e st).2.
End Tracing.

(** ** Reading a trace *)

Definition spans_for_run (run_id : pystr) (s : Tracer) : list TraceSpan :=
  omap (fun ref => heap s !! ref) (default [] (dict_get run_id (_spans s))).

(** The clones that [as_tree] links: a span, and the ids of its children so far. *)
Definition clones : Type := list (pystr * (TraceSpan * list pystr)).

(** One step of the linking loop; a missing clone is a [KeyError]. *)
Definition link `{PyRuntime} (g : result clones) (span : TraceSpan) : result clones :=
  match sp_parent_span_id span with
  | None => g
  | Some p =>
    g <-! g ;;
    match dict_get p g, dict_get (sp_span_id span) g with
    | Some (parent, children), Some _ => Ok (dict_set p (parent, children ++ [sp_span_id span]) g)
    | None, _ => Err (key_error p)
    | _, None => Err (key_error (sp_span_id span))
    end
  end.

(** A span with its [children]. *)
Inductive span_tree := SpanTree (span : TraceSpan) (subtrees : list span_tree).

(** The object graph below a clone, read to a depth. *)
Fixpoint unfold_clone (depth : nat) (g : clones) (id : pystr) : option span_tree :=
  match depth with
  | O => None
  | S depth =>
    match dict_get id g with
    | Some (span, children) => fmap (SpanTree span) (mapM (unfold_clone depth g) children)
    | None => None
    end
  end.

(** No branch is longer than there are clones. *)
Definition as_tree `{PyRuntime} (run_id : pystr) (s : Tracer) : result span_tree :=
  let unknown := Err (key_error (u "Unknown trace run: " ++ run_id)) in
  let records := default [] (dict_get run_id (_by_id s)) in
  match dict_get run_id (_run_spans s) with
  | None => unknown
  | Some root =>
    if negb (dict_has root records) then unknown
    else
      let initial : clones := omap (fun '(id, ref) => match heap s !! ref with Some span => Some (id, (span, [])) | None => None end) records in
      g <-! foldl link (Ok initial) (spans_for_run run_id s) ;;
      match unfold_clone (length initial) g root with
      | Some tree => Ok tree
      | None => Err (key_error root)
      end
  end.

(** The spans of a tree, parents first. *)
Fixpoint tree_spans (t : span_tree) : list TraceSpan :=
  match t with SpanTree span subtrees => span :: concat (map tree_spans subtrees) end.

(** ** Linked clones form a tree *)

Definition span_node (sp : TraceSpan) : pystr * option pystr := (sp_span_id sp, sp_parent_span_id sp).

(** A run's spans in the order of their creation, as ids with the ids of their
    parents: the root, and then spans whose parent was there before. *)
Inductive grown (root : pystr) : list (pystr * option pystr) -> Prop :=
| GrownRoot : grown root [(root, None)]
| GrownChild nodes id p : grown root nodes -> p ∈ map fst nodes -> id ∉ map fst nodes -> grown root (nodes ++ [(id, Some p)]).

Lemma grown_nodup root nodes : grown root nodes -> NoDup (map fst nodes).
Proof.
  induction 1 as [|nodes id p _ IH _ Hid]; simpl; [apply NoDup_singleton|]. rewrite map_app. apply NoDup_app.
  split; [done|]. split; [|apply NoDup_singleton]. intros y Hy ->%list_elem_of_singleton. done.
Qed.

Lemma grown_root root nodes : grown root nodes -> root ∈ map fst nodes.
Proof. induction 1 as [|nodes id p _ IH _ _]; [left|]. rewrite map_app, elem_of_app. by left. Qed.

Abbreviation tree_ids t := (map sp_span_id (tree_spans t)).

(** What adding a child [x] of [p] does to a list of ids. *)
Definition with_child (p x y : pystr) : list pystr := if decide (y = p) then [y; x] else [y].

Lemma with_child_once p x l : NoDup l -> p ∈ l -> l ≫= with_child p x ≡ₚ x :: l.
Proof.
  intros Hnd Hp. apply list_elem_of_split in Hp as (l1 & l2 & ->).
  assert (l1 ++ p :: l2 ≡ₚ p :: (l1 ++ l2)) as Hl by by rewrite Permutation_middle. set (rest := l1 ++ l2) in *.
  rewrite Hl in Hnd |- *. apply NoDup_cons in Hnd as [Hp _]. clearbody rest. clear Hl.
  assert (rest ≫= with_child p x = rest) as Hr.
  { induction rest as [|y rest IH]; [done|]. cbn. apply not_elem_of_cons in Hp as [Hne Hp]. unfold with_child at 1.
    rewrite decide_False by congruence. cbn. f_equal. exact (IH Hp). }
  cbn. unfold with_child at 1. rewrite decide_True by done. cbn. fold (mbind (M := list) (with_child p x) rest). rewrite Hr. constructor.
Qed.

Section Linking.
Implicit Types g : clones.

Definition names_itself g : Prop := forall i sp children, dict_get i g = Some (sp, children) -> sp_span_id sp = i.

Lemma unfold_below g n i : unfold_clone (S n) g i =
  match dict_get i g with Some (span, children) => fmap (SpanTree span) (mapM (unfold_clone n g) children) | None => None end.
Proof. done. Qed.

(** One link, in terms of the trees below. *)
Lemma unfold_link g p x sp children leaf n i t : names_itself g -> dict_get p g = Some (sp, children) -> dict_get x g = Some (leaf, []) -> x <> p ->
  unfold_clone n g i = Some t ->
  exists t', unfold_clone (S n) (dict_set p (sp, children ++ [x]) g) i = Some t' /\ tree_ids t' ≡ₚ tree_ids t ≫= with_child p x.
Proof.
  intros Hg Hp Hx Hne. set (g' := dict_set p (sp, children ++ [x]) g). revert i t.
  induction n as [|n IH]; intros i t Ht; [done|]. cbn [unfold_clone] in Ht.
  assert (forall l ts, Forall2 (fun y ty => unfold_clone n g y = Some ty) l ts -> exists ts',
    Forall2 (fun y ty => unfold_clone (S n) g' y = Some ty) l ts' /\
    map sp_span_id (concat (map tree_spans ts')) ≡ₚ map sp_span_id (concat (map tree_spans ts)) ≫= with_child p x) as Hl.
  { induction 1 as [|y ty l ts Ey _ (ts' & Hts & Hps)]; [by exists []|]. destruct (IH _ _ Ey) as (ty' & Hty & Hpy).
    exists (ty' :: ts'). split; [by constructor|]. cbn. by rewrite !map_app, bind_app, Hpy, Hps. }
  destruct (dict_get i g) as [[sp' kids]|] eqn:Ei; [|done]. destruct (mapM (unfold_clone n g) kids) as [ts|] eqn:Ek; [|done].
  injection Ht as <-. apply mapM_Some in Ek. destruct (Hl _ _ Ek) as (ts' & Hts & Hps). pose proof (Hg _ _ _ Ei) as Hi.
  destruct (decide (i = p)) as [->|Hip].
  - assert (sp' = sp /\ kids = children) as [-> ->] by by rewrite Hp in Ei; simplify_eq.
    exists (SpanTree sp (ts' ++ [SpanTree leaf []])). split.
    + rewrite unfold_below. unfold g' at 1. rewrite dict_get_set_eq. assert (mapM (unfold_clone (S n) g') (children ++ [x]) =
        Some (ts' ++ [SpanTree leaf []])) as ->; [|done]. apply mapM_Some, Forall2_app; [done|]. constructor; [|constructor].
      rewrite unfold_below. unfold g' at 1. by rewrite dict_get_set_ne, Hx by congruence.
    + cbn. rewrite map_app, concat_app, map_app. cbn. unfold with_child at 1. rewrite decide_True by done. cbn.
      rewrite (Hg _ _ _ Hx), Hi, Hps. constructor. by rewrite Permutation_app_comm.
  - exists (SpanTree sp' ts'). split.
    + rewrite unfold_below. unfold g' at 1. rewrite dict_get_set_ne, Ei by congruence. apply mapM_Some in Hts. by rewrite Hts.
    + cbn. unfold with_child at 1. rewrite decide_False by congruence. cbn. by rewrite Hps.
Qed.

Lemma unfold_spans g n i t : names_itself g -> unfold_clone n g i = Some t ->
  forall sp, sp ∈ tree_spans t -> exists children, dict_get (sp_span_id sp) g = Some (sp, children).
Proof.
  intros Hg. revert i t. induction n as [|n IH]; intros i t Ht sp Hsp; [done|]. cbn [unfold_clone] in Ht.
  destruct (dict_get i g) as [[sp' kids]|] eqn:Ei; [|done]. destruct (mapM (unfold_clone n g) kids) as [ts|] eqn:Ek; [|done].
  injection Ht as <-. cbn in Hsp. apply elem_of_cons in Hsp as [->|Hsp]; [exists kids; by rewrite (Hg _ _ _ Ei)|].
  apply mapM_Some in Ek. apply elem_of_concat_map in Hsp as (t & Ht & Hsp).
  apply list_elem_of_lookup in Ht as [k Hk]. destruct (Forall2_lookup_r _ _ _ _ _ Ek Hk) as (y & _ & Hy). by eapply IH.
Qed.
End Linking.

(** The clones before they are linked. *)
Definition bare (sps : list TraceSpan) : clones := map (fun sp => (sp_span_id sp, (sp, []))) sps.

Lemma bare_get sps sp : NoDup (map sp_span_id sps) -> sp ∈ sps -> dict_get (sp_span_id sp) (bare sps) = Some (sp, []).
Proof.
  intros Hnd Hsp. unfold bare. apply dict_get_in; [by rewrite map_map|]. apply list_elem_of_In, in_map_iff. exists sp.
  split; [done|by apply list_elem_of_In].
Qed.

Lemma bare_names sps : names_itself (bare sps).
Proof.
  intros i sp kids Hi. apply dict_get_elem, list_elem_of_In, in_map_iff in Hi as (sp' & [= <- <- <-] & _). done.
Qed.

Lemma link_grown `{PyRuntime} sps root nodes : NoDup (map sp_span_id sps) -> grown root nodes ->
  forall pre post, sps = pre ++ post -> map span_node pre = nodes ->
  exists g t, foldl link (Ok (bare sps)) pre = Ok g /\ names_itself g /\
    (forall sp, sp ∈ sps -> exists children, dict_get (sp_span_id sp) g = Some (sp, children) /\ (sp_span_id sp ∉ map fst nodes -> children = [])) /\
    unfold_clone (length pre) g root = Some t /\ tree_ids t ≡ₚ map fst nodes.
Proof.
  intros Hnd. induction 1 as [|nodes id p Hg IH Hp Hid]; intros pre post Hsps Hpre.
  - destruct pre as [|sp [|]]; [done| |done]. injection Hpre as Hroot Hnone. exists (bare sps), (SpanTree sp []).
    assert (sp ∈ sps) as Hsp by (rewrite Hsps; left). split; [cbn; unfold link; by rewrite Hnone|].
    split; [apply bare_names|]. split; [intros sp' Hsp'; exists []; split; [by apply bare_get|done]|].
    split; [|by rewrite <- Hroot]. cbn. rewrite <- Hroot, bare_get by done. done.
  - apply fmap_app_inv in Hpre as (pre0 & last & Hpre0 & Hlast & ->). symmetry in Hpre0. destruct last as [|sp [|]]; [done| |done].
    injection Hlast as -> Hpar. symmetry in Hpar. rewrite <- app_assoc in Hsps. cbn in Hsps.
    destruct (IH pre0 (sp :: post) Hsps Hpre0) as (g & t & Hfold & Hnames & Hall & Ht & Hperm).
    destruct (Hall sp) as (no & Hget & Hno); [rewrite Hsps, elem_of_app; right; left|]. rewrite Hno in Hget by done. clear no Hno.
    assert (exists q, q ∈ sps /\ sp_span_id q = p) as (q & Hq & Hqp).
    { rewrite <- Hpre0 in Hp. rewrite map_map in Hp. apply list_elem_of_In, in_map_iff in Hp as (q & <- & Hq). exists q.
      split; [|done]. rewrite Hsps, elem_of_app. left. by apply list_elem_of_In. }
    destruct (Hall q Hq) as (children & Hgq & _). rewrite Hqp in Hgq.
    assert (sp_span_id sp <> p) as Hne by (intros E; by rewrite E in Hid).
    destruct (unfold_link g p (sp_span_id sp) q children sp (length pre0) root t Hnames Hgq Hget Hne Ht) as (t' & Ht' & Hperm').
    exists (dict_set p (q, children ++ [sp_span_id sp]) g), t'. split; [|split; [|split; [|split]]].
    + rewrite foldl_app, Hfold. cbn. unfold link. rewrite Hpar. cbn. by rewrite Hgq, Hget.
    + intros i s k. rewrite dict_get_set. destruct (decide (i = p)) as [->|]; [by intros [= <- _]|apply Hnames].
    + intros s Hs. rewrite dict_get_set, map_app. destruct (decide (sp_span_id s = p)) as [Hsp|Hsp].
      * assert (s = q) as ->; [|exists (children ++ [sp_span_id sp]); split; [done|]; rewrite Hsp; set_solver].
        destruct (Hall s Hs) as (k & Hk & _). rewrite Hsp, Hgq in Hk. by injection Hk.
      * destruct (Hall s Hs) as (k & Hk & Hkn). exists k. split; [done|]. set_solver.
    + rewrite length_app. cbn. by rewrite Nat.add_1_r.
    + rewrite Hperm', map_app, Hperm. cbn. rewrite with_child_once by (done || by eapply grown_nodup).
      apply Permutation_cons_append.
Qed.

(** ** What the tracer keeps of a run *)

(** A generator never repeats an id: [minted w] are those given out before. *)
Class LawfulIds (W : Type) `{!TraceHost W} := {
  minted : W -> pystr -> Prop;
  uuid_fresh w id w' : span_uuid w = (id, w') -> ~ minted w id /\ minted w' id;
  uuid_minted w id w' x : span_uuid w = (id, w') -> minted w x -> minted w' x;
  clock_minted w t w' x : span_clock w = (t, w') -> minted w x -> minted w' x;
}.

(** Objects stay what they are, and ended spans stay ended. *)
Definition heap_le (h h' : list TraceSpan) : Prop := forall ref sp, h !! ref = Some sp ->
  exists sp', h' !! ref = Some sp' /\ span_node sp' = span_node sp /\ (sp_end_time sp <> None -> sp_end_time sp' <> None).

#[export] Instance heap_le_preorder : PreOrder heap_le.
Proof.
  split; [intros h ref sp Hsp; by exists sp|]. intros h1 h2 h3 H12 H23 ref sp Hsp.
  destruct (H12 _ _ Hsp) as (sp2 & H2 & Hn2 & He2). destruct (H23 _ _ H2) as (sp3 & H3 & Hn3 & He3).
  exists sp3. split; [done|]. split; [congruence|auto].
Qed.

Lemma heap_le_app h h' : heap_le h (h ++ h').
Proof. intros ref sp Hsp. exists sp. split; [by apply lookup_app_l_Some|done]. Qed.

Lemma heap_le_ended h ref sp t : h !! ref = Some sp -> heap_le h (<[ref := ended t sp]> h).
Proof.
  intros Hsp ref' sp' Hsp'. destruct (decide (ref' = ref)) as [->|Hne].
  - assert (sp' = sp) as -> by congruence. exists (ended t sp). split; [|by split].
    apply list_lookup_insert_Some. left. split; [done|]. split; [done|]. by apply lookup_lt_Some in Hsp.
  - exists sp'. rewrite list_lookup_insert_ne by done. done.
Qed.

Definition known (r x : pystr) (s : Tracer) : Prop := x ∈ map fst (default [] (dict_get r (_by_id s))).

(** A span that has not ended. *)
Definition open (r x : pystr) (s : Tracer) : Prop := exists ref sp, span_ref r x s = Some ref /\ heap s !! ref = Some sp /\ sp_end_time sp = None.

Section Invariant.
Context {W : Type} `{!TraceHost W, !LawfulIds W}.
Implicit Types (w : W) (s : Tracer) (r : pystr).

(** The spans of a run, by creation and by id, and its stack of open spans. *)
Record kept_run (m : pystr -> Prop) (h : list TraceSpan) (root : pystr) (l : list nat) (d : list (pystr * nat)) (st : list pystr) : Prop := {
  kr_nodes : exists nodes, grown root nodes /\ Forall2 (fun ref n => exists sp, h !! ref = Some sp /\ span_node sp = n) l nodes /\
    d = zip (map fst nodes) l /\ Forall m (map fst nodes);
  kr_stack : NoDup st;
  kr_known x : x ∈ st -> x ∈ map fst d;
  kr_open x ref sp : dict_get x d = Some ref -> h !! ref = Some sp -> sp_end_time sp = None -> x ∈ st;
}.

Definition run_kept (m : pystr -> Prop) s r : Prop :=
  match dict_get r (_run_spans s) with
  | Some root => exists l d st, dict_get r (_spans s) = Some l /\ dict_get r (_by_id s) = Some d /\ dict_get r (_open_stacks s) = Some st /\
                                kept_run m (heap s) root l d st
  | None => dict_get r (_spans s) = None /\ dict_get r (_by_id s) = None /\ dict_get r (_open_stacks s) = None
  end.

(** The open turn and the open calls of a run are spans of it. *)
Definition tables_kept s : Prop := (forall r t, dict_get r (_turn_spans s) = Some t -> known r t s) /\
  (forall r c t, call_span r c (_tool_spans s) = Some t -> known r t s).

Definition inv (st : Tracer * W) : Prop := (forall r, run_kept (minted st.2) st.1 r) /\ tables_kept st.1.

Lemma zip_get (nodes : list (pystr * option pystr)) (l : list nat) (x : pystr) ref : dict_get x (zip (map fst nodes) l) = Some ref ->
  exists k n, nodes !! k = Some n /\ l !! k = Some ref /\ n.1 = x.
Proof.
  intros Hx. apply dict_get_elem, list_elem_of_lookup in Hx as [k Hk]. apply lookup_zip_with_Some in Hk as (y & ref' & [= -> ->] & Hk & Hl).
  rewrite list_lookup_fmap in Hk. apply fmap_Some in Hk as (n & Hn & ->). by exists k, n.
Qed.

Lemma zip_keys (nodes : list (pystr * option pystr)) (l : list nat) : length l = length nodes -> map fst (zip (map fst nodes) l) = map fst nodes.
Proof. intros Hl. apply fst_zip. rewrite length_map. lia. Qed.

(** The object a known id refers to has that id. *)
Lemma kept_ref m h root l d st x ref : kept_run m h root l d st -> dict_get x d = Some ref ->
  exists sp, h !! ref = Some sp /\ sp_span_id sp = x /\ ref ∈ l.
Proof.
  intros [(nodes & _ & Hl & -> & _) _ _ _] Hx. apply zip_get in Hx as (k & n & Hn & Hk & <-).
  destruct (Forall2_lookup_lr _ _ _ _ _ _ Hl Hk Hn) as (sp & Hsp & <-). exists sp. split; [done|]. split; [done|].
  by eapply list_elem_of_lookup_2.
Qed.

Lemma kept_run_mono (m m' : pystr -> Prop) h h' root l d st : (forall x, m x -> m' x) -> heap_le h h' ->
  kept_run m h root l d st -> kept_run m' h' root l d st.
Proof.
  intros Hm Hh Hk. pose proof (fun x ref => kept_ref _ _ _ _ _ _ x ref Hk) as Href. destruct Hk as [(nodes & Hg & Hl & Hd & Hf) Hs Hi Ho]. split; [|done|done|].
  - exists nodes. split; [done|]. split; [|split; [done|by eapply Forall_impl]]. eapply Forall2_impl; [done|].
    intros ref n (sp & Hsp & <-). destruct (Hh _ _ Hsp) as (sp' & Hsp' & Hn & _). by exists sp'.
  - intros x ref sp' Hx Hsp' He. destruct (Href _ _ Hx) as (sp & Hsp & _ & _). destruct (Hh _ _ Hsp) as (sp2 & Hsp2 & _ & Hend).
    assert (sp2 = sp') as -> by congruence. apply (Ho x ref sp Hx Hsp). destruct (sp_end_time sp); [|done]. by destruct Hend.
Qed.

Lemma run_kept_ext (m m' : pystr -> Prop) s s' r : (forall x, m x -> m' x) -> heap_le (heap s) (heap s') ->
  dict_get r (_run_spans s') = dict_get r (_run_spans s) -> dict_get r (_spans s') = dict_get r (_spans s) ->
  dict_get r (_by_id s') = dict_get r (_by_id s) -> dict_get r (_open_stacks s') = dict_get r (_open_stacks s) ->
  run_kept m s r -> run_kept m' s' r.
Proof.
  intros Hm Hh Hr Hsp Hb Hst. unfold run_kept. rewrite Hr, Hsp, Hb, Hst. destruct (dict_get r (_run_spans s)) as [root|]; [|done].
  intros (l & d & st & -> & -> & -> & Hk). exists l, d, st. do 3 (split; [done|]). by eapply kept_run_mono.
Qed.

(** ** Every method keeps it *)

Context `{PyRuntime, SecretPatterns}.

(** The tables of the runs, turns and calls are the same. *)
Definition same_tables s s' : Prop := _run_spans s' = _run_spans s /\ _turn_spans s' = _turn_spans s /\ _tool_spans s' = _tool_spans s /\
  _retry_spans s' = _retry_spans s.

Lemma new_span_ok parent kind name payload s w : exists sp w', _new_span parent kind name payload (s, w) =
    (Ok (sp, length (heap s)), (set_heap (fun h => h ++ [sp]) s, w')) /\ sp_parent_span_id sp = parent /\
  ~ minted w (sp_span_id sp) /\ minted w' (sp_span_id sp) /\ (forall x, minted w x -> minted w' x).
Proof.
  unfold _new_span, ebind, new_id, now, the_tracer, update, eret. destruct (span_uuid w) as [id w1] eqn:E1.
  destruct (span_clock w1) as [t w2] eqn:E2. eexists _, w2. split; [done|]. split; [done|]. cbn.
  destruct (uuid_fresh _ _ _ E1) as [Hf Hm]. split; [done|]. split; [by eapply clock_minted|].
  intros x Hx. eapply clock_minted; [done|]. by eapply uuid_minted.
Qed.

Lemma span_append_ok r root p kind name payload s w : inv (s, w) -> dict_get r (_run_spans s) = Some root -> known r p s ->
  exists sp s' w', _append r p kind name payload (s, w) = (Ok sp, (s', w')) /\ inv (s', w') /\ same_tables s s' /\
    known r (sp_span_id sp) s' /\ (forall r' x, known r' x s -> known r' x s').
Proof.
  intros [Hruns [Hturn Htool]] Hr Hp. pose proof (Hruns r) as Hk. unfold run_kept in Hk. cbn in Hk. rewrite Hr in Hk.
  destruct Hk as (l & d & st & Hl & Hd & Hst & Hk). unfold known in Hp. rewrite Hd in Hp. cbn in Hp.
  destruct (new_span_ok (Some p) kind name payload s w) as (sp & w' & Hnew & Hpar & Hf & Hm & Hmono).
  assert (sp_span_id sp ∉ map fst d) as Hnd.
  { destruct (kr_nodes _ _ _ _ _ _ Hk) as (nodes & _ & Hl2 & -> & Hall). intros Hin. apply Hf.
    rewrite Forall_forall in Hall. apply Hall. apply list_elem_of_fmap in Hin as ([x ref] & -> & Hin).
    by apply elem_of_zip_l in Hin. }
  unfold _append, ebind at 1. rewrite Hnew. unfold ebind, the_tracer, dict_item. cbn. rewrite Hl, Hd, Hst. unfold eret, update.
  eexists _, _, w'. split; [reflexivity|]. set (ref := length (heap s)).
  assert (heap_le (heap s) (heap s ++ [sp])) as Hheap by apply heap_le_app.
  assert (forall r' x, known r' x s -> x ∈ map fst (default [] (dict_get r' (dict_set r (dict_set (sp_span_id sp) ref d) (_by_id s))))) as Hkn.
  { intros r' x Hx. rewrite dict_get_set. unfold known in Hx. destruct (decide (r' = r)) as [->|]; [|done]. rewrite Hd in Hx. cbn in Hx |- *.
    rewrite dict_set_absent, map_app, elem_of_app; [by left|]. apply eq_None_not_Some. by rewrite dict_get_key. }
  split; [|split; [done|split; [|done]]].
  - split; [|split; [intros r' t Ht; by apply Hkn, Hturn|intros r' c t Ht; by apply Hkn, (Htool r' c)]].
    intros r'. cbn. destruct (decide (r' = r)) as [->|Hne].
    + unfold run_kept. cbn. rewrite Hr, !dict_get_set_eq. eexists _, _, _. split; [done|]. split; [done|]. split; [done|].
      assert (dict_get (sp_span_id sp) d = None) as Hnone by (apply eq_None_not_Some; by rewrite dict_get_key).
      rewrite dict_set_absent by done. apply (kept_run_mono _ (minted w') _ (heap s ++ [sp])) in Hk as Hk'; [|done|done].
      destruct Hk' as [(nodes & Hg & Hl2 & Hdz & Hall) Hs Hi Ho]. pose proof (Forall2_length _ _ _ Hl2) as Hlen. split.
      * exists (nodes ++ [(sp_span_id sp, Some p)]). split; [|split; [|split]].
        -- constructor; [done| |].
           ++ by rewrite Hdz, zip_keys in Hp.
           ++ by rewrite Hdz, zip_keys in Hnd.
        -- apply Forall2_app; [done|]. constructor; [|constructor]. exists sp. split; [by apply list_lookup_middle|].
           unfold span_node. by rewrite Hpar.
        -- rewrite map_app, zip_with_app; [by rewrite Hdz|]. by rewrite length_map, Hlen.
        -- rewrite map_app. apply Forall_app. split; [done|]. by constructor.
      * apply NoDup_app. split; [done|]. split; [|apply NoDup_singleton]. intros x Hx ->%list_elem_of_singleton. by apply Hnd, Hi.
      * intros x. rewrite map_app, !elem_of_app. intros [Hx| ->%list_elem_of_singleton]; [left; by apply Hi|right; left].
      * intros x ref' sp' Hx Hsp' He. rewrite elem_of_app. destruct (decide (x = sp_span_id sp)) as [->|Hxn]; [right; left|]. left.
        apply (Ho x ref' sp'); [|done|done]. rewrite <- (dict_set_absent (sp_span_id sp) ref d Hnone), dict_get_set_ne in Hx by done. done.
    + eapply run_kept_ext, Hruns; cbn; [done|done|done|by rewrite dict_get_set_ne by done..].
  - unfold known. cbn. rewrite dict_get_set_eq. cbn. apply dict_set_has.
Qed.

Lemma remove_first_nodup (x : pystr) l : NoDup l -> NoDup (remove_first x l) /\ forall y, y ∈ remove_first x l <-> y ∈ l /\ y <> x.
Proof.
  induction 1 as [|y l Hy Hnd [IH IHe]]; cbn; [split; [constructor|]; intros y; rewrite elem_of_nil; tauto|].
  destruct (decide (y = x)) as [->|Hne].
  - split; [done|]. intros y. rewrite elem_of_cons. split; [|by intros [[->|] Hn]]. intros Hin. split; [by right|]. by intros ->.
  - split; [constructor; [|done]; rewrite IHe; tauto|]. intros z. rewrite !elem_of_cons, IHe. naive_solver.
Qed.

Lemma remove_first_take (x : pystr) i l : x ∉ take i l -> take i (remove_first x l) = take i l.
Proof.
  revert l. induction i as [|i IH]; intros [|y l] Hx; cbn in *; try done. apply not_elem_of_cons in Hx as [Hne Hx].
  rewrite decide_False by congruence. cbn. by rewrite IH.
Qed.

Lemma remove_first_length (x : pystr) l : length l <= S (length (remove_first x l)).
Proof. induction l as [|y l IH]; cbn; [lia|]. destruct (decide (y = x)); cbn; lia. Qed.

(** What a call of [_close] leaves open. *)
Definition closes r x s s' : Prop := (forall y, open r y s' -> open r y s /\ y <> x) /\
  (stack_of r s' = stack_of r s \/ stack_of r s' = remove_first x (stack_of r s)).

Lemma span_close_ok r x s w : inv (s, w) -> exists s' w', _close r x (s, w) = (Ok tt, (s', w')) /\ inv (s', w') /\ same_tables s s' /\
  _by_id s' = _by_id s /\ closes r x s s'.
Proof.
  intros Hinv. pose proof Hinv as [Hruns [Hturn Htool]]. unfold _close, ebind, the_tracer, eret, update.
  assert (~ open r x s -> exists s' w', (Ok tt, (s, w)) = (Ok tt, (s', w')) /\ inv (s', w') /\ same_tables s s' /\ _by_id s' = _by_id s /\ closes r x s s')
    as Hnothing.
  { intros Hno. exists s, w. do 4 (split; [done|]). split; [|by left]. intros y Hy. split; [done|]. by intros ->. }
  cbn. destruct (span_ref r x s) as [ref|] eqn:Href; [|apply Hnothing; intros (? & ? & ? & _); congruence].
  destruct (heap s !! ref) as [sp|] eqn:Hsp; [|apply Hnothing; intros (? & ? & ? & ? & _); congruence].
  destruct (sp_end_time sp) eqn:He; [apply Hnothing; intros (? & ? & ? & ? & ?); congruence|].
  cbn. unfold now. destruct (span_clock w) as [t w'] eqn:Hw. clear Hnothing.
  set (h' := <[ref := ended (end_after (sp_start_time sp) t) sp]> (heap s)).
  assert (heap_le (heap s) h') as Hheap by by apply heap_le_ended.
  pose proof (Hruns r) as Hk. unfold run_kept in Hk. cbn in Hk. unfold span_ref in Href.
  destruct (dict_get r (_run_spans s)) as [root|] eqn:Hr; [|destruct Hk as (_ & Hd & _); by rewrite Hd in Href].
  destruct Hk as (l & d & st & Hl & Hd & Hst & Hk). rewrite Hd in Href. cbn in Href.
  destruct (kept_ref _ _ _ _ _ _ _ _ Hk Href) as (sp' & Hsp' & Hid & Hin). assert (sp' = sp) as -> by congruence. clear Hsp'.
  pose proof (kr_open _ _ _ _ _ _ Hk _ _ _ Href Hsp He) as Hx.
  assert (elem_b x st = true) as Hb by by apply bool_decide_eq_true.
  eexists _, w'. split; [reflexivity|]. unfold unstack. cbn. rewrite Hst, Hb.
  destruct (remove_first_nodup x _ (kr_stack _ _ _ _ _ _ Hk)) as [Hnd Hrem].
  assert (forall y, open r y (set_stacks (dict_set r (remove_first x st)) (set_heap (fun h => h') s)) -> open r y s /\ y <> x) as Hopen.
  { intros y (ref' & sp' & Hy & Hsp' & He'). unfold open. unfold span_ref in *. cbn in *. rewrite Hd in *. cbn in *.
    destruct (decide (ref' = ref)) as [->|Hne].
    - assert (ref < length (heap s)) by by eapply lookup_lt_Some. unfold h' in Hsp'. rewrite list_lookup_insert_eq in Hsp' by done.
      injection Hsp' as <-. done.
    - unfold h' in Hsp'. rewrite list_lookup_insert_ne in Hsp' by done. split; [by exists ref', sp'|]. intros ->. congruence. }
  split; [|split; [done|split; [done|split; [done|]]]].
  - split; [|split; [intros r' y Hy; by apply Hturn|intros r' c y Hy; by apply (Htool r' c)]].
    intros r'. cbn. assert (forall y, minted w y -> minted w' y) as Hm by (intros y; by eapply clock_minted).
    destruct (decide (r' = r)) as [->|Hne]; [|eapply run_kept_ext, Hruns; cbn; try done; by rewrite dict_get_set_ne].
    unfold run_kept. cbn. rewrite Hr, dict_get_set_eq. exists l, d, (remove_first x st). do 3 (split; [done|]).
    apply (kept_run_mono _ (minted w') _ h') in Hk as [Hn _ Hi Ho]; [|done|done]. split; [done|done| |].
    + intros y Hy. apply Hi. by apply Hrem.
    + intros y ref' sp' Hy Hsp' He'. apply Hrem. split; [by eapply Ho|]. apply Hopen. exists ref', sp'. unfold span_ref. cbn. by rewrite Hd.
  - right. unfold stack_of. cbn. by rewrite dict_get_set_eq, Hst.
Qed.

Lemma close_if_ok r x s w : inv (s, w) -> exists s' w', close_if r x (s, w) = (Ok tt, (s', w')) /\ inv (s', w') /\ same_tables s s' /\
  _by_id s' = _by_id s.
Proof.
  destruct x as [x|]; [|by exists s, w]. intros Hinv. destruct (span_close_ok r x s w Hinv) as (s' & w' & Hc & Hi & Ht & Hb & _). by exists s', w'.
Qed.

(** The tables can change as long as they name spans of their runs. *)
Lemma inv_tables s s' w : inv (s, w) -> heap s' = heap s -> _spans s' = _spans s -> _by_id s' = _by_id s ->
  _open_stacks s' = _open_stacks s -> _run_spans s' = _run_spans s -> tables_kept s' -> inv (s', w).
Proof.
  intros [Hruns _] Hh Hs Hb Hst Hr Ht. split; [|done]. intros r. eapply run_kept_ext, Hruns; cbn; try done; [by rewrite Hh|congruence..].
Qed.

Lemma stack_facts r s w : inv (s, w) -> NoDup (stack_of r s) /\ forall x, open r x s -> x ∈ stack_of r s.
Proof.
  intros [Hruns _]. specialize (Hruns r). unfold run_kept in Hruns. unfold stack_of, open, span_ref. cbn in Hruns.
  destruct (dict_get r (_run_spans s)) as [root|].
  - destruct Hruns as (l & d & st & _ & -> & -> & Hk). cbn. split; [by eapply kr_stack|].
    intros x (ref & sp & Hx & Hsp & He). by eapply kr_open.
  - destruct Hruns as (_ & -> & ->). cbn. split; [constructor|]. intros x (ref & sp & Hx & _). done.
Qed.

Lemma close_from_ok r k s w : inv (s, w) -> k <= length (stack_of r s) -> (forall x, open r x s -> x ∈ take k (stack_of r s)) ->
  exists s' w', close_from r k (s, w) = (Ok tt, (s', w')) /\ inv (s', w') /\ same_tables s s' /\ _by_id s' = _by_id s /\ forall x, ~ open r x s'.
Proof.
  revert s w. induction k as [|i IH]; intros s w Hinv Hlen Hopen.
  { exists s, w. do 4 (split; [done|]). intros x Hx. apply Hopen in Hx. by rewrite take_0, elem_of_nil in Hx. }
  destruct (lookup_lt_is_Some_2 (stack_of r s) i) as [x Hx]; [lia|]. cbn [close_from]. unfold ebind at 1, the_tracer. cbn -[close_from].
  rewrite Hx. destruct (span_close_ok r x s w Hinv) as (s1 & w1 & Hc & Hi & Ht & Hb & Ho & Hst). unfold ebind at 1. rewrite Hc.
  destruct (stack_facts r s w Hinv) as [Hnd _]. rewrite (take_S_r _ _ _ Hx) in Hopen.
  assert (x ∉ take i (stack_of r s)) as Hfirst.
  { rewrite <- (take_drop_middle _ _ _ Hx) in Hnd. apply NoDup_app in Hnd as (_ & Hnd & _). intros Hin. apply (Hnd x Hin). left. }
  assert (take i (stack_of r s1) = take i (stack_of r s) /\ i <= length (stack_of r s1)) as [Htake Hl].
  { destruct Hst as [->| ->]; [split; [done|lia]|]. rewrite remove_first_take by done. split; [done|].
    pose proof (remove_first_length x (stack_of r s)). lia. }
  destruct (IH s1 w1 Hi Hl) as (s' & w' & Hf & Hi' & Ht' & Hb' & Ho').
  { intros y Hy. destruct (Ho y Hy) as [Hy' Hne]. apply Hopen in Hy'. rewrite Htake. apply elem_of_app in Hy' as [Hy'|Hy']; [done|].
    apply list_elem_of_singleton in Hy'. congruence. }
  exists s', w'. split; [done|]. split; [done|]. split; [|split; [congruence|done]].
  destruct Ht as (? & ? & ? & ?), Ht' as (? & ? & ? & ?). repeat split; congruence.
Qed.

Lemma finish_all_ok r s w : inv (s, w) -> exists s' w', _finish_all r (s, w) = (Ok tt, (s', w')) /\ inv (s', w') /\
  _run_spans s' = _run_spans s /\ dict_get r (_turn_spans s') = None /\ forall x, ~ open r x s'.
Proof.
  intros Hinv. destruct (stack_facts r s w Hinv) as [_ Hopen].
  destruct (close_from_ok r (length (stack_of r s)) s w Hinv) as (s1 & w1 & Hc & Hi & (Hr & Ht & Hto & Hre) & Hb & Ho); [done|by rewrite firstn_all|].
  unfold _finish_all, ebind at 1, the_tracer. cbn -[close_from]. unfold ebind at 1. rewrite Hc. unfold ebind, update.
  eexists _, w1. split; [done|]. cbn -[dict_pop]. split; [|split; [done|split; [by rewrite dict_get_pop, decide_True by done|done]]].
  eapply inv_tables; [done|done..|]. destruct Hi as [_ [Ht1 Ht2]]. split; cbn -[dict_pop call_span].
  - intros r' t. rewrite dict_get_pop. destruct (decide (r' = r)); [done|]. apply Ht1.
  - intros r' c t. unfold call_span. rewrite dict_get_pop. destruct (decide (r' = r)); [done|]. apply Ht2.
Qed.

Definition keeps {A} (m : py_effect (Tracer * W) A) : Prop := forall st, inv st -> inv (m st).2.

Lemma known_run r x s w : inv (s, w) -> known r x s -> exists root, dict_get r (_run_spans s) = Some root /\ known r root s.
Proof.
  intros [Hruns _] Hx. specialize (Hruns r). unfold run_kept, known in *. cbn in Hruns. destruct (dict_get r (_run_spans s)) as [root|].
  - exists root. split; [done|]. destruct Hruns as (l & d & st & _ & -> & _ & [(nodes & Hg & Hl & -> & _) _ _ _]). cbn.
    apply Forall2_length in Hl. rewrite zip_keys by done. by apply grown_root.
  - destruct Hruns as (_ & Hd & _). rewrite Hd in Hx. by apply not_elem_of_nil in Hx.
Qed.

Lemma run_known r root s w : inv (s, w) -> dict_get r (_run_spans s) = Some root -> known r root s.
Proof.
  intros Hinv Hr. destruct (known_run r root s w Hinv) as (root' & Hr' & Hk); [|congruence].
  destruct Hinv as [Hruns _]. specialize (Hruns r). unfold run_kept in Hruns. cbn in Hruns. rewrite Hr in Hruns.
  destruct Hruns as (l & d & st & _ & Hd & _ & [(nodes & Hg & Hl & -> & _) _ _ _]). unfold known. rewrite Hd. cbn.
  apply Forall2_length in Hl. rewrite zip_keys by done. by apply grown_root.
Qed.

Lemma parent_known r root s w : inv (s, w) -> dict_get r (_run_spans s) = Some root -> known r (current_parent r root s) s.
Proof.
  intros Hinv Hr. unfold current_parent. destruct (dict_get r (_turn_spans s)) as [t|] eqn:Ht; [|by eapply run_known].
  destruct Hinv as [_ [Hturn _]]. by apply Hturn.
Qed.

(** A table in which a call of a run gets a span of the run, or loses the one it has. *)
Lemma call_span_set r c x tools (table : list (pystr * list (pystr * pystr))) r' c' t : dict_get r table = Some tools ->
  call_span r' c' (dict_set r (dict_set c x tools) table) = Some t -> (r' = r /\ t = x) \/ call_span r' c' table = Some t.
Proof.
  intros Hr. unfold call_span. rewrite dict_get_set. destruct (decide (r' = r)) as [->|]; [|by right]. rewrite Hr. cbn. rewrite dict_get_set.
  destruct (decide (c' = c)); [intros [= <-]; by left|by right].
Qed.

Lemma call_span_pop r c table r' c' t : call_span r' c' (pop_call r c table) = Some t -> call_span r' c' table = Some t.
Proof.
  unfold pop_call, call_span. destruct (dict_get r table) as [calls|] eqn:Hr; [|done]. rewrite dict_get_set.
  destruct (decide (r' = r)) as [->|]; [|done]. cbn. rewrite dict_get_pop, Hr. by destruct (decide (c' = c)).
Qed.

Lemma start_run_keeps r payload : keeps (_start_run r payload).
Proof.
  intros [s w] Hinv. unfold _start_run, ebind at 1, the_tracer. cbn -[_finish_all].
  assert (exists s1 w1, (if dict_has r (_run_spans s) then _finish_all r else eret tt) (s, w) = (Ok tt, (s1, w1)) /\ inv (s1, w1) /\
    dict_get r (_turn_spans s1) = None) as (s1 & w1 & H1 & Hi & Hturn).
  { unfold dict_has. destruct (dict_get r (_run_spans s)) as [root|] eqn:Hr.
    - destruct (finish_all_ok r s w Hinv) as (s1 & w1 & Hf & Hi & _ & Ht & _). by exists s1, w1.
    - exists s, w. split; [done|]. split; [done|]. destruct (dict_get r (_turn_spans s)) as [t|] eqn:Ht; [|done].
      destruct (known_run r t s w Hinv) as (root & Hr' & _); [by apply Hinv|congruence]. }
  unfold ebind at 1. rewrite H1. destruct (new_span_ok None (u "run") (u "kinetic.run") payload s1 w1) as (sp & w' & Hnew & Hpar & _ & Hm & Hmono).
  unfold ebind. rewrite Hnew. unfold update. cbn. destruct Hi as [Hruns [Ht1 Ht2]]. split; cbn; [|split; cbn].
  - intros r'. destruct (decide (r' = r)) as [->|Hne].
    + unfold run_kept. cbn. rewrite !dict_get_set_eq. eexists _, _, _. do 3 (split; [done|]). split.
      * exists [(sp_span_id sp, None)]. split; [constructor|]. split; [|split; [done|by constructor]]. constructor; [|constructor].
        exists sp. split; [by apply list_lookup_middle|]. unfold span_node. by rewrite Hpar.
      * apply NoDup_singleton.
      * intros x ->%list_elem_of_singleton. left.
      * intros x ref sp' Hx _ _. cbn in Hx. destruct (decide (x = sp_span_id sp)) as [->|]; [left|done].
    + eapply run_kept_ext, Hruns; cbn; [done|apply heap_le_app|by rewrite dict_get_set_ne by done..].
  - intros r' t Ht. destruct (decide (r' = r)) as [->|Hne]; [congruence|]. unfold known. cbn. rewrite dict_get_set_ne by done. by apply Ht1.
  - intros r' c t. unfold call_span, known. cbn. rewrite !dict_get_set. destruct (decide (r' = r)) as [->|Hne]; [done|]. apply Ht2.
Qed.

Lemma start_turn_keeps r payload : keeps (_start_turn r payload).
Proof.
  intros [s w] Hinv. unfold _start_turn, ebind at 1, the_tracer. cbn -[_append]. destruct (dict_get r (_run_spans s)) as [root|] eqn:Hr; [|done].
  unfold ebind at 1, update. set (s0 := set_turns (dict_pop r) s). assert (inv (s0, w)) as Hi0.
  { eapply inv_tables; [done|done..|]. destruct Hinv as [_ [Ht1 Ht2]]. split; cbn -[dict_pop]; [|done]. intros r' t.
    rewrite dict_get_pop. destruct (decide (r' = r)); [done|]. apply Ht1. }
  destruct (close_if_ok r (dict_get r (_turn_spans s)) s0 w Hi0) as (s1 & w1 & Hc & Hi1 & (Hr1 & _) & _).
  unfold ebind at 1. rewrite Hc. assert (dict_get r (_run_spans s1) = Some root) as Hr1' by by rewrite Hr1.
  destruct (span_append_ok r root root (u "turn") (u "kinetic.turn") payload s1 w1 Hi1 Hr1') as (sp & s2 & w2 & Ha & Hi2 & _ & Hk & _);
    [by eapply run_known|].
  unfold ebind. rewrite Ha. unfold update. cbn. eapply inv_tables; [done|done..|]. destruct Hi2 as [_ [Ht1 Ht2]]. split; cbn; [|done].
  intros r' t. rewrite dict_get_set. destruct (decide (r' = r)) as [->|]; [by intros [= <-]|apply Ht1].
Qed.

Lemma start_tool_keeps r payload : keeps (_start_tool r payload).
Proof.
  intros [s w] Hinv. unfold _start_tool, ebind at 1, the_tracer. cbn -[_append]. destruct (dict_get r (_run_spans s)) as [root|] eqn:Hr; [|done].
  destruct (str_field (u "id") payload) as [[|c0 c]|]; [done| |done].
  destruct (span_append_ok r root (current_parent r root s) (u "tool_call") (u "kinetic.tool_call") payload s w Hinv Hr)
    as (sp & s1 & w1 & Ha & Hi1 & _ & Hk & _); [by eapply parent_known|].
  unfold ebind at 1. rewrite Ha. unfold ebind, the_tracer, dict_item, update, eret, eraise. cbn.
  destruct (dict_get r (_tool_spans s1)) as [tools|] eqn:Htools; [|done]. cbn. eapply inv_tables; [done|done..|].
  destruct Hi1 as [_ [Ht1 Ht2]]. split; cbn; [done|]. intros r' c' t Ht.
  by destruct (call_span_set _ _ _ _ _ _ _ _ Htools Ht) as [[-> ->]|Ht']; [|eapply Ht2].
Qed.

Lemma start_retry_keeps r payload : keeps (_start_retry r payload).
Proof.
  intros [s w] Hinv. unfold _start_retry, ebind at 1, the_tracer. cbn -[_append]. destruct (str_field (u "id") payload) as [c|]; [|done].
  destruct (dict_get c (default [] (dict_get r (_tool_spans s)))) as [tool|] eqn:Htool; [|done].
  assert (known r tool s) as Hk by (destruct Hinv as [_ [_ Ht2]]; by eapply (Ht2 r c)).
  unfold ebind at 1, dict_item. destruct (dict_get r (_retry_spans s)) as [retries|] eqn:Hre; [|done]. cbn -[_append].
  destruct (close_if_ok r (dict_get c retries) s w Hinv) as (s1 & w1 & Hc & Hi1 & (Hr1 & _) & Hb).
  unfold ebind at 1. rewrite Hc. assert (known r tool s1) as Hk1 by (unfold known; by rewrite Hb).
  destruct (known_run r tool s1 w1 Hi1 Hk1) as (root & Hroot & _).
  destruct (span_append_ok r root tool (u "retry") (u "kinetic.tool_retry") payload s1 w1 Hi1 Hroot Hk1) as (sp & s2 & w2 & Ha & Hi2 & _).
  unfold ebind. rewrite Ha. unfold update. cbn. by eapply inv_tables, Hi2.
Qed.

Lemma finish_tool_keeps r payload : keeps (_finish_tool r payload).
Proof.
  intros [s w] Hinv. unfold _finish_tool. destruct (str_field (u "id") payload) as [c|]; [|done].
  unfold ebind at 1, the_tracer. cbn -[close_if]. unfold ebind at 1, update. set (s0 := set_retries (pop_call r c) s).
  assert (inv (s0, w)) as Hi0 by (eapply inv_tables; [done|done..|]; apply Hinv).
  destruct (close_if_ok r (call_span r c (_retry_spans s)) s0 w Hi0) as (s1 & w1 & Hc & Hi1 & _). unfold ebind at 1. rewrite Hc.
  set (s2 := set_tools (pop_call r c) s1). assert (inv (s2, w1)) as Hi2.
  { eapply inv_tables; [done|done..|]. destruct Hi1 as [_ [Ht1 Ht2]]. split; cbn -[pop_call call_span]; [done|]. intros r' c' t Ht.
    by eapply Ht2, call_span_pop. }
  destruct (close_if_ok r (call_span r c (_tool_spans s)) s2 w1 Hi2) as (s3 & w3 & Hc3 & Hi3 & _). by rewrite Hc3.
Qed.

Lemma compaction_keeps r payload : keeps (_record_compaction r payload).
Proof.
  intros [s w] Hinv. unfold _record_compaction, ebind at 1, the_tracer. cbn -[_append]. destruct (dict_get r (_run_spans s)) as [root|] eqn:Hr; [|done].
  destruct (span_append_ok r root (current_parent r root s) (u "compaction") (u "kinetic.compaction") payload s w Hinv Hr)
    as (sp & s1 & w1 & Ha & Hi1 & _); [by eapply parent_known|].
  unfold ebind. rewrite Ha. destruct (span_close_ok r (sp_span_id sp) s1 w1 Hi1) as (s2 & w2 & Hc & Hi2 & _). by rewrite Hc.
Qed.

Lemma handle_keeps e : keeps (handle e).
Proof.
  intros st Hst. unfold handle. destruct (str_field (u "run_id") (e_payload e)) as [[|c r]|]; [done| |done].
  repeat case_match; try first [by apply start_run_keeps|by apply start_turn_keeps|by apply start_tool_keeps|by apply start_retry_keeps
    |by apply finish_tool_keeps|by apply compaction_keeps|done].
  destruct st as [s w]. destruct (finish_all_ok (c :: r) s w Hst) as (s' & w' & Hf & Hi & _). by rewrite Hf.
Qed.

Lemma new_tracer_inv w : inv (new_tracer, w).
Proof. split; [intros r; done|]. split; [intros r t; done|intros r c t; done]. Qed.

Lemma traced_inv events st : inv st -> inv (foldl traced st events).
Proof. revert st. induction events as [|e l IH]; intros st Hst; [done|]. cbn. apply IH. by apply handle_keeps. Qed.

Lemma omap_ids (g : clones) l : (forall sp, sp ∈ l -> exists children, dict_get (sp_span_id sp) g = Some (sp, children)) ->
  omap (fun id => fmap fst (dict_get id g)) (map sp_span_id l) = l.
Proof.
  induction l as [|sp l IH]; intros Hl; [done|]. cbn. destruct (Hl sp) as (children & ->); [left|]. cbn. f_equal. apply IH.
  intros sp' Hsp'. apply Hl. by right.
Qed.

(** A tree of what is kept: reading it back. *)
Lemma kept_tree r root s w : inv (s, w) -> dict_get r (_run_spans s) = Some root ->
  exists t, as_tree r s = Ok t /\ tree_spans t ≡ₚ spans_for_run r s.
Proof.
  intros [Hruns _] Hr. specialize (Hruns r). unfold run_kept in Hruns. cbn in Hruns. rewrite Hr in Hruns.
  destruct Hruns as (l & d & st & Hl & Hd & _ & [(nodes & Hg & Hl2 & Hdz & _) _ _ _]).
  assert (exists sps, map span_node sps = nodes /\ spans_for_run r s = sps /\
    omap (fun '(id, ref) => match heap s !! ref with Some span => Some (id, (span, @nil pystr)) | None => None end) d = bare sps) as (sps & Hn & Hs & Hb).
  { unfold spans_for_run. rewrite Hl, Hdz. cbn. clear -Hl2. induction Hl2 as [|ref n l nodes (sp & Hsp & Hn) _ (sps & IHn & IHs & IHb)];
      [by exists []|]. exists (sp :: sps). cbn. rewrite Hsp, IHs, IHb, <- IHn, <- Hn. done. }
  assert (map sp_span_id sps = map fst nodes) as Hids by (rewrite <- Hn, map_map; done).
  assert (NoDup (map sp_span_id sps)) as Hnd by (rewrite Hids; by eapply grown_nodup).
  destruct (link_grown sps root nodes Hnd Hg sps [] (eq_sym (app_nil_r sps)) Hn) as (g & t & Hfold & Hnames & Hall & Ht & Hperm).
  unfold as_tree. rewrite Hr, Hd. change (default [] (Some d)) with d.
  assert (dict_has root d = true) as ->.
  { unfold dict_has. destruct (dict_get root d) eqn:E; [done|]. apply eq_None_not_Some in E. exfalso. apply E, dict_get_key.
    rewrite Hdz, zip_keys by (by eapply Forall2_length). by apply grown_root. }
  cbn [negb]. rewrite Hb, Hs. unfold rbind at 1. rewrite Hfold. unfold bare. rewrite length_map, Ht. exists t. split; [done|].
  rewrite <- (omap_ids g sps), <- (omap_ids g (tree_spans t)); [by rewrite Hperm, Hids|by eapply unfold_spans|].
  intros sp Hsp. destruct (Hall sp Hsp) as (children & Hc & _). by exists children.
Qed.
End Invariant.

(** [e] is the last event of a run. *)
Definition ends_run (run : pystr) (e : Event) : Prop :=
  run <> [] /\ str_field (u "run_id") (e_payload e) = Some run /\ e_type e ∈ _TERMINAL_EVENTS.

Lemma handle_end `{PyRuntime, SecretPatterns} {W : Type} `{!TraceHost W} run e (st : Tracer * W) : ends_run run e -> handle e st = _finish_all run st.
Proof.
  intros (Hne & Hrun & Hty). unfold handle. rewrite Hrun. destruct run; [done|]. unfold elem_b. rewrite (bool_decide_eq_true_2 _ Hty).
  unfold _TERMINAL_EVENTS in Hty. repeat (apply elem_of_cons in Hty as [->|Hty]; [reflexivity|]). by apply elem_of_nil in Hty.
Qed.

(** C30: Whatever events a tracer receives, in whatever order, what it keeps of each
    run is one tree ([as_tree] finds it exactly if there are spans) that holds every
    span of the run once; and after the last event of a run none of its spans is
    open. *)
Theorem traces_are_trees `{PyRuntime, SecretPatterns} {W : Type} `{!TraceHost W, !LawfulIds W} events (w : W) run s w' :
  foldl traced (new_tracer, w) events = (s, w') ->
  match as_tree run s with Ok t => tree_spans t ≡ₚ spans_for_run run s | Err _ => spans_for_run run s = [] end /\
  forall before e, events = before ++ [e] -> ends_run run e -> Forall (fun sp => sp_end_time sp <> None) (spans_for_run run s).
Proof.
  intros Hs. pose proof (traced_inv events _ (new_tracer_inv w)) as Hinv. rewrite Hs in Hinv. split.
  - destruct (dict_get run (_run_spans s)) as [root|] eqn:Hr; [by destruct (kept_tree run root s w' Hinv Hr) as (t & -> & Ht)|].
    destruct Hinv as [Hruns _]. specialize (Hruns run). unfold run_kept in Hruns. cbn in Hruns. rewrite Hr in Hruns.
    destruct Hruns as (Hl & _). unfold as_tree, spans_for_run. by rewrite Hr, Hl.
  - intros before e -> He. rewrite foldl_app in Hs. cbn in Hs. unfold traced at 1 in Hs. rewrite (handle_end run) in Hs by done.
    pose proof (traced_inv before _ (new_tracer_inv w)) as Hb. destruct (foldl traced (new_tracer, w) before) as [s0 w0].
    destruct (finish_all_ok run s0 w0 Hb) as (s1 & w1 & Hf & _ & _ & _ & Hopen). rewrite Hf in Hs. cbn in Hs. simplify_eq.
    destruct Hinv as [Hruns _]. specialize (Hruns run). unfold run_kept in Hruns. cbn in Hruns. unfold spans_for_run.
    destruct (dict_get run (_run_spans s)) as [root|]; [|destruct Hruns as (-> & _); constructor].
    destruct Hruns as (l & d & st & -> & Hd & _ & [(nodes & Hg & Hl & Hdz & _) _ _ _]). cbn.
    apply Forall_forall. intros sp Hsp Hend. apply list_elem_of_omap in Hsp as (ref & Href & Hsp).
    apply list_elem_of_lookup in Href as [k Hk]. destruct (Forall2_lookup_l _ _ _ _ _ Hl Hk) as (n & Hn & _).
    apply (Hopen n.1). exists ref, sp. split; [|done]. unfold span_ref. rewrite Hd. cbn. rewrite Hdz.
    apply dict_get_in; [rewrite zip_keys by (by eapply Forall2_length); by eapply grown_nodup|].
    apply list_elem_of_lookup. exists k. apply lookup_zip_with_Some. exists n.1, ref. split; [done|]. split; [|done].
    rewrite list_lookup_fmap, Hn. done.
Qed.

(** ** A traced run *)

Module TracedRun.
#[export] Instance runtime : PyRuntime := decoding_runtime [].
#[export] Instance patterns : SecretPatterns := {| rx_sub := fun _ s => s |}.

(** A counter for the ids, which is also the clock. *)
#[export] Instance counter : TraceHost nat := {
  span_uuid n := ([N.of_nat n], S n);
  span_clock n := (fl_of_Z (Z.of_nat n), S n);
}.

#[export] Instance counter_lawful : LawfulIds nat.
Proof.
  refine {| minted n x := exists k, k < n /\ x = [N.of_nat k] |}.
  - intros n id n' [= <- <-]. split; [intros (k & Hk & [= E]); lia|exists n; split; [lia|done]].
  - intros n id n' x [= <- <-] (k & Hk & ->). exists k. split; [lia|done].
  - intros n t n' x [= <- <-] (k & Hk & ->). exists k. split; [lia|done].
Defined.

Definition traced_event (ty : String.string) (fields : jdict) : Event :=
  {| e_type := u ty; e_payload := (u "run_id", JStr (u "r")) :: fields; e_source := None |}.
Definition call_fields (id : String.string) : jdict := [(u "id", JStr (u id))].

(** Two turns; the second starts while a call of the first is still running. *)
Definition overlapping : list Event := [traced_event "agent.run_started" []; traced_event "agent.turn_started" [];
  traced_event "agent.tool_call_started" (call_fields "a"); traced_event "agent.tool_retry" (call_fields "a"); traced_event "agent.turn_started" []].

Definition finished : list Event := overlapping ++ [traced_event "agent.tool_call_finished" (call_fields "a"); traced_event "context.compacted" []; traced_event "agent.run_finished" []].

Definition after (events : list Event) : Tracer := (foldl traced (new_tracer, 0) events).1.

(** The names and whether they have ended, in the order of a tree or of their creation. *)
Definition summary (l : list TraceSpan) : list (pystr * bool) := map (fun sp => (sp_kind sp, match sp_end_time sp with Some _ => true | None => false end)) l.

Lemma traces_are_trees_witness : exists s w' t, foldl traced (new_tracer, 0) finished = (s, w') /\ as_tree (u "r") s = Ok t /\
  tree_spans t ≡ₚ spans_for_run (u "r") s /\ Forall (fun sp => sp_end_time sp <> None) (spans_for_run (u "r") s).
Proof.
  assert (is_ok (as_tree (u "r") (foldl traced (new_tracer, 0) finished).1) = true) as Hok by (vm_compute; reflexivity).
  destruct (foldl traced (new_tracer, 0) finished) as [s w'] eqn:E. cbn [fst] in Hok.
  destruct (traces_are_trees finished 0 (u "r") s w' E) as [Ht He].
  destruct (as_tree (u "r") s) as [t|e] eqn:Et; [|discriminate].
  exists s, w', t. split; [reflexivity|]. split; [exact Et|]. split; [exact Ht|].
  apply (He (overlapping ++ [traced_event "agent.tool_call_finished" (call_fields "a"); traced_event "context.compacted" []]) (traced_event "agent.run_finished" [])).
  - unfold finished. rewrite <- app_assoc. reflexivity.
  - split; [discriminate|]. split; [reflexivity|]. apply list_elem_of_In. left. reflexivity.
Defined.

Example finished_tree : match as_tree (u "r") (after finished) with
  | Ok t => summary (tree_spans t) = [(u "run", true); (u "turn", true); (u "tool_call", true); (u "retry", true); (u "turn", true); (u "compaction", true)]
  | Err _ => False
  end.
Proof. vm_compute. reflexivity. Qed.

(** A turn ends when the next one starts, also while a call of it runs: the call
    outlives its parent. *)
Example call_outlives_its_turn : summary (spans_for_run (u "r") (after overlapping)) =
  [(u "run", false); (u "turn", true); (u "tool_call", false); (u "retry", false); (u "turn", false)].
Proof. vm_compute. reflexivity. Qed.

(** A call that starts after the run has ended raises, and its span, which was
    already added, stays open. *)
Example late_call_stays_open :
  let st := foldl traced (new_tracer, 0) (finished ++ [traced_event "agent.tool_call_started" (call_fields "b"); traced_event "agent.tool_call_finished" (call_fields "b")]) in
  is_ok (handle (traced_event "agent.tool_call_started" (call_fields "b")) (foldl traced (new_tracer, 0) finished)).1 = false /\
  last (summary (spans_for_run (u "r") st.1)) = Some (u "tool_call", false).
Proof. vm_compute. split; reflexivity. Qed.
End TracedRun.
