(* ===== verification/Observe.v ===== *)
(** * Logs, run traces and metrics
      (kinetic_sdk/observability/logger.py, trace.py, metrics.py, otel.py)

    Four subscribers of the event bus: the log of redacted entries, the trace of one
    run that is read off it, the counters of the metrics collector, and the export
    to OpenTelemetry. Log and counters are kept independently of each other; the
    theorem compares what they say about a run. *)

From stdpp Require Import base strings list sets.
From Stdlib Require Import ZArith Lia SpecFloat.
From S2P Require Import Prelude Json PyText EventBus Redact Budgets.

#[local] Open Scope effect_scope.

(** Clocks and floats: the current time as text, [(fromisoformat(b) -
    fromisoformat(a)).total_seconds()], and [round(x, 6)]. *)
Class ClockText (W : Type) := {
  utcnow_iso : W -> pystr * W;
  seconds_between : pystr -> pystr -> result pyfloat;
  round6 : pyfloat -> pyfloat;
}.

(** ** The log: observability/logger.py *)

Record LogEntry := { le_timestamp : pystr; le_event_type : pystr; le_run_id : option json; le_payload : jdict }.

Definition redact_payload `{SecretPatterns} (payload : jdict) : jdict :=
  match redact_value (JObj payload) with JObj d => d | _ => [] end.

Definition build_entry `{SecretPatterns} {W} `{!ClockText W} (e : Event) (w : W) : LogEntry * W :=
  let payload := redact_payload (e_payload e) in
  let '(now, w) := utcnow_iso w in
  ({| le_timestamp := now; le_event_type := e_type e; le_run_id := dict_get (u "run_id") payload; le_payload := payload |}, w).

(** [InMemoryObservabilityLogger.handle] and [get_events]. *)
Definition log_event_entry `{SecretPatterns} {W} `{!ClockText W} (st : list LogEntry * W) (e : Event) : list LogEntry * W :=
  let '(entry, w) := build_entry e st.2 in (st.1 ++ [entry], w).

Definition get_events (event_type : option pystr) (entries : list LogEntry) : list LogEntry :=
  match event_type with Some ty => filter (fun e => le_event_type e = ty) entries | None => entries end.

(** ** The trace of a run: observability/trace.py *)

Record RunTrace := { rt_run_id : pystr; rt_events : list LogEntry }.

(** [e.get("run_id") == run_id] *)
Definition of_run (run_id : pystr) (e : LogEntry) : bool := match le_run_id e with Some (JStr r) => bool_decide (r = run_id) | _ => false end.

Definition collect (entries : list LogEntry) (run_id : pystr) : RunTrace :=
  {| rt_run_id := run_id; rt_events := filter (fun e => of_run run_id e = true) entries |}.

(** [{}.get("usage") or {}] of a payload: what is neither empty nor a dictionary has no [get]. *)
Definition usage_of (payload : jdict) : result jdict :=
  match dict_get (u "usage") payload with
  | Some (JObj d) => Ok d
  | Some v => if truthy v then Err (PyExn (u "AttributeError") (u "object has no attribute 'get'")) else Ok []
  | None => Ok []
  end.

(** One usage report added to totals; the tokens stay added when the cost raises. *)
Definition add_usage (s : UsageSnapshot) (usage : jdict) : result unit * UsageSnapshot :=
  let cost := as_float (dict_get (u "cost_usd") usage) in
  (match cost with Some (Err e) => Err e | _ => Ok tt end,
   {| input_tokens := add_int (input_tokens s) (dict_get (u "input_tokens") usage);
      output_tokens := add_int (output_tokens s) (dict_get (u "output_tokens") usage);
      cost_usd := match cost with Some (Ok f) => fl_add (cost_usd s) f | _ => cost_usd s end; calls := calls s |}).

Section Trace.
Context {W : Type} `{!ClockText W}.
Implicit Types t : RunTrace.

Definition _of_type (event_type : pystr) t : list LogEntry := filter (fun e => le_event_type e = event_type) (rt_events t).

Definition duration t : result pyfloat :=
  match head (_of_type (u "agent.run_started") t), last (_of_type (u "agent.run_finished") t) with
  | Some start, Some end_ => seconds_between (le_timestamp start) (le_timestamp end_)
  | _, _ => Ok (S754_zero false)
  end.

(** [payload.get(key)] *)
Definition field (key : pystr) (payload : jdict) : json := default JNull (dict_get key payload).

Definition trace_tool_calls t : list jdict :=
  map (fun e => [(u "name", field (u "name") (le_payload e)); (u "id", field (u "id") (le_payload e));
                 (u "is_error", default (JBool false) (dict_get (u "is_error") (le_payload e)))])
    (_of_type (u "agent.tool_call_finished") t).

(** One entry of the mode history, if the event is one. *)
Definition mode_transition (e : LogEntry) : option jdict :=
  if bool_decide (le_event_type e = u "agent.classified") then
    Some [(u "event", JStr (u "classified")); (u "mode", field (u "mode") (le_payload e));
          (u "complexity", field (u "complexity") (le_payload e)); (u "timestamp", JStr (le_timestamp e))]
  else if bool_decide (le_event_type e = u "agent.escalated") then
    Some [(u "event", JStr (u "escalated")); (u "from", field (u "from") (le_payload e)); (u "to", field (u "to") (le_payload e));
          (u "timestamp", JStr (le_timestamp e))]
  else None.

Definition mode_transitions t : list jdict := omap mode_transition (rt_events t).

Definition final_mode t : json :=
  match last (_of_type (u "agent.run_finished") t) with
  | Some e => field (u "mode") (le_payload e)
  | None =>
    match last (mode_transitions t) with
    | None => JNull
    | Some tr => if bool_decide (dict_get (u "event") tr = Some (JStr (u "escalated"))) then field (u "to") tr else field (u "mode") tr
    end
  end.

(** The loop of [usage]. *)
Fixpoint usage_totals (events : list LogEntry) (s : UsageSnapshot) : result UsageSnapshot :=
  match events with
  | [] => Ok s
  | e :: rest =>
    usage <-! usage_of (le_payload e) ;;
    let '(r, s) := add_usage {| input_tokens := input_tokens s; output_tokens := output_tokens s; cost_usd := cost_usd s; calls := (calls s + 1)%Z |} usage in
    _ <-! r ;; usage_totals rest s
  end.

Definition usage_to_dict (s : UsageSnapshot) : jdict :=
  [(u "input_tokens", JInt (input_tokens s)); (u "output_tokens", JInt (output_tokens s)); (u "cost_usd", JFloat (round6 (cost_usd s)));
   (u "calls", JInt (calls s))].

Definition trace_usage t : result UsageSnapshot := usage_totals (_of_type (u "llm.usage") t) empty_usage.

Definition happened (event_type : pystr) t : bool := negb (bool_decide (_of_type event_type t = [])).

Definition failed_calls (calls : list jdict) : Z := zlen (filter (fun c => truthy (field (u "is_error") c) = true) calls).

Definition to_summary t : result jdict :=
  let calls := trace_tool_calls t in
  elapsed <-! duration t ;;
  usage <-! trace_usage t ;;
  Ok [(u "run_id", JStr (rt_run_id t)); (u "duration", JFloat elapsed); (u "tool_call_count", JInt (zlen calls));
      (u "tool_calls_failed", JInt (failed_calls calls)); (u "final_mode", final_mode t);
      (u "escalated", JBool (happened (u "agent.escalated") t)); (u "permission_denied", JBool (happened (u "security.permission_denied") t));
      (u "context_compacted", JBool (happened (u "context.compacted") t)); (u "usage", JObj (usage_to_dict usage))].
End Trace.

(** ** The counters: observability/metrics.py *)

Record MetricsCollector := {
  event_counts : list (pystr * Z);
  mc_tool_calls : Z;
  mc_tool_failures : Z;
  mc_usage : UsageSnapshot;
  runs_started : Z;
  runs_finished : Z;
  run_durations : list (pystr * pyfloat);
  _open_runs : list (pystr * pystr);
}.

Definition new_metrics : MetricsCollector := {| event_counts := []; mc_tool_calls := 0; mc_tool_failures := 0; mc_usage := empty_usage;
  runs_started := 0; runs_finished := 0; run_durations := []; _open_runs := [] |}.

(** [payload.get("run_id")] where it is a non-empty text; run ids are texts. *)
Definition run_key (payload : jdict) : option pystr :=
  match dict_get (u "run_id") payload with Some (JStr ((_ :: _) as r)) => Some r | _ => None end.

Section Metrics.
Context {W : Type} `{!ClockText W}.
Implicit Types m : MetricsCollector.

Definition count_event (ty : pystr) m : MetricsCollector := {|
  event_counts := dict_set ty (default 0%Z (dict_get ty (event_counts m)) + 1)%Z (event_counts m);
  mc_tool_calls := mc_tool_calls m; mc_tool_failures := mc_tool_failures m; mc_usage := mc_usage m; runs_started := runs_started m;
  runs_finished := runs_finished m; run_durations := run_durations m; _open_runs := _open_runs m |}.

Definition run_begins (r now : pystr) m : MetricsCollector := {|
  event_counts := event_counts m; mc_tool_calls := mc_tool_calls m; mc_tool_failures := mc_tool_failures m; mc_usage := mc_usage m;
  runs_started := (runs_started m + 1)%Z; runs_finished := runs_finished m; run_durations := run_durations m;
  _open_runs := dict_set r now (_open_runs m) |}.

(** [elapsed]: of a run whose start was seen. *)
Definition run_ends (r : pystr) (elapsed : option pyfloat) m : MetricsCollector := {|
  event_counts := event_counts m; mc_tool_calls := mc_tool_calls m; mc_tool_failures := mc_tool_failures m; mc_usage := mc_usage m;
  runs_started := runs_started m; runs_finished := (runs_finished m + 1)%Z;
  run_durations := match elapsed with Some s => dict_set r s (run_durations m) | None => run_durations m end;
  _open_runs := dict_pop r (_open_runs m) |}.

Definition call_finished (failed : bool) m : MetricsCollector := {|
  event_counts := event_counts m; mc_tool_calls := (mc_tool_calls m + 1)%Z;
  mc_tool_failures := if failed then (mc_tool_failures m + 1)%Z else mc_tool_failures m; mc_usage := mc_usage m;
  runs_started := runs_started m; runs_finished := runs_finished m; run_durations := run_durations m; _open_runs := _open_runs m |}.

Definition with_usage (s : UsageSnapshot) m : MetricsCollector := {|
  event_counts := event_counts m; mc_tool_calls := mc_tool_calls m; mc_tool_failures := mc_tool_failures m; mc_usage := s;
  runs_started := runs_started m; runs_finished := runs_finished m; run_durations := run_durations m; _open_runs := _open_runs m |}.

Definition metrics_handle (e : Event) : py_effect (MetricsCollector * W) unit := fun '(m, w) =>
  let m := count_event (e_type e) m in
  let payload := e_payload e in
  let typed := fun ty => bool_decide (e_type e = u ty) in
  match run_key payload, typed "agent.run_started", typed "agent.run_finished" with
  | Some r, true, _ => let '(now, w) := utcnow_iso w in (Ok tt, (run_begins r now m, w))
  | Some r, false, true =>
    match dict_get r (_open_runs m) with
    | None => (Ok tt, (run_ends r None m, w))
    | Some started =>
      let '(now, w) := utcnow_iso w in
      match seconds_between started now with
      | Ok elapsed => (Ok tt, (run_ends r (Some elapsed) m, w))
      | Err e => (Err e, (run_ends r None m, w))
      end
    end
  | _, _, _ =>
    if typed "agent.tool_call_finished" then (Ok tt, (call_finished (opt_truthy (dict_get (u "is_error") payload)) m, w))
    else if typed "llm.usage" then
      match usage_of payload with
      | Ok usage => let '(r, s) := add_usage (mc_usage m) usage in (r, (with_usage s m, w))
      | Err e => (Err e, (m, w))
      end
    else (Ok tt, (m, w))
  end.

(** The collector on a bus, which swallows what a subscriber raises. *)
Definition counted (st : MetricsCollector * W) (e : Event) : MetricsCollector * W := (metrics_handle e st).2.

(** [max(durations)]: the first of the largest. *)
Definition fl_max_list (l : list pyfloat) : pyfloat :=
  match l with [] => S754_zero false | x :: rest => foldl (fun best y => if fl_lt best y then y else best) x rest end.

Definition metrics_snapshot m : jdict :=
  let durations := map snd (run_durations m) in
  [(u "event_counts", JObj (map (fun kv => (kv.1, JInt kv.2)) (sort_items (event_counts m))));
   (u "tool_calls", JInt (mc_tool_calls m)); (u "tool_failures", JInt (mc_tool_failures m));
   (u "usage", JObj [(u "input_tokens", JInt (input_tokens (mc_usage m))); (u "output_tokens", JInt (output_tokens (mc_usage m)));
                     (u "cost_usd", JFloat (round6 (cost_usd (mc_usage m))))]);
   (u "runs_started", JInt (runs_started m)); (u "runs_finished", JInt (runs_finished m));
   (u "open_runs", strs (sorted_strs (map fst (_open_runs m))));
   (u "run_duration_avg", JFloat (match durations with [] => S754_zero false | _ => fl_div (foldl fl_add (S754_zero false) durations) (fl_of_Z (zlen durations)) end));
   (u "run_duration_max", JFloat (fl_max_list durations))].
End Metrics.

(** ** The export: observability/otel.py *)

(** OpenTelemetry's tracer and spans; its calls do not raise. *)
Class Spans (S W : Type) := {
  start_span : pystr -> W -> S * W;
  set_attribute : pystr -> json -> S -> W -> W;
  add_event : pystr -> jdict -> S -> W -> W;
  set_status_error : S -> W -> W;
  end_span : S -> W -> W;
  shutdown_provider : W -> W;
}.

Section OTel.
Context `{PyRuntime, SecretPatterns} {S W : Type} `{!ClockText W, !Spans S W}.
Variable service_name : pystr.

(** [_flat]: what is no primitive becomes text. *)
Definition _flat (payload : jdict) : jdict :=
  map (fun kv => (kv.1, match kv.2 with JStr _ | JBool _ | JInt _ | JFloat _ => kv.2 | v => JStr (py_str v) end)) payload.

Definition set_attributes (attrs : jdict) (span : S) (w : W) : W := foldl (fun w kv => set_attribute kv.1 kv.2 span w) w attrs.

(** [OTelObservabilityLogger.handle], on the spans of the open runs. *)
Definition otel_handle (st : list (pystr * S) * W) (e : Event) : list (pystr * S) * W :=
  let '(open_spans, w) := st in
  let '(entry, w) := build_entry e w in
  let payload := le_payload entry in
  let ty := le_event_type entry in
  let standalone := fun w => let '(span, w) := start_span ty w in end_span span (add_event ty (_flat payload) span w) in
  match run_key payload with
  | None => (open_spans, standalone w)
  | Some run =>
    if bool_decide (ty = u "agent.run_started") then
      let '(span, w) := start_span (u "kinetic.run") w in
      let w := set_attribute (u "kinetic.service") (JStr service_name) span (set_attribute (u "kinetic.run_id") (JStr run) span w) in
      (dict_set run span open_spans, set_attributes (_flat payload) span w)
    else
      match dict_get run open_spans with
      | Some span =>
        let w := add_event ty (_flat payload) span w in
        if elem_b ty (map u ["agent.run_finished"; "agent.error"; "agent.cancelled"])
        then (dict_pop run open_spans, end_span span (if bool_decide (ty = u "agent.run_finished") then w else set_status_error span w))
        else (open_spans, w)
      | None => (open_spans, standalone w)
      end
  end.

Definition flush_and_close (st : list (pystr * S) * W) : list (pystr * S) * W :=
  ([], shutdown_provider (foldl (fun w kv => end_span kv.2 w) st.2 st.1)).
End OTel.

(** ** Log and counters compared *)

Section Agreement.
Context `{SecretPatterns} {W : Type} `{!ClockText W}.

(** What redaction makes of the value of a key. *)
Definition redact_field (k : pystr) (v : json) : json := match v with JStr _ => if sensitive_key k then JStr REDACTED else redact_value v | _ => redact_value v end.

Lemma redacted_get k d : dict_get k (redact_payload d) = fmap (redact_field k) (dict_get k d).
Proof.
  unfold redact_payload. cbn. induction d as [|[k' v] d IH]; [done|]. cbn. destruct (decide (k = k')) as [->|]; [done|apply IH].
Qed.

Lemma redacted_number k d : as_int (dict_get k (redact_payload d)) = as_int (dict_get k d) /\
  as_float (dict_get k (redact_payload d)) = as_float (dict_get k d).
Proof. rewrite redacted_get. destruct (dict_get k d) as [[]|]; cbn -[sensitive_key]; try done; by destruct (sensitive_key k). Qed.

Lemma redacted_usage s d : add_usage s (redact_payload d) = add_usage s d.
Proof.
  unfold add_usage, add_int. rewrite (proj2 (redacted_number (u "cost_usd") d)), (proj1 (redacted_number (u "input_tokens") d)),
    (proj1 (redacted_number (u "output_tokens") d)). done.
Qed.

Lemma usage_of_redacted s payload usage : usage_of (redact_payload payload) = Ok usage ->
  match usage_of payload with Ok usage' => add_usage s usage = add_usage s usage' | Err _ => add_usage s usage = (Ok tt, s) end.
Proof.
  assert (add_usage s [] = (Ok tt, s)) as Hnil by (destruct s; unfold add_usage, add_int; cbn; by rewrite !Z.add_0_r).
  unfold usage_of. rewrite redacted_get. destruct (dict_get (u "usage") payload) as [v|]; cbn; [|by intros [= <-]].
  destruct v; unfold redact_field; cbn -[sensitive_key redact_secrets]; intros Hu; repeat case_match; simplify_eq; try done.
  all: apply (redacted_usage s d).
Qed.

(** What an entry keeps of an event. *)
Definition entry_for (e : Event) (entry : LogEntry) : Prop := le_event_type entry = e_type e /\ le_payload entry = redact_payload (e_payload e) /\
  le_run_id entry = dict_get (u "run_id") (redact_payload (e_payload e)).

Lemma logged_events events acc w : exists entries w', foldl log_event_entry (acc, w) events = (acc ++ entries, w') /\ Forall2 entry_for events entries.
Proof.
  revert acc w. induction events as [|e events IH]; intros acc w; [exists [], w; by rewrite app_nil_r|]. cbn [foldl].
  unfold log_event_entry at 2, build_entry. cbn [fst snd]. destruct (utcnow_iso w) as [now w1].
  destruct (IH (acc ++ [{| le_timestamp := now; le_event_type := e_type e; le_run_id := dict_get (u "run_id") (redact_payload (e_payload e));
    le_payload := redact_payload (e_payload e) |}]) w1) as (entries & w' & Hf & Hall).
  eexists (_ :: entries), w'. rewrite Hf, <- app_assoc. split; [done|]. constructor; [done|done].
Qed.

(** The totals that the collector and a trace both keep. *)
Definition same_totals (s s' : UsageSnapshot) : Prop := input_tokens s = input_tokens s' /\ output_tokens s = output_tokens s' /\ cost_usd s = cost_usd s'.

Lemma add_same_totals s s' usage r s1 : same_totals s s' -> add_usage s' usage = (r, s1) -> exists s2, add_usage s usage = (r, s2) /\ same_totals s2 s1.
Proof. intros (Hi & Ho & Hc) [= <- <-]. eexists. split; [done|]. unfold same_totals. cbn. by rewrite Hi, Ho, Hc. Qed.

(** The effect of an event on the two counters compared. *)
Lemma counted_event e m w : let m' := (counted (m, w) e).1 in
  mc_tool_calls m' = (mc_tool_calls m + if decide (e_type e = u "agent.tool_call_finished") then 1 else 0)%Z /\
  mc_usage m' = if decide (e_type e = u "llm.usage")
                then match usage_of (e_payload e) with Ok usage => (add_usage (mc_usage m) usage).2 | Err _ => mc_usage m end
                else mc_usage m.
Proof.
  destruct e as [ty payload source]. unfold counted, metrics_handle. cbn [e_type e_payload].
  assert (u "agent.run_started" <> u "agent.tool_call_finished" /\ u "agent.run_started" <> u "llm.usage" /\
    u "agent.run_finished" <> u "agent.tool_call_finished" /\ u "agent.run_finished" <> u "llm.usage" /\
    u "agent.tool_call_finished" <> u "llm.usage") as (H1 & H2 & H3 & H4 & H5) by by vm_compute.
  generalize dependent (u "agent.run_started"). generalize dependent (u "agent.run_finished").
  generalize dependent (u "agent.tool_call_finished"). generalize dependent (u "llm.usage"). intros usage call H5 ended H3 H4 started H1 H2.
  repeat case_match; bool_hyps; try contradiction; try congruence; cbn; (split; [lia|]);
    first [congruence|by match goal with Ha : add_usage _ _ = _ |- _ => injection Ha as <- <- end].
Qed.

End Agreement.

(** The entries of a run's events are its trace. *)
Lemma collect_all `{SecretPatterns} run events entries : redact_secrets run = run ->
  (forall e, e ∈ events -> dict_get (u "run_id") (e_payload e) = Some (JStr run)) -> Forall2 entry_for events entries ->
  rt_events (collect entries run) = entries.
Proof.
  intros Hred Hrun Hall. unfold collect. cbn [rt_events]. induction Hall as [|e entry events entries (_ & _ & Hid) _ IH]; [done|].
  rewrite filter_cons_True.
  - f_equal. apply IH. intros e' He'. apply Hrun. by right.
  - unfold of_run. rewrite Hid, redacted_get, (Hrun e) by left. cbn -[sensitive_key redact_secrets].
    replace (sensitive_key (u "run_id")) with false by (vm_compute; reflexivity). cbn -[redact_secrets]. by rewrite Hred, bool_decide_eq_true_2.
Qed.

(** For a run whose events all reached the bus, the trace read off the redacted
    log and the metrics collector agree, though they are kept independently: on the
    number of tool calls, and, if the trace's usage can be computed, on tokens and
    costs. *)
Theorem trace_and_metrics_agree `{SecretPatterns} {W : Type} `{!ClockText W} events (w mw : W) run entries w1 m w2 s :
  foldl log_event_entry ([], w) events = (entries, w1) -> foldl counted (new_metrics, mw) events = (m, w2) ->
  redact_secrets run = run -> (forall e, e ∈ events -> dict_get (u "run_id") (e_payload e) = Some (JStr run)) ->
  trace_usage (collect entries run) = Ok s ->
  mc_tool_calls m = zlen (trace_tool_calls (collect entries run)) /\ same_totals (mc_usage m) s.
Proof.
  intros Hlog Hmc Hred Hrun. destruct (logged_events events [] w) as (entries' & w1' & Hlog' & Hall).
  rewrite Hlog in Hlog'. injection Hlog' as -> ->. unfold trace_usage, trace_tool_calls, _of_type. rewrite (collect_all run events) by done.
  rewrite <- (Z.add_0_l (zlen _)). change 0%Z with (mc_tool_calls new_metrics).
  assert (same_totals (mc_usage new_metrics) empty_usage) as Hsame by done.
  generalize dependent mw. generalize dependent empty_usage. generalize new_metrics. clear Hlog Hred Hrun.
  induction Hall as [|e entry events entries (Hty & Hp & _) _ IH]; intros m0 s0 Hsame mw Hmc Hs.
  { cbn in *. simplify_eq. split; [unfold zlen; cbn; lia|done]. }
  cbn [foldl] in Hmc. destruct (counted_event e m0 mw) as [Hcalls Husage]. destruct (counted (m0, mw) e) as [m1 mw1]. cbn [fst] in *.
  rewrite !filter_cons, Hty. rewrite filter_cons, Hty in Hs. unfold zlen in *.
  assert (exists s1, usage_totals (filter (fun e => le_event_type e = u "llm.usage") entries) s1 = Ok s /\ same_totals (mc_usage m1) s1) as (s1 & Hs1 & Hsame1).
  { rewrite Husage. destruct (decide (e_type e = u "llm.usage")); [|by exists s0]. cbn [usage_totals] in Hs. rewrite Hp in Hs.
    destruct (usage_of (redact_payload (e_payload e))) as [usage|] eqn:Hu; [|done]. cbn [rbind] in Hs.
    match type of Hs with context [add_usage ?x usage] => destruct (add_usage x usage) as [[[]|err] s1] eqn:Ha; [|done] end. cbn [rbind] in Hs. exists s1. split; [done|].
    edestruct (add_same_totals (mc_usage m0)) as (s2 & Ha2 & Hsame2); [|exact Ha|]; [done|].
    pose proof (usage_of_redacted (mc_usage m0) _ _ Hu) as Hr. destruct (usage_of (e_payload e)) as [usage'|]; rewrite Hr in Ha2; [by rewrite Ha2|].
    by simplify_eq. }
  destruct (IH m1 s1 Hsame1 mw1 Hmc Hs1) as [IH1 IH2]. split; [|done]. rewrite IH1, Hcalls.
  destruct (decide (e_type e = u "agent.tool_call_finished")); cbn; lia.
Qed.

(** ** A run that is observed *)

Module ObservedRun.
#[export] Instance runtime : PyRuntime := decoding_runtime [].
#[export] Instance patterns : SecretPatterns := {| rx_sub := fun _ s => s |}.

(** The clock counts, and prints its count. *)
#[export] Instance clock : ClockText nat := {
  utcnow_iso n := ([N.of_nat n], S n);
  seconds_between a b := Ok (fl_of_Z (Z.of_N (default 0%N (head b)) - Z.of_N (default 0%N (head a))));
  round6 x := x;
}.

Definition observed_event (ty : String.string) (fields : jdict) : Event :=
  {| e_type := u ty; e_payload := (u "run_id", JStr (u "r")) :: fields; e_source := None |}.

Definition usage (i o : Z) : jdict := [(u "usage", JObj [(u "input_tokens", JInt i); (u "output_tokens", JInt o); (u "note", JStr (u "x"))])].

Definition observed_run : list Event := [observed_event "agent.run_started" []; observed_event "agent.classified" [(u "mode", JStr (u "flash"))]; observed_event "llm.usage" (usage 3 4);
  observed_event "agent.tool_call_finished" [(u "name", JStr (u "ls")); (u "is_error", JBool true)]; observed_event "llm.usage" (usage 10 1);
  observed_event "agent.escalated" [(u "to", JStr (u "max"))]; observed_event "agent.run_finished" [(u "mode", JStr (u "max"))]].

Definition observed_log : list LogEntry := (foldl log_event_entry ([], 0) observed_run).1.
Definition observed_metrics : MetricsCollector := (foldl counted (new_metrics, 0) observed_run).1.

Lemma trace_and_metrics_agree_witness : exists m s, m = observed_metrics /\ trace_usage (collect observed_log (u "r")) = Ok s /\ input_tokens s = 13%Z /\
  mc_tool_calls m = zlen (trace_tool_calls (collect observed_log (u "r"))) /\ same_totals (mc_usage m) s.
Proof.
  destruct (trace_usage (collect observed_log (u "r"))) as [s|e] eqn:Hs; [|vm_compute in Hs; discriminate].
  exists observed_metrics, s. split; [reflexivity|]. split; [reflexivity|]. split; [vm_compute in Hs; injection Hs as <-; reflexivity|].
  apply (trace_and_metrics_agree observed_run 0 0 (u "r") observed_log (foldl log_event_entry ([], 0) observed_run).2 observed_metrics (foldl counted (new_metrics, 0) observed_run).2 s).
  - apply surjective_pairing.
  - apply surjective_pairing.
  - vm_compute. reflexivity.
  - apply Forall_forall. repeat constructor.
  - exact Hs.
Defined.

(** What the summary says, and how long the collector thinks the run took. *)
Example summary_of_the_run : match to_summary (collect observed_log (u "r")) with
  | Ok d => map (fun k => dict_get (u k) d) ["tool_call_count"; "tool_calls_failed"; "final_mode"; "escalated"; "context_compacted"]%string =
            [Some (JInt 1); Some (JInt 1); Some (JStr (u "max")); Some (JBool true); Some (JBool false)] /\
            dict_get (u "duration") d = Some (JFloat (fl_of_Z 6))
  | Err _ => False
  end /\ _open_runs observed_metrics = [] /\ run_durations observed_metrics = [(u "r", fl_of_Z 1)].
Proof. vm_compute. repeat split. Qed.

(** Spans that count how often they are started and ended. *)
#[export] Instance spans : Spans nat (nat * list nat) := {
  start_span _ w := (w.1, (S w.1, w.2));
  set_attribute _ _ _ w := w; add_event _ _ _ w := w; set_status_error _ w := w;
  end_span s w := (w.1, w.2 ++ [s]);
  shutdown_provider w := w;
}.

#[export] Instance span_clock_text : ClockText (nat * list nat) := { utcnow_iso w := ([], w); seconds_between _ _ := Ok (fl_of_Z 0); round6 x := x }.

(** A run id that starts twice: the first span is never ended, neither by the end of
    the run nor by closing the exporter. *)
Example restarted_run_leaks_a_span :
  (flush_and_close (foldl (otel_handle (u "sdk")) ([], (0, [])) [observed_event "agent.run_started" []; observed_event "agent.run_started" []; observed_event "agent.run_finished" []])).2
    = (2, [1]).
Proof. vm_compute. reflexivity. Qed.
End ObservedRun.
