(* ===== verification/Snapshots.v ===== *)
(** * The snapshot store (kinetic_sdk/files/snapshots.py, history.py)

    A private git repository beside the workspace keeps what files held before they
    were edited; a tool lists and restores. Running git and the file system around
    the repository are interfaces. The theorem says which commands git is given, in
    which directory, and which files the store touches. *)

From stdpp Require Import base strings list sets relations.
From Stdlib Require Import ZArith Lia SpecFloat.
From S2P Require Import Prelude Json PyText Policy Types Workspace Git Editor.

#[local] Open Scope effect_scope.

(** ** Paths *)

Definition SNAPSHOT_DIRECTORY : pystr := u ".kinetic/snapshots".
Definition DEFAULT_EXCLUDE_GLOBS : list pystr := map u [".env"; ".env.*"; "*.pem"; "*.key"; "id_rsa*"; "*.p12"; "credentials*"; "secrets*"].

(** [a / b] of paths, and [str(p.parent)] where the path has a last part. *)
Definition path_div (a : pystr) (b : list pystr) : pystr := join [slash] ((if bool_decide (a = [slash]) then [] else a) :: b).

(** [Path(...).as_posix()] and [.name] of the parts of a relative path. *)
Definition posix_of (parts : list pystr) : pystr := match parts with [] => dot | _ => join [slash] parts end.
Definition name_of (parts : list pystr) : pystr := default [] (last parts).

(** [resolved.relative_to(root)]: the parts below the root. *)
Fixpoint parts_below (root resolved : list pystr) : option (list pystr) :=
  match root, resolved with
  | [], _ => Some resolved
  | r :: root, p :: resolved => if bool_decide (r = p) then parts_below root resolved else None
  | _ :: _, [] => None
  end.

Definition is_hex (c : N) : bool := ((48 <=? c) && (c <=? 57))%N || ((97 <=? c) && (c <=? 102))%N.

(** [_SNAPSHOT_ID.fullmatch] *)
Definition is_snapshot_id (s : pystr) : bool := forallb is_hex s && (7 <=? zlen s)%Z && (zlen s <=? 64)%Z.

Definition snapshot_error (msg : pystr) : pyexn := PyExn (u "SnapshotStoreError") msg.
Definition is_snapshot_error (e : pyexn) : bool := bool_decide (exn_type e = u "SnapshotStoreError").

Record SnapshotEntry := { se_snapshot_id : pystr; se_path : pystr; se_timestamp : Z }.

(** The file system around the repository, and the lock file of the section that
    writes to it: opening and locking it, and unlocking. *)
Class SidecarFiles (W : Type) := {
  sc_is_dir : pystr -> W -> bool;
  sc_exists : pystr -> W -> bool;
  sc_makedirs : pystr -> W -> result unit * W;
  sc_write_text : pystr -> pystr -> W -> result unit * W;
  sc_lock : pystr -> W -> result unit * W;
  sc_unlock : pystr -> W -> W;
}.

(** The environment that [_default_git_runner] gives git: no variable of git's is
    inherited, and its configuration files are switched off. *)
Definition snapshot_env (environ : list (pystr * pystr)) : list (pystr * pystr) :=
  dict_set (u "GIT_CONFIG_NOSYSTEM") (u "1") (dict_set (u "GIT_CONFIG_SYSTEM") (u "/dev/null") (dict_set (u "GIT_CONFIG_GLOBAL") (u "/dev/null")
    (filter (fun kv => starts_with (u "GIT_") kv.1 = false) environ))).

Section Store.
Context `{PyRuntime, Numerals, Globs} {Ws W : Type} `{!WorkspaceBase Ws W, !GitHost W, !SidecarFiles W}.
(** [isinstance(exc, cls)]. *)
Variable isinstance : pyexn -> pystr -> bool.

Record GitSnapshotStore := { gs_workspace : Ws; gs_root : pystr; gs_exclude_globs : list pystr; gs_strict : bool }.
Implicit Types (s : GitSnapshotStore) (w : W) (relative : list pystr).

(** [GitSnapshotStore.__init__] *)
Definition make_store (workspace : Ws) (exclude_globs : list pystr) (strict : bool) (w : W) : result GitSnapshotStore :=
  match ws_resolve_path workspace dot w with
  | Ok root => Ok {| gs_workspace := workspace; gs_root := root; gs_exclude_globs := exclude_globs; gs_strict := strict |}
  | Err e => Err (if isinstance e (u "WorkspaceError") then value_error (u "GitSnapshotStore requires a local resolving workspace") else e)
  end.

Definition private_dir s : pystr := path_div (gs_root s) [u ".kinetic"].
Definition _repo_dir s : pystr := path_div (gs_root s) [u ".kinetic"; u "snapshots"].

Definition _validate_path s (path : pystr) w : result (list pystr) :=
  if bool_decide (path = []) then Err (value_error (u "path must be a non-empty workspace-relative string"))
  else if isabs path || elem_b dotdot (path_comps path) || is_internal_snapshot_path path
  then Err (value_error (u "path must not address internal snapshot storage or escape the workspace"))
  else
    match ws_resolve_path (gs_workspace s) path w with
    | Err e => Err (if isinstance e (u "WorkspaceError") then value_error (u "path is not available in this workspace: " ++ py_repr (JStr path)) else e)
    | Ok resolved =>
      match parts_below (path_comps (gs_root s)) (path_comps resolved) with
      | Some relative => Ok relative
      | None => Err (value_error (u "path resolves outside the workspace"))
      end
    end.

Definition _is_excluded s relative : bool :=
  existsb (fun glob => fnmatch (posix_of relative) glob || fnmatch (name_of relative) glob) (gs_exclude_globs s).

Definition isolated_args (args : list pystr) : list pystr :=
  [u "git"; u "-c"; u "commit.gpgsign=false"; u "-c"; u "tag.gpgsign=false"; u "-c"; u "core.hooksPath=/dev/null"] ++ args.

(** [_run]; the text of the standard output. *)
Definition _run s (args : list pystr) : py_effect W pystr := fun w =>
  match git_run (isolated_args args) (_repo_dir s) (fl_of_Z 30) w with
  | (Ok (out, err, code), w') =>
    if (code =? 0)%Z then (Ok out, w')
    else (Err (snapshot_error (strip (match err, out with _ :: _, _ => err | [], _ :: _ => out | [], [] => u "snapshot git command failed" end))), w')
  | (Err e, w') =>
    (Err (if isinstance e (u "FileNotFoundError") then snapshot_error (u "git executable not found on PATH")
          else if isinstance e (u "TimeoutExpired") then snapshot_error (u "snapshot git command timed out") else e), w')
  end.

Definition init_repo s : py_effect W unit :=
  _ <~ sc_makedirs (_repo_dir s) ;;
  _ <~ (fun w => let ignore_file := path_div (private_dir s) [u ".gitignore"] in
                 if sc_exists ignore_file w then (Ok tt, w) else sc_write_text ignore_file (u "*" ++ [10%N]) w) ;;
  _ <~ _run s [u "init"; u "--quiet"] ;;
  eret tt.

Definition _ensure_repo s : py_effect W unit := fun w => if sc_is_dir (path_div (_repo_dir s) [u ".git"]) w then (Ok tt, w) else init_repo s w.

Definition commit_args relative : list pystr :=
  [u "-c"; u "user.name=Kinetic Snapshot Store"; u "-c"; u "user.email=snapshots@kinetic.invalid"; u "commit"; u "--no-verify"; u "--quiet";
   u "-m"; u "Snapshot " ++ posix_of relative; u "--"; posix_of relative].

(** What [snapshot] does under the lock. *)
Definition commit_snapshot s relative (content : pystr) : py_effect W pystr :=
  _ <~ _ensure_repo s ;;
  _ <~ sc_makedirs (match relative with [] => private_dir s | _ => path_div (_repo_dir s) (removelast relative) end) ;;
  _ <~ sc_write_text (path_div (_repo_dir s) relative) content ;;
  _ <~ _run s [u "add"; u "--"; posix_of relative] ;;
  _ <~ _run s (commit_args relative) ;;
  out <~ _run s [u "rev-parse"; u "HEAD"] ;;
  eret (strip out).

Definition lock_path s : pystr := path_div (private_dir s) [u "snapshots.lock"].

(** [GitSnapshotStore.snapshot]; an excluded path has the empty id. *)
Definition store_snapshot s (path content : pystr) : py_effect W pystr := fun w =>
  match _validate_path s path w with
  | Err e => (Err e, w)
  | Ok relative =>
    if _is_excluded s relative then (Ok [], w)
    else
      match ebind (sc_makedirs (private_dir s)) (fun _ => sc_lock (lock_path s)) w with
      | (Err e, w1) => (Err e, w1)
      | (Ok _, w1) =>
        let '(r, w2) := commit_snapshot s relative content w1 in
        (match r with
         | Err e => if is_snapshot_error e && negb (gs_strict s) then Ok [] else Err e
         | Ok id => Ok id
         end, sc_unlock (lock_path s) w2)
      end
  end.

Definition _validate_snapshot_id (snapshot_id : pystr) : result unit :=
  if is_snapshot_id snapshot_id then Ok tt else Err (value_error (u "snapshot_id must be a git commit hash")).

Definition _ensure_exists s w : result unit :=
  if sc_is_dir (path_div (_repo_dir s) [u ".git"]) w then Ok tt else Err (snapshot_error (u "snapshot history not enabled for this workspace")).

(** [GitSnapshotStore.restore] *)
Definition store_restore s (path snapshot_id : pystr) : py_effect W pystr := fun w =>
  match (relative <-! _validate_path s path w ;; _ <-! _validate_snapshot_id snapshot_id ;; _ <-! _ensure_exists s w ;; Ok relative) with
  | Err e => (Err e, w)
  | Ok relative => _run s [u "show"; snapshot_id ++ u ":" ++ posix_of relative] w
  end.

(** [line.partition("\0")]: what comes before and after the first null character. *)
Fixpoint partition_null (line : pystr) : pystr * option pystr :=
  match line with
  | [] => ([], None)
  | c :: rest => if (c =? 0)%N then ([], Some rest) else let '(before, after) := partition_null rest in (c :: before, after)
  end.

Definition is_ascii_digit (c : N) : bool := ((48 <=? c) && (c <=? 57))%N.

(** One line of the log; git prints times in ASCII digits. *)
Definition parse_entry relative (line : pystr) : result (option SnapshotEntry) :=
  match partition_null line with
  | (id, Some ((_ :: _) as timestamp)) =>
    if forallb is_ascii_digit timestamp
    then rmap (fun t => Some {| se_snapshot_id := id; se_path := posix_of relative; se_timestamp := t |}) (parse_int timestamp)
    else Ok None
  | _ => Ok None
  end.

Definition log_args (limit : Z) relative : list pystr :=
  [u "log"; u "--max-count=" ++ dec limit; u "--format=%H%x00%ct"; u "--"; posix_of relative].

(** [GitSnapshotStore.history]; the limit is whatever the caller was given. *)
Definition store_history s (path : pystr) (limit : json) : py_effect W (list SnapshotEntry) := fun w =>
  match _validate_path s path w with
  | Err e => (Err e, w)
  | Ok relative =>
    match limit with
    | JInt n =>
      if (n <? 1)%Z then (Err (value_error (u "limit must be a positive integer")), w)
      else if negb (sc_is_dir (_repo_dir s) w) then (Ok [], w)
      else (output <~ _run s (log_args n relative) ;;
            (fun w => (rmap (omap (fun e => e)) (rcollect (parse_entry relative) (splitlines output)), w))) w
    | _ => (Err (value_error (u "limit must be a positive integer")), w)
    end
  end.

(** ** files/history.py *)

Definition history_line (e : SnapshotEntry) : pystr := se_snapshot_id e ++ [9%N] ++ dec (se_timestamp e).

Definition history_failed (e : pyexn) : result ToolResult :=
  if is_snapshot_error e || isinstance e (u "WorkspaceError") || isinstance e (u "ValueError") || isinstance e (u "OSError")
  then Ok (error_result (u "snapshot history failed: " ++ exn_msg e)) else Err e.

(** [FileHistoryTool.execute]; the optional arguments are those given. *)
Definition history_execute (workspace : Ws) (store : option GitSnapshotStore) (action path : pystr) (params : jdict) : py_effect W ToolResult := fun w =>
  match store with
  | None => (Ok (error_result (u "snapshot history not enabled for this workspace")), w)
  | Some s =>
    if is_internal_snapshot_path path then (Ok (error_result (u "path is reserved for internal snapshot storage")), w)
    else if bool_decide (action = u "list") then
      match store_history s path (default (JInt 20) (dict_get (u "limit") params)) w with
      | (Err e, w') => (history_failed e, w')
      | (Ok entries, w') =>
        (Ok (tool_result (match entries with [] => u "(no snapshots)" | _ => join [10%N] (map history_line entries) end)
               [(u "snapshots", strs (map se_snapshot_id entries))]), w')
      end
    else if bool_decide (action = u "restore") then
      match dict_get (u "snapshot_id") params with
      | Some (JStr snapshot_id) =>
        match (content <~ store_restore s path snapshot_id ;; ws_write_text workspace path content) w with
        | (Err e, w') => (history_failed e, w')
        | (Ok _, w') => (Ok (tool_result (u "restored " ++ path ++ u " from snapshot " ++ snapshot_id)
            [(u "path", JStr path); (u "snapshot_id", JStr snapshot_id)]), w')
        end
      | _ => (Ok (error_result (u "restore requires snapshot_id")), w)
      end
    else (Ok (error_result (u "unknown action (expected list/restore)")), w)
  end.
End Store.

(** ** Which commands, and which files *)

(** The arguments that the store gives git, for a path inside the workspace. *)
Inductive store_command : list pystr -> Prop :=
| CmdInit : store_command [u "init"; u "--quiet"]
| CmdAdd relative : Forall plain_name relative -> store_command [u "add"; u "--"; posix_of relative]
| CmdCommit relative : Forall plain_name relative -> store_command (commit_args relative)
| CmdHead : store_command [u "rev-parse"; u "HEAD"]
| CmdShow id relative : is_snapshot_id id = true -> Forall plain_name relative -> store_command [u "show"; id ++ u ":" ++ posix_of relative]
| CmdLog limit relative : (1 <= limit)%Z -> Forall plain_name relative -> store_command (log_args limit relative).

(** A literal name. *)
Lemma literal_name p : elem_b slash p = false -> p <> [] -> p <> dot -> p <> dotdot -> plain_name p.
Proof. intros Hs%bool_decide_eq_false. by repeat split. Qed.

Ltac literal := apply literal_name; [reflexivity|discriminate..].

Section Confinement.
Context `{PyRuntime, Numerals, Globs} {Ws W : Type} `{!WorkspaceBase Ws W, !GitHost W, !SidecarFiles W}.
Context (isinstance : pyexn -> pystr -> bool) (s : GitSnapshotStore (Ws := Ws)).
Implicit Types w : W.

(** A path of the private area. *)
Definition private (p : pystr) : Prop := exists parts, Forall plain_name parts /\ p = path_div (private_dir s) parts.

(** A relation that the store's commands in the repository keep, and operations on
    files of the private area. *)
Record kept_private (R : relation W) : Prop := {
  kp_refl w : R w w;
  kp_trans w1 w2 w3 : R w1 w2 -> R w2 w3 -> R w1 w3;
  kp_git args t w : store_command args -> R w (git_run (isolated_args args) (_repo_dir s) t w).2;
  kp_mkdir p w : private p -> R w (sc_makedirs p w).2;
  kp_write p text w : private p -> R w (sc_write_text p text w).2;
  kp_lock p w : private p -> R w (sc_lock p w).2;
  kp_unlock p w : private p -> R w (sc_unlock p w);
}.

Context (R : relation W) (HR : kept_private R) (Hroot : gs_root s <> [slash]).
Context (Hreal : forall p w r, ws_resolve_path (gs_workspace s) p w = Ok r -> real_path r).

Definition keeping {A} (m : py_effect W A) : Prop := forall w, R w (m w).2.

Lemma keeping_bind {A B} (m : py_effect W A) (k : A -> py_effect W B) : keeping m -> (forall a, keeping (k a)) -> keeping (ebind m k).
Proof using HR.
  intros Hm Hk w. unfold ebind. specialize (Hm w). destruct (m w) as [[a|e] w1]; [|done]. eapply kp_trans; [done|done|apply Hk].
Qed.

Lemma keeping_ret {A} (r : result A) : keeping (fun w => (r, w)).
Proof using HR. intros w. by eapply kp_refl. Qed.

Lemma keeping_run args : store_command args -> keeping (_run isinstance s args).
Proof using HR.
  intros Hc w. unfold _run. pose proof (kp_git R HR args (fl_of_Z 30) w Hc) as Hg.
  destruct (git_run (isolated_args args) (_repo_dir s) (fl_of_Z 30) w) as [[[[out err] code]|e] w']; [|done]. by case_match.
Qed.

(** A path of the private area, with its first parts. *)
Lemma private_parts : (forall parts, path_div (private_dir s) parts = join [slash] (private_dir s :: parts)) /\
  (forall parts, path_div (_repo_dir s) parts = path_div (private_dir s) (u "snapshots" :: parts)) /\ _repo_dir s = path_div (private_dir s) [u "snapshots"].
Proof using Hroot.
  clear HR Hreal isinstance. assert (private_dir s = gs_root s ++ [slash] ++ u ".kinetic") as Hp.
  { unfold private_dir, path_div. by rewrite (bool_decide_eq_false_2 _ Hroot). }
  assert (forall a : pystr, a ++ [slash] ++ u ".kinetic" <> [slash]) as Hne.
  { intros l E. apply (f_equal length) in E. rewrite !length_app in E. change (length (u ".kinetic")) with 8 in E. cbn in E. lia. }
  assert (forall parts, path_div (private_dir s) parts = join [slash] (private_dir s :: parts)) as Hj.
  { intros parts. unfold path_div. rewrite bool_decide_eq_false_2; [done|]. rewrite Hp. apply Hne. }
  assert (_repo_dir s = path_div (private_dir s) [u "snapshots"]) as Hr.
  { rewrite Hj, Hp. unfold _repo_dir, path_div. rewrite (bool_decide_eq_false_2 _ Hroot). cbn [join]. by rewrite <- !app_assoc. }
  split; [done|]. split; [|done]. intros parts. rewrite Hr at 1. rewrite !Hj. unfold path_div at 1. rewrite bool_decide_eq_false_2.
  - destruct parts; cbn [join]; by rewrite <- ?app_assoc.
  - rewrite Hp. cbn [join]. intros E. apply (f_equal length) in E. rewrite !length_app in E. change (length (u ".kinetic")) with 8 in E. cbn in E. lia.
Qed.

Lemma private_paths parts : Forall plain_name parts -> private (path_div (_repo_dir s) parts) /\ private (path_div (private_dir s) parts).
Proof using Hroot.
  clear HR Hreal isinstance. intros Hp. split; [|by exists parts]. exists (u "snapshots" :: parts). destruct private_parts as (_ & Hr & _).
  split; [constructor; [literal|done]|apply Hr].
Qed.

Lemma private_root : private (private_dir s) /\ private (_repo_dir s).
Proof using Hroot.
  clear HR Hreal isinstance. destruct private_parts as (Hj & _ & Hr). split; [exists []; split; [constructor|by rewrite Hj]|].
  exists [u "snapshots"]. split; [repeat constructor; literal|done].
Qed.

Lemma validated path w relative : _validate_path isinstance s path w = Ok relative -> Forall plain_name relative.
Proof using Hreal.
  unfold _validate_path. destruct (bool_decide (path = [])); [done|]. destruct (_ || _); [done|].
  destruct (ws_resolve_path (gs_workspace s) path w) as [p|] eqn:Hr; [|done]. destruct (Hreal _ _ _ Hr) as (cs & Hcs & ->).
  rewrite path_comps_rooted by (by apply plain_segments). destruct (parts_below (path_comps (gs_root s)) cs) as [l|] eqn:Hb; [|done].
  intros [= <-]. revert Hb Hcs. clear. generalize (path_comps (gs_root s)). intros root. revert cs.
  induction root as [|r root IH]; intros [|c cs]; cbn; try (by intros [= <-]).
  destruct (bool_decide (r = c)); [|done]. intros Hb [_ Hcs]%Forall_cons. by eapply IH.
Qed.

Lemma ensure_repo_keeps : keeping (_ensure_repo isinstance s).
Proof using HR Hroot.
  assert (keeping (init_repo isinstance s)) as Hinit.
  { apply keeping_bind; [intros w; apply (kp_mkdir R HR), private_root|intros _; apply keeping_bind; [|intros _; apply keeping_bind;
      [apply keeping_run; constructor|intros _; apply keeping_ret]]].
    intros w. cbv zeta. destruct (sc_exists _ w); [by eapply kp_refl|]. apply (kp_write R HR), private_paths. repeat constructor; literal. }
  intros w. unfold _ensure_repo. destruct (sc_is_dir _ w); [by eapply kp_refl|apply Hinit].
Qed.

Lemma Forall_removelast {A} (P : A -> Prop) l : Forall P l -> Forall P (removelast l).
Proof using Type. induction 1 as [|x [|y l] Hx _ IH]; [constructor..|]. by constructor. Qed.

Lemma commit_keeps relative content : Forall plain_name relative -> keeping (commit_snapshot isinstance s relative content).
Proof using HR Hroot.
  intros Hp. apply keeping_bind; [apply ensure_repo_keeps|intros _].
  apply keeping_bind; [intros w; apply (kp_mkdir R HR)|intros _].
  { destruct relative as [|r relative]; [apply private_root|]. apply private_paths. by apply Forall_removelast. }
  apply keeping_bind; [intros w; by apply (kp_write R HR), private_paths|intros _].
  do 3 (apply keeping_bind; [apply keeping_run; by constructor|intros ?]). apply keeping_ret.
Qed.

Lemma snapshot_keeps path content : keeping (store_snapshot isinstance s path content).
Proof using HR Hroot Hreal.
  intros w. unfold store_snapshot. destruct (_validate_path isinstance s path w) as [relative|] eqn:Hv; [|by eapply kp_refl].
  apply validated in Hv. destruct (_is_excluded s relative); [by eapply kp_refl|].
  assert (private (lock_path s)) as Hlock by (apply private_paths; repeat constructor; literal).
  pose proof (keeping_bind (sc_makedirs (private_dir s)) (fun _ => sc_lock (lock_path s)) (fun w => kp_mkdir R HR _ w (proj1 private_root))
    (fun _ w => kp_lock R HR _ w Hlock) w) as Hk1.
  destruct (ebind _ _ w) as [[[]|e] w1]; [|done]. pose proof (commit_keeps relative content Hv w1) as Hk2.
  destruct (commit_snapshot isinstance s relative content w1) as [r w2]. cbn [fst snd] in *.
  eapply (kp_trans R HR); [exact Hk1|]. eapply (kp_trans R HR); [exact Hk2|]. by apply (kp_unlock R HR).
Qed.

Lemma restore_keeps path id : keeping (store_restore isinstance s path id).
Proof using HR Hreal.
  intros w. unfold store_restore, _validate_snapshot_id. destruct (_validate_path isinstance s path w) as [relative|] eqn:Hv; [|by eapply kp_refl].
  apply validated in Hv. destruct (is_snapshot_id id) eqn:Hid; [|by eapply kp_refl]. cbn [rbind].
  destruct (_ensure_exists s w); cbn [rbind]; [|by eapply kp_refl]. by apply keeping_run, CmdShow.
Qed.

Lemma history_keeps path limit : keeping (store_history isinstance s path limit).
Proof using HR Hreal.
  intros w. unfold store_history. destruct (_validate_path isinstance s path w) as [relative|] eqn:Hv; [|by eapply kp_refl].
  apply validated in Hv. destruct limit; try by eapply kp_refl. destruct (z <? 1)%Z eqn:Hz; [by eapply kp_refl|]. apply Z.ltb_ge in Hz.
  destruct (negb _); [by eapply kp_refl|]. apply keeping_bind; [by apply keeping_run, CmdLog|]. intros output. apply keeping_ret.
Qed.
End Confinement.

(** For a store over a workspace that resolves to real paths: whatever path,
    text, id or limit it is given, the store runs no command but those of
    [store_command], isolated from the user's configuration and hooks, in its own
    repository, and changes no file outside its private directory (any relation that
    survives these survives snapshot, restore and history); and a snapshot of a path
    that matches an excluded pattern does nothing at all. *)
Theorem snapshots_stay_private `{PyRuntime, Numerals, Globs} {Ws W : Type} `{!WorkspaceBase Ws W, !GitHost W, !SidecarFiles W}
    isinstance (s : GitSnapshotStore (Ws := Ws)) (R : relation W) path text id limit (w : W) :
  gs_root s <> [slash] -> (forall p w r, ws_resolve_path (gs_workspace s) p w = Ok r -> real_path r) -> kept_private s R ->
  R w (store_snapshot isinstance s path text w).2 /\ R w (store_restore isinstance s path id w).2 /\
  R w (store_history isinstance s path limit w).2 /\
  forall relative, _validate_path isinstance s path w = Ok relative -> _is_excluded s relative = true ->
    store_snapshot isinstance s path text w = (Ok [], w).
Proof.
  intros Hroot Hreal HR. split; [by eapply snapshot_keeps|]. split; [by eapply restore_keeps|]. split; [by eapply history_keeps|].
  intros relative Hv Hx. unfold store_snapshot. by rewrite Hv, Hx.
Qed.

(** Git inherits none of its variables. *)
Lemma snapshot_env_is_isolated environ k v : dict_get k (snapshot_env environ) = Some v ->
  starts_with (u "GIT_") k = true -> (k, v) ∈ [(u "GIT_CONFIG_GLOBAL", u "/dev/null"); (u "GIT_CONFIG_SYSTEM", u "/dev/null"); (u "GIT_CONFIG_NOSYSTEM", u "1")].
Proof.
  intros Hk Hg. unfold snapshot_env in Hk. rewrite !dict_get_set in Hk.
  destruct (decide (k = u "GIT_CONFIG_NOSYSTEM")) as [->|_]; [apply Some_inj in Hk as <-; right; right; left|].
  destruct (decide (k = u "GIT_CONFIG_SYSTEM")) as [->|_]; [apply Some_inj in Hk as <-; right; left|].
  destruct (decide (k = u "GIT_CONFIG_GLOBAL")) as [->|_]; [apply Some_inj in Hk as <-; left|].
  apply dict_get_elem, list_elem_of_filter in Hk as [Hf _]. cbn [fst] in Hf. congruence.
Qed.

(** ** A snapshot *)

Module SnapshotDisk.
#[export] Instance runtime : PyRuntime := decoding_runtime [].
#[export] Instance numerals : Numerals := { parse_float t := Err (value_error t); parse_int t := Err (value_error t) }.
#[export] Instance exact_globs : Globs := { fnmatch name pattern := bool_decide (name = pattern) }.

(** What was done: commands of git, and paths written, made or locked. *)
Inductive deed := Ran (argv : list pystr) (cwd : pystr) | Touched (p : pystr).
Definition deeds : Type := list deed.

Definition touch (p : pystr) (w : deeds) : result unit * deeds := (Ok tt, w ++ [Touched p]).

#[export] Instance disk_workspace : WorkspaceBase unit deeds := {
  ws_root_path _ := u "/w";
  ws_resolve_path _ p w := if bool_decide (p = dot) then Ok (u "/w") else if elem_b p (map u ["a.txt"; ".env"; ".git/config"]) then Ok (u "/w/" ++ p)
    else Err (workspace_error p);
  ws_run_command _ _ _ _ w := (Err (workspace_error []), w);
  ws_read_text _ _ w := (Err (workspace_error []), w); ws_write_text _ _ _ w := (Err (workspace_error []), w);
  ws_delete_file _ _ w := (Err (workspace_error []), w); ws_list_files _ _ w := (Ok [], w); ws_list_directory _ _ w := (Ok [], w);
}.

#[export] Instance disk_git : GitHost deeds := {
  git_run argv cwd _ w := (Ok (u "0123abcd" ++ [10%N], [], 0%Z), w ++ [Ran argv cwd]);
  environ _ := []; call_message _ _ := []; format_g _ := [];
}.

#[export] Instance disk_sidecar : SidecarFiles deeds := {
  sc_is_dir _ _ := false; sc_exists _ _ := false; sc_makedirs := touch; sc_write_text p _ := touch p; sc_lock := touch;
  sc_unlock p w := w;
}.

Definition named_class (e : pyexn) (cls : pystr) : bool := bool_decide (exn_type e = cls).

Definition disk_store : GitSnapshotStore (Ws := unit) := {| gs_workspace := tt; gs_root := u "/w"; gs_exclude_globs := DEFAULT_EXCLUDE_GLOBS; gs_strict := true |}.

Definition done_privately (d : deed) : Prop :=
  match d with
  | Ran argv cwd => cwd = u "/w/.kinetic/snapshots" /\ exists args, store_command args /\ argv = isolated_args args
  | Touched p => private disk_store p
  end.

(** Only private deeds were added. *)
Definition privately (w w' : deeds) : Prop := exists l, w' = w ++ l /\ Forall done_privately l.

Lemma privately_kept : kept_private disk_store privately.
Proof.
  split.
  - intros w. exists []. split; [by rewrite app_nil_r|constructor].
  - intros w1 w2 w3 (l1 & -> & H1) (l2 & -> & H2). exists (l1 ++ l2). rewrite app_assoc. split; [done|by apply Forall_app].
  - intros args t w Hc. exists [Ran (isolated_args args) (_repo_dir disk_store)]. split; [done|]. constructor; [|done].
    split; [by vm_compute|by exists args].
  - intros p w Hp. exists [Touched p]. split; [done|by constructor].
  - intros p text w Hp. exists [Touched p]. split; [done|by constructor].
  - intros p w Hp. exists [Touched p]. split; [done|by constructor].
  - intros p w Hp. exists []. split; [by rewrite app_nil_r|constructor].
Qed.

Lemma disk_resolves p (w : deeds) r : ws_resolve_path tt p w = Ok r -> real_path r.
Proof.
  unfold ws_resolve_path, disk_workspace. destruct (bool_decide (p = dot)).
  { intros [= <-]. exists [u "w"]. split; [repeat constructor; literal|reflexivity]. }
  destruct (elem_b p (map u ["a.txt"; ".env"; ".git/config"]%string)) eqn:Hp; [|discriminate]. intros [= <-]. apply bool_decide_eq_true in Hp.
  apply elem_of_cons in Hp as [->|Hp]; [exists [u "w"; u "a.txt"]; split; [repeat constructor; literal|reflexivity]|].
  apply elem_of_cons in Hp as [->|Hp]; [exists [u "w"; u ".env"]; split; [repeat constructor; literal|reflexivity]|].
  apply elem_of_cons in Hp as [->|Hp]; [exists [u "w"; u ".git"; u "config"]; split; [repeat constructor; literal|reflexivity]|].
  by apply elem_of_nil in Hp.
Qed.

Lemma snapshots_stay_private_witness :
  privately [] (store_snapshot named_class disk_store (u "a.txt") (u "old") []).2 /\
  store_snapshot named_class disk_store (u ".env") (u "KEY=1") [] = (Ok [], []).
Proof.
  destruct (snapshots_stay_private named_class disk_store privately (u "a.txt") (u "old") (u "0123abcd") (JInt 5) []) as (H1 & _);
    [discriminate|exact disk_resolves|exact privately_kept|].
  destruct (snapshots_stay_private named_class disk_store privately (u ".env") (u "KEY=1") (u "0123abcd") (JInt 5) []) as (_ & _ & _ & H2);
    [discriminate|exact disk_resolves|exact privately_kept|].
  split; [exact H1|]. apply (H2 [u ".env"]); vm_compute; reflexivity.
Defined.

(** What a first snapshot does, and the id it returns. *)
Example first_snapshot : let '(r, w) := store_snapshot named_class disk_store (u "a.txt") (u "old") [] in
  r = Ok (u "0123abcd") /\
  omap (fun d => match d with Ran argv _ => Some (drop 7 argv) | Touched _ => None end) w =
    [[u "init"; u "--quiet"]; [u "add"; u "--"; u "a.txt"]; commit_args [u "a.txt"]; [u "rev-parse"; u "HEAD"]].
Proof. vm_compute. split; reflexivity. Qed.

(** An internal path, an absolute one, one that climbs and one the workspace refuses. *)
Example refused_paths : map (fun p => is_ok (_validate_path named_class disk_store (u p) [])) [".kinetic/x"; "/etc/passwd"; "a/../b"; "zz"]%string =
  [false; false; false; false].
Proof. vm_compute. reflexivity. Qed.

(** The path of the configuration of the user's repository, below the private
    repository, is that repository's own configuration: a snapshot of it replaces the
    configuration that git reads next. *)
Example own_configuration_is_replaced :
  Touched (u "/w/.kinetic/snapshots/.git/config") ∈ (store_snapshot named_class disk_store (u ".git/config") (u "[core]") []).2.
Proof. apply list_elem_of_lookup. exists 6. vm_compute. reflexivity. Qed.

(** Git exits with 1 when there is nothing to commit. *)
Definition unchanged_git : GitHost deeds := {|
  git_run argv _ _ w := (Ok (u "nothing to commit", [], if elem_b (u "commit") argv then 1%Z else 0%Z), w);
  environ _ := []; call_message _ _ := []; format_g _ := [] |}.

(** So the second snapshot of a text, though the first is kept, fails. *)
Example same_text_again_fails : (store_snapshot (GitHost0 := unchanged_git) named_class disk_store (u "a.txt") (u "old") []).1 =
  Err (snapshot_error (u "nothing to commit")).
Proof. vm_compute. reflexivity. Qed.
End SnapshotDisk.
